(* ===== verification/_CoqProject ===== *)
-Q . S2P
Prelude.v
GoTime.v
GoNetip.v
Control.v
Metadata.v
PolicyModel.v
PolicyValidate.v
PolicyCanonical.v
PolicyCompat.v
PolicyAuthz.v
PolicySelector.v
PolicySource.v
PolicyEnvelope.v
PolicyCompose.v
PolicySemantic.v
PolicyBundle.v
PolicyRollback.v
PolicyDiff.v
PolicyClock.v
PolicyApproval.v
StoreRecords.v
StoreLeases.v
LeaseGuard.v
LeaseIssue.v
ReconContracts.v
ReconReadiness.v
ReconJournal.v
ReconCheckpoint.v
ReconAdapter.v
ReconCancel.v
Connectivity.v
ConnAccept.v
ConnReduce.v
ConnAggregate.v
TunnelPlan.v
RoutePlan.v
Events.v
Faults.v
Spool.v
SpoolSafety.v
Handover.v
HandoverSafety.v
ConnStore.v
ConnStoreSafety.v
ConnJournal.v
ConnReplay.v
ConnLineage.v
ConnRuntime.v
ConnRuntimeSafety.v
ConnRuntimeSample.v
Archive.v
ArchiveSafety.v
ArchiveIndex.v
ArchiveSample.v
PritunlPlan.v
PritunlSafety.v
