(* ===== verification/Prelude.v ===== *)
(** * Hexroute: a verification library for the reliability control plane

    Hexroute keeps a host's connectivity in order: two daemons (one root, one user)
    observe the host, journal what they see, reduce it to a picture of the components,
    plan repairs, and may carry out an action only under a signed policy and a lease
    that is used once.  The library models the packages under [src/internal] that decide
    and remember; the packages that only talk to the operating system, a database or
    the network are listed at the end.

    ** The parts, and where they are modelled

    - Shared: this file (errors as values, machine integers, strings, sorting, tactics
      and the hint database), [GoTime] (the parts of [time] used: the calendar,
      RFC 3339 texts, saturating differences), [GoNetip] (addresses and prefixes).
    - Recovery, [control/]: [Control] ([Module Types], [Module Machine]; the snapshot
      and [Step]).
    - Metadata, [metadata/]: [Metadata] (UUIDs, the sequence generator).
    - Policy, [policy/]: [PolicyModel], [PolicyValidate], [PolicyCanonical] (documents,
      validation, canonical encodings and digests), [PolicyCompat], [PolicyAuthz]
      (may an action run now), [PolicySelector], [PolicySource], [PolicyEnvelope],
      [PolicyCompose] (from the operator's source to the effective policy),
      [PolicySemantic], [PolicyBundle], [PolicyRollback], [PolicyDiff].
    - Policy at run time: [PolicyClock] ([policyclock/]), [PolicyApproval]
      ([policyapproval/]), [StoreRecords] and [StoreLeases] ([policystore/]),
      [LeaseGuard] and [LeaseIssue] ([actionlease/]).
    - Reconciler, [reconciler/]: [ReconContracts], [ReconReadiness], [ReconJournal],
      [ReconCheckpoint], [ReconAdapter], [ReconCancel].
    - Connectivity: [Connectivity] ([connectivity/] and the table of
      [safety/connectivity.go]), [ConnAccept] ([connectivityaccept/]), [ConnReduce] and
      [ConnAggregate] ([connectivityreduce/]).
    - Planning: [TunnelPlan] ([tunnelplan/]), [RoutePlan] ([routeplace/], [routeplan/],
      [safety/route.go]).
    - Events: [Events] ([event/]), [Spool] and [SpoolSafety] ([spool/]).
    - Steps that can fail: [Faults] (the monad of steps that may stop, and its triples).
    - Tunnel ownership, [tunnelclaim/] and [tunnelhandover/]: [Handover],
      [HandoverSafety].
    - The lineage of the read model: [ConnStore] and [ConnStoreSafety] (the checkpoints
      that [connectivitycheckpoint/] stores, and what a start resumes from),
      [ConnJournal] ([connectivityjournal/], over the spool), [ConnReplay] (replay,
      sealing and verification of links), [ConnLineage] (their correctness),
      [ConnRuntime] ([connectivityruntime/]: starting, publishing, ticking),
      [ConnRuntimeSafety] and [ConnRuntimeSample] (the same on a concrete host).
    - The event archive, [eventarchive/] and [diskusage/]: [Archive], [ArchiveSafety],
      [ArchiveIndex] (the listing in memory), [ArchiveSample] (a concrete archive).
    - User access, [pritunlplan/]: [PritunlPlan] over the machine of [Control],
      [PritunlSafety].

    A package's struct is a [Record], inside a module of its name when its fields would
    collide; an exported function keeps its name; a loop of a function that needs an
    induction of its own is a [Fixpoint] of the same file.  A Go function that returns
    an error is a [result]; one that changes its receiver returns the new state beside
    the result; integers are [Z], with the wrap-around written out wherever the code can
    reach it ([u32], [u64], [i64]).

    ** How the parts interact

    Facts pass [Connectivity.Decode], are ordered by [ConnAccept], reduced by
    [ConnReduce], and recorded by [ConnJournal] through [Events] in the [Spool], whose
    sequence numbers come from [Metadata]; the reduced snapshots are sealed by
    [ConnReplay] and stored by [ConnStore].  A proposal of the reducer is translated by [ReconReadiness]
    into a plan, whose attempt lives in [ReconJournal], is checkpointed by
    [ReconCheckpoint], carried out through [ReconAdapter] and undone by [ReconCancel].
    An action runs only when [PolicyAuthz] grants it under the policy that
    [PolicyCompose] made and [PolicyApproval] verified, with a lease of [LeaseIssue]
    kept by [StoreLeases] and used through [LeaseGuard].  Where one part uses another
    through an interface of the source, the client is proved against a class:
    [ExecutionStore] with [ExecutionStoreLaws] (discharged by [StoreLeases]),
    [AttemptStateJournal] with [AttemptJournalLaws] (discharged by both journals of
    [ReconJournal]), [SyntheticAdapter] (the memory and the fault-injecting adapter).

    ** What the theorems show

    - One execution: whatever the interleaving of guards, stores and crashes, a lease
      is executed by one claimant and resolved once ([LeaseGuard]); records of the
      store survive every later call ([StoreLeases]); an attempt runs once and a torn
      journal is detected ([ReconJournal]); a resume has one owner ([ReconCheckpoint]);
      a rollback restores the state before ([ReconCancel]).
    - Authority: an authorization is granted exactly when its condition holds
      ([PolicyAuthz]); composed policies stay inside the compiled envelope and keep the
      operator's denials ([PolicyCompose]); the conflict scan is complete
      ([PolicySelector]); generations, upgrades and rollbacks move forward.
    - The read model: the acceptor decides as a specification over the whole history
      does and loses nothing silently ([ConnAccept]); the reducer follows the acceptor,
      summaries are pessimistic, a wake withdraws readiness ([ConnAggregate]).
    - Plans: a route plan converges and is safe ([RoutePlan]); tunnel decisions follow
      from the history of cycles ([TunnelPlan]).
    - Events: encoded events decode to themselves and decoded ones are well typed
      ([Events]); an append keeps the spool within its bound, evicts in order and is
      readable, whatever the disk refuses, and a spool interrupted anywhere opens again
      ([SpoolSafety]).
    - Tunnel ownership: neither taking a tunnel over nor giving it back leaves two
      owners running, whatever fails; an abandoned handover is undone; completion needs
      traffic; the transactions end ([HandoverSafety]).
    - Lineage: a start resumes from the newest checkpoint that it can prove
      ([ConnStore]); interruptions of any appends leave a lineage that a start finds
      ([ConnStoreSafety]); a sealed link is reproduced by replaying its journal
      ([ConnLineage]); reading a journal from its end loses nothing ([ConnJournal]).
    - The running read model: publications and ticks keep the acceptor, the waiting
      events and the snapshot in step, and a restart restores that from the checkpoint
      and the journals ([ConnRuntimeSafety]); [ConnRuntimeSample] shows where the code
      leaves that behind.
    - Archive: only old or uncritical records go, and an append that returns has named
      them ([ArchiveSafety]); the listing in memory is what a walk of the directory would
      find ([ArchiveIndex]); [ArchiveSample] shows what a crash leaves unnamed.
    - User access: the planner's reconnections are the recoveries its machine approves,
      and each action is earned by what was observed ([PritunlSafety]).

    ** Parameters and their laws

    Code that is not part of the repository is an argument: [encoding/json] with the
    RFC 8785 canonicalizer and SHA-256 ([JSON], [Codec]; [CodecLaws], [EventLaws],
    [SpoolLaws], [LineageLaws], [JournalText]: what was written is read back, for values
    whose integers are at most 2^53 and whose strings are valid UTF-8, which [exact] tells apart; no
    law makes a digest injective), Ed25519 ([Ed25519]), the YAML decoder ([YAML]),
    clocks and random bytes (arguments or streams), the order in which a Go map is
    walked ([walk], any permutation), and what the operating system answers ([Env] of
    [StoreRecords], the outcomes of [ReconJournal], the script of [Spool], the turns and
    readings of [Handover]).  Every theorem with such a law has a witness over a concrete instance.

    ** Fuel and bounds

    Loops are structural wherever the data is.  The exceptions: the backoff loop of
    [Control] runs on fuel that its termination theorem shows sufficient;
    [parse_v6_groups] of [GoNetip] has the eight groups of an address as fuel; the
    passes of [evictable] have the number of files plus two, since each pass removes
    one; [read_range] takes fuel as an argument, because the loop of the source need
    not end ([range_never_ends]).
    The waiting loops of [Handover] run on [loop_fuel], their bound divided by the pause
    between rounds, plus two, which [transactions_end] shows sufficient.  The searches of
    [ConnStore] run on the store's recovery depth, as the source's do.

    ** Not modelled

    Mutexes are not modelled as such: a method that holds one throughout is one step.
    fsync is a point at which an operation can stop; that data not yet flushed is lost
    in a power failure is not modelled.  Reading a file that is there succeeds, except
    where an outcome says otherwise.  [strings.ToLower] is the ASCII one.  Nil receivers
    and the sums of sizes beyond 2^63 are left out.  Of the repository: the daemons and
    command lines, sockets, processes, probes and route tables of the host, the cloud
    services over a database, the dashboard, and the test catalogues; the manifest lists
    each with its reason. *)

From Stdlib Require Import ZArith Lia Ascii String.
From stdpp Require Import base strings list gmap sorting.

Open Scope Z_scope.

(** ** Errors as values

    A Go function returning [(T, error)] is a [result E T], [E] being the
    inductive type of the sentinel errors of its package. *)

Inductive result (E A : Type) : Type :=
| Ok (a : A)
| Err (e : E).
Arguments Ok {E A} a.
Arguments Err {E A} e.

#[export] Instance result_eq_dec E A `{!EqDecision E, !EqDecision A} :
  EqDecision (result E A).
Proof. solve_decision. Defined.

#[export] Instance result_ret E : MRet (result E) := fun A a => Ok a.
#[export] Instance result_bind E : MBind (result E) :=
  fun A B f m => match m with Ok a => f a | Err e => Err e end.

(** [ensure b e]: an [if !b { return e }] guard. *)
Definition ensure {E} (b : bool) (e : E) : result E unit :=
  if b then Ok tt else Err e.

Definition is_ok {E A} (r : result E A) : bool :=
  match r with Ok _ => true | Err _ => false end.

(** The [err == nil] side of a call whose error is replaced by the caller's. *)
Definition of_option {E A} (e : E) (o : option A) : result E A :=
  match o with Some a => Ok a | None => Err e end.

Definition map_err {E F A} (f : E -> F) (r : result E A) : result F A :=
  match r with Ok a => Ok a | Err e => Err (f e) end.

Lemma bind_Ok {E A B} (m : result E A) (k : A -> result E B) b :
  (m ≫= k) = Ok b <-> exists a, m = Ok a /\ k a = Ok b.
Proof. destruct m as [a|e]; simpl; [naive_solver|]. split; [done|]. by intros (? & ? & _). Qed.

Lemma Ok_bind {E A B} (a : A) (k : A -> result E B) : (Ok a ≫= k) = k a.
Proof. reflexivity. Qed.

Lemma ensure_Ok {E} b (e : E) u : ensure b e = Ok u <-> b = true.
Proof. destruct b, u; simpl; naive_solver. Qed.

(** A loop that stops at the first error computed a value for every element. *)
Lemma mapM_Ok {E A B} (f : A -> result E B) l k :
  mapM f l = Ok k <-> Forall2 (fun x y => f x = Ok y) l k.
Proof.
  revert k. induction l as [|x l IH]; intros k; simpl.
  - split; [intros [= <-]; constructor|]. by inversion 1.
  - rewrite bind_Ok. setoid_rewrite bind_Ok. setoid_rewrite IH. split.
    + intros (y & Hx & ys & Hl & [= <-]). by constructor.
    + inversion 1 as [|? y ? ys]; subst. naive_solver.
Qed.

(** ** Machine integers

    Values keep the range of their Go type; [u64] and [i64] are the wrap-around
    of the operators of [uint64] and [int64]. *)

Definition max_u16 : Z := 2 ^ 16 - 1.
Definition max_u32 : Z := 2 ^ 32 - 1.
Definition max_u64 : Z := 2 ^ 64 - 1.
Definition min_i64 : Z := - 2 ^ 63.
Definition max_i64 : Z := 2 ^ 63 - 1.

Definition u16 (z : Z) : Z := z mod 2 ^ 16.
Definition u32 (z : Z) : Z := z mod 2 ^ 32.
Definition u64 (z : Z) : Z := z mod 2 ^ 64.
Definition i64 (z : Z) : Z := (z + 2 ^ 63) mod 2 ^ 64 - 2 ^ 63.

Lemma u32_small z : 0 <= z <= max_u32 -> u32 z = z.
Proof. unfold u32, max_u32. intros. apply Z.mod_small. lia. Qed.

Lemma u64_small z : 0 <= z <= max_u64 -> u64 z = z.
Proof. unfold u64, max_u64. intros. apply Z.mod_small. lia. Qed.

Lemma i64_small z : min_i64 <= z <= max_i64 -> i64 z = z.
Proof.
  unfold i64, min_i64, max_i64. intros.
  rewrite Z.mod_small by lia. lia.
Qed.

Lemma i64_range z : min_i64 <= i64 z <= max_i64.
Proof.
  unfold i64, min_i64, max_i64.
  pose proof (Z.mod_pos_bound (z + 2 ^ 63) (2 ^ 64) ltac:(lia)). lia.
Qed.

Lemma u32_range z : 0 <= u32 z <= max_u32.
Proof.
  unfold u32, max_u32. pose proof (Z.mod_pos_bound z (2 ^ 32) ltac:(lia)). lia.
Qed.

Lemma u64_range z : 0 <= u64 z <= max_u64.
Proof.
  unfold u64, max_u64. pose proof (Z.mod_pos_bound z (2 ^ 64) ltac:(lia)). lia.
Qed.

(** ** Strings

    A Go string is a sequence of bytes: [String.string] over [ascii], compared
    byte by byte, which is [String.compare]. *)

Abbreviation slen s := (Z.of_nat (String.length s)).

Definition chars (s : string) : list ascii := String.list_ascii_of_string s.
Definition of_chars (l : list ascii) : string := String.string_of_list_ascii l.

Lemma chars_of_chars l : chars (of_chars l) = l.
Proof. apply String.list_ascii_of_string_of_list_ascii. Qed.

Lemma of_chars_chars s : of_chars (chars s) = s.
Proof. apply String.string_of_list_ascii_of_string. Qed.

#[export] Instance chars_inj : Inj (=) (=) chars.
Proof. intros s t H. by rewrite <- (of_chars_chars s), H, of_chars_chars. Qed.

Lemma chars_app s t : chars (s ++ t)%string = chars s ++ chars t.
Proof. induction s as [|c s IH]; [done|]. simpl. by rewrite IH. Qed.

Lemma length_chars s : length (chars s) = String.length s.
Proof. induction s; simpl; congruence. Qed.

Definition code (c : ascii) : Z := Z.of_nat (nat_of_ascii c).
Definition in_range (lo hi c : ascii) : bool := (code lo <=? code c) && (code c <=? code hi).

Definition is_lower (c : ascii) : bool := in_range "a" "z" c.
Definition is_upper (c : ascii) : bool := in_range "A" "Z" c.
Definition is_digit (c : ascii) : bool := in_range "0" "9" c.
Definition is_lower_hex (c : ascii) : bool := is_digit c || in_range "a" "f" c.

(** [strings.HasPrefix], [HasSuffix], [CutPrefix], [Split] and [strings.ToLower]
    restricted to what the callers distinguish. *)
Definition has_prefix (p s : string) : bool := String.prefix p s.

Definition has_suffix (p s : string) : bool :=
  bool_decide (drop (length (chars s) - length (chars p)) (chars s) = chars p).

Lemma has_suffix_spec p s : has_suffix p s = true <-> exists l, chars s = l ++ chars p.
Proof.
  unfold has_suffix. rewrite bool_decide_eq_true. split.
  - intros Hd. exists (take (length (chars s) - length (chars p)) (chars s)).
    rewrite <- (take_drop (length (chars s) - length (chars p)) (chars s)) at 1. by rewrite Hd.
  - intros [l Hl]. rewrite Hl, length_app, drop_app_length'; [done|lia].
Qed.

Fixpoint drop_string (n : nat) (s : string) : string :=
  match n, s with
  | O, _ => s
  | S n', String _ s' => drop_string n' s'
  | S _, EmptyString => EmptyString
  end.

Definition cut_prefix (p s : string) : string * bool :=
  if has_prefix p s then (drop_string (String.length p) s, true) else (s, false).

Fixpoint split_on (sep : ascii) (l : list ascii) : list (list ascii) :=
  match l with
  | [] => [[]]
  | c :: l' =>
      if Ascii.eqb c sep then [] :: split_on sep l'
      else match split_on sep l' with
           | [] => [[c]]
           | w :: ws => (c :: w) :: ws
           end
  end.

Definition has_upper (s : string) : bool := existsb is_upper (chars s).

(** ** Lists *)

Definition contains_string (l : list string) (s : string) : bool :=
  existsb (String.eqb s) l.

Lemma contains_string_spec l s : contains_string l s = true <-> s ∈ l.
Proof.
  unfold contains_string. rewrite existsb_exists. split.
  - intros (x & Hin & ->%String.eqb_eq). by apply list_elem_of_In.
  - intros Hin%list_elem_of_In. exists s. by rewrite String.eqb_refl.
Qed.

(** A loop that records what it has seen in a [map[string]struct{}] and stops at
    the first repetition. *)
Fixpoint distinct_strings (l : list string) : bool :=
  match l with
  | [] => true
  | x :: l' => negb (contains_string l' x) && distinct_strings l'
  end.

Lemma distinct_strings_NoDup l : distinct_strings l = true <-> NoDup l.
Proof.
  induction l as [|x l IH]; simpl.
  - split; [constructor | done].
  - rewrite andb_true_iff, negb_true_iff, IH, NoDup_cons, <- contains_string_spec.
    destruct (contains_string l x); naive_solver.
Qed.

Lemma filter_perm {A} (p : A -> bool) l k : l ≡ₚ k -> List.filter p l ≡ₚ List.filter p k.
Proof. induction 1; cbn; repeat case_match; econstructor || done; eauto. Qed.

(** [sort.Slice]: the sorted permutation for the order given by [less]. *)
Section sort_slice.
Context {A : Type} (less : A -> A -> bool).

Definition not_after (x y : A) : Prop := less y x = false.

#[export] Instance not_after_dec x y : Decision (not_after x y).
Proof. unfold not_after. apply _. Defined.

Definition sort_slice (l : list A) : list A := merge_sort not_after l.

Lemma sort_slice_perm l : sort_slice l ≡ₚ l.
Proof. apply merge_sort_Permutation. Qed.

Lemma elem_of_sort_slice x l : x ∈ sort_slice l <-> x ∈ l.
Proof. by rewrite sort_slice_perm. Qed.

Lemma length_sort_slice l : length (sort_slice l) = length l.
Proof. by rewrite sort_slice_perm. Qed.

Lemma sort_slice_sorted `{!Total not_after} l : Sorted not_after (sort_slice l).
Proof. by apply Sorted_merge_sort. Qed.
End sort_slice.

Definition sort_strings (l : list string) : list string := sort_slice String.ltb l.

(** The order of Go strings is total, transitive and antisymmetric, so the sorted
    list only depends on the elements. *)
Lemma not_after_strings x y : not_after String.ltb x y <-> String.compare x y <> Gt.
Proof.
  unfold not_after, String.ltb. rewrite (String.compare_antisym y x).
  destruct (String.compare x y); simpl; naive_solver.
Qed.

#[export] Instance strings_total : Total (not_after String.ltb).
Proof.
  intros x y. rewrite !not_after_strings, (String.compare_antisym y x).
  destruct (String.compare x y); simpl; (by left) || by right.
Qed.

#[export] Instance strings_antisymm : AntiSymm (=) (not_after String.ltb).
Proof.
  intros x y. rewrite !not_after_strings, (String.compare_antisym y x).
  destruct (String.compare x y) eqn:Hc; simpl; intros; try done. by apply String.compare_eq_iff.
Qed.

Lemma ascii_compare_lt x y : Ascii.compare x y = Lt <-> code x < code y.
Proof.
  unfold Ascii.compare, code, nat_of_ascii. rewrite N.compare_lt_iff. lia.
Qed.

Lemma ascii_compare_gt x y : Ascii.compare x y = Gt <-> code y < code x.
Proof. rewrite Ascii.compare_antisym, CompOpp_iff. apply ascii_compare_lt. Qed.

Lemma string_compare_cons a x b y : String.compare (String a x) (String b y) <> Gt <->
  code a < code b \/ (a = b /\ String.compare x y <> Gt).
Proof.
  simpl. destruct (Ascii.compare a b) eqn:Hc.
  - apply Ascii.compare_eq_iff in Hc as ->. split; [by right|]. intros [?|[_ ?]]; [lia|done].
  - apply ascii_compare_lt in Hc. naive_solver.
  - split; [done|]. intros [Hl|[-> _]]; apply ascii_compare_gt in Hc; lia.
Qed.

#[export] Instance strings_transitive : Transitive (not_after String.ltb).
Proof.
  intros x y z. rewrite !not_after_strings. revert y z.
  induction x as [|a x IH]; intros [|b y] [|c z]; try done.
  rewrite !string_compare_cons. intros [H1|[-> H1]] [H2|[-> H2]]; [left; lia|by left|by left|].
  right. split; [done|]. by eapply IH.
Qed.

Lemma sort_strings_perm l1 l2 : l1 ≡ₚ l2 -> sort_strings l1 = sort_strings l2.
Proof.
  intros Hp. apply (Sorted_unique (not_after String.ltb)); [apply sort_slice_sorted, _..|].
  unfold sort_strings. by rewrite !sort_slice_perm.
Qed.

(** A comparison by a first field and then by others, as the comparison functions of the
    code are written. *)
Section lexicographic.
Context {A B : Type} (f : A -> B) (R1 : B -> B -> Prop) (R2 : A -> A -> Prop).

Definition lexicographic (x y : A) : Prop := (f x <> f y /\ R1 (f x) (f y)) \/ (f x = f y /\ R2 x y).

Lemma lexicographic_transitive `{!EqDecision B, !AntiSymm (=) R1} : Transitive R1 -> Transitive R2 -> Transitive lexicographic.
Proof.
  intros T1 T2 x y z [[N1 H1]|[E1 H1]] [[N2 H2]|[E2 H2]]; unfold lexicographic.
  - destruct (decide (f x = f z)) as [He|]; [|left; split; [done|by etrans]].
    exfalso. apply N1. apply (anti_symm R1); [done|by rewrite He].
  - left. by rewrite <- E2.
  - left. by rewrite E1.
  - right. split; [congruence|by etrans].
Qed.

Lemma lexicographic_total `{!EqDecision B} : Total R1 -> Total R2 -> Total lexicographic.
Proof.
  intros T1 T2 x y. unfold lexicographic. destruct (decide (f x = f y)) as [He|Hn].
  - destruct (T2 x y); [left|right]; right; done.
  - destruct (T1 (f x) (f y)); [left|right]; left; (split; [congruence|done]).
Qed.

Lemma lexicographic_both `{!AntiSymm (=) R1} x y : lexicographic x y -> lexicographic y x -> f x = f y /\ R2 x y /\ R2 y x.
Proof. intros [[N1 H1]|[E1 H1]] [[N2 H2]|[E2 H2]]; try done; try congruence. exfalso. by apply N1, (anti_symm R1). Qed.
End lexicographic.

(** A sort whose comparison tells all the elements apart does not depend on the order
    it is given them in. *)
Lemma sort_slice_determined {A} (less : A -> A -> bool) l k :
  Transitive (not_after less) -> Total (not_after less) -> l ≡ₚ k ->
  (forall x y, x ∈ l -> y ∈ l -> not_after less x y -> not_after less y x -> x = y) ->
  sort_slice less l = sort_slice less k.
Proof.
  intros Ht Hto Hp Ha. apply (StronglySorted_unique_strong (not_after less)).
  - intros x y Hx%elem_of_sort_slice Hy%elem_of_sort_slice. apply Ha; [done|]. by rewrite Hp.
  - by apply StronglySorted_merge_sort.
  - by apply StronglySorted_merge_sort.
  - by rewrite !sort_slice_perm.
Qed.

(** ** Proof automation

    [hexroute]: facts that close the routine side conditions of the components.
    [inv_result]: case analysis of a chain of guards that ended in a value. *)

Create HintDb hexroute.
#[export] Hint Resolve u32_range u64_range i64_range : hexroute.

Ltac bool_prop :=
  repeat match goal with
  | H : _ && _ = true |- _ => apply andb_true_iff in H as [? ?]
  | H : _ || _ = false |- _ => apply orb_false_iff in H as [? ?]
  | H : negb _ = true |- _ => apply negb_true_iff in H
  | H : negb _ = false |- _ => apply negb_false_iff in H
  | H : (_ =? _) = true |- _ => apply Z.eqb_eq in H
  | H : (_ =? _) = false |- _ => apply Z.eqb_neq in H
  | H : (_ <? _) = true |- _ => apply Z.ltb_lt in H
  | H : (_ <? _) = false |- _ => apply Z.ltb_ge in H
  | H : (_ <=? _) = true |- _ => apply Z.leb_le in H
  | H : (_ <=? _) = false |- _ => apply Z.leb_gt in H
  | H : String.eqb _ _ = true |- _ => apply String.eqb_eq in H
  | H : String.eqb _ _ = false |- _ => apply String.eqb_neq in H
  | H : bool_decide _ = true |- _ => apply bool_decide_eq_true in H
  | H : bool_decide _ = false |- _ => apply bool_decide_eq_false in H
  end.

Ltac inv_result_step :=
  match goal with
  | H : Ok _ = Ok _ |- _ => injection H as H; subst
  | H : Err _ = Err _ |- _ => injection H as H; subst
  | H : Ok _ = Err _ |- _ => discriminate H
  | H : Err _ = Ok _ |- _ => discriminate H
  | H : Some _ = Some _ |- _ => injection H as H; subst
  | H : Some _ = None |- _ => discriminate H
  | H : None = Some _ |- _ => discriminate H
  | H : (_, _) = (_, _) |- _ => injection H as H; subst
  | H : (if ?b then _ else _) = _ |- _ => destruct b eqn:?
  | H : match ?x with _ => _ end = _ |- _ => destruct x eqn:?
  end.
(** Splits the hypothesis that a chain of binds succeeds. *)
Ltac inv_bind :=
  repeat match goal with
  | H : (_ ≫= _) = Ok _ |- _ => apply bind_Ok in H as (? & ? & H)
  | H : ensure _ _ = Ok _ |- _ => apply ensure_Ok in H
  | H : Ok _ = Ok _ |- _ => injection H as H; subst
  end.

Ltac inv_result := repeat (inv_result_step; simplify_eq).
