(* ===== verification/GoTime.v ===== *)
(** * The parts of Go's [time] package the program relies on

    An instant is the number of nanoseconds since the zero [time.Time],
    0001-01-01T00:00:00Z, so [IsZero] is equality with 0.  The file models the
    proleptic Gregorian calendar, [Format(time.RFC3339Nano)] of a UTC time,
    [time.Parse(time.RFC3339Nano, _)] with everything that layout accepts (one
    digit hours, comma fractions, numeric offsets) and the saturating [Sub].
    [parseCanonicalUTC], which the policy, policystore and policyapproval packages
    each define, accepts exactly the strings [Format] writes. *)

From Stdlib Require Import ZArith Lia Ascii String.
From stdpp Require Import base strings list gmap pretty.
From S2P Require Import Prelude.

Open Scope Z_scope.

Definition second_ns : Z := 1000000000.
Definition day_s : Z := 86400.

(** ** The calendar *)

Definition is_leap (y : Z) : bool :=
  (y mod 4 =? 0) && (negb (y mod 100 =? 0) || (y mod 400 =? 0)).

(** Days from 0001-01-01 to the first of January of [y]. *)
Definition days_before_year (y : Z) : Z :=
  365 * (y - 1) + (y - 1) / 4 - (y - 1) / 100 + (y - 1) / 400.

Definition month_lengths (leap : bool) : list Z :=
  [31; if leap then 29 else 28; 31; 30; 31; 30; 31; 31; 30; 31; 30; 31].

Definition days_in (leap : bool) (month : Z) : Z :=
  default 0 (month_lengths leap !! Z.to_nat (month - 1)).

Fixpoint sum_first (n : nat) (l : list Z) : Z :=
  match n, l with
  | S n', x :: l' => x + sum_first n' l'
  | _, _ => 0
  end.

Definition days_before_month (leap : bool) (month : Z) : Z :=
  sum_first (Z.to_nat (month - 1)) (month_lengths leap).

Definition days_of_civil (y month day : Z) : Z :=
  days_before_year y + days_before_month (is_leap y) month + (day - 1).

Definition year_of_days (z : Z) : Z * Z :=
  let a := z / 146097 in
  let r := z mod 146097 in
  let b := Z.min 3 (r / 36524) in
  let r1 := r - 36524 * b in
  let c := r1 / 1461 in
  let r2 := r1 mod 1461 in
  let e := Z.min 3 (r2 / 365) in
  (400 * a + 100 * b + 4 * c + e + 1, r2 - 365 * e).

Fixpoint month_of_yday (l : list Z) (month yday : Z) : Z * Z :=
  match l with
  | [] => (month, yday + 1)
  | n :: l' => if yday <? n then (month, yday + 1) else month_of_yday l' (month + 1) (yday - n)
  end.

Definition civil_of_days (z : Z) : Z * Z * Z :=
  let '(y, yday) := year_of_days z in
  let '(month, day) := month_of_yday (month_lengths (is_leap y)) 1 yday in
  (y, month, day).

(** ** Instants *)

Definition Year (t : Z) : Z := fst (year_of_days (t / (second_ns * day_s))).
Definition IsZero (t : Z) : bool := t =? 0.
Definition Before (t u : Z) : bool := t <? u.
Definition After (t u : Z) : bool := u <? t.

(** [Sub] saturates at the ends of [time.Duration]. *)
Definition Sub (t u : Z) : Z := Z.max min_i64 (Z.min max_i64 (t - u)).

(** [validObservedAt], [validAuthorizationTime]: not zero and a four-digit year. *)
Definition year_in_range (t : Z) : bool :=
  negb (IsZero t) && (1 <=? Year t) && (Year t <=? 9999).

(** ** Format(time.RFC3339Nano) in UTC *)

Definition digit (d : Z) : ascii := ascii_of_nat (Z.to_nat (48 + d)).
Definition digit_value (c : ascii) : Z := code c - 48.

Fixpoint digits (w : nat) (z : Z) : list ascii :=
  match w with
  | O => []
  | S w' => digit ((z / 10 ^ Z.of_nat w') mod 10) :: digits w' z
  end.

Definition format_year (y : Z) : list ascii :=
  if (0 <=? y) && (y <=? 9999) then digits 4 y
  else if y <? 0 then "-"%char :: (if - y <=? 9999 then digits 4 (- y) else chars (pretty (- y)))
  else chars (pretty y).

Fixpoint trim_zeros (l : list ascii) : list ascii :=
  match l with
  | [] => []
  | c :: l' =>
      match trim_zeros l' with
      | [] => if Ascii.eqb c "0" then [] else [c]
      | l'' => c :: l''
      end
  end.

Definition format_fraction (ns : Z) : list ascii :=
  match trim_zeros (digits 9 ns) with
  | [] => []
  | l => "."%char :: l
  end.

Definition format_chars (t : Z) : list ascii :=
  let sec := t / second_ns in
  let '(y, month, day) := civil_of_days (sec / day_s) in
  let s := sec mod day_s in
  format_year y ++ "-"%char :: digits 2 month ++ "-"%char :: digits 2 day ++
  "T"%char :: digits 2 (s / 3600) ++ ":"%char :: digits 2 (s / 60 mod 60) ++
  ":"%char :: digits 2 (s mod 60) ++ format_fraction (t mod second_ns) ++ ["Z"%char].

Definition Format (t : Z) : string := of_chars (format_chars t).

(** ** time.Parse(time.RFC3339Nano, _) *)

Definition literal (c : ascii) (l : list ascii) : option (list ascii) :=
  match l with
  | c' :: l' => if Ascii.eqb c c' then Some l' else None
  | [] => None
  end.

Fixpoint number (w : nat) (acc : Z) (l : list ascii) : option (Z * list ascii) :=
  match w with
  | O => Some (acc, l)
  | S w' =>
      match l with
      | c :: l' => if is_digit c then number w' (10 * acc + digit_value c) l' else None
      | [] => None
      end
  end.

(** [getnum] with [fixed = false]: the hour may have one digit. *)
Definition hour_number (l : list ascii) : option (Z * list ascii) :=
  match l with
  | c :: c' :: _ => if is_digit c' then number 2 0 l else number 1 0 l
  | _ => number 1 0 l
  end.

Fixpoint span_digits (l : list ascii) : list ascii * list ascii :=
  match l with
  | c :: l' => if is_digit c then let '(d, r) := span_digits l' in (c :: d, r) else ([], l)
  | [] => ([], [])
  end.

Definition digits_value (l : list ascii) : Z :=
  fold_left (fun acc c => 10 * acc + digit_value c) l 0.

(** The fraction keeps nine digits; a missing one is scaled. *)
Definition fraction (l : list ascii) : Z * list ascii :=
  match l with
  | c :: ((c' :: _) as l') =>
      if (Ascii.eqb c "." || Ascii.eqb c ",") && is_digit c' then
        let '(ds, rest) := span_digits l' in
        let kept := take 9 ds in
        (digits_value kept * 10 ^ (9 - Z.of_nat (length kept)), rest)
      else (0, l)
  | _ => (0, l)
  end.

(** The zone: [Z], or a numeric offset; the boolean says whether the parsed
    time's location is [time.UTC]. *)
Definition zone (l : list ascii) : option (Z * bool * list ascii) :=
  match l with
  | "Z"%char :: l' => Some (0, true, l')
  | sign :: l' =>
      '(hh, l1) ← number 2 0 l';
      l2 ← literal ":" l1;
      '(mm, l3) ← number 2 0 l2;
      if (24 <? hh) || (60 <? mm) then None
      else if Ascii.eqb sign "+" then Some ((hh * 60 + mm) * 60, false, l3)
      else if Ascii.eqb sign "-" then Some (- ((hh * 60 + mm) * 60), false, l3)
      else None
  | [] => None
  end.

Definition parse_chars (l : list ascii) : option (Z * bool) :=
  '(year, l) ← number 4 0 l;
  l ← literal "-" l;
  '(month, l) ← number 2 0 l;
  l ← literal "-" l;
  '(day, l) ← number 2 0 l;
  l ← literal "T" l;
  '(hour, l) ← hour_number l;
  l ← literal ":" l;
  '(minute, l) ← number 2 0 l;
  l ← literal ":" l;
  '(sec, l) ← number 2 0 l;
  let '(ns, l) := fraction l in
  '(offset, utc, l) ← zone l;
  if (1 <=? month) && (month <=? 12) && (1 <=? day) && (day <=? days_in (is_leap year) month) &&
     (hour <? 24) && (minute <? 60) && (sec <? 60) && bool_decide (l = [])
  then Some ((days_of_civil year month day * day_s + hour * 3600 + minute * 60 + sec - offset)
               * second_ns + ns, utc)
  else None.

Definition Parse (s : string) : option Z := fst <$> parse_chars (chars s).

(** [parseCanonicalUTC] and [validCanonicalUTC]. *)
Definition parseCanonicalUTC (value : string) : option Z :=
  match parse_chars (chars value) with
  | Some (t, true) => if String.eqb (Format t) value then Some t else None
  | _ => None
  end.

Definition validCanonicalUTC (value : string) : bool :=
  bool_decide (is_Some (parseCanonicalUTC value)).

Definition validOptionalUTC (value : string) : bool :=
  String.eqb value "" || validCanonicalUTC value.

(** ** Calendar round trip *)

Lemma year_of_days_range z y yday : year_of_days z = (y, yday) ->
  z = days_before_year y + yday /\ 0 <= yday < 365 + (if is_leap y then 1 else 0).
Proof.
  unfold year_of_days. intros H. injection H as Hy Hyday.
  set (a := z / 146097) in *. set (r := z mod 146097) in *.
  set (b := Z.min 3 (r / 36524)) in *. set (r1 := r - 36524 * b) in *.
  set (c := r1 / 1461) in *. set (r2 := r1 mod 1461) in *. set (e := Z.min 3 (r2 / 365)) in *.
  assert (z = 146097 * a + r /\ 0 <= r < 146097) as [Hz Hr].
  { subst a r. pose proof (Z.div_mod z 146097). pose proof (Z.mod_pos_bound z 146097). lia. }
  assert (0 <= b <= 3 /\ 0 <= r1 < 36524 + (if b =? 3 then 1 else 0)) as [Hb Hr1].
  { subst b r1. pose proof (Z.div_mod r 36524). pose proof (Z.mod_pos_bound r 36524).
    destruct (Z.eqb_spec (Z.min 3 (r / 36524)) 3); lia. }
  assert (r1 = 1461 * c + r2 /\ 0 <= r2 < 1461 /\ 0 <= c <= 24) as (Hc & Hr2 & Hc').
  { subst c r2. pose proof (Z.div_mod r1 1461). pose proof (Z.mod_pos_bound r1 1461).
    destruct (Z.eqb_spec b 3); lia. }
  assert (0 <= e <= 3 /\ 0 <= r2 - 365 * e < 365 + (if e =? 3 then 1 else 0)) as [He Hyd].
  { subst e. pose proof (Z.div_mod r2 365). pose proof (Z.mod_pos_bound r2 365).
    destruct (Z.eqb_spec (Z.min 3 (r2 / 365)) 3); lia. }
  assert (r = 36524 * b + r1) as Hr' by (subst r1; lia).
  clearbody a r b r1 c r2 e. subst y yday. unfold days_before_year.
  replace (400 * a + 100 * b + 4 * c + e + 1 - 1) with (400 * a + 100 * b + 4 * c + e) by lia.
  rewrite <- (Z.div_unique (400 * a + 100 * b + 4 * c + e) 4 (100 * a + 25 * b + c) e) by lia.
  rewrite <- (Z.div_unique (400 * a + 100 * b + 4 * c + e) 100 (4 * a + b) (4 * c + e)) by lia.
  rewrite <- (Z.div_unique (400 * a + 100 * b + 4 * c + e) 400 a (100 * b + 4 * c + e)) by lia.
  split; [lia|]. split; [lia|]. unfold is_leap.
  assert ((400 * a + 100 * b + 4 * c + e + 1) mod 4 = (e + 1) mod 4) as ->.
  { rewrite <- (Z.mod_add (e + 1) (100 * a + 25 * b + c) 4) by lia. f_equal. lia. }
  assert ((400 * a + 100 * b + 4 * c + e + 1) mod 100 = (4 * c + e + 1) mod 100) as ->.
  { rewrite <- (Z.mod_add (4 * c + e + 1) (4 * a + b) 100) by lia. f_equal. lia. }
  assert ((400 * a + 100 * b + 4 * c + e + 1) mod 400 = (100 * b + 4 * c + e + 1) mod 400) as ->.
  { rewrite <- (Z.mod_add (100 * b + 4 * c + e + 1) a 400) by lia. f_equal. lia. }
  destruct (Z.eqb_spec e 3) as [->|Hne]; [|destruct (_ && _); lia].
  change ((3 + 1) mod 4) with 0. simpl.
  destruct (Z.eq_dec c 24) as [->|Hc24]; cycle 1.
  { rewrite (Z.mod_small (4 * c + 3 + 1)) by lia.
    destruct (Z.eqb_spec (4 * c + 3 + 1) 0); [lia|]. simpl. lia. }
  change ((4 * 24 + 3 + 1) mod 100) with 0. simpl.
  destruct (Z.eqb_spec b 3) as [->|Hb3]; [simpl; lia|].
  rewrite (Z.mod_small (100 * b + 96 + 3 + 1)) by lia.
  destruct (Z.eqb_spec (100 * b + 96 + 3 + 1) 0); simpl; lia.
Qed.

Definition month_ok (leap : bool) (yday : Z) : bool :=
  let '(month, day) := month_of_yday (month_lengths leap) 1 yday in
  (1 <=? month) && (month <=? 12) && (1 <=? day) && (day <=? days_in leap month) &&
  (days_before_month leap month + (day - 1) =? yday).

Lemma month_of_yday_ok (leap : bool) yday : 0 <= yday < 365 + (if leap then 1 else 0) ->
  month_ok leap yday = true.
Proof.
  intros Hy.
  assert (forallb (fun n => month_ok leap (Z.of_nat n)) (seq 0 (if leap then 366 else 365)) = true)
    as Hall by (destruct leap; vm_compute; reflexivity).
  rewrite forallb_forall in Hall.
  rewrite <- (Z2Nat.id yday) by lia. apply Hall, in_seq. destruct leap; lia.
Qed.

Lemma civil_of_days_ok z y month day : civil_of_days z = (y, month, day) ->
  y = fst (year_of_days z) /\ days_of_civil y month day = z /\ 1 <= month <= 12 /\
  1 <= day <= days_in (is_leap y) month.
Proof.
  unfold civil_of_days. destruct (year_of_days z) as [y' yday] eqn:Hyd.
  pose proof (year_of_days_range _ _ _ Hyd) as [Hz Hr].
  pose proof (month_of_yday_ok (is_leap y') yday Hr) as Hm. unfold month_ok in Hm.
  destruct (month_of_yday _ _ _) as [m d]. intros. simplify_eq.
  bool_prop. unfold days_of_civil. simpl. lia.
Qed.

(** ** Format and Parse are inverse *)

Lemma digit_spec d : 0 <= d < 10 -> is_digit (digit d) = true /\ digit_value (digit d) = d.
Proof.
  intros Hd.
  assert (In d (map Z.of_nat (seq 0 10))) as Hin.
  { apply in_map_iff. exists (Z.to_nat d). rewrite in_seq. lia. }
  simpl in Hin. repeat (destruct Hin as [<-|Hin]; [split; reflexivity|]). done.
Qed.

Lemma digits_length w z : length (digits w z) = w.
Proof. induction w; simpl; congruence. Qed.

Lemma digits_are_digits w z : Forall (fun c => is_digit c = true) (digits w z).
Proof.
  induction w; simpl; constructor; [|done].
  apply digit_spec. apply Z.mod_pos_bound. lia.
Qed.

Lemma pow10_mod w z : 0 <= w ->
  z mod 10 ^ Z.succ w = (z / 10 ^ w) mod 10 * 10 ^ w + z mod 10 ^ w.
Proof.
  intros. rewrite Z.pow_succ_r, (Z.mul_comm 10) by done.
  rewrite Z.rem_mul_r by (try apply Z.pow_nonzero; lia). lia.
Qed.

Lemma number_digits w acc z l :
  number w acc (digits w z ++ l) = Some (acc * 10 ^ Z.of_nat w + z mod 10 ^ Z.of_nat w, l).
Proof.
  revert acc. induction w as [|w IH]; intros acc.
  { cbn [number digits app]. rewrite Z.pow_0_r, Z.mod_1_r. do 2 f_equal. lia. }
  cbn [number digits app].
  pose proof (Z.mod_pos_bound (z / 10 ^ Z.of_nat w) 10 ltac:(lia)) as Hb.
  destruct (digit_spec _ Hb) as [-> ->]. rewrite IH, Nat2Z.inj_succ, pow10_mod by lia.
  rewrite Z.pow_succ_r by lia. do 2 f_equal. lia.
Qed.

Lemma number_digits_small w z l : 0 <= z < 10 ^ Z.of_nat w ->
  number w 0 (digits w z ++ l) = Some (z, l).
Proof. intros. rewrite number_digits, Z.mod_small by done. done. Qed.

Lemma digits_value_app l1 l2 :
  digits_value (l1 ++ l2) = digits_value l1 * 10 ^ Z.of_nat (length l2) + digits_value l2.
Proof.
  unfold digits_value. rewrite fold_left_app. generalize (fold_left (fun acc c => 10 * acc + digit_value c) l1 0).
  induction l2 as [|c l2 IH] using rev_ind; intros acc; simpl; [lia|].
  rewrite !fold_left_app, IH, length_app, Nat2Z.inj_add. simpl. change (Z.of_nat 1) with 1.
  rewrite Z.pow_add_r by lia. lia.
Qed.

Lemma digits_value_digits w z : digits_value (digits w z) = z mod 10 ^ Z.of_nat w.
Proof.
  induction w as [|w IH]; [unfold digits_value; simpl; by rewrite Z.mod_1_r|].
  change (digits (S w) z) with ([digit ((z / 10 ^ Z.of_nat w) mod 10)] ++ digits w z).
  rewrite digits_value_app, IH, digits_length, Nat2Z.inj_succ, pow10_mod by lia.
  unfold digits_value at 1. simpl.
  pose proof (digit_spec _ (Z.mod_pos_bound (z / 10 ^ Z.of_nat w) 10 ltac:(lia))) as [_ ->]. lia.
Qed.

Lemma trim_zeros_spec l : exists k, l = trim_zeros l ++ replicate k "0"%char.
Proof.
  induction l as [|c l [k IH]]; [by exists 0%nat|]. simpl.
  destruct (trim_zeros l) eqn:Ht; simpl in *.
  - destruct (Ascii.eqb_spec c "0") as [->|].
    + exists (S k). simpl. by rewrite IH at 1.
    + exists k. simpl. by rewrite IH at 1.
  - exists k. simpl. by rewrite IH at 1.
Qed.

Lemma digits_value_zeros k : digits_value (replicate k "0"%char) = 0.
Proof.
  induction k as [|k IH]; [done|].
  change (replicate (S k) "0"%char) with (["0"%char] ++ replicate k "0"%char).
  rewrite digits_value_app, IH. reflexivity.
Qed.

Lemma span_digits_app l r : Forall (fun c => is_digit c = true) l ->
  span_digits (l ++ "Z"%char :: r) = (l, "Z"%char :: r).
Proof. induction 1 as [|c l Hc _ IH]; [done|]. simpl. by rewrite Hc, IH. Qed.

Lemma fraction_format ns : 0 <= ns < 10 ^ 9 ->
  fraction (format_fraction ns ++ ["Z"%char]) = (ns, ["Z"%char]).
Proof.
  intros Hns. unfold format_fraction.
  destruct (trim_zeros_spec (digits 9 ns)) as [k Hk].
  pose proof (digits_value_digits 9 ns) as Hv. change (Z.of_nat 9) with 9 in Hv.
  rewrite (Z.mod_small ns) in Hv by done. rewrite Hk, digits_value_app, digits_value_zeros in Hv.
  pose proof (digits_length 9 ns) as Hl. rewrite Hk, length_app, length_replicate in Hl.
  rewrite length_replicate in Hv.
  pose proof (digits_are_digits 9 ns) as Hd. rewrite Hk, Forall_app in Hd. destruct Hd as [Hd _].
  destruct (trim_zeros (digits 9 ns)) as [|c l] eqn:Ht.
  { simpl. unfold digits_value in Hv. simpl in Hv. by rewrite <- Hv. }
  pose proof (Forall_inv Hd) as H1. cbn [app]. unfold fraction. rewrite H1, Ascii.eqb_refl. simpl orb. cbn [andb].
  change (c :: l ++ ["Z"%char]) with ((c :: l) ++ ["Z"%char]). rewrite span_digits_app by done.
  rewrite take_ge by lia. f_equal.
  replace (9 - Z.of_nat (length (c :: l))) with (Z.of_nat k) by lia. lia.
Qed.

Lemma hour_number_digits h l : 0 <= h < 24 -> hour_number (digits 2 h ++ l) = Some (h, l).
Proof.
  intros. pose proof (number_digits_small 2 h l ltac:(lia)) as Hn.
  pose proof (digits_are_digits 2 h) as Hd.
  change (digits 2 h ++ l) with
    (digit ((h / 10 ^ 1) mod 10) :: digit ((h / 10 ^ 0) mod 10) :: l) in *.
  unfold hour_number. inversion Hd as [|? ? ? Hd2]; subst. inversion Hd2 as [|? ? Hx ?]; subst.
  change (Z.of_nat 0) with 0 in Hx. rewrite Hx. exact Hn.
Qed.

Lemma literal_eq c l : literal c (c :: l) = Some l.
Proof. simpl. by rewrite Ascii.eqb_refl. Qed.

Lemma parse_format_chars t : 0 <= Year t <= 9999 -> parse_chars (format_chars t) = Some (t, true).
Proof.
  unfold Year, format_chars. intros Hy.
  set (sec := t / second_ns).
  assert (t / (second_ns * day_s) = sec / day_s) as Hdiv by (unfold sec; by rewrite Z.div_div).
  rewrite Hdiv in Hy. destruct (civil_of_days (sec / day_s)) as [[y month] day] eqn:Hc.
  destruct (civil_of_days_ok _ _ _ _ Hc) as (-> & Hdays & Hm & Hd).
  set (y := fst (year_of_days (sec / day_s))) in *.
  set (s := sec mod day_s).
  assert (0 <= s < day_s) as Hs by (apply Z.mod_pos_bound; done). unfold day_s in Hs.
  assert (0 <= t mod second_ns < 10 ^ 9) as Hns by (apply Z.mod_pos_bound; done).
  assert (days_in (is_leap y) month <= 31) as Hdm.
  { assert (In month (map Z.of_nat (seq 1 12))) as Hin.
    { apply in_map_iff. exists (Z.to_nat month). rewrite in_seq. lia. }
    simpl in Hin. destruct (is_leap y);
      repeat (destruct Hin as [<-|Hin]; [vm_compute; discriminate|]); done. }
  pose proof (Z.div_mod s 60 ltac:(lia)). pose proof (Z.mod_pos_bound s 60 ltac:(lia)).
  pose proof (Z.div_mod (s / 60) 60 ltac:(lia)). pose proof (Z.mod_pos_bound (s / 60) 60 ltac:(lia)).
  assert (s / 60 / 60 = s / 3600) as Hh by (by rewrite Z.div_div).
  assert (0 <= s / 3600 < 24) by lia.
  unfold parse_chars, format_year.
  rewrite (proj2 (Z.leb_le 0 y)), (proj2 (Z.leb_le y 9999)) by lia. cbn [andb].
  rewrite number_digits_small by (change (10 ^ Z.of_nat 4) with 10000; lia). cbn [mbind option_bind].
  rewrite literal_eq. cbn [mbind option_bind].
  rewrite number_digits_small by (change (10 ^ Z.of_nat 2) with 100; lia). cbn [mbind option_bind].
  rewrite literal_eq. cbn [mbind option_bind].
  rewrite number_digits_small by (change (10 ^ Z.of_nat 2) with 100; lia). cbn [mbind option_bind].
  rewrite literal_eq. cbn [mbind option_bind].
  rewrite hour_number_digits by lia. cbn [mbind option_bind].
  rewrite literal_eq. cbn [mbind option_bind].
  rewrite number_digits_small by (change (10 ^ Z.of_nat 2) with 100; lia). cbn [mbind option_bind].
  rewrite literal_eq. cbn [mbind option_bind].
  rewrite number_digits_small by (change (10 ^ Z.of_nat 2) with 100; lia). cbn [mbind option_bind].
  rewrite fraction_format by done. cbn [zone mbind option_bind].
  rewrite (proj2 (Z.leb_le 1 month)), (proj2 (Z.leb_le month 12)), (proj2 (Z.leb_le 1 day)),
    (proj2 (Z.leb_le day _)), (proj2 (Z.ltb_lt _ 24)), (proj2 (Z.ltb_lt _ 60)),
    (proj2 (Z.ltb_lt (s mod 60) 60)) by lia.
  cbn [andb]. rewrite bool_decide_eq_true_2 by done. do 2 f_equal.
  rewrite Hdays. unfold sec at 1.
  pose proof (Z.div_mod t second_ns ltac:(done)). pose proof (Z.div_mod sec day_s ltac:(done)).
  fold sec in H4 |- *. fold s in H5. lia.
Qed.

Lemma Parse_Format t : 0 <= Year t <= 9999 -> Parse (Format t) = Some t.
Proof.
  intros. unfold Parse, Format. by rewrite chars_of_chars, parse_format_chars.
Qed.

Lemma parseCanonicalUTC_Format t : 0 <= Year t <= 9999 -> parseCanonicalUTC (Format t) = Some t.
Proof.
  intros. unfold parseCanonicalUTC.
  change (chars (Format t)) with (chars (of_chars (format_chars t))).
  rewrite chars_of_chars, parse_format_chars by done. by rewrite String.eqb_refl.
Qed.

Lemma parseCanonicalUTC_Some v t : parseCanonicalUTC v = Some t ->
  v = Format t /\ Parse v = Some t.
Proof.
  unfold parseCanonicalUTC, Parse. intros H. inv_result. bool_prop.
  split; [done|]. by destruct (parse_chars _) as [[? []]|]; simplify_eq.
Qed.

(** Canonical timestamps denote instants without loss. Formatting an
    instant of the years 0 to 9999 gives a text that [parseCanonicalUTC]
    accepts and reads back as the same instant, to the nanosecond; and every
    text it accepts is the formatted form of the instant it stands for, so two
    different accepted texts never name the same instant. *)
Theorem canonical_utc_roundtrip t : 0 <= Year t <= 9999 ->
  parseCanonicalUTC (Format t) = Some t /\
  forall v, parseCanonicalUTC v = Some t -> v = Format t.
Proof.
  intros Ht. split; [by apply parseCanonicalUTC_Format|].
  intros v Hv. apply parseCanonicalUTC_Some in Hv as [-> _]. done.
Qed.

(** 2026-03-04T05:06:07.089Z. *)
Definition sample_instant : Z := Eval vm_compute in
  days_of_civil 2026 3 4 * day_s * second_ns + (5 * 3600 + 6 * 60 + 7) * second_ns + 89000000.

Lemma canonical_utc_roundtrip_witness :
  parseCanonicalUTC "2026-03-04T05:06:07.089Z" = Some sample_instant.
Proof.
  assert (Format sample_instant = "2026-03-04T05:06:07.089Z") as <- by (vm_compute; reflexivity).
  apply (canonical_utc_roundtrip sample_instant). split; vm_compute; discriminate.
Defined.
