(* ===== verification/GoNetip.v ===== *)
(** * Addresses and prefixes of Go's [net/netip]

    The part of [net/netip] the policy code calls: [ParseAddr], [Addr.String],
    [ParsePrefix], [Prefix.Masked], [Prefix.String] and [Prefix.Overlaps], with
    Go's acceptance rules (no leading zeros in IPv4 octets, at most four hex
    digits in an IPv6 group, one ellipsis that stands for at least one group,
    an embedded IPv4 tail, zones outside prefixes only). The lemmas at the end
    describe overlap by the addresses two prefixes contain. *)

From Stdlib Require Import ZArith Lia Ascii String.
From stdpp Require Import base strings list option.
From S2P Require Import Prelude.

Open Scope Z_scope.

(** An address is its value, of 32 bits or of 128 bits with a zone. *)
Record Addr := mkAddr { is4 : bool; value : Z; zone : string }.

#[export] Instance Addr_eq_dec : EqDecision Addr.
Proof. solve_decision. Defined.

Definition addr_bits (a : Addr) : Z := if is4 a then 32 else 128.

Definition dot : ascii := "."%char.
Definition colon : ascii := ":"%char.
Definition percent : ascii := "%"%char.
Definition slash : ascii := "/"%char.

Definition digit_of (c : ascii) : Z := code c - code "0".

(** ** Parsing *)

(** [parseIPv4Fields]: [dig_len] digits of the current octet were read, so it is
    zero exactly at the start and after a dot. *)
Fixpoint parse_v4_fields (l : list ascii) (fields : list Z) (v : Z) (dig_len : nat)
    : option (list Z) :=
  match l with
  | [] => if (length fields =? 3)%nat then Some (fields ++ [v]) else None
  | c :: l' =>
      if is_digit c then
        if (dig_len =? 1)%nat && (v =? 0) then None
        else let v' := v * 10 + digit_of c in
             if 255 <? v' then None else parse_v4_fields l' fields v' (S dig_len)
      else if Ascii.eqb c dot then
        if (dig_len =? 0)%nat || bool_decide (l' = []) || (length fields =? 3)%nat then None
        else parse_v4_fields l' (fields ++ [v]) 0 0
      else None
  end.

Definition parse_v4 (l : list ascii) : option (list Z) := parse_v4_fields l [] 0 0.

Definition pack (width : Z) (l : list Z) : Z := fold_left (fun acc b => acc * width + b) l 0.

Definition hex_value (c : ascii) : option Z :=
  if is_digit c then Some (digit_of c)
  else if in_range "a" "f" c then Some (code c - code "a" + 10)
  else if in_range "A" "F" c then Some (code c - code "A" + 10)
  else None.

Fixpoint span_hex (l : list ascii) : list Z * list ascii :=
  match l with
  | [] => ([], [])
  | c :: l' =>
      match hex_value c with
      | Some v => let '(ds, r) := span_hex l' in (v :: ds, r)
      | None => ([], l)
      end
  end.

(** The loop of [parseIPv6]: [room] groups are still free; the result holds the
    groups read, the position of the ellipsis and the text that is left. *)
Fixpoint parse_v6_groups (room : nat) (groups : list Z) (ellipsis : option nat) (s : list ascii)
    : option (list Z * option nat * list ascii) :=
  match room with
  | O => Some (groups, ellipsis, s)
  | S room' =>
      let '(ds, rest) := span_hex s in
      if (length ds =? 0)%nat || (4 <? length ds)%nat then None
      else
        match rest with
        | "."%char :: _ =>
            if (bool_decide (ellipsis = None) && negb (length groups =? 6)%nat) ||
               (8 <? length groups + 2)%nat then None
            else match parse_v4 s with
                 | Some [a; b; c; d] => Some (groups ++ [a * 256 + b; c * 256 + d], ellipsis, [])
                 | _ => None
                 end
        | _ =>
            let groups' := groups ++ [pack 16 ds] in
            match rest with
            | [] => Some (groups', ellipsis, [])
            | ":"%char :: [] => None
            | ":"%char :: ":"%char :: s' =>
                if bool_decide (is_Some ellipsis) then None
                else match s' with
                     | [] => Some (groups', Some (length groups'), [])
                     | _ => parse_v6_groups room' groups' (Some (length groups')) s'
                     end
            | ":"%char :: s' => parse_v6_groups room' groups' ellipsis s'
            | _ => None
            end
        end
  end.

Fixpoint cut_at (sep : ascii) (l : list ascii) : list ascii * option (list ascii) :=
  match l with
  | [] => ([], None)
  | c :: l' => if Ascii.eqb c sep then ([], Some l')
               else let '(a, b) := cut_at sep l' in (c :: a, b)
  end.

Definition expand_ellipsis (groups : list Z) (ellipsis : option nat) : option (list Z) :=
  match ellipsis with
  | None => if (length groups =? 8)%nat then Some groups else None
  | Some e => if (length groups <? 8)%nat
              then Some (take e groups ++ replicate (8 - length groups) 0 ++ drop e groups)
              else None
  end.

Definition parse_v6 (l : list ascii) : option Addr :=
  let '(s, z) := cut_at percent l in
  if bool_decide (z = Some []) then None
  else
    let zone := of_chars (default [] z) in
    match s with
    | ":"%char :: ":"%char :: [] => Some (mkAddr false 0 zone)
    | _ =>
        let '(ellipsis, s') :=
          match s with ":"%char :: ":"%char :: s' => (Some O, s') | _ => (None, s) end in
        match parse_v6_groups 8 [] ellipsis s' with
        | Some (groups, e, []) =>
            g ← expand_ellipsis groups e; Some (mkAddr false (pack 65536 g) zone)
        | _ => None
        end
    end.

(** The first of [.], [:] and [%] decides the form. *)
Fixpoint first_mark (l : list ascii) : option ascii :=
  match l with
  | [] => None
  | c :: l' => if Ascii.eqb c dot || Ascii.eqb c colon || Ascii.eqb c percent
               then Some c else first_mark l'
  end.

Definition ParseAddr (s : string) : option Addr :=
  let l := chars s in
  match first_mark l with
  | Some "."%char => fields ← parse_v4 l; Some (mkAddr true (pack 256 fields) "")
  | Some ":"%char => parse_v6 l
  | _ => None
  end.

(** ** Printing *)

(** Decimal digits of an octet or of a prefix length, all below 1000. *)
Definition decimal_digit (z : Z) : ascii := ascii_of_nat (Z.to_nat (code "0" + z mod 10)).

Definition decimal_chars (z : Z) : list ascii :=
  (if 100 <=? z then [decimal_digit (z / 100)] else []) ++
  (if 10 <=? z then [decimal_digit (z / 10)] else []) ++ [decimal_digit z].

Fixpoint unpack (n : nat) (width v : Z) : list Z :=
  match n with
  | O => []
  | S n' => (v / width ^ Z.of_nat n') mod width :: unpack n' width v
  end.

Definition string4 (v : Z) : list ascii :=
  match map decimal_chars (unpack 4 256 v) with
  | [a; b; c; d] => a ++ dot :: b ++ dot :: c ++ dot :: d
  | _ => []
  end.

Definition hex_digit (z : Z) : ascii :=
  if z <? 10 then ascii_of_nat (Z.to_nat (code "0" + z))
  else ascii_of_nat (Z.to_nat (code "a" + z - 10)).

(** [appendHex]: leading zeros dropped. *)
Definition hex16 (g : Z) : list ascii :=
  let d := map hex_digit (unpack 4 16 g) in
  if 4096 <=? g then d else if 256 <=? g then drop 1 d else if 16 <=? g then drop 2 d else drop 3 d.

Fixpoint zero_run (l : list Z) : nat :=
  match l with 0 :: l' => S (zero_run l') | _ => O end.

(** The first longest run of at least two zero groups: its start and length. *)
Fixpoint longest_run (i : nat) (l : list Z) (best : nat * nat) : nat * nat :=
  match l with
  | [] => best
  | _ :: l' =>
      let n := zero_run l in
      longest_run (S i) l' (if (2 <=? n)%nat && (best.2 <? n)%nat then (i, n) else best)
  end.

Fixpoint join_groups (first : bool) (l : list Z) : list ascii :=
  match l with
  | [] => []
  | g :: l' => (if first then [] else [colon]) ++ hex16 g ++ join_groups false l'
  end.

Definition string6 (v : Z) : list ascii :=
  let g := unpack 8 65536 v in
  let '(start, n) := longest_run 0 g (0, 0)%nat in
  if (n =? 0)%nat then join_groups true g
  else join_groups true (take start g) ++ [colon; colon] ++ join_groups true (drop (start + n) g).

Definition Is4In6 (a : Addr) : bool := negb (is4 a) && (value a / 2 ^ 32 =? 65535).

Definition Addr_String (a : Addr) : string :=
  if is4 a then of_chars (string4 (value a))
  else
    let body := if Is4In6 a then chars "::ffff:" ++ string4 (value a mod 2 ^ 32)
                else string6 (value a) in
    of_chars (body ++ (if String.eqb (zone a) "" then [] else percent :: chars (zone a))).

(** ** Prefixes *)

Record Prefix := mkPrefix { addr : Addr; bits : Z }.

#[export] Instance Prefix_eq_dec : EqDecision Prefix.
Proof. solve_decision. Defined.

Fixpoint cut_last (sep : ascii) (l : list ascii) : option (list ascii * list ascii) :=
  match l with
  | [] => None
  | c :: l' =>
      match cut_last sep l' with
      | Some (a, b) => Some (c :: a, b)
      | None => if Ascii.eqb c sep then Some ([], l') else None
      end
  end.

(** [strconv.Atoi] after the check that refuses a sign and leading zeros: a
    single digit, or digits that start with 1 to 9. *)
Definition parse_bits (l : list ascii) : option Z :=
  if bool_decide (l = []) || negb (forallb is_digit l) ||
     ((1 <? length l)%nat && bool_decide (head l = Some "0"%char)) || (3 <? length l)%nat
  then None
  else Some (pack 10 (map digit_of l)).

Definition ParsePrefix (s : string) : option Prefix :=
  '(a, b) ← cut_last slash (chars s);
  ip ← ParseAddr (of_chars a);
  if negb (String.eqb (zone ip) "") then None
  else n ← parse_bits b; if addr_bits ip <? n then None else Some (mkPrefix ip n).

(** [Addr.Prefix]: the low bits are cleared and the zone is dropped. *)
Definition mask (width n v : Z) : Z := v / 2 ^ (width - n) * 2 ^ (width - n).

Definition Addr_Prefix (a : Addr) (n : Z) : Prefix :=
  mkPrefix (mkAddr (is4 a) (mask (addr_bits a) n (value a)) "") n.

Definition Masked (p : Prefix) : Prefix := Addr_Prefix (addr p) (bits p).

Definition Prefix_String (p : Prefix) : string :=
  of_chars (chars (Addr_String (addr p)) ++ slash :: decimal_chars (bits p)).

Definition IsValid (p : Prefix) : bool := (0 <=? bits p) && (bits p <=? addr_bits (addr p)).

Definition Overlaps (p o : Prefix) : bool :=
  if negb (IsValid p) || negb (IsValid o) then false
  else if bool_decide (p = o) then true
  else if negb (Bool.eqb (is4 (addr p)) (is4 (addr o))) then false
  else let n := Z.min (bits p) (bits o) in
       (n =? 0) || bool_decide (addr (Addr_Prefix (addr p) n) = addr (Addr_Prefix (addr o) n)).

Definition Contains (p : Prefix) (a : Addr) : bool :=
  IsValid p && String.eqb (zone a) "" && Bool.eqb (is4 a) (is4 (addr p)) &&
  (mask (addr_bits a) (bits p) (value a) =? mask (addr_bits a) (bits p) (value (addr p))).

(** ** Parsed values are in range *)

Definition wf_addr (a : Addr) : Prop := 0 <= value a < 2 ^ addr_bits a.

Definition below (b : Z) (l : list Z) : Prop := Forall (fun z => 0 <= z < b) l.

Lemma pack_range_from width l acc n : 0 < width -> below width l -> 0 <= acc < width ^ Z.of_nat n ->
  0 <= fold_left (fun acc b => acc * width + b) l acc < width ^ Z.of_nat (n + length l).
Proof.
  intros Hw Hl. revert acc n. induction Hl as [|z l Hz _ IH]; intros acc n Hacc; simpl.
  { by rewrite Nat.add_0_r. }
  rewrite Nat.add_succ_r, <- Nat.add_succ_l. apply IH.
  rewrite Nat2Z.inj_succ, Z.pow_succ_r by lia. nia.
Qed.

Lemma pack_range width l : 0 < width -> below width l ->
  0 <= pack width l < width ^ Z.of_nat (length l).
Proof. intros. apply (pack_range_from width l 0 0); simpl; lia || done. Qed.

Lemma is_digit_value c : is_digit c = true -> 0 <= digit_of c < 10.
Proof.
  unfold is_digit, in_range, digit_of. change (code "9") with 57. change (code "0") with 48.
  intros H. bool_prop. lia.
Qed.

Lemma parse_v4_fields_wf l fields v n fs : below 256 fields -> 0 <= v < 256 ->
  parse_v4_fields l fields v n = Some fs -> below 256 fs /\ length fs = 4%nat.
Proof.
  revert fields v n. induction l as [|c l IH]; intros fields v n Hf Hv H; simpl in H.
  { destruct (Nat.eqb_spec (length fields) 3); [|done]. simplify_eq.
    split; [by apply Forall_app_2; [|constructor]|]. rewrite length_app. simpl. lia. }
  destruct (is_digit c) eqn:Hc.
  - destruct (_ && _); [done|]. destruct (Z.ltb_spec 255 (v * 10 + digit_of c)); [done|].
    pose proof (is_digit_value c Hc). eapply IH; [| |done]; [done|lia].
  - destruct (Ascii.eqb c dot); [|done]. destruct (_ || _); [done|].
    eapply IH; [| |done]; [|lia]. by apply Forall_app_2; [|constructor].
Qed.

Lemma hex_value_range c v : hex_value c = Some v -> 0 <= v < 16.
Proof.
  unfold hex_value. destruct (is_digit c) eqn:Hd.
  { intros [= <-]. pose proof (is_digit_value c Hd). lia. }
  unfold in_range. change (code "f") with 102. change (code "F") with 70.
  change (code "a") with 97. change (code "A") with 65.
  destruct (_ && _) eqn:H1; [intros [= <-]; bool_prop; lia|].
  destruct ((65 <=? code c) && _) eqn:H2; [intros [= <-]; bool_prop; lia|done].
Qed.

Lemma span_hex_below l ds r : span_hex l = (ds, r) -> below 16 ds.
Proof.
  revert ds r. induction l as [|c l IH]; intros ds r H; simpl in H; [simplify_eq; constructor|].
  destruct (hex_value c) eqn:Hc; [|simplify_eq; constructor].
  destruct (span_hex l) as [ds' r'] eqn:Hs. simplify_eq.
  constructor; [by apply hex_value_range in Hc|]. by eapply IH.
Qed.

Lemma pack_group ds : below 16 ds -> (length ds <= 4)%nat -> 0 <= pack 16 ds < 65536.
Proof.
  intros Hd Hl. pose proof (pack_range 16 ds ltac:(lia) Hd).
  assert (16 ^ Z.of_nat (length ds) <= 16 ^ 4) by (apply Z.pow_le_mono_r; lia). lia.
Qed.

Lemma parse_v6_groups_wf room groups e s gs e' r : below 65536 groups -> (length groups + room = 8)%nat ->
  parse_v6_groups room groups e s = Some (gs, e', r) -> below 65536 gs /\ (length gs <= 8)%nat.
Proof.
  revert groups e s. induction room as [|room IH]; intros groups e s Hg Hlen H; cbn [parse_v6_groups] in H.
  { simplify_eq. split; [done|lia]. }
  destruct (span_hex s) as [ds rest] eqn:Hs. apply span_hex_below in Hs.
  destruct (_ || _) eqn:Hn; [done|]. apply orb_false_iff in Hn as [_ Hn]. apply Nat.ltb_ge in Hn.
  assert (below 65536 (groups ++ [pack 16 ds])) as Hg'.
  { apply Forall_app_2; [done|]. constructor; [|done]. by apply pack_group. }
  assert (length (groups ++ [pack 16 ds]) + room = 8)%nat as Hlen' by (rewrite length_app; simpl; lia).
  set (groups' := groups ++ [pack 16 ds]) in *. clearbody groups'.
  destruct rest as [|c rest]; [simplify_eq; split; [done|lia]|].
  destruct (decide (c = "."%char)) as [->|Hdot].
  { destruct (_ || _) eqn:Hroom; [done|]. apply orb_false_iff in Hroom as [_ Hroom].
    apply Nat.ltb_ge in Hroom.
    destruct (parse_v4 s) as [[|a [|b [|c [|d []]]]]|] eqn:H4; try done. simplify_eq.
    apply parse_v4_fields_wf in H4 as [H4 _]; [|constructor|lia].
    repeat match goal with H : below _ (_ :: _) |- _ => inversion H; clear H; subst
      | H : Forall _ (_ :: _) |- _ => inversion H; clear H; subst end.
    split; [|rewrite length_app; simpl; lia].
    apply Forall_app_2; [done|]. repeat constructor; lia. }
  destruct (decide (c = ":"%char)) as [->|Hcolon].
  2:{ destruct c as [[] [] [] [] [] [] [] []]; done. }
  destruct rest as [|c2 rest]; [done|].
  destruct (decide (c2 = ":"%char)) as [->|Hc2].
  { destruct (bool_decide _); [done|]. destruct rest; [simplify_eq; split; [done|lia]|].
    by eapply IH. }
  assert (parse_v6_groups room groups' e (c2 :: rest) = Some (gs, e', r)) as H'.
  { destruct c2 as [[] [] [] [] [] [] [] []]; done. }
  by eapply IH.
Qed.

Lemma expand_ellipsis_wf gs e g : below 65536 gs -> (length gs <= 8)%nat ->
  expand_ellipsis gs e = Some g -> below 65536 g /\ length g = 8%nat.
Proof.
  intros Hg Hl. unfold expand_ellipsis. destruct e as [e|].
  - destruct (Nat.ltb_spec (length gs) 8); [|done]. intros [= <-]. split.
    + apply Forall_app_2; [by apply Forall_take|]. apply Forall_app_2; [|by apply Forall_drop].
      apply Forall_replicate. lia.
    + rewrite !length_app, length_take, length_drop, length_replicate. lia.
  - destruct (Nat.eqb_spec (length gs) 8); [|done]. by intros [= <-].
Qed.

Lemma ParseAddr_wf s a : ParseAddr s = Some a -> wf_addr a.
Proof.
  unfold ParseAddr, wf_addr. destruct (first_mark _) as [c|]; [|done].
  destruct (decide (c = "."%char)) as [->|].
  { destruct (parse_v4 _) as [fs|] eqn:H4; [|done]. intros [= <-].
    apply parse_v4_fields_wf in H4 as [H4 Hl]; [|constructor|lia].
    pose proof (pack_range 256 fs ltac:(lia) H4) as Hp. rewrite Hl in Hp. exact Hp. }
  destruct (decide (c = ":"%char)) as [->|].
  2:{ destruct c as [[] [] [] [] [] [] [] []]; done. }
  intros H. unfold parse_v6 in H. destruct (cut_at percent _) as [t z].
  destruct (bool_decide _); [done|].
  assert (forall e t', match parse_v6_groups 8 [] e t' with
    | Some (groups, e, []) => g ← expand_ellipsis groups e; Some (mkAddr false (pack 65536 g) (of_chars (default [] z)))
    | _ => None end = Some a -> 0 <= value a < 2 ^ addr_bits a) as Hgen.
  { intros e t'. destruct (parse_v6_groups _ _ _ _) as [[[gs e'] []]|] eqn:Hg; try done.
    apply parse_v6_groups_wf in Hg as [Hg Hl]; [|constructor|done].
    destruct (expand_ellipsis gs e') as [g|] eqn:He; [|done]. intros [= <-].
    apply expand_ellipsis_wf in He as [He Hl']; [|done..].
    pose proof (pack_range 65536 g ltac:(lia) He) as Hp. rewrite Hl' in Hp. exact Hp. }
  destruct t as [|c1 t]; [exact (Hgen None [] H)|].
  destruct (decide (c1 = ":"%char)) as [->|].
  2:{ apply (Hgen None (c1 :: t)). destruct c1 as [[] [] [] [] [] [] [] []]; done. }
  destruct t as [|c2 t]; [exact (Hgen None [":"%char] H)|].
  destruct (decide (c2 = ":"%char)) as [->|].
  2:{ apply (Hgen None (":"%char :: c2 :: t)). destruct c2 as [[] [] [] [] [] [] [] []]; done. }
  destruct t as [|c3 t]; [simplify_eq; vm_compute; done|]. exact (Hgen (Some O) (c3 :: t) H).
Qed.

Lemma ParsePrefix_wf s p : ParsePrefix s = Some p -> wf_addr (addr p) /\ IsValid p = true.
Proof.
  unfold ParsePrefix. destruct (cut_last _ _) as [[a b]|]; [|done]. cbn [mbind option_bind].
  destruct (ParseAddr _) as [ip|] eqn:Ha; [|done]. cbn [mbind option_bind].
  apply ParseAddr_wf in Ha. destruct (negb _); [done|].
  destruct (parse_bits b) as [n|] eqn:Hb; [|done]. cbn [mbind option_bind].
  destruct (Z.ltb_spec (addr_bits ip) n); [done|]. intros [= <-]. split; [done|].
  unfold IsValid. simpl. unfold parse_bits in Hb.
  destruct (_ || _) eqn:Hg; [done|]. simplify_eq.
  apply orb_false_iff in Hg as [[[_ Hd%negb_false_iff]%orb_false_iff _]%orb_false_iff _].
  assert (below 10 (map digit_of b)) as Hbelow.
  { apply Forall_map, List.Forall_forall. intros c Hc. apply is_digit_value.
    by eapply forallb_forall. }
  pose proof (pack_range 10 _ ltac:(lia) Hbelow). apply andb_true_iff. lia.
Qed.

(** ** Overlap is sharing an address *)

Lemma mask_coarser width n m v : 0 <= n <= m -> m <= width ->
  mask width n (mask width m v) = mask width n v.
Proof.
  intros. unfold mask. f_equal.
  replace (width - n) with ((width - m) + (m - n)) by lia.
  rewrite Z.pow_add_r by lia. rewrite <- !Z.div_div by (try apply Z.pow_nonzero; lia).
  by rewrite Z.div_mul by (apply Z.pow_nonzero; lia).
Qed.

Lemma mask_range width n v : 0 <= n <= width -> 0 <= v < 2 ^ width -> 0 <= mask width n v < 2 ^ width.
Proof.
  intros. unfold mask. pose proof (Z.pow_pos_nonneg 2 (width - n) ltac:(lia) ltac:(lia)).
  pose proof (Z.div_mod v (2 ^ (width - n)) ltac:(lia)).
  pose proof (Z.mod_pos_bound v (2 ^ (width - n)) ltac:(lia)).
  pose proof (Z.div_pos v (2 ^ (width - n)) ltac:(lia) ltac:(lia)). nia.
Qed.

Lemma mask_idemp width n v : 0 <= n <= width -> mask width n (mask width n v) = mask width n v.
Proof. intros. apply mask_coarser; lia. Qed.

Lemma mask_zero width v : 0 <= v < 2 ^ width -> mask width 0 v = 0.
Proof. intros. unfold mask. by rewrite Z.sub_0_r, Z.div_small. Qed.

Lemma Overlaps_sym p o : Overlaps p o = Overlaps o p.
Proof.
  unfold Overlaps. rewrite (orb_comm (negb (IsValid p))). destruct (_ || _); [done|].
  rewrite (bool_decide_ext (p = o) (o = p)) by done. destruct (bool_decide _); [done|].
  rewrite (Z.min_comm (bits p)).
  replace (Bool.eqb (is4 (addr p)) _) with (Bool.eqb (is4 (addr o)) (is4 (addr p)))
    by (by destruct (is4 (addr o)), (is4 (addr p))).
  destruct (negb _); [done|]. f_equal. by apply bool_decide_ext.
Qed.

Lemma Contains_coarser p a n : 0 <= n <= bits p -> Contains p a = true ->
  is4 a = is4 (addr p) /\ mask (addr_bits a) n (value a) = mask (addr_bits a) n (value (addr p)).
Proof.
  intros Hn. unfold Contains, IsValid. intros H. bool_prop.
  assert (is4 a = is4 (addr p)) as Hi by (by apply eqb_prop). split; [done|].
  assert (addr_bits a = addr_bits (addr p)) as Hw by (unfold addr_bits; by rewrite Hi).
  rewrite <- (mask_coarser _ n (bits p) (value a)), <- (mask_coarser _ n (bits p) (value (addr p))) by lia.
  congruence.
Qed.

Lemma Overlaps_longer p o : bits o <= bits p -> wf_addr (addr p) -> wf_addr (addr o) ->
  IsValid p = true -> IsValid o = true -> Overlaps p o = true ->
  exists a, wf_addr a /\ Contains p a = true /\ Contains o a = true.
Proof.
  intros Hle Hp Ho Vp Vo Hov.
  exists (mkAddr (is4 (addr p)) (value (addr p)) "").
  assert (Contains p (mkAddr (is4 (addr p)) (value (addr p)) "") = true) as Hcp.
  { unfold Contains. simpl. by rewrite Vp, Bool.eqb_reflx, Z.eqb_refl. }
  split; [exact Hp|]. split; [done|].
  unfold Overlaps in Hov. rewrite Vp, Vo in Hov. cbn [negb orb] in Hov.
  destruct (bool_decide (p = o)) eqn:Heq; [apply bool_decide_eq_true in Heq; by subst|].
  destruct (Bool.eqb (is4 (addr p)) (is4 (addr o))) eqn:Hi; [|done]. cbn [negb] in Hov.
  unfold Contains. rewrite Vo. cbn [is4 value zone]. rewrite Hi. cbn [andb String.eqb].
  apply eqb_prop in Hi. apply Z.eqb_eq.
  unfold IsValid in Vp, Vo. bool_prop.
  apply orb_true_iff in Hov. rewrite Z.min_r in Hov by lia. destruct Hov as [Hz|Hz].
  - apply Z.eqb_eq in Hz. rewrite Hz. unfold addr_bits; simpl.
    unfold wf_addr, addr_bits in *. rewrite Hi in *. by rewrite !mask_zero.
  - apply bool_decide_eq_true_1 in Hz. unfold Addr_Prefix in Hz. simpl in Hz.
    injection Hz as Hm Hv. unfold addr_bits in *. simpl in *. by rewrite Hi in *.
Qed.

Lemma Overlaps_spec p o : wf_addr (addr p) -> wf_addr (addr o) ->
  IsValid p = true -> IsValid o = true ->
  Overlaps p o = true <-> exists a, wf_addr a /\ Contains p a = true /\ Contains o a = true.
Proof.
  intros Hp Ho Vp Vo. split.
  - intros Hov. destruct (Z.le_ge_cases (bits o) (bits p)); [by apply Overlaps_longer|].
    rewrite Overlaps_sym in Hov. destruct (Overlaps_longer o p) as (a & ? & ? & ?); eauto.
  - intros (a & _ & Hcp & Hco). unfold Overlaps. rewrite Vp, Vo. cbn [negb orb].
    case_bool_decide; [done|]. unfold IsValid in *. bool_prop.
    destruct (Contains_coarser p a (Z.min (bits p) (bits o)) ltac:(lia) Hcp) as [Hi Hm].
    destruct (Contains_coarser o a (Z.min (bits p) (bits o)) ltac:(lia) Hco) as [Hi' Hm'].
    rewrite <- Hi, <- Hi', Bool.eqb_reflx. cbn [negb]. apply orb_true_iff. right.
    apply bool_decide_eq_true_2. unfold Addr_Prefix, addr_bits in *. simpl.
    rewrite <- Hi, <- Hi'. congruence.
Qed.
