(* ===== verification/Control.v ===== *)
(** * The recovery state machine of [internal/control]

    [Module Types] holds the vocabulary of [types.go], [Module Machine] the
    policy, the snapshot, the constructor and [Step] of [machine.go].  The
    theorems are about [Step] alone, about every finite run of it, and about the
    [backoff] loop.  A machine is a value: [Step] returns the machine after the
    call next to the call's result, and a call that fails returns the machine it
    was given, which is what the early returns of the source do. *)

From Stdlib Require Import ZArith Lia Ascii String.
From stdpp Require Import base strings list gmap.
From S2P Require Import Prelude.

Open Scope Z_scope.

Module Types.

(** The string types of the package: one constructor per named constant, and
    [..Other] for any other string. *)
Inductive State :=
| StateSuspended | StateHealthy | StateDegraded | StateRecovering | StateSafeMode
| StateOther (raw : string).

Definition State_Valid (state : State) : bool :=
  match state with
  | StateSuspended | StateHealthy | StateDegraded | StateRecovering | StateSafeMode => true
  | StateOther _ => false
  end.

Inductive Reason :=
| ReasonNone | ReasonProbeSucceeded | ReasonProbeFailed | ReasonFailureThreshold
| ReasonRecoveryAllowed | ReasonRecoveryBudget | ReasonVerificationPassed
| ReasonCooldownElapsed | ReasonDependenciesReady | ReasonDependenciesNotReady
| ReasonIntentionalSleep | ReasonOperatorResume
| ReasonPowerUnreadable | ReasonProcessUnreadable | ReasonTunnelAbsent
| ReasonPhysicalNetworkUnready | ReasonTUNUnreadable | ReasonManagedTUNAbsent
| ReasonRouteUnreadable | ReasonEndpointUnreadable | ReasonOuterPathAbsent
| ReasonPlanRefused
| ReasonOther (raw : string).

Definition Reason_Valid (reason : Reason) : bool :=
  match reason with
  | ReasonNone | ReasonProbeSucceeded | ReasonProbeFailed | ReasonFailureThreshold
  | ReasonRecoveryAllowed | ReasonRecoveryBudget | ReasonVerificationPassed
  | ReasonCooldownElapsed | ReasonDependenciesReady | ReasonDependenciesNotReady
  | ReasonIntentionalSleep | ReasonOperatorResume | ReasonPowerUnreadable
  | ReasonProcessUnreadable | ReasonTunnelAbsent | ReasonPhysicalNetworkUnready
  | ReasonTUNUnreadable | ReasonManagedTUNAbsent | ReasonRouteUnreadable
  | ReasonEndpointUnreadable | ReasonPlanRefused => true
  | ReasonOuterPathAbsent | ReasonOther _ => false
  end.

Inductive Readiness :=
| ReadinessUnknown | ReadinessReady | ReadinessBlocked | ReadinessOther (raw : string).

#[export] Instance State_eq_dec : EqDecision State.
Proof. solve_decision. Defined.
#[export] Instance Reason_eq_dec : EqDecision Reason.
Proof. solve_decision. Defined.
#[export] Instance Readiness_eq_dec : EqDecision Readiness.
Proof. solve_decision. Defined.

Record Dependencies := {
  PhysicalNetwork : Readiness;
  Tunnel : Readiness;
  ScopedRoutes : Readiness;
}.

Definition OuterReady (dependencies : Dependencies) : bool :=
  bool_decide (PhysicalNetwork dependencies = ReadinessReady) &&
  bool_decide (Tunnel dependencies = ReadinessReady) &&
  bool_decide (ScopedRoutes dependencies = ReadinessReady).

End Types.

Module Machine.
Import Types.

Definition SnapshotSchemaVersion : Z := 1.

Inductive Event :=
| EventSuspend | EventDependenciesReady | EventProbeSucceeded | EventProbeFailed
| EventBeginRecovery | EventCooldownElapsed | EventOperatorResume
| EventOther (raw : string).

(** [Tick] is an [int64]; thresholds and budgets are [uint32]. *)
Record Policy := {
  FailureThreshold : Z;
  ActionBudget : Z;
  BaseBackoff : Z;
  MaxBackoff : Z;
  VerificationWindow : Z;
  Cooldown : Z;
}.

Record Snapshot := {
  SchemaVersion : Z;
  Generation : Z;
  SState : State;
  ConsecutiveFailures : Z;
  Attempts : Z;
  LastTick : Z;
  RecoveringSince : Z;
  NextActionAt : Z;
  SafeUntil : Z;
}.

#[export] Instance Snapshot_eq_dec : EqDecision Snapshot.
Proof. solve_decision. Defined.

Record Decision := {
  From : State;
  To : State;
  DGeneration : Z;
  DReason : Reason;
  RecoveryApproved : bool;
}.

Record t := { policy : Policy; snapshot : Snapshot }.

Inductive error :=
| ErrInvalidPolicy | ErrInvalidSnapshot | ErrStaleGeneration | ErrNonMonotonicTick
| ErrInvalidEvent | ErrResumePrecondition.

Definition NewSnapshot (state : State) : Snapshot :=
  {| SchemaVersion := SnapshotSchemaVersion; Generation := 0; SState := state;
     ConsecutiveFailures := 0; Attempts := 0; LastTick := 0; RecoveringSince := 0;
     NextActionAt := 0; SafeUntil := 0 |}.

Definition validatePolicy (p : Policy) : result error unit :=
  ensure (negb ((FailureThreshold p =? 0) || (ActionBudget p =? 0) ||
                (BaseBackoff p <=? 0) || (MaxBackoff p <? BaseBackoff p) ||
                (VerificationWindow p <? 0) || (Cooldown p <=? 0)))
         ErrInvalidPolicy.

Definition validateSnapshot (s : Snapshot) : result error unit :=
  ensure (negb (negb (SchemaVersion s =? SnapshotSchemaVersion) ||
                negb (State_Valid (SState s)) || (LastTick s <? 0) ||
                (RecoveringSince s <? 0) || (NextActionAt s <? 0) || (SafeUntil s <? 0)))
         ErrInvalidSnapshot.

Definition NewMachine (p : Policy) (s : Snapshot) : result error t :=
  _ ← validatePolicy p;
  _ ← validateSnapshot s;
  Ok {| policy := p; snapshot := s |}.

(** Field assignments [machine.snapshot.F = v]. *)
Definition set_state (v : State) (s : Snapshot) : Snapshot :=
  {| SchemaVersion := SchemaVersion s; Generation := Generation s; SState := v;
     ConsecutiveFailures := ConsecutiveFailures s; Attempts := Attempts s;
     LastTick := LastTick s; RecoveringSince := RecoveringSince s;
     NextActionAt := NextActionAt s; SafeUntil := SafeUntil s |}.
Definition set_failures (v : Z) (s : Snapshot) : Snapshot :=
  {| SchemaVersion := SchemaVersion s; Generation := Generation s; SState := SState s;
     ConsecutiveFailures := v; Attempts := Attempts s;
     LastTick := LastTick s; RecoveringSince := RecoveringSince s;
     NextActionAt := NextActionAt s; SafeUntil := SafeUntil s |}.
Definition set_attempts (v : Z) (s : Snapshot) : Snapshot :=
  {| SchemaVersion := SchemaVersion s; Generation := Generation s; SState := SState s;
     ConsecutiveFailures := ConsecutiveFailures s; Attempts := v;
     LastTick := LastTick s; RecoveringSince := RecoveringSince s;
     NextActionAt := NextActionAt s; SafeUntil := SafeUntil s |}.
Definition set_last_tick (v : Z) (s : Snapshot) : Snapshot :=
  {| SchemaVersion := SchemaVersion s; Generation := Generation s; SState := SState s;
     ConsecutiveFailures := ConsecutiveFailures s; Attempts := Attempts s;
     LastTick := v; RecoveringSince := RecoveringSince s;
     NextActionAt := NextActionAt s; SafeUntil := SafeUntil s |}.
Definition set_recovering_since (v : Z) (s : Snapshot) : Snapshot :=
  {| SchemaVersion := SchemaVersion s; Generation := Generation s; SState := SState s;
     ConsecutiveFailures := ConsecutiveFailures s; Attempts := Attempts s;
     LastTick := LastTick s; RecoveringSince := v;
     NextActionAt := NextActionAt s; SafeUntil := SafeUntil s |}.
Definition set_next_action (v : Z) (s : Snapshot) : Snapshot :=
  {| SchemaVersion := SchemaVersion s; Generation := Generation s; SState := SState s;
     ConsecutiveFailures := ConsecutiveFailures s; Attempts := Attempts s;
     LastTick := LastTick s; RecoveringSince := RecoveringSince s;
     NextActionAt := v; SafeUntil := SafeUntil s |}.
Definition set_safe_until (v : Z) (s : Snapshot) : Snapshot :=
  {| SchemaVersion := SchemaVersion s; Generation := Generation s; SState := SState s;
     ConsecutiveFailures := ConsecutiveFailures s; Attempts := Attempts s;
     LastTick := LastTick s; RecoveringSince := RecoveringSince s;
     NextActionAt := NextActionAt s; SafeUntil := v |}.
Definition set_generation (v : Z) (s : Snapshot) : Snapshot :=
  {| SchemaVersion := SchemaVersion s; Generation := v; SState := SState s;
     ConsecutiveFailures := ConsecutiveFailures s; Attempts := Attempts s;
     LastTick := LastTick s; RecoveringSince := RecoveringSince s;
     NextActionAt := NextActionAt s; SafeUntil := SafeUntil s |}.

Definition resetHealthy (s : Snapshot) : Snapshot :=
  {| SchemaVersion := SchemaVersion s; Generation := Generation s; SState := StateHealthy;
     ConsecutiveFailures := 0; Attempts := 0; LastTick := LastTick s;
     RecoveringSince := 0; NextActionAt := 0; SafeUntil := 0 |}.

(** The [for current := uint32(1); current < attempt; current++] loop of
    [backoff].  Each turn either returns or doubles [b]; with a valid policy [b]
    is at least 1 and below half of an [int64], so 64 turns are enough
    ([backoff_runs]). *)
Fixpoint backoff_loop (fuel : nat) (p : Policy) (current attempt b : Z) : Z :=
  let tail := if MaxBackoff p <? b then MaxBackoff p else b in
  match fuel with
  | O => tail
  | S fuel' =>
      if current <? attempt then
        if Z.quot (MaxBackoff p) 2 <=? b then MaxBackoff p
        else backoff_loop fuel' p (u32 (current + 1)) attempt (i64 (b * 2))
      else tail
  end.

Definition backoff_fuel : nat := 64.

Definition backoff (p : Policy) (attempt : Z) : Z :=
  backoff_loop backoff_fuel p 1 attempt (BaseBackoff p).

(** What the [switch event] of [Step] does: the snapshot after it, the reason,
    and whether recovery is approved. *)
Definition apply_event (p : Policy) (at_ : Z) (event : Event) (s : Snapshot) :
    result error (Snapshot * Reason * bool) :=
  match event with
  | EventSuspend =>
      Ok (set_recovering_since 0 (set_failures 0 (set_state StateSuspended s)),
          ReasonIntentionalSleep, false)
  | EventDependenciesReady =>
      match SState s with
      | StateSuspended => Ok (resetHealthy s, ReasonDependenciesReady, false)
      | _ => Ok (s, ReasonNone, false)
      end
  | EventProbeSucceeded =>
      match SState s with
      | StateHealthy => Ok (set_failures 0 s, ReasonProbeSucceeded, false)
      | StateDegraded => Ok (resetHealthy s, ReasonProbeSucceeded, false)
      | StateRecovering =>
          if VerificationWindow p <=? i64 (at_ - RecoveringSince s)
          then Ok (resetHealthy s, ReasonVerificationPassed, false)
          else Ok (s, ReasonNone, false)
      | _ => Ok (s, ReasonNone, false)
      end
  | EventProbeFailed =>
      let s' := set_failures (u32 (ConsecutiveFailures s + 1)) s in
      match SState s with
      | StateHealthy =>
          if FailureThreshold p <=? ConsecutiveFailures s'
          then Ok (set_next_action at_ (set_state StateDegraded s'), ReasonFailureThreshold, false)
          else Ok (s', ReasonProbeFailed, false)
      | StateDegraded => Ok (s', ReasonProbeFailed, false)
      | StateRecovering =>
          let s'' := set_recovering_since 0 s' in
          if ActionBudget p <=? Attempts s''
          then Ok (set_safe_until (i64 (at_ + Cooldown p)) (set_state StateSafeMode s''),
                   ReasonRecoveryBudget, false)
          else Ok (set_state StateDegraded s'', ReasonProbeFailed, false)
      | _ => Ok (s, ReasonNone, false)
      end
  | EventBeginRecovery =>
      if bool_decide (SState s = StateDegraded) && (NextActionAt s <=? at_) then
        if ActionBudget p <=? Attempts s
        then Ok (set_safe_until (i64 (at_ + Cooldown p)) (set_state StateSafeMode s),
                 ReasonRecoveryBudget, false)
        else
          let s' := set_attempts (u32 (Attempts s + 1)) s in
          Ok (set_next_action (i64 (at_ + backoff p (Attempts s')))
                (set_recovering_since at_ (set_state StateRecovering s')),
              ReasonRecoveryAllowed, true)
      else Ok (s, ReasonNone, false)
  | EventCooldownElapsed =>
      if bool_decide (SState s = StateSafeMode) && (SafeUntil s <=? at_)
      then Ok (set_safe_until 0 (set_next_action at_ (set_attempts 0 (set_state StateDegraded s))),
               ReasonCooldownElapsed, false)
      else Ok (s, ReasonNone, false)
  | EventOperatorResume =>
      if bool_decide (SState s = StateSafeMode)
      then Ok (set_safe_until 0 (set_next_action at_ (set_recovering_since 0
                 (set_attempts 0 (set_state StateDegraded s)))), ReasonOperatorResume, false)
      else Err ErrResumePrecondition
  | EventOther _ => Err ErrInvalidEvent
  end.

Definition Step (m : t) (expectedGeneration at_ : Z) (event : Event) :
    t * result error Decision :=
  let before := snapshot m in
  if negb (expectedGeneration =? Generation before) then (m, Err ErrStaleGeneration)
  else if at_ <? LastTick before then (m, Err ErrNonMonotonicTick)
  else match apply_event (policy m) at_ event before with
       | Err e => (m, Err e)
       | Ok (s, reason, approved) =>
           let ticked := set_last_tick at_ s in
           let after := if decide (ticked = before) then ticked
                        else set_generation (u64 (Generation ticked + 1)) ticked in
           ({| policy := policy m; snapshot := after |},
            Ok {| From := SState before; To := SState after;
                  DGeneration := Generation after; DReason := reason;
                  RecoveryApproved := approved |})
       end.

(** A sequence of calls, each with the generation the caller expects; the
    decisions of the accepted ones, oldest first. *)
Record Call := { expected : Z; at_tick : Z; call_event : Event }.

Fixpoint run (m : t) (calls : list Call) : t * list (Call * Decision) :=
  match calls with
  | [] => (m, [])
  | c :: rest =>
      match Step m (expected c) (at_tick c) (call_event c) with
      | (m', Err _) => run m' rest
      | (m', Ok d) => let '(m'', ds) := run m' rest in (m'', (c, d) :: ds)
      end
  end.

(** ** Well-formedness *)

Record policy_ok (p : Policy) : Prop := {
  ok_valid : validatePolicy p = Ok tt;
  ok_threshold : 0 <= FailureThreshold p <= max_u32;
  ok_budget : 0 <= ActionBudget p <= max_u32;
  ok_max : MaxBackoff p <= max_i64;
  ok_cooldown : Cooldown p <= max_i64;
}.

Lemma policy_ok_pos p : policy_ok p ->
  1 <= FailureThreshold p /\ 1 <= ActionBudget p /\ 1 <= BaseBackoff p <= MaxBackoff p /\
  0 <= VerificationWindow p /\ 1 <= Cooldown p.
Proof.
  intros [Hv ? ? _ _]. unfold validatePolicy, ensure in Hv. inv_result. bool_prop.
  lia.
Qed.

(** What [Step] keeps true of a snapshot reached from a fresh one. *)
Record snapshot_inv (p : Policy) (s : Snapshot) : Prop := {
  inv_state : State_Valid (SState s) = true;
  inv_failures : 0 <= ConsecutiveFailures s <= max_u32;
  inv_attempts : 0 <= Attempts s <= ActionBudget p;
  inv_healthy : SState s = StateHealthy -> ConsecutiveFailures s < FailureThreshold p;
  inv_recovering : SState s = StateRecovering ->
    1 <= Attempts s /\ RecoveringSince s <= LastTick s;
}.

(** The accepted transitions: the specification of [Step]'s control flow. *)
Inductive edge : Event -> State -> State -> Prop :=
| edge_stay ev s : edge ev s s
| edge_suspend s : edge EventSuspend s StateSuspended
| edge_ready : edge EventDependenciesReady StateSuspended StateHealthy
| edge_degrade : edge EventProbeFailed StateHealthy StateDegraded
| edge_heal : edge EventProbeSucceeded StateDegraded StateHealthy
| edge_verify : edge EventProbeSucceeded StateRecovering StateHealthy
| edge_relapse : edge EventProbeFailed StateRecovering StateDegraded
| edge_exhaust : edge EventProbeFailed StateRecovering StateSafeMode
| edge_recover : edge EventBeginRecovery StateDegraded StateRecovering
| edge_refuse : edge EventBeginRecovery StateDegraded StateSafeMode
| edge_cooldown : edge EventCooldownElapsed StateSafeMode StateDegraded
| edge_resume : edge EventOperatorResume StateSafeMode StateDegraded.
#[export] Hint Constructors edge : hexroute.

Ltac case_step H :=
  unfold Step in H; cbv zeta in H; inv_result; simpl in *; bool_prop; subst.
Ltac case_event H :=
  unfold apply_event in H; cbv zeta in H; inv_result; simpl in *; bool_prop; subst.
Ltac state_rewrite :=
  repeat match goal with
  | E : SState ?s = _ |- context [SState ?s] => rewrite E
  end.

Lemma step_rejected m g at_ ev m' e :
  Step m g at_ ev = (m', Err e) -> m' = m.
Proof. intros H. case_step H; done. Qed.

(** An accepted step, seen through its [apply_event] part. *)
Lemma step_accepted m g at_ ev m' d :
  Step m g at_ ev = (m', Ok d) ->
  exists s,
    apply_event (policy m) at_ ev (snapshot m) = Ok (s, DReason d, RecoveryApproved d) /\
    g = Generation (snapshot m) /\ LastTick (snapshot m) <= at_ /\
    policy m' = policy m /\
    snapshot m' =
      (if decide (set_last_tick at_ s = snapshot m) then set_last_tick at_ s
       else set_generation (u64 (Generation (set_last_tick at_ s) + 1)) (set_last_tick at_ s)) /\
    From d = SState (snapshot m) /\ To d = SState (snapshot m') /\
    DGeneration d = Generation (snapshot m').
Proof.
  intros H. unfold Step in H. cbv zeta in H. inv_result. simpl. bool_prop.
  eexists. repeat split; eauto.
Qed.

Lemma after_fields at_ s before :
  let after := if decide (set_last_tick at_ s = before) then set_last_tick at_ s
               else set_generation (u64 (Generation (set_last_tick at_ s) + 1)) (set_last_tick at_ s) in
  SState after = SState s /\ ConsecutiveFailures after = ConsecutiveFailures s /\
  Attempts after = Attempts s /\ LastTick after = at_ /\
  RecoveringSince after = RecoveringSince s /\ NextActionAt after = NextActionAt s /\
  SafeUntil after = SafeUntil s /\ SchemaVersion after = SchemaVersion s.
Proof. simpl. destruct (decide _); repeat split. Qed.

Ltac step_facts H :=
  let s := fresh "s" in let Hev := fresh "Hev" in let Hp := fresh "Hpol" in
  apply step_accepted in H as (s & Hev & ? & ? & Hp & Hsnap & ? & ? & ?);
  match type of Hev with
  | apply_event _ ?a _ ?b = Ok (?x, _, _) =>
      pose proof (after_fields a x b) as Hafter; cbv zeta in Hafter;
      rewrite <- Hsnap in Hafter;
      destruct Hafter as (Hst & Hfail & Hatt & Htick & Hrec & Hnext & Hsafe & Hver)
  end.

(** ** The back-off loop *)

(** One run of the source's loop, turn by turn. *)
Inductive backoff_exec (p : Policy) (attempt : Z) : Z -> Z -> Z -> Prop :=
| exec_exit current b :
    attempt <= current ->
    backoff_exec p attempt current b (if MaxBackoff p <? b then MaxBackoff p else b)
| exec_cap current b :
    current < attempt -> Z.quot (MaxBackoff p) 2 <= b ->
    backoff_exec p attempt current b (MaxBackoff p)
| exec_double current b r :
    current < attempt -> b < Z.quot (MaxBackoff p) 2 ->
    backoff_exec p attempt (u32 (current + 1)) (i64 (b * 2)) r ->
    backoff_exec p attempt current b r.

Lemma backoff_loop_exec p attempt : policy_ok p -> attempt <= max_u32 ->
  forall fuel current b,
    1 <= current -> BaseBackoff p <= b <= MaxBackoff p -> MaxBackoff p < b * 2 ^ Z.of_nat fuel ->
    backoff_exec p attempt current b (backoff_loop fuel p current attempt b) /\
    BaseBackoff p <= backoff_loop fuel p current attempt b <= MaxBackoff p.
Proof.
  intros Hp Hatt. pose proof (policy_ok_pos p Hp) as (? & ? & ? & ?). destruct Hp.
  induction fuel as [|fuel IH]; intros current b Hc Hb Hfuel.
  { rewrite Z.mul_1_r in Hfuel. lia. }
  cbn [backoff_loop]. destruct (Z.ltb_spec current attempt) as [Hlt|Hge]; cycle 1.
  { split; [by constructor|]. destruct (Z.ltb_spec (MaxBackoff p) b); lia. }
  pose proof (Z.quot_div_nonneg (MaxBackoff p) 2 ltac:(lia) ltac:(lia)) as Hq.
  destruct (Z.leb_spec (Z.quot (MaxBackoff p) 2) b) as [Hcap|Hdouble].
  { split; [by apply exec_cap | lia]. }
  pose proof (Z.div_mod (MaxBackoff p) 2 ltac:(lia)).
  pose proof (Z.mod_pos_bound (MaxBackoff p) 2 ltac:(lia)).
  unfold max_i64 in *.
  assert (i64 (b * 2) = b * 2) as Hi by (apply i64_small; unfold min_i64, max_i64; lia).
  assert (u32 (current + 1) = current + 1) as Hu by (apply u32_small; lia).
  rewrite Nat2Z.inj_succ, Z.pow_succ_r in Hfuel by lia.
  destruct (IH (u32 (current + 1)) (i64 (b * 2))) as [Hx Hr].
  - lia.
  - lia.
  - rewrite Hi. lia.
  - split; [|done]. by apply exec_double.
Qed.

Lemma backoff_within p attempt :
  policy_ok p -> 0 <= attempt <= max_u32 ->
  backoff_exec p attempt 1 (BaseBackoff p) (backoff p attempt) /\
  BaseBackoff p <= backoff p attempt <= MaxBackoff p.
Proof.
  intros Hp Ha. pose proof (policy_ok_pos p Hp). destruct Hp.
  apply backoff_loop_exec; [by constructor | lia | lia | lia |].
  unfold backoff_fuel, max_i64 in *. change (Z.of_nat 64) with 64. lia.
Qed.

Lemma backoff_exec_deterministic p attempt current b r1 r2 :
  backoff_exec p attempt current b r1 -> backoff_exec p attempt current b r2 -> r1 = r2.
Proof. intros H1. induction H1; inversion 1; subst; try lia; eauto. Qed.

(** The back-off of every attempt is the one value the source's loop can
    return, the loop stops within the model's fuel, and the value is between the
    base and the maximum back-off, with no overflow of the doubling. *)
Theorem backoff_runs p attempt :
  policy_ok p -> 0 <= attempt <= max_u32 ->
  (forall r, backoff_exec p attempt 1 (BaseBackoff p) r <-> r = backoff p attempt) /\
  BaseBackoff p <= backoff p attempt <= MaxBackoff p.
Proof.
  intros Hp Ha. destruct (backoff_within p attempt Hp Ha) as [Hx Hr].
  split; [|done]. intros r. split; [|by intros ->].
  intros Hy. by eapply backoff_exec_deterministic.
Qed.

Definition demo_policy : Policy :=
  {| FailureThreshold := 2; ActionBudget := 3; BaseBackoff := 10; MaxBackoff := 100;
     VerificationWindow := 5; Cooldown := 600 |}.

Lemma demo_policy_ok : policy_ok demo_policy.
Proof. split; (reflexivity || (vm_compute; intuition congruence)). Qed.

Lemma backoff_runs_witness :
  BaseBackoff demo_policy <= backoff demo_policy 3 <= MaxBackoff demo_policy /\
  backoff demo_policy 3 = 40.
Proof.
  split; [|reflexivity].
  apply (backoff_runs demo_policy 3 demo_policy_ok). vm_compute; intuition congruence.
Defined.

(** ** Steps *)

Lemma step_invariant m g at_ ev m' r :
  policy_ok (policy m) -> snapshot_inv (policy m) (snapshot m) ->
  Step m g at_ ev = (m', r) ->
  policy m' = policy m /\ snapshot_inv (policy m) (snapshot m') /\
  edge ev (SState (snapshot m)) (SState (snapshot m')).
Proof.
  intros Hp [] H. pose proof (policy_ok_pos _ Hp) as (? & ? & _). destruct Hp.
  destruct r as [d|e]; cycle 1.
  { apply step_rejected in H as ->. split; [done | split; [by split | constructor]]. }
  step_facts H. split; [done|].
  assert (0 <= u32 (ConsecutiveFailures (snapshot m) + 1) <= max_u32) by apply u32_range.
  case_event Hev;
    (split; [split | rewrite Hst; simpl]);
    rewrite ?Hst, ?Hfail, ?Hatt, ?Htick, ?Hrec; simpl; intros; state_rewrite;
    try (rewrite u32_small by lia); try done; try lia; auto with hexroute;
    intuition (congruence || lia).
Qed.

(** [Step] preserves the invariant of the machine, whatever the event and
    the tick: no more attempts than the budget, a healthy machine below its
    failure threshold, a recovering one with an attempt behind it; and it moves
    only along the edges of the state machine. *)
Theorem step_preserves_invariant m g at_ ev m' r :
  policy_ok (policy m) -> snapshot_inv (policy m) (snapshot m) ->
  Step m g at_ ev = (m', r) ->
  policy m' = policy m /\ snapshot_inv (policy m) (snapshot m') /\
  edge ev (SState (snapshot m)) (SState (snapshot m')).
Proof. apply step_invariant. Qed.

Definition demo_machine : t :=
  {| policy := demo_policy; snapshot := NewSnapshot StateHealthy |}.

Lemma fresh_inv p state : policy_ok p -> State_Valid state = true ->
  state <> StateRecovering -> snapshot_inv p (NewSnapshot state).
Proof.
  intros Hp Hv Hr. pose proof (policy_ok_pos p Hp) as (? & ? & _).
  split; simpl; try done; unfold max_u32; lia.
Qed.

Lemma step_preserves_invariant_witness :
  snapshot_inv demo_policy (snapshot (fst (Step demo_machine 0 7 EventProbeFailed))).
Proof.
  apply (step_preserves_invariant demo_machine 0 7 EventProbeFailed _ _
           demo_policy_ok ltac:(apply fresh_inv; [apply demo_policy_ok | done | done])
           (surjective_pairing _)).
Defined.

(** Which decisions end a spell of recovery: the attempts go back to zero. *)
Definition restores (d : Decision) : bool :=
  match DReason d with
  | ReasonDependenciesReady | ReasonVerificationPassed
  | ReasonCooldownElapsed | ReasonOperatorResume => true
  | ReasonProbeSucceeded => bool_decide (From d = StateDegraded)
  | _ => false
  end.

Lemma step_attempts m g at_ ev m' d :
  policy_ok (policy m) -> snapshot_inv (policy m) (snapshot m) ->
  Step m g at_ ev = (m', Ok d) ->
  Attempts (snapshot m') =
    (if RecoveryApproved d then Attempts (snapshot m) + 1
     else if restores d then 0 else Attempts (snapshot m)) /\
  (RecoveryApproved d = true ->
     restores d = false /\ Attempts (snapshot m) < ActionBudget (policy m)).
Proof.
  intros Hp Hinv H. destruct Hp, Hinv. step_facts H. rewrite Hatt.
  case_event Hev; unfold restores;
    repeat match goal with
    | E : _ = DReason d |- _ => rewrite <- E
    | E : _ = RecoveryApproved d |- _ => rewrite <- E
    | E : From d = _ |- _ => rewrite E
    end; state_rewrite; simpl; try (rewrite u32_small by lia);
    rewrite ?bool_decide_eq_true_2, ?bool_decide_eq_false_2 by done; simpl;
    split; intros; try done; try lia.
Qed.

Lemma run_invariant m calls m' ds :
  policy_ok (policy m) -> snapshot_inv (policy m) (snapshot m) ->
  run m calls = (m', ds) ->
  policy m' = policy m /\ snapshot_inv (policy m) (snapshot m').
Proof.
  revert m ds. induction calls as [|c calls IH]; intros m ds Hp Hi H; simpl in H.
  { by simplify_eq. }
  destruct (Step m _ _ _) as [m1 r] eqn:HS.
  destruct (step_invariant _ _ _ _ _ _ Hp Hi HS) as (Hpol & Hi1 & _).
  rewrite <- Hpol in Hp, Hi1. rewrite <- Hpol.
  destruct r; [destruct (run m1 calls) eqn:HR|]; simplify_eq; eapply IH; eauto.
Qed.

Definition approvals (ds : list (Call * Decision)) : Z :=
  Z.of_nat (length (filter (fun cd => RecoveryApproved (snd cd) = true) ds)).
Definition restorations (ds : list (Call * Decision)) : Z :=
  Z.of_nat (length (filter (fun cd => restores (snd cd) = true) ds)).

Lemma run_budget m calls m' ds :
  policy_ok (policy m) -> snapshot_inv (policy m) (snapshot m) ->
  run m calls = (m', ds) ->
  approvals ds + Attempts (snapshot m) <= ActionBudget (policy m) * (1 + restorations ds).
Proof.
  revert m ds. induction calls as [|c calls IH]; intros m ds Hp Hi H; simpl in H.
  { simplify_eq. destruct Hi. unfold approvals, restorations. simpl. lia. }
  destruct (Step m _ _ _) as [m1 r] eqn:HS.
  destruct (step_invariant _ _ _ _ _ _ Hp Hi HS) as (Hpol & Hi1 & _).
  assert (policy_ok (policy m1)) as Hp1 by by rewrite Hpol.
  assert (snapshot_inv (policy m1) (snapshot m1)) as Hi1' by by rewrite Hpol.
  destruct r as [d|e]; cycle 1.
  { apply step_rejected in HS as ->. by apply IH. }
  destruct (run m1 calls) as [m2 ds1] eqn:HR. simplify_eq.
  specialize (IH m1 ds1 Hp1 Hi1' HR). rewrite Hpol in IH.
  destruct (step_attempts _ _ _ _ _ _ Hp Hi HS) as [Hat Happ].
  destruct Hi. unfold approvals, restorations in *. rewrite !filter_cons. simpl.
  destruct (RecoveryApproved d) eqn:?; [destruct (Happ eq_refl) as [Hre ?]; rewrite Hre|];
    try (destruct (restores d) eqn:?); repeat case_decide; simplify_eq/=; nia.
Qed.

(** However calls are sequenced, a machine approves at most [ActionBudget]
    recoveries per spell: the approvals of a run are bounded by the budget times
    one more than the number of restorations in it. *)
Theorem run_respects_budget m calls m' ds :
  policy_ok (policy m) -> snapshot_inv (policy m) (snapshot m) ->
  run m calls = (m', ds) ->
  approvals ds + Attempts (snapshot m) <= ActionBudget (policy m) * (1 + restorations ds).
Proof. apply run_budget. Qed.

Definition call g at_ ev : Call := {| expected := g; at_tick := at_; call_event := ev |}.

Definition demo_calls : list Call :=
  [call 0 1 EventProbeFailed; call 1 2 EventProbeFailed; call 2 3 EventBeginRecovery;
   call 3 4 EventProbeFailed; call 4 13 EventBeginRecovery].

Lemma run_respects_budget_witness :
  approvals (snd (run demo_machine demo_calls)) = 2 /\
  approvals (snd (run demo_machine demo_calls)) + 0 <=
    3 * (1 + restorations (snd (run demo_machine demo_calls))).
Proof.
  split; [reflexivity|].
  apply (run_respects_budget demo_machine demo_calls _ _ demo_policy_ok
           ltac:(apply fresh_inv; [apply demo_policy_ok | done | done])
           (surjective_pairing _)).
Defined.

(** A decision after which the next recovery is still bound by the back-off. *)
Definition quiet (d : Decision) : bool := negb (RecoveryApproved d) && negb (restores d).

Lemma quiet_step m g at_ ev m' d :
  Step m g at_ ev = (m', Ok d) -> quiet d = true ->
  SState (snapshot m) <> StateHealthy ->
  SState (snapshot m') <> StateHealthy /\
  NextActionAt (snapshot m') = NextActionAt (snapshot m).
Proof.
  intros H Hq Hs. unfold quiet, restores in Hq. step_facts H. rewrite Hst, Hnext.
  case_event Hev;
    repeat match goal with
    | E : _ = DReason d |- _ => rewrite <- E in *
    | E : _ = RecoveryApproved d |- _ => rewrite <- E in *
    | E : From d = _ |- _ => rewrite E in *
    end; simpl in *; bool_prop; split; congruence.
Qed.

Lemma quiet_run calls m m' ds :
  run m calls = (m', ds) -> Forall (fun cd => quiet (snd cd) = true) ds ->
  SState (snapshot m) <> StateHealthy ->
  SState (snapshot m') <> StateHealthy /\
  NextActionAt (snapshot m') = NextActionAt (snapshot m).
Proof.
  revert m ds. induction calls as [|c calls IH]; intros m ds H Hq Hs; simpl in H.
  { by simplify_eq. }
  destruct (Step m _ _ _) as [m1 [d|e]] eqn:HS; cycle 1.
  { apply step_rejected in HS as ->. eauto. }
  destruct (run m1 calls) as [m2 ds1] eqn:HR. simplify_eq.
  inversion_clear Hq as [|? ? Hd Hrest]. simpl in Hd.
  destruct (quiet_step _ _ _ _ _ _ HS Hd Hs) as [Hs1 <-]. by eapply IH.
Qed.

(** Two consecutive approved recoveries of a spell are at least the back-off
    of the first one apart, whatever is called in between. *)
Theorem approvals_are_spaced m g1 at1 e1 m1 d1 calls m2 ds g2 at2 e2 m3 d2 :
  policy_ok (policy m) -> snapshot_inv (policy m) (snapshot m) ->
  at1 + MaxBackoff (policy m) <= max_i64 -> 0 <= at1 ->
  Step m g1 at1 e1 = (m1, Ok d1) -> RecoveryApproved d1 = true ->
  run m1 calls = (m2, ds) -> Forall (fun cd => quiet (snd cd) = true) ds ->
  Step m2 g2 at2 e2 = (m3, Ok d2) -> RecoveryApproved d2 = true ->
  at1 + backoff (policy m) (Attempts (snapshot m1)) <= at2.
Proof.
  intros Hp Hi Hmax Hat H1 Hd1 Hrun Hq H2 Hd2.
  destruct (step_invariant _ _ _ _ _ _ Hp Hi H1) as (Hpol & Hi1 & _).
  assert (0 <= Attempts (snapshot m1) <= max_u32) as Hatt1
    by (destruct Hp, Hi1; lia).
  pose proof (backoff_within _ _ Hp Hatt1) as [_ Hb].
  pose proof (policy_ok_pos _ Hp) as (_ & _ & ? & _).
  assert (SState (snapshot m1) = StateRecovering /\
          NextActionAt (snapshot m1) = at1 + backoff (policy m) (Attempts (snapshot m1)))
    as [Hst1 Hnext1].
  { step_facts H1. rewrite Hst, Hnext, Hatt in *. case_event Hev; try congruence.
    split; [done|]. apply i64_small. unfold min_i64. lia. }
  destruct (quiet_run _ _ _ _ Hrun Hq) as [_ Hn]; [congruence|].
  rewrite <- Hnext1, <- Hn. clear -H2 Hd2. step_facts H2. by case_event Hev; try congruence.
Qed.

Definition demo_degraded : t :=
  Eval vm_compute in fst (run demo_machine (take 2 demo_calls)).
Definition demo_recovering : t :=
  Eval vm_compute in fst (Step demo_degraded 2 3 EventBeginRecovery).
Definition demo_relapsed : t :=
  Eval vm_compute in fst (run demo_recovering [call 3 4 EventProbeFailed]).

Lemma demo_degraded_inv : snapshot_inv demo_policy (snapshot demo_degraded).
Proof.
  eapply (run_invariant demo_machine (take 2 demo_calls));
    [apply demo_policy_ok | apply fresh_inv; [apply demo_policy_ok | done | done]
    | vm_compute; reflexivity].
Qed.

Lemma approvals_are_spaced_witness :
  3 + backoff demo_policy 1 <= 13.
Proof.
  eapply (approvals_are_spaced demo_degraded 2 3 EventBeginRecovery demo_recovering _
            [call 3 4 EventProbeFailed] demo_relapsed _ 4 13 EventBeginRecovery _ _
            demo_policy_ok demo_degraded_inv);
    [vm_compute; discriminate | lia | vm_compute; reflexivity | reflexivity
    | vm_compute; reflexivity | repeat constructor | vm_compute; reflexivity | reflexivity].
Defined.

(** A machine in SAFE_MODE stays there, approving nothing and moving its
    deadline not at all, as long as the calls neither suspend it nor are an
    operator's resume, and come before the deadline; probes in particular cannot
    re-enable recovery. *)
Theorem safe_mode_holds m calls m' ds :
  SState (snapshot m) = StateSafeMode ->
  Forall (fun c => at_tick c < SafeUntil (snapshot m) /\
                   call_event c <> EventSuspend /\ call_event c <> EventOperatorResume) calls ->
  run m calls = (m', ds) ->
  SState (snapshot m') = StateSafeMode /\
  SafeUntil (snapshot m') = SafeUntil (snapshot m) /\
  Attempts (snapshot m') = Attempts (snapshot m) /\ approvals ds = 0.
Proof.
  revert m ds. induction calls as [|c calls IH]; intros m ds Hs Hc H; simpl in H.
  { by simplify_eq. }
  inversion_clear Hc as [|? ? (Hlt & Hnsusp & Hnres) Hrest].
  destruct (Step m _ _ _) as [m1 [d|e]] eqn:HS; cycle 1.
  { apply step_rejected in HS as ->. eauto. }
  destruct (run m1 calls) as [m2 ds1] eqn:HR. simplify_eq.
  assert (SState (snapshot m1) = StateSafeMode /\ SafeUntil (snapshot m1) = SafeUntil (snapshot m)
          /\ Attempts (snapshot m1) = Attempts (snapshot m) /\ RecoveryApproved d = false)
    as (Hs1 & Hu & Ha & Hd).
  { step_facts HS. rewrite Hst, Hsafe, Hatt.
    case_event Hev; try congruence; try lia; split_and!; congruence. }
  specialize (IH m1 ds1 Hs1). rewrite Hu, Ha in IH.
  destruct (IH Hrest HR) as (? & ? & ? & Happ).
  split_and!; try done. unfold approvals in *. rewrite filter_cons.
  case_decide; [simpl in *; congruence | exact Happ].
Qed.

Lemma safe_mode_holds_witness :
  SState (snapshot (fst (run
    {| policy := demo_policy;
       snapshot := set_safe_until 100 (NewSnapshot StateSafeMode) |}
    [call 0 5 EventProbeSucceeded; call 1 50 EventBeginRecovery; call 2 99 EventCooldownElapsed])))
  = StateSafeMode.
Proof.
  refine (proj1 (safe_mode_holds {| policy := demo_policy;
            snapshot := set_safe_until 100 (NewSnapshot StateSafeMode) |}
            [call 0 5 EventProbeSucceeded; call 1 50 EventBeginRecovery;
             call 2 99 EventCooldownElapsed] _ _ _ _ (surjective_pairing _))).
  - reflexivity.
  - repeat constructor; simpl; (lia || discriminate).
Defined.

(** Generations are a compare-and-swap.  An accepted step was given the
    current generation and leaves either the same snapshot or the next
    generation; after a step that changed the snapshot, no call that still holds
    the old generation is accepted, and a refused call changes nothing. *)
Theorem generation_compare_and_swap m g at_ ev m' d :
  Step m g at_ ev = (m', Ok d) ->
  g = Generation (snapshot m) /\
  (snapshot m' = snapshot m \/ Generation (snapshot m') = u64 (Generation (snapshot m) + 1)) /\
  (snapshot m' <> snapshot m -> forall at' ev', Step m' g at' ev' = (m', Err ErrStaleGeneration)) /\
  (forall m0 g0 at0 ev0 m1 e, Step m0 g0 at0 ev0 = (m1, Err e) -> m1 = m0).
Proof.
  intros H. pose proof H as H'. apply step_accepted in H' as (s & Hev & -> & ? & ? & Hsnap & _).
  assert (Generation s = Generation (snapshot m)) as Hg.
  { clear -Hev. case_event Hev; done. }
  assert (snapshot m' = snapshot m \/ Generation (snapshot m') = u64 (Generation (snapshot m) + 1))
    as Hcases.
  { rewrite Hsnap. destruct (decide _) as [->|]; [by left|]. right. simpl. by rewrite Hg. }
  repeat split; try done; cycle 1.
  { intros. by eapply step_rejected. }
  intros Hne at' ev'. destruct Hcases as [|Hgen]; [done|]. unfold Step. rewrite Hgen.
  rewrite (proj2 (Z.eqb_neq _ _)); [done|]. unfold u64. intros Heq.
  pose proof (Z.div_mod (Generation (snapshot m) + 1) (2 ^ 64) ltac:(lia)). lia.
Qed.

Lemma generation_compare_and_swap_witness :
  Step (fst (Step demo_machine 0 1 EventProbeFailed)) 0 2 EventSuspend =
  (fst (Step demo_machine 0 1 EventProbeFailed), Err ErrStaleGeneration).
Proof.
  refine (proj1 (proj2 (proj2 (generation_compare_and_swap demo_machine 0 1 EventProbeFailed
            _ _ _))) _ 2 EventSuspend).
  - reflexivity.
  - discriminate.
Defined.

End Machine.
