(* ===== verification/Metadata.v ===== *)
(** * Event metadata: identifiers and the sequence generator

    [internal/metadata/metadata.go]. A UUID is its text. The random reader is
    the list of bytes it will still deliver, threaded through the calls; the
    readings of the clock are arguments of the calls that make them. *)

From Stdlib Require Import ZArith Lia Ascii String Sorted.
From stdpp Require Import base strings list option.
From S2P Require Import Prelude GoTime.

Open Scope Z_scope.

Abbreviation UUID := string (only parsing).

Inductive error :=
| ErrInvalidUUID
| ErrSequenceExhausted
| ErrNonMonotonicClock
| ErrInvalidMetadata
| ErrRandom.

#[export] Instance error_eq_dec : EqDecision error.
Proof. solve_decision. Defined.

Record Metadata := mkMetadata {
  EventID : UUID;
  NodeID : UUID;
  SessionID : UUID;
  Sequence : Z;
  WallClock : Z;
  MonotonicNanos : Z
}.

Record Generator := mkGenerator {
  nodeID : UUID;
  sessionID : UUID;
  sequence : Z;
  startMono : Z;
  lastMonotonic : Z;
  random : list Z
}.

(** ** Hexadecimal text *)

Definition hex_char (z : Z) : ascii :=
  if z <? 10 then ascii_of_nat (Z.to_nat (48 + z)) else ascii_of_nat (Z.to_nat (87 + z)).

Definition hex_encode (l : list Z) : list ascii :=
  flat_map (fun b => [hex_char (b / 16); hex_char (b mod 16)]) l.

Definition nibble (c : ascii) : option Z :=
  if is_digit c then Some (code c - 48)
  else if in_range "a" "f" c then Some (code c - 87)
  else if in_range "A" "F" c then Some (code c - 55)
  else None.

(** [hex.DecodeString]: an odd length is an error. *)
Fixpoint hex_decode (l : list ascii) : option (list Z) :=
  match l with
  | [] => Some []
  | a :: b :: l' =>
      x ← nibble a; y ← nibble b; r ← hex_decode l'; Some (x * 16 + y :: r)
  | _ => None
  end.

Definition dash : ascii := "-"%char.

(** ** Identifiers *)

(** The reader delivers the 16 bytes, or it fails having delivered all it had. *)
Definition NewUUID (random : list Z) : result error UUID * list Z :=
  if (length random <? 16)%nat then (Err ErrRandom, [])
  else
    let raw := take 16 random in
    let raw := alter (fun b => Z.lor (Z.land b 15) 64) 6%nat raw in
    let raw := alter (fun b => Z.lor (Z.land b 63) 128) 8%nat raw in
    let part a n := hex_encode (take n (drop a raw)) in
    (Ok (of_chars (part 0 4 ++ dash :: part 4 2 ++ dash :: part 6 2 ++ dash :: part 8 2 ++
                   dash :: part 10 6)%nat), drop 16 random).

Definition ParseUUID (value : string) : result error UUID :=
  let l := chars value in
  if negb (slen value =? 36) ||
     bool_decide (l !! 8%nat ≠ Some dash) || bool_decide (l !! 13%nat ≠ Some dash) ||
     bool_decide (l !! 18%nat ≠ Some dash) || bool_decide (l !! 23%nat ≠ Some dash) ||
     has_upper value
  then Err ErrInvalidUUID
  else
    let compact := List.filter (fun c => negb (Ascii.eqb c dash)) l in
    match hex_decode compact with
    | Some raw =>
        if negb (length raw =? 16)%nat then Err ErrInvalidUUID
        else if negb (Z.shiftr (nth 6 raw 0) 4 =? 4) || negb (Z.shiftr (nth 8 raw 0) 6 =? 2)
        then Err ErrInvalidUUID
        else Ok value
    | None => Err ErrInvalidUUID
    end.

Definition validUUID (value : UUID) : bool := is_ok (ParseUUID value).

(** ** Metadata *)

Fixpoint parse_all (l : list UUID) : result error unit :=
  match l with
  | [] => Ok tt
  | id :: l' => match ParseUUID id with Ok _ => parse_all l' | Err e => Err e end
  end.

Definition Validate (v : Metadata) : result error unit :=
  match parse_all [EventID v; NodeID v; SessionID v] with
  | Err e => Err e
  | Ok _ =>
      if (Sequence v =? 0) || IsZero (WallClock v) || (MonotonicNanos v <? 0)
      then Err ErrInvalidMetadata else Ok tt
  end.

(** [start] is the reading [clock.MonotonicNow()] of the call. *)
Definition NewGenerator (node : UUID) (initialSequence : Z) (start : Z) (random : list Z)
    : result error Generator :=
  match ParseUUID node with
  | Err e => Err e
  | Ok _ =>
      match NewUUID random with
      | (Err e, _) => Err e
      | (Ok session, random') =>
          if start <? 0 then Err ErrNonMonotonicClock
          else Ok (mkGenerator node session initialSequence start start random')
      end
  end.

(** [Next] under the generator's mutex; [monotonic] and [wall] are the clock's
    readings in this call. *)
Definition Next (monotonic wall : Z) (g : Generator) : result error Metadata * Generator :=
  if sequence g =? max_u64 then (Err ErrSequenceExhausted, g)
  else if (monotonic <? lastMonotonic g) || (monotonic <? startMono g)
  then (Err ErrNonMonotonicClock, g)
  else
    match NewUUID (random g) with
    | (Err e, r) => (Err e, mkGenerator (nodeID g) (sessionID g) (sequence g) (startMono g) (lastMonotonic g) r)
    | (Ok eventID, r) =>
        let seq := u64 (sequence g + 1) in
        (Ok (mkMetadata eventID (nodeID g) (sessionID g) seq wall (i64 (monotonic - startMono g))),
         mkGenerator (nodeID g) (sessionID g) seq (startMono g) monotonic r)
    end.

(** A caller's use of the generator: the events it got, oldest first. *)
Fixpoint run (readings : list (Z * Z)) (g : Generator) : list Metadata * Generator :=
  match readings with
  | [] => ([], g)
  | (m, w) :: rest =>
      match Next m w g with
      | (Ok e, g') => let '(es, g'') := run rest g' in (e :: es, g'')
      | (Err _, g') => run rest g'
      end
  end.

(** ** Generated identifiers parse *)

Definition bytes (l : list Z) : Prop := Forall (fun b => 0 <= b < 256) l.

Lemma below_cases (n : nat) (P : Z -> bool) :
  forallb (fun k => P (Z.of_nat k)) (seq 0 n) = true -> forall z, 0 <= z < Z.of_nat n -> P z = true.
Proof.
  intros H z Hz. rewrite forallb_forall in H. rewrite <- (Z2Nat.id z) by lia.
  apply H, in_seq. lia.
Qed.

Definition hex_char_ok (z : Z) : bool :=
  bool_decide (nibble (hex_char z) = Some z) && negb (is_upper (hex_char z)) &&
  negb (Ascii.eqb (hex_char z) dash).

Lemma hex_char_spec z : 0 <= z < 16 ->
  nibble (hex_char z) = Some z /\ is_upper (hex_char z) = false /\ Ascii.eqb (hex_char z) dash = false.
Proof.
  intros Hz. assert (hex_char_ok z = true) as H.
  { revert z Hz. apply (below_cases 16). vm_compute. reflexivity. }
  unfold hex_char_ok in H. bool_prop. done.
Qed.

Lemma hex_encode_spec l : bytes l ->
  hex_decode (hex_encode l) = Some l /\ existsb is_upper (hex_encode l) = false /\
  List.filter (fun c => negb (Ascii.eqb c dash)) (hex_encode l) = hex_encode l.
Proof.
  induction 1 as [|b l Hb _ (IH1 & IH2 & IH3)]; [done|].
  assert (0 <= b / 16 < 16 /\ 0 <= b mod 16 < 16 /\ b / 16 * 16 + b mod 16 = b) as (H1 & H2 & H3).
  { pose proof (Z.div_mod b 16). pose proof (Z.mod_pos_bound b 16). lia. }
  destruct (hex_char_spec _ H1) as (N1 & U1 & D1). destruct (hex_char_spec _ H2) as (N2 & U2 & D2).
  change (hex_encode (b :: l)) with (hex_char (b / 16) :: hex_char (b mod 16) :: hex_encode l).
  cbn [hex_decode existsb List.filter]. rewrite N1, N2, U1, U2, D1, D2, IH1, IH2, IH3.
  cbn [mbind option_bind negb orb]. by rewrite H3.
Qed.

Lemma hex_encode_app l1 l2 : hex_encode (l1 ++ l2) = hex_encode l1 ++ hex_encode l2.
Proof. apply flat_map_app. Qed.

Definition version_ok (b : Z) : bool :=
  let v := Z.lor (Z.land b 15) 64 in (0 <=? v) && (v <? 256) && (Z.shiftr v 4 =? 4).

Definition variant_ok (b : Z) : bool :=
  let v := Z.lor (Z.land b 63) 128 in (0 <=? v) && (v <? 256) && (Z.shiftr v 6 =? 2).

Lemma version_variant b : 0 <= b < 256 -> version_ok b = true /\ variant_ok b = true.
Proof.
  intros Hb. split; revert b Hb; apply (below_cases 256); vm_compute; reflexivity.
Qed.

Lemma list_16 {A} (l : list A) : (16 <= length l)%nat ->
  exists b0 b1 b2 b3 b4 b5 b6 b7 b8 b9 b10 b11 b12 b13 b14 b15,
  take 16 l = [b0; b1; b2; b3; b4; b5; b6; b7; b8; b9; b10; b11; b12; b13; b14; b15].
Proof.
  intros H. do 16 (destruct l as [|? l]; [simpl in H; lia|]). simpl. eauto 20.
Qed.

(** The text of a UUID with the given 16 bytes. *)
Definition uuid_text (raw : list Z) : list ascii :=
  let part a n := hex_encode (take n (drop a raw)) in
  (part 0 4 ++ dash :: part 4 2 ++ dash :: part 6 2 ++ dash :: part 8 2 ++ dash :: part 10 6)%nat.

Lemma uuid_text_parses raw : bytes raw -> length raw = 16%nat ->
  Z.shiftr (nth 6 raw 0) 4 = 4 -> Z.shiftr (nth 8 raw 0) 6 = 2 ->
  ParseUUID (of_chars (uuid_text raw)) = Ok (of_chars (uuid_text raw)).
Proof.
  intros Hb Hl H6 H8. unfold ParseUUID. rewrite chars_of_chars.
  assert (hex_encode raw = hex_encode (take 4 (drop 0 raw)) ++ hex_encode (take 2 (drop 4 raw)) ++
    hex_encode (take 2 (drop 6 raw)) ++ hex_encode (take 2 (drop 8 raw)) ++ hex_encode (take 6 (drop 10 raw)))
    as Happ.
  { do 17 (destruct raw as [|? raw]; try discriminate Hl). reflexivity. }
  assert (forall a n, bytes (take n (drop a raw))) as Hpart
    by (intros; by apply Forall_take, Forall_drop).
  assert (List.filter (fun c => negb (Ascii.eqb c dash)) (uuid_text raw) = hex_encode raw) as Hfilter.
  { unfold uuid_text. repeat (rewrite List.filter_app; cbn [List.filter]).
    rewrite Ascii.eqb_refl. cbn [negb].
    rewrite !(fun a n => proj2 (proj2 (hex_encode_spec _ (Hpart a n)))). by rewrite Happ. }
  assert (has_upper (of_chars (uuid_text raw)) = false) as Hupper.
  { unfold has_upper. rewrite chars_of_chars. unfold uuid_text.
    repeat (rewrite existsb_app; cbn [existsb]).
    by rewrite !(fun a n => proj1 (proj2 (hex_encode_spec _ (Hpart a n)))). }
  assert (slen (of_chars (uuid_text raw)) = 36 /\ uuid_text raw !! 8%nat = Some dash /\
    uuid_text raw !! 13%nat = Some dash /\ uuid_text raw !! 18%nat = Some dash /\
    uuid_text raw !! 23%nat = Some dash) as (Hlen & H1 & H2 & H3 & H4).
  { rewrite <- length_chars, chars_of_chars.
    do 17 (destruct raw as [|? raw]; try discriminate Hl). by split_and!. }
  rewrite Hlen, H1, H2, H3, H4, Hupper, Hfilter. cbn [negb Z.eqb Pos.eqb orb].
  rewrite !bool_decide_eq_false_2 by (intros ?; congruence).
  rewrite (proj1 (hex_encode_spec _ Hb)), Hl, H6, H8. reflexivity.
Qed.

Lemma NewUUID_parses r u r' : bytes r -> NewUUID r = (Ok u, r') -> ParseUUID u = Ok u /\ bytes r'.
Proof.
  intros Hr. unfold NewUUID. destruct (Nat.ltb_spec (length r) 16) as [|Hlen]; [done|].
  intros [= <- <-]. split; [|by apply Forall_drop].
  apply (uuid_text_parses (alter _ 8%nat (alter _ 6%nat (take 16 r))));
    destruct (list_16 r Hlen) as (b0&b1&b2&b3&b4&b5&b6&b7&b8&b9&b10&b11&b12&b13&b14&b15&Ht);
    pose proof (Forall_take (fun b => 0 <= b < 256) 16 r Hr) as Hb; rewrite Ht in Hb |- *;
    cbn [alter list_alter nth length].
  - unfold bytes. rewrite !List.Forall_cons_iff in Hb; destruct_and! Hb.
    assert (forall b, 0 <= b < 256 -> 0 <= Z.lor (Z.land b 15) 64 < 256 /\
      0 <= Z.lor (Z.land b 63) 128 < 256) as Hbits.
    { intros b Hb. destruct (version_variant b Hb) as [Hv Hw].
      unfold version_ok, variant_ok in Hv, Hw. bool_prop. lia. }
    rewrite !List.Forall_cons_iff. split_and!; try done; by apply Hbits.
  - done.
  - rewrite !List.Forall_cons_iff in Hb; destruct_and! Hb. destruct (version_variant b6) as [Hv _]; [done|].
    unfold version_ok in Hv. by bool_prop.
  - rewrite !List.Forall_cons_iff in Hb; destruct_and! Hb. destruct (version_variant b8) as [_ Hv]; [done|].
    unfold variant_ok in Hv. by bool_prop.
Qed.

(** ** The generator *)

Record generator_ok (g : Generator) : Prop := {
  ok_node : ParseUUID (nodeID g) = Ok (nodeID g);
  ok_session : ParseUUID (sessionID g) = Ok (sessionID g);
  ok_sequence : 0 <= sequence g <= max_u64;
  ok_clock : 0 <= startMono g <= lastMonotonic g;
  ok_random : bytes (random g)
}.

Lemma ParseUUID_same v u : ParseUUID v = Ok u -> u = v.
Proof. unfold ParseUUID. intros H. by inv_result. Qed.

Lemma NewGenerator_ok node seq start r g : 0 <= seq <= max_u64 -> bytes r ->
  NewGenerator node seq start r = Ok g -> generator_ok g.
Proof.
  intros Hs Hr. unfold NewGenerator. destruct (ParseUUID node) eqn:Hn; [|done].
  destruct (NewUUID r) as [[s|] r'] eqn:Hu; [|done]. destruct (Z.ltb_spec start 0); [done|].
  intros [= <-]. apply NewUUID_parses in Hu as [Hu Hr']; [|done].
  pose proof (ParseUUID_same _ _ Hn). subst. constructor; simpl; try done.
Qed.

(** What one successful call delivers and leaves. *)
Lemma Next_ok m w g e g' : generator_ok g -> m <= max_i64 -> IsZero w = false ->
  Next m w g = (Ok e, g') ->
  generator_ok g' /\ Validate e = Ok tt /\ NodeID e = nodeID g /\ SessionID e = sessionID g /\
  Sequence e = sequence g + 1 /\ sequence g' = sequence g + 1 /\ nodeID g' = nodeID g /\
  sessionID g' = sessionID g /\ startMono g' = startMono g /\
  lastMonotonic g <= m /\ lastMonotonic g' = m /\ MonotonicNanos e = m - startMono g.
Proof.
  intros [Hn Hs Hseq Hc Hr] Hm Hw. unfold Next.
  destruct (Z.eqb_spec (sequence g) max_u64); [done|].
  destruct (_ || _) eqn:Hmono; [done|]. bool_prop.
  destruct (NewUUID (random g)) as [[u|] r] eqn:Hu; [|done]. intros [= <- <-].
  apply NewUUID_parses in Hu as [Hu Hr']; [|done].
  rewrite u64_small, i64_small by (unfold min_i64, max_i64, max_u64 in *; lia). simpl.
  split_and!; try done; try lia.
  - constructor; simpl; try done; lia.
  - unfold Validate. simpl. rewrite Hu, Hn, Hs, Hw.
    destruct (Z.eqb_spec (sequence g + 1) 0), (Z.ltb_spec (m - startMono g) 0); done || lia.
Qed.

(** A refused call changes at most the state of the random reader. *)
Lemma Next_err m w g e g' : Next m w g = (Err e, g') ->
  nodeID g' = nodeID g /\ sessionID g' = sessionID g /\ sequence g' = sequence g /\
  startMono g' = startMono g /\ lastMonotonic g' = lastMonotonic g /\
  (random g' = random g \/ random g' = []).
Proof.
  unfold Next. destruct (_ =? _); [intros [= _ <-]; auto 10|].
  destruct (_ || _); [intros [= _ <-]; auto 10|].
  unfold NewUUID. destruct (_ <? _)%nat; [|done]. intros [= _ <-]. auto 10.
Qed.

Lemma Next_err_ok m w g e g' : generator_ok g -> Next m w g = (Err e, g') -> generator_ok g'.
Proof.
  intros [Hn Hs Hq Hc Hr] H. apply Next_err in H as (E1 & E2 & E3 & E4 & E5 & E6).
  constructor; rewrite ?E1, ?E2, ?E3, ?E4, ?E5; try done.
  destruct E6 as [-> | ->]; [done|constructor].
Qed.

Lemma run_spec readings g es g' : generator_ok g ->
  Forall (fun r => r.1 <= max_i64 /\ IsZero r.2 = false) readings -> run readings g = (es, g') ->
  generator_ok g' /\ Forall (fun e => Validate e = Ok tt /\ NodeID e = nodeID g /\ SessionID e = sessionID g) es /\
  map Sequence es = map (fun k => sequence g + 1 + Z.of_nat k) (seq 0 (length es)) /\
  Sorted Z.le (lastMonotonic g - startMono g :: map MonotonicNanos es).
Proof.
  intros Hg Hr. revert g es Hg. induction Hr as [|[m w] rest [Hm Hw] _ IH]; intros g es Hg H; simpl in H.
  { simplify_eq. split_and!; first [done | repeat constructor]. }
  destruct (Next m w g) as [[e|e] g1] eqn:Hnext.
  - destruct (run rest g1) as [es1 g2] eqn:Hrun. simplify_eq.
    apply Next_ok in Hnext as (Hg1 & Hv & E1 & E2 & E3 & E4 & E5 & E6 & E7 & E8 & E9 & E10); [|done..].
    destruct (IH g1 es1 Hg1 Hrun) as (Hg' & Hes & Hseq & Hsort).
    rewrite E4, E5, E6, E7, E9 in *. split_and!; [done|by constructor| |].
    + simpl. f_equal; [lia|]. rewrite Hseq, <- seq_shift, map_map.
      apply map_ext. intros k. lia.
    + simpl. rewrite E10. constructor; [done|]. constructor. lia.
  - pose proof (Next_err_ok _ _ _ _ _ Hg Hnext) as Hg1.
    apply Next_err in Hnext as (E1 & E2 & E3 & E4 & E5 & _).
    destruct (IH g1 es Hg1 H) as (Hg' & Hes & Hseq & Hsort). by rewrite E1, E2, E3, E4, E5 in *.
Qed.

(** Every event a generator stamps is valid and ordered. Over any sequence
    of calls, whichever of them fail, the delivered metadata pass [Validate],
    carry the generator's node and session, are numbered without a gap or a
    repetition from the initial sequence, and their monotonic offsets never go
    backwards. *)
Theorem generated_metadata_ordered node seq0 start bytes0 g readings es g' :
  0 <= seq0 <= max_u64 -> bytes bytes0 -> NewGenerator node seq0 start bytes0 = Ok g ->
  Forall (fun r => r.1 <= max_i64 /\ IsZero r.2 = false) readings -> run readings g = (es, g') ->
  Forall (fun e => Validate e = Ok tt /\ NodeID e = node /\ SessionID e = sessionID g) es /\
  map Sequence es = map (fun k => seq0 + 1 + Z.of_nat k) (seq 0 (length es)) /\
  Sorted Z.le (map MonotonicNanos es).
Proof.
  intros Hs Hb Hnew Hr Hrun.
  pose proof (NewGenerator_ok _ _ _ _ _ Hs Hb Hnew) as Hg.
  destruct (run_spec _ _ _ _ Hg Hr Hrun) as (_ & He & Hq & Hsort).
  assert (nodeID g = node /\ sequence g = seq0) as [<- <-].
  { unfold NewGenerator in Hnew. by inv_result. }
  split_and!; [done|done|]. by inversion Hsort.
Qed.

Definition sample_bytes : list Z := map Z.of_nat (seq 100 56).
Definition sample_node : UUID := "6d2f0a51-0b7e-4c1f-9a2d-0123456789ab".
Definition sample_generator : Generator := Eval vm_compute in
  match NewGenerator sample_node 41 5 sample_bytes with
  | Ok g => g | Err _ => mkGenerator "" "" 0 0 0 [] end.
Definition sample_readings : list (Z * Z) := [(7, 1); (6, 2); (9, 3); (9, 4)].

Lemma generated_metadata_ordered_witness :
  map Sequence (run sample_readings sample_generator).1 = [42; 43] /\
  Sorted Z.le (map MonotonicNanos (run sample_readings sample_generator).1).
Proof.
  destruct (generated_metadata_ordered sample_node 41 5 sample_bytes sample_generator sample_readings
    (run sample_readings sample_generator).1 (run sample_readings sample_generator).2)
    as (_ & Hseq & Hsort).
  - unfold max_u64; lia.
  - unfold bytes, sample_bytes. simpl. repeat constructor; lia.
  - vm_compute. reflexivity.
  - repeat constructor; unfold max_i64; simpl; lia.
  - vm_compute. reflexivity.
  - split; [|exact Hsort]. rewrite Hseq. vm_compute. reflexivity.
Defined.
