(* ===== verification/PolicyModel.v ===== *)
(** * Policy data model

    [internal/policy/model.go]: the enumerations, which are Go strings with a
    [Valid] method and so can hold any text, and the documents of the policy
    system as records. A pointer is an [option], a slice a [list]; integers keep
    the range of their Go type. *)

From Stdlib Require Import ZArith Lia Ascii String.
From stdpp Require Import base strings list option.
From S2P Require Import Prelude GoTime Metadata.

Open Scope string_scope.
Open Scope Z_scope.

(** ** Schemas and limits *)

Definition ManifestSchema := "hexroute.policy-manifest.v1".
Definition DomainPayloadSchema := "hexroute.policy-domain.v1".
Definition ActionLeaseSchema := "hexroute.action-lease.v1".
Definition ActionLeaseExecutionSchema := "hexroute.action-lease-execution.v1".
Definition ActionLeaseOutcomeSchema := "hexroute.action-lease-outcome.v1".
Definition PolicyStatusSchema := "hexroute.policy-status.v1".
Definition AuthorizationSuspensionSchema := "hexroute.authorization-suspension.v1".
Definition ExistingStateStatusSchema := "hexroute.existing-state-status.v1".
Definition MaxRules := 256.
Definition MaxAuthorizationLeases := 128.
Definition MaxSelectorsPerLease := 64.
Definition MaxPortRanges := 32.
Definition MaxIdentifierBytes := 64.
Definition MaxTargetBytes := 64.
Definition MaxCompilerVersion := 32.
Definition MaxActionLeaseTTL := 5 * 60 * second_ns.

(** The number of elements of a slice, as Go's [int]. *)
Abbreviation len l := (Z.of_nat (length l)).

(** ** Enumerations *)

Abbreviation Domain := string (only parsing).
Definition DomainRoot : Domain := "root".
Definition DomainUser : Domain := "user".
Definition Domain_Valid (value : Domain) : bool :=
  contains_string [DomainRoot; DomainUser] value.

Abbreviation Capability := string (only parsing).
Definition CapabilityOperatorResume : Capability := "operator_resume".
Definition CapabilityPritunlRecovery : Capability := "pritunl_recovery".
Definition CapabilityTunnelOwnership : Capability := "tunnel_ownership".
Definition Capability_Valid (value : Capability) : bool :=
  contains_string [CapabilityOperatorResume; CapabilityPritunlRecovery; CapabilityTunnelOwnership] value.

Abbreviation Effect := string (only parsing).
Definition EffectAllow : Effect := "allow".
Definition EffectDeny : Effect := "deny".
Definition Effect_Valid (value : Effect) : bool :=
  contains_string [EffectAllow; EffectDeny] value.

Abbreviation SelectorKind := string (only parsing).
Definition SelectorEndpoint : SelectorKind := "endpoint".
Definition SelectorRoute : SelectorKind := "route".
Definition SelectorAction : SelectorKind := "action".
Definition SelectorCredential : SelectorKind := "credential".
Definition SelectorKind_Valid (value : SelectorKind) : bool :=
  contains_string [SelectorEndpoint; SelectorRoute; SelectorAction; SelectorCredential] value.

Abbreviation Protocol := string (only parsing).
Definition ProtocolTCP : Protocol := "tcp".
Definition ProtocolUDP : Protocol := "udp".
Definition Protocol_Valid (value : Protocol) : bool :=
  contains_string [ProtocolTCP; ProtocolUDP] value.

Abbreviation TLSMode := string (only parsing).
Definition TLSDisabled : TLSMode := "disabled".
Definition TLSRequired : TLSMode := "required".
Definition TLSPassthrough : TLSMode := "passthrough".
Definition TLSMode_Valid (value : TLSMode) : bool :=
  contains_string [TLSDisabled; TLSRequired; TLSPassthrough] value.

Abbreviation NetworkPath := string (only parsing).
Definition PathPhysical : NetworkPath := "physical".
Definition PathManagedTUN : NetworkPath := "managed_tun".
Definition PathUpstreamVPN : NetworkPath := "upstream_vpn".
Definition PathTwilight : NetworkPath := "twilight".
Definition NetworkPath_Valid (value : NetworkPath) : bool :=
  contains_string [PathPhysical; PathManagedTUN; PathUpstreamVPN; PathTwilight] value.

Abbreviation LeaseStatus := string (only parsing).
Definition LeasePending : LeaseStatus := "pending".
Definition LeaseCommitted : LeaseStatus := "committed".
Definition LeaseAborted : LeaseStatus := "aborted".
Definition LeaseExpired : LeaseStatus := "expired".
Definition LeaseStatus_Valid (value : LeaseStatus) : bool :=
  contains_string [LeasePending; LeaseCommitted; LeaseAborted; LeaseExpired] value.

Abbreviation LeaseOutcomeReason := string (only parsing).
Definition LeaseOutcomeCompleted : LeaseOutcomeReason := "completed".
Definition LeaseOutcomeCanceled : LeaseOutcomeReason := "canceled".
Definition LeaseOutcomeTTLExpired : LeaseOutcomeReason := "ttl_expired".
Definition LeaseOutcomeBootMismatch : LeaseOutcomeReason := "boot_mismatch".
Definition LeaseOutcomeStaleGeneration : LeaseOutcomeReason := "stale_generation".
Definition LeaseOutcomeBindingMismatch : LeaseOutcomeReason := "binding_mismatch".
Definition LeaseOutcomeClockAnomaly : LeaseOutcomeReason := "clock_anomaly".
Definition LeaseOutcomeReason_Valid (value : LeaseOutcomeReason) : bool :=
  contains_string [LeaseOutcomeCompleted; LeaseOutcomeCanceled; LeaseOutcomeTTLExpired; LeaseOutcomeBootMismatch; LeaseOutcomeStaleGeneration; LeaseOutcomeBindingMismatch; LeaseOutcomeClockAnomaly] value.

Abbreviation PolicyState := string (only parsing).
Definition PolicyNone : PolicyState := "none".
Definition PolicyPrepared : PolicyState := "prepared".
Definition PolicyActive : PolicyState := "active".
Definition PolicyRejected : PolicyState := "rejected".
Definition PolicyRestartRequired : PolicyState := "restart_required".
Definition PolicyDomainMismatch : PolicyState := "domain_mismatch".
Definition PolicyAuthorizationSuspended : PolicyState := "authorization_suspended".
Definition PolicyState_Valid (value : PolicyState) : bool :=
  contains_string [PolicyNone; PolicyPrepared; PolicyActive; PolicyRejected; PolicyRestartRequired; PolicyDomainMismatch; PolicyAuthorizationSuspended] value.

Abbreviation ExistingStateState := string (only parsing).
Definition ExistingStateGrandfatheredNoncompliant : ExistingStateState := "grandfathered_noncompliant".
Definition ExistingStateState_Valid (value : ExistingStateState) : bool :=
  contains_string [ExistingStateGrandfatheredNoncompliant] value.

Abbreviation PolicyReason := string (only parsing).
Definition ReasonNone : PolicyReason := "none".
Definition ReasonCorruption : PolicyReason := "corruption".
Definition ReasonInvalidSignature : PolicyReason := "invalid_signature".
Definition ReasonDigestMismatch : PolicyReason := "digest_mismatch".
Definition ReasonUnsupportedSchema : PolicyReason := "unsupported_schema".
Definition ReasonStaticMismatch : PolicyReason := "static_mismatch".
Definition ReasonSelectorConflict : PolicyReason := "selector_conflict".
Definition ReasonClockAnomaly : PolicyReason := "clock_anomaly".
Definition ReasonDomainMismatch : PolicyReason := "domain_mismatch".
Definition ReasonIPCOwnership : PolicyReason := "ipc_ownership".
Definition ReasonNoValidGeneration : PolicyReason := "no_valid_generation".
Definition ReasonExpired : PolicyReason := "expired".
Definition ReasonOperatorAborted : PolicyReason := "operator_aborted".
Definition PolicyReason_Valid (value : PolicyReason) : bool :=
  contains_string [ReasonNone; ReasonCorruption; ReasonInvalidSignature; ReasonDigestMismatch; ReasonUnsupportedSchema; ReasonStaticMismatch; ReasonSelectorConflict; ReasonClockAnomaly; ReasonDomainMismatch; ReasonIPCOwnership; ReasonNoValidGeneration; ReasonExpired; ReasonOperatorAborted] value.

(** ** Documents *)

Module DomainReference.
Record t := mk {
  Generation : Z;
  PayloadSHA256 : string
}.
#[global] Instance eq_dec : EqDecision t.
Proof. solve_decision. Defined.
End DomainReference.

Module Manifest.
Record t := mk {
  Schema : string;
  PolicySchema : Z;
  CompilerVersion : string;
  CompilerSHA256 : string;
  BundleGeneration : Z;
  ParentBundleGeneration : Z;
  Root : DomainReference.t;
  User : DomainReference.t;
  StaticSHA256 : string;
  SignerFingerprint : string;
  IssuedAt : string;
  NotBefore : string;
  ExpiresAt : string
}.
#[global] Instance eq_dec : EqDecision t.
Proof. solve_decision. Defined.
End Manifest.

Module PortRange.
Record t := mk {
  First : Z;
  Last : Z
}.
#[global] Instance eq_dec : EqDecision t.
Proof. solve_decision. Defined.
End PortRange.

Module EndpointSelector.
Record t := mk {
  Host : string;
  Ports : list PortRange.t;
  Protocol : Protocol;
  TLS : TLSMode;
  Path : NetworkPath
}.
#[global] Instance eq_dec : EqDecision t.
Proof. solve_decision. Defined.
End EndpointSelector.

Module RouteSelector.
Record t := mk {
  Prefix : string;
  Path : NetworkPath
}.
#[global] Instance eq_dec : EqDecision t.
Proof. solve_decision. Defined.
End RouteSelector.

Module ActionSelector.
Record t := mk {
  Capability : Capability;
  Target : string
}.
#[global] Instance eq_dec : EqDecision t.
Proof. solve_decision. Defined.
End ActionSelector.

Module CredentialSelector.
Record t := mk {
  Reference : string;
  Owner : Domain
}.
#[global] Instance eq_dec : EqDecision t.
Proof. solve_decision. Defined.
End CredentialSelector.

Module Selector.
Record t := mk {
  ID : string;
  Kind : SelectorKind;
  Endpoint : option EndpointSelector.t;
  Route : option RouteSelector.t;
  Action : option ActionSelector.t;
  Credential : option CredentialSelector.t
}.
#[global] Instance eq_dec : EqDecision t.
Proof. solve_decision. Defined.
End Selector.

Module Rule.
Record t := mk {
  ID : string;
  Effect : Effect;
  Selector : Selector.t
}.
#[global] Instance eq_dec : EqDecision t.
Proof. solve_decision. Defined.
End Rule.

Module AuthorizationLease.
Record t := mk {
  ID : string;
  Domain : Domain;
  Capability : Capability;
  SelectorIDs : list string;
  IssuedAt : string;
  ExpiresAt : string
}.
#[global] Instance eq_dec : EqDecision t.
Proof. solve_decision. Defined.
End AuthorizationLease.

Module DomainPayload.
Record t := mk {
  Schema : string;
  Domain : Domain;
  PolicyGeneration : Z;
  Rules : list Rule.t;
  Leases : list AuthorizationLease.t
}.
#[global] Instance eq_dec : EqDecision t.
Proof. solve_decision. Defined.
End DomainPayload.

Module ActionLease.
Record t := mk {
  Schema : string;
  ActionID : UUID;
  Domain : Domain;
  Capability : Capability;
  BundleGeneration : Z;
  DomainPolicyGeneration : Z;
  ControlStateGeneration : Z;
  Target : string;
  PlanSHA256 : string;
  IssuedAt : string;
  ExpiresAt : string;
  IssuedMonotonicNS : Z;
  ExpiresMonotonicNS : Z;
  BootID : UUID;
  Nonce : UUID;
  Status : LeaseStatus
}.
#[global] Instance eq_dec : EqDecision t.
Proof. solve_decision. Defined.
End ActionLease.

Module ActionLeaseOutcome.
Record t := mk {
  Schema : string;
  ActionID : UUID;
  Domain : Domain;
  Nonce : UUID;
  Status : LeaseStatus;
  Reason : LeaseOutcomeReason;
  ResolvedAt : string
}.
#[global] Instance eq_dec : EqDecision t.
Proof. solve_decision. Defined.
End ActionLeaseOutcome.

Module ActionLeaseExecutionClaim.
Record t := mk {
  Schema : string;
  ActionID : UUID;
  Domain : Domain;
  Nonce : UUID;
  AttemptID : UUID;
  BootID : UUID;
  ClaimedAt : string
}.
#[global] Instance eq_dec : EqDecision t.
Proof. solve_decision. Defined.
End ActionLeaseExecutionClaim.

Module Status.
Record t := mk {
  Schema : string;
  Domain : Domain;
  State : PolicyState;
  BundleGeneration : Z;
  PolicyGeneration : Z;
  ManifestSHA256 : string;
  ActivatedAt : string;
  ExpiresAt : string;
  Reason : PolicyReason
}.
#[global] Instance eq_dec : EqDecision t.
Proof. solve_decision. Defined.
End Status.

Module AuthorizationSuspension.
Record t := mk {
  Schema : string;
  Suspended : bool;
  Reason : PolicyReason;
  Since : string
}.
#[global] Instance eq_dec : EqDecision t.
Proof. solve_decision. Defined.
End AuthorizationSuspension.

Module ExistingStateStatus.
Record t := mk {
  Schema : string;
  Domain : Domain;
  State : ExistingStateState;
  BundleGeneration : Z;
  PolicyGeneration : Z;
  ReportedAt : string;
  ReconcileBy : string;
  IncidentAt : string
}.
#[global] Instance eq_dec : EqDecision t.
Proof. solve_decision. Defined.
End ExistingStateStatus.
