(* ===== verification/PolicyValidate.v ===== *)
(** * Policy document validation

    [internal/policy/validate.go]: the [Validate] and [valid] methods of the
    policy documents and the text predicates they use. A method that returns
    [error] is a [result]; its guards keep the order of the source.

    [strings.ToLower(v) != v] is the presence of an ASCII upper-case letter: the
    texts reaching it are ASCII or are refused by the next check, except the zone
    of an IPv6 host, which is taken to be ASCII here. *)

From Stdlib Require Import ZArith Lia Ascii String.
From stdpp Require Import base strings list option.
From S2P Require Import Prelude GoTime GoNetip Metadata PolicyModel.

Open Scope string_scope.
Open Scope Z_scope.

(** The sentinel errors of package [policy]. *)
Inductive error :=
| ErrInvalidManifest
| ErrInvalidDomainPayload
| ErrInvalidSelector
| ErrInvalidAuthorizationLease
| ErrInvalidActionLease
| ErrInvalidStatus
| ErrInvalidCompatibility
| ErrUnsupportedPolicy
| ErrUntrustedCompiler
| ErrRestartRequired
| ErrPolicyDowngrade
| ErrPolicyDomainMismatch
| ErrActivePolicyMismatch
| ErrInvalidCanonicalJSON
| ErrInvalidOperatorSource
| ErrInvalidSafetyEnvelope
| ErrOutsideSafetyEnvelope
| ErrInvalidEffectiveSnapshot
| ConflictError (codes : list string) (truncated : bool)
| ErrSemanticNoOp
| ErrInvalidGenerationSemantic
| ErrInvalidCompilerIdentity
| ErrInvalidCandidateBundle
| ErrInvalidRollback
| ErrRollbackCredentialChange
| ErrInvalidSemanticDiff.

#[global] Instance error_eq_dec : EqDecision error.
Proof. solve_decision. Defined.

Definition maxPolicyValidity := 30 * 24 * 3600 * second_ns.

(** [x.Validate() != nil]. *)
Definition failed {E A} (r : result E A) : bool := negb (is_ok r).

(** The two results of [parseCanonicalUTC]: the zero time when it fails. *)
Definition time_of (o : option Z) : Z := match o with Some t => t | None => 0 end.
Definition parsed (o : option Z) : bool := match o with Some _ => true | None => false end.

(** ** Texts *)

Definition validSHA256 (value : string) : bool :=
  if negb (slen value =? 64) || has_upper value then false
  else match hex_decode (chars value) with
       | Some decoded => len decoded =? 32
       | None => false
       end.

Definition contains_char (set : string) (c : ascii) : bool := existsb (Ascii.eqb c) (chars set).

Definition validVersion (value : string) : bool :=
  if String.eqb value "" || (MaxCompilerVersion <? slen value) then false
  else forallb (fun c => is_lower c || is_upper c || is_digit c || contains_char "._+-" c) (chars value).

Definition validIdentifier (value : string) : bool :=
  match chars value with
  | [] => false
  | first :: _ =>
      if (MaxIdentifierBytes <? slen value) || negb (is_lower first) then false
      else forallb (fun c => is_lower c || is_digit c || contains_char "._-" c) (chars value)
  end.

Definition validTarget (value : string) : bool :=
  (slen value <=? MaxTargetBytes) && validIdentifier value.

Definition valid_label (label : list ascii) : bool :=
  match label with
  | [] => false
  | first :: _ =>
      negb ((63 <? len label) || Ascii.eqb first dash || bool_decide (head (reverse label) = Some dash)) &&
      forallb (fun c => is_lower c || is_digit c || Ascii.eqb c dash) label
  end.

Definition validHost (value : string) : bool :=
  if String.eqb value "" || (253 <? slen value) || has_upper value then false
  else match ParseAddr value with
       | Some address => String.eqb (Addr_String address) value
       | None =>
           let '(value', wildcard) := cut_prefix "*." value in
           if wildcard && String.eqb value' "" then false
           else forallb valid_label (split_on "."%char (chars value'))
       end.

(** ** Manifest and domain payload *)

Definition DomainReference_valid (reference : DomainReference.t) : bool :=
  (0 <? DomainReference.Generation reference) && validSHA256 (DomainReference.PayloadSHA256 reference).

Definition Manifest_Validate (m : Manifest.t) : result error unit :=
  let issuedAt := parseCanonicalUTC (Manifest.IssuedAt m) in
  let notBefore := parseCanonicalUTC (Manifest.NotBefore m) in
  let expiresAt := parseCanonicalUTC (Manifest.ExpiresAt m) in
  if negb (String.eqb (Manifest.Schema m) ManifestSchema) ||
     (Manifest.PolicySchema m =? 0) ||
     negb (validVersion (Manifest.CompilerVersion m)) ||
     negb (validSHA256 (Manifest.CompilerSHA256 m)) ||
     (Manifest.BundleGeneration m =? 0) ||
     (Manifest.BundleGeneration m <=? Manifest.ParentBundleGeneration m) ||
     negb (DomainReference_valid (Manifest.Root m)) ||
     negb (DomainReference_valid (Manifest.User m)) ||
     negb (validSHA256 (Manifest.StaticSHA256 m)) ||
     negb (validSHA256 (Manifest.SignerFingerprint m)) ||
     negb (parsed issuedAt) || negb (parsed notBefore) || negb (parsed expiresAt) ||
     Before (time_of notBefore) (time_of issuedAt) ||
     negb (After (time_of expiresAt) (time_of notBefore)) ||
     (maxPolicyValidity <? Sub (time_of expiresAt) (time_of notBefore))
  then Err ErrInvalidManifest else Ok tt.

Definition PortRange_valid (r : PortRange.t) : bool :=
  negb ((PortRange.First r =? 0) || (PortRange.Last r <? PortRange.First r)).

Definition EndpointSelector_valid (s : EndpointSelector.t) : bool :=
  if negb (validHost (EndpointSelector.Host s)) ||
     (len (EndpointSelector.Ports s) =? 0) ||
     (MaxPortRanges <? len (EndpointSelector.Ports s)) ||
     negb (Protocol_Valid (EndpointSelector.Protocol s)) ||
     negb (TLSMode_Valid (EndpointSelector.TLS s)) ||
     negb (NetworkPath_Valid (EndpointSelector.Path s))
  then false
  else forallb PortRange_valid (EndpointSelector.Ports s).

Definition RouteSelector_valid (s : RouteSelector.t) : bool :=
  match ParsePrefix (RouteSelector.Prefix s) with
  | Some prefix => String.eqb (Prefix_String (Masked prefix)) (RouteSelector.Prefix s) &&
                   NetworkPath_Valid (RouteSelector.Path s)
  | None => false
  end.

Definition ActionSelector_valid (s : ActionSelector.t) : bool :=
  Capability_Valid (ActionSelector.Capability s) && validTarget (ActionSelector.Target s).

Definition CredentialSelector_valid (s : CredentialSelector.t) : bool :=
  validIdentifier (CredentialSelector.Reference s) && Domain_Valid (CredentialSelector.Owner s).

Definition present {A} (o : option A) : Z := match o with Some _ => 1 | None => 0 end.

Definition holds_valid {A} (valid : A -> bool) (o : option A) : bool :=
  match o with Some a => valid a | None => false end.

Definition Selector_Validate (s : Selector.t) : result error unit :=
  if negb (validIdentifier (Selector.ID s)) || negb (SelectorKind_Valid (Selector.Kind s))
  then Err ErrInvalidSelector
  else if negb (present (Selector.Endpoint s) + present (Selector.Route s) +
                present (Selector.Action s) + present (Selector.Credential s) =? 1)
  then Err ErrInvalidSelector
  else
    let kind := Selector.Kind s in
    let valid :=
      if String.eqb kind SelectorEndpoint then holds_valid EndpointSelector_valid (Selector.Endpoint s)
      else if String.eqb kind SelectorRoute then holds_valid RouteSelector_valid (Selector.Route s)
      else if String.eqb kind SelectorAction then holds_valid ActionSelector_valid (Selector.Action s)
      else if String.eqb kind SelectorCredential
      then holds_valid CredentialSelector_valid (Selector.Credential s)
      else false in
    if valid then Ok tt else Err ErrInvalidSelector.

Definition AuthorizationLease_Validate (l : AuthorizationLease.t) : result error unit :=
  let issuedAt := parseCanonicalUTC (AuthorizationLease.IssuedAt l) in
  let expiresAt := parseCanonicalUTC (AuthorizationLease.ExpiresAt l) in
  if negb (validIdentifier (AuthorizationLease.ID l)) ||
     negb (Domain_Valid (AuthorizationLease.Domain l)) ||
     negb (Capability_Valid (AuthorizationLease.Capability l)) ||
     (len (AuthorizationLease.SelectorIDs l) =? 0) ||
     (MaxSelectorsPerLease <? len (AuthorizationLease.SelectorIDs l)) ||
     negb (parsed issuedAt) || negb (parsed expiresAt) ||
     negb (After (time_of expiresAt) (time_of issuedAt)) ||
     (maxPolicyValidity <? Sub (time_of expiresAt) (time_of issuedAt))
  then Err ErrInvalidAuthorizationLease
  else if negb (forallb validIdentifier (AuthorizationLease.SelectorIDs l)) ||
          negb (distinct_strings (AuthorizationLease.SelectorIDs l))
  then Err ErrInvalidAuthorizationLease
  else Ok tt.

(** The rule loop: each rule is valid, and rule and selector identifiers do not
    repeat. *)
Definition rules_valid (rules : list Rule.t) : bool :=
  forallb (fun r => validIdentifier (Rule.ID r) && Effect_Valid (Rule.Effect r) &&
                    negb (failed (Selector_Validate (Rule.Selector r)))) rules &&
  distinct_strings (map Rule.ID rules) &&
  distinct_strings (map (fun r => Selector.ID (Rule.Selector r)) rules).

(** The lease loop: leases are valid, of the payload's domain, do not repeat and
    name selectors of the payload. *)
Definition leases_valid (domain : Domain) (selectorIDs : list string)
    (leases : list AuthorizationLease.t) : bool :=
  forallb (fun l => negb (failed (AuthorizationLease_Validate l)) &&
                    String.eqb (AuthorizationLease.Domain l) domain &&
                    forallb (contains_string selectorIDs) (AuthorizationLease.SelectorIDs l)) leases &&
  distinct_strings (map AuthorizationLease.ID leases).

Definition DomainPayload_Validate (p : DomainPayload.t) : result error unit :=
  if negb (String.eqb (DomainPayload.Schema p) DomainPayloadSchema) ||
     negb (Domain_Valid (DomainPayload.Domain p)) ||
     (DomainPayload.PolicyGeneration p =? 0) ||
     (MaxRules <? len (DomainPayload.Rules p)) ||
     (MaxAuthorizationLeases <? len (DomainPayload.Leases p))
  then Err ErrInvalidDomainPayload
  else if negb (rules_valid (DomainPayload.Rules p)) then Err ErrInvalidDomainPayload
  else if negb (leases_valid (DomainPayload.Domain p)
                  (map (fun r => Selector.ID (Rule.Selector r)) (DomainPayload.Rules p))
                  (DomainPayload.Leases p)) then Err ErrInvalidDomainPayload
  else Ok tt.

(** ** Action leases *)

Definition ActionLease_Validate (l : ActionLease.t) : result error unit :=
  let issuedAt := parseCanonicalUTC (ActionLease.IssuedAt l) in
  let expiresAt := parseCanonicalUTC (ActionLease.ExpiresAt l) in
  let wallTTL := Sub (time_of expiresAt) (time_of issuedAt) in
  let issuedNS := ActionLease.IssuedMonotonicNS l in
  let expiresNS := ActionLease.ExpiresMonotonicNS l in
  let monotonicTTL := if (0 <=? issuedNS) && (issuedNS <? expiresNS) then expiresNS - issuedNS else 0 in
  if negb (String.eqb (ActionLease.Schema l) ActionLeaseSchema) ||
     negb (validUUID (ActionLease.ActionID l)) ||
     negb (Domain_Valid (ActionLease.Domain l)) ||
     negb (Capability_Valid (ActionLease.Capability l)) ||
     (ActionLease.BundleGeneration l =? 0) ||
     (ActionLease.DomainPolicyGeneration l =? 0) ||
     (ActionLease.ControlStateGeneration l =? 0) ||
     negb (validTarget (ActionLease.Target l)) ||
     negb (validSHA256 (ActionLease.PlanSHA256 l)) ||
     negb (parsed issuedAt) || negb (parsed expiresAt) ||
     negb (After (time_of expiresAt) (time_of issuedAt)) ||
     (MaxActionLeaseTTL <? wallTTL) ||
     (issuedNS <? 0) || (expiresNS <=? issuedNS) ||
     (MaxActionLeaseTTL <? monotonicTTL) ||
     negb (wallTTL =? monotonicTTL) ||
     negb (validUUID (ActionLease.BootID l)) ||
     negb (validUUID (ActionLease.Nonce l)) ||
     String.eqb (ActionLease.Nonce l) (ActionLease.ActionID l) ||
     negb (LeaseStatus_Valid (ActionLease.Status l))
  then Err ErrInvalidActionLease else Ok tt.

Definition ActionLeaseOutcome_Validate (o : ActionLeaseOutcome.t) : result error unit :=
  let status := ActionLeaseOutcome.Status o in
  let reason := ActionLeaseOutcome.Reason o in
  if negb (String.eqb (ActionLeaseOutcome.Schema o) ActionLeaseOutcomeSchema) ||
     negb (validUUID (ActionLeaseOutcome.ActionID o)) ||
     negb (Domain_Valid (ActionLeaseOutcome.Domain o)) ||
     negb (validUUID (ActionLeaseOutcome.Nonce o)) ||
     String.eqb (ActionLeaseOutcome.ActionID o) (ActionLeaseOutcome.Nonce o) ||
     negb (LeaseStatus_Valid status) || negb (LeaseOutcomeReason_Valid reason) ||
     negb (validOptionalUTC (ActionLeaseOutcome.ResolvedAt o)) ||
     String.eqb (ActionLeaseOutcome.ResolvedAt o) ""
  then Err ErrInvalidActionLease
  else if String.eqb status LeaseCommitted then
    if negb (String.eqb reason LeaseOutcomeCompleted) then Err ErrInvalidActionLease else Ok tt
  else if String.eqb status LeaseAborted then
    if contains_string [LeaseOutcomeCanceled; LeaseOutcomeStaleGeneration;
                        LeaseOutcomeBindingMismatch; LeaseOutcomeClockAnomaly] reason
    then Ok tt else Err ErrInvalidActionLease
  else if String.eqb status LeaseExpired then
    if negb (String.eqb reason LeaseOutcomeTTLExpired) &&
       negb (String.eqb reason LeaseOutcomeBootMismatch)
    then Err ErrInvalidActionLease else Ok tt
  else Err ErrInvalidActionLease.

Definition ActionLeaseExecutionClaim_Validate (c : ActionLeaseExecutionClaim.t) : result error unit :=
  if negb (String.eqb (ActionLeaseExecutionClaim.Schema c) ActionLeaseExecutionSchema) ||
     negb (validUUID (ActionLeaseExecutionClaim.ActionID c)) ||
     negb (Domain_Valid (ActionLeaseExecutionClaim.Domain c)) ||
     negb (validUUID (ActionLeaseExecutionClaim.Nonce c)) ||
     negb (validUUID (ActionLeaseExecutionClaim.AttemptID c)) ||
     negb (validUUID (ActionLeaseExecutionClaim.BootID c)) ||
     String.eqb (ActionLeaseExecutionClaim.ActionID c) (ActionLeaseExecutionClaim.Nonce c) ||
     String.eqb (ActionLeaseExecutionClaim.AttemptID c) (ActionLeaseExecutionClaim.ActionID c) ||
     String.eqb (ActionLeaseExecutionClaim.AttemptID c) (ActionLeaseExecutionClaim.Nonce c) ||
     String.eqb (ActionLeaseExecutionClaim.ClaimedAt c) "" ||
     negb (validOptionalUTC (ActionLeaseExecutionClaim.ClaimedAt c))
  then Err ErrInvalidActionLease else Ok tt.

(** ** Status documents *)

Definition statusWithoutExpiry (s : Status.t) : result error unit :=
  if negb (String.eqb (Status.ExpiresAt s) "") then Err ErrInvalidStatus else Ok tt.

(** The switch on the state of a governing generation. *)
Definition status_state_valid (s : Status.t) : bool :=
  let state := Status.State s in
  let reason := Status.Reason s in
  let activatedAt := Status.ActivatedAt s in
  if String.eqb state PolicyPrepared then
    String.eqb activatedAt "" && String.eqb reason ReasonNone
  else if String.eqb state PolicyActive then
    parsed (parseCanonicalUTC activatedAt) && String.eqb reason ReasonNone
  else if String.eqb state PolicyRejected then
    String.eqb activatedAt "" && negb (String.eqb reason ReasonNone)
  else if String.eqb state PolicyRestartRequired then
    String.eqb activatedAt "" && String.eqb reason ReasonStaticMismatch
  else if String.eqb state PolicyDomainMismatch then
    String.eqb reason ReasonDomainMismatch && validOptionalUTC activatedAt
  else if String.eqb state PolicyAuthorizationSuspended then
    negb (String.eqb reason ReasonNone) && validOptionalUTC activatedAt
  else true.

Definition Status_Validate (s : Status.t) : result error unit :=
  if negb (String.eqb (Status.Schema s) PolicyStatusSchema) ||
     negb (Domain_Valid (Status.Domain s)) ||
     negb (PolicyState_Valid (Status.State s)) || negb (PolicyReason_Valid (Status.Reason s))
  then Err ErrInvalidStatus
  else if String.eqb (Status.State s) PolicyNone then
    if negb (Status.BundleGeneration s =? 0) || negb (Status.PolicyGeneration s =? 0) ||
       negb (String.eqb (Status.ManifestSHA256 s) "") || negb (String.eqb (Status.ActivatedAt s) "")
    then Err ErrInvalidStatus
    else if String.eqb (Status.Reason s) ReasonNoValidGeneration then statusWithoutExpiry s
    else if String.eqb (Status.Reason s) ReasonExpired then
      if parsed (parseCanonicalUTC (Status.ExpiresAt s)) then Ok tt else Err ErrInvalidStatus
    else Err ErrInvalidStatus
  else if (Status.BundleGeneration s =? 0) || (Status.PolicyGeneration s =? 0) ||
          negb (validSHA256 (Status.ManifestSHA256 s))
  then Err ErrInvalidStatus
  else if status_state_valid s then Ok tt else Err ErrInvalidStatus.

Definition AuthorizationSuspension_Validate (s : AuthorizationSuspension.t) : result error unit :=
  let reason := AuthorizationSuspension.Reason s in
  if negb (String.eqb (AuthorizationSuspension.Schema s) AuthorizationSuspensionSchema)
  then Err ErrInvalidStatus
  else if negb (AuthorizationSuspension.Suspended s) then
    if negb (String.eqb reason ReasonNone) || negb (String.eqb (AuthorizationSuspension.Since s) "")
    then Err ErrInvalidStatus else Ok tt
  else if negb (parsed (parseCanonicalUTC (AuthorizationSuspension.Since s))) then Err ErrInvalidStatus
  else if contains_string [ReasonCorruption; ReasonInvalidSignature; ReasonDigestMismatch;
                           ReasonDomainMismatch; ReasonClockAnomaly; ReasonIPCOwnership] reason
  then Ok tt else Err ErrInvalidStatus.

Definition ExistingStateStatus_Validate (s : ExistingStateStatus.t) : result error unit :=
  let reportedAt := parseCanonicalUTC (ExistingStateStatus.ReportedAt s) in
  let reconcileBy := parseCanonicalUTC (ExistingStateStatus.ReconcileBy s) in
  if negb (String.eqb (ExistingStateStatus.Schema s) ExistingStateStatusSchema) ||
     negb (Domain_Valid (ExistingStateStatus.Domain s)) ||
     negb (ExistingStateState_Valid (ExistingStateStatus.State s)) ||
     (ExistingStateStatus.BundleGeneration s =? 0) ||
     (ExistingStateStatus.PolicyGeneration s =? 0) ||
     negb (parsed reportedAt) || negb (parsed reconcileBy) ||
     Before (time_of reconcileBy) (time_of reportedAt)
  then Err ErrInvalidStatus
  else if String.eqb (ExistingStateStatus.IncidentAt s) "" then Ok tt
  else
    let incidentAt := parseCanonicalUTC (ExistingStateStatus.IncidentAt s) in
    if negb (parsed incidentAt) || Before (time_of incidentAt) (time_of reconcileBy)
    then Err ErrInvalidStatus else Ok tt.

(** ** What validation establishes *)

Lemma not_failed {E A} (r : result E A) : failed r = false <-> exists a, r = Ok a.
Proof. unfold failed. destruct r; simpl; naive_solver. Qed.

Lemma failed_unit {E} (r : result E unit) : failed r = false <-> r = Ok tt.
Proof. destruct r as [[]|]; unfold failed; simpl; naive_solver. Qed.

Lemma parsed_Some o : parsed o = true <-> exists t, o = Some t.
Proof. destruct o; simpl; naive_solver. Qed.

(** The text of a valid digest has 64 bytes. *)
Lemma validSHA256_length v : validSHA256 v = true -> slen v = 64.
Proof. unfold validSHA256. destruct (_ || _) eqn:H; [done|]. intros _. by bool_prop. Qed.

(** A valid payload names each selector once, and its leases only name selectors
    of its rules. *)
Lemma DomainPayload_Validate_Ok p : DomainPayload_Validate p = Ok tt ->
  Domain_Valid (DomainPayload.Domain p) = true /\ DomainPayload.PolicyGeneration p <> 0 /\
  rules_valid (DomainPayload.Rules p) = true /\
  leases_valid (DomainPayload.Domain p)
    (map (fun r => Selector.ID (Rule.Selector r)) (DomainPayload.Rules p))
    (DomainPayload.Leases p) = true.
Proof. unfold DomainPayload_Validate. intros H. inv_result. bool_prop. done. Qed.

Lemma rules_valid_spec rules : rules_valid rules = true ->
  NoDup (map Rule.ID rules) /\ NoDup (map (fun r => Selector.ID (Rule.Selector r)) rules) /\
  forall r, r ∈ rules -> Effect_Valid (Rule.Effect r) = true /\ Selector_Validate (Rule.Selector r) = Ok tt.
Proof.
  unfold rules_valid. intros H. bool_prop. rewrite <- !distinct_strings_NoDup.
  split_and!; try done. intros r Hr%list_elem_of_In.
  rewrite forallb_forall in H. specialize (H r Hr). bool_prop. by rewrite <- failed_unit.
Qed.

(** The selector of a kind carries the value of that kind. *)
Lemma Selector_Validate_action s : Selector_Validate s = Ok tt ->
  Selector.Kind s = SelectorAction -> exists a, Selector.Action s = Some a /\ ActionSelector_valid a = true.
Proof.
  unfold Selector_Validate. intros H Hk. rewrite Hk in H. cbn in H.
  destruct (_ || _); [done|]. destruct (negb _); [done|].
  destruct (Selector.Action s) as [a|]; cbn in H; [|done].
  exists a. destruct (ActionSelector_valid a); done.
Qed.

Lemma ActionLease_window l : ActionLease_Validate l = Ok tt ->
  exists issued expires,
    parseCanonicalUTC (ActionLease.IssuedAt l) = Some issued /\
    parseCanonicalUTC (ActionLease.ExpiresAt l) = Some expires /\
    0 < expires - issued <= MaxActionLeaseTTL /\
    0 <= ActionLease.IssuedMonotonicNS l /\
    ActionLease.ExpiresMonotonicNS l - ActionLease.IssuedMonotonicNS l = expires - issued.
Proof.
  unfold ActionLease_Validate. intros H. inv_result. bool_prop.
  destruct (parseCanonicalUTC (ActionLease.IssuedAt l)) as [i|]; [|done].
  destruct (parseCanonicalUTC (ActionLease.ExpiresAt l)) as [e|]; [|done].
  assert ((0 <=? ActionLease.IssuedMonotonicNS l) &&
    (ActionLease.IssuedMonotonicNS l <? ActionLease.ExpiresMonotonicNS l) = true) as Hm.
  { apply andb_true_iff. lia. }
  rewrite Hm in *. exists i, e.
  unfold time_of, After, Sub, MaxActionLeaseTTL, max_i64, min_i64 in *.
  change second_ns with 1000000000 in *. bool_prop. split_and!; done || lia.
Qed.


Definition sample_lease : ActionLease.t :=
  ActionLease.mk ActionLeaseSchema "6d2f0a51-0b7e-4c1f-9a2d-0123456789ab" DomainUser
    CapabilityPritunlRecovery 7 3 12 "pritunl"
    "0123456789abcdef0123456789abcdef0123456789abcdef0123456789abcdef"
    "2026-03-04T05:06:07Z" "2026-03-04T05:06:37.5Z" 1000 30500001000
    "11111111-1111-4111-8111-111111111111" "22222222-2222-4222-a222-222222222222" LeasePending.

