(* ===== verification/PolicyCanonical.v ===== *)
(** * Canonical JSON and digests

    [internal/policy/canonical.go]. [encoding/json], the RFC 8785 canonicalizer
    and SHA-256 are parameters: a JSON text is a [Doc] with a length, and each
    document type has a marshaller and a strict decoder. [CodecLaws] states what
    the code relies on: the decoder reads back what the canonicalizer wrote.
    The canonicalizer prints numbers as IEEE doubles, so this is documented only
    for values whose integers are at most 2^53, which [exact] tells apart; no law
    says that digests are injective. *)

From Stdlib Require Import ZArith Lia Ascii String.
From stdpp Require Import base strings list option.
From S2P Require Import Prelude GoNetip PolicyModel PolicyValidate.

Open Scope string_scope.
Open Scope Z_scope.

Class JSON := {
  Doc : Type;
  Doc_eq_dec :: EqDecision Doc;
  doc_len : Doc -> Z;
  Transform : Doc -> option Doc;
  SHA256Hex : Doc -> string
}.

Class Codec `{JSON} (T : Type) := {
  json_Marshal : T -> option Doc;
  strictJSONDecode : Doc -> option T;
  exact : T -> bool
}.

(** An integer that a double holds. *)
Definition exact_int (z : Z) : bool := (- 2 ^ 53 <=? z) && (z <=? 2 ^ 53).

Definition MaxCanonicalJSONSize := 1024 * 1024.

Section canonical.
Context `{JSON}.

Definition Canonicalize (encoded : Doc) : result error Doc :=
  if (doc_len encoded =? 0) || (MaxCanonicalJSONSize <? doc_len encoded)
  then Err ErrInvalidCanonicalJSON
  else match Transform encoded with
       | Some canonical =>
           if (doc_len canonical =? 0) || (MaxCanonicalJSONSize <? doc_len canonical)
           then Err ErrInvalidCanonicalJSON else Ok canonical
       | None => Err ErrInvalidCanonicalJSON
       end.

Definition MarshalCanonical `{!Codec T} (value : T) : result error Doc :=
  match json_Marshal value with
  | None => Err ErrInvalidCanonicalJSON
  | Some encoded => Canonicalize encoded
  end.

Definition CanonicalSHA256 `{!Codec T} (value : T) : result error (string * Doc) :=
  canonical ← MarshalCanonical value; Ok (SHA256Hex canonical, canonical).

(** The documented round trip of the decoder with the canonical writer. *)
Class CodecLaws (T : Type) `{!Codec T} :=
  decode_canonical : forall (v : T) d,
    exact v = true -> MarshalCanonical v = Ok d -> strictJSONDecode d = Some v.

Lemma MarshalCanonical_len `{!Codec T} (v : T) d : MarshalCanonical v = Ok d ->
  0 <> doc_len d /\ doc_len d <= MaxCanonicalJSONSize.
Proof.
  unfold MarshalCanonical, Canonicalize. intros Hd. inv_result. bool_prop. lia.
Qed.

Lemma CanonicalSHA256_Ok `{!Codec T} (v : T) digest d :
  CanonicalSHA256 v = Ok (digest, d) <-> MarshalCanonical v = Ok d /\ digest = SHA256Hex d.
Proof.
  unfold CanonicalSHA256. destruct (MarshalCanonical v) as [d'|e]; simpl; [|naive_solver].
  split; [intros [= <- <-]; done|]. by intros [[= ->] ->].
Qed.

(** Two exact documents with one canonical text are the same document. *)
Lemma MarshalCanonical_inj T `{!Codec T, !CodecLaws T} (v w : T) d :
  exact v = true -> exact w = true -> MarshalCanonical v = Ok d -> MarshalCanonical w = Ok d -> v = w.
Proof.
  intros Ev Ew Hv Hw. pose proof (decode_canonical v d Ev Hv) as H1.
  pose proof (decode_canonical w d Ew Hw) as H2. congruence.
Qed.
End canonical.

(** ** A concrete digest for the examples

    64 hexadecimal digits of a 48-bit checksum of a list of texts. *)
Module SampleDigest.
Definition low : Z := 2 ^ 48 - 1.
Definition absorb (acc : Z) (c : Z) : Z := Z.land (33 * acc + c) low.

Definition absorb_text (acc : Z) (s : string) : Z :=
  absorb (fold_left (fun a c => absorb a (code c)) (chars s) acc) 256.

Definition hash (texts : list string) : string :=
  let digits := map hex_digit (unpack 16 16 (fold_left absorb_text texts 7)) in
  of_chars (digits ++ digits ++ digits ++ digits)%list.

Definition number (z : Z) : string := of_chars (map hex_digit (unpack 16 16 z)).

(** Documents as lists of texts; they are only written. *)
Definition json : JSON := {|
  Doc := list string; doc_len := fun _ => 100; Transform := Some; SHA256Hex := hash |}.

Definition texts_codec {T} (texts : T -> list string) : @Codec json T :=
  @Build_Codec json T (fun v => Some (texts v)) (fun _ => None) (fun _ => true).
End SampleDigest.
