(* ===== verification/PolicyCompat.v ===== *)
(** * Compatibility of a policy with an installation

    [internal/policy/compatibility.go]: the checks that compare a manifest and
    one domain's payload with what the daemon has installed. *)

From Stdlib Require Import ZArith Lia Ascii String.
From stdpp Require Import base strings list option.
From S2P Require Import Prelude GoTime PolicyModel PolicyValidate PolicyCanonical.

Open Scope string_scope.
Open Scope Z_scope.

Definition MaxTrustedCompilers := 16.

Module InstalledCompatibility.
Record t := mk {
  Domain : Domain;
  MinimumPolicySchema : Z;
  MaximumPolicySchema : Z;
  CurrentPolicySchema : Z;
  CurrentBundleGeneration : Z;
  CurrentPolicyGeneration : Z;
  CurrentPayloadSHA256 : string;
  StaticSHA256 : string;
  TrustedCompilerSHA256 : list string
}.
#[global] Instance eq_dec : EqDecision t.
Proof. solve_decision. Defined.

Definition Validate (i : t) : result error unit :=
  if negb (Domain_Valid (Domain i)) ||
     (MinimumPolicySchema i =? 0) ||
     (MaximumPolicySchema i <? MinimumPolicySchema i) ||
     (CurrentPolicySchema i <? MinimumPolicySchema i) ||
     (MaximumPolicySchema i <? CurrentPolicySchema i) ||
     negb (validSHA256 (StaticSHA256 i)) ||
     (len (TrustedCompilerSHA256 i) =? 0) ||
     (MaxTrustedCompilers <? len (TrustedCompilerSHA256 i)) ||
     negb (distinct_strings (TrustedCompilerSHA256 i))
  then Err ErrInvalidCompatibility
  else if negb (forallb validSHA256 (TrustedCompilerSHA256 i)) then Err ErrInvalidCompatibility
  else if CurrentBundleGeneration i =? 0 then
    if negb (CurrentPolicyGeneration i =? 0) || negb (String.eqb (CurrentPayloadSHA256 i) "")
    then Err ErrInvalidCompatibility else Ok tt
  else if (CurrentPolicyGeneration i =? 0) || negb (validSHA256 (CurrentPayloadSHA256 i))
  then Err ErrInvalidCompatibility else Ok tt.
End InstalledCompatibility.

Section compatibility.
Import InstalledCompatibility.
Context `{JSON} `{!Codec DomainPayload.t}.

(** [reference := manifest.Root; if installed.Domain == DomainUser { ... }]. *)
Definition domain_reference (m : Manifest.t) (domain : PolicyModel.Domain) : DomainReference.t :=
  if String.eqb domain DomainUser then Manifest.User m else Manifest.Root m.

Definition CheckActiveCompatibility (m : Manifest.t) (p : DomainPayload.t) (i : InstalledCompatibility.t)
    : result error unit :=
  if failed (Manifest_Validate m) || failed (Validate i) || (CurrentBundleGeneration i =? 0)
  then Err ErrInvalidCompatibility
  else if failed (DomainPayload_Validate p) then Err ErrInvalidCompatibility
  else if negb (String.eqb (DomainPayload.Domain p) (Domain i)) then Err ErrPolicyDomainMismatch
  else if (Manifest.PolicySchema m <? MinimumPolicySchema i) ||
          (MaximumPolicySchema i <? Manifest.PolicySchema m) then Err ErrUnsupportedPolicy
  else if negb (Manifest.PolicySchema m =? CurrentPolicySchema i) then Err ErrActivePolicyMismatch
  else if negb (contains_string (TrustedCompilerSHA256 i) (Manifest.CompilerSHA256 m))
  then Err ErrUntrustedCompiler
  else if negb (String.eqb (Manifest.StaticSHA256 m) (StaticSHA256 i)) then Err ErrRestartRequired
  else match CanonicalSHA256 p with
       | Err _ => Err ErrInvalidCompatibility
       | Ok (digest, _) =>
           let reference := domain_reference m (Domain i) in
           if negb (Manifest.BundleGeneration m =? CurrentBundleGeneration i) ||
              negb (DomainPayload.PolicyGeneration p =? CurrentPolicyGeneration i) ||
              negb (String.eqb digest (CurrentPayloadSHA256 i)) ||
              negb (DomainReference.Generation reference =? DomainPayload.PolicyGeneration p) ||
              negb (String.eqb (DomainReference.PayloadSHA256 reference) digest)
           then Err ErrActivePolicyMismatch else Ok tt
       end.

Definition CheckCandidateCompatibility (m : Manifest.t) (p : DomainPayload.t)
    (i : InstalledCompatibility.t) : result error unit :=
  if failed (Manifest_Validate m) || failed (Validate i) then Err ErrInvalidCompatibility
  else if negb (String.eqb (DomainPayload.Domain p) (Domain i)) then Err ErrPolicyDomainMismatch
  else if failed (DomainPayload_Validate p) then Err ErrInvalidCompatibility
  else if (Manifest.PolicySchema m <? MinimumPolicySchema i) ||
          (MaximumPolicySchema i <? Manifest.PolicySchema m) then Err ErrUnsupportedPolicy
  else if Manifest.PolicySchema m <? CurrentPolicySchema i then Err ErrPolicyDowngrade
  else if negb (contains_string (TrustedCompilerSHA256 i) (Manifest.CompilerSHA256 m))
  then Err ErrUntrustedCompiler
  else if negb (String.eqb (Manifest.StaticSHA256 m) (StaticSHA256 i)) then Err ErrRestartRequired
  else if negb (Manifest.ParentBundleGeneration m =? CurrentBundleGeneration i) ||
          (Manifest.BundleGeneration m <=? CurrentBundleGeneration i) ||
          (DomainPayload.PolicyGeneration p <? CurrentPolicyGeneration i) then Err ErrPolicyDowngrade
  else match CanonicalSHA256 p with
       | Err _ => Err ErrInvalidCompatibility
       | Ok (digest, _) =>
           let reference := domain_reference m (Domain i) in
           if negb (DomainReference.Generation reference =? DomainPayload.PolicyGeneration p) ||
              negb (String.eqb (DomainReference.PayloadSHA256 reference) digest)
           then Err ErrPolicyDomainMismatch
           else if (DomainPayload.PolicyGeneration p =? CurrentPolicyGeneration i) &&
                   negb (String.eqb digest (CurrentPayloadSHA256 i))
           then Err ErrPolicyDowngrade else Ok tt
       end.

Definition CompilerIsTrusted (i : InstalledCompatibility.t) (compilerSHA256 : string) : bool :=
  if failed (Validate i) || negb (validSHA256 compilerSHA256) then false
  else contains_string (TrustedCompilerSHA256 i) compilerSHA256.

(** ** What an accepted candidate guarantees *)

(** What the daemon records once the candidate is its active policy. *)
Definition install (m : Manifest.t) (p : DomainPayload.t) (digest : string)
    (i : InstalledCompatibility.t) : InstalledCompatibility.t :=
  InstalledCompatibility.mk (Domain i) (MinimumPolicySchema i) (MaximumPolicySchema i)
    (Manifest.PolicySchema m) (Manifest.BundleGeneration m) (DomainPayload.PolicyGeneration p) digest
    (StaticSHA256 i) (TrustedCompilerSHA256 i).

Definition accepted (m : Manifest.t) (p : DomainPayload.t) (i : InstalledCompatibility.t)
    (digest : string) : Prop :=
  CheckCandidateCompatibility m p i = Ok tt /\ exists d, CanonicalSHA256 p = Ok (digest, d).

Lemma accepted_inv m p i digest : accepted m p i digest ->
  Manifest_Validate m = Ok tt /\ Validate i = Ok tt /\ DomainPayload_Validate p = Ok tt /\
  DomainPayload.Domain p = Domain i /\
  MinimumPolicySchema i <= Manifest.PolicySchema m <= MaximumPolicySchema i /\
  CurrentPolicySchema i <= Manifest.PolicySchema m /\
  Manifest.CompilerSHA256 m ∈ TrustedCompilerSHA256 i /\ Manifest.StaticSHA256 m = StaticSHA256 i /\
  Manifest.ParentBundleGeneration m = CurrentBundleGeneration i /\
  CurrentBundleGeneration i < Manifest.BundleGeneration m /\
  CurrentPolicyGeneration i <= DomainPayload.PolicyGeneration p /\
  DomainReference.Generation (domain_reference m (Domain i)) = DomainPayload.PolicyGeneration p /\
  DomainReference.PayloadSHA256 (domain_reference m (Domain i)) = digest /\
  (DomainPayload.PolicyGeneration p = CurrentPolicyGeneration i -> digest = CurrentPayloadSHA256 i).
Proof.
  intros [Hc [d Hd]]. unfold CheckCandidateCompatibility in Hc. rewrite Hd in Hc.
  inv_result. bool_prop. rewrite <- contains_string_spec, <- !failed_unit.
  split_and!; try done. intros Heq.
  match goal with Hx : _ && _ = false |- _ => rewrite Heq, Z.eqb_refl in Hx; simpl in Hx end.
  by bool_prop.
Qed.

Lemma validSHA256_reference m i : Manifest_Validate m = Ok tt ->
  DomainReference_valid (domain_reference m (Domain i)) = true.
Proof.
  unfold Manifest_Validate, domain_reference. intros Hm. inv_result. bool_prop.
  by destruct (String.eqb _ _).
Qed.

(** The installation that results is again valid, and the installed policy passes
    the check a restarted daemon applies to it. *)
Lemma install_active m p i digest : accepted m p i digest ->
  Validate (install m p digest i) = Ok tt /\
  CheckActiveCompatibility m p (install m p digest i) = Ok tt.
Proof.
  intros Hacc. pose proof Hacc as [_ [d Hd]].
  destruct (accepted_inv _ _ _ _ Hacc) as
    (Hm & Hi & Hp & Hdom & Hsch & Hcur & Htrust & Hstat & _ & Hgen & Hpg & Hrg & Hrd & _).
  assert (Manifest.BundleGeneration m <> 0 /\ DomainPayload.PolicyGeneration p <> 0) as [Hbg Hpg0].
  { destruct (DomainPayload_Validate_Ok _ Hp) as (_ & ? & _). split; [|done].
    unfold Manifest_Validate in Hm. inv_result. by bool_prop. }
  pose proof (validSHA256_reference m i Hm) as Href. unfold DomainReference_valid in Href.
  assert (Validate (install m p digest i) = Ok tt) as Hv.
  { unfold Validate in Hi |- *. unfold install. simpl.
    rewrite (proj2 (Z.eqb_neq _ _) Hbg), (proj2 (Z.eqb_neq _ _) Hpg0). simpl.
    apply andb_true_iff in Href as [_ ->%(eq_trans (f_equal validSHA256 (eq_sym Hrd)))]. simpl.
    rewrite (proj2 (Z.ltb_ge (Manifest.PolicySchema m) _)) by lia.
    rewrite (proj2 (Z.ltb_ge _ (Manifest.PolicySchema m))) by lia.
    destruct (CurrentPolicySchema i <? MinimumPolicySchema i), (MaximumPolicySchema i <? CurrentPolicySchema i);
      rewrite ?orb_true_r, ?orb_false_r in *; inv_result; rewrite ?orb_true_r in *; try done.
    all: by rewrite Heqb. }
  split; [done|]. unfold CheckActiveCompatibility.
  rewrite (proj2 (failed_unit _) Hm), (proj2 (failed_unit _) Hv), (proj2 (failed_unit _) Hp), Hd.
  unfold install. simpl. rewrite (proj2 (Z.eqb_neq _ _) Hbg), Hdom, Hrg, Hrd, Hstat, !String.eqb_refl, !Z.eqb_refl.
  rewrite (proj2 (Z.ltb_ge (Manifest.PolicySchema m) _)) by lia.
  rewrite (proj2 (Z.ltb_ge _ (Manifest.PolicySchema m))) by lia.
  by rewrite (proj2 (contains_string_spec _ _) Htrust).
Qed.

(** Successive policies of one installation: each candidate is accepted against
    the installation the previous one left. *)
Inductive upgrades : InstalledCompatibility.t -> list (Manifest.t * DomainPayload.t) ->
    InstalledCompatibility.t -> Prop :=
| upgrades_nil i : upgrades i [] i
| upgrades_cons i m p digest rest j :
    accepted m p i digest -> upgrades (install m p digest i) rest j -> upgrades i ((m, p) :: rest) j.

Lemma upgrades_monotone i steps j : upgrades i steps j ->
  CurrentBundleGeneration i + len steps <= CurrentBundleGeneration j /\
  CurrentPolicySchema i <= CurrentPolicySchema j /\
  CurrentPolicyGeneration i <= CurrentPolicyGeneration j /\
  (CurrentPolicyGeneration i = CurrentPolicyGeneration j -> steps <> [] ->
   CurrentPayloadSHA256 i = CurrentPayloadSHA256 j) /\
  Domain j = Domain i /\ StaticSHA256 j = StaticSHA256 i /\
  TrustedCompilerSHA256 j = TrustedCompilerSHA256 i /\
  Forall (fun s => Manifest.CompilerSHA256 s.1 ∈ TrustedCompilerSHA256 i /\
                   Manifest.StaticSHA256 s.1 = StaticSHA256 i) steps.
Proof.
  induction 1 as [i|i m p digest rest j Hacc Hup IH]; [split_and!; done || constructor || (simpl; lia)|].
  apply accepted_inv in Hacc as (_ & _ & _ & _ & _ & Hcur & Htrust & Hstat & _ & Hgen & Hpg & _ & _ & Hdig).
  destruct IH as (IH1 & IH2 & IH3 & IH4 & IH5 & IH6 & IH7 & IH8).
  unfold install in *. simpl in *. split_and!; try done; try lia.
  - intros Heq _. rewrite <- Hdig by lia. destruct rest as [|s rest]; [by inversion Hup|].
    apply IH4; [lia|done].
  - constructor; done.
Qed.

(** An installation never goes back. Along any sequence of candidates each
    accepted against the installation its predecessor left, the bundle
    generation grows with every step, the policy schema and the domain's policy
    generation never decrease, a policy generation that did not change keeps its
    payload digest, every policy was compiled by a trusted compiler for the
    installed static configuration, and the installation that results passes
    the check a restarted daemon makes on the last policy. *)
Theorem upgrades_never_downgrade i steps m p digest j k :
  upgrades i steps j -> accepted m p j digest -> k = install m p digest j ->
  CurrentBundleGeneration i + len steps < CurrentBundleGeneration k /\
  CurrentPolicySchema i <= CurrentPolicySchema k /\
  CurrentPolicyGeneration i <= CurrentPolicyGeneration k /\
  (CurrentPolicyGeneration i = CurrentPolicyGeneration k -> CurrentPayloadSHA256 i = CurrentPayloadSHA256 k) /\
  Forall (fun s => Manifest.CompilerSHA256 s.1 ∈ TrustedCompilerSHA256 i /\
                   Manifest.StaticSHA256 s.1 = StaticSHA256 i) (steps ++ [(m, p)]) /\
  CheckActiveCompatibility m p k = Ok tt.
Proof.
  intros Hup Hacc ->. assert (upgrades i (steps ++ [(m, p)]) (install m p digest j)) as Hup'.
  { induction Hup; simpl; econstructor; eauto using upgrades_nil. }
  destruct (upgrades_monotone _ _ _ Hup') as (H1 & H2 & H3 & H4 & _ & _ & _ & H8).
  rewrite length_app in H1. simpl in H1. split_and!; try done.
  - simpl. lia.
  - intros Heq. apply H4; [done|]. by destruct steps.
  - by apply install_active.
Qed.
End compatibility.

(** ** A concrete upgrade *)

Definition hex64 (c : ascii) : string := of_chars (replicate 64 c).

(** A codec whose texts are the payloads themselves. *)
#[local] Instance sample_json : JSON := {|
  Doc := DomainPayload.t; doc_len := fun _ => 100; Transform := Some;
  SHA256Hex := fun p => hex64 (if DomainPayload.PolicyGeneration p =? 1 then "1" else "2") |}.
#[local] Instance sample_codec : Codec DomainPayload.t := {|
  json_Marshal := Some; strictJSONDecode := Some; exact := fun _ => true |}.

Definition sample_payload (generation : Z) : DomainPayload.t :=
  DomainPayload.mk DomainPayloadSchema DomainRoot generation
    [Rule.mk "root.allow-tunnel" EffectAllow (Selector.mk "root.tunnel" SelectorAction None None
       (Some (ActionSelector.mk CapabilityTunnelOwnership "tunnel")) None)]
    [AuthorizationLease.mk "root.lease" DomainRoot CapabilityTunnelOwnership ["root.tunnel"]
       "2026-03-01T00:00:00Z" "2026-03-20T00:00:00Z"].

Definition sample_manifest (bundle generation : Z) (digest : string) : Manifest.t :=
  Manifest.mk ManifestSchema 1 "v1.2" (hex64 "c") bundle (bundle - 1)
    (DomainReference.mk generation digest) (DomainReference.mk 1 (hex64 "9"))
    (hex64 "5") (hex64 "f") "2026-03-01T00:00:00Z" "2026-03-01T00:00:00Z" "2026-03-20T00:00:00Z".

Definition sample_installed : InstalledCompatibility.t :=
  InstalledCompatibility.mk DomainRoot 1 2 1 0 0 "" (hex64 "5") [hex64 "c"].

Lemma upgrades_never_downgrade_witness :
  let j := install (sample_manifest 1 1 (hex64 "1")) (sample_payload 1) (hex64 "1") sample_installed in
  let k := install (sample_manifest 2 2 (hex64 "2")) (sample_payload 2) (hex64 "2") j in
  InstalledCompatibility.CurrentBundleGeneration sample_installed + 1 <
  InstalledCompatibility.CurrentBundleGeneration k.
Proof.
  intros j k.
  apply (upgrades_never_downgrade sample_installed [(sample_manifest 1 1 (hex64 "1"), sample_payload 1)]
    (sample_manifest 2 2 (hex64 "2")) (sample_payload 2) (hex64 "2") j k).
  - apply (upgrades_cons _ _ _ (hex64 "1")); [|apply upgrades_nil].
    split; [vm_compute; reflexivity|]. exists (sample_payload 1). vm_compute. reflexivity.
  - split; [vm_compute; reflexivity|]. exists (sample_payload 2). vm_compute. reflexivity.
  - reflexivity.
Defined.
