(* ===== verification/PolicyAuthz.v ===== *)
(** * Action authorization

    [internal/policy/action_authorization.go]: the decision whether the active
    policy of a domain lets an action run now. The theorem relates the decision
    procedure, with its early returns and its set of matching selectors, to the
    condition it stands for. *)

From Stdlib Require Import ZArith Lia Ascii String.
From stdpp Require Import base strings list option sets.
From S2P Require Import Prelude GoTime PolicyModel PolicyValidate.

Open Scope string_scope.
Open Scope Z_scope.

Abbreviation ActionAuthorizationReason := string (only parsing).
Definition ActionAuthorized : ActionAuthorizationReason := "authorized".
Definition ActionInvalidRequest : ActionAuthorizationReason := "invalid_request".
Definition ActionInactivePolicy : ActionAuthorizationReason := "inactive_policy".
Definition ActionAuthorizationSuspended : ActionAuthorizationReason := "authorization_suspended".
Definition ActionDomainMismatch : ActionAuthorizationReason := "domain_mismatch".
Definition ActionGenerationMismatch : ActionAuthorizationReason := "generation_mismatch".
Definition ActionSelectorMismatch : ActionAuthorizationReason := "selector_mismatch".
Definition ActionAuthorizationLeaseEnded : ActionAuthorizationReason := "authorization_lease_inactive".
Definition ActionExplicitlyDenied : ActionAuthorizationReason := "explicitly_denied".

Module ActionAuthorizationState.
Record t := mk {
  Status : Status.t;
  Suspension : AuthorizationSuspension.t;
  Payload : DomainPayload.t;
  ControlStateGeneration : Z
}.
End ActionAuthorizationState.

Module ActionAuthorizationRequest.
Record t := mk {
  Domain : Domain;
  Capability : Capability;
  BundleGeneration : Z;
  DomainPolicyGeneration : Z;
  ControlStateGeneration : Z;
  Target : string;
  PlanSHA256 : string
}.
End ActionAuthorizationRequest.

Record ActionAuthorizationDecision := mkDecision {
  Allowed : bool;
  DecisionReason : ActionAuthorizationReason
}.

Definition denyAction (reason : ActionAuthorizationReason) : ActionAuthorizationDecision :=
  mkDecision false reason.

Definition validAuthorizationTime (t : Z) : bool := year_in_range t.

Definition validActionAuthorizationRequest (r : ActionAuthorizationRequest.t) : bool :=
  Domain_Valid (ActionAuthorizationRequest.Domain r) &&
  Capability_Valid (ActionAuthorizationRequest.Capability r) &&
  (0 <? ActionAuthorizationRequest.BundleGeneration r) &&
  (0 <? ActionAuthorizationRequest.DomainPolicyGeneration r) &&
  (0 <? ActionAuthorizationRequest.ControlStateGeneration r) &&
  validTarget (ActionAuthorizationRequest.Target r) &&
  validSHA256 (ActionAuthorizationRequest.PlanSHA256 r).

Definition authorizationLeaseActive (l : AuthorizationLease.t) (at_ : Z) : bool :=
  match parseCanonicalUTC (AuthorizationLease.IssuedAt l),
        parseCanonicalUTC (AuthorizationLease.ExpiresAt l) with
  | Some issuedAt, Some expiresAt => negb (Before at_ issuedAt) && Before at_ expiresAt
  | _, _ => false
  end.

(** The test at the head of the rule loop, negated. *)
Definition rule_matches (capability : Capability) (target : string) (r : Rule.t) : bool :=
  String.eqb (Selector.Kind (Rule.Selector r)) SelectorAction &&
  match Selector.Action (Rule.Selector r) with
  | Some a => String.eqb (ActionSelector.Capability a) capability &&
              String.eqb (ActionSelector.Target a) target
  | None => false
  end.

(** The rule loop: [None] when it returns because a rule denies, otherwise the
    keys of [matchingAllows]. *)
Fixpoint matching_allows (capability : Capability) (target : string) (rules : list Rule.t)
    (matchingAllows : list string) : option (list string) :=
  match rules with
  | [] => Some matchingAllows
  | r :: rules' =>
      if negb (rule_matches capability target r)
      then matching_allows capability target rules' matchingAllows
      else if String.eqb (Rule.Effect r) EffectDeny then None
      else matching_allows capability target rules' (Selector.ID (Rule.Selector r) :: matchingAllows)
  end.

(** The lease loop: some active lease of the domain and capability names one of
    the matching selectors. *)
Definition leases_authorize (domain : Domain) (capability : Capability) (at_ : Z)
    (matchingAllows : list string) (leases : list AuthorizationLease.t) : bool :=
  existsb (fun l =>
    negb (negb (String.eqb (AuthorizationLease.Domain l) domain) ||
          negb (String.eqb (AuthorizationLease.Capability l) capability) ||
          negb (authorizationLeaseActive l at_)) &&
    existsb (contains_string matchingAllows) (AuthorizationLease.SelectorIDs l)) leases.

Definition EvaluateActionAuthorization (state : ActionAuthorizationState.t)
    (request : ActionAuthorizationRequest.t) (at_ : Z) : ActionAuthorizationDecision :=
  let status := ActionAuthorizationState.Status state in
  let suspension := ActionAuthorizationState.Suspension state in
  let payload := ActionAuthorizationState.Payload state in
  let domain := ActionAuthorizationRequest.Domain request in
  let capability := ActionAuthorizationRequest.Capability request in
  if failed (Status_Validate status) || failed (AuthorizationSuspension_Validate suspension) ||
     (ActionAuthorizationState.ControlStateGeneration state =? 0) || negb (validAuthorizationTime at_)
  then denyAction ActionInvalidRequest
  else if String.eqb (Status.State status) PolicyDomainMismatch ||
          String.eqb (AuthorizationSuspension.Reason suspension) ReasonDomainMismatch
  then denyAction ActionDomainMismatch
  else if AuthorizationSuspension.Suspended suspension ||
          String.eqb (Status.State status) PolicyAuthorizationSuspended
  then denyAction ActionAuthorizationSuspended
  else if negb (String.eqb (Status.State status) PolicyActive)
  then denyAction ActionInactivePolicy
  else if failed (DomainPayload_Validate payload) || negb (validActionAuthorizationRequest request)
  then denyAction ActionInvalidRequest
  else if negb (String.eqb (Status.Domain status) domain) ||
          negb (String.eqb (DomainPayload.Domain payload) domain)
  then denyAction ActionDomainMismatch
  else if negb (Status.BundleGeneration status =? ActionAuthorizationRequest.BundleGeneration request) ||
          negb (Status.PolicyGeneration status =? ActionAuthorizationRequest.DomainPolicyGeneration request) ||
          negb (DomainPayload.PolicyGeneration payload =?
                ActionAuthorizationRequest.DomainPolicyGeneration request) ||
          negb (ActionAuthorizationState.ControlStateGeneration state =?
                ActionAuthorizationRequest.ControlStateGeneration request)
  then denyAction ActionGenerationMismatch
  else match matching_allows capability (ActionAuthorizationRequest.Target request)
               (DomainPayload.Rules payload) [] with
       | None => denyAction ActionExplicitlyDenied
       | Some [] => denyAction ActionSelectorMismatch
       | Some matchingAllows =>
           if leases_authorize domain capability at_ matchingAllows (DomainPayload.Leases payload)
           then mkDecision true ActionAuthorized
           else denyAction ActionAuthorizationLeaseEnded
       end.

(** ** The condition the decision stands for *)

Definition names_action (capability : Capability) (target : string) (r : Rule.t) : Prop :=
  Selector.Kind (Rule.Selector r) = SelectorAction /\
  exists a, Selector.Action (Rule.Selector r) = Some a /\
    ActionSelector.Capability a = capability /\ ActionSelector.Target a = target.

Definition lease_covers (l : AuthorizationLease.t) (at_ : Z) : Prop :=
  exists issued expires,
    parseCanonicalUTC (AuthorizationLease.IssuedAt l) = Some issued /\
    parseCanonicalUTC (AuthorizationLease.ExpiresAt l) = Some expires /\ issued <= at_ < expires.

(** The payload grants the action: no rule for it denies, and a rule that allows
    it is named by a lease of the domain and capability that covers the time. *)
Definition grants (payload : DomainPayload.t) (domain : Domain) (capability : Capability)
    (target : string) (at_ : Z) : Prop :=
  (forall r, r ∈ DomainPayload.Rules payload -> names_action capability target r ->
     Rule.Effect r <> EffectDeny) /\
  exists r l, r ∈ DomainPayload.Rules payload /\ l ∈ DomainPayload.Leases payload /\
    names_action capability target r /\
    AuthorizationLease.Domain l = domain /\ AuthorizationLease.Capability l = capability /\
    Selector.ID (Rule.Selector r) ∈ AuthorizationLease.SelectorIDs l /\ lease_covers l at_.

(** The runtime is in a state in which the request can be honoured. *)
Definition current (state : ActionAuthorizationState.t) (request : ActionAuthorizationRequest.t)
    (at_ : Z) : Prop :=
  let status := ActionAuthorizationState.Status state in
  let payload := ActionAuthorizationState.Payload state in
  let suspension := ActionAuthorizationState.Suspension state in
  Status_Validate status = Ok tt /\ AuthorizationSuspension_Validate suspension = Ok tt /\
  DomainPayload_Validate payload = Ok tt /\ validActionAuthorizationRequest request = true /\
  validAuthorizationTime at_ = true /\
  Status.State status = PolicyActive /\ AuthorizationSuspension.Suspended suspension = false /\
  Status.Domain status = ActionAuthorizationRequest.Domain request /\
  DomainPayload.Domain payload = ActionAuthorizationRequest.Domain request /\
  Status.BundleGeneration status = ActionAuthorizationRequest.BundleGeneration request /\
  Status.PolicyGeneration status = ActionAuthorizationRequest.DomainPolicyGeneration request /\
  DomainPayload.PolicyGeneration payload = ActionAuthorizationRequest.DomainPolicyGeneration request /\
  ActionAuthorizationState.ControlStateGeneration state =
    ActionAuthorizationRequest.ControlStateGeneration request.

Lemma rule_matches_spec capability target r :
  rule_matches capability target r = true <-> names_action capability target r.
Proof.
  unfold rule_matches, names_action. rewrite andb_true_iff, String.eqb_eq.
  destruct (Selector.Action _) as [a|]; [|naive_solver].
  rewrite andb_true_iff, !String.eqb_eq. naive_solver.
Qed.

Lemma matching_allows_None capability target rules acc :
  matching_allows capability target rules acc = None <->
  exists r, r ∈ rules /\ names_action capability target r /\ Rule.Effect r = EffectDeny.
Proof.
  revert acc. induction rules as [|r rules IH]; intros acc; simpl; [set_solver|].
  pose proof (rule_matches_spec capability target r) as Hm.
  destruct (rule_matches capability target r); simpl.
  - destruct (String.eqb_spec (Rule.Effect r) EffectDeny) as [Hd|Hd]; [set_solver|].
    rewrite IH. set_solver.
  - rewrite IH. set_solver.
Qed.

Lemma matching_allows_Some capability target rules acc allows :
  matching_allows capability target rules acc = Some allows ->
  forall id, id ∈ allows <-> id ∈ acc \/
    exists r, r ∈ rules /\ names_action capability target r /\ Selector.ID (Rule.Selector r) = id.
Proof.
  revert acc. induction rules as [|r rules IH]; intros acc H id; simpl in H; [set_solver|].
  pose proof (rule_matches_spec capability target r) as Hm.
  destruct (rule_matches capability target r); simpl in H.
  - destruct (String.eqb _ _); [done|]. rewrite (IH _ H). set_solver.
  - rewrite (IH _ H). set_solver.
Qed.

Lemma authorizationLeaseActive_spec l at_ : authorizationLeaseActive l at_ = true <-> lease_covers l at_.
Proof.
  unfold authorizationLeaseActive, lease_covers, Before.
  destruct (parseCanonicalUTC (AuthorizationLease.IssuedAt l)) as [i|]; [|naive_solver].
  destruct (parseCanonicalUTC (AuthorizationLease.ExpiresAt l)) as [e|]; [|naive_solver].
  rewrite andb_true_iff, negb_true_iff, Z.ltb_ge, Z.ltb_lt.
  split; [intros; exists i, e; naive_solver|]. intros (? & ? & [= <-] & [= <-] & ?). lia.
Qed.

Lemma leases_authorize_spec domain capability at_ allows leases :
  leases_authorize domain capability at_ allows leases = true <->
  exists l id, l ∈ leases /\ AuthorizationLease.Domain l = domain /\
    AuthorizationLease.Capability l = capability /\ lease_covers l at_ /\
    id ∈ AuthorizationLease.SelectorIDs l /\ id ∈ allows.
Proof.
  unfold leases_authorize. rewrite existsb_exists.
  setoid_rewrite andb_true_iff. setoid_rewrite negb_true_iff. setoid_rewrite orb_false_iff.
  setoid_rewrite orb_false_iff. setoid_rewrite negb_false_iff. setoid_rewrite String.eqb_eq.
  setoid_rewrite authorizationLeaseActive_spec. setoid_rewrite existsb_exists.
  setoid_rewrite contains_string_spec. setoid_rewrite <- list_elem_of_In. naive_solver.
Qed.

Lemma not_suspended_reason s : AuthorizationSuspension_Validate s = Ok tt ->
  AuthorizationSuspension.Suspended s = false -> AuthorizationSuspension.Reason s = ReasonNone.
Proof.
  unfold AuthorizationSuspension_Validate. intros H Hs. rewrite Hs in H. simpl in H.
  inv_result. by bool_prop.
Qed.

(** The part of the decision that reads the payload. *)
Lemma payload_decision payload domain capability target at_ :
  Allowed (match matching_allows capability target (DomainPayload.Rules payload) [] with
           | None => denyAction ActionExplicitlyDenied
           | Some [] => denyAction ActionSelectorMismatch
           | Some allows =>
               if leases_authorize domain capability at_ allows (DomainPayload.Leases payload)
               then mkDecision true ActionAuthorized else denyAction ActionAuthorizationLeaseEnded
           end) = true <->
  grants payload domain capability target at_.
Proof.
  unfold grants.
  pose proof (matching_allows_None capability target (DomainPayload.Rules payload) []) as Hnone.
  destruct (matching_allows _ _ _ _) as [allows|] eqn:Hm; simpl.
  2:{ split; [done|]. intros [Hdeny _]. destruct Hnone as [Hr _].
      destruct (Hr eq_refl) as (r & Hin & Hn & He). by destruct (Hdeny r Hin Hn). }
  pose proof (matching_allows_Some _ _ _ _ _ Hm) as Hids.
  assert (forall r, r ∈ DomainPayload.Rules payload -> names_action capability target r ->
    Rule.Effect r <> EffectDeny) as Hdeny.
  { intros r Hin Hn He. destruct Hnone as [_ Hr]. discriminate Hr. by exists r. }
  transitivity (leases_authorize domain capability at_ allows (DomainPayload.Leases payload) = true).
  { destruct allows; [|by destruct (leases_authorize _ _ _ _ _)].
    split; [done|]. rewrite leases_authorize_spec. intros (? & ? & _ & _ & _ & _ & _ & Hin).
    by apply elem_of_nil in Hin. }
  rewrite leases_authorize_spec. split.
  - intros (l & id & Hl & Hd & Hc & Hcov & Hid & Hall). split; [done|].
    apply Hids in Hall as [Hall|(r & Hr & Hn & <-)]; [by apply elem_of_nil in Hall|].
    exists r, l. done.
  - intros [_ (r & l & Hr & Hl & Hn & Hd & Hc & Hid & Hcov)].
    exists l, (Selector.ID (Rule.Selector r)). split_and!; try done.
    apply Hids. right. by exists r.
Qed.

(** In a current state only the payload decides. *)
Lemma current_decision state request at_ : current state request at_ ->
  EvaluateActionAuthorization state request at_ =
  match matching_allows (ActionAuthorizationRequest.Capability request)
          (ActionAuthorizationRequest.Target request)
          (DomainPayload.Rules (ActionAuthorizationState.Payload state)) [] with
  | None => denyAction ActionExplicitlyDenied
  | Some [] => denyAction ActionSelectorMismatch
  | Some allows =>
      if leases_authorize (ActionAuthorizationRequest.Domain request)
           (ActionAuthorizationRequest.Capability request) at_ allows
           (DomainPayload.Leases (ActionAuthorizationState.Payload state))
      then mkDecision true ActionAuthorized else denyAction ActionAuthorizationLeaseEnded
  end.
Proof.
  intros (Hs & Hsu & Hp & Hr & Ht & Hst & Hns & Hd & Hpd & Hb & Hpg & Hppg & Hcg).
  unfold EvaluateActionAuthorization.
  rewrite (proj2 (failed_unit _) Hs), (proj2 (failed_unit _) Hsu), (proj2 (failed_unit _) Hp).
  rewrite (not_suspended_reason _ Hsu Hns), Hns, Hst, Hr, Ht, Hd, Hpd, Hb, Hpg, Hppg, Hcg.
  rewrite !String.eqb_refl, !Z.eqb_refl.
  unfold validActionAuthorizationRequest in Hr. bool_prop.
  by rewrite (proj2 (Z.eqb_neq (ActionAuthorizationRequest.ControlStateGeneration request) 0)) by lia.
Qed.

Lemma allowed_current state request at_ :
  Allowed (EvaluateActionAuthorization state request at_) = true -> current state request at_.
Proof.
  unfold current, EvaluateActionAuthorization. intros H.
  repeat match goal with
  | H : Allowed (if ?b then _ else _) = true |- _ => destruct b eqn:?; [discriminate H|]
  end.
  bool_prop. rewrite <- !failed_unit. done.
Qed.

Lemma allowed_granted state request at_ :
  Allowed (EvaluateActionAuthorization state request at_) = true ->
  current state request at_ /\
  grants (ActionAuthorizationState.Payload state) (ActionAuthorizationRequest.Domain request)
    (ActionAuthorizationRequest.Capability request) (ActionAuthorizationRequest.Target request) at_.
Proof.
  intros H. pose proof (allowed_current _ _ _ H) as Hc. split; [done|].
  rewrite current_decision in H by done. by apply payload_decision.
Qed.

(** C16: the authorization decision is exactly the policy's meaning. An action is
    allowed when and only when the runtime is in the state the request names
    (valid, active, not suspended, same domain, same bundle, policy and control
    generations) and the payload grants it: some rule allows the capability on
    the target, no rule denies it, and a lease of that domain and capability
    that covers the instant names the selector. *)
Theorem authorization_iff_granted state request at_ :
  Allowed (EvaluateActionAuthorization state request at_) = true <->
  current state request at_ /\
  grants (ActionAuthorizationState.Payload state) (ActionAuthorizationRequest.Domain request)
    (ActionAuthorizationRequest.Capability request) (ActionAuthorizationRequest.Target request) at_.
Proof.
  split; [apply allowed_granted|]. intros [Hc H].
  rewrite current_decision by done. by apply payload_decision.
Qed.

(** A denying rule wins. In a state that could honour the request, a rule
    that denies the capability on the target makes the decision an explicit
    denial, whatever other rules and leases the payload holds and in whatever
    order. *)
Theorem explicit_deny_wins state request at_ r :
  current state request at_ -> r ∈ DomainPayload.Rules (ActionAuthorizationState.Payload state) ->
  names_action (ActionAuthorizationRequest.Capability request)
    (ActionAuthorizationRequest.Target request) r ->
  Rule.Effect r = EffectDeny ->
  EvaluateActionAuthorization state request at_ = denyAction ActionExplicitlyDenied.
Proof.
  intros Hc Hin Hn He. rewrite current_decision by done.
  by rewrite (proj2 (matching_allows_None _ _ _ _)) by (by exists r).
Qed.

Definition sample_digest : string := "0123456789abcdef0123456789abcdef0123456789abcdef0123456789abcdef".

Definition sample_rule (id : string) (effect : Effect) (sid : string) : Rule.t :=
  Rule.mk id effect (Selector.mk sid SelectorAction None None
    (Some (ActionSelector.mk CapabilityPritunlRecovery "pritunl")) None).

Definition sample_state : ActionAuthorizationState.t :=
  ActionAuthorizationState.mk
    (Status.mk PolicyStatusSchema DomainUser PolicyActive 7 3 sample_digest "2026-03-01T00:00:00Z"
       "2026-03-20T00:00:00Z" ReasonNone)
    (AuthorizationSuspension.mk AuthorizationSuspensionSchema false ReasonNone "")
    (DomainPayload.mk DomainPayloadSchema DomainUser 3
       [sample_rule "user.allow" EffectAllow "user.s1"; sample_rule "user.deny" EffectDeny "user.s2"]
       [AuthorizationLease.mk "user.lease" DomainUser CapabilityPritunlRecovery ["user.s1"]
          "2026-03-01T00:00:00Z" "2026-03-20T00:00:00Z"])
    12.

Definition sample_request : ActionAuthorizationRequest.t :=
  ActionAuthorizationRequest.mk DomainUser CapabilityPritunlRecovery 7 3 12 "pritunl" sample_digest.

Lemma explicit_deny_wins_witness :
  EvaluateActionAuthorization sample_state sample_request sample_instant =
  denyAction ActionExplicitlyDenied.
Proof.
  apply (explicit_deny_wins _ _ _ (sample_rule "user.deny" EffectDeny "user.s2")).
  - unfold current. split_and!; vm_compute; reflexivity.
  - simpl. set_solver.
  - split; [reflexivity|]. eexists. split; [reflexivity|]. split; reflexivity.
  - reflexivity.
Defined.
