(* ===== verification/PolicySelector.v ===== *)
(** * Selectors: normal form, overlap and conflicts

    The selector functions of [internal/policy/composition.go] ([normalizeSelector],
    [selectorSemanticKey], [ruleSemanticKey]) and of [internal/policy/conflict.go].
    A selector that was validated carries the value of its kind; where the code
    would dereference a nil pointer of an unvalidated selector, the model answers
    that nothing overlaps.

    The theorems give overlap and normal form their meaning: the ports, the host
    names and the addresses a selector stands for. *)

From Stdlib Require Import ZArith Lia Ascii String Sorted.
From stdpp Require Import base strings list option sets.
From S2P Require Import Prelude GoTime GoNetip PolicyModel PolicyValidate PolicyCanonical.

Open Scope string_scope.
Open Scope Z_scope.

(** ** Port ranges *)

Definition port_less (a b : PortRange.t) : bool :=
  if negb (PortRange.First a =? PortRange.First b) then PortRange.First a <? PortRange.First b
  else PortRange.Last a <? PortRange.Last b.

(** The merging loop; [merged] holds the ranges so far, the last one first. *)
Fixpoint merge_ranges (merged : list PortRange.t) (l : list PortRange.t) : list PortRange.t :=
  match l with
  | [] => reverse merged
  | candidate :: l' =>
      match merged with
      | last :: merged' =>
          if (PortRange.First candidate <=? PortRange.Last last) ||
             ((PortRange.Last last <? max_u16) &&
              (PortRange.First candidate =? u16 (PortRange.Last last + 1)))
          then merge_ranges
                 (PortRange.mk (PortRange.First last)
                    (if PortRange.Last last <? PortRange.Last candidate
                     then PortRange.Last candidate else PortRange.Last last) :: merged') l'
          else merge_ranges (candidate :: merged) l'
      | [] => merge_ranges [candidate] l'
      end
  end.

Definition normalizePorts (l : list PortRange.t) : list PortRange.t :=
  merge_ranges [] (sort_slice port_less l).

Definition normalizeSelector (s : Selector.t) : Selector.t :=
  match Selector.Endpoint s with
  | None => s
  | Some e =>
      Selector.mk (Selector.ID s) (Selector.Kind s)
        (Some (EndpointSelector.mk (EndpointSelector.Host e) (normalizePorts (EndpointSelector.Ports e))
                 (EndpointSelector.Protocol e) (EndpointSelector.TLS e) (EndpointSelector.Path e)))
        (Selector.Route s) (Selector.Action s) (Selector.Credential s)
  end.

(** ** Overlap *)

Definition portSetsOverlap (left right : list PortRange.t) : bool :=
  existsb (fun l => existsb (fun r =>
    (PortRange.First l <=? PortRange.Last r) && (PortRange.First r <=? PortRange.Last l)) right) left.

Definition hostsOverlap (left right : string) : bool :=
  if String.eqb left right then true
  else match ParseAddr left, ParseAddr right with
  | Some a, Some b => bool_decide (a = b)
  | Some _, None | None, Some _ => false
  | None, None =>
      let '(leftBase, leftWildcard) := cut_prefix "*." left in
      let '(rightBase, rightWildcard) := cut_prefix "*." right in
      if leftWildcard && rightWildcard then
        String.eqb leftBase rightBase || has_suffix ("." ++ rightBase) leftBase ||
        has_suffix ("." ++ leftBase) rightBase
      else if leftWildcard then has_suffix ("." ++ leftBase) right
      else if rightWildcard then has_suffix ("." ++ rightBase) left
      else false
  end.

Definition selectorsOverlap (left right : Selector.t) : bool :=
  let kind := Selector.Kind left in
  if negb (String.eqb kind (Selector.Kind right)) then false
  else if String.eqb kind SelectorEndpoint then
    match Selector.Endpoint left, Selector.Endpoint right with
    | Some l, Some r => hostsOverlap (EndpointSelector.Host l) (EndpointSelector.Host r) &&
                        portSetsOverlap (EndpointSelector.Ports l) (EndpointSelector.Ports r)
    | _, _ => false
    end
  else if String.eqb kind SelectorRoute then
    match Selector.Route left, Selector.Route right with
    | Some l, Some r =>
        match ParsePrefix (RouteSelector.Prefix l), ParsePrefix (RouteSelector.Prefix r) with
        | Some lp, Some rp => Overlaps lp rp
        | _, _ => false
        end
    | _, _ => false
    end
  else if String.eqb kind SelectorAction then
    match Selector.Action left, Selector.Action right with
    | Some l, Some r => String.eqb (ActionSelector.Capability l) (ActionSelector.Capability r) &&
                        String.eqb (ActionSelector.Target l) (ActionSelector.Target r)
    | _, _ => false
    end
  else if String.eqb kind SelectorCredential then
    match Selector.Credential left, Selector.Credential right with
    | Some l, Some r => String.eqb (CredentialSelector.Reference l) (CredentialSelector.Reference r)
    | _, _ => false
    end
  else false.

Definition overlapsAny (s : Selector.t) (denied : list Selector.t) : bool :=
  existsb (selectorsOverlap s) denied.

(** ** Conflicts *)

Definition MaxConflictCodes := 8.
Abbreviation ConflictCode := string (only parsing).
Definition ConflictEndpointSemantics : ConflictCode := "endpoint_semantics_conflict".
Definition ConflictRouteSemantics : ConflictCode := "route_semantics_conflict".
Definition ConflictActionSemantics : ConflictCode := "action_semantics_conflict".
Definition ConflictCredentialOwner : ConflictCode := "credential_ownership_conflict".
Definition ConflictCrossDomain : ConflictCode := "cross_domain_ownership".

(** The second component of the switch: the values of the kind differ. *)
Definition values_differ {A} (differ : A -> A -> bool) (l r : option A) : bool :=
  match l, r with Some a, Some b => differ a b | _, _ => false end.

Definition classifyConflict (leftDomain : Domain) (left : Rule.t) (rightDomain : Domain) (right : Rule.t)
    : option ConflictCode :=
  let ls := Rule.Selector left in
  let rs := Rule.Selector right in
  let kind := Selector.Kind ls in
  let effects := negb (String.eqb (Rule.Effect left) (Rule.Effect right)) in
  if negb (selectorsOverlap ls rs) then None
  else if negb (String.eqb leftDomain rightDomain) then
    if String.eqb kind SelectorAction then None else Some ConflictCrossDomain
  else if String.eqb kind SelectorEndpoint then
    if effects || values_differ (fun l r =>
         negb (String.eqb (EndpointSelector.Protocol l) (EndpointSelector.Protocol r)) ||
         negb (String.eqb (EndpointSelector.TLS l) (EndpointSelector.TLS r)) ||
         negb (String.eqb (EndpointSelector.Path l) (EndpointSelector.Path r)))
         (Selector.Endpoint ls) (Selector.Endpoint rs)
    then Some ConflictEndpointSemantics else None
  else if String.eqb kind SelectorRoute then
    if effects || values_differ (fun l r =>
         negb (String.eqb (RouteSelector.Path l) (RouteSelector.Path r))) (Selector.Route ls) (Selector.Route rs)
    then Some ConflictRouteSemantics else None
  else if String.eqb kind SelectorAction then
    if effects then Some ConflictActionSemantics else None
  else if String.eqb kind SelectorCredential then
    if effects || values_differ (fun l r =>
         negb (String.eqb (CredentialSelector.Owner l) (CredentialSelector.Owner r)))
         (Selector.Credential ls) (Selector.Credential rs)
    then Some ConflictCredentialOwner else None
  else None.

(** The pair loop of [FindConflicts]: the set of codes and the truncation flag. *)
Definition add_code (code : ConflictCode) (acc : list ConflictCode * bool) : list ConflictCode * bool :=
  let '(codes, truncated) := acc in
  if MaxConflictCodes <=? len codes
  then (codes, truncated || negb (contains_string codes code))
  else (if contains_string codes code then codes else (codes ++ [code])%list, truncated).

Definition scan_pair (l r : Domain * Rule.t) (acc : list ConflictCode * bool) : list ConflictCode * bool :=
  match classifyConflict l.1 l.2 r.1 r.2 with
  | None => acc
  | Some code => add_code code acc
  end.

Fixpoint scan_rules (rules : list (Domain * Rule.t)) (acc : list ConflictCode * bool)
    : list ConflictCode * bool :=
  match rules with
  | [] => acc
  | l :: rules' => scan_rules rules' (fold_left (fun a r => scan_pair l r a) rules' acc)
  end.

Record ConflictReport := mkReport { Codes : list ConflictCode; Truncated : bool }.

Definition ConflictReport_Empty (r : ConflictReport) : bool := len (Codes r) =? 0.

(** [FindConflicts] of the rules of the two domains. *)
Definition find_conflicts (root user : list Rule.t) : ConflictReport :=
  let rules := (map (fun r => (DomainRoot, r)) root ++ map (fun r => (DomainUser, r)) user)%list in
  let '(codes, truncated) := scan_rules rules ([], false) in
  mkReport (sort_strings codes) truncated.

(** ** Semantic keys *)

(** The anonymous struct [ruleSemanticKey] encodes. *)
Module keyedRule.
Record t := mk { Effect : Effect; Selector : string }.
#[global] Instance eq_dec : EqDecision t.
Proof. solve_decision. Defined.
End keyedRule.

Section keys.
Context `{JSON} `{!Codec Selector.t} `{!Codec keyedRule.t}.

Definition with_ID (s : Selector.t) (id : string) : Selector.t :=
  Selector.mk id (Selector.Kind s) (Selector.Endpoint s) (Selector.Route s) (Selector.Action s)
    (Selector.Credential s).

Definition selectorSemanticKey (s : Selector.t) : result error string :=
  r ← CanonicalSHA256 (with_ID (normalizeSelector s) "semantic"); Ok r.1.

Definition ruleSemanticKey (r : Rule.t) : result error string :=
  selectorKey ← selectorSemanticKey (Rule.Selector r);
  d ← CanonicalSHA256 (keyedRule.mk (Rule.Effect r) selectorKey); Ok d.1.
End keys.

(** ** Ports: the normal form is canonical *)

Definition in_port (p : Z) (r : PortRange.t) : Prop := PortRange.First r <= p <= PortRange.Last r.
Definition covers (l : list PortRange.t) (p : Z) : Prop := exists r, r ∈ l /\ in_port p r.

Definition range_ok (r : PortRange.t) : Prop :=
  0 < PortRange.First r <= PortRange.Last r /\ PortRange.Last r <= max_u16.

(** Ascending, with a gap between neighbours. *)
Fixpoint normal (l : list PortRange.t) : Prop :=
  match l with
  | [] => True
  | r :: l' => range_ok r /\ Forall (fun r' => PortRange.Last r + 1 < PortRange.First r') l' /\ normal l'
  end.

Lemma covers_cons r l p : covers (r :: l) p <-> in_port p r \/ covers l p.
Proof. unfold covers. setoid_rewrite elem_of_cons. naive_solver. Qed.

Lemma covers_app l1 l2 p : covers (l1 ++ l2)%list p <-> covers l1 p \/ covers l2 p.
Proof. unfold covers. setoid_rewrite elem_of_app. naive_solver. Qed.

Lemma covers_perm l1 l2 p : l1 ≡ₚ l2 -> covers l1 p <-> covers l2 p.
Proof. intros Hp. unfold covers. by setoid_rewrite Hp. Qed.

Lemma normal_app l1 l2 : normal (l1 ++ l2)%list <->
  normal l1 /\ normal l2 /\
  forall a b, a ∈ l1 -> b ∈ l2 -> PortRange.Last a + 1 < PortRange.First b.
Proof.
  induction l1 as [|r l1 IH]; simpl; [set_solver|].
  rewrite IH, Forall_app, !Forall_forall. setoid_rewrite elem_of_cons. naive_solver.
Qed.

Lemma port_less_spec a b : port_less a b = true <->
  PortRange.First a < PortRange.First b \/
  (PortRange.First a = PortRange.First b /\ PortRange.Last a < PortRange.Last b).
Proof.
  unfold port_less. destruct (Z.eqb_spec (PortRange.First a) (PortRange.First b)); simpl;
    rewrite Z.ltb_lt; lia.
Qed.

Lemma not_after_ports a b : not_after port_less a b <->
  PortRange.First a < PortRange.First b \/
  (PortRange.First a = PortRange.First b /\ PortRange.Last a <= PortRange.Last b).
Proof.
  unfold not_after. rewrite <- not_true_iff_false, port_less_spec. lia.
Qed.

#[local] Instance ports_total : Total (not_after port_less).
Proof. intros a b. rewrite !not_after_ports. lia. Qed.

#[local] Instance ports_transitive : Transitive (not_after port_less).
Proof. intros a b c. rewrite !not_after_ports. lia. Qed.

(** The loop keeps what it has merged in normal form and loses no port. *)
Lemma merge_ranges_spec l merged : StronglySorted (not_after port_less) l -> Forall range_ok l ->
  normal (reverse merged) ->
  (forall r last, head merged = Some last -> r ∈ l -> PortRange.First last <= PortRange.First r) ->
  normal (merge_ranges merged l) /\
  forall p, covers (merge_ranges merged l) p <-> covers merged p \/ covers l p.
Proof.
  revert merged. induction l as [|c l IH]; intros merged Hs Hok Hn Hle; simpl.
  { split; [done|]. intros p. rewrite (covers_perm _ merged) by (apply reverse_Permutation).
    split; [by left|]. intros [?|(r & Hr & _)]; [done|]. by apply elem_of_nil in Hr. }
  apply StronglySorted_inv in Hs as [Hs Hc]. apply Forall_cons in Hok as [Hcok Hok].
  assert (forall r, r ∈ l -> PortRange.First c <= PortRange.First r) as Hcl.
  { intros r Hr. rewrite Forall_forall in Hc. specialize (Hc r Hr). apply not_after_ports in Hc. lia. }
  destruct merged as [|last merged].
  { destruct (IH [c]) as [IH1 IH2]; try done.
    - intros r x Hx Hr. simpl in Hx. injection Hx as <-. auto.
    - split; [done|]. intros p. rewrite IH2, !covers_cons. naive_solver. }
  rewrite reverse_cons, normal_app in Hn. destruct Hn as (Hm & (Hlast & _ & _) & Hgap).
  assert (PortRange.First last <= PortRange.First c) as Hlc by (apply Hle; [done|left]).
  destruct (_ || _) eqn:Hmerge.
  - assert (PortRange.First c <= PortRange.Last last + 1) as Hadj.
    { apply orb_true_iff in Hmerge as [Hm1|Hm1]; bool_prop; [lia|].
      unfold u16 in *. rewrite Z.mod_small in * by (unfold range_ok, max_u16 in *; lia). lia. }
    set (last' := PortRange.mk (PortRange.First last)
      (if PortRange.Last last <? PortRange.Last c then PortRange.Last c else PortRange.Last last)).
    assert (PortRange.Last last' = Z.max (PortRange.Last last) (PortRange.Last c)) as Hmax.
    { subst last'. simpl. destruct (Z.ltb_spec (PortRange.Last last) (PortRange.Last c)); lia. }
    destruct (IH (last' :: merged)) as [IH1 IH2]; try done.
    + rewrite reverse_cons, normal_app. split_and!; [done| |].
      * simpl. split_and!; [|constructor|done]. unfold range_ok in *. rewrite Hmax. simpl. lia.
      * intros a b Ha Hb%list_elem_of_singleton. subst b. simpl. apply Hgap; [done|]. by left.
    + intros r x Hx Hr. simpl in Hx. injection Hx as <-. simpl. pose proof (Hcl r Hr). lia.
    + split; [done|]. intros p. rewrite IH2, !covers_cons.
      assert (in_port p last' <-> in_port p last \/ in_port p c) as ->; [|tauto].
      unfold in_port, range_ok in *. rewrite Hmax. simpl. lia.
  - assert (PortRange.Last last + 1 < PortRange.First c) as Hsep.
    { bool_prop. unfold range_ok in *. destruct (Z.ltb_spec (PortRange.Last last) max_u16) as [Hl|Hl].
      - unfold u16 in *. rewrite Z.mod_small in * by (unfold max_u16 in *; lia). simpl in *.
        bool_prop. lia.
      - lia. }
    destruct (IH (c :: last :: merged)) as [IH1 IH2]; try done.
    + rewrite reverse_cons, normal_app. split_and!.
      * rewrite reverse_cons, normal_app. split_and!; [done| |done]. simpl. by split_and!.
      * simpl. by split_and!.
      * intros a b Ha Hb%list_elem_of_singleton. subst b.
        rewrite reverse_cons in Ha. apply elem_of_app in Ha as [Ha|Ha%list_elem_of_singleton]; [|by subst].
        assert (PortRange.Last a + 1 < PortRange.First last) by (apply Hgap; [done|by left]).
        unfold range_ok in *. lia.
    + intros r x Hx Hr. simpl in Hx. injection Hx as <-. auto.
    + split; [done|]. intros p. rewrite IH2, !covers_cons. tauto.
Qed.

Lemma PortRange_valid_ok r : PortRange_valid r = true -> 0 <= PortRange.First r ->
  PortRange.Last r <= max_u16 -> range_ok r.
Proof. unfold PortRange_valid, range_ok. intros Hv ? ?. bool_prop. lia. Qed.

Lemma normalizePorts_spec l : Forall range_ok l ->
  normal (normalizePorts l) /\ forall p, covers (normalizePorts l) p <-> covers l p.
Proof.
  intros Hok. unfold normalizePorts.
  destruct (merge_ranges_spec (sort_slice port_less l) []) as [Hn Hc]; try done.
  - apply Sorted_StronglySorted; [apply ports_transitive|]. by apply sort_slice_sorted, _.
  - by rewrite sort_slice_perm.
  - split; [done|]. intros p. rewrite Hc, (covers_perm (sort_slice port_less l) l) by apply sort_slice_perm.
    split; [|by right]. intros [(r & Hr & _)|?]; [by apply elem_of_nil in Hr|done].
Qed.

Lemma covers_tail r l p : Forall (fun r' => PortRange.Last r + 1 < PortRange.First r') l ->
  covers l p -> PortRange.Last r + 1 < p.
Proof.
  rewrite Forall_forall. intros Hf (x & Hx & Hp). specialize (Hf x Hx). unfold in_port in Hp. lia.
Qed.

(** Two normal forms of one set of ports are the same list. *)
Lemma normal_unique l1 l2 : normal l1 -> normal l2 -> (forall p, covers l1 p <-> covers l2 p) -> l1 = l2.
Proof.
  revert l2. induction l1 as [|a l1 IH]; intros [|b l2] H1 H2 Hc; [done|..].
  - exfalso. destruct H2 as [Hb _]. assert (covers [] (PortRange.First b)) as (? & Hx & _).
    { apply Hc. exists b. split; [left|]. unfold in_port, range_ok in *. lia. }
    by apply elem_of_nil in Hx.
  - exfalso. destruct H1 as [Ha _]. assert (covers [] (PortRange.First a)) as (? & Hx & _).
    { apply Hc. exists a. split; [left|]. unfold in_port, range_ok in *. lia. }
    by apply elem_of_nil in Hx.
  - destruct H1 as (Ha & Fa & Na), H2 as (Hb & Fb & Nb). setoid_rewrite covers_cons in Hc.
    pose proof (fun p => covers_tail a l1 p Fa) as Ta. pose proof (fun p => covers_tail b l2 p Fb) as Tb.
    unfold in_port, range_ok in *.
    assert (PortRange.First a = PortRange.First b) as Hfirst.
    { pose proof (proj1 (Hc (PortRange.First a))) as P1. pose proof (proj2 (Hc (PortRange.First b))) as P2.
      destruct P1 as [P1|P1]; [lia| |]; destruct P2 as [P2|P2]; try lia;
        try apply Ta in P2; try apply Tb in P1; lia. }
    assert (PortRange.Last a = PortRange.Last b) as Hlast.
    { pose proof (proj1 (Hc (PortRange.Last a))) as P1. pose proof (proj2 (Hc (PortRange.Last b))) as P2.
      pose proof (proj1 (Hc (PortRange.Last b + 1))) as P3. pose proof (proj2 (Hc (PortRange.Last a + 1))) as P4.
      destruct (Z.lt_trichotomy (PortRange.Last a) (PortRange.Last b)) as [Hlt|[?|Hlt]]; [|done|].
      - destruct P4 as [P4|P4]; [lia|lia|]. apply Ta in P4. lia.
      - destruct P3 as [P3|P3]; [lia|lia|]. apply Tb in P3. lia. }
    assert (a = b) as -> by (destruct a, b; simpl in *; congruence). f_equal. apply IH; [done..|].
    intros p. specialize (Hc p). split; intros Hp.
    + destruct (proj1 Hc (or_intror Hp)) as [?|?]; [|done]. apply Ta in Hp. lia.
    + destruct (proj2 Hc (or_intror Hp)) as [?|?]; [|done]. apply Tb in Hp. lia.
Qed.

(** The normal form of a port set is canonical. Normalization keeps exactly the
    ports of the ranges, and two lists of valid ranges have the same normal form
    when and only when they stand for the same ports; the semantic key of an
    endpoint therefore depends on its ports and not on how they are written. *)
Theorem normalized_ports_canonical l1 l2 : Forall range_ok l1 -> Forall range_ok l2 ->
  (forall p, covers (normalizePorts l1) p <-> covers l1 p) /\
  ((forall p, covers l1 p <-> covers l2 p) <-> normalizePorts l1 = normalizePorts l2).
Proof.
  intros H1 H2. destruct (normalizePorts_spec l1 H1) as [N1 C1], (normalizePorts_spec l2 H2) as [N2 C2].
  split; [done|]. split.
  - intros Hc. apply normal_unique; [done..|]. intros p. by rewrite C1, C2.
  - intros Heq p. by rewrite <- C1, <- C2, Heq.
Qed.

Lemma normalizePorts_idemp l : Forall range_ok l -> normalizePorts (normalizePorts l) = normalizePorts l.
Proof.
  intros Hok. destruct (normalizePorts_spec l Hok) as [Hn _].
  assert (Forall range_ok (normalizePorts l)) as Hok'.
  { clear Hok. induction (normalizePorts l) as [|r l' IH]; [done|]. destruct Hn as (? & _ & ?). auto. }
  destruct (normalizePorts_spec _ Hok') as [Hn' Hc']. by apply normal_unique.
Qed.

Definition sample_ports1 : list PortRange.t :=
  [PortRange.mk 443 443; PortRange.mk 80 90; PortRange.mk 85 100; PortRange.mk 444 65535].
Definition sample_ports2 : list PortRange.t := [PortRange.mk 80 100; PortRange.mk 443 65535].

Lemma normalized_ports_canonical_witness :
  normalizePorts sample_ports1 = sample_ports2 /\
  forall p, covers sample_ports1 p <-> covers sample_ports2 p.
Proof.
  assert (normalizePorts sample_ports1 = sample_ports2) as Heq by (vm_compute; reflexivity).
  split; [exact Heq|].
  apply (normalized_ports_canonical sample_ports1 sample_ports2).
  - repeat constructor; vm_compute; discriminate.
  - repeat constructor; vm_compute; discriminate.
  - rewrite Heq. vm_compute. reflexivity.
Defined.

(** ** Hosts: overlap is a shared name *)

(** The names and addresses a host pattern stands for. *)
Definition host_denotes (pattern name : string) : Prop :=
  match ParseAddr pattern with
  | Some a => ParseAddr name = Some a
  | None =>
      ParseAddr name = None /\
      match cut_prefix "*." pattern with
      | (base, true) => has_suffix ("." ++ base) name = true
      | (_, false) => name = pattern
      end
  end.

Lemma has_suffix_dot base s : has_suffix ("." ++ base) s = true <->
  exists l, chars s = (l ++ dot :: chars base)%list.
Proof. by rewrite has_suffix_spec. Qed.

(** Two suffixes that start with a dot are nested. *)
Lemma nested_suffixes (l1 l2 b1 b2 : list ascii) : (l1 ++ dot :: b1 = l2 ++ dot :: b2)%list ->
  b1 = b2 \/ (exists l, b1 = (l ++ dot :: b2)%list) \/ (exists l, b2 = (l ++ dot :: b1)%list).
Proof.
  intros Heq. apply app_eq_app in Heq as [l [[_ Hl]|[_ Hl]]].
  - destruct l as [|c l]; simpl in Hl; simplify_eq; [by left|]. eauto.
  - destruct l as [|c l]; simpl in Hl; simplify_eq; [by left|]. eauto.
Qed.

Lemma dotted_name_not_address s : ParseAddr (String "x" (String "." s)) = None.
Proof. reflexivity. Qed.

(** A name under a base, which is not an address. *)
Lemma name_under base : exists name, ParseAddr name = None /\ has_suffix ("." ++ base) name = true /\
  forall b, has_suffix ("." ++ b) base = true -> has_suffix ("." ++ b) name = true.
Proof.
  exists (String "x" (String "." base)). split; [apply dotted_name_not_address|]. split.
  - apply has_suffix_dot. by exists ["x"%char].
  - intros b [l Hl]%has_suffix_dot. apply has_suffix_dot. exists ("x"%char :: dot :: l). simpl. by rewrite Hl.
Qed.

Lemma host_denotes_inhabited h : exists name, host_denotes h name.
Proof.
  unfold host_denotes. destruct (ParseAddr h) as [a|] eqn:Ha; [by exists h|].
  destruct (cut_prefix "*." h) as [base [|]]; [|by exists h].
  destruct (name_under base) as (name & H1 & H2 & _). by exists name.
Qed.

Lemma wildcards_overlap lb rb :
  String.eqb lb rb || has_suffix ("." ++ rb) lb || has_suffix ("." ++ lb) rb = true <->
  exists name, ParseAddr name = None /\ has_suffix ("." ++ lb) name = true /\
    has_suffix ("." ++ rb) name = true.
Proof.
  rewrite !orb_true_iff, String.eqb_eq. split.
  - intros [[->|Hr]|Hl].
    + destruct (name_under rb) as (name & H1 & H2 & _). by exists name.
    + destruct (name_under lb) as (name & H1 & H2 & H3). exists name. auto.
    + destruct (name_under rb) as (name & H1 & H2 & H3). exists name. auto.
  - intros (name & _ & [l Hl]%has_suffix_dot & [r Hr]%has_suffix_dot). rewrite Hl in Hr.
    apply nested_suffixes in Hr as [Heq|[[x Hx]|[x Hx]]].
    + left. left. by apply (inj chars).
    + left. right. apply has_suffix_dot. by exists x.
    + right. apply has_suffix_dot. by exists x.
Qed.

Lemma hostsOverlap_spec left right :
  hostsOverlap left right = true <-> exists name, host_denotes left name /\ host_denotes right name.
Proof.
  unfold hostsOverlap. destruct (String.eqb_spec left right) as [->|Hne].
  { split; [|done]. intros _. destruct (host_denotes_inhabited right) as [name Hn]. by exists name. }
  unfold host_denotes.
  destruct (ParseAddr left) as [a|] eqn:Hl, (ParseAddr right) as [b|] eqn:Hr.
  - rewrite bool_decide_eq_true. split; [intros ->; by exists right|]. intros (n & H1 & H2). congruence.
  - split; [done|]. intros (n & H1 & H2 & _). congruence.
  - split; [done|]. intros (n & [H1 _] & H2). congruence.
  - destruct (cut_prefix "*." left) as [lb [|]], (cut_prefix "*." right) as [rb [|]]; simpl.
    + rewrite wildcards_overlap. split; intros (n & H); exists n; tauto.
    + split; [intros H; by exists right|]. by intros (n & [_ H] & [_ ->]).
    + split; [intros H; by exists left|]. by intros (n & [_ ->] & [_ H]).
    + split; [done|]. intros (n & [_ ->] & [_ ->]). done.
Qed.

Lemma portSetsOverlap_spec l r : Forall range_ok l -> Forall range_ok r ->
  portSetsOverlap l r = true <-> exists p, covers l p /\ covers r p.
Proof.
  intros Hl Hr. rewrite Forall_forall in Hl, Hr. unfold portSetsOverlap. rewrite existsb_exists.
  setoid_rewrite existsb_exists. setoid_rewrite andb_true_iff. setoid_rewrite Z.leb_le.
  setoid_rewrite <- list_elem_of_In. split.
  - intros (a & Ha & b & Hb & H1 & H2). specialize (Hl a Ha). specialize (Hr b Hb).
    unfold range_ok in *. exists (Z.max (PortRange.First a) (PortRange.First b)).
    split; [exists a|exists b]; (split; [done|]); unfold in_port; lia.
  - intros (p & (a & Ha & Pa) & (b & Hb & Pb)). exists a. split; [done|]. exists b. split; [done|].
    unfold in_port in *. lia.
Qed.

(** ** Conflicts: what an empty report promises *)

(** What a decision is about. *)
Inductive subject :=
| Reach (name : string) (port : Z)
| RouteTo (a : Addr)
| Perform (capability : Capability) (target : string)
| Use (reference : string).

(** The subjects a selector stands for. *)
Definition selects (s : Selector.t) (x : subject) : Prop :=
  match x with
  | Reach name port => Selector.Kind s = SelectorEndpoint /\ exists e, Selector.Endpoint s = Some e /\
      host_denotes (EndpointSelector.Host e) name /\ covers (EndpointSelector.Ports e) port
  | RouteTo a => Selector.Kind s = SelectorRoute /\ exists r p, Selector.Route s = Some r /\
      ParsePrefix (RouteSelector.Prefix r) = Some p /\ wf_addr a /\ Contains p a = true
  | Perform capability target => Selector.Kind s = SelectorAction /\ exists a, Selector.Action s = Some a /\
      ActionSelector.Capability a = capability /\ ActionSelector.Target a = target
  | Use reference => Selector.Kind s = SelectorCredential /\ exists c, Selector.Credential s = Some c /\
      CredentialSelector.Reference c = reference
  end.

(** What a rule says of its subjects, beside the effect: how they are reached, or
    who owns them. *)
Definition handling (s : Selector.t) : list string :=
  match Selector.Endpoint s, Selector.Route s, Selector.Credential s with
  | Some e, _, _ => [EndpointSelector.Protocol e; EndpointSelector.TLS e; EndpointSelector.Path e]
  | _, Some r, _ => [RouteSelector.Path r]
  | _, _, Some c => [CredentialSelector.Owner c]
  | _, _, _ => []
  end.

(** Port bounds are [uint16] values. *)
Definition typed_ports (s : Selector.t) : Prop :=
  forall e r, Selector.Endpoint s = Some e -> r ∈ EndpointSelector.Ports e ->
    0 <= PortRange.First r /\ PortRange.Last r <= max_u16.

(** The four shapes of a valid selector. *)
Inductive shape (s : Selector.t) : Prop :=
| shape_endpoint e : Selector.Kind s = SelectorEndpoint -> Selector.Endpoint s = Some e ->
    Selector.Route s = None -> Selector.Action s = None -> Selector.Credential s = None ->
    forallb PortRange_valid (EndpointSelector.Ports e) = true -> shape s
| shape_route r p : Selector.Kind s = SelectorRoute -> Selector.Endpoint s = None ->
    Selector.Route s = Some r -> Selector.Action s = None -> Selector.Credential s = None ->
    ParsePrefix (RouteSelector.Prefix r) = Some p -> shape s
| shape_action a : Selector.Kind s = SelectorAction -> Selector.Endpoint s = None ->
    Selector.Route s = None -> Selector.Action s = Some a -> Selector.Credential s = None -> shape s
| shape_credential c : Selector.Kind s = SelectorCredential -> Selector.Endpoint s = None ->
    Selector.Route s = None -> Selector.Action s = None -> Selector.Credential s = Some c -> shape s.

Lemma Selector_Validate_shape s : Selector_Validate s = Ok tt -> shape s.
Proof.
  destruct s as [id kind e r a c]. unfold Selector_Validate. cbn [Selector.ID Selector.Kind Selector.Endpoint
    Selector.Route Selector.Action Selector.Credential].
  intros H. destruct (_ || _); [done|]. destruct (negb (_ =? 1)) eqn:Hn; [done|]. bool_prop.
  destruct e as [e|], r as [r|], a as [a|], c as [c|]; cbn [present] in Hn; try lia; clear Hn;
    destruct (String.eqb_spec kind SelectorEndpoint) as [->|];
    try destruct (String.eqb_spec kind SelectorRoute) as [->|];
    try destruct (String.eqb_spec kind SelectorAction) as [->|];
    try destruct (String.eqb_spec kind SelectorCredential) as [->|]; cbn [holds_valid] in H; try done.
  - destruct (EndpointSelector_valid e) eqn:He; [|done]. unfold EndpointSelector_valid in He.
    destruct (_ || _); [done|]. by apply (shape_endpoint _ e).
  - unfold RouteSelector_valid in H. destruct (ParsePrefix _) as [p|] eqn:Hp; [|done].
    by apply (shape_route _ r p).
  - by apply (shape_action _ a).
  - by apply (shape_credential _ c).
Qed.

Lemma typed_ports_ok s e : typed_ports s -> Selector.Endpoint s = Some e ->
  forallb PortRange_valid (EndpointSelector.Ports e) = true -> Forall range_ok (EndpointSelector.Ports e).
Proof.
  intros Ht He Hv. apply Forall_forall. intros r Hr. destruct (Ht e r He Hr).
  rewrite forallb_forall in Hv. apply PortRange_valid_ok; [|done..]. by apply Hv, list_elem_of_In.
Qed.

(** Normalization is idempotent and keeps the other selectors. *)
Lemma normalizeSelector_idemp s : shape s -> typed_ports s ->
  normalizeSelector (normalizeSelector s) = normalizeSelector s.
Proof.
  intros Hs Ht. unfold normalizeSelector. destruct (Selector.Endpoint s) as [e|] eqn:He; [|by rewrite He].
  simpl. do 3 f_equal. apply normalizePorts_idemp. eapply typed_ports_ok; [done..|]. by destruct Hs; simplify_eq.
Qed.

Lemma normalizeSelector_action s : Selector.Action (normalizeSelector s) = Selector.Action s /\
  Selector.Kind (normalizeSelector s) = Selector.Kind s /\ Selector.ID (normalizeSelector s) = Selector.ID s.
Proof. unfold normalizeSelector. by destruct (Selector.Endpoint s). Qed.

Ltac unfold_kinds := unfold SelectorEndpoint, SelectorRoute, SelectorAction, SelectorCredential in *.

Ltac other_kind := split; [done|]; intros ([| | |] & Hl & Hr); simpl in Hl, Hr;
  destruct Hl as [Hl _], Hr as [Hr _]; congruence.

(** Selectors overlap exactly when they share a subject. *)
Lemma selectorsOverlap_spec l r : shape l -> shape r -> typed_ports l -> typed_ports r ->
  selectorsOverlap l r = true <-> exists x, selects l x /\ selects r x.
Proof.
  intros Sl Sr Tl Tr. unfold selectorsOverlap.
  destruct Sl as [e K E R A C V|e p K E R A C V|e K E R A C|e K E R A C],
    Sr as [e' K' E' R' A' C' V'|e' p' K' E' R' A' C' V'|e' K' E' R' A' C'|e' K' E' R' A' C'];
    rewrite K, K'; unfold_kinds; simpl; try other_kind.
  - rewrite E, E', andb_true_iff, hostsOverlap_spec, portSetsOverlap_spec by eauto using typed_ports_ok.
    split.
    + intros [(n & ? & ?) (q & ? & ?)]. exists (Reach n q). simpl. unfold_kinds. naive_solver.
    + intros ([n q| | |] & Hl & Hr); simpl in *; unfold_kinds; naive_solver congruence.
  - rewrite R, R', V, V'. destruct (ParsePrefix_wf _ _ V) as [W I], (ParsePrefix_wf _ _ V') as [W' I'].
    rewrite Overlaps_spec by done. split.
    + intros (a & ? & ? & ?). exists (RouteTo a). simpl. unfold_kinds. naive_solver.
    + intros ([|a| |] & Hl & Hr); simpl in *; unfold_kinds; naive_solver congruence.
  - rewrite A, A', andb_true_iff, !String.eqb_eq. split.
    + intros [? ?]. exists (Perform (ActionSelector.Capability e) (ActionSelector.Target e)). simpl. unfold_kinds. naive_solver.
    + intros ([| |c t|] & Hl & Hr); simpl in *; unfold_kinds; naive_solver congruence.
  - rewrite C, C', String.eqb_eq. split.
    + intros ?. exists (Use (CredentialSelector.Reference e)). simpl. unfold_kinds. naive_solver.
    + intros ([| | |f] & Hl & Hr); simpl in *; unfold_kinds; naive_solver congruence.
Qed.

(** Two rules that agree on what they share. *)
Definition agree (l r : Domain * Rule.t) : Prop :=
  if bool_decide (l.1 = r.1)
  then Rule.Effect l.2 = Rule.Effect r.2 /\ handling (Rule.Selector l.2) = handling (Rule.Selector r.2)
  else Selector.Kind (Rule.Selector l.2) = SelectorAction.

Lemma classifyConflict_spec l r : shape (Rule.Selector l.2) -> shape (Rule.Selector r.2) ->
  classifyConflict l.1 l.2 r.1 r.2 = None <->
  (selectorsOverlap (Rule.Selector l.2) (Rule.Selector r.2) = true -> agree l r).
Proof.
  intros Sl Sr. unfold classifyConflict, agree.
  destruct (selectorsOverlap _ _) eqn:Ho; cbn [negb]; [|naive_solver].
  assert (Selector.Kind (Rule.Selector l.2) = Selector.Kind (Rule.Selector r.2)) as Hk.
  { unfold selectorsOverlap in Ho. destruct (String.eqb_spec (Selector.Kind (Rule.Selector l.2))
      (Selector.Kind (Rule.Selector r.2))); done. }
  destruct (String.eqb_spec l.1 r.1) as [Hd|Hd]; cbn [negb].
  2:{ rewrite bool_decide_eq_false_2 by done. destruct (String.eqb_spec (Selector.Kind (Rule.Selector l.2))
        SelectorAction); naive_solver. }
  rewrite bool_decide_eq_true_2 by done. unfold handling.
  destruct Sl as [e K E R A C V|e p K E R A C V|e K E R A C|e K E R A C],
    Sr as [e' K' E' R' A' C' V'|e' p' K' E' R' A' C' V'|e' K' E' R' A' C'|e' K' E' R' A' C'];
    rewrite K, K' in Hk; unfold_kinds; try discriminate Hk; rewrite K; simpl;
    rewrite ?E, ?E', ?R, ?R', ?C, ?C'; cbn [values_differ];
    destruct (String.eqb_spec (Rule.Effect l.2) (Rule.Effect r.2)); cbn [negb orb];
    repeat match goal with |- context [String.eqb ?a ?b] => destruct (String.eqb_spec a b) end;
    cbn [negb orb]; (split; [intros ? _|intros Hagree; specialize (Hagree eq_refl)]);
    first [naive_solver|split; congruence].
Qed.

(** The pair loop only leaves no code when no pair conflicts. *)
Lemma add_code_nonempty code acc : (add_code code acc).1 <> [].
Proof.
  destruct acc as [codes truncated]. unfold add_code. destruct (MaxConflictCodes <=? len codes) eqn:Hm.
  - bool_prop. simpl. intros ->. unfold MaxConflictCodes in Hm. simpl in Hm. lia.
  - simpl. destruct (contains_string codes code) eqn:Hc; [|by destruct codes]. by destruct codes.
Qed.

Lemma scan_pair_nil l r acc : (scan_pair l r acc).1 = [] <->
  acc.1 = [] /\ classifyConflict l.1 l.2 r.1 r.2 = None.
Proof.
  unfold scan_pair. destruct (classifyConflict _ _ _ _) as [code|]; [|naive_solver].
  split; [|naive_solver]. intros H. by apply add_code_nonempty in H.
Qed.

Lemma scan_row_nil l rules acc : (fold_left (fun a r => scan_pair l r a) rules acc).1 = [] <->
  acc.1 = [] /\ Forall (fun r => classifyConflict l.1 l.2 r.1 r.2 = None) rules.
Proof.
  revert acc. induction rules as [|r rules IH]; intros acc; simpl; [naive_solver|].
  rewrite IH, scan_pair_nil, List.Forall_cons_iff. tauto.
Qed.

Lemma scan_rules_nil rules acc : (scan_rules rules acc).1 = [] <->
  acc.1 = [] /\ ForallOrdPairs (fun l r => classifyConflict l.1 l.2 r.1 r.2 = None) rules.
Proof.
  revert acc. induction rules as [|l rules IH]; intros acc; simpl.
  - split; [|naive_solver]. intros; split; [done|constructor].
  - rewrite IH, scan_row_nil. split.
    + intros [[? ?] ?]. split; [done|by constructor].
    + intros [? Hp]. inversion Hp; subst. done.
Qed.

(** The rules of the two domains, with their owner. *)
Definition owned_rules (root user : list Rule.t) : list (Domain * Rule.t) :=
  (map (fun r => (DomainRoot, r)) root ++ map (fun r => (DomainUser, r)) user)%list.

Lemma find_conflicts_empty root user : ConflictReport_Empty (find_conflicts root user) = true <->
  ForallOrdPairs (fun l r => classifyConflict l.1 l.2 r.1 r.2 = None) (owned_rules root user).
Proof.
  unfold ConflictReport_Empty, find_conflicts. fold (owned_rules root user).
  destruct (scan_rules _ _) as [codes truncated] eqn:Hs. simpl.
  pose proof (scan_rules_nil (owned_rules root user) ([], false)) as Hn. rewrite Hs in Hn. simpl in Hn.
  rewrite Z.eqb_eq. unfold sort_strings. rewrite length_sort_slice. split.
  - intros Hl. apply Hn. destruct codes; [done|simpl in Hl; lia].
  - intros Hp. assert (codes = []) as -> by (by apply Hn). done.
Qed.

(** C33: the conflict scan decides ambiguity. On rules whose selectors are valid
    the report is empty exactly when any two rules that share a subject (a host
    name and port, an address, a capability with a target, a credential) agree:
    rules of one domain have the same effect and handle the subject in the same
    way, and rules of different domains only share actions. *)
Theorem conflict_scan_decides_ambiguity root user :
  Forall (fun r => Selector_Validate (Rule.Selector r) = Ok tt /\ typed_ports (Rule.Selector r)) (root ++ user)%list ->
  ConflictReport_Empty (find_conflicts root user) = true <->
  ForallOrdPairs (fun l r => (exists x, selects (Rule.Selector l.2) x /\ selects (Rule.Selector r.2) x) ->
    agree l r) (owned_rules root user).
Proof.
  intros Hv. rewrite find_conflicts_empty.
  assert (Forall (fun l => shape (Rule.Selector l.2) /\ typed_ports (Rule.Selector l.2)) (owned_rules root user)) as Hs.
  { unfold owned_rules. rewrite Forall_app in Hv. destruct Hv as [H1 H2].
    apply Forall_app. split; apply List.Forall_map; eapply Forall_impl; try eassumption;
      simpl; intros r [? ?]; auto using Selector_Validate_shape. }
  induction (owned_rules root user) as [|l rules IH]; [split; constructor|].
  apply List.Forall_cons_iff in Hs as [[Sl Tl] Hs]. specialize (IH Hs). rewrite Forall_forall in Hs.
  split; intros Hp; inversion Hp as [|? ? Hf Hr]; subst; (constructor; [|by apply IH]);
    rewrite Forall_forall in Hf |- *; intros r Hin; destruct (Hs r Hin) as [Sr Tr]; specialize (Hf r Hin);
    [rewrite <- selectorsOverlap_spec by done; by apply classifyConflict_spec|];
    rewrite classifyConflict_spec by done; rewrite selectorsOverlap_spec by done; done.
Qed.

(** A wildcard rule and a rule for a name under it agree, a route of the user domain
    stands apart. *)
Definition sample_root_rules : list Rule.t :=
  [Rule.mk "r1" "allow" (Selector.mk "s1" SelectorEndpoint
     (Some (EndpointSelector.mk "*.example.com" [PortRange.mk 443 443] "tcp" "required" "physical")) None None None);
   Rule.mk "r2" "allow" (Selector.mk "s2" SelectorEndpoint
     (Some (EndpointSelector.mk "api.example.com" [PortRange.mk 80 8080] "tcp" "required" "physical")) None None None)].
Definition sample_user_rules : list Rule.t :=
  [Rule.mk "r3" "deny" (Selector.mk "s3" SelectorRoute None
     (Some (RouteSelector.mk "10.0.0.0/8" "physical")) None None)].

Lemma conflict_scan_decides_ambiguity_witness :
  ForallOrdPairs (fun l r => (exists x, selects (Rule.Selector l.2) x /\ selects (Rule.Selector r.2) x) ->
    agree l r) (owned_rules sample_root_rules sample_user_rules).
Proof.
  apply conflict_scan_decides_ambiguity; [|vm_compute; reflexivity].
  repeat (apply List.Forall_cons; [split; [vm_compute; reflexivity|]|]); [..|constructor];
    intros e r He Hr; simpl in He; simplify_eq; simpl in Hr;
    apply list_elem_of_singleton in Hr; subst; vm_compute; split; discriminate.
Defined.
