(* ===== verification/PolicySource.v ===== *)
(** * Operator policy source

    [internal/policy/source.go]: the operator's policy, its validation and the
    guards of its YAML decoder. The YAML library is a parameter: a decoder state,
    with the decoding of a document into a node tree and, with known fields only,
    into a source. The node trees and the walk that refuses aliases, anchors and
    repeated keys are modelled. *)

From Stdlib Require Import ZArith Lia Ascii String.
From stdpp Require Import base strings list option sets.
From S2P Require Import Prelude GoTime PolicyModel PolicyValidate.

Open Scope string_scope.
Open Scope Z_scope.

Definition OperatorSourceSchema := "hexroute.operator-policy.v1".
Definition MaxOperatorSourceSize := 256 * 1024.

Module DomainSource.
Record t := mk {
  PolicyGeneration : Z;
  Rules : list Rule.t;
  Leases : list AuthorizationLease.t
}.
#[global] Instance eq_dec : EqDecision t.
Proof. solve_decision. Defined.
End DomainSource.

Module OperatorSource.
Record t := mk {
  Schema : string;
  PolicySchema : Z;
  BundleGeneration : Z;
  ParentBundleGeneration : Z;
  StaticSHA256 : string;
  IssuedAt : string;
  NotBefore : string;
  ExpiresAt : string;
  Root : DomainSource.t;
  User : DomainSource.t
}.
#[global] Instance eq_dec : EqDecision t.
Proof. solve_decision. Defined.
End OperatorSource.

Definition source_DomainPayload (source : OperatorSource.t) (domain : Domain) : result error DomainPayload.t :=
  let payload input :=
    DomainPayload.mk DomainPayloadSchema domain (DomainSource.PolicyGeneration input)
      (DomainSource.Rules input) (DomainSource.Leases input) in
  if String.eqb domain DomainRoot then Ok (payload (OperatorSource.Root source))
  else if String.eqb domain DomainUser then Ok (payload (OperatorSource.User source))
  else Err ErrInvalidOperatorSource.

(** The window guard that sources and snapshots share. *)
Definition window_invalid (issuedAt notBefore expiresAt : option Z) : bool :=
  negb (parsed issuedAt) || negb (parsed notBefore) || negb (parsed expiresAt) ||
  Before (time_of notBefore) (time_of issuedAt) ||
  negb (After (time_of expiresAt) (time_of notBefore)) ||
  (maxPolicyValidity <? Sub (time_of expiresAt) (time_of notBefore)).

Definition payload_invalid (source : OperatorSource.t) (domain : Domain) : bool :=
  match source_DomainPayload source domain with
  | Err _ => true
  | Ok payload => failed (DomainPayload_Validate payload)
  end.

Definition OperatorSource_Validate (source : OperatorSource.t) : result error unit :=
  let issuedAt := parseCanonicalUTC (OperatorSource.IssuedAt source) in
  let notBefore := parseCanonicalUTC (OperatorSource.NotBefore source) in
  let expiresAt := parseCanonicalUTC (OperatorSource.ExpiresAt source) in
  if negb (String.eqb (OperatorSource.Schema source) OperatorSourceSchema) ||
     (OperatorSource.PolicySchema source =? 0) ||
     (OperatorSource.BundleGeneration source =? 0) ||
     (OperatorSource.BundleGeneration source <=? OperatorSource.ParentBundleGeneration source) ||
     negb (validSHA256 (OperatorSource.StaticSHA256 source)) ||
     window_invalid issuedAt notBefore expiresAt
  then Err ErrInvalidOperatorSource
  else if existsb (payload_invalid source) [DomainRoot; DomainUser]
  then Err ErrInvalidOperatorSource
  else Ok tt.

(** ** The YAML walk *)

Inductive NodeKind := DocumentNode | SequenceNode | MappingNode | ScalarNode | AliasNode.

#[global] Instance NodeKind_eq_dec : EqDecision NodeKind.
Proof. solve_decision. Defined.

(** [yaml.Node]: what the walk reads of it. *)
Inductive Node := mkNode {
  node_Kind : NodeKind;
  node_Tag : string;
  node_Anchor : string;
  node_Value : string;
  node_Content : list Node
}.

(** The keys of a mapping: the nodes at even positions. *)
Fixpoint even_positions {A} (l : list A) : list A :=
  match l with
  | [] => []
  | [x] => [x]
  | x :: _ :: l' => x :: even_positions l'
  end.

Definition string_key (key : Node) : bool :=
  bool_decide (node_Kind key = ScalarNode) && String.eqb (node_Tag key) "!!str".

Definition mapping_refused (content : list Node) : bool :=
  negb (Z.of_nat (length content) mod 2 =? 0) ||
  negb (forallb string_key (even_positions content) &&
        distinct_strings (map node_Value (even_positions content))).

(** [None] stands for the nil error. *)
Fixpoint rejectUnsafeYAML (node : Node) : option error :=
  if bool_decide (node_Kind node = AliasNode) || negb (String.eqb (node_Anchor node) "")
  then Some ErrInvalidOperatorSource
  else if bool_decide (node_Kind node = MappingNode) && mapping_refused (node_Content node)
  then Some ErrInvalidOperatorSource
  else
    (fix children (l : list Node) : option error :=
       match l with
       | [] => None
       | child :: l' => match rejectUnsafeYAML child with Some e => Some e | None => children l' end
       end) (node_Content node).

(** ** The decoder *)

Inductive decoded (A : Type) := Decoded (a : A) | EOF | DecodeError.
Arguments Decoded {A} a.
Arguments EOF {A}.
Arguments DecodeError {A}.

(** The YAML library. *)
Class YAML := {
  Decoder : Type;
  NewDecoder : string -> Decoder;
  decode_node : Decoder -> decoded Node * Decoder;
  decode_known_source : Decoder -> decoded OperatorSource.t * Decoder
}.

(** A reader: the bytes it delivers, and whether it ends in an error. *)
Record Reader := mkReader { data : string; read_fails : bool }.

(** [io.ReadAll(io.LimitReader(reader, limit))]: the limit hides what follows. *)
Definition read_limited (r : Reader) (limit : Z) : option string :=
  if limit <=? slen (data r) then Some (String.substring 0 (Z.to_nat limit) (data r))
  else if read_fails r then None else Some (data r).

Section decode.
Context `{YAML}.

Definition DecodeOperatorSource (reader : Reader) : result error OperatorSource.t :=
  match read_limited reader (MaxOperatorSourceSize + 1) with
  | None => Err ErrInvalidOperatorSource
  | Some content =>
      if (slen content =? 0) || (MaxOperatorSourceSize <? slen content)
      then Err ErrInvalidOperatorSource
      else match decode_node (NewDecoder content) with
      | (Decoded document, decoder) =>
          if negb (Z.of_nat (length (node_Content document)) =? 1) then Err ErrInvalidOperatorSource
          else if bool_decide (rejectUnsafeYAML document <> None) then Err ErrInvalidOperatorSource
          else match fst (decode_node decoder) with
          | EOF =>
              match decode_known_source (NewDecoder content) with
              | (Decoded source, typedDecoder) =>
                  match fst (decode_node typedDecoder) with
                  | EOF => match OperatorSource_Validate source with
                           | Ok _ => Ok source
                           | Err e => Err e
                           end
                  | _ => Err ErrInvalidOperatorSource
                  end
              | _ => Err ErrInvalidOperatorSource
              end
          | _ => Err ErrInvalidOperatorSource
          end
      | _ => Err ErrInvalidOperatorSource
      end
  end.
End decode.

(** ** What the walk establishes *)

(** The nodes of a tree. *)
Inductive occurs (n : Node) : Node -> Prop :=
| occurs_here : occurs n n
| occurs_below child m : child ∈ node_Content m -> occurs n child -> occurs n m.

(** A node without alias and anchor, whose mapping keys are distinct strings. *)
Definition plain_node (n : Node) : Prop :=
  node_Kind n <> AliasNode /\ node_Anchor n = "" /\
  (node_Kind n = MappingNode -> Z.of_nat (length (node_Content n)) mod 2 = 0 /\
     Forall (fun k => node_Kind k = ScalarNode /\ node_Tag k = "!!str") (even_positions (node_Content n)) /\
     NoDup (map node_Value (even_positions (node_Content n)))).

(** The induction principle of the trees. *)
Lemma Node_tree_ind (P : Node -> Prop) :
  (forall n, Forall P (node_Content n) -> P n) -> forall n, P n.
Proof.
  intros HP. fix IH 1. intros [k t a v content]. apply HP. simpl.
  induction content as [|c content IHc]; constructor; [apply IH|apply IHc].
Qed.

Lemma mapping_refused_false content : mapping_refused content = false <->
  Z.of_nat (length content) mod 2 = 0 /\
  Forall (fun k => node_Kind k = ScalarNode /\ node_Tag k = "!!str") (even_positions content) /\
  NoDup (map node_Value (even_positions content)).
Proof.
  unfold mapping_refused. rewrite orb_false_iff, !negb_false_iff, andb_true_iff, Z.eqb_eq,
    distinct_strings_NoDup, forallb_forall, List.Forall_forall.
  unfold string_key. setoid_rewrite andb_true_iff.
  setoid_rewrite bool_decide_eq_true. setoid_rewrite String.eqb_eq. done.
Qed.

Lemma rejectUnsafeYAML_unfold n : rejectUnsafeYAML n = None <->
  plain_node n /\ Forall (fun c => rejectUnsafeYAML c = None) (node_Content n).
Proof.
  destruct n as [k t a v content]. unfold plain_node. cbn [rejectUnsafeYAML node_Kind node_Anchor node_Content].
  destruct (bool_decide (k = AliasNode) || negb (String.eqb a "")) eqn:Ha.
  { apply orb_true_iff in Ha as [Hk|Hk]; bool_prop; naive_solver. }
  bool_prop. destruct (bool_decide (k = MappingNode) && mapping_refused content) eqn:Hm.
  { apply andb_true_iff in Hm as [Hk Hm]. bool_prop. rewrite <- mapping_refused_false. naive_solver congruence. }
  assert (k = MappingNode -> mapping_refused content = false) as Hmap.
  { intros ->. by rewrite bool_decide_eq_true_2 in Hm by done. }
  rewrite mapping_refused_false in Hmap. clear Hm.
  enough (forall l, (fix children (l : list Node) : option error :=
       match l with [] => None | c :: l' => match rejectUnsafeYAML c with Some e => Some e | None => children l' end
       end) l = None <-> Forall (fun c => rejectUnsafeYAML c = None) l) as Hc by (rewrite Hc; naive_solver).
  clear. induction l as [|c l IH]; [by split|]. rewrite List.Forall_cons_iff, <- IH.
  destruct (rejectUnsafeYAML c); naive_solver.
Qed.

(** The YAML walk accepts exactly the trees all of whose nodes are plain: no
    alias and no anchor at any depth, and every mapping, however nested, has
    distinct plain string keys. *)
Theorem unsafe_yaml_refused n :
  rejectUnsafeYAML n = None <-> forall m, occurs m n -> plain_node m.
Proof.
  induction n as [n IH] using Node_tree_ind. rewrite rejectUnsafeYAML_unfold. rewrite Forall_forall in IH.
  split.
  - intros [Hp Hc] m Hm. rewrite Forall_forall in Hc. destruct Hm as [|child n Hin Hm]; [done|].
    by apply (proj1 (IH child Hin) (Hc child Hin)).
  - intros Hall. split; [apply Hall; constructor|]. apply Forall_forall. intros c Hc.
    apply IH; [done|]. intros m Hm. apply Hall. by apply (occurs_below m c).
Qed.

Lemma OperatorSource_Validate_Ok source : OperatorSource_Validate source = Ok tt ->
  forall domain, domain = DomainRoot \/ domain = DomainUser ->
  exists payload, source_DomainPayload source domain = Ok payload /\ DomainPayload_Validate payload = Ok tt /\
    DomainPayload.Domain payload = domain.
Proof.
  unfold OperatorSource_Validate. intros Hv domain Hd. inv_result. simpl in *. bool_prop.
  assert (payload_invalid source domain = false) as Hp by (by destruct Hd; subst).
  unfold payload_invalid in Hp. destruct (source_DomainPayload source domain) as [payload|] eqn:Hs; [|done].
  exists payload. apply failed_unit in Hp. split_and!; [done..|].
  unfold source_DomainPayload in Hs. destruct Hd; subst; simpl in Hs; by simplify_eq.
Qed.
