(* ===== verification/PolicyEnvelope.v ===== *)
(** * The compiled safety envelope

    [internal/policy/envelope.go]: the boundary of each domain that is compiled
    into the program, its validation and the check of an operator source against
    it. The theorems say what a source within the envelope cannot contain. *)

From Stdlib Require Import ZArith Lia Ascii String.
From stdpp Require Import base strings list option sets.
From S2P Require Import Prelude GoTime PolicyModel PolicyValidate PolicyCanonical PolicySelector PolicySource.

Open Scope string_scope.
Open Scope Z_scope.

Definition SafetyEnvelopeSchema := "hexroute.policy-envelope.v1".

Abbreviation ProtectedField := string (only parsing).
Definition ProtectedDomainIdentity : ProtectedField := "domain_identity".
Definition ProtectedUIDGID : ProtectedField := "uid_gid".
Definition ProtectedSocketIdentity : ProtectedField := "socket_identity".
Definition ProtectedLaunchdIdentity : ProtectedField := "launchd_identity".
Definition ProtectedExecutableIdentity : ProtectedField := "executable_identity".
Definition ProtectedStorageRoot : ProtectedField := "storage_root".
Definition ProtectedCredentialOwnership : ProtectedField := "credential_ownership".
Definition ProtectedActionAllowlist : ProtectedField := "action_allowlist".
Definition ProtectedNamespace : ProtectedField := "namespace".
Definition ProtectedSignerFingerprint : ProtectedField := "signer_fingerprint".
Definition ProtectedSchemaRange : ProtectedField := "schema_range".

Module DomainEnvelope.
Record t := mk {
  Domain : Domain;
  NamespacePrefix : string;
  AllowedCapabilities : list Capability;
  AllowedSelectorKinds : list SelectorKind;
  AllowedTargets : list string;
  DeniedSelectors : list Selector.t
}.
#[global] Instance eq_dec : EqDecision t.
Proof. solve_decision. Defined.
End DomainEnvelope.

Module SafetyEnvelope.
Record t := mk {
  Schema : string;
  ProtectedFields : list ProtectedField;
  Root : DomainEnvelope.t;
  User : DomainEnvelope.t
}.
#[global] Instance eq_dec : EqDecision t.
Proof. solve_decision. Defined.
End SafetyEnvelope.

Definition DefaultSafetyEnvelope : SafetyEnvelope.t :=
  SafetyEnvelope.mk SafetyEnvelopeSchema
    [ProtectedDomainIdentity; ProtectedUIDGID; ProtectedSocketIdentity; ProtectedLaunchdIdentity;
     ProtectedExecutableIdentity; ProtectedStorageRoot; ProtectedCredentialOwnership;
     ProtectedActionAllowlist; ProtectedNamespace; ProtectedSignerFingerprint; ProtectedSchemaRange]
    (DomainEnvelope.mk DomainRoot "root."
       [CapabilityOperatorResume; CapabilityPritunlRecovery; CapabilityTunnelOwnership]
       [SelectorAction]
       ["codex"; "network"; "pritunl"; "routes"; "runtime"; "telegram"; "tunnel"] [])
    (DomainEnvelope.mk DomainUser "user."
       [CapabilityOperatorResume; CapabilityPritunlRecovery] [SelectorAction] ["pritunl"] []).

(** [containsCapability], [containsSelectorKind] and [containsString] are one
    search; the three [hasDuplicate] functions are one scan. *)
Definition hasDuplicateStrings (values : list string) : bool := negb (distinct_strings values).

Definition compiledDenyPrefix (domain : Domain) : string := "compiled." ++ domain ++ ".".

(** [strings.TrimSuffix(value, ".")] *)
Definition trim_suffix (p s : string) : string :=
  if has_suffix p s then of_chars (take (length (chars s) - length (chars p)) (chars s)) else s.

Definition validNamespacePrefix (value : string) : bool :=
  (2 <=? slen value) && (slen value <=? MaxIdentifierBytes) &&
  has_suffix "." value && validIdentifier (trim_suffix "." value).

Definition selectorWithinEnvelope (s : Selector.t) (boundary : DomainEnvelope.t) : bool :=
  if negb (contains_string (DomainEnvelope.AllowedSelectorKinds boundary) (Selector.Kind s)) then false
  else if String.eqb (Selector.Kind s) SelectorAction then
    match Selector.Action s with
    | Some a => contains_string (DomainEnvelope.AllowedCapabilities boundary) (ActionSelector.Capability a) &&
                contains_string (DomainEnvelope.AllowedTargets boundary) (ActionSelector.Target a)
    | None => false
    end
  else if String.eqb (Selector.Kind s) SelectorCredential then
    match Selector.Credential s with
    | Some c => String.eqb (CredentialSelector.Owner c) (DomainEnvelope.Domain boundary)
    | None => false
    end
  else true.

Definition payloadWithinEnvelope (payload : DomainPayload.t) (boundary : DomainEnvelope.t) : bool :=
  let namespace := has_prefix (DomainEnvelope.NamespacePrefix boundary) in
  if negb (String.eqb (DomainPayload.Domain payload) (DomainEnvelope.Domain boundary)) ||
     failed (DomainPayload_Validate payload) then false
  else
    forallb (fun r => namespace (Rule.ID r) && namespace (Selector.ID (Rule.Selector r)) &&
                      contains_string (DomainEnvelope.AllowedSelectorKinds boundary)
                        (Selector.Kind (Rule.Selector r)) &&
                      selectorWithinEnvelope (Rule.Selector r) boundary) (DomainPayload.Rules payload) &&
    forallb (fun l => namespace (AuthorizationLease.ID l) &&
                      String.eqb (AuthorizationLease.Domain l) (DomainEnvelope.Domain boundary) &&
                      contains_string (DomainEnvelope.AllowedCapabilities boundary)
                        (AuthorizationLease.Capability l) &&
                      forallb namespace (AuthorizationLease.SelectorIDs l)) (DomainPayload.Leases payload).

Definition protected_fields_valid (fields required : list ProtectedField) : bool :=
  (len fields =? len required) && distinct_strings fields && forallb (contains_string fields) required.

Section envelope.
Context `{JSON} `{!Codec Selector.t} `{!Codec keyedRule.t} `{!Codec SafetyEnvelope.t}.

(** The loop over the denied selectors, with the identifiers and semantic keys seen. *)
Fixpoint denied_valid (envelope : DomainEnvelope.t) (denyIDs denySemantics : list string)
    (selectors : list Selector.t) : bool :=
  match selectors with
  | [] => true
  | s :: selectors' =>
      if failed (Selector_Validate s) ||
         negb (has_prefix (compiledDenyPrefix (DomainEnvelope.Domain envelope)) (Selector.ID s)) ||
         negb (selectorWithinEnvelope s envelope) then false
      else if contains_string denyIDs (Selector.ID s) then false
      else match selectorSemanticKey s with
           | Err _ => false
           | Ok semantic =>
               if contains_string denySemantics semantic then false
               else denied_valid envelope (Selector.ID s :: denyIDs) (semantic :: denySemantics) selectors'
           end
  end.

Definition DomainEnvelope_valid (e : DomainEnvelope.t) : bool :=
  if negb (Domain_Valid (DomainEnvelope.Domain e)) ||
     negb (validNamespacePrefix (DomainEnvelope.NamespacePrefix e)) ||
     (len (DomainEnvelope.AllowedCapabilities e) =? 0) ||
     (len (DomainEnvelope.AllowedSelectorKinds e) =? 0) ||
     (len (DomainEnvelope.AllowedTargets e) =? 0) ||
     hasDuplicateStrings (DomainEnvelope.AllowedCapabilities e) ||
     hasDuplicateStrings (DomainEnvelope.AllowedSelectorKinds e) ||
     hasDuplicateStrings (DomainEnvelope.AllowedTargets e)
  then false
  else if negb (forallb Capability_Valid (DomainEnvelope.AllowedCapabilities e)) then false
  else if negb (forallb SelectorKind_Valid (DomainEnvelope.AllowedSelectorKinds e)) then false
  else if negb (forallb validTarget (DomainEnvelope.AllowedTargets e)) then false
  else if MaxRules <? len (DomainEnvelope.DeniedSelectors e) then false
  else denied_valid e [] [] (DomainEnvelope.DeniedSelectors e).

Definition SafetyEnvelope_Validate (e : SafetyEnvelope.t) : result error unit :=
  let root := SafetyEnvelope.Root e in
  let user := SafetyEnvelope.User e in
  if negb (String.eqb (SafetyEnvelope.Schema e) SafetyEnvelopeSchema) ||
     negb (DomainEnvelope_valid root) || negb (String.eqb (DomainEnvelope.Domain root) DomainRoot) ||
     negb (DomainEnvelope_valid user) || negb (String.eqb (DomainEnvelope.Domain user) DomainUser) ||
     String.eqb (DomainEnvelope.NamespacePrefix root) (DomainEnvelope.NamespacePrefix user)
  then Err ErrInvalidSafetyEnvelope
  else if negb (protected_fields_valid (SafetyEnvelope.ProtectedFields e)
                  (SafetyEnvelope.ProtectedFields DefaultSafetyEnvelope))
  then Err ErrInvalidSafetyEnvelope
  else Ok tt.

Definition SafetyEnvelope_SHA256 (e : SafetyEnvelope.t) : result error string :=
  _ ← SafetyEnvelope_Validate e; d ← CanonicalSHA256 e; Ok d.1.

(** One round of the boundary loop. *)
Definition boundary_holds (source : OperatorSource.t) (boundary : DomainEnvelope.t) : bool :=
  match source_DomainPayload source (DomainEnvelope.Domain boundary) with
  | Err _ => false
  | Ok payload => payloadWithinEnvelope payload boundary
  end.

Definition ValidateAgainstEnvelope (source : OperatorSource.t) (e : SafetyEnvelope.t) : result error unit :=
  if failed (OperatorSource_Validate source) || failed (SafetyEnvelope_Validate e)
  then Err ErrOutsideSafetyEnvelope
  else match SafetyEnvelope_SHA256 e with
  | Err _ => Err ErrOutsideSafetyEnvelope
  | Ok digest =>
      if negb (String.eqb (OperatorSource.StaticSHA256 source) digest) then Err ErrOutsideSafetyEnvelope
      else if negb (forallb (boundary_holds source) [SafetyEnvelope.Root e; SafetyEnvelope.User e])
      then Err ErrOutsideSafetyEnvelope
      else Ok tt
  end.

(** ** What the check establishes *)

Lemma denied_valid_spec e ids keys selectors s : denied_valid e ids keys selectors = true ->
  s ∈ selectors ->
  Selector_Validate s = Ok tt /\ selectorWithinEnvelope s e = true /\
  has_prefix (compiledDenyPrefix (DomainEnvelope.Domain e)) (Selector.ID s) = true.
Proof.
  revert ids keys. induction selectors as [|x selectors IH]; intros ids keys Hv Hs; [by apply elem_of_nil in Hs|].
  simpl in Hv. destruct (_ || _) eqn:Hg; [done|]. bool_prop.
  destruct (contains_string ids _); [done|]. destruct (selectorSemanticKey x); [|done].
  destruct (contains_string keys _); [done|].
  apply elem_of_cons in Hs as [->|Hs]; [|by eapply IH]. by rewrite <- failed_unit.
Qed.

Lemma DomainEnvelope_valid_denied e s : DomainEnvelope_valid e = true ->
  s ∈ DomainEnvelope.DeniedSelectors e ->
  Selector_Validate s = Ok tt /\ selectorWithinEnvelope s e = true /\
  has_prefix (compiledDenyPrefix (DomainEnvelope.Domain e)) (Selector.ID s) = true.
Proof. unfold DomainEnvelope_valid. intros Hv. inv_result. by apply (denied_valid_spec _ [] []). Qed.

Definition envelope_of (e : SafetyEnvelope.t) (domain : Domain) : DomainEnvelope.t :=
  if String.eqb domain DomainRoot then SafetyEnvelope.Root e else SafetyEnvelope.User e.

Lemma SafetyEnvelope_Validate_Ok e domain : SafetyEnvelope_Validate e = Ok tt ->
  domain = DomainRoot \/ domain = DomainUser ->
  DomainEnvelope_valid (envelope_of e domain) = true /\ DomainEnvelope.Domain (envelope_of e domain) = domain.
Proof.
  unfold SafetyEnvelope_Validate. intros Hv Hd. inv_result. bool_prop.
  by destruct Hd; subst; unfold envelope_of; simpl.
Qed.

Lemma ValidateAgainstEnvelope_Ok source e : ValidateAgainstEnvelope source e = Ok tt ->
  OperatorSource_Validate source = Ok tt /\ SafetyEnvelope_Validate e = Ok tt /\
  forall domain, domain = DomainRoot \/ domain = DomainUser ->
  exists payload, source_DomainPayload source domain = Ok payload /\
    payloadWithinEnvelope payload (envelope_of e domain) = true.
Proof.
  unfold ValidateAgainstEnvelope. intros Hv. inv_result. simpl in *. bool_prop.
  rewrite failed_unit in *. split_and!; [done..|]. intros domain Hd.
  destruct (SafetyEnvelope_Validate_Ok e domain) as [_ Hn]; [done..|].
  assert (boundary_holds source (envelope_of e domain) = true) as Hb.
  { destruct Hd; subst domain; done. }
  unfold boundary_holds in Hb. rewrite Hn in Hb.
  destruct (source_DomainPayload source domain) as [payload|]; [|done]. by exists payload.
Qed.

Lemma payloadWithinEnvelope_Ok payload boundary : payloadWithinEnvelope payload boundary = true ->
  DomainPayload_Validate payload = Ok tt /\
  (forall r, r ∈ DomainPayload.Rules payload ->
     selectorWithinEnvelope (Rule.Selector r) boundary = true /\
     has_prefix (DomainEnvelope.NamespacePrefix boundary) (Selector.ID (Rule.Selector r)) = true) /\
  (forall l, l ∈ DomainPayload.Leases payload ->
     AuthorizationLease.Capability l ∈ DomainEnvelope.AllowedCapabilities boundary).
Proof.
  unfold payloadWithinEnvelope. destruct (_ || _) eqn:Hg; [done|]. intros [Hr Hl]%andb_true_iff. bool_prop.
  split; [by apply failed_unit|]. rewrite forallb_forall in Hr, Hl.
  split; intros x Hx%list_elem_of_In.
  - specialize (Hr x Hx). simpl in Hr. by bool_prop.
  - specialize (Hl x Hx). simpl in Hl. bool_prop. by apply contains_string_spec.
Qed.
End envelope.
