(* ===== verification/PolicyCompose.v ===== *)
(** * Composition of the effective policy

    [internal/policy/composition.go]: rules are normalized and merged by their
    semantic key, rules without an activating lease and rules that overlap a
    compiled denial are dropped, the compiled denials are added, and leases are
    rewritten to the surviving selectors.

    [normalizeLeases] builds each new list of selector identifiers in the backing
    array of the lease it reads. A lease of the caller keeps its length over that
    array, so its identifiers change too. The functions here therefore return the
    leases, and the source, as they are after the call ([overwrite]) beside the
    result. *)

From Stdlib Require Import ZArith Lia Ascii String Sorted.
From stdpp Require Import base strings list option sets gmap.
From S2P Require Import Prelude GoTime GoNetip PolicyModel PolicyValidate PolicyCanonical.
From S2P Require Import PolicySelector PolicySource PolicyEnvelope PolicyAuthz.

Open Scope string_scope.
Open Scope Z_scope.

Definition EffectiveSnapshotSchema := "hexroute.effective-policy.v1".

Module EffectiveSnapshot.
Record t := mk {
  Schema : string;
  PolicySchema : Z;
  BundleGeneration : Z;
  ParentBundleGeneration : Z;
  StaticSHA256 : string;
  IssuedAt : string;
  NotBefore : string;
  ExpiresAt : string;
  Root : DomainPayload.t;
  User : DomainPayload.t
}.
#[global] Instance eq_dec : EqDecision t.
Proof. solve_decision. Defined.
End EffectiveSnapshot.

Definition EffectiveSnapshot_Validate (s : EffectiveSnapshot.t) : result error unit :=
  let issuedAt := parseCanonicalUTC (EffectiveSnapshot.IssuedAt s) in
  let notBefore := parseCanonicalUTC (EffectiveSnapshot.NotBefore s) in
  let expiresAt := parseCanonicalUTC (EffectiveSnapshot.ExpiresAt s) in
  let root := EffectiveSnapshot.Root s in
  let user := EffectiveSnapshot.User s in
  if negb (String.eqb (EffectiveSnapshot.Schema s) EffectiveSnapshotSchema) ||
     (EffectiveSnapshot.PolicySchema s =? 0) ||
     (EffectiveSnapshot.BundleGeneration s =? 0) ||
     (EffectiveSnapshot.BundleGeneration s <=? EffectiveSnapshot.ParentBundleGeneration s) ||
     negb (validSHA256 (EffectiveSnapshot.StaticSHA256 s)) ||
     window_invalid issuedAt notBefore expiresAt ||
     failed (DomainPayload_Validate root) || negb (String.eqb (DomainPayload.Domain root) DomainRoot) ||
     failed (DomainPayload_Validate user) || negb (String.eqb (DomainPayload.Domain user) DomainUser)
  then Err ErrInvalidEffectiveSnapshot else Ok tt.

Definition FindConflicts (s : EffectiveSnapshot.t) : ConflictReport :=
  find_conflicts (DomainPayload.Rules (EffectiveSnapshot.Root s)) (DomainPayload.Rules (EffectiveSnapshot.User s)).

Definition leaseAuthorizesRule (l : AuthorizationLease.t) (r : Rule.t) : bool :=
  if negb (String.eqb (Selector.Kind (Rule.Selector r)) SelectorAction) then true
  else match Selector.Action (Rule.Selector r) with
       | Some a => String.eqb (AuthorizationLease.Capability l) (ActionSelector.Capability a)
       | None => false
       end.

Definition normalize_rule (r : Rule.t) : Rule.t :=
  Rule.mk (Rule.ID r) (Rule.Effect r) (normalizeSelector (Rule.Selector r)).

(** [fmt.Sprintf("compiled.%s.deny-%03d", domain, index)] *)
Definition sprintf_03d (z : Z) : list ascii := if z <? 1000 then digits 3 z else decimal_chars z.

Definition compiled_deny_id (domain : Domain) (index : Z) : string :=
  compiledDenyPrefix domain ++ "deny-" ++ of_chars (sprintf_03d index).

(** The rules appended for the denied selectors, from [index] on. *)
Fixpoint compiled_denies (domain : Domain) (index : Z) (denied : list Selector.t) : list Rule.t :=
  match denied with
  | [] => []
  | s :: denied' =>
      Rule.mk (compiled_deny_id domain index) EffectDeny (normalizeSelector s)
        :: compiled_denies domain (index + 1) denied'
  end.

Definition with_SelectorIDs (l : AuthorizationLease.t) (ids : list string) : AuthorizationLease.t :=
  AuthorizationLease.mk (AuthorizationLease.ID l) (AuthorizationLease.Domain l)
    (AuthorizationLease.Capability l) ids (AuthorizationLease.IssuedAt l) (AuthorizationLease.ExpiresAt l).

(** The selectors of a lease after renaming, those kept, sorted. *)
Definition kept_id (remap : gmap string string) (retained : option (list string)) (id : string) : option string :=
  let selectorID := default id (remap !! id) in
  match retained with
  | Some kept => if contains_string kept selectorID then Some selectorID else None
  | None => Some selectorID
  end.

Definition lease_ids (remap : gmap string string) (retained : option (list string)) (ids : list string)
    : list string :=
  sort_strings (remove_dups (omap (kept_id remap retained) ids)).

(** What a slice over the array [old] reads after [append(old[:0], new...)]. *)
Definition overwrite (new old : list string) : list string := (new ++ drop (length new) old)%list.

(** The anonymous struct that keys a lease. *)
Module leaseKey.
Record t := mk {
  Domain : Domain;
  Capability : Capability;
  SelectorIDs : list string;
  IssuedAt : string;
  ExpiresAt : string
}.
#[global] Instance eq_dec : EqDecision t.
Proof. solve_decision. Defined.
End leaseKey.

Definition key_of_lease (l : AuthorizationLease.t) : leaseKey.t :=
  leaseKey.mk (AuthorizationLease.Domain l) (AuthorizationLease.Capability l)
    (AuthorizationLease.SelectorIDs l) (AuthorizationLease.IssuedAt l) (AuthorizationLease.ExpiresAt l).

Definition keyed_rule_less (a b : Rule.t * string) : bool :=
  if negb (String.eqb a.2 b.2) then String.ltb a.2 b.2
  else if negb (String.eqb (Rule.ID a.1) (Rule.ID b.1)) then String.ltb (Rule.ID a.1) (Rule.ID b.1)
  else String.ltb (Selector.ID (Rule.Selector a.1)) (Selector.ID (Rule.Selector b.1)).

Definition keyed_lease_less (a b : AuthorizationLease.t * string) : bool :=
  if negb (String.eqb a.2 b.2) then String.ltb a.2 b.2
  else String.ltb (AuthorizationLease.ID a.1) (AuthorizationLease.ID b.1).

Definition selector_id (r : Rule.t) : string := Selector.ID (Rule.Selector r).

(** The grouping loop: the first rule of a run of equal keys represents it. *)
Fixpoint group_rules (representative : option (Rule.t * string)) (keyed : list (Rule.t * string))
    (remap : gmap string string) : list Rule.t * gmap string string :=
  match keyed with
  | [] => ([], remap)
  | k :: keyed' =>
      let fresh :=
        let '(result, remap') := group_rules (Some k) keyed' (<[selector_id k.1 := selector_id k.1]> remap) in
        (k.1 :: result, remap') in
      match representative with
      | Some r =>
          if String.eqb k.2 r.2
          then group_rules representative keyed' (<[selector_id k.1 := selector_id r.1]> remap)
          else fresh
      | None => fresh
      end
  end.

(** The final loop of [normalizeLeases]: a lease is skipped when its predecessor
    has its key. *)
Fixpoint first_of_keys (previous : option string) (keyed : list (AuthorizationLease.t * string))
    : list AuthorizationLease.t :=
  match keyed with
  | [] => []
  | k :: keyed' =>
      if bool_decide (previous = Some k.2) then first_of_keys (Some k.2) keyed'
      else k.1 :: first_of_keys (Some k.2) keyed'
  end.

Section compose.
Context `{JSON} `{!Codec Selector.t} `{!Codec keyedRule.t} `{!Codec SafetyEnvelope.t} `{!Codec leaseKey.t}.

Definition normalizeAndDeduplicateRules (input : list Rule.t)
    : result error (list Rule.t * gmap string string) :=
  keyed ← mapM (fun original =>
    let rule := normalize_rule original in
    key ← ruleSemanticKey rule; Ok (rule, key)) input;
  Ok (group_rules None (sort_slice keyed_rule_less keyed) ∅).

(** The keying loop: the leases of the caller afterwards, and the keyed leases. *)
Fixpoint key_leases (remap : gmap string string) (retained : option (list string))
    (input : list AuthorizationLease.t)
    : list AuthorizationLease.t * result error (list (AuthorizationLease.t * string)) :=
  match input with
  | [] => ([], Ok [])
  | l :: input' =>
      let ids := lease_ids remap retained (AuthorizationLease.SelectorIDs l) in
      let after := with_SelectorIDs l (overwrite ids (AuthorizationLease.SelectorIDs l)) in
      if len ids =? 0
      then let '(rest, keyed) := key_leases remap retained input' in (after :: rest, keyed)
      else match CanonicalSHA256 (key_of_lease (with_SelectorIDs l ids)) with
           | Err e => (after :: input', Err e)
           | Ok (key, _) =>
               let '(rest, keyed) := key_leases remap retained input' in
               (after :: rest, ks ← keyed; Ok ((with_SelectorIDs l ids, key) :: ks))
           end
  end.

Definition normalizeLeases (input : list AuthorizationLease.t) (remap : gmap string string)
    (retained : option (list string)) : list AuthorizationLease.t * result error (list AuthorizationLease.t) :=
  let '(after, keyed) := key_leases remap retained input in
  (after, ks ← keyed; Ok (first_of_keys None (sort_slice keyed_lease_less ks))).

(** The set [activated]: allowed selectors that some lease names and authorizes. *)
Definition activated (leases : list AuthorizationLease.t) (rules : list Rule.t) (id : string) : bool :=
  existsb (fun l => contains_string (AuthorizationLease.SelectorIDs l) id &&
    existsb (fun r => String.eqb (selector_id r) id && String.eqb (Rule.Effect r) EffectAllow &&
                      leaseAuthorizesRule l r) rules) leases.

(** The filter of the retaining loop. *)
Definition retains (leases : list AuthorizationLease.t) (rules : list Rule.t) (denied : list Selector.t)
    (r : Rule.t) : bool :=
  (negb (String.eqb (Rule.Effect r) EffectAllow) || activated leases rules (selector_id r)) &&
  negb (overlapsAny (Rule.Selector r) denied).

Definition composeDomain (source : DomainPayload.t) (envelope : DomainEnvelope.t)
    : list AuthorizationLease.t * result error DomainPayload.t :=
  match normalizeAndDeduplicateRules (DomainPayload.Rules source) with
  | Err _ => (DomainPayload.Leases source, Err ErrInvalidEffectiveSnapshot)
  | Ok (rules, selectorRemap) =>
      match normalizeLeases (DomainPayload.Leases source) selectorRemap None with
      | (after1, Err _) => (after1, Err ErrInvalidEffectiveSnapshot)
      | (after1, Ok leases) =>
          let retained0 :=
            (List.filter (retains leases rules (DomainEnvelope.DeniedSelectors envelope)) rules ++
             compiled_denies (DomainEnvelope.Domain envelope) 0 (DomainEnvelope.DeniedSelectors envelope))%list in
          match normalizeAndDeduplicateRules retained0 with
          | Err _ => (after1, Err ErrInvalidEffectiveSnapshot)
          | Ok (retained, finalRemap) =>
              let remap := (fun intermediate => default intermediate (finalRemap !! intermediate)) <$> selectorRemap in
              let retainedIDs :=
                map selector_id (List.filter (fun r => String.eqb (Rule.Effect r) EffectAllow) retained) in
              match normalizeLeases after1 remap (Some retainedIDs) with
              | (after2, Err _) => (after2, Err ErrInvalidEffectiveSnapshot)
              | (after2, Ok leases') =>
                  let payload := DomainPayload.mk DomainPayloadSchema (DomainPayload.Domain source)
                    (DomainPayload.PolicyGeneration source) retained leases' in
                  (after2, if failed (DomainPayload_Validate payload)
                           then Err ErrInvalidEffectiveSnapshot else Ok payload)
              end
          end
      end
  end.

(** The source after its leases were rewritten. *)
Definition with_leases (d : DomainSource.t) (leases : list AuthorizationLease.t) : DomainSource.t :=
  DomainSource.mk (DomainSource.PolicyGeneration d) (DomainSource.Rules d) leases.

Definition with_domains (s : OperatorSource.t) (root user : DomainSource.t) : OperatorSource.t :=
  OperatorSource.mk (OperatorSource.Schema s) (OperatorSource.PolicySchema s)
    (OperatorSource.BundleGeneration s) (OperatorSource.ParentBundleGeneration s)
    (OperatorSource.StaticSHA256 s) (OperatorSource.IssuedAt s) (OperatorSource.NotBefore s)
    (OperatorSource.ExpiresAt s) root user.

Definition domain_payload (domain : Domain) (d : DomainSource.t) : DomainPayload.t :=
  DomainPayload.mk DomainPayloadSchema domain (DomainSource.PolicyGeneration d) (DomainSource.Rules d)
    (DomainSource.Leases d).

Definition ComposeEffectiveSnapshot (source : OperatorSource.t) (envelope : SafetyEnvelope.t)
    : OperatorSource.t * result error EffectiveSnapshot.t :=
  match ValidateAgainstEnvelope source envelope with
  | Err e => (source, Err e)
  | Ok _ =>
      let root0 := OperatorSource.Root source in
      let user0 := OperatorSource.User source in
      match composeDomain (domain_payload DomainRoot root0) (SafetyEnvelope.Root envelope) with
      | (rootLeases, Err e) => (with_domains source (with_leases root0 rootLeases) user0, Err e)
      | (rootLeases, Ok root) =>
          match composeDomain (domain_payload DomainUser user0) (SafetyEnvelope.User envelope) with
          | (userLeases, r) =>
              let source' := with_domains source (with_leases root0 rootLeases) (with_leases user0 userLeases) in
              match r with
              | Err e => (source', Err e)
              | Ok user =>
                  let candidate := EffectiveSnapshot.mk EffectiveSnapshotSchema
                    (OperatorSource.PolicySchema source) (OperatorSource.BundleGeneration source)
                    (OperatorSource.ParentBundleGeneration source) (OperatorSource.StaticSHA256 source)
                    (OperatorSource.IssuedAt source) (OperatorSource.NotBefore source)
                    (OperatorSource.ExpiresAt source) root user in
                  (source',
                   match EffectiveSnapshot_Validate candidate with
                   | Err e => Err e
                   | Ok _ =>
                       let report := FindConflicts candidate in
                       if ConflictReport_Empty report then Ok candidate
                       else Err (ConflictError (Codes report) (Truncated report))
                   end)
              end
          end
      end
  end.
End compose.

(** ** Grouping *)

Lemma group_rules_members rep keyed remap r :
  r ∈ (group_rules rep keyed remap).1 -> exists k, k ∈ keyed /\ k.1 = r.
Proof.
  revert rep remap. induction keyed as [|k keyed IH]; intros rep remap; simpl; [by intros ?%elem_of_nil|].
  assert (r ∈ (let '(result, remap') := group_rules (Some k) keyed (<[selector_id k.1:=selector_id k.1]> remap) in
    (k.1 :: result, remap')).1 -> exists k0, k0 ∈ k :: keyed /\ k0.1 = r) as Hfresh.
  { pose proof (IH (Some k) (<[selector_id k.1:=selector_id k.1]> remap)) as IH'.
    destruct (group_rules (Some k) _ _) as [res m]. simpl in *.
    intros [->|Hr]%elem_of_cons; [exists k; split; [left|done]|].
    destruct (IH' Hr) as (k' & ? & ?). exists k'. split; [by right|done]. }
  destruct rep as [p|]; [|exact Hfresh]. destruct (String.eqb k.2 p.2); [|exact Hfresh].
  intros Hr. destruct (IH _ _ Hr) as (k' & ? & ?). exists k'. split; [by right|done].
Qed.

(** Every key keeps a rule. *)
Lemma group_rules_covers rep keyed remap k : k ∈ keyed ->
  (exists r, rep = Some r /\ r.2 = k.2) \/
  exists k', k' ∈ keyed /\ k'.2 = k.2 /\ k'.1 ∈ (group_rules rep keyed remap).1.
Proof.
  revert rep remap. induction keyed as [|x keyed IH]; intros rep remap; simpl; [by intros ?%elem_of_nil|].
  intros Hk.
  assert (exists k', k' ∈ x :: keyed /\ k'.2 = k.2 /\ k'.1 ∈
    (let '(result, remap') := group_rules (Some x) keyed (<[selector_id x.1:=selector_id x.1]> remap) in
     (x.1 :: result, remap')).1) as Hfresh.
  { pose proof (IH (Some x) (<[selector_id x.1:=selector_id x.1]> remap)) as IH'.
    destruct (group_rules (Some x) _ _) as [res m]. simpl in *. apply elem_of_cons in Hk as [->|Hk].
    - exists x. split_and!; [left|done|left].
    - destruct (IH' Hk) as [(y & [= <-] & Hy)|(k' & ? & ? & ?)].
      + exists x. split_and!; [left|done|left].
      + exists k'. split_and!; [by right|done|by right]. }
  destruct rep as [p|]; [|by right]. destruct (String.eqb_spec x.2 p.2) as [He|]; [|by right].
  apply elem_of_cons in Hk as [->|Hk]; [left; by exists p|].
  destruct (IH (Some p) (<[selector_id x.1:=selector_id p.1]> remap) Hk) as [?|(k' & ? & ? & ?)]; [by left|].
  right. exists k'. split_and!; [by right|done..].
Qed.

Section compose_facts.
Context `{JSON} `{!Codec Selector.t} `{!Codec keyedRule.t} `{!Codec SafetyEnvelope.t} `{!Codec leaseKey.t}.

Lemma keyed_rules_elem input keyed k : mapM (fun original =>
    let rule := normalize_rule original in
    key ← ruleSemanticKey rule; Ok (rule, key)) input = Ok keyed ->
  k ∈ keyed -> exists r0, r0 ∈ input /\ k.1 = normalize_rule r0 /\ ruleSemanticKey k.1 = Ok k.2.
Proof.
  intros Hm%mapM_Ok Hk. apply list_elem_of_lookup_1 in Hk as [i Hi].
  destruct (Forall2_lookup_r _ _ _ _ _ Hm Hi) as (r0 & Hr & Hf). simpl in Hf.
  apply bind_Ok in Hf as (key & Hkey & [= <-]). exists r0. split; [by eapply list_elem_of_lookup_2|done].
Qed.

Lemma normalized_members input rules remap r : normalizeAndDeduplicateRules input = Ok (rules, remap) ->
  r ∈ rules -> exists r0, r0 ∈ input /\ r = normalize_rule r0.
Proof.
  unfold normalizeAndDeduplicateRules. intros Hn Hr. apply bind_Ok in Hn as (keyed & Hm & [= Hg]).
  assert (r ∈ (group_rules None (sort_slice keyed_rule_less keyed) ∅).1) as Hr' by (by rewrite Hg).
  apply group_rules_members in Hr' as (k & Hk & <-). apply elem_of_sort_slice in Hk.
  destruct (keyed_rules_elem _ _ _ Hm Hk) as (r0 & ? & ? & _). by exists r0.
Qed.

(** No rule is lost: one with its semantic key survives. *)
Lemma normalized_covers input rules remap r0 : normalizeAndDeduplicateRules input = Ok (rules, remap) ->
  r0 ∈ input -> exists r key, r ∈ rules /\ ruleSemanticKey r = Ok key /\
    ruleSemanticKey (normalize_rule r0) = Ok key.
Proof.
  unfold normalizeAndDeduplicateRules. intros Hn Hr. apply bind_Ok in Hn as (keyed & Hm & [= Hg]).
  apply mapM_Ok in Hm as Hf. apply list_elem_of_lookup_1 in Hr as [i Hi].
  destruct (Forall2_lookup_l _ _ _ _ _ Hf Hi) as (k & Hk & Hkey). simpl in Hkey.
  apply bind_Ok in Hkey as (key & Hkey & [= <-]). apply list_elem_of_lookup_2 in Hk.
  destruct (group_rules_covers None (sort_slice keyed_rule_less keyed) ∅ (normalize_rule r0, key))
    as [(? & ? & _)|(k' & Hk' & Heq & Hin)]; [by apply elem_of_sort_slice|done|].
  rewrite Hg in Hin. simpl in *. apply elem_of_sort_slice in Hk'.
  destruct (keyed_rules_elem _ _ _ Hm Hk') as (_ & _ & _ & Hkk). exists k'.1, key. by rewrite <- Heq at 1.
Qed.
(** The leases after the call are the leases before it with other selectors, and
    the keyed leases come from them. *)
Definition same_lease (l0 l : AuthorizationLease.t) : Prop :=
  exists ids, l = with_SelectorIDs l0 ids.

Lemma same_lease_trans l0 l1 l2 : same_lease l0 l1 -> same_lease l1 l2 -> same_lease l0 l2.
Proof. intros [i1 ->] [i2 ->]. by exists i2. Qed.

Lemma same_lease_refl l : same_lease l l.
Proof. exists (AuthorizationLease.SelectorIDs l). by destruct l. Qed.

Lemma key_leases_spec remap retained input after keyed : key_leases remap retained input = (after, keyed) ->
  Forall2 same_lease input after /\
  forall ks k, keyed = Ok ks -> k ∈ ks -> exists l0, l0 ∈ input /\
    k.1 = with_SelectorIDs l0 (lease_ids remap retained (AuthorizationLease.SelectorIDs l0)).
Proof.
  revert after keyed. induction input as [|l input IH]; intros after keyed Hk; simpl in Hk.
  { simplify_eq. split; [constructor|]. intros ks k [= <-] Hk. by apply elem_of_nil in Hk. }
  set (ids := lease_ids remap retained (AuthorizationLease.SelectorIDs l)) in *.
  destruct (key_leases remap retained input) as [rest keyed'] eqn:Hr.
  destruct (IH rest keyed' eq_refl) as [Hsame Hks]. destruct (len ids =? 0).
  { simplify_eq. split; [constructor; [by eexists|done]|]. intros ks k Hok Hin.
    destruct (Hks ks k Hok Hin) as (l0 & ? & ?). exists l0. split; [by right|done]. }
  destruct (CanonicalSHA256 _) as [[key d]|e]; simplify_eq.
  - split; [constructor; [by eexists|done]|]. intros ks k Hok Hin. apply bind_Ok in Hok as (ks' & -> & [= <-]).
    apply elem_of_cons in Hin as [->|Hin]; [exists l; split; [left|done]|].
    destruct (Hks ks' k eq_refl Hin) as (l0 & ? & ?). exists l0. split; [by right|done].
  - split; [|done]. constructor; [by eexists|]. apply Forall_Forall2_diag, Forall_true, same_lease_refl.
Qed.

Lemma first_of_keys_members previous keyed l : l ∈ first_of_keys previous keyed ->
  exists k, k ∈ keyed /\ k.1 = l.
Proof.
  revert previous. induction keyed as [|k keyed IH]; intros previous; simpl; [by intros ?%elem_of_nil|].
  case_bool_decide; [|intros [->|Hl]%elem_of_cons; [exists k; split; [left|done]|]].
  - intros Hl. destruct (IH _ Hl) as (k' & ? & ?). exists k'. split; [by right|done].
  - destruct (IH _ Hl) as (k' & ? & ?). exists k'. split; [by right|done].
Qed.

Lemma normalizeLeases_spec input remap retained after r : normalizeLeases input remap retained = (after, r) ->
  Forall2 same_lease input after /\
  forall leases l, r = Ok leases -> l ∈ leases -> exists l0, l0 ∈ input /\
    l = with_SelectorIDs l0 (lease_ids remap retained (AuthorizationLease.SelectorIDs l0)).
Proof.
  unfold normalizeLeases. destruct (key_leases remap retained input) as [rest keyed] eqn:Hk. intros [= <- <-].
  destruct (key_leases_spec _ _ _ _ _ Hk) as [Hsame Hks]. split; [done|].
  intros leases l Hok Hl. apply bind_Ok in Hok as (ks & -> & [= <-]).
  apply first_of_keys_members in Hl as (k & Hin%elem_of_sort_slice & <-). by apply (Hks ks).
Qed.

Lemma compiled_denies_spec domain index denied r : r ∈ compiled_denies domain index denied ->
  exists d, d ∈ denied /\ Rule.Effect r = EffectDeny /\ Rule.Selector r = normalizeSelector d.
Proof.
  revert index. induction denied as [|d denied IH]; intros index; simpl; [by intros ?%elem_of_nil|].
  intros [->|Hr]%elem_of_cons; [exists d; split; [left|done]|].
  destruct (IH _ Hr) as (d' & ? & ?). exists d'. split; [by right|done].
Qed.

Lemma compiled_denies_complete domain index denied d : d ∈ denied ->
  exists id, Rule.mk id EffectDeny (normalizeSelector d) ∈ compiled_denies domain index denied.
Proof.
  revert index. induction denied as [|x denied IH]; intros index; [by intros ?%elem_of_nil|]. simpl.
  intros [->|Hd]%elem_of_cons; [eexists; left|].
  destruct (IH (index + 1) Hd) as [id Hid]. exists id. by right.
Qed.

(** The two origins of a composed rule. *)
Definition from_source (source : DomainPayload.t) (denied : list Selector.t) (r : Rule.t) : Prop :=
  exists r0, r0 ∈ DomainPayload.Rules source /\ r = normalize_rule (normalize_rule r0) /\
    overlapsAny (normalizeSelector (Rule.Selector r0)) denied = false.

Definition from_denial (denied : list Selector.t) (r : Rule.t) : Prop :=
  exists d, d ∈ denied /\ Rule.Effect r = EffectDeny /\
    Rule.Selector r = normalizeSelector (normalizeSelector d).

Lemma composeDomain_spec source e after payload : composeDomain source e = (after, Ok payload) ->
  let denied := DomainEnvelope.DeniedSelectors e in
  (DomainPayload_Validate payload = Ok tt /\ DomainPayload.Domain payload = DomainPayload.Domain source /\
   DomainPayload.PolicyGeneration payload = DomainPayload.PolicyGeneration source) /\
  (forall r, r ∈ DomainPayload.Rules payload -> from_source source denied r \/ from_denial denied r) /\
  (forall l, l ∈ DomainPayload.Leases payload -> exists l0, l0 ∈ DomainPayload.Leases source /\ same_lease l0 l).
Proof.
  intros Hc denied. unfold composeDomain in Hc.
  destruct (normalizeAndDeduplicateRules (DomainPayload.Rules source)) as [[rules remap]|] eqn:Hn; [|done].
  destruct (normalizeLeases _ _ None) as [after1 [leases|]] eqn:Hl; [|done].
  set (retained0 := (List.filter _ rules ++ _)%list) in Hc.
  destruct (normalizeAndDeduplicateRules retained0) as [[retained final]|] eqn:Hf; [|done].
  destruct (normalizeLeases after1 _ _) as [after2 [leases'|]] eqn:Hl'; [|done].
  destruct (failed _) eqn:Hv; [done|]. apply failed_unit in Hv. injection Hc as <- <-. simpl.
  split; [done|]. split.
  - intros r Hr. destruct (normalized_members _ _ _ _ Hf Hr) as (r1 & Hr1 & ->).
    apply elem_of_app in Hr1 as [Hr1|Hr1].
    + apply list_elem_of_In, List.filter_In in Hr1 as [Hr1 Hk]. apply list_elem_of_In in Hr1.
      destruct (normalized_members _ _ _ _ Hn Hr1) as (r0 & Hr0 & ->). left. exists r0.
      unfold retains in Hk. bool_prop. done.
    + apply compiled_denies_spec in Hr1 as (d & Hd & He & Hs). right. exists d. simpl. by rewrite Hs.
  - intros l Hin. destruct (normalizeLeases_spec _ _ _ _ _ Hl) as [Hsame _].
    destruct (normalizeLeases_spec _ _ _ _ _ Hl') as [_ Hm]. destruct (Hm leases' l eq_refl Hin) as (l1 & H1 & ->).
    apply list_elem_of_lookup_1 in H1 as [i Hi].
    destruct (Forall2_lookup_r _ _ _ _ _ Hsame Hi) as (l0 & H0 & Hs).
    exists l0. split; [by eapply list_elem_of_lookup_2|]. eapply same_lease_trans; [done|]. by eexists.
Qed.

(** ** Denials survive *)

Lemma ruleSemanticKey_normalize r : shape (Rule.Selector r) -> typed_ports (Rule.Selector r) ->
  ruleSemanticKey (normalize_rule r) = ruleSemanticKey r.
Proof.
  intros Hs Ht. unfold ruleSemanticKey, selectorSemanticKey, normalize_rule. simpl.
  by rewrite normalizeSelector_idemp.
Qed.

Lemma normalize_rule_idemp r : shape (Rule.Selector r) -> typed_ports (Rule.Selector r) ->
  normalize_rule (normalize_rule r) = normalize_rule r.
Proof. intros Hs Ht. unfold normalize_rule. simpl. by rewrite normalizeSelector_idemp. Qed.

(** Two rules that say the same, whatever their identifiers. *)
Definition same_meaning (r r' : Rule.t) : Prop :=
  Rule.Effect r = Rule.Effect r' /\
  with_ID (normalizeSelector (Rule.Selector r)) "" = with_ID (normalizeSelector (Rule.Selector r')) "".

(** The digests tell apart the rules of a list: no collision among them. *)
Definition keys_separate (rules : list Rule.t) : Prop :=
  forall r r' key, r ∈ rules -> r' ∈ rules ->
    ruleSemanticKey r = Ok key -> ruleSemanticKey r' = Ok key -> same_meaning r r'.

Lemma same_meaning_action r r' capability target : same_meaning r r' ->
  names_action capability target r -> names_action capability target r'.
Proof.
  intros [_ Hs] [Hk (a & Ha & Hc)].
  destruct (normalizeSelector_action (Rule.Selector r)) as (A & K & _).
  destruct (normalizeSelector_action (Rule.Selector r')) as (A' & K' & _).
  pose proof (f_equal Selector.Kind Hs) as H1. pose proof (f_equal Selector.Action Hs) as H2. simpl in H1, H2.
  unfold names_action. rewrite <- K', <- H1, K, Hk, <- A', <- H2, A, Ha. naive_solver.
Qed.

Lemma names_action_normalize capability target r :
  names_action capability target (normalize_rule r) <-> names_action capability target r.
Proof.
  unfold names_action, normalize_rule. simpl.
  destruct (normalizeSelector_action (Rule.Selector r)) as (-> & -> & _). done.
Qed.

Lemma overlap_same_action r d capability target : shape d -> names_action capability target r ->
  selectorsOverlap (Rule.Selector r) d = true -> names_action capability target (Rule.mk "" EffectDeny d).
Proof.
  unfold selectorsOverlap, names_action. intros Hs [-> (a & -> & <- & <-)] Ho. cbn [Rule.Selector].
  destruct (String.eqb_spec SelectorAction (Selector.Kind d)) as [<-|]; [|done]. split; [done|].
  simpl in Ho. destruct (Selector.Action d) as [b|]; [|done]. bool_prop. by exists b.
Qed.

(** A rule of the first normalization that is kept, or a compiled denial, has a
    rule of its key in the composed payload. *)
Lemma composeDomain_keeps source e after payload : composeDomain source e = (after, Ok payload) ->
  let denied := DomainEnvelope.DeniedSelectors e in
  (forall r0, r0 ∈ DomainPayload.Rules source ->
     exists r1 r1' key, r1' ∈ DomainPayload.Rules source /\ r1 = normalize_rule r1' /\
       ruleSemanticKey r1 = Ok key /\ ruleSemanticKey (normalize_rule r0) = Ok key /\
       (Rule.Effect r1 <> EffectAllow -> overlapsAny (Rule.Selector r1) denied = false ->
        exists r key', r ∈ DomainPayload.Rules payload /\ ruleSemanticKey r = Ok key' /\
          ruleSemanticKey (normalize_rule r1) = Ok key')) /\
  (forall d, d ∈ denied -> exists r key id, r ∈ DomainPayload.Rules payload /\ ruleSemanticKey r = Ok key /\
     ruleSemanticKey (normalize_rule (Rule.mk id EffectDeny (normalizeSelector d))) = Ok key).
Proof.
  intros Hc denied. unfold composeDomain in Hc.
  destruct (normalizeAndDeduplicateRules (DomainPayload.Rules source)) as [[rules remap]|] eqn:Hn; [|done].
  destruct (normalizeLeases _ _ None) as [after1 [leases|]] eqn:Hl; [|done].
  set (retained0 := (List.filter _ rules ++ _)%list) in Hc.
  destruct (normalizeAndDeduplicateRules retained0) as [[retained final]|] eqn:Hf; [|done].
  destruct (normalizeLeases after1 _ _) as [after2 [leases'|]] eqn:Hl'; [|done].
  destruct (failed _) eqn:Hv; [done|]. injection Hc as <- <-. simpl. split.
  - intros r0 Hr0. destruct (normalized_covers _ _ _ _ Hn Hr0) as (r1 & key & Hr1 & K1 & K0).
    destruct (normalized_members _ _ _ _ Hn Hr1) as (r1' & Hr1' & ->). exists (normalize_rule r1'), r1', key.
    split_and!; [done..|]. intros He Ho.
    destruct (normalized_covers _ _ _ (normalize_rule r1') Hf) as (r & key' & ? & ? & ?); [|by exists r, key'].
    apply elem_of_app. left. apply list_elem_of_In, List.filter_In. split; [by apply list_elem_of_In|].
    unfold retains. apply andb_true_iff. split; [|by apply negb_true_iff].
    apply orb_true_iff. left. by apply negb_true_iff, String.eqb_neq.
  - intros d Hd. destruct (compiled_denies_complete (DomainEnvelope.Domain e) 0 denied d Hd) as [id Hid].
    destruct (normalized_covers _ _ _ (Rule.mk id EffectDeny (normalizeSelector d)) Hf) as (r & key & ? & ? & ?).
    { apply elem_of_app. by right. }
    by exists r, key, id.
Qed.

(** ** The composed snapshot *)

Definition domain_source (source : OperatorSource.t) (domain : Domain) : DomainSource.t :=
  if String.eqb domain DomainRoot then OperatorSource.Root source else OperatorSource.User source.

Definition snapshot_payload (s : EffectiveSnapshot.t) (domain : Domain) : DomainPayload.t :=
  if String.eqb domain DomainRoot then EffectiveSnapshot.Root s else EffectiveSnapshot.User s.

Lemma ComposeEffectiveSnapshot_Ok source e source' snap :
  ComposeEffectiveSnapshot source e = (source', Ok snap) ->
  ValidateAgainstEnvelope source e = Ok tt /\ EffectiveSnapshot_Validate snap = Ok tt /\
  ConflictReport_Empty (FindConflicts snap) = true /\
  forall domain, domain = DomainRoot \/ domain = DomainUser -> exists after,
    composeDomain (domain_payload domain (domain_source source domain)) (envelope_of e domain) =
    (after, Ok (snapshot_payload snap domain)).
Proof.
  unfold ComposeEffectiveSnapshot. intros Hc.
  destruct (ValidateAgainstEnvelope source e) as [[]|]; [|done].
  destruct (composeDomain _ (SafetyEnvelope.Root e)) as [rl [root|]] eqn:Hr; [|done].
  destruct (composeDomain _ (SafetyEnvelope.User e)) as [ul [user|]] eqn:Hu; [|done].
  injection Hc as _ Hc. destruct (EffectiveSnapshot_Validate _) as [[]|] eqn:Hv; [|done].
  destruct (ConflictReport_Empty _) eqn:Hf; [|done]. injection Hc as <-.
  split_and!; [done..|]. intros domain [-> | ->]; by eexists.
Qed.

(** What a domain's composed payload owes to the source and the envelope. *)
Lemma composed_source source e source' snap domain :
  ComposeEffectiveSnapshot source e = (source', Ok snap) -> domain = DomainRoot \/ domain = DomainUser ->
  payloadWithinEnvelope (domain_payload domain (domain_source source domain)) (envelope_of e domain) = true /\
  DomainEnvelope_valid (envelope_of e domain) = true /\
  DomainPayload.Domain (snapshot_payload snap domain) = domain.
Proof.
  intros Hc Hd. destruct (ComposeEffectiveSnapshot_Ok _ _ _ _ Hc) as (Hv & _ & _ & Hdom).
  destruct (Hdom domain Hd) as [after Ha]. apply composeDomain_spec in Ha as [(_ & Hn & _) _].
  destruct (ValidateAgainstEnvelope_Ok _ _ Hv) as (_ & He & Hp). destruct (Hp domain Hd) as (p & Hs & Hw).
  destruct (SafetyEnvelope_Validate_Ok e domain) as [? _]; [done..|]. split_and!; [|done..].
  by destruct Hd; subst domain; cbn in Hs; injection Hs as <-.
Qed.

(** Actions a composed payload has a rule for are the operator's, or compiled denials. *)
Lemma composed_action source e source' snap domain r capability target :
  ComposeEffectiveSnapshot source e = (source', Ok snap) -> domain = DomainRoot \/ domain = DomainUser ->
  r ∈ DomainPayload.Rules (snapshot_payload snap domain) -> names_action capability target r ->
  Rule.Effect r <> EffectDeny ->
  exists r0, r0 ∈ DomainSource.Rules (domain_source source domain) /\ names_action capability target r0 /\
    Rule.Effect r0 = Rule.Effect r /\
    forall d, d ∈ DomainEnvelope.DeniedSelectors (envelope_of e domain) -> ~ selects d (Perform capability target).
Proof.
  intros Hc Hd Hr Hn He. destruct (ComposeEffectiveSnapshot_Ok _ _ _ _ Hc) as (_ & _ & _ & Hdom).
  destruct (Hdom domain Hd) as [after Ha]. apply composeDomain_spec in Ha as (_ & Hrules & _).
  destruct (Hrules r Hr) as [(r0 & Hr0 & -> & Ho)|(d & _ & Hdeny & _)]; [|done].
  rewrite !names_action_normalize in Hn. exists r0. split_and!; [done..|].
  intros d Hin [Hk (b & Hb & Hcb & Htb)]. apply not_true_iff_false in Ho. apply Ho. unfold overlapsAny.
  apply existsb_exists. exists d. split; [by apply list_elem_of_In|].
  destruct (normalizeSelector_action (Rule.Selector r0)) as (A & K & _).
  destruct Hn as [Hk0 (a & Ha' & Hca & Hta)]. unfold selectorsOverlap.
  rewrite K, Hk0, Hk, A, Ha', Hb. simpl. by rewrite Hca, Hta, Hcb, Htb, !String.eqb_refl.
Qed.

(** C12: no composition widens the operator's word or the compiled boundary. If the
    policy of a composed snapshot lets an action run, its capability and target are
    allowed by the compiled envelope of the domain, no compiled denial selects it,
    the operator's source has a rule that allows exactly this action, and a lease
    of the source with this domain and capability covers the instant. *)
Theorem authorized_within_envelope source e source' snap domain state request at_ :
  ComposeEffectiveSnapshot source e = (source', Ok snap) -> domain = DomainRoot \/ domain = DomainUser ->
  ActionAuthorizationState.Payload state = snapshot_payload snap domain ->
  Allowed (EvaluateActionAuthorization state request at_) = true ->
  let capability := ActionAuthorizationRequest.Capability request in
  let target := ActionAuthorizationRequest.Target request in
  let boundary := envelope_of e domain in
  (ActionAuthorizationRequest.Domain request = domain /\
   capability ∈ DomainEnvelope.AllowedCapabilities boundary /\
   target ∈ DomainEnvelope.AllowedTargets boundary) /\
  (forall d, d ∈ DomainEnvelope.DeniedSelectors boundary -> ~ selects d (Perform capability target)) /\
  (exists r0, r0 ∈ DomainSource.Rules (domain_source source domain) /\ Rule.Effect r0 = EffectAllow /\
     names_action capability target r0) /\
  (exists l0, l0 ∈ DomainSource.Leases (domain_source source domain) /\ AuthorizationLease.Domain l0 = domain /\
     AuthorizationLease.Capability l0 = capability /\ lease_covers l0 at_).
Proof.
  intros Hc Hd Hp Hallow capability target boundary.
  apply allowed_granted in Hallow as [Hcur [Hnodeny (r & l & Hr & Hl & Hn & Hld & Hlc & Hid & Hcov)]].
  destruct Hcur as (_ & _ & Hv & _ & _ & _ & _ & _ & Hdom & _). rewrite Hp in *.
  destruct (composed_source _ _ _ _ _ Hc Hd) as (Hw & _ & Hdn). rewrite Hdn in Hdom.
  destruct (composed_action _ _ _ _ _ _ _ _ Hc Hd Hr Hn (Hnodeny r Hr Hn)) as (r0 & Hr0 & Hn0 & He0 & Hden).
  assert (Rule.Effect r0 = EffectAllow) as Hallow.
  { apply DomainPayload_Validate_Ok in Hv as (_ & _ & Hrv & _).
    apply rules_valid_spec in Hrv as (_ & _ & Hrv). destruct (Hrv r Hr) as [Hev _].
    apply contains_string_spec in Hev. specialize (Hnodeny r Hr Hn). rewrite He0. set_solver. }
  apply payloadWithinEnvelope_Ok in Hw as (_ & Hrules & _). destruct (Hrules r0 Hr0) as [Hsel _].
  destruct (ComposeEffectiveSnapshot_Ok _ _ _ _ Hc) as (_ & _ & _ & Hdoms).
  destruct (Hdoms domain Hd) as [after Ha]. apply composeDomain_spec in Ha as (_ & _ & Hleases).
  destruct (Hleases l Hl) as (l0 & Hl0 & ids & ->).
  destruct Hn0 as [Hk0 (a & Ha & Hca & Hta)]. unfold selectorWithinEnvelope in Hsel.
  rewrite Hk0, Ha in Hsel. destruct (negb (contains_string _ SelectorAction)); [done|]. simpl in Hsel. bool_prop.
  rewrite contains_string_spec, Hca, Hta in *. split_and!; try done.
  - exists r0. do 3 (split; [done|]). by exists a.
  - exists l0. by rewrite Hdom in *.
Qed.

(** The rules whose keys composition compares. *)
Definition compared_rules (source : DomainSource.t) (boundary : DomainEnvelope.t) : list Rule.t :=
  (DomainSource.Rules source ++ map (Rule.mk "" EffectDeny) (DomainEnvelope.DeniedSelectors boundary))%list.

Definition typed_rules (rules : list Rule.t) : Prop :=
  forall r, r ∈ rules -> shape (Rule.Selector r) /\ typed_ports (Rule.Selector r).

Lemma composed_rule_meaning source e after payload r key : composeDomain source e = (after, Ok payload) ->
  let universe := (DomainPayload.Rules source ++ map (Rule.mk "" EffectDeny) (DomainEnvelope.DeniedSelectors e))%list in
  typed_rules universe -> r ∈ DomainPayload.Rules payload -> ruleSemanticKey r = Ok key ->
  exists r0, r0 ∈ universe /\ ruleSemanticKey r0 = Ok key /\ same_meaning r0 r.
Proof.
  intros Hc universe Ht Hr Hk. apply composeDomain_spec in Hc as (_ & Hrules & _).
  destruct (Hrules r Hr) as [(r0 & Hr0 & -> & _)|(d & Hd & He & Hs)].
  - assert (r0 ∈ universe) as Hu by (apply elem_of_app; by left). destruct (Ht r0 Hu) as [Sh Tp].
    rewrite normalize_rule_idemp in Hk |- * by done. rewrite ruleSemanticKey_normalize in Hk by done. exists r0. do 2 (split; [done|]).
    split; [done|]. cbn [normalize_rule Rule.Selector]. by rewrite normalizeSelector_idemp.
  - assert (Rule.mk "" EffectDeny d ∈ universe) as Hu.
    { apply elem_of_app. right. by apply list_elem_of_fmap_2. }
    destruct (Ht _ Hu) as [Sh Tp]. simpl in Sh, Tp. rewrite normalizeSelector_idemp in Hs by done.
    exists (Rule.mk "" EffectDeny d). split; [done|]. unfold ruleSemanticKey, selectorSemanticKey in Hk |- *.
    rewrite Hs, He, normalizeSelector_idemp in Hk by done. split; [done|].
    split; simpl; [done|]. by rewrite Hs, normalizeSelector_idemp.
Qed.

(** A rule of the operator that denies an action leaves a denial of it. *)
Lemma denial_kept source e after payload r0 capability target :
  composeDomain source e = (after, Ok payload) ->
  let universe := (DomainPayload.Rules source ++ map (Rule.mk "" EffectDeny) (DomainEnvelope.DeniedSelectors e))%list in
  typed_rules universe -> keys_separate universe -> r0 ∈ DomainPayload.Rules source ->
  Rule.Effect r0 = EffectDeny -> names_action capability target r0 ->
  (forall d, d ∈ DomainEnvelope.DeniedSelectors e -> ~ selects d (Perform capability target)) ->
  exists r, r ∈ DomainPayload.Rules payload /\ Rule.Effect r = EffectDeny /\ names_action capability target r.
Proof.
  intros Hc universe Ht Hks Hr0 He0 Hn0 Hden.
  destruct (composeDomain_keeps _ _ _ _ Hc) as [Hkeep _].
  destruct (Hkeep r0 Hr0) as (r1 & r1' & key & Hr1' & -> & K1 & K0 & Hsurvive).
  assert (forall x, x ∈ DomainPayload.Rules source -> x ∈ universe) as Hu by (intros; apply elem_of_app; by left).
  destruct (Ht r0 (Hu _ Hr0)), (Ht r1' (Hu _ Hr1')).
  rewrite ruleSemanticKey_normalize in K0, K1 by done.
  destruct (Hks r0 r1' key) as [He Hsel]; auto. assert (same_meaning r0 r1') as Hm by done.
  pose proof (same_meaning_action _ _ _ _ Hm Hn0) as Hn1.
  destruct Hsurvive as (r & key' & Hr & Kr & Kr1).
  - simpl. rewrite <- He, He0. done.
  - apply not_true_iff_false. intros Ho. apply existsb_exists in Ho as (d & Hd%list_elem_of_In & Ho).
    assert (shape d) as Hsd. { apply (Ht (Rule.mk "" EffectDeny d)), elem_of_app. right. by apply list_elem_of_fmap_2. }
    apply (overlap_same_action (normalize_rule r1') d capability target) in Ho as [Hk (a & Ha & Hca & Hta)];
      [|done|by apply names_action_normalize].
    apply (Hden d Hd). split; [done|]. by exists a.
  - destruct (composed_rule_meaning _ _ _ _ _ _ Hc Ht Hr Kr) as (r2 & Hr2 & K2 & Hm2).
    rewrite normalize_rule_idemp, ruleSemanticKey_normalize in Kr1 by done. rename Kr1 into K1'.
    pose proof (Hks r1' r2 key' (Hu _ Hr1') Hr2 K1' K2) as Hm1.
    pose proof (same_meaning_action _ _ _ _ Hm1 Hn1) as Hn2. pose proof (same_meaning_action _ _ _ _ Hm2 Hn2) as Hn.
    exists r. destruct Hm1 as [E1 _], Hm2 as [E2 _]. split_and!; [done|congruence|apply Hn..].
Qed.

(** C25: the operator's denials hold. When the digests tell the rules at hand apart,
    an action that a rule of the operator's source denies is never authorized under
    the composed snapshot, whatever other rules, duplicates and leases the source
    has and whatever the compiled envelope adds. *)
Theorem operator_denials_hold source e source' snap domain r0 state request at_ :
  ComposeEffectiveSnapshot source e = (source', Ok snap) -> domain = DomainRoot \/ domain = DomainUser ->
  typed_rules (compared_rules (domain_source source domain) (envelope_of e domain)) ->
  keys_separate (compared_rules (domain_source source domain) (envelope_of e domain)) ->
  r0 ∈ DomainSource.Rules (domain_source source domain) -> Rule.Effect r0 = EffectDeny ->
  names_action (ActionAuthorizationRequest.Capability request) (ActionAuthorizationRequest.Target request) r0 ->
  ActionAuthorizationState.Payload state = snapshot_payload snap domain ->
  Allowed (EvaluateActionAuthorization state request at_) = false.
Proof.
  intros Hc Hd Ht Hks Hr0 He0 Hn0 Hp. apply not_true_iff_false. intros Hallow.
  apply allowed_granted in Hallow as [_ [Hnodeny (r & l & Hr & _ & Hn & _)]]. rewrite Hp in *.
  destruct (composed_action _ _ _ _ _ _ _ _ Hc Hd Hr Hn (Hnodeny r Hr Hn)) as (_ & _ & _ & _ & Hden).
  destruct (ComposeEffectiveSnapshot_Ok _ _ _ _ Hc) as (_ & _ & _ & Hdoms).
  destruct (Hdoms domain Hd) as [after Ha].
  destruct (denial_kept _ _ _ _ r0 _ _ Ha Ht Hks Hr0 He0 Hn0 Hden) as (r' & Hr' & He' & Hn').
  by apply (Hnodeny r' Hr' Hn').
Qed.
End compose_facts.

(** ** Examples *)

Module ComposeSample.
Import SampleDigest.

Definition selector_texts (s : Selector.t) : list string :=
  (Selector.ID s :: Selector.Kind s ::
   match Selector.Endpoint s with
   | Some e => EndpointSelector.Host e :: EndpointSelector.Protocol e :: EndpointSelector.TLS e ::
       EndpointSelector.Path e ::
       concat (map (fun r => [number (PortRange.First r); number (PortRange.Last r)]) (EndpointSelector.Ports e))
   | None => [] end ++
   match Selector.Route s with Some r => [RouteSelector.Prefix r; RouteSelector.Path r] | None => [] end ++
   match Selector.Action s with Some a => [ActionSelector.Capability a; ActionSelector.Target a] | None => [] end ++
   match Selector.Credential s with
   | Some c => [CredentialSelector.Reference c; CredentialSelector.Owner c] | None => [] end)%list.

Definition boundary_texts (d : DomainEnvelope.t) : list string :=
  (DomainEnvelope.Domain d :: DomainEnvelope.NamespacePrefix d :: DomainEnvelope.AllowedCapabilities d ++
   DomainEnvelope.AllowedSelectorKinds d ++ DomainEnvelope.AllowedTargets d ++
   concat (map selector_texts (DomainEnvelope.DeniedSelectors d)))%list.

Definition rule_texts (r : keyedRule.t) : list string := ["rule"; keyedRule.Effect r; keyedRule.Selector r].

Definition lease_texts (l : leaseKey.t) : list string :=
  "lease" :: leaseKey.Domain l :: leaseKey.Capability l :: leaseKey.IssuedAt l :: leaseKey.ExpiresAt l ::
  leaseKey.SelectorIDs l.

Definition envelope_texts (e : SafetyEnvelope.t) : list string :=
  ("envelope" :: SafetyEnvelope.ProtectedFields e ++ boundary_texts (SafetyEnvelope.Root e) ++
   boundary_texts (SafetyEnvelope.User e))%list.

#[export] Instance sample_json : JSON := json.
#[export] Instance selector_codec : Codec Selector.t := texts_codec selector_texts.
#[export] Instance rule_codec : Codec keyedRule.t := texts_codec rule_texts.
#[export] Instance lease_codec : Codec leaseKey.t := texts_codec lease_texts.
#[export] Instance envelope_codec : Codec SafetyEnvelope.t := texts_codec envelope_texts.

Definition issued := "2026-03-01T00:00:00Z".
Definition expires := "2026-03-20T00:00:00Z".

Definition action_rule (id : string) (effect : Effect) (sid : string) (capability : Capability) (target : string)
    : Rule.t :=
  Rule.mk id effect (Selector.mk sid SelectorAction None None (Some (ActionSelector.mk capability target)) None).

Definition lease (id : string) (domain : Domain) (capability : Capability) (ids : list string)
    : AuthorizationLease.t := AuthorizationLease.mk id domain capability ids issued expires.

Definition digest_of (e : SafetyEnvelope.t) : string := hash (envelope_texts e).

Definition source_for (e : SafetyEnvelope.t) (root user : DomainSource.t) : OperatorSource.t :=
  OperatorSource.mk OperatorSourceSchema 1 7 6 (digest_of e) issued issued expires root user.

(** The default envelope with one compiled denial in the user domain. *)
Definition envelope : SafetyEnvelope.t :=
  SafetyEnvelope.mk SafetyEnvelopeSchema (SafetyEnvelope.ProtectedFields DefaultSafetyEnvelope)
    (SafetyEnvelope.Root DefaultSafetyEnvelope)
    (DomainEnvelope.mk DomainUser "user." [CapabilityOperatorResume; CapabilityPritunlRecovery] [SelectorAction]
       ["pritunl"]
       [Selector.mk "compiled.user.resume-pritunl" SelectorAction None None
          (Some (ActionSelector.mk CapabilityOperatorResume "pritunl")) None]).

Definition denied_rule : Rule.t :=
  action_rule "root.no-resume" EffectDeny "root.s1" CapabilityOperatorResume "network".

Definition source : OperatorSource.t :=
  source_for envelope
    (DomainSource.mk 3
       [denied_rule; action_rule "root.tunnel" EffectAllow "root.s2" CapabilityTunnelOwnership "tunnel"]
       [lease "root.lease" DomainRoot CapabilityTunnelOwnership ["root.s2"]])
    (DomainSource.mk 3
       [action_rule "user.recover" EffectAllow "user.s1" CapabilityPritunlRecovery "pritunl";
        action_rule "user.recover-copy" EffectAllow "user.s2" CapabilityPritunlRecovery "pritunl";
        action_rule "user.resume" EffectAllow "user.s3" CapabilityOperatorResume "pritunl"]
       [lease "user.lease" DomainUser CapabilityPritunlRecovery ["user.s2"];
        lease "user.lease2" DomainUser CapabilityOperatorResume ["user.s3"]]).

Definition no_payload : DomainPayload.t := DomainPayload.mk "" "" 0 [] [].
Definition no_snapshot : EffectiveSnapshot.t := EffectiveSnapshot.mk "" 0 0 0 "" "" "" "" no_payload no_payload.

Definition composed (s : OperatorSource.t) (e : SafetyEnvelope.t) : EffectiveSnapshot.t :=
  match (ComposeEffectiveSnapshot s e).2 with Ok x => x | Err _ => no_snapshot end.

Definition state (domain : Domain) : ActionAuthorizationState.t :=
  ActionAuthorizationState.mk
    (Status.mk PolicyStatusSchema domain PolicyActive 7 3 sample_digest issued expires ReasonNone)
    (AuthorizationSuspension.mk AuthorizationSuspensionSchema false ReasonNone "")
    (snapshot_payload (composed source envelope) domain) 12.

Definition request (domain : Domain) (capability : Capability) (target : string) : ActionAuthorizationRequest.t :=
  ActionAuthorizationRequest.mk domain capability 7 3 12 target sample_digest.

Lemma composes : ComposeEffectiveSnapshot source envelope =
  ((ComposeEffectiveSnapshot source envelope).1, Ok (composed source envelope)).
Proof. vm_compute. reflexivity. Qed.

Lemma state_payload domain :
  ActionAuthorizationState.Payload (state domain) = snapshot_payload (composed source envelope) domain.
Proof. unfold state. cbn [ActionAuthorizationState.Payload]. reflexivity. Qed.

Lemma authorized_within_envelope_witness :
  CapabilityPritunlRecovery ∈ DomainEnvelope.AllowedCapabilities (envelope_of envelope DomainUser) /\
  "pritunl" ∈ DomainEnvelope.AllowedTargets (envelope_of envelope DomainUser).
Proof.
  destruct (authorized_within_envelope source envelope (ComposeEffectiveSnapshot source envelope).1
    (composed source envelope) DomainUser (state DomainUser)
    (request DomainUser CapabilityPritunlRecovery "pritunl") sample_instant composes (or_intror eq_refl)
    (state_payload DomainUser) ltac:(vm_compute; reflexivity)) as ((_ & Hc & Ht) & _). split; assumption.
Defined.

Lemma operator_denials_hold_witness :
  Allowed (EvaluateActionAuthorization (state DomainRoot) (request DomainRoot CapabilityOperatorResume "network")
    sample_instant) = false.
Proof.
  apply (operator_denials_hold source envelope (ComposeEffectiveSnapshot source envelope).1
    (composed source envelope) DomainRoot denied_rule).
  - exact composes.
  - left; reflexivity.
  - intros r Hr. repeat (apply elem_of_cons in Hr as [->|Hr]); [..|by apply elem_of_nil in Hr];
      (split; [apply Selector_Validate_shape; vm_compute; reflexivity|intros e p He; discriminate He]).
  - intros r r' key Hr Hr' K K'.
    repeat (apply elem_of_cons in Hr as [->|Hr]); [..|by apply elem_of_nil in Hr];
    repeat (apply elem_of_cons in Hr' as [->|Hr']); try (by apply elem_of_nil in Hr');
      first [by split | exfalso; vm_compute in K, K'; congruence].
  - left.
  - reflexivity.
  - split; [reflexivity|]. eexists. split; [reflexivity|]. split; reflexivity.
  - exact (state_payload DomainRoot).
Defined.

(** Composing a source changes it. The lease names a selector of another
    capability first; the first composition drops it and leaves the other
    identifier twice in the source, which the second composition refuses. *)
Definition reused : OperatorSource.t :=
  source_for envelope
    (DomainSource.mk 3
       [action_rule "root.resume" EffectAllow "root.s1" CapabilityOperatorResume "network";
        action_rule "root.tunnel" EffectAllow "root.s2" CapabilityTunnelOwnership "tunnel"]
       [lease "root.lease" DomainRoot CapabilityTunnelOwnership ["root.s1"; "root.s2"]])
    (DomainSource.mk 3 [] []).

Lemma composition_consumes_its_source :
  is_ok (ComposeEffectiveSnapshot reused envelope).2 = true /\
  (ComposeEffectiveSnapshot (ComposeEffectiveSnapshot reused envelope).1 envelope).2 =
    Err ErrOutsideSafetyEnvelope.
Proof. split; vm_compute; reflexivity. Qed.

(** A denial of the operator that overlaps a compiled denial is dropped even when
    it is wider. The operator denies every host of a domain and allows one of them:
    a conflict, which is refused; with a compiled denial of a third host the wide
    denial disappears and the allowance stays. *)
Definition endpoint (sid host : string) : Selector.t :=
  Selector.mk sid SelectorEndpoint
    (Some (EndpointSelector.mk host [PortRange.mk 443 443] ProtocolTCP TLSRequired PathPhysical)) None None None.

Definition endpoint_envelope (denied : list Selector.t) : SafetyEnvelope.t :=
  SafetyEnvelope.mk SafetyEnvelopeSchema (SafetyEnvelope.ProtectedFields DefaultSafetyEnvelope)
    (DomainEnvelope.mk DomainRoot "root." [CapabilityOperatorResume] [SelectorAction; SelectorEndpoint]
       ["network"] denied)
    (SafetyEnvelope.User DefaultSafetyEnvelope).

Definition wide_source (denied : list Selector.t) : OperatorSource.t :=
  source_for (endpoint_envelope denied)
    (DomainSource.mk 3
       [Rule.mk "root.deny" EffectDeny (endpoint "root.s1" "*.example.com");
        Rule.mk "root.allow" EffectAllow (endpoint "root.s2" "www.example.com")]
       [lease "root.lease" DomainRoot CapabilityOperatorResume ["root.s2"]])
    (DomainSource.mk 3 [] []).

Definition compiled_api : list Selector.t := [endpoint "compiled.root.api" "api.example.com"].

Lemma wider_denial_dropped :
  (ComposeEffectiveSnapshot (wide_source []) (endpoint_envelope [])).2 =
    Err (ConflictError [ConflictEndpointSemantics] false) /\
  sort_strings (map selector_id (DomainPayload.Rules (EffectiveSnapshot.Root
    (composed (wide_source compiled_api) (endpoint_envelope compiled_api))))) =
    ["compiled.root.api"; "root.s2"].
Proof. split; vm_compute; reflexivity. Qed.
End ComposeSample.
