(* ===== verification/PolicySemantic.v ===== *)
(** * Semantic identity of a policy

    [internal/policy/semantic.go]: the projection of a snapshot that forgets names,
    order and duplicates, its digests, and the rule that generations follow it.

    The set of rule keys and the map of leases are iterated in sorted order by the
    code; they are sorted lists without repetition here. *)

From Stdlib Require Import ZArith Lia Ascii String Sorted.
From stdpp Require Import base strings list option sets gmap.
From S2P Require Import Prelude GoTime PolicyModel PolicyValidate PolicyCanonical.
From S2P Require Import PolicySelector PolicySource PolicyEnvelope PolicyCompose.

Open Scope string_scope.
Open Scope Z_scope.

Module semanticLease.
Record t := mk {
  Domain : Domain;
  Capability : Capability;
  SelectorKeys : list string;
  IssuedAt : string;
  ExpiresAt : string
}.
#[global] Instance eq_dec : EqDecision t.
Proof. solve_decision. Defined.
End semanticLease.

Module semanticDomain.
Record t := mk {
  Domain : Domain;
  Rules : list string;
  Leases : list semanticLease.t
}.
#[global] Instance eq_dec : EqDecision t.
Proof. solve_decision. Defined.
End semanticDomain.

Module semanticSnapshot.
Record t := mk {
  Schema : string;
  PolicySchema : Z;
  StaticSHA256 : string;
  NotBefore : string;
  ExpiresAt : string;
  Root : semanticDomain.t;
  User : semanticDomain.t
}.
#[global] Instance eq_dec : EqDecision t.
Proof. solve_decision. Defined.
End semanticSnapshot.

(** The documents this package encodes. *)
Class SemanticCodecs `{JSON} := {
  semantic_lease_codec :: Codec semanticLease.t;
  semantic_domain_codec :: Codec semanticDomain.t;
  semantic_snapshot_codec :: Codec semanticSnapshot.t
}.

Section semantic.
Context `{JSON} `{!Codec Selector.t} `{!Codec keyedRule.t} `{!SemanticCodecs}.

(** The rule loop: the selector keys by identifier, and the rule keys. *)
Fixpoint project_rules (rules : list Rule.t) (selectorKeys : gmap string string) (ruleSet : list string)
    : result error (gmap string string * list string) :=
  match rules with
  | [] => Ok (selectorKeys, ruleSet)
  | r :: rules' =>
      selectorKey ← selectorSemanticKey (Rule.Selector r);
      ruleKey ← ruleSemanticKey r;
      project_rules rules' (<[selector_id r := selectorKey]> selectorKeys)
        (if contains_string ruleSet ruleKey then ruleSet else ruleKey :: ruleSet)
  end.

Definition project_lease (selectorKeys : gmap string string) (l : AuthorizationLease.t)
    : result error (semanticLease.t * string) :=
  keys ← mapM (fun id => of_option ErrInvalidDomainPayload (selectorKeys !! id)) (AuthorizationLease.SelectorIDs l);
  let projected := semanticLease.mk (AuthorizationLease.Domain l) (AuthorizationLease.Capability l)
    (sort_strings keys) (AuthorizationLease.IssuedAt l) (AuthorizationLease.ExpiresAt l) in
  key ← CanonicalSHA256 projected; Ok (projected, key.1).

(** The lease loop: [leaseSet], where a later lease replaces one of its key. *)
Fixpoint project_leases (selectorKeys : gmap string string) (leases : list AuthorizationLease.t)
    (leaseSet : gmap string semanticLease.t) : result error (gmap string semanticLease.t) :=
  match leases with
  | [] => Ok leaseSet
  | l :: leases' =>
      p ← project_lease selectorKeys l;
      project_leases selectorKeys leases' (<[p.2 := p.1]> leaseSet)
  end.

Definition projectSemanticDomain (payload : DomainPayload.t) : result error semanticDomain.t :=
  p ← project_rules (DomainPayload.Rules payload) ∅ [];
  leaseSet ← project_leases p.1 (DomainPayload.Leases payload) ∅;
  let leaseKeys := sort_strings (map fst (map_to_list leaseSet)) in
  Ok (semanticDomain.mk (DomainPayload.Domain payload) (sort_strings p.2)
        (omap (fun key => leaseSet !! key) leaseKeys)).

Definition DomainSemanticSHA256 (payload : DomainPayload.t) : result error string :=
  if failed (DomainPayload_Validate payload) then Err ErrInvalidDomainPayload
  else projection ← projectSemanticDomain payload; d ← CanonicalSHA256 projection; Ok d.1.

Definition EffectiveSemanticSHA256 (s : EffectiveSnapshot.t) : result error string :=
  if failed (EffectiveSnapshot_Validate s) then Err ErrInvalidEffectiveSnapshot
  else
    root ← projectSemanticDomain (EffectiveSnapshot.Root s);
    user ← projectSemanticDomain (EffectiveSnapshot.User s);
    d ← CanonicalSHA256 (semanticSnapshot.mk EffectiveSnapshotSchema (EffectiveSnapshot.PolicySchema s)
          (EffectiveSnapshot.StaticSHA256 s) (EffectiveSnapshot.NotBefore s) (EffectiveSnapshot.ExpiresAt s)
          root user);
    Ok d.1.

Definition IsSemanticNoOp (current candidate : EffectiveSnapshot.t) : result error bool :=
  currentDigest ← EffectiveSemanticSHA256 current;
  candidateDigest ← EffectiveSemanticSHA256 candidate;
  Ok (String.eqb currentDigest candidateDigest).

(** One round of the loop over the two domains. *)
Definition domain_advances (current candidate : DomainPayload.t) : result error unit :=
  currentDigest ← DomainSemanticSHA256 current;
  candidateDigest ← DomainSemanticSHA256 candidate;
  if String.eqb currentDigest candidateDigest then
    ensure (DomainPayload.PolicyGeneration candidate =? DomainPayload.PolicyGeneration current)
      ErrInvalidGenerationSemantic
  else
    ensure (negb (DomainPayload.PolicyGeneration candidate <=? DomainPayload.PolicyGeneration current))
      ErrInvalidGenerationSemantic.

Definition ValidateSemanticAdvance (current candidate : EffectiveSnapshot.t) : result error unit :=
  noOp ← IsSemanticNoOp current candidate;
  if (noOp : bool) then Err ErrSemanticNoOp
  else if EffectiveSnapshot.BundleGeneration candidate <=? EffectiveSnapshot.BundleGeneration current
  then Err ErrInvalidGenerationSemantic
  else
    _ ← domain_advances (EffectiveSnapshot.Root current) (EffectiveSnapshot.Root candidate);
    domain_advances (EffectiveSnapshot.User current) (EffectiveSnapshot.User candidate).


(** ** The projection forgets names and order *)

Lemma selectorSemanticKey_rename s id : selectorSemanticKey (with_ID s id) = selectorSemanticKey s.
Proof.
  assert (with_ID (normalizeSelector (with_ID s id)) "semantic" = with_ID (normalizeSelector s) "semantic") as Heq
    by (by destruct s as [? ? [?|] ? ? ?]).
  unfold selectorSemanticKey. by rewrite Heq.
Qed.

(** The rule says the same under another name. *)
Definition renamed_rule (f : string -> string) (r1 r2 : Rule.t) : Prop :=
  Rule.Effect r2 = Rule.Effect r1 /\ Rule.Selector r2 = with_ID (Rule.Selector r1) (f (selector_id r1)).

Definition renamed_lease (f : string -> string) (l1 l2 : AuthorizationLease.t) : Prop :=
  AuthorizationLease.Domain l2 = AuthorizationLease.Domain l1 /\
  AuthorizationLease.Capability l2 = AuthorizationLease.Capability l1 /\
  AuthorizationLease.IssuedAt l2 = AuthorizationLease.IssuedAt l1 /\
  AuthorizationLease.ExpiresAt l2 = AuthorizationLease.ExpiresAt l1 /\
  map f (AuthorizationLease.SelectorIDs l1) ≡ₚ AuthorizationLease.SelectorIDs l2.

(** The second payload is the first with its rules reordered, its rules, selectors
    and leases renamed, and the selectors of each lease reordered. *)
Definition renamed (f : string -> string) (p1 p2 : DomainPayload.t) : Prop :=
  DomainPayload.Domain p2 = DomainPayload.Domain p1 /\
  (exists rules, Forall2 (renamed_rule f) (DomainPayload.Rules p1) rules /\ rules ≡ₚ DomainPayload.Rules p2) /\
  Forall2 (renamed_lease f) (DomainPayload.Leases p1) (DomainPayload.Leases p2).

Lemma renamed_rule_keys f r1 r2 : renamed_rule f r1 r2 ->
  selectorSemanticKey (Rule.Selector r2) = selectorSemanticKey (Rule.Selector r1) /\
  ruleSemanticKey r2 = ruleSemanticKey r1 /\ selector_id r2 = f (selector_id r1).
Proof.
  intros [He Hs]. unfold ruleSemanticKey, selector_id. by rewrite Hs, He, selectorSemanticKey_rename.
Qed.

Lemma project_rules_spec rules m s m' s' : project_rules rules m s = Ok (m', s') ->
  NoDup (map selector_id rules) ->
  (forall r, r ∈ rules -> exists key, selectorSemanticKey (Rule.Selector r) = Ok key /\ m' !! selector_id r = Some key) /\
  (forall id, id ∉ map selector_id rules -> m' !! id = m !! id) /\
  (forall r, r ∈ rules -> exists key, ruleSemanticKey r = Ok key) /\
  (forall k, k ∈ s' <-> k ∈ s \/ exists r, r ∈ rules /\ ruleSemanticKey r = Ok k) /\ (NoDup s -> NoDup s').
Proof.
  revert m s. induction rules as [|r rules IH]; intros m s Hp Hnd; simpl in *; [simplify_eq; set_solver|].
  apply bind_Ok in Hp as (sk & Hsk & Hp). apply bind_Ok in Hp as (rk & Hrk & Hp).
  apply NoDup_cons in Hnd as [Hnin Hnd]. destruct (IH _ _ Hp Hnd) as (Hsel & Hout & Hrule & Hset & Hnds).
  assert (forall k, k ∈ (if contains_string s rk then s else rk :: s) <-> k = rk \/ k ∈ s) as Hadd.
  { intros k. destruct (contains_string s rk) eqn:Hc; [apply contains_string_spec in Hc|]; set_solver. }
  split_and!.
  - intros x [->|Hx]%elem_of_cons; [|by apply Hsel]. exists sk. split; [done|].
    rewrite Hout by done. by rewrite lookup_insert, decide_True.
  - intros id Hid. rewrite Hout by set_solver. rewrite lookup_insert_ne; [done|]. set_solver.
  - intros x [->|Hx]%elem_of_cons; [by exists rk|by apply Hrule].
  - intros k. rewrite Hset, Hadd. split.
    + intros [[->|?]|(x & ? & ?)]; [right; exists r; by split; [left|]|by left|].
      right. exists x. by split; [right|].
    + intros [?|(x & [->|Hx]%elem_of_cons & Hk)]; [by left; right|left; left; congruence|].
      right. by exists x.
  - intros Hs. apply Hnds. destruct (contains_string s rk) eqn:Hc; [done|].
    constructor; [|done]. intros Hin%contains_string_spec. congruence.
Qed.

Lemma project_rules_total rules m s :
  (forall r, r ∈ rules -> (exists k, selectorSemanticKey (Rule.Selector r) = Ok k) /\ exists k, ruleSemanticKey r = Ok k) ->
  exists p, project_rules rules m s = Ok p.
Proof.
  revert m s. induction rules as [|r rules IH]; intros m s Hk; [by eexists|]. simpl.
  destruct (Hk r) as [[k ->] [k' ->]]; [left|]. apply IH. intros x Hx. apply Hk. by right.
Qed.

Lemma project_lease_renamed f m1 m2 l1 l2 p : project_lease m1 l1 = Ok p -> renamed_lease f l1 l2 ->
  (forall id key, m1 !! id = Some key -> m2 !! f id = Some key) -> project_lease m2 l2 = Ok p.
Proof.
  unfold project_lease. intros Hp (Hd & Hc & Hi & He & Hids) Hm. apply bind_Ok in Hp as (keys & Hk & Hp).
  apply mapM_Ok in Hk.
  assert (Forall2 (fun id key => of_option ErrInvalidDomainPayload (m2 !! id) = Ok key)
    (map f (AuthorizationLease.SelectorIDs l1)) keys) as Hk2.
  { apply Forall2_fmap_l. eapply Forall2_impl; [exact Hk|]. simpl. intros id key Hl.
    destruct (m1 !! id) as [x|] eqn:Hx; [|done]. by rewrite (Hm id x Hx). }
  destruct (Permutation_Forall2 Hids Hk2) as (keys' & Hperm & Hk3). apply mapM_Ok in Hk3. rewrite Hk3. simpl.
  by rewrite Hd, Hc, Hi, He, <- (sort_strings_perm _ _ Hperm).
Qed.

Lemma project_leases_renamed f m1 m2 ls1 ls2 set p : project_leases m1 ls1 set = Ok p ->
  Forall2 (renamed_lease f) ls1 ls2 -> (forall id key, m1 !! id = Some key -> m2 !! f id = Some key) ->
  project_leases m2 ls2 set = Ok p.
Proof.
  intros Hp Hf Hm. revert set Hp. induction Hf as [|l1 l2 ls1 ls2 Hl Hf IH]; intros set Hp; simpl in *; [done|].
  apply bind_Ok in Hp as (x & Hx & Hp). rewrite (project_lease_renamed f m1 m2 l1 l2 x); [|done..]. by apply IH.
Qed.

(** The semantic digest sees the meaning and not the wording. A payload whose
    rules are reordered, whose rules, selectors and leases have other names and
    whose leases list their selectors in another order, has the same projection,
    and so the same semantic digest. *)
Theorem semantics_ignore_names f p1 p2 projection :
  DomainPayload_Validate p1 = Ok tt -> DomainPayload_Validate p2 = Ok tt -> renamed f p1 p2 ->
  projectSemanticDomain p1 = Ok projection ->
  projectSemanticDomain p2 = Ok projection /\ DomainSemanticSHA256 p2 = DomainSemanticSHA256 p1.
Proof.
  intros V1 V2 (Hd & (rules & Hr & Hperm) & Hl) Hp.
  assert (projectSemanticDomain p2 = Ok projection) as H2.
  2:{ split; [done|]. unfold DomainSemanticSHA256. by rewrite V1, V2, Hp, H2. }
  apply DomainPayload_Validate_Ok in V1 as (_ & _ & V1 & _), V2 as (_ & _ & V2 & _).
  apply rules_valid_spec in V1 as (_ & N1 & _), V2 as (_ & N2 & _).
  unfold projectSemanticDomain in Hp. apply bind_Ok in Hp as ([m1 s1] & Hp1 & Hp).
  apply bind_Ok in Hp as (leaseSet & Hls & [= <-]).
  destruct (project_rules_spec _ _ _ _ _ Hp1 N1) as (Sel1 & Out1 & Rule1 & Set1 & Nd1).
  assert (forall r2, r2 ∈ DomainPayload.Rules p2 -> exists r1, r1 ∈ DomainPayload.Rules p1 /\ renamed_rule f r1 r2) as Hback.
  { intros r2 H2. rewrite <- Hperm in H2. apply list_elem_of_lookup_1 in H2 as [i Hi].
    destruct (Forall2_lookup_r _ _ _ _ _ Hr Hi) as (r1 & H1 & ?). exists r1. by split; [eapply list_elem_of_lookup_2|]. }
  assert (forall r1, r1 ∈ DomainPayload.Rules p1 -> exists r2, r2 ∈ DomainPayload.Rules p2 /\ renamed_rule f r1 r2) as Hforth.
  { intros r1 H1. apply list_elem_of_lookup_1 in H1 as [i Hi].
    destruct (Forall2_lookup_l _ _ _ _ _ Hr Hi) as (r2 & H2 & ?). exists r2. rewrite <- Hperm.
    by split; [eapply list_elem_of_lookup_2|]. }
  destruct (project_rules_total (DomainPayload.Rules p2) ∅ []) as [[m2 s2] Hp2].
  { intros r2 H2. destruct (Hback r2 H2) as (r1 & H1 & Hren). apply renamed_rule_keys in Hren as (-> & -> & _).
    destruct (Sel1 r1 H1) as (k & ? & _), (Rule1 r1 H1) as (k' & ?). split; [by exists k|by exists k']. }
  destruct (project_rules_spec _ _ _ _ _ Hp2 N2) as (Sel2 & _ & _ & Set2 & Nd2).
  unfold projectSemanticDomain. rewrite Hp2. simpl. simpl in Hls.
  rewrite (project_leases_renamed f m1 m2 _ _ _ leaseSet Hls Hl).
  - simpl. do 2 f_equal; [done|]. apply sort_strings_perm, NoDup_Permutation; [by apply Nd2, NoDup_nil_2..|by apply Nd1, NoDup_nil_2|].
    intros k. rewrite Set1, Set2. split; (intros [?|(r & Hin & Hk)]; [by left|]); right.
    + destruct (Hback r Hin) as (r1 & ? & Hren). apply renamed_rule_keys in Hren as (_ & Hrk & _).
      exists r1. by rewrite <- Hrk.
    + destruct (Hforth r Hin) as (r2 & ? & Hren). apply renamed_rule_keys in Hren as (_ & Hrk & _).
      exists r2. by rewrite Hrk.
  - intros id key Hid. destruct (decide (id ∈ map selector_id (DomainPayload.Rules p1))) as [Hin|Hin].
    + apply list_elem_of_fmap in Hin as (r1 & -> & H1). destruct (Sel1 r1 H1) as (k & Hk & Hm1).
      destruct (Hforth r1 H1) as (r2 & H2 & Hren). apply renamed_rule_keys in Hren as (Hsk & _ & <-).
      destruct (Sel2 r2 H2) as (k2 & Hk2 & ->). congruence.
    + rewrite Out1 in Hid by done. by rewrite lookup_empty in Hid.
Qed.

(** ** Generations follow the semantics *)

Definition accepted (current candidate : EffectiveSnapshot.t) : Prop :=
  ValidateSemanticAdvance current candidate = Ok tt.

Lemma domain_advances_Ok current candidate : domain_advances current candidate = Ok tt ->
  exists d d', DomainSemanticSHA256 current = Ok d /\ DomainSemanticSHA256 candidate = Ok d' /\
    DomainPayload.PolicyGeneration current <= DomainPayload.PolicyGeneration candidate /\
    (DomainPayload.PolicyGeneration current = DomainPayload.PolicyGeneration candidate <-> d = d').
Proof.
  unfold domain_advances. intros Ha. apply bind_Ok in Ha as (d & Hd & Ha). apply bind_Ok in Ha as (d' & Hd' & Ha).
  exists d, d'. split_and!; [done..| |].
  - destruct (String.eqb_spec d d'); apply ensure_Ok in Ha; bool_prop; lia.
  - destruct (String.eqb_spec d d'); apply ensure_Ok in Ha; bool_prop; split; intros; (done || lia).
Qed.

Lemma accepted_Ok current candidate : accepted current candidate ->
  (exists d d', EffectiveSemanticSHA256 current = Ok d /\ EffectiveSemanticSHA256 candidate = Ok d' /\ d <> d') /\
  EffectiveSnapshot.BundleGeneration current < EffectiveSnapshot.BundleGeneration candidate /\
  forall domain, domain_advances (snapshot_payload current domain) (snapshot_payload candidate domain) = Ok tt.
Proof.
  unfold accepted, ValidateSemanticAdvance, IsSemanticNoOp. intros Ha.
  apply bind_Ok in Ha as (noOp & Hn & Ha). apply bind_Ok in Hn as (d & Hd & Hn).
  apply bind_Ok in Hn as (d' & Hd' & [= <-]). destruct (String.eqb_spec d d') as [|Hne]; [done|].
  destruct (_ <=? _) eqn:Hb; [done|]. apply bind_Ok in Ha as ([] & Hr & Hu). bool_prop.
  split_and!; [by exists d, d'|done|]. intros domain. unfold snapshot_payload. by destruct (String.eqb _ _).
Qed.

(** A policy generation names one meaning. Along any chain of snapshots that
    [ValidateSemanticAdvance] accepts, the bundle generation grows at every step,
    the policy generation of each domain never decreases, and two snapshots of the
    chain with the same policy generation of a domain have the same semantic digest
    of it; a step is only accepted when the meaning of the whole changed. *)
Theorem generations_follow_semantics first second last domain :
  accepted first second -> rtc accepted second last ->
  EffectiveSnapshot.BundleGeneration first < EffectiveSnapshot.BundleGeneration last /\
  EffectiveSemanticSHA256 first <> EffectiveSemanticSHA256 second /\
  DomainPayload.PolicyGeneration (snapshot_payload first domain) <=
    DomainPayload.PolicyGeneration (snapshot_payload last domain) /\
  (DomainPayload.PolicyGeneration (snapshot_payload first domain) =
     DomainPayload.PolicyGeneration (snapshot_payload last domain) ->
   DomainSemanticSHA256 (snapshot_payload first domain) = DomainSemanticSHA256 (snapshot_payload last domain)).
Proof.
  intros H1 Hrest. destruct (accepted_Ok _ _ H1) as ((d & d' & Hd & Hd' & Hne) & _).
  assert (EffectiveSemanticSHA256 first <> EffectiveSemanticSHA256 second) as Hs by congruence.
  enough (EffectiveSnapshot.BundleGeneration first < EffectiveSnapshot.BundleGeneration last /\
    DomainPayload.PolicyGeneration (snapshot_payload first domain) <=
      DomainPayload.PolicyGeneration (snapshot_payload last domain) /\
    (DomainPayload.PolicyGeneration (snapshot_payload first domain) =
       DomainPayload.PolicyGeneration (snapshot_payload last domain) ->
     DomainSemanticSHA256 (snapshot_payload first domain) = DomainSemanticSHA256 (snapshot_payload last domain)))
    by tauto.
  clear d d' Hd Hd' Hne Hs. revert first H1.
  induction Hrest as [second|second third last H2 Hrest IH]; intros first H1;
    destruct (accepted_Ok _ _ H1) as (_ & Hb & Hd); specialize (Hd domain);
    apply domain_advances_Ok in Hd as (d & d' & Hd & Hd' & Hle & Heq).
  - split_and!; [lia|lia|]. intros Hg. rewrite Hd, Hd'. f_equal. by apply Heq.
  - destruct (IH second H2) as (Hb' & Hle' & Heq'). split_and!; [lia|lia|].
    intros Hg. assert (d = d') as -> by (apply Heq; lia). rewrite Hd, <- Hd'. apply Heq'. lia.
Qed.
End semantic.

(** ** Examples *)

Module SemanticSample.
Import SampleDigest ComposeSample.

Definition projected_texts (l : semanticLease.t) : list string :=
  "semantic lease" :: semanticLease.Domain l :: semanticLease.Capability l :: semanticLease.IssuedAt l ::
  semanticLease.ExpiresAt l :: semanticLease.SelectorKeys l.

Definition domain_texts (d : semanticDomain.t) : list string :=
  ("domain" :: semanticDomain.Domain d :: semanticDomain.Rules d ++
   concat (map projected_texts (semanticDomain.Leases d)))%list.

Definition snapshot_texts (s : semanticSnapshot.t) : list string :=
  ("snapshot" :: semanticSnapshot.Schema s :: number (semanticSnapshot.PolicySchema s) ::
   semanticSnapshot.StaticSHA256 s :: semanticSnapshot.NotBefore s :: semanticSnapshot.ExpiresAt s ::
   domain_texts (semanticSnapshot.Root s) ++ domain_texts (semanticSnapshot.User s))%list.

#[export] Instance semantic_codecs : SemanticCodecs := {|
  semantic_lease_codec := texts_codec projected_texts;
  semantic_domain_codec := texts_codec domain_texts;
  semantic_snapshot_codec := texts_codec snapshot_texts |}.

(** A user payload, and the same under other names, in another order. *)
Definition payload (r1 r2 s1 s2 : string) (generation : Z) (rules : list Rule.t -> list Rule.t)
    (ids : list string) : DomainPayload.t :=
  DomainPayload.mk DomainPayloadSchema DomainUser generation
    (rules [action_rule r1 EffectAllow s1 CapabilityPritunlRecovery "pritunl";
            action_rule r2 EffectDeny s2 CapabilityOperatorResume "pritunl"])
    [lease "user.lease" DomainUser CapabilityPritunlRecovery ids].

Definition payload1 : DomainPayload.t := payload "user.a" "user.b" "user.s1" "user.s2" 3 id ["user.s1"; "user.s2"].
Definition payload2 : DomainPayload.t := payload "user.x" "user.y" "user.t1" "user.t2" 3 reverse ["user.t2"; "user.t1"].
Definition renaming (id : string) : string := if String.eqb id "user.s1" then "user.t1" else "user.t2".

Definition projection1 : semanticDomain.t :=
  match projectSemanticDomain payload1 with Ok x => x | Err _ => semanticDomain.mk "" [] [] end.

Lemma semantics_ignore_names_witness : DomainSemanticSHA256 payload2 = DomainSemanticSHA256 payload1.
Proof.
  apply (semantics_ignore_names renaming payload1 payload2 projection1).
  - vm_compute. reflexivity.
  - vm_compute. reflexivity.
  - split; [reflexivity|]. split.
    + exists (reverse (DomainPayload.Rules payload2)). split; [|apply reverse_Permutation].
      repeat constructor.
    + repeat constructor.
  - vm_compute. reflexivity.
Defined.

Definition root_payload : DomainPayload.t := DomainPayload.mk DomainPayloadSchema DomainRoot 5 [] [].

Definition snapshot (bundle : Z) (user : DomainPayload.t) : EffectiveSnapshot.t :=
  EffectiveSnapshot.mk EffectiveSnapshotSchema 1 bundle (bundle - 1) (digest_of envelope) issued issued expires
    root_payload user.

Definition first := snapshot 7 payload1.
Definition second := snapshot 8 (payload "user.a" "user.b" "user.s1" "user.s2" 4 id ["user.s1"]).
Definition third := snapshot 9 (payload "user.a" "user.b" "user.s1" "user.s2" 5 id ["user.s2"]).

Lemma generations_follow_semantics_witness :
  DomainSemanticSHA256 (snapshot_payload first DomainRoot) = DomainSemanticSHA256 (snapshot_payload third DomainRoot).
Proof.
  apply (generations_follow_semantics first second third DomainRoot).
  - vm_compute. reflexivity.
  - apply rtc_once. vm_compute. reflexivity.
  - reflexivity.
Defined.
End SemanticSample.
