(* ===== verification/PolicyBundle.v ===== *)
(** * Policy bundles

    [internal/policy/bundle.go]: the compiler of a candidate bundle, its
    validation, and the decoding of its three canonical documents. Composition
    rewrites the leases of the source it is given ([PolicyCompose]), so the compiler
    returns the source as it is afterwards beside its result. *)

From Stdlib Require Import ZArith Lia Ascii String.
From stdpp Require Import base strings list option sets gmap.
From S2P Require Import Prelude GoTime PolicyModel PolicyValidate PolicyCanonical.
From S2P Require Import PolicySelector PolicySource PolicyEnvelope PolicyCompose PolicySemantic.

Open Scope string_scope.
Open Scope Z_scope.

Definition MaxBundleArtifactSize := MaxCanonicalJSONSize.

Module CompilerIdentity.
Record t := mk { Version : string; SHA256 : string }.
#[global] Instance eq_dec : EqDecision t.
Proof. solve_decision. Defined.
End CompilerIdentity.

Definition CompilerIdentity_Validate (i : CompilerIdentity.t) : result error unit :=
  if negb (validVersion (CompilerIdentity.Version i)) || negb (validSHA256 (CompilerIdentity.SHA256 i))
  then Err ErrInvalidCompilerIdentity else Ok tt.

(** The documents the compiler reads and writes. *)
Class BundleCodecs `{JSON} := {
  bundle_selector :: Codec Selector.t;
  bundle_rule :: Codec keyedRule.t;
  bundle_envelope :: Codec SafetyEnvelope.t;
  bundle_lease :: Codec leaseKey.t;
  bundle_semantic :: SemanticCodecs;
  bundle_manifest :: Codec Manifest.t;
  bundle_payload :: Codec DomainPayload.t
}.

Section bundle.
Context `{JSON} `{!BundleCodecs}.

Record CandidateBundle := mkBundle {
  b_Manifest : Manifest.t;
  b_Root : DomainPayload.t;
  b_User : DomainPayload.t;
  b_Snapshot : EffectiveSnapshot.t;
  b_ManifestJSON : Doc;
  b_RootJSON : Doc;
  b_UserJSON : Doc;
  b_ManifestSHA256 : string
}.

(** One of the two payload checks of [Validate]: the payload, the snapshot's copy,
    the manifest's reference and the stored text agree. *)
Definition payload_bound (payload copy : DomainPayload.t) (reference : DomainReference.t) (encoded : Doc) : bool :=
  match CanonicalSHA256 payload with
  | Err _ => false
  | Ok (digest, canonical) =>
      if negb (String.eqb digest (DomainReference.PayloadSHA256 reference)) ||
         negb (DomainReference.Generation reference =? DomainPayload.PolicyGeneration payload) ||
         negb (bool_decide (canonical = encoded)) then false
      else match CanonicalSHA256 copy with
           | Err _ => false
           | Ok (copyDigest, _) => String.eqb copyDigest digest
           end
  end.

Definition CandidateBundle_Validate (c : CandidateBundle) : result error unit :=
  let m := b_Manifest c in
  let s := b_Snapshot c in
  if failed (Manifest_Validate m) || failed (EffectiveSnapshot_Validate s) ||
     failed (DomainPayload_Validate (b_Root c)) || failed (DomainPayload_Validate (b_User c)) ||
     negb (String.eqb (DomainPayload.Domain (b_Root c)) DomainRoot) ||
     negb (String.eqb (DomainPayload.Domain (b_User c)) DomainUser) ||
     negb (Manifest.BundleGeneration m =? EffectiveSnapshot.BundleGeneration s) ||
     negb (Manifest.ParentBundleGeneration m =? EffectiveSnapshot.ParentBundleGeneration s) ||
     negb (Manifest.PolicySchema m =? EffectiveSnapshot.PolicySchema s) ||
     negb (String.eqb (Manifest.StaticSHA256 m) (EffectiveSnapshot.StaticSHA256 s)) ||
     negb (String.eqb (Manifest.IssuedAt m) (EffectiveSnapshot.IssuedAt s)) ||
     negb (String.eqb (Manifest.NotBefore m) (EffectiveSnapshot.NotBefore s)) ||
     negb (String.eqb (Manifest.ExpiresAt m) (EffectiveSnapshot.ExpiresAt s))
  then Err ErrInvalidCandidateBundle
  else if negb (payload_bound (b_Root c) (EffectiveSnapshot.Root s) (Manifest.Root m) (b_RootJSON c))
  then Err ErrInvalidCandidateBundle
  else if negb (payload_bound (b_User c) (EffectiveSnapshot.User s) (Manifest.User m) (b_UserJSON c))
  then Err ErrInvalidCandidateBundle
  else match CanonicalSHA256 m with
       | Err _ => Err ErrInvalidCandidateBundle
       | Ok (digest, canonical) =>
           if negb (String.eqb digest (b_ManifestSHA256 c)) || negb (bool_decide (canonical = b_ManifestJSON c))
           then Err ErrInvalidCandidateBundle else Ok tt
       end.

(** The part of [CompileBundle] after composition. *)
Definition assemble (snapshot : EffectiveSnapshot.t) (identity : CompilerIdentity.t) (signerFingerprint : string)
    : result error CandidateBundle :=
  let internal {A} (r : result error A) := map_err (fun _ => ErrInvalidCandidateBundle) r in
  let root := EffectiveSnapshot.Root snapshot in
  let user := EffectiveSnapshot.User snapshot in
  rootEncoded ← internal (CanonicalSHA256 root);
  userEncoded ← internal (CanonicalSHA256 user);
  let manifest := Manifest.mk ManifestSchema (EffectiveSnapshot.PolicySchema snapshot)
    (CompilerIdentity.Version identity) (CompilerIdentity.SHA256 identity)
    (EffectiveSnapshot.BundleGeneration snapshot) (EffectiveSnapshot.ParentBundleGeneration snapshot)
    (DomainReference.mk (DomainPayload.PolicyGeneration root) rootEncoded.1)
    (DomainReference.mk (DomainPayload.PolicyGeneration user) userEncoded.1)
    (EffectiveSnapshot.StaticSHA256 snapshot) signerFingerprint (EffectiveSnapshot.IssuedAt snapshot)
    (EffectiveSnapshot.NotBefore snapshot) (EffectiveSnapshot.ExpiresAt snapshot) in
  manifestEncoded ← internal (CanonicalSHA256 manifest);
  let candidate := mkBundle manifest root user snapshot manifestEncoded.2 rootEncoded.2 userEncoded.2
    manifestEncoded.1 in
  _ ← CandidateBundle_Validate candidate; Ok candidate.

Definition CompileBundle (source : OperatorSource.t) (envelope : SafetyEnvelope.t)
    (identity : CompilerIdentity.t) (signerFingerprint : string) (current : option EffectiveSnapshot.t)
    : OperatorSource.t * result error CandidateBundle :=
  if failed (CompilerIdentity_Validate identity) || negb (validSHA256 signerFingerprint)
  then (source, Err ErrInvalidCompilerIdentity)
  else match ComposeEffectiveSnapshot source envelope with
  | (source', Err err) => (source', Err err)
  | (source', Ok snapshot) =>
      (source',
       _ ← (match current with
            | Some c => ValidateSemanticAdvance c snapshot
            | None => Ok tt
            end);
       assemble snapshot identity signerFingerprint)
  end.

(** ** Decoding *)

Definition decodeCanonicalArtifact {T} `{!Codec T} (encoded : Doc) (validate : T -> result error unit)
    : result error (T * string) :=
  if (doc_len encoded =? 0) || (MaxBundleArtifactSize <? doc_len encoded) then Err ErrInvalidCandidateBundle
  else match strictJSONDecode encoded with
  | None => Err ErrInvalidCandidateBundle
  | Some value =>
      if failed (validate value) then Err ErrInvalidCandidateBundle
      else match CanonicalSHA256 value with
      | Err _ => Err ErrInvalidCandidateBundle
      | Ok (digest, canonical) =>
          if negb (bool_decide (encoded = canonical)) then Err ErrInvalidCandidateBundle else Ok (value, digest)
      end
  end.

Definition DecodeManifestArtifact (encoded : Doc) : result error (Manifest.t * string) :=
  decodeCanonicalArtifact encoded Manifest_Validate.

Definition DecodeDomainPayloadArtifact (encoded : Doc) : result error (DomainPayload.t * string) :=
  decodeCanonicalArtifact encoded DomainPayload_Validate.

Definition DecodeCandidateBundle (manifestJSON rootJSON userJSON : Doc) : result error CandidateBundle :=
  m ← DecodeManifestArtifact manifestJSON;
  root ← DecodeDomainPayloadArtifact rootJSON;
  user ← map_err (fun _ => ErrInvalidCandidateBundle) (DecodeDomainPayloadArtifact userJSON);
  let manifest := m.1 in
  let snapshot := EffectiveSnapshot.mk EffectiveSnapshotSchema (Manifest.PolicySchema manifest)
    (Manifest.BundleGeneration manifest) (Manifest.ParentBundleGeneration manifest)
    (Manifest.StaticSHA256 manifest) (Manifest.IssuedAt manifest) (Manifest.NotBefore manifest)
    (Manifest.ExpiresAt manifest) root.1 user.1 in
  let candidate := mkBundle manifest root.1 user.1 snapshot manifestJSON rootJSON userJSON m.2 in
  if failed (CandidateBundle_Validate candidate) then Err ErrInvalidCandidateBundle else Ok candidate.

(** ** A compiled bundle is read back *)

Definition exact_bundle (c : CandidateBundle) : Prop :=
  exact (b_Manifest c) = true /\ exact (b_Root c) = true /\ exact (b_User c) = true.

Lemma assemble_spec snapshot identity signer c : assemble snapshot identity signer = Ok c ->
  EffectiveSnapshot.Schema snapshot = EffectiveSnapshotSchema ->
  CandidateBundle_Validate c = Ok tt /\ b_Snapshot c = snapshot /\
  b_Root c = EffectiveSnapshot.Root snapshot /\ b_User c = EffectiveSnapshot.User snapshot /\
  CanonicalSHA256 (b_Manifest c) = Ok (b_ManifestSHA256 c, b_ManifestJSON c) /\
  snapshot = EffectiveSnapshot.mk EffectiveSnapshotSchema (Manifest.PolicySchema (b_Manifest c))
    (Manifest.BundleGeneration (b_Manifest c)) (Manifest.ParentBundleGeneration (b_Manifest c))
    (Manifest.StaticSHA256 (b_Manifest c)) (Manifest.IssuedAt (b_Manifest c)) (Manifest.NotBefore (b_Manifest c))
    (Manifest.ExpiresAt (b_Manifest c)) (b_Root c) (b_User c) /\
  Manifest.SignerFingerprint (b_Manifest c) = signer.
Proof.
  unfold assemble. intros Ha Hs. apply bind_Ok in Ha as ([rd rj] & Hr & Ha).
  apply bind_Ok in Ha as ([ud uj] & Hu & Ha). apply bind_Ok in Ha as ([md mj] & Hm & Ha).
  apply bind_Ok in Ha as ([] & Hv & [= <-]). simpl.
  split; [exact Hv|]. do 3 (split; [reflexivity|]). simpl in Hm. split.
  - destruct (CanonicalSHA256 _) as [x|] in Hm |- *; [|done]. by injection Hm as ->.
  - split; [|reflexivity]. destruct snapshot. simpl in *. by subst.
Qed.

(** What validation binds together. *)
Lemma payload_bound_spec payload copy reference encoded : payload_bound payload copy reference encoded = true ->
  exists digest, CanonicalSHA256 payload = Ok (digest, encoded) /\
    DomainReference.PayloadSHA256 reference = digest /\
    DomainReference.Generation reference = DomainPayload.PolicyGeneration payload /\
    exists copyDoc, CanonicalSHA256 copy = Ok (digest, copyDoc).
Proof.
  unfold payload_bound. intros Hp. destruct (CanonicalSHA256 payload) as [[digest canonical]|]; [|done].
  destruct (_ || _) eqn:Hg; [done|]. bool_prop. subst.
  destruct (CanonicalSHA256 copy) as [[cd doc]|]; [|done]. bool_prop. subst. naive_solver.
Qed.

Lemma CandidateBundle_Validate_Ok c : CandidateBundle_Validate c = Ok tt ->
  (Manifest_Validate (b_Manifest c) = Ok tt /\ EffectiveSnapshot_Validate (b_Snapshot c) = Ok tt /\
   DomainPayload_Validate (b_Root c) = Ok tt /\ DomainPayload_Validate (b_User c) = Ok tt) /\
  (payload_bound (b_Root c) (EffectiveSnapshot.Root (b_Snapshot c)) (Manifest.Root (b_Manifest c)) (b_RootJSON c) = true /\
   payload_bound (b_User c) (EffectiveSnapshot.User (b_Snapshot c)) (Manifest.User (b_Manifest c)) (b_UserJSON c) = true) /\
  CanonicalSHA256 (b_Manifest c) = Ok (b_ManifestSHA256 c, b_ManifestJSON c).
Proof.
  unfold CandidateBundle_Validate. destruct (_ || _) eqn:Hg; [done|]. bool_prop.
  destruct (negb (payload_bound (b_Root c) _ _ _)) eqn:Hr; [done|].
  destruct (negb (payload_bound (b_User c) _ _ _)) eqn:Hu; [done|]. bool_prop.
  destruct (CanonicalSHA256 (b_Manifest c)) as [[d doc]|]; [|done].
  destruct (_ || _) eqn:Hd; [done|]. bool_prop. subst. by rewrite !failed_unit in *.
Qed.

Lemma decodeCanonicalArtifact_encoded {T} `{!Codec T} `{!CodecLaws T} (v : T) validate digest doc :
  exact v = true -> CanonicalSHA256 v = Ok (digest, doc) -> validate v = Ok tt ->
  decodeCanonicalArtifact doc validate = Ok (v, digest).
Proof.
  intros He Hc Hv. pose proof Hc as [Hm ->]%CanonicalSHA256_Ok.
  unfold decodeCanonicalArtifact. pose proof (MarshalCanonical_len v doc Hm) as [Hl0 Hl1].
  unfold MaxBundleArtifactSize.
  rewrite (proj2 (Z.eqb_neq _ _)), (proj2 (Z.ltb_ge _ _)) by (done || lia). simpl.
  rewrite (decode_canonical v doc He Hm), Hv, Hc. simpl. by rewrite bool_decide_eq_true_2.
Qed.

Lemma composed_schema source envelope source' snapshot :
  ComposeEffectiveSnapshot source envelope = (source', Ok snapshot) ->
  EffectiveSnapshot.Schema snapshot = EffectiveSnapshotSchema.
Proof.
  intros Hc. apply ComposeEffectiveSnapshot_Ok in Hc as (_ & Hv & _).
  unfold EffectiveSnapshot_Validate in Hv. destruct (_ || _) eqn:Hg; [done|]. by bool_prop.
Qed.

Lemma CompileBundle_Ok source envelope identity signer current source' c :
  CompileBundle source envelope identity signer current = (source', Ok c) ->
  ComposeEffectiveSnapshot source envelope = (source', Ok (b_Snapshot c)) /\
  (forall s, current = Some s -> ValidateSemanticAdvance s (b_Snapshot c) = Ok tt) /\
  assemble (b_Snapshot c) identity signer = Ok c /\ CandidateBundle_Validate c = Ok tt.
Proof.
  unfold CompileBundle. destruct (_ || _); [done|].
  destruct (ComposeEffectiveSnapshot source envelope) as [s' [snapshot|]] eqn:Hc; [|done].
  intros [= <- Ha]. apply bind_Ok in Ha as ([] & Hadv & Ha).
  destruct (assemble_spec _ _ _ _ Ha (composed_schema _ _ _ _ Hc)) as (Hv & Hs & _). rewrite Hs.
  split_and!; try done. intros s ->. done.
Qed.

(** A compiled bundle survives its files. When the three documents are exact,
    decoding the texts that the compiler wrote gives the compiled bundle again,
    snapshot and manifest digest included. *)
Theorem compiled_bundle_roundtrip `{!CodecLaws Manifest.t} `{!CodecLaws DomainPayload.t}
    source envelope identity signer current source' c :
  CompileBundle source envelope identity signer current = (source', Ok c) -> exact_bundle c ->
  DecodeCandidateBundle (b_ManifestJSON c) (b_RootJSON c) (b_UserJSON c) = Ok c.
Proof.
  intros Hc (Em & Er & Eu). destruct (CompileBundle_Ok _ _ _ _ _ _ _ Hc) as (Hcomp & _ & Ha & Hv).
  destruct (assemble_spec _ _ _ _ Ha (composed_schema _ _ _ _ Hcomp)) as (_ & _ & _ & _ & Hm & Hsnap & _).
  destruct (CandidateBundle_Validate_Ok _ Hv) as ((Vm & _ & Vr & Vu) & (Br & Bu) & _).
  destruct (payload_bound_spec _ _ _ _ Br) as (rd & Hr & _).
  destruct (payload_bound_spec _ _ _ _ Bu) as (ud & Hu & _).
  unfold DecodeCandidateBundle, DecodeManifestArtifact, DecodeDomainPayloadArtifact.
  rewrite (decodeCanonicalArtifact_encoded (b_Manifest c) _ _ _ Em Hm Vm), Ok_bind.
  rewrite (decodeCanonicalArtifact_encoded (b_Root c) _ _ _ Er Hr Vr), Ok_bind.
  rewrite (decodeCanonicalArtifact_encoded (b_User c) _ _ _ Eu Hu Vu). cbn [map_err]. rewrite Ok_bind.
  cbn [fst snd]. rewrite <- Hsnap.
  replace (mkBundle _ _ _ _ _ _ _ _) with c by (by destruct c). by rewrite Hv.
Qed.
End bundle.

(** ** Examples *)

Module BundleSample.
Import SampleDigest.

Inductive doc :=
| DManifest (m : Manifest.t)
| DPayload (p : DomainPayload.t)
| DTexts (texts : list string).

#[global] Instance doc_eq_dec : EqDecision doc.
Proof. solve_decision. Defined.

Definition payload_texts (p : DomainPayload.t) : list string :=
  ("payload" :: DomainPayload.Domain p :: number (DomainPayload.PolicyGeneration p) ::
   concat (map (fun r => Rule.ID r :: Rule.Effect r :: ComposeSample.selector_texts (Rule.Selector r))
     (DomainPayload.Rules p)) ++
   concat (map (fun l => AuthorizationLease.ID l :: AuthorizationLease.Domain l :: AuthorizationLease.Capability l ::
     AuthorizationLease.IssuedAt l :: AuthorizationLease.ExpiresAt l :: AuthorizationLease.SelectorIDs l)
     (DomainPayload.Leases p)))%list.

Definition manifest_texts (m : Manifest.t) : list string :=
  ["manifest"; number (Manifest.PolicySchema m); Manifest.CompilerVersion m; Manifest.CompilerSHA256 m;
   number (Manifest.BundleGeneration m); number (Manifest.ParentBundleGeneration m);
   number (DomainReference.Generation (Manifest.Root m)); DomainReference.PayloadSHA256 (Manifest.Root m);
   number (DomainReference.Generation (Manifest.User m)); DomainReference.PayloadSHA256 (Manifest.User m);
   Manifest.StaticSHA256 m; Manifest.SignerFingerprint m; Manifest.IssuedAt m; Manifest.NotBefore m;
   Manifest.ExpiresAt m].

Definition digest_of (d : doc) : string :=
  match d with
  | DManifest m => hash (manifest_texts m)
  | DPayload p => hash (payload_texts p)
  | DTexts texts => hash texts
  end.

#[export] Instance json : JSON := {|
  Doc := doc; doc_len := fun _ => 100; Transform := Some; SHA256Hex := digest_of |}.

Definition codec {T} (inj : T -> doc) (proj : doc -> option T) : Codec T :=
  {| json_Marshal := fun v => Some (inj v); strictJSONDecode := proj; exact := fun _ => true |}.

Definition written {T} (texts : T -> list string) : Codec T := codec (fun v => DTexts (texts v)) (fun _ => None).

#[export] Instance semantic_codecs : SemanticCodecs := {|
  semantic_lease_codec := written SemanticSample.projected_texts;
  semantic_domain_codec := written SemanticSample.domain_texts;
  semantic_snapshot_codec := written SemanticSample.snapshot_texts |}.

#[export] Instance bundle_codecs : BundleCodecs := {|
  bundle_selector := written ComposeSample.selector_texts;
  bundle_rule := written ComposeSample.rule_texts;
  bundle_envelope := written ComposeSample.envelope_texts;
  bundle_lease := written ComposeSample.lease_texts;
  bundle_semantic := semantic_codecs;
  bundle_manifest := codec DManifest (fun d => match d with DManifest m => Some m | _ => None end);
  bundle_payload := codec DPayload (fun d => match d with DPayload p => Some p | _ => None end) |}.

#[export] Instance manifest_laws : CodecLaws Manifest.t.
Proof. intros v d _ [= <-]. reflexivity. Qed.

#[export] Instance payload_laws : CodecLaws DomainPayload.t.
Proof. intros v d _ [= <-]. reflexivity. Qed.

Definition signer : string := of_chars (replicate 64 "a"%char).
Definition identity : CompilerIdentity.t := CompilerIdentity.mk "1.2.3" (of_chars (replicate 64 "b"%char)).

Definition no_manifest : Manifest.t :=
  Manifest.mk "" 0 "" "" 0 0 (DomainReference.mk 0 "") (DomainReference.mk 0 "") "" "" "" "" "".

Definition no_bundle : CandidateBundle :=
  mkBundle no_manifest ComposeSample.no_payload ComposeSample.no_payload ComposeSample.no_snapshot
    (DTexts []) (DTexts []) (DTexts []) "".

Definition bundle_of (r : result error CandidateBundle) : CandidateBundle :=
  match r with Ok c => c | Err _ => no_bundle end.

Lemma compiled_pair (x : OperatorSource.t * result error CandidateBundle) :
  is_ok x.2 = true -> x = (x.1, Ok (bundle_of x.2)).
Proof. by destruct x as [? [?|]]. Qed.

Definition compiled : CandidateBundle :=
  bundle_of (CompileBundle ComposeSample.source ComposeSample.envelope identity signer None).2.

Lemma compiles : CompileBundle ComposeSample.source ComposeSample.envelope identity signer None =
  ((CompileBundle ComposeSample.source ComposeSample.envelope identity signer None).1, Ok compiled).
Proof.
  apply compiled_pair. vm_compute. reflexivity.
Qed.

Lemma compiled_bundle_roundtrip_witness :
  DecodeCandidateBundle (b_ManifestJSON compiled) (b_RootJSON compiled) (b_UserJSON compiled) = Ok compiled.
Proof.
  apply (compiled_bundle_roundtrip ComposeSample.source ComposeSample.envelope identity signer None
    (CompileBundle ComposeSample.source ComposeSample.envelope identity signer None).1 compiled).
  - exact compiles.
  - split; [|split]; reflexivity.
Defined.
End BundleSample.
