(* ===== verification/PolicyRollback.v ===== *)
(** * Policy rollback

    [internal/policy/rollback.go]: the content of an earlier bundle is compiled
    again under generations that advance from the current one. The source built from
    the earlier bundle is composed twice; the second composition sees the leases as
    the first one left them ([PolicyCompose.overwrite]). *)

From Stdlib Require Import ZArith Lia Ascii String.
From stdpp Require Import base strings list option sets gmap.
From S2P Require Import Prelude GoTime PolicyModel PolicyValidate PolicyCanonical.
From S2P Require Import PolicySelector PolicySource PolicyEnvelope PolicyCompose PolicySemantic PolicyBundle.

Open Scope string_scope.
Open Scope Z_scope.

Module RollbackValidity.
Record t := mk { IssuedAt : string; NotBefore : string; ExpiresAt : string }.
End RollbackValidity.

(** The anonymous struct of [credentialPolicySHA256]. *)
Module credentialPolicy.
Record t := mk { Domain : Domain; Rules : list string }.
#[global] Instance eq_dec : EqDecision t.
Proof. solve_decision. Defined.
End credentialPolicy.

(** A rule is copied: its values have no identity here. *)
Definition cloneRollbackRule (r : Rule.t) : Rule.t := r.

Definition compiled_rule (domain : Domain) (r : Rule.t) : bool :=
  has_prefix (compiledDenyPrefix domain) (Rule.ID r) || has_prefix (compiledDenyPrefix domain) (selector_id r).

(** The leases that are in force at the instant. *)
Definition lease_in_force (at_ : Z) (l : AuthorizationLease.t) : bool :=
  match parseCanonicalUTC (AuthorizationLease.IssuedAt l), parseCanonicalUTC (AuthorizationLease.ExpiresAt l) with
  | Some issuedAt, Some expiresAt => negb (After issuedAt at_) && After expiresAt at_
  | _, _ => false
  end.

Definition rollbackDomainSource (target : DomainPayload.t) (currentGeneration at_ : Z) : DomainSource.t :=
  DomainSource.mk currentGeneration
    (map cloneRollbackRule (List.filter (fun r => negb (compiled_rule (DomainPayload.Domain target) r))
       (DomainPayload.Rules target)))
    (List.filter (lease_in_force at_) (DomainPayload.Leases target)).

Definition with_generation (d : DomainSource.t) (generation : Z) : DomainSource.t :=
  DomainSource.mk generation (DomainSource.Rules d) (DomainSource.Leases d).

Section rollback.
Context `{JSON} `{!BundleCodecs} `{!Codec credentialPolicy.t}.

Definition credentialPolicySHA256 (payload : DomainPayload.t) : result error string :=
  if failed (DomainPayload_Validate payload) then Err ErrInvalidDomainPayload
  else
    rules ← mapM ruleSemanticKey
      (List.filter (fun r => String.eqb (Selector.Kind (Rule.Selector r)) SelectorCredential)
         (DomainPayload.Rules payload));
    d ← CanonicalSHA256 (credentialPolicy.mk (DomainPayload.Domain payload) (sort_strings rules)); Ok d.1.

(** One round of the credential comparison. *)
Definition same_credentials (target current : DomainPayload.t) : result error unit :=
  targetCredentials ← map_err (fun _ => ErrInvalidRollback) (credentialPolicySHA256 target);
  currentCredentials ← map_err (fun _ => ErrInvalidRollback) (credentialPolicySHA256 current);
  ensure (String.eqb targetCredentials currentCredentials) ErrRollbackCredentialChange.

(** One round of the generation loop: the generation the domain gets. *)
Definition advanced_generation (before after : DomainPayload.t) (generation : Z) : result error Z :=
  beforeDigest ← map_err (fun _ => ErrInvalidRollback) (DomainSemanticSHA256 before);
  afterDigest ← map_err (fun _ => ErrInvalidRollback) (DomainSemanticSHA256 after);
  if negb (String.eqb beforeDigest afterDigest) then
    if generation =? max_u64 then Err ErrInvalidRollback else Ok (u64 (generation + 1))
  else Ok generation.

Definition rollback_refused (target current : CandidateBundle) (envelope : SafetyEnvelope.t)
    (identity : CompilerIdentity.t) (signerFingerprint : string) : bool :=
  failed (CandidateBundle_Validate target) || failed (CandidateBundle_Validate current) ||
  failed (SafetyEnvelope_Validate envelope) || failed (CompilerIdentity_Validate identity) ||
  negb (validSHA256 signerFingerprint) ||
  (Manifest.BundleGeneration (b_Manifest current) <=? Manifest.BundleGeneration (b_Manifest target)) ||
  negb (Manifest.PolicySchema (b_Manifest target) =? Manifest.PolicySchema (b_Manifest current)) ||
  negb (String.eqb (Manifest.StaticSHA256 (b_Manifest target)) (Manifest.StaticSHA256 (b_Manifest current))) ||
  negb (String.eqb (Manifest.StaticSHA256 (b_Manifest current)) (EffectiveSnapshot.StaticSHA256 (b_Snapshot current))) ||
  (Manifest.BundleGeneration (b_Manifest current) =? max_u64).

Definition rollback_source (target current : CandidateBundle) (validity : RollbackValidity.t) (notBefore : Z)
    : OperatorSource.t :=
  OperatorSource.mk OperatorSourceSchema (Manifest.PolicySchema (b_Manifest current))
    (u64 (Manifest.BundleGeneration (b_Manifest current) + 1)) (Manifest.BundleGeneration (b_Manifest current))
    (Manifest.StaticSHA256 (b_Manifest current)) (RollbackValidity.IssuedAt validity)
    (RollbackValidity.NotBefore validity) (RollbackValidity.ExpiresAt validity)
    (rollbackDomainSource (b_Root target) (DomainPayload.PolicyGeneration (b_Root current)) notBefore)
    (rollbackDomainSource (b_User target) (DomainPayload.PolicyGeneration (b_User current)) notBefore).

Definition CompileRollback (target current : CandidateBundle) (envelope : SafetyEnvelope.t)
    (identity : CompilerIdentity.t) (signerFingerprint : string) (validity : RollbackValidity.t)
    : result error CandidateBundle :=
  if rollback_refused target current envelope identity signerFingerprint then Err ErrInvalidRollback
  else match SafetyEnvelope_SHA256 envelope with
  | Err _ => Err ErrInvalidRollback
  | Ok envelopeDigest =>
      if negb (String.eqb envelopeDigest (Manifest.StaticSHA256 (b_Manifest current))) then Err ErrInvalidRollback
      else
        let issuedAt := parseCanonicalUTC (RollbackValidity.IssuedAt validity) in
        let notBefore := parseCanonicalUTC (RollbackValidity.NotBefore validity) in
        let expiresAt := parseCanonicalUTC (RollbackValidity.ExpiresAt validity) in
        if window_invalid issuedAt notBefore expiresAt then Err ErrInvalidRollback
        else
          _ ← same_credentials (b_Root target) (b_Root current);
          _ ← same_credentials (b_User target) (b_User current);
          let source := rollback_source target current validity (time_of notBefore) in
          match ComposeEffectiveSnapshot source envelope with
          | (_, Err err) => Err err
          | (source', Ok probe) =>
              rootGeneration ← advanced_generation (b_Root current) (EffectiveSnapshot.Root probe)
                (DomainSource.PolicyGeneration (OperatorSource.Root source'));
              userGeneration ← advanced_generation (b_User current) (EffectiveSnapshot.User probe)
                (DomainSource.PolicyGeneration (OperatorSource.User source'));
              let source'' := with_domains source'
                (with_generation (OperatorSource.Root source') rootGeneration)
                (with_generation (OperatorSource.User source') userGeneration) in
              (CompileBundle source'' envelope identity signerFingerprint (Some (b_Snapshot current))).2
          end
  end.

(** ** A rollback moves forward *)

(** The leases left behind are the leases given, with other selectors. *)
Lemma same_leases_refl l : Forall2 same_lease l l.
Proof. apply Forall_Forall2_diag, Forall_true, same_lease_refl. Qed.

Lemma composeDomain_after source e after r : composeDomain source e = (after, r) ->
  Forall2 same_lease (DomainPayload.Leases source) after.
Proof.
  unfold composeDomain. intros Hc.
  destruct (normalizeAndDeduplicateRules _) as [[rules remap]|]; [|injection Hc as <- _; apply same_leases_refl].
  destruct (normalizeLeases _ _ None) as [after1 r1] eqn:Hl. apply normalizeLeases_spec in Hl as [Hl _].
  destruct r1; [|by injection Hc as <- _].
  destruct (normalizeAndDeduplicateRules _) as [[retained final]|]; [|by injection Hc as <- _].
  destruct (normalizeLeases after1 _ _) as [after2 r2] eqn:Hl'. apply normalizeLeases_spec in Hl' as [Hl' _].
  assert (after = after2) as -> by (destruct r2; by injection Hc as <- _).
  eapply Forall2_trans; [|exact Hl|exact Hl']. exact same_lease_trans.
Qed.

Lemma ComposeEffectiveSnapshot_source source envelope source' r :
  ComposeEffectiveSnapshot source envelope = (source', r) ->
  exists rootLeases userLeases, source' = with_domains source
    (with_leases (OperatorSource.Root source) rootLeases) (with_leases (OperatorSource.User source) userLeases) /\
    Forall2 same_lease (DomainSource.Leases (OperatorSource.Root source)) rootLeases /\
    Forall2 same_lease (DomainSource.Leases (OperatorSource.User source)) userLeases.
Proof.
  unfold ComposeEffectiveSnapshot. intros Hc.
  assert (forall d, d = with_leases d (DomainSource.Leases d)) as Hid by (by intros []).
  pose proof same_leases_refl as Hrefl.
  destruct (ValidateAgainstEnvelope source envelope).
  2:{ injection Hc as <- _. eexists _, _. rewrite <- !Hid. by destruct source. }
  destruct (composeDomain _ (SafetyEnvelope.Root envelope)) as [rl [root|]] eqn:Hr; apply composeDomain_after in Hr.
  2:{ injection Hc as <- _. exists rl, (DomainSource.Leases (OperatorSource.User source)). by rewrite <- Hid. }
  destruct (composeDomain _ (SafetyEnvelope.User envelope)) as [ul [user|]] eqn:Hu; apply composeDomain_after in Hu;
    injection Hc as <- _; by exists rl, ul.
Qed.

Lemma ComposeEffectiveSnapshot_fields source envelope source' s :
  ComposeEffectiveSnapshot source envelope = (source', Ok s) ->
  EffectiveSnapshot.BundleGeneration s = OperatorSource.BundleGeneration source /\
  EffectiveSnapshot.ParentBundleGeneration s = OperatorSource.ParentBundleGeneration source /\
  EffectiveSnapshot.PolicySchema s = OperatorSource.PolicySchema source /\
  EffectiveSnapshot.StaticSHA256 s = OperatorSource.StaticSHA256 source /\
  forall domain, domain = DomainRoot \/ domain = DomainUser ->
    DomainPayload.PolicyGeneration (snapshot_payload s domain) =
    DomainSource.PolicyGeneration (domain_source source domain).
Proof.
  intros Hc. destruct (ComposeEffectiveSnapshot_Ok _ _ _ _ Hc) as (_ & _ & _ & Hdom).
  split_and!; [..|intros domain Hd; destruct (Hdom domain Hd) as [after Ha];
    apply composeDomain_spec in Ha as [(_ & _ & Hg) _]; exact Hg];
  unfold ComposeEffectiveSnapshot in Hc;
  destruct (ValidateAgainstEnvelope source envelope); try done;
  destruct (composeDomain _ (SafetyEnvelope.Root envelope)) as [rl [root|]]; try done;
  destruct (composeDomain _ (SafetyEnvelope.User envelope)) as [ul [user|]]; try done;
  injection Hc as _ Hc; destruct (EffectiveSnapshot_Validate _); try done;
  destruct (ConflictReport_Empty _); try done; by injection Hc as <-.
Qed.

Lemma advanced_generation_Ok before after generation g : advanced_generation before after generation = Ok g ->
  0 <= generation <= max_u64 -> g = generation \/ g = generation + 1.
Proof.
  unfold advanced_generation. intros Ha Hr. inv_bind. destruct (negb _); [|by simplify_eq; left].
  destruct (Z.eqb_spec generation max_u64); [done|]. injection Ha as <-. right. apply u64_small. lia.
Qed.

(** What a successful rollback did. *)
Lemma CompileRollback_Ok target current envelope identity signer validity c :
  CompileRollback target current envelope identity signer validity = Ok c ->
  exists notBefore source' probe rootGeneration userGeneration source'',
    rollback_refused target current envelope identity signer = false /\
    parseCanonicalUTC (RollbackValidity.NotBefore validity) = Some notBefore /\
    (same_credentials (b_Root target) (b_Root current) = Ok tt /\
     same_credentials (b_User target) (b_User current) = Ok tt) /\
    ComposeEffectiveSnapshot (rollback_source target current validity notBefore) envelope = (source', Ok probe) /\
    advanced_generation (b_Root current) (EffectiveSnapshot.Root probe)
      (DomainSource.PolicyGeneration (OperatorSource.Root source')) = Ok rootGeneration /\
    advanced_generation (b_User current) (EffectiveSnapshot.User probe)
      (DomainSource.PolicyGeneration (OperatorSource.User source')) = Ok userGeneration /\
    CompileBundle (with_domains source' (with_generation (OperatorSource.Root source') rootGeneration)
      (with_generation (OperatorSource.User source') userGeneration)) envelope identity signer
      (Some (b_Snapshot current)) = (source'', Ok c).
Proof.
  unfold CompileRollback. intros Hc. destruct (rollback_refused _ _ _ _ _); [done|].
  destruct (SafetyEnvelope_SHA256 envelope); [|done]. destruct (negb _); [done|].
  destruct (window_invalid _ _ _) eqn:Hw; [done|]. unfold window_invalid in Hw. bool_prop.
  destruct (parseCanonicalUTC (RollbackValidity.NotBefore validity)) as [notBefore|]; [|done].
  apply bind_Ok in Hc as ([] & Hr & Hc). apply bind_Ok in Hc as ([] & Hu & Hc). cbn [time_of] in Hc.
  destruct (ComposeEffectiveSnapshot _ envelope) as [source' [probe|]] eqn:Hp; [|done].
  apply bind_Ok in Hc as (rg & Hrg & Hc). apply bind_Ok in Hc as (ug & Hug & Hc).
  destruct (CompileBundle _ _ _ _ _) as [source'' r] eqn:Hb. simpl in Hc. subst r.
  exists notBefore, source', probe, rg, ug, source''. split_and!; (reflexivity || assumption).
Qed.

(** The payload a rollback gives a domain, from the payload of the target. *)
Definition restores (target payload : DomainPayload.t) (boundary : DomainEnvelope.t) (at_ : Z) : Prop :=
  (forall r, r ∈ DomainPayload.Rules payload ->
     (exists r0, r0 ∈ DomainPayload.Rules target /\ r = normalize_rule (normalize_rule r0)) \/
     from_denial (DomainEnvelope.DeniedSelectors boundary) r) /\
  (forall l, l ∈ DomainPayload.Leases payload ->
     exists l0, l0 ∈ DomainPayload.Leases target /\ same_lease l0 l /\ lease_in_force at_ l0 = true).

Lemma composed_restores target generation at_ leases boundary after payload domain g :
  composeDomain (domain_payload domain (with_generation
    (with_leases (rollbackDomainSource target generation at_) leases) g)) boundary = (after, Ok payload) ->
  Forall2 same_lease (DomainSource.Leases (rollbackDomainSource target generation at_)) leases ->
  restores target payload boundary at_.
Proof.
  intros Hc Hl. apply composeDomain_spec in Hc as (_ & Hrules & Hleases). split.
  - intros r Hr. destruct (Hrules r Hr) as [(r0 & Hin0 & -> & _)|?]; [left|by right].
    exists r0. split; [|done]. cbn [domain_payload with_generation with_leases rollbackDomainSource
      DomainPayload.Rules DomainSource.Rules] in Hin0. unfold cloneRollbackRule in Hin0. rewrite List.map_id in Hin0.
    apply list_elem_of_In, List.filter_In in Hin0 as [Hin0 _]. by apply list_elem_of_In.
  - intros l Hin. destruct (Hleases l Hin) as (l1 & Hin1 & Hs1). apply list_elem_of_lookup_1 in Hin1 as [i Hi].
    destruct (Forall2_lookup_r _ _ _ _ _ Hl Hi) as (l0 & Hin0 & Hs0). apply list_elem_of_lookup_2 in Hin0.
    apply list_elem_of_In, List.filter_In in Hin0 as [Hin0 Hf]. exists l0.
    split_and!; [by apply list_elem_of_In| |done]. by eapply same_lease_trans.
Qed.

(** A rollback moves forward and only restores. The bundle it compiles follows
    the current one (next bundle generation, same schema and envelope, an accepted
    semantic advance), each policy generation is the current one or its successor,
    every rule is a rule of the target or a compiled denial, every lease is a lease
    of the target in force when the bundle takes effect, and the credential rules
    of target and current have the same digest. *)
Theorem rollback_moves_forward target current envelope identity signer validity c :
  CompileRollback target current envelope identity signer validity = Ok c ->
  0 <= Manifest.BundleGeneration (b_Manifest current) <= max_u64 ->
  0 <= DomainPayload.PolicyGeneration (b_Root current) <= max_u64 ->
  0 <= DomainPayload.PolicyGeneration (b_User current) <= max_u64 ->
  exists notBefore, parseCanonicalUTC (RollbackValidity.NotBefore validity) = Some notBefore /\
  (EffectiveSnapshot.BundleGeneration (b_Snapshot c) = Manifest.BundleGeneration (b_Manifest current) + 1 /\
   EffectiveSnapshot.ParentBundleGeneration (b_Snapshot c) = Manifest.BundleGeneration (b_Manifest current) /\
   EffectiveSnapshot.StaticSHA256 (b_Snapshot c) = Manifest.StaticSHA256 (b_Manifest current) /\
   ValidateSemanticAdvance (b_Snapshot current) (b_Snapshot c) = Ok tt) /\
  (DomainPayload.PolicyGeneration (b_Root current) <= DomainPayload.PolicyGeneration (EffectiveSnapshot.Root (b_Snapshot c)) <=
     DomainPayload.PolicyGeneration (b_Root current) + 1 /\
   DomainPayload.PolicyGeneration (b_User current) <= DomainPayload.PolicyGeneration (EffectiveSnapshot.User (b_Snapshot c)) <=
     DomainPayload.PolicyGeneration (b_User current) + 1) /\
  (restores (b_Root target) (EffectiveSnapshot.Root (b_Snapshot c)) (SafetyEnvelope.Root envelope) notBefore /\
   restores (b_User target) (EffectiveSnapshot.User (b_Snapshot c)) (SafetyEnvelope.User envelope) notBefore) /\
  credentialPolicySHA256 (b_Root target) = credentialPolicySHA256 (b_Root current) /\
  credentialPolicySHA256 (b_User target) = credentialPolicySHA256 (b_User current).
Proof.
  intros Hc Hb Hrg Hug.
  destruct (CompileRollback_Ok _ _ _ _ _ _ _ Hc) as
    (notBefore & source' & probe & rg & ug & source'' & Href & Hnb & [Cr Cu] & Hprobe & Hr & Hu & Hcompile).
  exists notBefore. split; [done|].
  destruct (ComposeEffectiveSnapshot_source _ _ _ _ Hprobe) as (rl & ul & -> & Hrl & Hul).
  destruct (CompileBundle_Ok _ _ _ _ _ _ _ Hcompile) as (Hcomp & Hadv & _ & _).
  destruct (ComposeEffectiveSnapshot_fields _ _ _ _ Hcomp) as (Fb & Fp & _ & Fs & Fg).
  destruct (ComposeEffectiveSnapshot_Ok _ _ _ _ Hcomp) as (_ & _ & _ & Hdom).
  pose proof (Fg DomainRoot (or_introl eq_refl)) as Fr. pose proof (Fg DomainUser (or_intror eq_refl)) as Fu.
  change (snapshot_payload (b_Snapshot c) DomainRoot) with (EffectiveSnapshot.Root (b_Snapshot c)) in Fr.
  change (snapshot_payload (b_Snapshot c) DomainUser) with (EffectiveSnapshot.User (b_Snapshot c)) in Fu.
  simpl in Fr, Fu. apply advanced_generation_Ok in Hr, Hu; [|done..]. simpl in Hr, Hu.
  unfold rollback_refused in Href. bool_prop.
  assert (u64 (Manifest.BundleGeneration (b_Manifest current) + 1) = Manifest.BundleGeneration (b_Manifest current) + 1)
    as Hnext by (apply u64_small; lia).
  assert (same_cred : forall t c', same_credentials t c' = Ok tt -> credentialPolicySHA256 t = credentialPolicySHA256 c').
  { intros t c' Hs. unfold same_credentials in Hs. destruct (credentialPolicySHA256 t), (credentialPolicySHA256 c');
      simpl in Hs; try done. apply ensure_Ok in Hs. bool_prop. by subst. }
  split_and!; [simpl in *; congruence|done|done|by apply Hadv|..|by apply same_cred|by apply same_cred].
  - lia.
  - lia.
  - lia.
  - lia.
  - destruct (Hdom DomainRoot (or_introl eq_refl)) as [after Ha]. exact (composed_restores _ _ _ _ _ _ _ _ _ Ha Hrl).
  - destruct (Hdom DomainUser (or_intror eq_refl)) as [after Ha]. exact (composed_restores _ _ _ _ _ _ _ _ _ Ha Hul).
Qed.
End rollback.

(** ** Examples *)

Module RollbackSample.
Import SampleDigest BundleSample.

#[export] Instance credential_codec : Codec credentialPolicy.t :=
  written (fun c => "credentials" :: credentialPolicy.Domain c :: credentialPolicy.Rules c).

Definition action_rule := ComposeSample.action_rule.
Definition envelope : SafetyEnvelope.t := ComposeSample.envelope.

Definition lease (id : string) (capability : Capability) (ids : list string) (expires : string)
    : AuthorizationLease.t :=
  AuthorizationLease.mk id DomainRoot capability ids "2026-03-01T00:00:00Z" expires.

Definition source (bundle generation : Z) (rules : list Rule.t) (leases : list AuthorizationLease.t)
    : OperatorSource.t :=
  OperatorSource.mk OperatorSourceSchema 1 bundle (bundle - 1) (ComposeSample.digest_of envelope)
    "2026-03-01T00:00:00Z" "2026-03-01T00:00:00Z" "2026-03-20T00:00:00Z"
    (DomainSource.mk generation rules leases) (DomainSource.mk 3 [] []).

Definition bundle (s : OperatorSource.t) : CandidateBundle :=
  bundle_of (CompileBundle s envelope identity signer None).2.

(** Two leases name the first rule; only the one of its capability activates it. *)
Definition target : CandidateBundle :=
  bundle (source 7 3
    [action_rule "root.resume" EffectAllow "root.s1" CapabilityOperatorResume "network";
     action_rule "root.tunnel" EffectAllow "root.s2" CapabilityTunnelOwnership "tunnel"]
    [lease "root.l1" CapabilityTunnelOwnership ["root.s1"; "root.s2"] "2026-03-20T00:00:00Z";
     lease "root.l2" CapabilityOperatorResume ["root.s1"] "2026-03-10T00:00:00Z"]).

Definition current : CandidateBundle :=
  bundle (source 8 4
    [action_rule "root.tunnel" EffectDeny "root.s2" CapabilityTunnelOwnership "tunnel"] []).

Definition validity (notBefore : string) : RollbackValidity.t :=
  RollbackValidity.mk "2026-03-05T00:00:00Z" notBefore "2026-03-20T00:00:00Z".

Definition early : RollbackValidity.t := validity "2026-03-06T00:00:00Z".
Definition late : RollbackValidity.t := validity "2026-03-11T00:00:00Z".

Definition restored : CandidateBundle :=
  bundle_of (CompileRollback target current envelope identity signer early).

Lemma restored_Ok : CompileRollback target current envelope identity signer early = Ok restored.
Proof.
  assert (forall r : result error CandidateBundle, is_ok r = true -> r = Ok (bundle_of r)) as Hok by (by intros []).
  apply Hok. vm_compute. reflexivity.
Qed.

Lemma rollback_moves_forward_witness :
  EffectiveSnapshot.BundleGeneration (b_Snapshot restored) = Manifest.BundleGeneration (b_Manifest current) + 1.
Proof.
  destruct (rollback_moves_forward target current envelope identity signer early restored) as
    (notBefore & _ & (Hb & _) & _).
  - exact restored_Ok.
  - split; vm_compute; discriminate.
  - split; vm_compute; discriminate.
  - split; vm_compute; discriminate.
  - exact Hb.
Defined.

Definition error_of {A} (r : result error A) : option error :=
  match r with Ok _ => None | Err e => Some e end.

(** Composing a source consumes it. The rollback above, taking effect after the
    second lease has ended, is refused as outside the envelope although its source
    composes: the first composition drops the first selector of the remaining lease
    and leaves the other one twice in the source, which the compiler then refuses. *)
Theorem rollback_refused_by_its_probe :
  is_ok (ComposeEffectiveSnapshot (rollback_source target current late
    (time_of (parseCanonicalUTC "2026-03-11T00:00:00Z"))) envelope).2 = true /\
  error_of (CompileRollback target current envelope identity signer late) = Some ErrOutsideSafetyEnvelope.
Proof. split; vm_compute; reflexivity. Qed.
End RollbackSample.
