(* ===== verification/PolicyDiff.v ===== *)
(** * Semantic difference of two policies

    [internal/policy/diff.go]: the report on the rules a candidate adds, removes or
    changes, with the flag that authorizations expand. Rules are matched by the
    digest of what they select; the map of rules is an association list here and
    the set of identities a sorted list, since the report is sorted at the end. *)

From Stdlib Require Import ZArith Lia Ascii String.
From stdpp Require Import base strings list option sets gmap.
From S2P Require Import Prelude GoTime PolicyModel PolicyValidate PolicyCanonical PolicyAuthz.
From S2P Require Import PolicySelector PolicySource PolicyEnvelope PolicyCompose PolicySemantic.

Open Scope string_scope.
Open Scope Z_scope.

Definition SemanticDiffSchema := "hexroute.policy-diff.v1".
Definition MaxDiffEntries := 2 * MaxRules.

Abbreviation DiffClassification := string (only parsing).
Definition DiffNewlyAllowed : DiffClassification := "newly_allowed".
Definition DiffNewlyDenied : DiffClassification := "newly_denied".
Definition DiffChangedPlan : DiffClassification := "changed_plan".

Definition DiffClassification_Valid (c : DiffClassification) : bool :=
  contains_string [DiffNewlyAllowed; DiffNewlyDenied; DiffChangedPlan] c.

Module DiffEntry.
Record t := mk {
  Domain : Domain;
  SelectorKind : SelectorKind;
  Classification : DiffClassification;
  BeforeSHA256 : string;
  AfterSHA256 : string;
  Expansion : bool
}.
#[global] Instance eq_dec : EqDecision t.
Proof. solve_decision. Defined.
End DiffEntry.

Module SemanticDiff.
Record t := mk {
  Schema : string;
  CurrentSemanticSHA256 : string;
  CandidateSemanticSHA256 : string;
  AuthorizationExpansion : bool;
  Entries : list DiffEntry.t
}.
#[global] Instance eq_dec : EqDecision t.
Proof. solve_decision. Defined.
End SemanticDiff.

(** The four anonymous structs that identify what a selector selects. *)
Inductive selectorIdentity :=
| EndpointIdentity (kind : SelectorKind) (host : string) (ports : list PortRange.t)
| RouteIdentity (kind : SelectorKind) (prefix : string)
| ActionIdentity (kind : SelectorKind) (capability : Capability) (target : string)
| CredentialIdentity (kind : SelectorKind) (reference : string).

Class DiffCodecs `{JSON} := {
  diff_identity :: Codec selectorIdentity;
  diff_entry :: Codec DiffEntry.t;
  diff_report :: Codec SemanticDiff.t
}.

Definition identity_of (s : Selector.t) : option selectorIdentity :=
  let kind := Selector.Kind s in
  if String.eqb kind SelectorEndpoint then
    e ← Selector.Endpoint (normalizeSelector s);
    Some (EndpointIdentity kind (EndpointSelector.Host e) (EndpointSelector.Ports e))
  else if String.eqb kind SelectorRoute then
    r ← Selector.Route s; Some (RouteIdentity kind (RouteSelector.Prefix r))
  else if String.eqb kind SelectorAction then
    a ← Selector.Action s; Some (ActionIdentity kind (ActionSelector.Capability a) (ActionSelector.Target a))
  else if String.eqb kind SelectorCredential then
    c ← Selector.Credential s; Some (CredentialIdentity kind (CredentialSelector.Reference c))
  else None.

(** Whether the entry's texts have the form [Validate] asks for. *)
Definition entry_valid (e : DiffEntry.t) : bool :=
  Domain_Valid (DiffEntry.Domain e) && SelectorKind_Valid (DiffEntry.SelectorKind e) &&
  DiffClassification_Valid (DiffEntry.Classification e) &&
  negb (negb (String.eqb (DiffEntry.BeforeSHA256 e) "") && negb (validSHA256 (DiffEntry.BeforeSHA256 e))) &&
  negb (negb (String.eqb (DiffEntry.AfterSHA256 e) "") && negb (validSHA256 (DiffEntry.AfterSHA256 e))) &&
  negb (String.eqb (DiffEntry.BeforeSHA256 e) "" && String.eqb (DiffEntry.AfterSHA256 e) "").

Definition SemanticDiff_Validate (r : SemanticDiff.t) : result error unit :=
  if negb (String.eqb (SemanticDiff.Schema r) SemanticDiffSchema) ||
     negb (validSHA256 (SemanticDiff.CurrentSemanticSHA256 r)) ||
     negb (validSHA256 (SemanticDiff.CandidateSemanticSHA256 r)) ||
     (MaxDiffEntries <? len (SemanticDiff.Entries r))
  then Err ErrInvalidSemanticDiff
  else if negb (forallb entry_valid (SemanticDiff.Entries r)) then Err ErrInvalidSemanticDiff
  else if negb (Bool.eqb (existsb DiffEntry.Expansion (SemanticDiff.Entries r))
                  (SemanticDiff.AuthorizationExpansion r))
  then Err ErrInvalidSemanticDiff
  else Ok tt.

(** An indexed rule: its identity, the rule and its plan. *)
Abbreviation indexedRule := (string * (Rule.t * string))%type (only parsing).

Definition lookup_rule (index : list indexedRule) (identity : string) : option (Rule.t * string) :=
  snd <$> List.find (fun x => String.eqb x.1 identity) index.

(** The body of the entry loop, for an identity of one of the two indexes. *)
Definition diff_entry_of (domain : Domain) (before after : option (Rule.t * string)) : option DiffEntry.t :=
  match before, after with
  | None, None => None
  | None, Some (r, plan) =>
      let allow := String.eqb (Rule.Effect r) EffectAllow in
      Some (DiffEntry.mk domain (Selector.Kind (Rule.Selector r))
              (if allow then DiffNewlyAllowed else DiffNewlyDenied) "" plan allow)
  | Some (r, plan), None =>
      let deny := String.eqb (Rule.Effect r) EffectDeny in
      Some (DiffEntry.mk domain (Selector.Kind (Rule.Selector r))
              (if deny then DiffNewlyAllowed else DiffNewlyDenied) plan "" deny)
  | Some (b, beforePlan), Some (a, afterPlan) =>
      if String.eqb beforePlan afterPlan then None
      else
        let kind := Selector.Kind (Rule.Selector a) in
        if String.eqb (Rule.Effect b) EffectDeny && String.eqb (Rule.Effect a) EffectAllow
        then Some (DiffEntry.mk domain kind DiffNewlyAllowed beforePlan afterPlan true)
        else if String.eqb (Rule.Effect b) EffectAllow && String.eqb (Rule.Effect a) EffectDeny
        then Some (DiffEntry.mk domain kind DiffNewlyDenied beforePlan afterPlan false)
        else Some (DiffEntry.mk domain kind DiffChangedPlan beforePlan afterPlan
                     (String.eqb (Rule.Effect a) EffectAllow))
  end.

Section diff.
Context `{JSON} `{!Codec Selector.t} `{!Codec keyedRule.t} `{!SemanticCodecs} `{!DiffCodecs}.

Definition selectorIdentityKey (s : Selector.t) : result error string :=
  match identity_of s with
  | None => Err ErrInvalidSelector
  | Some identity => d ← CanonicalSHA256 identity; Ok d.1
  end.

(** The closure [index]. *)
Fixpoint index_rules (destination : list indexedRule) (rules : list Rule.t) : result error (list indexedRule) :=
  match rules with
  | [] => Ok destination
  | r :: rules' =>
      identity ← selectorIdentityKey (Rule.Selector r);
      plan ← ruleSemanticKey r;
      if bool_decide (lookup_rule destination identity <> None) then Err ErrInvalidSemanticDiff
      else index_rules ((identity, (r, plan)) :: destination) rules'
  end.

Definition diffDomain (domain : Domain) (current : option DomainPayload.t) (candidate : DomainPayload.t)
    : result error (list DiffEntry.t) :=
  currentRules ← (match current with Some p => index_rules [] (DomainPayload.Rules p) | None => Ok [] end);
  candidateRules ← index_rules [] (DomainPayload.Rules candidate);
  let identities := sort_strings (remove_dups (map fst currentRules ++ map fst candidateRules)%list) in
  Ok (omap (fun identity => diff_entry_of domain (lookup_rule currentRules identity)
                              (lookup_rule candidateRules identity)) identities).

(** The key of an entry; the code ignores an encoding error, which leaves "". *)
Definition entry_key (e : DiffEntry.t) : string :=
  match CanonicalSHA256 e with Ok (digest, _) => digest | Err _ => "" end.

Definition no_conflict (s : EffectiveSnapshot.t) : result error unit :=
  let report := FindConflicts s in
  ensure (ConflictReport_Empty report) (ConflictError (Codes report) (Truncated report)).

(** [emptyDigest] is [SHA256Hex(nil)]. *)
Definition BuildSemanticDiff (emptyDigest : string) (current : option EffectiveSnapshot.t)
    (candidate : EffectiveSnapshot.t) : result error SemanticDiff.t :=
  _ ← ensure (negb (failed (EffectiveSnapshot_Validate candidate))) ErrInvalidEffectiveSnapshot;
  _ ← no_conflict candidate;
  candidateDigest ← EffectiveSemanticSHA256 candidate;
  currentDigest ← (match current with
    | None => Ok emptyDigest
    | Some c =>
        _ ← ensure (negb (failed (EffectiveSnapshot_Validate c))) ErrInvalidEffectiveSnapshot;
        _ ← no_conflict c;
        EffectiveSemanticSHA256 c
    end);
  rootEntries ← diffDomain DomainRoot (EffectiveSnapshot.Root <$> current) (EffectiveSnapshot.Root candidate);
  userEntries ← diffDomain DomainUser (EffectiveSnapshot.User <$> current) (EffectiveSnapshot.User candidate);
  let entries := (rootEntries ++ userEntries)%list in
  if MaxDiffEntries <? len entries then Err ErrInvalidSemanticDiff
  else
    let sorted := sort_slice (fun l r => String.ltb (entry_key l) (entry_key r)) entries in
    let report := SemanticDiff.mk SemanticDiffSchema currentDigest candidateDigest
      (existsb DiffEntry.Expansion sorted) sorted in
    if failed (SemanticDiff_Validate report) then Err ErrInvalidSemanticDiff else Ok report.

Definition SemanticDiffSHA256 (r : SemanticDiff.t) : result error string :=
  if failed (SemanticDiff_Validate r) then Err ErrInvalidSemanticDiff
  else d ← CanonicalSHA256 r; Ok d.1.

(** ** A report without expansion *)

Lemma lookup_rule_cons x index identity : lookup_rule (x :: index) identity =
  if String.eqb x.1 identity then Some x.2 else lookup_rule index identity.
Proof. unfold lookup_rule. simpl. by destruct (String.eqb x.1 identity). Qed.

Lemma index_rules_spec rules dest index : index_rules dest rules = Ok index ->
  (forall r, r ∈ rules -> exists identity plan, selectorIdentityKey (Rule.Selector r) = Ok identity /\
     ruleSemanticKey r = Ok plan /\ lookup_rule index identity = Some (r, plan)) /\
  (forall identity x, lookup_rule dest identity = Some x -> lookup_rule index identity = Some x) /\
  (forall identity r plan, lookup_rule index identity = Some (r, plan) ->
     lookup_rule dest identity = Some (r, plan) \/
     (r ∈ rules /\ selectorIdentityKey (Rule.Selector r) = Ok identity /\ ruleSemanticKey r = Ok plan)).
Proof.
  revert dest. induction rules as [|r rules IH]; intros dest Hi; simpl in Hi; [simplify_eq; set_solver|].
  apply bind_Ok in Hi as (identity & Hid & Hi). apply bind_Ok in Hi as (plan & Hp & Hi).
  destruct (bool_decide _) eqn:Hb; [done|]. apply bool_decide_eq_false in Hb.
  destruct (IH _ Hi) as (Hin & Hkeep & Hback).
  assert (lookup_rule dest identity = None) as Hnone by (destruct (lookup_rule dest identity); naive_solver).
  split_and!.
  - intros x [->|Hx]%elem_of_cons; [|by apply Hin]. exists identity, plan. split_and!; [done..|].
    apply Hkeep. rewrite lookup_rule_cons. simpl. by rewrite String.eqb_refl.
  - intros i x Hx. apply Hkeep. rewrite lookup_rule_cons. simpl.
    destruct (String.eqb_spec identity i) as [->|]; [congruence|done].
  - intros i x p Hx. destruct (Hback i x p Hx) as [Hd|(? & ? & ?)]; [|right; split_and!; [by right|done..]].
    rewrite lookup_rule_cons in Hd. simpl in Hd.
    destruct (String.eqb_spec identity i) as [->|]; [|by left]. simplify_eq. right. split_and!; [left|done..].
Qed.

Lemma lookup_rule_fst index identity x : lookup_rule index identity = Some x -> identity ∈ map fst index.
Proof.
  induction index as [|y index IH]; [done|]. rewrite lookup_rule_cons. simpl.
  destruct (String.eqb_spec y.1 identity) as [->|]; [left|]. right. auto.
Qed.

Lemma diffDomain_entry domain current candidate entries ci di identity :
  diffDomain domain current candidate = Ok entries ->
  (match current with Some p => index_rules [] (DomainPayload.Rules p) | None => Ok [] end) = Ok ci ->
  index_rules [] (DomainPayload.Rules candidate) = Ok di ->
  forall e, diff_entry_of domain (lookup_rule ci identity) (lookup_rule di identity) = Some e -> e ∈ entries.
Proof.
  unfold diffDomain. intros Hd Hc Hi e He. rewrite Hc, Ok_bind, Hi, Ok_bind in Hd. injection Hd as <-.
  apply list_elem_of_omap. exists identity. split; [|done]. apply elem_of_sort_slice, elem_of_remove_dups, elem_of_app.
  destruct (lookup_rule ci identity) as [x|] eqn:Hx; [left; by eapply lookup_rule_fst|].
  destruct (lookup_rule di identity) as [y|] eqn:Hy; [right; by eapply lookup_rule_fst|]. done.
Qed.

(** The candidate's rules allow nothing that the current rules did not: a rule that
    allows is, up to its names, a rule that was there, and a rule that denied is
    still there or was replaced by one that also denies the same subjects. *)
Definition no_wider (current candidate : DomainPayload.t) : Prop :=
  (forall r, r ∈ DomainPayload.Rules candidate -> Rule.Effect r = EffectAllow ->
     exists r0 plan, r0 ∈ DomainPayload.Rules current /\ ruleSemanticKey r0 = Ok plan /\ ruleSemanticKey r = Ok plan) /\
  (forall r0, r0 ∈ DomainPayload.Rules current -> Rule.Effect r0 = EffectDeny ->
     exists r identity, r ∈ DomainPayload.Rules candidate /\
       selectorIdentityKey (Rule.Selector r0) = Ok identity /\ selectorIdentityKey (Rule.Selector r) = Ok identity /\
       (ruleSemanticKey r = ruleSemanticKey r0 \/ Rule.Effect r <> EffectAllow)).

Lemma diffDomain_no_wider domain current candidate entries :
  diffDomain domain (Some current) candidate = Ok entries ->
  existsb DiffEntry.Expansion entries = false -> no_wider current candidate.
Proof.
  intros Hd Hx. pose proof Hd as Hd'. unfold diffDomain in Hd'.
  apply bind_Ok in Hd' as (ci & Hc & Hd'). apply bind_Ok in Hd' as (di & Hi & _).
  assert (forall identity e, diff_entry_of domain (lookup_rule ci identity) (lookup_rule di identity) = Some e ->
    DiffEntry.Expansion e = false) as Hno.
  { intros identity e He. apply not_true_iff_false. intros Ht. apply not_true_iff_false in Hx. apply Hx, existsb_exists.
    exists e. split; [|done]. apply list_elem_of_In. by eapply diffDomain_entry. }
  destruct (index_rules_spec _ _ _ Hc) as (Cin & _ & Cback). destruct (index_rules_spec _ _ _ Hi) as (Din & _ & Dback).
  split.
  - intros r Hr Ha. destruct (Din r Hr) as (identity & plan & _ & Hp & Hl). specialize (Hno identity). rewrite Hl in Hno.
    destruct (lookup_rule ci identity) as [[r0 plan0]|] eqn:Hl0; simpl in Hno; rewrite ?Ha in Hno; simpl in Hno.
    2:{ specialize (Hno _ eq_refl). by simpl in Hno. }
    destruct (Cback identity r0 plan0 Hl0) as [?|(Hr0 & _ & Hp0)]; [done|].
    destruct (String.eqb_spec plan0 plan) as [->|Hne]; [by exists r0, plan|]. exfalso.
    destruct (String.eqb (Rule.Effect r0) EffectDeny); simpl in Hno; [by specialize (Hno _ eq_refl)|].
    rewrite andb_false_r in Hno. by specialize (Hno _ eq_refl).
  - intros r0 Hr0 Hdeny. destruct (Cin r0 Hr0) as (identity & plan0 & Hid & Hp0 & Hl). specialize (Hno identity).
    rewrite Hl in Hno. destruct (lookup_rule di identity) as [[r plan]|] eqn:Hl1; simpl in Hno; rewrite ?Hdeny in Hno; simpl in Hno.
    2:{ specialize (Hno _ eq_refl). by simpl in Hno. }
    destruct (Dback identity r plan Hl1) as [?|(Hr & Hid' & Hp)]; [done|]. exists r, identity. split_and!; [done..|].
    destruct (String.eqb_spec plan0 plan) as [->|Hne]; [left; congruence|]. right. intros Ha. rewrite Ha in Hno. simpl in Hno.
    by specialize (Hno _ eq_refl).
Qed.

(** A difference that reports no expansion hides none among the rules. When the
    report of two snapshots has the expansion flag off, every rule of the candidate
    that allows is a rule of the current snapshot up to its names, and everything a
    rule of the current snapshot denies is the subject of a rule of the candidate
    that does not allow it, or says the same. *)
Theorem unflagged_diff_is_no_wider emptyDigest current candidate report :
  BuildSemanticDiff emptyDigest (Some current) candidate = Ok report ->
  SemanticDiff.AuthorizationExpansion report = false ->
  no_wider (EffectiveSnapshot.Root current) (EffectiveSnapshot.Root candidate) /\
  no_wider (EffectiveSnapshot.User current) (EffectiveSnapshot.User candidate).
Proof.
  unfold BuildSemanticDiff. intros Hb Hx. do 4 apply bind_Ok in Hb as (? & _ & Hb).
  apply bind_Ok in Hb as (root & Hr & Hb). apply bind_Ok in Hb as (user & Hu & Hb).
  destruct (_ <? _); [done|]. destruct (failed _); [done|]. injection Hb as <-. simpl in Hx.
  assert (existsb DiffEntry.Expansion (root ++ user)%list = false) as Hall.
  { rewrite <- Hx. apply eq_true_iff_eq. rewrite !existsb_exists. setoid_rewrite <- list_elem_of_In.
    by setoid_rewrite elem_of_sort_slice. }
  rewrite existsb_app in Hall. apply orb_false_iff in Hall as [Hl1 Hl2].
  split; by eapply diffDomain_no_wider.
Qed.
End diff.

(** ** Examples *)

Module DiffSample.
Import SampleDigest ComposeSample SemanticSample.

Definition identity_texts (i : selectorIdentity) : list string :=
  match i with
  | EndpointIdentity kind host ports =>
      kind :: host :: concat (map (fun r => [number (PortRange.First r); number (PortRange.Last r)]) ports)
  | RouteIdentity kind prefix => [kind; prefix]
  | ActionIdentity kind capability target => [kind; capability; target]
  | CredentialIdentity kind reference => [kind; reference]
  end.

Definition entry_texts (e : DiffEntry.t) : list string :=
  ["entry"; DiffEntry.Domain e; DiffEntry.SelectorKind e; DiffEntry.Classification e; DiffEntry.BeforeSHA256 e;
   DiffEntry.AfterSHA256 e; if DiffEntry.Expansion e then "1" else "0"].

#[export] Instance diff_codecs : DiffCodecs := {|
  diff_identity := texts_codec identity_texts;
  diff_entry := texts_codec entry_texts;
  diff_report := texts_codec (fun r => "diff" :: SemanticDiff.CurrentSemanticSHA256 r ::
    SemanticDiff.CandidateSemanticSHA256 r :: concat (map entry_texts (SemanticDiff.Entries r))) |}.

Definition user_payload (rules : list Rule.t) (expires : string) : DomainPayload.t :=
  DomainPayload.mk DomainPayloadSchema DomainUser 3 rules
    [AuthorizationLease.mk "user.lease" DomainUser CapabilityPritunlRecovery ["user.s1"] issued expires].

Definition recover : Rule.t := action_rule "user.a" EffectAllow "user.s1" CapabilityPritunlRecovery "pritunl".
Definition resume : Rule.t := action_rule "user.b" EffectAllow "user.s2" CapabilityOperatorResume "pritunl".
Definition no_resume : Rule.t := action_rule "user.b" EffectDeny "user.s2" CapabilityOperatorResume "pritunl".

Definition before := snapshot 7 (user_payload [recover; resume] "2026-03-10T00:00:00Z").
Definition after := snapshot 8 (user_payload [no_resume; recover] "2026-03-10T00:00:00Z").

Definition no_report : SemanticDiff.t := SemanticDiff.mk "" "" "" true [].
Definition report_of (r : result error SemanticDiff.t) : SemanticDiff.t :=
  match r with Ok x => x | Err _ => no_report end.

Definition report : SemanticDiff.t := report_of (BuildSemanticDiff (hash []) (Some before) after).

Lemma unflagged_diff_is_no_wider_witness :
  no_wider (EffectiveSnapshot.User before) (EffectiveSnapshot.User after).
Proof.
  destruct (unflagged_diff_is_no_wider (hash []) before after report) as [_ Hu].
  - vm_compute. reflexivity.
  - vm_compute. reflexivity.
  - exact Hu.
Defined.

(** The report reads rules only. A candidate that gives a lease ten more days has
    an empty report without expansion, and yet lets an action run that the current
    policy refuses by then. *)
Definition longer := snapshot 8 (user_payload [recover; resume] expires).

Definition later_state (s : EffectiveSnapshot.t) : ActionAuthorizationState.t :=
  ActionAuthorizationState.mk
    (Status.mk PolicyStatusSchema DomainUser PolicyActive 7 3 sample_digest issued expires ReasonNone)
    (AuthorizationSuspension.mk AuthorizationSuspensionSchema false ReasonNone "") (EffectiveSnapshot.User s) 12.

Definition allowed_later (s : EffectiveSnapshot.t) : bool :=
  Allowed (EvaluateActionAuthorization (later_state s) (request DomainUser CapabilityPritunlRecovery "pritunl")
    (time_of (parseCanonicalUTC "2026-03-15T00:00:00Z"))).

Lemma lease_extension_unreported :
  SemanticDiff.Entries (report_of (BuildSemanticDiff (hash []) (Some before) longer)) = [] /\
  SemanticDiff.AuthorizationExpansion (report_of (BuildSemanticDiff (hash []) (Some before) longer)) = false /\
  allowed_later before = false /\ allowed_later longer = true.
Proof. split_and!; vm_compute; reflexivity. Qed.
End DiffSample.
