(* ===== verification/PolicyClock.v ===== *)
(** * Policy clock guard

    [internal/policyclock/clock.go]: the guard that compares the advance of the
    wall clock with the advance of the monotonic clock, and the time check of a
    pending action lease. The guard's mutex makes [Observe] one step; the state
    is passed explicitly. *)

From Stdlib Require Import ZArith Lia Ascii String.
From stdpp Require Import base strings list option.
From S2P Require Import Prelude GoTime Metadata PolicyModel PolicyValidate.

Open Scope string_scope.
Open Scope Z_scope.

Inductive clock_error :=
| ErrClockAnomaly
| ErrInvalidClock
| ErrLeaseExpired
| ErrLeaseBootMismatch
| ErrInvalidLeaseTime.

#[global] Instance clock_error_eq_dec : EqDecision clock_error.
Proof. solve_decision. Defined.

Record Sample := mkSample { WallUTC : Z; SampleMonotonicNS : Z }.

Record LeaseSample := mkLeaseSample { MonotonicNS : Z; BootID : UUID }.

Record Guard := mkGuard {
  maxWallSkew : Z;
  hasPrevious : bool;
  previousWall : Z;
  previousMonotonicNS : Z
}.

Definition DefaultMaxWallSkew := 2 * 60 * second_ns.

Definition NewGuard (skew : Z) : result clock_error Guard :=
  if (skew <=? 0) || (10 * 60 * second_ns <? skew) then Err ErrInvalidClock
  else Ok (mkGuard skew false 0 0).

(** [None] is the nil guard. *)
Definition Observe (guard : option Guard) (s : Sample) : result clock_error unit * option Guard :=
  match guard with
  | None => (Err ErrInvalidClock, None)
  | Some g =>
      if IsZero (WallUTC s) || (SampleMonotonicNS s <? 0) then (Err ErrInvalidClock, Some g)
      else
        let next := mkGuard (maxWallSkew g) true (WallUTC s) (SampleMonotonicNS s) in
        if negb (hasPrevious g) then (Ok tt, Some next)
        else if SampleMonotonicNS s <? previousMonotonicNS g then (Err ErrClockAnomaly, Some g)
        else
          let elapsed := i64 (SampleMonotonicNS s - previousMonotonicNS g) in
          let expected := previousWall g + elapsed in
          let skew := Sub (WallUTC s) expected in
          if (skew <? - maxWallSkew g) || (maxWallSkew g <? skew)
          then (Err ErrClockAnomaly, Some g)
          else (Ok tt, Some next)
  end.

Definition ValidatePendingLease (lease : ActionLease.t) (sample : LeaseSample) : result clock_error unit :=
  if failed (ActionLease_Validate lease) ||
     negb (String.eqb (ActionLease.Status lease) LeasePending) || (MonotonicNS sample <? 0)
  then Err ErrInvalidLeaseTime
  else if failed (ParseUUID (BootID sample)) then Err ErrInvalidLeaseTime
  else if negb (String.eqb (BootID sample) (ActionLease.BootID lease)) then Err ErrLeaseBootMismatch
  else if MonotonicNS sample <? ActionLease.IssuedMonotonicNS lease then Err ErrClockAnomaly
  else if ActionLease.ExpiresMonotonicNS lease <=? MonotonicNS sample then Err ErrLeaseExpired
  else Ok tt.

(** ** Drift over a history of observations *)

(** The samples a guard accepts, in order, and the guard left. *)
Fixpoint observe_all (guard : option Guard) (samples : list Sample) : list Sample * option Guard :=
  match samples with
  | [] => ([], guard)
  | s :: rest =>
      match Observe guard s with
      | (Ok _, g') => let '(acc, g'') := observe_all g' rest in (s :: acc, g'')
      | (Err _, g') => observe_all g' rest
      end
  end.

Definition sample_in_range (s : Sample) : Prop := SampleMonotonicNS s <= max_i64.

(** Guards reached from [NewGuard] by samples in range. *)
Record guard_ok (g : Guard) : Prop := {
  ok_skew : 0 < maxWallSkew g <= 10 * 60 * second_ns;
  ok_mono : hasPrevious g = true -> 0 <= previousMonotonicNS g <= max_i64
}.

Lemma NewGuard_ok skew g : NewGuard skew = Ok g ->
  guard_ok g /\ hasPrevious g = false /\ maxWallSkew g = skew.
Proof.
  unfold NewGuard. intros H. inv_result. bool_prop. split; [|done]. constructor; simpl; [lia|done].
Qed.

Lemma Sub_within t u skew : 0 < skew <= 10 * 60 * second_ns ->
  - skew <= Sub t u <= skew -> - skew <= t - u <= skew.
Proof. unfold Sub, min_i64, max_i64. change second_ns with 1000000000. lia. Qed.

Lemma Observe_Ok g s g' : guard_ok g -> sample_in_range s -> Observe (Some g) s = (Ok tt, g') ->
  g' = Some (mkGuard (maxWallSkew g) true (WallUTC s) (SampleMonotonicNS s)) /\
  0 <= SampleMonotonicNS s /\
  (hasPrevious g = true ->
     previousMonotonicNS g <= SampleMonotonicNS s /\
     - maxWallSkew g <= (WallUTC s - previousWall g) - (SampleMonotonicNS s - previousMonotonicNS g)
       <= maxWallSkew g).
Proof.
  intros [Hskew Hmono] Hr. unfold Observe. destruct (_ || _) eqn:Hz; [done|]. bool_prop.
  destruct (hasPrevious g) eqn:Hp; simpl.
  - destruct (Z.ltb_spec (SampleMonotonicNS s) (previousMonotonicNS g)); [done|].
    destruct (_ || _) eqn:Hs; [done|]. bool_prop. intros [= <-]. split_and!; try done; try lia.
    all: rewrite i64_small in * by (unfold sample_in_range, min_i64, max_i64 in *; lia).
    all: pose proof (Sub_within _ _ _ Hskew ltac:(eauto)); lia.
  - intros [= <-]. by split_and!.
Qed.

Lemma Observe_Err g s e g' : Observe (Some g) s = (Err e, g') -> g' = Some g.
Proof. unfold Observe. intros H. inv_result; done. Qed.

Lemma observe_all_drift g w0 m0 samples acc g' :
  guard_ok g -> hasPrevious g = true -> previousWall g = w0 -> previousMonotonicNS g = m0 ->
  Forall sample_in_range samples -> observe_all (Some g) samples = (acc, g') ->
  forall k s, acc !! k = Some s ->
    m0 <= SampleMonotonicNS s /\
    Z.abs ((WallUTC s - w0) - (SampleMonotonicNS s - m0)) <= (Z.of_nat k + 1) * maxWallSkew g.
Proof.
  intros Hg Hp Hw Hm Hr. revert g w0 m0 acc Hg Hp Hw Hm.
  induction Hr as [|s rest Hs _ IH]; intros g w0 m0 acc Hg Hp Hw Hm H k x Hx; cbn [observe_all] in H.
  { injection H as <- _. by rewrite lookup_nil in Hx. }
  destruct (Observe (Some g) s) as [[[]|e] g1] eqn:Ho.
  - destruct (Observe_Ok _ _ _ Hg Hs Ho) as (-> & H0 & Hstep). specialize (Hstep Hp) as [Hle Hd].
    destruct (observe_all _ rest) as [acc1 g2] eqn:Hrest. injection H as <- <-.
    destruct k as [|k]; simpl in Hx; [injection Hx as <-; subst; lia|].
    assert (guard_ok (mkGuard (maxWallSkew g) true (WallUTC s) (SampleMonotonicNS s))) as Hg1.
    { destruct Hg. constructor; simpl; [done|]. unfold sample_in_range in Hs. lia. }
    destruct (IH _ _ _ _ Hg1 eq_refl eq_refl eq_refl Hrest k x Hx) as [IH1 IH2]. 
    cbn [maxWallSkew previousWall previousMonotonicNS] in IH1, IH2.
    subst. split; [lia|]. rewrite Nat2Z.inj_succ. lia.
  - apply Observe_Err in Ho as ->. eauto.
Qed.

(** Accepted clock samples drift slowly. From the first sample a new guard
    accepts, every later accepted sample has a monotonic reading that did not go
    back, and the wall clock has moved by the monotonic advance up to one
    allowed skew per accepted sample, however many samples were refused in
    between. *)
Theorem accepted_samples_drift_bounded skew g samples s0 acc g' :
  NewGuard skew = Ok g -> Forall sample_in_range samples ->
  observe_all (Some g) samples = (s0 :: acc, g') ->
  forall k s, acc !! k = Some s ->
    SampleMonotonicNS s0 <= SampleMonotonicNS s /\
    Z.abs ((WallUTC s - WallUTC s0) - (SampleMonotonicNS s - SampleMonotonicNS s0))
      <= (Z.of_nat k + 1) * skew.
Proof.
  intros Hnew Hr. destruct (NewGuard_ok _ _ Hnew) as (Hg & Hp & <-). clear Hnew.
  induction Hr as [|s rest Hs Hrest IH]; intros H; [done|]. cbn [observe_all] in H.
  destruct (Observe (Some g) s) as [[[]|e] g1] eqn:Ho.
  - destruct (Observe_Ok _ _ _ Hg Hs Ho) as (-> & H0 & _).
    clear IH. destruct (observe_all _ rest) as [acc1 g2] eqn:Hr1. simplify_eq.
    eapply (observe_all_drift (mkGuard (maxWallSkew g) true (WallUTC s0) (SampleMonotonicNS s0)));
      [|done..|exact Hr1].
    destruct Hg. constructor; simpl; [done|]. unfold sample_in_range in Hs. lia.
  - apply Observe_Err in Ho as ->. by apply IH.
Qed.

Definition sample_guard : Guard := mkGuard DefaultMaxWallSkew false 0 0.
Definition sample_history : list Sample :=
  [mkSample sample_instant 5000; mkSample (sample_instant + 100 * second_ns) 0;
   mkSample (sample_instant + 160 * second_ns) (5000 + 61 * second_ns);
   mkSample (sample_instant + 900 * second_ns) (5000 + 62 * second_ns);
   mkSample (sample_instant + 200 * second_ns) (5000 + 90 * second_ns)].

Lemma accepted_samples_drift_bounded_witness :
  Z.abs ((200 * second_ns) - (90 * second_ns)) <= 2 * DefaultMaxWallSkew.
Proof.
  destruct (accepted_samples_drift_bounded DefaultMaxWallSkew sample_guard sample_history
    (mkSample sample_instant 5000)
    [mkSample (sample_instant + 160 * second_ns) (5000 + 61 * second_ns);
     mkSample (sample_instant + 200 * second_ns) (5000 + 90 * second_ns)]
    (observe_all (Some sample_guard) sample_history).2) with (k := 1%nat)
    (s := mkSample (sample_instant + 200 * second_ns) (5000 + 90 * second_ns)) as [_ H].
  - vm_compute. reflexivity.
  - repeat constructor; vm_compute; discriminate.
  - vm_compute. reflexivity.
  - reflexivity.
  - exact H.
Defined.

(** ** Pending leases *)

Lemma ValidatePendingLease_Ok lease sample : ValidatePendingLease lease sample = Ok tt <->
  ActionLease_Validate lease = Ok tt /\ ActionLease.Status lease = LeasePending /\
  BootID sample = ActionLease.BootID lease /\ validUUID (BootID sample) = true /\
  0 <= MonotonicNS sample /\
  ActionLease.IssuedMonotonicNS lease <= MonotonicNS sample < ActionLease.ExpiresMonotonicNS lease.
Proof.
  rewrite <- (failed_unit (ActionLease_Validate lease)). unfold ValidatePendingLease, validUUID, failed.
  rewrite negb_false_iff. split.
  - intros H. inv_result. bool_prop. split_and!; done.
  - intros (-> & -> & Hb & -> & H0 & H1 & H2). rewrite Hb, !String.eqb_refl. simpl.
    rewrite (proj2 (Z.ltb_ge _ 0) H0), (proj2 (Z.ltb_ge _ _) H1), (proj2 (Z.leb_gt _ _) H2). done.
Qed.

(** A lease can be used for less than five minutes of one boot. The time check
    accepts a lease exactly while it is pending, valid, of the running boot and
    inside its monotonic window; so two instants at which it is accepted are
    less than the maximal lease time apart, and once the window is over it is
    refused at every later reading. *)
Theorem pending_lease_window lease s1 s2 :
  ValidatePendingLease lease s1 = Ok tt -> ValidatePendingLease lease s2 = Ok tt ->
  Z.abs (MonotonicNS s2 - MonotonicNS s1) < MaxActionLeaseTTL /\ BootID s1 = BootID s2 /\
  forall s3, ActionLease.ExpiresMonotonicNS lease <= MonotonicNS s3 ->
    BootID s3 = BootID s1 -> ValidatePendingLease lease s3 = Err ErrLeaseExpired.
Proof.
  intros (Hv & Hst & Hb1 & Hu & H1 & H2)%ValidatePendingLease_Ok
    (_ & _ & Hb2 & _ & H3 & H4)%ValidatePendingLease_Ok.
  destruct (ActionLease_window _ Hv) as (i & e & _ & _ & Hw & Hi & He).
  split_and!; [lia|congruence|]. intros s3 H5 Hb3. unfold ValidatePendingLease, failed.
  unfold validUUID in Hu. rewrite Hv, Hst, Hb3, Hu, Hb1, !String.eqb_refl. simpl.
  rewrite (proj2 (Z.ltb_ge (MonotonicNS s3) 0)), (proj2 (Z.ltb_ge (MonotonicNS s3) _)) by lia. simpl.
  by rewrite (proj2 (Z.leb_le _ _) H5).
Qed.

Definition sample_lease_at (ns : Z) : LeaseSample :=
  mkLeaseSample ns "11111111-1111-4111-8111-111111111111".

Lemma pending_lease_window_witness :
  Z.abs (MonotonicNS (sample_lease_at 30500000999) - MonotonicNS (sample_lease_at 1000)) < MaxActionLeaseTTL.
Proof.
  apply (pending_lease_window sample_lease (sample_lease_at 1000) (sample_lease_at 30500000999)).
  - vm_compute. reflexivity.
  - vm_compute. reflexivity.
Defined.
