(* ===== verification/PolicyApproval.v ===== *)
(** * Policy approvals

    [internal/policyapproval/approval.go], the part that checks a signed approval
    against one domain's artifacts: the review report, the approval statement and
    its signature, the binding check and the validity window. Ed25519 is a
    parameter, given the canonical statement and the decoded signature. *)

From Stdlib Require Import ZArith Lia Ascii String.
From stdpp Require Import base strings list option.
From S2P Require Import Prelude GoTime Metadata PolicyModel PolicyValidate PolicyCanonical PolicyCompat.

Open Scope string_scope.
Open Scope Z_scope.

Inductive approval_error :=
| ErrInvalidReview
| ErrGateFailed
| ErrInvalidApproval
| ErrSignerMismatch
| ErrApprovalExpired
| ErrApprovalSignature
| ErrPolicy (e : error).

#[global] Instance approval_error_eq_dec : EqDecision approval_error.
Proof. solve_decision. Defined.

Definition ReviewSchema := "hexroute.policy-review.v1".
Definition ApprovalSchema := "hexroute.policy-approval.v1".
Definition MaxReviewChecks := 8.

Abbreviation GateCode := string (only parsing).
Definition GateConflictFree : GateCode := "conflict_free".
Definition GateCompatible : GateCode := "compatible".
Definition GateSemanticDiff : GateCode := "semantic_change".
Definition GateReplayPassed : GateCode := "replay_passed".

Module ReviewReport.
Record t := mk {
  Schema : string;
  ManifestSHA256 : string;
  CandidateSemanticSHA256 : string;
  DiffSHA256 : string;
  ReplaySHA256 : string;
  Checks : list GateCode
}.
#[global] Instance eq_dec : EqDecision t.
Proof. solve_decision. Defined.
End ReviewReport.

Module ApprovalStatement.
Record t := mk {
  Schema : string;
  ManifestSHA256 : string;
  RootSHA256 : string;
  UserSHA256 : string;
  ReviewSHA256 : string;
  SignerFingerprint : string;
  NotBefore : string;
  ExpiresAt : string
}.
#[global] Instance eq_dec : EqDecision t.
Proof. solve_decision. Defined.
End ApprovalStatement.

Module SignedApproval.
Record t := mk {
  Statement : ApprovalStatement.t;
  Signature : string
}.
#[global] Instance eq_dec : EqDecision t.
Proof. solve_decision. Defined.
End SignedApproval.

(** ** [base64.RawURLEncoding.DecodeString] *)

Definition base64url (c : ascii) : option Z :=
  if is_upper c then Some (code c - 65)
  else if is_lower c then Some (code c - 97 + 26)
  else if is_digit c then Some (code c - 48 + 52)
  else if Ascii.eqb c "-" then Some 62
  else if Ascii.eqb c "_" then Some 63
  else None.

Definition carriage_return : ascii := ascii_of_nat 13.
Definition line_feed : ascii := ascii_of_nat 10.

Fixpoint base64_bytes (l : list Z) : option (list Z) :=
  match l with
  | [] => Some []
  | [_] => None
  | [a; b] => Some [(a * 64 + b) / 16 mod 256]
  | [a; b; c] => let v := (a * 64 + b) * 64 + c in Some [v / 1024 mod 256; v / 4 mod 256]
  | a :: b :: c :: d :: l' =>
      let v := ((a * 64 + b) * 64 + c) * 64 + d in
      r ← base64_bytes l'; Some (v / 65536 :: v / 256 mod 256 :: v mod 256 :: r)
  end.

(** The decoder skips carriage returns and line feeds. *)
Definition base64_decode (s : string) : option (list Z) :=
  values ← mapM base64url
    (List.filter (fun c => negb (Ascii.eqb c carriage_return || Ascii.eqb c line_feed)) (chars s));
  base64_bytes values.

(** ** Structure *)

(** [validDigest] of this package: 64 lower-case hexadecimal digits. *)
Definition validDigest (value : string) : bool :=
  (slen value =? 64) && forallb is_lower_hex (chars value).

Definition SignatureSize := 64.
Definition PublicKeySize := 32.

Definition validateStructure (approval : SignedApproval.t) : result approval_error unit :=
  let s := SignedApproval.Statement approval in
  if negb (String.eqb (ApprovalStatement.Schema s) ApprovalSchema) ||
     negb (validDigest (ApprovalStatement.ManifestSHA256 s)) ||
     negb (validDigest (ApprovalStatement.RootSHA256 s)) ||
     negb (validDigest (ApprovalStatement.UserSHA256 s)) ||
     negb (validDigest (ApprovalStatement.ReviewSHA256 s)) ||
     negb (validDigest (ApprovalStatement.SignerFingerprint s)) ||
     negb (validCanonicalUTC (ApprovalStatement.NotBefore s)) ||
     negb (validCanonicalUTC (ApprovalStatement.ExpiresAt s))
  then Err ErrInvalidApproval
  else
    let notBefore := Parse (ApprovalStatement.NotBefore s) in
    let expiresAt := Parse (ApprovalStatement.ExpiresAt s) in
    match base64_decode (SignedApproval.Signature approval) with
    | Some signature =>
        if negb (After (time_of expiresAt) (time_of notBefore)) || negb (len signature =? SignatureSize)
        then Err ErrInvalidApproval else Ok tt
    | None => Err ErrInvalidApproval
    end.

Definition expected_checks : list GateCode :=
  [GateCompatible; GateConflictFree; GateReplayPassed; GateSemanticDiff].

Definition ReviewReport_Validate (r : ReviewReport.t) : result approval_error unit :=
  if negb (String.eqb (ReviewReport.Schema r) ReviewSchema) ||
     negb (validDigest (ReviewReport.ManifestSHA256 r)) ||
     negb (validDigest (ReviewReport.CandidateSemanticSHA256 r)) ||
     negb (validDigest (ReviewReport.DiffSHA256 r)) ||
     negb (validDigest (ReviewReport.ReplaySHA256 r)) ||
     negb (len (ReviewReport.Checks r) =? 4) || (MaxReviewChecks <? len (ReviewReport.Checks r))
  then Err ErrInvalidReview
  else if bool_decide (sort_strings (ReviewReport.Checks r) = expected_checks)
  then Ok tt else Err ErrInvalidReview.

Class Ed25519 `{JSON} := {
  PublicKey : Type;
  key_len : PublicKey -> Z;
  key_SHA256Hex : PublicKey -> string;
  ed25519_Verify : PublicKey -> Doc -> list Z -> bool
}.

Section approval.
Context `{JSON} `{!Codec Manifest.t} `{!Codec DomainPayload.t} `{!Codec ReviewReport.t}
  `{!Codec ApprovalStatement.t} `{!Codec SignedApproval.t}.

Definition ReviewSHA256 (r : ReviewReport.t) : result approval_error string :=
  if failed (ReviewReport_Validate r) then Err ErrInvalidReview
  else match CanonicalSHA256 r with
       | Ok (digest, _) => Ok digest
       | Err e => Err (ErrPolicy e)
       end.

Definition ApprovalSHA256 (approval : SignedApproval.t) : result approval_error string :=
  if failed (validateStructure approval) then Err ErrInvalidApproval
  else match CanonicalSHA256 approval with
       | Ok (digest, _) => Ok digest
       | Err _ => Err ErrInvalidApproval
       end.

Definition canonicalStatement (s : ApprovalStatement.t) : result approval_error Doc :=
  match MarshalCanonical s with Ok d => Ok d | Err _ => Err ErrInvalidApproval end.

Definition CheckApprovalWindow (approval : SignedApproval.t) (now : Z) : result approval_error unit :=
  if failed (validateStructure approval) || IsZero now then Err ErrInvalidApproval
  else match Parse (ApprovalStatement.NotBefore (SignedApproval.Statement approval)) with
       | None => Err ErrInvalidApproval
       | Some notBefore =>
           match Parse (ApprovalStatement.ExpiresAt (SignedApproval.Statement approval)) with
           | None => Err ErrApprovalExpired
           | Some expiresAt =>
               if Before now notBefore || negb (Before now expiresAt)
               then Err ErrApprovalExpired else Ok tt
           end
       end.

Context `{!Ed25519}.

Definition verifyApprovalBinding (m : Manifest.t) (manifestSHA256 : string) (review : ReviewReport.t)
    (approval : SignedApproval.t) (pinned : PublicKey) : result approval_error unit :=
  if failed (validateStructure approval) then Err ErrInvalidApproval
  else match ReviewSHA256 review with
  | Err _ => Err ErrInvalidApproval
  | Ok reviewDigest =>
      let fingerprint := key_SHA256Hex pinned in
      let s := SignedApproval.Statement approval in
      if negb (String.eqb (ApprovalStatement.ManifestSHA256 s) manifestSHA256) ||
         negb (String.eqb (ApprovalStatement.RootSHA256 s) (DomainReference.PayloadSHA256 (Manifest.Root m))) ||
         negb (String.eqb (ApprovalStatement.UserSHA256 s) (DomainReference.PayloadSHA256 (Manifest.User m))) ||
         negb (String.eqb (ApprovalStatement.ReviewSHA256 s) reviewDigest) ||
         negb (String.eqb (ApprovalStatement.SignerFingerprint s) fingerprint) ||
         negb (String.eqb (Manifest.SignerFingerprint m) fingerprint) ||
         negb (String.eqb (ApprovalStatement.NotBefore s) (Manifest.NotBefore m)) ||
         negb (String.eqb (ApprovalStatement.ExpiresAt s) (Manifest.ExpiresAt m)) ||
         negb (String.eqb (ReviewReport.ManifestSHA256 review) manifestSHA256)
      then Err ErrSignerMismatch
      else match canonicalStatement s with
      | Err _ => Err ErrInvalidApproval
      | Ok canonical =>
          match base64_decode (SignedApproval.Signature approval) with
          | None => Err ErrApprovalSignature
          | Some signature =>
              if negb (len signature =? SignatureSize) || negb (ed25519_Verify pinned canonical signature)
              then Err ErrApprovalSignature else Ok tt
          end
      end
  end.

Definition VerifyDomainBinding (m : Manifest.t) (manifestSHA256 : string) (p : DomainPayload.t)
    (review : ReviewReport.t) (approval : SignedApproval.t) (pinned : PublicKey)
    : result approval_error unit :=
  if failed (Manifest_Validate m) || failed (DomainPayload_Validate p) ||
     failed (ReviewReport_Validate review) || negb (key_len pinned =? PublicKeySize)
  then Err ErrInvalidApproval
  else match CanonicalSHA256 m with
  | Err _ => Err ErrInvalidApproval
  | Ok (digest, _) =>
      if negb (String.eqb digest manifestSHA256) then Err ErrInvalidApproval
      else match CanonicalSHA256 p with
      | Err _ => Err ErrInvalidApproval
      | Ok (payloadDigest, _) =>
          let reference := domain_reference m (DomainPayload.Domain p) in
          if negb (DomainReference.Generation reference =? DomainPayload.PolicyGeneration p) ||
             negb (String.eqb (DomainReference.PayloadSHA256 reference) payloadDigest)
          then Err ErrSignerMismatch
          else verifyApprovalBinding m manifestSHA256 review approval pinned
      end
  end.

Definition VerifyDomainCandidate (m : Manifest.t) (manifestSHA256 : string) (p : DomainPayload.t)
    (review : ReviewReport.t) (approval : SignedApproval.t) (pinned : PublicKey) (now : Z)
    : result approval_error unit :=
  if IsZero now then Err ErrInvalidApproval
  else match VerifyDomainBinding m manifestSHA256 p review approval pinned with
       | Err e => Err e
       | Ok _ => CheckApprovalWindow approval now
       end.

(** ** What a verified candidate guarantees *)

Lemma verifyApprovalBinding_Ok m digest review approval pinned :
  verifyApprovalBinding m digest review approval pinned = Ok tt ->
  let s := SignedApproval.Statement approval in
  validateStructure approval = Ok tt /\
  ApprovalStatement.ManifestSHA256 s = digest /\ ReviewReport.ManifestSHA256 review = digest /\
  ApprovalStatement.RootSHA256 s = DomainReference.PayloadSHA256 (Manifest.Root m) /\
  ApprovalStatement.UserSHA256 s = DomainReference.PayloadSHA256 (Manifest.User m) /\
  ReviewSHA256 review = Ok (ApprovalStatement.ReviewSHA256 s) /\
  ApprovalStatement.SignerFingerprint s = key_SHA256Hex pinned /\
  ApprovalStatement.NotBefore s = Manifest.NotBefore m /\
  ApprovalStatement.ExpiresAt s = Manifest.ExpiresAt m /\
  exists canonical signature, MarshalCanonical s = Ok canonical /\
    base64_decode (SignedApproval.Signature approval) = Some signature /\
    ed25519_Verify pinned canonical signature = true.
Proof.
  unfold verifyApprovalBinding, canonicalStatement. intros Hv. inv_result. bool_prop.
  rewrite <- failed_unit. split_and!; try done; [congruence|]. eauto.
Qed.

Lemma VerifyDomainBinding_Ok m digest p review approval pinned :
  VerifyDomainBinding m digest p review approval pinned = Ok tt ->
  Manifest_Validate m = Ok tt /\ DomainPayload_Validate p = Ok tt /\
  ReviewReport_Validate review = Ok tt /\ (exists d, CanonicalSHA256 m = Ok (digest, d)) /\
  (exists d, CanonicalSHA256 p =
     Ok (DomainReference.PayloadSHA256 (domain_reference m (DomainPayload.Domain p)), d)) /\
  DomainReference.Generation (domain_reference m (DomainPayload.Domain p)) =
    DomainPayload.PolicyGeneration p /\
  verifyApprovalBinding m digest review approval pinned = Ok tt.
Proof.
  unfold VerifyDomainBinding. intros Hv. inv_result. bool_prop. subst.
  split_and!; first [by apply failed_unit | by eexists | done].
Qed.

Lemma Parse_canonical v : validCanonicalUTC v = true ->
  exists t, Parse v = Some t /\ parseCanonicalUTC v = Some t.
Proof.
  unfold validCanonicalUTC. intros [t Ht]%bool_decide_eq_true. exists t.
  pose proof (parseCanonicalUTC_Some _ _ Ht) as [_ ?]. done.
Qed.

Lemma CheckApprovalWindow_Ok approval now : CheckApprovalWindow approval now = Ok tt ->
  exists notBefore expiresAt,
    parseCanonicalUTC (ApprovalStatement.NotBefore (SignedApproval.Statement approval)) = Some notBefore /\
    parseCanonicalUTC (ApprovalStatement.ExpiresAt (SignedApproval.Statement approval)) = Some expiresAt /\
    notBefore <= now < expiresAt.
Proof.
  unfold CheckApprovalWindow. intros Hc. inv_result. unfold Before in *. bool_prop.
  match goal with Hs : failed (validateStructure _) = false |- _ =>
    apply failed_unit in Hs; unfold validateStructure in Hs end.
  inv_result. bool_prop.
  repeat match goal with Hv : validCanonicalUTC _ = true |- _ =>
    apply Parse_canonical in Hv as (? & ? & ?) end.
  simplify_eq. eauto 10.
Qed.

(** A verified approval binds the exact artifacts and the present. When a
    domain candidate verifies at an instant, the pinned key's signature covers
    the canonical text of a statement that names the digest of this manifest,
    the digests of both payloads the manifest refers to, of which one is the
    digest of this very payload, and the digest of this review; the signer is
    the pinned key for the statement and for the manifest, and the instant is
    inside the validity window that the manifest declares. *)
Theorem verified_candidate_is_bound m digest p review approval pinned now :
  VerifyDomainCandidate m digest p review approval pinned now = Ok tt ->
  let s := SignedApproval.Statement approval in
  (exists canonical signature,
     MarshalCanonical s = Ok canonical /\
     base64_decode (SignedApproval.Signature approval) = Some signature /\
     ed25519_Verify pinned canonical signature = true) /\
  (exists d, CanonicalSHA256 m = Ok (ApprovalStatement.ManifestSHA256 s, d)) /\
  (exists d, CanonicalSHA256 p =
     Ok (if String.eqb (DomainPayload.Domain p) DomainUser
         then ApprovalStatement.UserSHA256 s else ApprovalStatement.RootSHA256 s, d)) /\
  ReviewSHA256 review = Ok (ApprovalStatement.ReviewSHA256 s) /\
  ReviewReport.Checks review ≡ₚ expected_checks /\
  ApprovalStatement.SignerFingerprint s = key_SHA256Hex pinned /\
  Manifest.SignerFingerprint m = key_SHA256Hex pinned /\
  exists notBefore expiresAt,
    parseCanonicalUTC (Manifest.NotBefore m) = Some notBefore /\
    parseCanonicalUTC (Manifest.ExpiresAt m) = Some expiresAt /\ notBefore <= now < expiresAt.
Proof.
  unfold VerifyDomainCandidate. intros Hv. destruct (IsZero now); [done|].
  destruct (VerifyDomainBinding _ _ _ _ _ _) as [[]|] eqn:Heqr; [|done].
  apply VerifyDomainBinding_Ok in Heqr as (_ & _ & Hr & Hm & Hp & _ & Hb).
  destruct (verifyApprovalBinding_Ok _ _ _ _ _ Hb)
    as (_ & H1 & _ & H3 & H4 & H5 & H6 & H7 & H8 & H9).
  apply CheckApprovalWindow_Ok in Hv as (nb & ex & Hnb & Hex & Hw).
  rewrite H1, H6, <- H7, <- H8. split_and!; try done; eauto.
  - unfold domain_reference in Hp. by destruct (String.eqb _ _); rewrite ?H3, ?H4.
  - unfold ReviewReport_Validate in Hr. inv_result. bool_prop.
    match goal with Hs : sort_strings _ = _ |- _ => rewrite <- Hs end.
    symmetry. apply sort_slice_perm.
  - unfold verifyApprovalBinding in Hb. inv_result. by bool_prop.
Qed.
End approval.

(** ** A concrete approval

    Documents stand for their own text, and a digest tells their kind. *)

Inductive sample_doc :=
| SManifest (m : Manifest.t)
| SPayload (p : DomainPayload.t)
| SReview (r : ReviewReport.t)
| SStatement (s : ApprovalStatement.t)
| SApproval (a : SignedApproval.t).

#[local] Instance sample_doc_eq_dec : EqDecision sample_doc.
Proof. solve_decision. Defined.

Definition sample_kind (d : sample_doc) : ascii :=
  match d with
  | SManifest _ => "a" | SPayload _ => "b" | SReview _ => "c" | SStatement _ => "d" | SApproval _ => "e"
  end%char.

#[local] Instance sample_json : JSON := {|
  Doc := sample_doc; doc_len := fun _ => 100; Transform := Some;
  SHA256Hex := fun d => hex64 (sample_kind d) |}.

Definition sample_marshal {T} (inj : T -> sample_doc) : Codec T :=
  {| json_Marshal := fun v => Some (inj v); strictJSONDecode := fun _ => None; exact := fun _ => false |}.

#[local] Instance sample_manifest_codec : Codec Manifest.t := sample_marshal SManifest.
#[local] Instance sample_payload_codec : Codec DomainPayload.t := sample_marshal SPayload.
#[local] Instance sample_review_codec : Codec ReviewReport.t := sample_marshal SReview.
#[local] Instance sample_statement_codec : Codec ApprovalStatement.t := sample_marshal SStatement.
#[local] Instance sample_approval_codec : Codec SignedApproval.t := sample_marshal SApproval.

(** The key accepts one signature for one statement. *)
#[local] Instance sample_ed25519 : Ed25519 := {|
  PublicKey := unit; key_len := fun _ => 32; key_SHA256Hex := fun _ => hex64 "f";
  ed25519_Verify := fun _ d signature =>
    match d with SStatement _ => bool_decide (signature = replicate 64 0) | _ => false end |}.

Definition sample_review : ReviewReport.t :=
  ReviewReport.mk ReviewSchema (hex64 "a") (hex64 "1") (hex64 "2") (hex64 "3")
    [GateReplayPassed; GateCompatible; GateConflictFree; GateSemanticDiff].

Definition sample_bound_manifest : Manifest.t := sample_manifest 1 1 (hex64 "b").

Definition sample_approval : SignedApproval.t :=
  SignedApproval.mk
    (ApprovalStatement.mk ApprovalSchema (hex64 "a") (hex64 "b") (hex64 "9") (hex64 "c") (hex64 "f")
       "2026-03-01T00:00:00Z" "2026-03-20T00:00:00Z")
    (of_chars (replicate 86 "A"%char)).

Definition sample_key : @PublicKey _ sample_ed25519 := tt.

Lemma verified_candidate_is_bound_witness :
  Manifest.SignerFingerprint sample_bound_manifest = key_SHA256Hex sample_key.
Proof.
  apply (verified_candidate_is_bound sample_bound_manifest (hex64 "a") (sample_payload 1) sample_review
    sample_approval sample_key sample_instant).
  vm_compute. reflexivity.
Defined.
