(* ===== verification/StoreRecords.v ===== *)
(** * The policy store: durable records

    [internal/policystore/records.go]: the prepare receipts, commit intents and
    the active pointer of one domain, and the routine that writes every record
    of the store (temporary file, fsync, rename, read back, directory fsync).

    The state directory is a map from file names to files; a file is its text and
    whether its type, mode, owner and link count are the required ones. One call
    of the store is one step of it: the store holds its mutex throughout. What
    the operating system and the fault hook do in a call is the [Env] argument:
    the answer of [validateOpenLocked], whether the directory is still bound to
    its path, the name drawn for a temporary file and the point at which writing
    a record of a kind stops. A call that stops leaves the directory as it was at
    that point, so a sequence of calls is also a history with crashes. *)

From Stdlib Require Import ZArith Lia Ascii String.
From stdpp Require Import base strings list option gmap.
From S2P Require Import Prelude GoTime Metadata PolicyModel PolicyValidate PolicyCanonical PolicyApproval.

Open Scope string_scope.
Open Scope Z_scope.

Inductive store_error :=
| ErrInvalidRecord
| ErrInsecureRecord
| ErrRecordNotFound
| ErrRecordConflict
| ErrStaleActivePointer
| ErrPersistenceInterrupted
| ErrStoreUnavailable
| ErrStoreClosed
| ErrInsecureStore
| ErrActionLeaseResolved
| EEXIST.

#[global] Instance store_error_eq_dec : EqDecision store_error.
Proof. solve_decision. Defined.

Definition PrepareReceiptSchema := "hexroute.policy-prepare-receipt.v1".
Definition CommitIntentSchema := "hexroute.policy-commit-intent.v1".
Definition ActivePointerSchema := "hexroute.policy-active-pointer.v1".
Definition MaxRecordSize := 64 * 1024.
Definition activePointerFilename := "active.json".

Module PrepareReceipt.
Record t := mk {
  Schema : string;
  TransactionID : UUID;
  Domain : Domain;
  BundleGeneration : Z;
  PolicyGeneration : Z;
  ManifestSHA256 : string;
  PayloadSHA256 : string;
  ApprovalSHA256 : string;
  PreparedAt : string
}.
#[global] Instance eq_dec : EqDecision t.
Proof. solve_decision. Defined.
End PrepareReceipt.

Module CommitIntent.
Record t := mk {
  Schema : string;
  TransactionID : UUID;
  BundleGeneration : Z;
  RootPolicyGeneration : Z;
  UserPolicyGeneration : Z;
  ManifestSHA256 : string;
  RootPayloadSHA256 : string;
  UserPayloadSHA256 : string;
  ApprovalSHA256 : string;
  Approval : SignedApproval.t;
  CreatedAt : string
}.
#[global] Instance eq_dec : EqDecision t.
Proof. solve_decision. Defined.
End CommitIntent.

Module ActivePointer.
Record t := mk {
  Schema : string;
  TransactionID : UUID;
  Domain : Domain;
  BundleGeneration : Z;
  PolicyGeneration : Z;
  ManifestSHA256 : string;
  PayloadSHA256 : string;
  ApprovalSHA256 : string;
  CommitIntentSHA256 : string;
  Approval : SignedApproval.t;
  ActivatedAt : string;
  ConfirmedAt : string
}.
#[global] Instance eq_dec : EqDecision t.
Proof. solve_decision. Defined.

Definition with_ConfirmedAt (p : t) (v : string) : t :=
  mk (Schema p) (TransactionID p) (Domain p) (BundleGeneration p) (PolicyGeneration p) (ManifestSHA256 p)
    (PayloadSHA256 p) (ApprovalSHA256 p) (CommitIntentSHA256 p) (Approval p) (ActivatedAt p) v.
End ActivePointer.

Inductive recordOperation :=
| recordPrepare
| recordCommit
| recordActive
| recordResolution
| recordAudit
| recordActionLease
| recordActionNonce
| recordActionExecution
| recordActionOutcome.

Definition operation_text (op : recordOperation) : string :=
  match op with
  | recordPrepare => "prepare"
  | recordCommit => "commit"
  | recordActive => "active"
  | recordResolution => "resolution"
  | recordAudit => "audit"
  | recordActionLease => "action-lease"
  | recordActionNonce => "action-nonce"
  | recordActionExecution => "action-execution"
  | recordActionOutcome => "action-outcome"
  end.

(** Where writing a record stops: a failing system call, or the fault hook at one
    of its six boundaries. *)
Inductive stop_point :=
| StopRandom | StopOpen | StopWrite
| boundaryBeforeFileSync | StopFileSync | boundaryAfterFileSync
| StopClose | boundaryBeforeRename | StopRename | boundaryAfterRename
| StopReadBack | boundaryBeforeDirectorySync | StopDirectorySync | boundaryAfterDirectorySync.

#[global] Instance stop_point_eq_dec : EqDecision stop_point.
Proof. solve_decision. Defined.

Record Env := mkEnv {
  open_check : option store_error;
  bound : bool;
  stop : recordOperation -> option stop_point;
  temporary : recordOperation -> UUID
}.

Definition validTransactionID (id : UUID) : bool := validUUID id.

(** [validDigest] of this package. *)
Definition validRecordDigest (value : string) : bool :=
  (slen value =? 64) &&
  match hex_decode (chars value) with
  | Some decoded => (len decoded =? 32) && negb (has_upper value)
  | None => false
  end.

Definition transactionRecordFilename (op : recordOperation) (id : UUID) : result store_error string :=
  if negb (validTransactionID id) then Err ErrInvalidRecord
  else match op with
       | recordActive | recordAudit => Err ErrInvalidRecord
       | _ => Ok (operation_text op ++ "-" ++ id ++ ".json")
       end.

Definition validateApprovalStructure (approval : SignedApproval.t) : result store_error unit :=
  let s := SignedApproval.Statement approval in
  if negb (String.eqb (ApprovalStatement.Schema s) ApprovalSchema) ||
     negb (validRecordDigest (ApprovalStatement.ManifestSHA256 s)) ||
     negb (validRecordDigest (ApprovalStatement.RootSHA256 s)) ||
     negb (validRecordDigest (ApprovalStatement.UserSHA256 s)) ||
     negb (validRecordDigest (ApprovalStatement.ReviewSHA256 s)) ||
     negb (validRecordDigest (ApprovalStatement.SignerFingerprint s)) ||
     negb (validCanonicalUTC (ApprovalStatement.NotBefore s)) ||
     negb (validCanonicalUTC (ApprovalStatement.ExpiresAt s))
  then Err ErrInvalidRecord
  else if negb (After (time_of (Parse (ApprovalStatement.ExpiresAt s)))
                      (time_of (Parse (ApprovalStatement.NotBefore s)))) then Err ErrInvalidRecord
  else match base64_decode (SignedApproval.Signature approval) with
       | Some signature => if len signature =? 64 then Ok tt else Err ErrInvalidRecord
       | None => Err ErrInvalidRecord
       end.

Definition PrepareReceipt_Validate (r : PrepareReceipt.t) : result store_error unit :=
  if negb (String.eqb (PrepareReceipt.Schema r) PrepareReceiptSchema) ||
     negb (validTransactionID (PrepareReceipt.TransactionID r)) ||
     negb (Domain_Valid (PrepareReceipt.Domain r)) ||
     (PrepareReceipt.BundleGeneration r =? 0) || (PrepareReceipt.PolicyGeneration r =? 0) ||
     negb (validRecordDigest (PrepareReceipt.ManifestSHA256 r)) ||
     negb (validRecordDigest (PrepareReceipt.PayloadSHA256 r)) ||
     negb (validRecordDigest (PrepareReceipt.ApprovalSHA256 r)) ||
     negb (validCanonicalUTC (PrepareReceipt.PreparedAt r))
  then Err ErrInvalidRecord else Ok tt.

(** The codecs of the record types, assumed for the whole store. *)
Class RecordCodecs `{JSON} := {
  receipt_codec :: Codec PrepareReceipt.t;
  intent_codec :: Codec CommitIntent.t;
  pointer_codec :: Codec ActivePointer.t;
  approval_codec :: Codec SignedApproval.t
}.

Section records.
Context `{RecordCodecs}.

Record File := mkFile { content : Doc; secure : bool }.

(** The state directory. *)
Abbreviation State := (gmap string File).

Definition approvalSHA256 (approval : SignedApproval.t) : result store_error string :=
  match ApprovalSHA256 approval with Ok d => Ok d | Err _ => Err ErrInvalidRecord end.

Definition CommitIntent_Validate (i : CommitIntent.t) : result store_error unit :=
  if negb (String.eqb (CommitIntent.Schema i) CommitIntentSchema) ||
     negb (validTransactionID (CommitIntent.TransactionID i)) ||
     (CommitIntent.BundleGeneration i =? 0) || (CommitIntent.RootPolicyGeneration i =? 0) ||
     (CommitIntent.UserPolicyGeneration i =? 0) ||
     negb (validRecordDigest (CommitIntent.ManifestSHA256 i)) ||
     negb (validRecordDigest (CommitIntent.RootPayloadSHA256 i)) ||
     negb (validRecordDigest (CommitIntent.UserPayloadSHA256 i)) ||
     negb (validRecordDigest (CommitIntent.ApprovalSHA256 i)) ||
     negb (validCanonicalUTC (CommitIntent.CreatedAt i)) ||
     failed (validateApprovalStructure (CommitIntent.Approval i))
  then Err ErrInvalidRecord
  else
    let s := SignedApproval.Statement (CommitIntent.Approval i) in
    if negb (String.eqb (ApprovalStatement.ManifestSHA256 s) (CommitIntent.ManifestSHA256 i)) ||
       negb (String.eqb (ApprovalStatement.RootSHA256 s) (CommitIntent.RootPayloadSHA256 i)) ||
       negb (String.eqb (ApprovalStatement.UserSHA256 s) (CommitIntent.UserPayloadSHA256 i))
    then Err ErrInvalidRecord
    else match approvalSHA256 (CommitIntent.Approval i) with
         | Ok digest => if String.eqb digest (CommitIntent.ApprovalSHA256 i) then Ok tt else Err ErrInvalidRecord
         | Err _ => Err ErrInvalidRecord
         end.

(** The confirmation time of a pointer: a formatted UTC instant not before the
    activation. The text is compared with the UTC form, so a time written with
    another offset is refused. *)
Definition confirmation_valid (p : ActivePointer.t) : bool :=
  if String.eqb (ActivePointer.ConfirmedAt p) "" then true
  else match Parse (ActivePointer.ActivatedAt p), Parse (ActivePointer.ConfirmedAt p) with
       | Some activatedAt, Some confirmedAt =>
           String.eqb (Format confirmedAt) (ActivePointer.ConfirmedAt p) &&
           negb (Before confirmedAt activatedAt)
       | _, _ => false
       end.

Definition ActivePointer_Validate (p : ActivePointer.t) : result store_error unit :=
  if negb (String.eqb (ActivePointer.Schema p) ActivePointerSchema) ||
     negb (validTransactionID (ActivePointer.TransactionID p)) ||
     negb (Domain_Valid (ActivePointer.Domain p)) ||
     (ActivePointer.BundleGeneration p =? 0) || (ActivePointer.PolicyGeneration p =? 0) ||
     negb (validRecordDigest (ActivePointer.ManifestSHA256 p)) ||
     negb (validRecordDigest (ActivePointer.PayloadSHA256 p)) ||
     negb (validRecordDigest (ActivePointer.ApprovalSHA256 p)) ||
     negb (validRecordDigest (ActivePointer.CommitIntentSHA256 p)) ||
     negb (validCanonicalUTC (ActivePointer.ActivatedAt p)) ||
     failed (validateApprovalStructure (ActivePointer.Approval p))
  then Err ErrInvalidRecord
  else if negb (confirmation_valid p) then Err ErrInvalidRecord
  else
    let s := SignedApproval.Statement (ActivePointer.Approval p) in
    let wantPayload := if String.eqb (ActivePointer.Domain p) DomainUser
                       then ApprovalStatement.UserSHA256 s else ApprovalStatement.RootSHA256 s in
    if negb (String.eqb (ApprovalStatement.ManifestSHA256 s) (ActivePointer.ManifestSHA256 p)) ||
       negb (String.eqb wantPayload (ActivePointer.PayloadSHA256 p))
    then Err ErrInvalidRecord
    else match approvalSHA256 (ActivePointer.Approval p) with
         | Ok digest => if String.eqb digest (ActivePointer.ApprovalSHA256 p) then Ok tt else Err ErrInvalidRecord
         | Err _ => Err ErrInvalidRecord
         end.

Definition CommitIntentSHA256 (i : CommitIntent.t) : result store_error string :=
  if failed (CommitIntent_Validate i) then Err ErrInvalidRecord
  else match CanonicalSHA256 i with Ok (digest, _) => Ok digest | Err _ => Err ErrInvalidRecord end.

(** ** Reading and writing record files *)

Definition marshalRecord `{!Codec T} (value : T) : result store_error Doc :=
  match MarshalCanonical value with
  | Ok encoded => if (doc_len encoded =? 0) || (MaxRecordSize <? doc_len encoded)
                  then Err ErrInvalidRecord else Ok encoded
  | Err _ => Err ErrInvalidRecord
  end.

Definition decodeRecord T `{!Codec T} (encoded : Doc) : result store_error T :=
  if (doc_len encoded =? 0) || (MaxRecordSize <? doc_len encoded) then Err ErrInvalidRecord
  else match strictJSONDecode encoded with
       | None => Err ErrInvalidRecord
       | Some value =>
           match MarshalCanonical value with
           | Ok canonical => if bool_decide (canonical = encoded) then Ok value else Err ErrInvalidRecord
           | Err _ => Err ErrInvalidRecord
           end
       end.

(** [validateRecordStat]: the size is part of the check. *)
Definition validateRecordStat (f : File) : bool :=
  secure f && (0 <? doc_len (content f)) && (doc_len (content f) <=? MaxRecordSize).

Definition readRecordLocked (e : Env) (name : string) (s : State) : result store_error Doc :=
  match s !! name with
  | None => Err ErrRecordNotFound
  | Some f => if negb (validateRecordStat f) then Err ErrInsecureRecord
              else if negb (bound e) then Err ErrInsecureStore
              else Ok (content f)
  end.

Definition temporary_name (name : string) (id : UUID) : string := "." ++ name ++ "." ++ id ++ ".tmp".

(** [persistRecordLocked]: the points at which it can stop, in order, with what is
    in the directory then. A stop at the fault hook before the rename leaves the
    temporary file; a failing system call has it removed. *)
Definition persistRecordLocked (e : Env) (op : recordOperation) (name : string) (encoded : Doc)
    (replace : bool) (s : State) : result store_error unit * State :=
  let stops p := bool_decide (stop e op = Some p) in
  if (doc_len encoded =? 0) || (MaxRecordSize <? doc_len encoded) then (Err ErrInvalidRecord, s)
  else if stops StopRandom then (Err ErrStoreUnavailable, s)
  else
    let temporaryName := temporary_name name (temporary e op) in
    if stops StopOpen || bool_decide (is_Some (s !! temporaryName)) then (Err ErrStoreUnavailable, s)
    else
      let written := <[temporaryName := mkFile encoded true]> s in
      let cleaned := delete temporaryName written in
      if stops StopWrite then (Err ErrStoreUnavailable, cleaned)
      else if stops boundaryBeforeFileSync then (Err ErrPersistenceInterrupted, written)
      else if stops StopFileSync then (Err ErrStoreUnavailable, cleaned)
      else if stops boundaryAfterFileSync then (Err ErrPersistenceInterrupted, written)
      else if stops StopClose then (Err ErrStoreUnavailable, cleaned)
      else if stops boundaryBeforeRename then (Err ErrPersistenceInterrupted, written)
      else if stops StopRename then (Err ErrStoreUnavailable, cleaned)
      else if negb replace && bool_decide (is_Some (written !! name)) then (Err EEXIST, cleaned)
      else
        let renamed := <[name := mkFile encoded true]> cleaned in
        if stops boundaryAfterRename then (Err ErrPersistenceInterrupted, renamed)
        else if stops StopReadBack then (Err ErrStoreUnavailable, renamed)
        else match readRecordLocked e name renamed with
             | Err _ => (Err ErrStoreUnavailable, renamed)
             | Ok final =>
                 if negb (bool_decide (final = encoded)) then (Err ErrStoreUnavailable, renamed)
                 else if stops boundaryBeforeDirectorySync then (Err ErrPersistenceInterrupted, renamed)
                 else if stops StopDirectorySync then (Err ErrStoreUnavailable, renamed)
                 else if stops boundaryAfterDirectorySync then (Err ErrPersistenceInterrupted, renamed)
                 else if negb (bound e) then (Err ErrInsecureStore, renamed)
                 else (Ok tt, renamed)
             end.

Definition persistImmutableRecordLocked (e : Env) (op : recordOperation) (name : string) (encoded : Doc)
    (s : State) : result store_error unit * State :=
  match readRecordLocked e name s with
  | Ok existing =>
      if bool_decide (existing = encoded) then (Ok tt, s) else (Err ErrRecordConflict, s)
  | Err ErrRecordNotFound =>
      match persistRecordLocked e op name encoded false s with
      | (Err EEXIST, s') =>
          match readRecordLocked e name s' with
          | Err readErr => (Err readErr, s')
          | Ok existing =>
              if bool_decide (existing = encoded) then (Ok tt, s') else (Err ErrRecordConflict, s')
          end
      | r => r
      end
  | Err err => (Err err, s)
  end.

(** ** The operations on receipts, intents and the active pointer

    Each takes the domain of the store and returns the new directory. [locked] is
    the part of a call after [store.mu.Lock()]. *)

Definition locked {A} (e : Env) (s : State) (body : result store_error A * State)
    : result store_error A * State :=
  match open_check e with Some err => (Err err, s) | None => body end.

Definition receiptMatchesIntent (r : PrepareReceipt.t) (i : CommitIntent.t) (domain : Domain) : bool :=
  if negb (String.eqb (PrepareReceipt.TransactionID r) (CommitIntent.TransactionID i)) ||
     negb (String.eqb (PrepareReceipt.Domain r) domain) ||
     negb (PrepareReceipt.BundleGeneration r =? CommitIntent.BundleGeneration i) ||
     negb (String.eqb (PrepareReceipt.ManifestSHA256 r) (CommitIntent.ManifestSHA256 i)) ||
     negb (String.eqb (PrepareReceipt.ApprovalSHA256 r) (CommitIntent.ApprovalSHA256 i))
  then false
  else if String.eqb domain DomainRoot then
    (PrepareReceipt.PolicyGeneration r =? CommitIntent.RootPolicyGeneration i) &&
    String.eqb (PrepareReceipt.PayloadSHA256 r) (CommitIntent.RootPayloadSHA256 i)
  else
    (PrepareReceipt.PolicyGeneration r =? CommitIntent.UserPolicyGeneration i) &&
    String.eqb (PrepareReceipt.PayloadSHA256 r) (CommitIntent.UserPayloadSHA256 i).

Definition pointerMatchesIntent (p : ActivePointer.t) (i : CommitIntent.t) : bool :=
  if negb (String.eqb (ActivePointer.TransactionID p) (CommitIntent.TransactionID i)) ||
     negb (ActivePointer.BundleGeneration p =? CommitIntent.BundleGeneration i) ||
     negb (String.eqb (ActivePointer.ManifestSHA256 p) (CommitIntent.ManifestSHA256 i)) ||
     negb (String.eqb (ActivePointer.ApprovalSHA256 p) (CommitIntent.ApprovalSHA256 i))
  then false
  else match CommitIntentSHA256 i with
  | Err _ => false
  | Ok intentDigest =>
      if negb (String.eqb (ActivePointer.CommitIntentSHA256 p) intentDigest) then false
      else if String.eqb (ActivePointer.Domain p) DomainRoot then
        (ActivePointer.PolicyGeneration p =? CommitIntent.RootPolicyGeneration i) &&
        String.eqb (ActivePointer.PayloadSHA256 p) (CommitIntent.RootPayloadSHA256 i)
      else
        (ActivePointer.PolicyGeneration p =? CommitIntent.UserPolicyGeneration i) &&
        String.eqb (ActivePointer.PayloadSHA256 p) (CommitIntent.UserPayloadSHA256 i)
  end.

Definition activePointerConfirmationAdvance (current next : ActivePointer.t) : bool :=
  bool_decide (ActivePointer.with_ConfirmedAt current "" = ActivePointer.with_ConfirmedAt next "") &&
  String.eqb (ActivePointer.ConfirmedAt current) "" &&
  negb (String.eqb (ActivePointer.ConfirmedAt next) "").

Definition PersistPrepareReceipt (e : Env) (domain : Domain) (r : PrepareReceipt.t) (s : State)
    : result store_error unit * State :=
  if failed (PrepareReceipt_Validate r) || negb (String.eqb domain (PrepareReceipt.Domain r))
  then (Err ErrInvalidRecord, s)
  else match marshalRecord r with
  | Err err => (Err err, s)
  | Ok encoded =>
      match transactionRecordFilename recordPrepare (PrepareReceipt.TransactionID r) with
      | Err err => (Err err, s)
      | Ok name => locked e s (persistImmutableRecordLocked e recordPrepare name encoded s)
      end
  end.

Definition ReadPrepareReceipt (e : Env) (domain : Domain) (id : UUID) (s : State)
    : result store_error PrepareReceipt.t :=
  name ← transactionRecordFilename recordPrepare id;
  match open_check e with
  | Some err => Err err
  | None =>
      encoded ← readRecordLocked e name s;
      match decodeRecord PrepareReceipt.t encoded with
      | Ok receipt =>
          if failed (PrepareReceipt_Validate receipt) ||
             negb (String.eqb (PrepareReceipt.Domain receipt) domain) ||
             negb (String.eqb (PrepareReceipt.TransactionID receipt) id)
          then Err ErrInvalidRecord else Ok receipt
      | Err _ => Err ErrInvalidRecord
      end
  end.

Definition PersistCommitIntent (e : Env) (domain : Domain) (i : CommitIntent.t) (s : State)
    : result store_error unit * State :=
  if failed (CommitIntent_Validate i) then (Err ErrInvalidRecord, s)
  else match marshalRecord i with
  | Err err => (Err err, s)
  | Ok encoded =>
      match transactionRecordFilename recordCommit (CommitIntent.TransactionID i) with
      | Err err => (Err err, s)
      | Ok name =>
          locked e s (
            match (receiptName ← transactionRecordFilename recordPrepare (CommitIntent.TransactionID i);
                   readRecordLocked e receiptName s) with
            | Err err => (Err err, s)
            | Ok receiptEncoded =>
                match decodeRecord PrepareReceipt.t receiptEncoded with
                | Err _ => (Err ErrRecordConflict, s)
                | Ok receipt =>
                    if failed (PrepareReceipt_Validate receipt) || negb (receiptMatchesIntent receipt i domain)
                    then (Err ErrRecordConflict, s)
                    else persistImmutableRecordLocked e recordCommit name encoded s
                end
            end)
      end
  end.

Definition ReadCommitIntent (e : Env) (id : UUID) (s : State) : result store_error CommitIntent.t :=
  name ← transactionRecordFilename recordCommit id;
  match open_check e with
  | Some err => Err err
  | None =>
      encoded ← readRecordLocked e name s;
      match decodeRecord CommitIntent.t encoded with
      | Ok intent =>
          if failed (CommitIntent_Validate intent) || negb (String.eqb (CommitIntent.TransactionID intent) id)
          then Err ErrInvalidRecord else Ok intent
      | Err _ => Err ErrInvalidRecord
      end
  end.

(** The comparison with the pointer that is there: [None] lets the write go on,
    [Some] is the answer of the call. *)
Definition pointer_gate (e : Env) (domain : Domain) (p : ActivePointer.t) (encoded : Doc) (s : State)
    : option (result store_error unit) :=
  match readRecordLocked e activePointerFilename s with
  | Ok existing =>
      if bool_decide (existing = encoded) then Some (Ok tt)
      else match decodeRecord ActivePointer.t existing with
      | Err _ => Some (Err ErrInvalidRecord)
      | Ok current =>
          if failed (ActivePointer_Validate current) || negb (String.eqb (ActivePointer.Domain current) domain)
          then Some (Err ErrInvalidRecord)
          else if (ActivePointer.BundleGeneration p =? ActivePointer.BundleGeneration current) &&
                  activePointerConfirmationAdvance current p then None
          else if ActivePointer.BundleGeneration p <=? ActivePointer.BundleGeneration current
          then Some (Err ErrStaleActivePointer) else None
      end
  | Err ErrRecordNotFound => None
  | Err err => Some (Err err)
  end.

Definition PersistActivePointer (e : Env) (domain : Domain) (p : ActivePointer.t) (s : State)
    : result store_error unit * State :=
  if failed (ActivePointer_Validate p) || negb (String.eqb domain (ActivePointer.Domain p))
  then (Err ErrInvalidRecord, s)
  else match marshalRecord p with
  | Err err => (Err err, s)
  | Ok encoded =>
      locked e s (
        match (intentName ← transactionRecordFilename recordCommit (ActivePointer.TransactionID p);
               readRecordLocked e intentName s) with
        | Err err => (Err err, s)
        | Ok intentEncoded =>
            match decodeRecord CommitIntent.t intentEncoded with
            | Err _ => (Err ErrRecordConflict, s)
            | Ok intent =>
                if failed (CommitIntent_Validate intent) || negb (pointerMatchesIntent p intent)
                then (Err ErrRecordConflict, s)
                else match pointer_gate e domain p encoded s with
                     | Some answer => (answer, s)
                     | None => persistRecordLocked e recordActive activePointerFilename encoded true s
                     end
            end
        end)
  end.

Definition ReadActivePointer (e : Env) (domain : Domain) (s : State) : result store_error ActivePointer.t :=
  match open_check e with
  | Some err => Err err
  | None =>
      encoded ← readRecordLocked e activePointerFilename s;
      match decodeRecord ActivePointer.t encoded with
      | Ok pointer =>
          if failed (ActivePointer_Validate pointer) || negb (String.eqb (ActivePointer.Domain pointer) domain)
          then Err ErrInvalidRecord else Ok pointer
      | Err _ => Err ErrInvalidRecord
      end
  end.

(** ** File names *)

(** Temporary files begin with a dot, records do not. *)
Definition dotted (name : string) : bool := String.prefix "." name.

Lemma temporary_name_dotted name id : dotted (temporary_name name id) = true.
Proof. unfold dotted, temporary_name. simpl. by destruct (name ++ "." ++ id ++ ".tmp"). Qed.

Lemma validTransactionID_length id : validTransactionID id = true -> String.length id = 36%nat.
Proof.
  unfold validTransactionID, validUUID, ParseUUID.
  destruct (Z.eqb_spec (slen id) 36); simpl; [lia|done].
Qed.

Lemma transactionRecordFilename_Ok op id name : transactionRecordFilename op id = Ok name ->
  validTransactionID id = true /\ name = operation_text op ++ "-" ++ id ++ ".json" /\
  op <> recordActive /\ op <> recordAudit.
Proof.
  unfold transactionRecordFilename. destruct (validTransactionID id); [|done]. simpl.
  intros Hn. destruct op; simplify_eq; done.
Qed.

Lemma transactionRecordFilename_not_dotted op id name :
  transactionRecordFilename op id = Ok name -> dotted name = false.
Proof. intros (_ & -> & _ & _)%transactionRecordFilename_Ok. by destruct op. Qed.

Lemma transactionRecordFilename_not_active op id name :
  transactionRecordFilename op id = Ok name -> name <> activePointerFilename.
Proof.
  intros (_ & -> & Ha & _)%transactionRecordFilename_Ok. intros Heq.
  destruct op; done || (injection Heq; intros; discriminate).
Qed.

(** Records of different kinds or identifiers never share a file. *)
Lemma transactionRecordFilename_inj op id op' id' name :
  transactionRecordFilename op id = Ok name -> transactionRecordFilename op' id' = Ok name ->
  op = op' /\ id = id'.
Proof.
  intros (Hid & Hn & Ho1 & Ho2)%transactionRecordFilename_Ok
    (Hid' & Hn' & Ho1' & Ho2')%transactionRecordFilename_Ok.
  apply validTransactionID_length in Hid, Hid'. rewrite Hn in Hn'. apply (f_equal chars) in Hn'.
  rewrite !chars_app in Hn'.
  apply app_inj_2 in Hn' as [Hop Htail].
  2:{ rewrite !length_app, !length_chars. simpl. lia. }
  apply (inj chars) in Hop. apply app_inj_1 in Htail as [_ Htail]; [|done].
  apply app_inj_2 in Htail as [Hids _]; [|done]. apply (inj chars) in Hids.
  split; [|done]. destruct op, op'; done.
Qed.

(** ** The effect of writing a record *)

Lemma readRecordLocked_Ok e name s d : readRecordLocked e name s = Ok d ->
  exists f, s !! name = Some f /\ content f = d /\ validateRecordStat f = true.
Proof.
  unfold readRecordLocked. intros Hr. destruct (s !! name) as [f|]; [|done].
  destruct (validateRecordStat f) eqn:Hv; [|done]. simpl in Hr.
  destruct (negb (bound e)); [done|]. simplify_eq. eauto.
Qed.

Lemma readRecordLocked_NotFound e name s : readRecordLocked e name s = Err ErrRecordNotFound ->
  s !! name = None.
Proof.
  unfold readRecordLocked. destruct (s !! name) as [f|]; [|done].
  destruct (negb _); [done|]. by destruct (negb _).
Qed.

(** What a write may do to the directory: other record files stay, the file
    itself is untouched or becomes the new text, the latter over an existing file
    only for a replacing write; success means it is there. *)
Record write_effect (name : string) (encoded : Doc) (replace : bool) (s : State)
    (r : result store_error unit) (s' : State) : Prop := {
  effect_others n : n <> name -> dotted n = false -> s' !! n = s !! n;
  effect_name : s' !! name = s !! name \/
    (s' !! name = Some (mkFile encoded true) /\ (replace = false -> s !! name = None));
  effect_ok : r = Ok tt -> exists f, s' !! name = Some f /\ content f = encoded /\ validateRecordStat f = true
}.

Lemma lookup_cleaned (name tmp : string) (f : File) (s : State) n :
  dotted n = false -> dotted tmp = true -> delete tmp (<[tmp := f]> s) !! n = s !! n.
Proof.
  intros Hn Ht. assert (tmp <> n) by congruence.
  by rewrite lookup_delete_ne, lookup_insert_ne.
Qed.

Lemma persistRecordLocked_effect e op name encoded replace s r s' : dotted name = false ->
  persistRecordLocked e op name encoded replace s = (r, s') ->
  write_effect name encoded replace s r s' /\ (r = Err EEXIST -> s' !! name = s !! name /\ replace = false).
Proof.
  intros Hd. unfold persistRecordLocked.
  set (tmp := temporary_name name (temporary e op)).
  assert (dotted tmp = true) as Ht by apply temporary_name_dotted.
  set (written := <[tmp := mkFile encoded true]> s).
  assert (forall n, dotted n = false -> written !! n = s !! n) as Hw.
  { intros n Hn. unfold written. rewrite lookup_insert_ne; [done|congruence]. }
  assert (forall n, dotted n = false -> delete tmp written !! n = s !! n) as Hc.
  { intros n Hn. by apply (lookup_cleaned name). }
  assert (forall n, dotted n = false -> n <> name ->
    <[name := mkFile encoded true]> (delete tmp written) !! n = s !! n) as Hr.
  { intros n Hn Hne. rewrite lookup_insert_ne by done. by apply Hc. }
  clearbody tmp written.
  assert (forall x, write_effect name encoded replace s (Err x) s) as Wsame
    by (intros; constructor; try done; by left).
  assert (forall x, write_effect name encoded replace s (Err x) written) as Wwritten
    by (intros; constructor; [auto|left; auto|done]).
  assert (forall x, write_effect name encoded replace s (Err x) (delete tmp written)) as Wcleaned
    by (intros; constructor; [auto|left; auto|done]).
  repeat (case_match; [intros [= <- <-]; split; [done|]; by intros|]).
  destruct (negb replace && bool_decide (is_Some (written !! name))) eqn:Hex.
  { intros [= <- <-]. split; [done|]. intros _. split; [by apply Hc|].
    apply andb_true_iff in Hex as [Hex _]. by destruct replace. }
  assert (replace = false -> s !! name = None) as Hfree.
  { intros ->. simpl in Hex. apply bool_decide_eq_false in Hex. rewrite Hw in Hex by done.
    by apply eq_None_not_Some. }
  set (renamed := <[name := mkFile encoded true]> (delete tmp written)).
  assert (renamed !! name = Some (mkFile encoded true)) as Hnew by apply lookup_insert_eq.
  assert (forall x, (x = Ok tt -> validateRecordStat (mkFile encoded true) = true) ->
    write_effect name encoded replace s x renamed) as Wrenamed.
  { intros x Hx. constructor; [auto|by right|]. intros Hok. exists (mkFile encoded true). auto. }
  clearbody renamed. intros Hrest.
  repeat (case_match; [simplify_eq; split; [by apply Wrenamed|]; by intros|]).
  destruct (readRecordLocked e name renamed) as [final|] eqn:Hread.
  2:{ simplify_eq. split; [by apply Wrenamed|]. by intros. }
  apply readRecordLocked_Ok in Hread as (f & Hf & _ & Hstat). rewrite Hnew in Hf. simplify_eq.
  repeat case_match; simplify_eq; (split; [by apply Wrenamed|]; by intros).
Qed.

Lemma persistImmutable_effect e op name encoded s r s' : dotted name = false ->
  persistImmutableRecordLocked e op name encoded s = (r, s') -> write_effect name encoded false s r s'.
Proof.
  intros Hd. unfold persistImmutableRecordLocked.
  assert (forall x, x <> Ok tt -> write_effect name encoded false s x s) as Wsame
    by (intros; constructor; try done; by left).
  destruct (readRecordLocked e name s) as [existing|err] eqn:Hread.
  { apply readRecordLocked_Ok in Hread as (f & Hf & Hcont & Hstat).
    case_bool_decide; intros [= <- <-]; [|by apply Wsame].
    constructor; [done|by left|]. intros _. exists f. split_and!; congruence. }
  destruct (decide (err = ErrRecordNotFound)) as [->|Hne].
  2:{ intros Heq. assert ((r, s') = (Err err, s)) as Heq' by (by destruct err). simplify_eq. by apply Wsame. }
  apply readRecordLocked_NotFound in Hread.
  destruct (persistRecordLocked e op name encoded false s) as [r1 s1] eqn:Hp.
  apply persistRecordLocked_effect in Hp as [Hw Hex]; [|done].
  destruct r1 as [[]|err1]; [intros [= <- <-]; done|].
  destruct (decide (err1 = EEXIST)) as [->|Hne].
  2:{ intros Heq. assert ((r, s') = (Err err1, s1)) as Heq' by (by destruct err1). by simplify_eq. }
  destruct (Hex eq_refl) as [Hname _]. destruct Hw as [Ho Hn _].
  destruct (readRecordLocked e name s1) as [existing|err] eqn:Hread1.
  - apply readRecordLocked_Ok in Hread1 as (f & Hf & _). congruence.
  - intros [= <- <-]. by constructor.
Qed.

(** A text that fits a record, and an environment in which writing it meets no
    failure. *)
Definition fits (d : Doc) : Prop := 0 < doc_len d <= MaxRecordSize.

Record quiet (e : Env) (op : recordOperation) (name : string) (s : State) : Prop := {
  quiet_bound : bound e = true;
  quiet_stop : stop e op = None;
  quiet_fresh : s !! temporary_name name (temporary e op) = None
}.

Lemma persistImmutable_quiet e op name encoded s : dotted name = false -> quiet e op name s ->
  fits encoded -> s !! name = None ->
  exists s', persistImmutableRecordLocked e op name encoded s = (Ok tt, s') /\
    forall n, dotted n = true -> s' !! n = s !! n.
Proof.
  intros Hd [Hb Hs Hf] Hfit Hn. unfold persistImmutableRecordLocked.
  assert (readRecordLocked e name s = Err ErrRecordNotFound) as ->
    by (unfold readRecordLocked; by rewrite Hn).
  unfold persistRecordLocked. unfold fits in Hfit.
  rewrite (proj2 (Z.eqb_neq (doc_len encoded) 0)), (proj2 (Z.ltb_ge _ (doc_len encoded))) by lia.
  rewrite Hs, Hf, !bool_decide_eq_false_2 by (done || by intros [? ?]). cbn [orb negb andb].
  set (tmp := temporary_name name (temporary e op)).
  assert (dotted tmp = true) as Ht by apply temporary_name_dotted.
  rewrite lookup_insert_ne, Hn, bool_decide_eq_false_2 by (congruence || by intros [? ?]). cbn [andb].
  unfold readRecordLocked, validateRecordStat. rewrite lookup_insert_eq, Hb. simpl.
  rewrite (proj2 (Z.ltb_lt 0 _)), (proj2 (Z.leb_le (doc_len encoded) _)) by lia. simpl.
  rewrite bool_decide_eq_true_2 by done. simpl. eexists. split; [done|].
  intros n Hdn. rewrite lookup_insert_ne by congruence.
  destruct (decide (n = tmp)) as [->|]; [unfold tmp; by rewrite lookup_delete_eq, Hf|].
  by rewrite lookup_delete_ne, lookup_insert_ne.
Qed.
End records.
