(* ===== verification/StoreLeases.v ===== *)
(** * The policy store: action leases

    [internal/policystore/action_leases.go]: the durable life of an action lease.
    A lease is persisted with a claim on its nonce, an attempt claims its
    execution, and one outcome resolves it. Each operation is one step of the
    store, with the environment of [StoreRecords]. *)

From Stdlib Require Import ZArith Lia Ascii String.
From stdpp Require Import base strings list option gmap.
From S2P Require Import Prelude GoTime Metadata PolicyModel PolicyValidate PolicyCanonical PolicyApproval.
From S2P Require Import StoreRecords.

Open Scope string_scope.
Open Scope Z_scope.

Definition actionNonceClaimSchema := "hexroute.action-nonce-claim.v1".

Module actionNonceClaim.
Record t := mk {
  Schema : string;
  Domain : Domain;
  ActionID : UUID;
  Nonce : UUID;
  ClaimedAt : string
}.
#[global] Instance eq_dec : EqDecision t.
Proof. solve_decision. Defined.
End actionNonceClaim.

Definition actionNonceClaim_Validate (c : actionNonceClaim.t) : result store_error unit :=
  if negb (String.eqb (actionNonceClaim.Schema c) actionNonceClaimSchema) ||
     negb (Domain_Valid (actionNonceClaim.Domain c)) ||
     negb (validTransactionID (actionNonceClaim.ActionID c)) ||
     negb (validTransactionID (actionNonceClaim.Nonce c)) ||
     negb (validCanonicalUTC (actionNonceClaim.ClaimedAt c))
  then Err ErrInvalidRecord else Ok tt.

Class LeaseCodecs `{JSON} := {
  lease_records :: RecordCodecs;
  nonce_codec :: Codec actionNonceClaim.t;
  lease_codec :: Codec ActionLease.t;
  execution_codec :: Codec ActionLeaseExecutionClaim.t;
  outcome_codec :: Codec ActionLeaseOutcome.t
}.

(** [!a.Before(b)] of two parsed times, as the two matching functions compare. *)
Definition not_before (a b : option Z) : bool :=
  match a, b with Some x, Some y => negb (Before x y) | _, _ => false end.

Definition outcomeMatchesLease (o : ActionLeaseOutcome.t) (l : ActionLease.t) : bool :=
  not_before (Parse (ActionLeaseOutcome.ResolvedAt o)) (Parse (ActionLease.IssuedAt l)) &&
  String.eqb (ActionLeaseOutcome.ActionID o) (ActionLease.ActionID l) &&
  String.eqb (ActionLeaseOutcome.Domain o) (ActionLease.Domain l) &&
  String.eqb (ActionLeaseOutcome.Nonce o) (ActionLease.Nonce l).

Definition executionMatchesLease (c : ActionLeaseExecutionClaim.t) (l : ActionLease.t) : bool :=
  not_before (Parse (ActionLeaseExecutionClaim.ClaimedAt c)) (Parse (ActionLease.IssuedAt l)) &&
  String.eqb (ActionLeaseExecutionClaim.ActionID c) (ActionLease.ActionID l) &&
  String.eqb (ActionLeaseExecutionClaim.Domain c) (ActionLease.Domain l) &&
  String.eqb (ActionLeaseExecutionClaim.Nonce c) (ActionLease.Nonce l) &&
  String.eqb (ActionLeaseExecutionClaim.BootID c) (ActionLease.BootID l).

Section leases.
Context `{LeaseCodecs}.
Abbreviation State := (gmap string File).

(** [name, _ := transactionRecordFilename(...)] of an identifier that was
    validated before. *)
Definition filename (op : recordOperation) (id : UUID) : string :=
  operation_text op ++ "-" ++ id ++ ".json".

(** [if _, err := read(name); err == nil { return ErrActionLeaseResolved } else if
    !errors.Is(err, ErrRecordNotFound) { return err }]. *)
Definition refuse_if_resolved (e : Env) (name : string) (s : State) : result store_error unit :=
  match readRecordLocked e name s with
  | Ok _ => Err ErrActionLeaseResolved
  | Err ErrRecordNotFound => Ok tt
  | Err err => Err err
  end.

(** The confirmed active pointer governs the generations of the lease. *)
Definition require_pointer (e : Env) (l : ActionLease.t) (s : State) : result store_error unit :=
  pointerEncoded ← readRecordLocked e activePointerFilename s;
  match decodeRecord ActivePointer.t pointerEncoded with
  | Err _ => Err ErrRecordConflict
  | Ok pointer =>
      if failed (ActivePointer_Validate pointer) ||
         negb (String.eqb (ActivePointer.Domain pointer) (ActionLease.Domain l)) ||
         String.eqb (ActivePointer.ConfirmedAt pointer) "" ||
         negb (ActivePointer.BundleGeneration pointer =? ActionLease.BundleGeneration l) ||
         negb (ActivePointer.PolicyGeneration pointer =? ActionLease.DomainPolicyGeneration l)
      then Err ErrRecordConflict else Ok tt
  end.

Definition readActionLeaseLocked (e : Env) (domain : Domain) (leaseName : string) (actionID : UUID)
    (s : State) : result store_error ActionLease.t :=
  encoded ← readRecordLocked e leaseName s;
  match decodeRecord ActionLease.t encoded with
  | Err _ => Err ErrInvalidRecord
  | Ok lease =>
      if failed (ActionLease_Validate lease) || negb (String.eqb (ActionLease.Status lease) LeasePending) ||
         negb (String.eqb (ActionLease.Domain lease) domain) ||
         negb (String.eqb (ActionLease.ActionID lease) actionID)
      then Err ErrInvalidRecord
      else
        claimEncoded ← readRecordLocked e (filename recordActionNonce (ActionLease.Nonce lease)) s;
        match decodeRecord actionNonceClaim.t claimEncoded with
        | Err _ => Err ErrRecordConflict
        | Ok claim =>
            if failed (actionNonceClaim_Validate claim) ||
               negb (String.eqb (actionNonceClaim.Domain claim) (ActionLease.Domain lease)) ||
               negb (String.eqb (actionNonceClaim.ActionID claim) (ActionLease.ActionID lease)) ||
               negb (String.eqb (actionNonceClaim.Nonce claim) (ActionLease.Nonce lease)) ||
               negb (String.eqb (actionNonceClaim.ClaimedAt claim) (ActionLease.IssuedAt lease))
            then Err ErrRecordConflict else Ok lease
        end
  end.

Definition PersistActionLease (e : Env) (domain : Domain) (l : ActionLease.t) (s : State)
    : result store_error unit * State :=
  if failed (ActionLease_Validate l) || negb (String.eqb (ActionLease.Status l) LeasePending) ||
     negb (String.eqb domain (ActionLease.Domain l))
  then (Err ErrInvalidRecord, s)
  else
    let claim := actionNonceClaim.mk actionNonceClaimSchema (ActionLease.Domain l)
                   (ActionLease.ActionID l) (ActionLease.Nonce l) (ActionLease.IssuedAt l) in
    match (claimEncoded ← marshalRecord claim;
           leaseEncoded ← marshalRecord l;
           claimName ← transactionRecordFilename recordActionNonce (ActionLease.Nonce l);
           leaseName ← transactionRecordFilename recordActionLease (ActionLease.ActionID l);
           Ok (claimEncoded, leaseEncoded, claimName, leaseName)) with
    | Err err => (Err err, s)
    | Ok (claimEncoded, leaseEncoded, claimName, leaseName) =>
        locked e s (
          match (refuse_if_resolved e (filename recordActionOutcome (ActionLease.ActionID l)) s;;
                 require_pointer e l s) with
          | Err err => (Err err, s)
          | Ok _ =>
              match persistImmutableRecordLocked e recordActionNonce claimName claimEncoded s with
              | (Err err, s') => (Err err, s')
              | (Ok _, s') => persistImmutableRecordLocked e recordActionLease leaseName leaseEncoded s'
              end
          end)
    end.

Definition PersistActionLeaseExecutionClaim (e : Env) (domain : Domain) (c : ActionLeaseExecutionClaim.t)
    (s : State) : result store_error unit * State :=
  if failed (ActionLeaseExecutionClaim_Validate c) ||
     negb (String.eqb domain (ActionLeaseExecutionClaim.Domain c))
  then (Err ErrInvalidRecord, s)
  else
    let actionID := ActionLeaseExecutionClaim.ActionID c in
    match (leaseName ← transactionRecordFilename recordActionLease actionID;
           executionName ← transactionRecordFilename recordActionExecution actionID;
           encoded ← marshalRecord c;
           Ok (leaseName, executionName, encoded)) with
    | Err err => (Err err, s)
    | Ok (leaseName, executionName, encoded) =>
        locked e s (
          match (lease ← readActionLeaseLocked e domain leaseName actionID s;
                 ensure (executionMatchesLease c lease) ErrRecordConflict;;
                 refuse_if_resolved e (filename recordActionOutcome actionID) s;;
                 require_pointer e lease s) with
          | Err err => (Err err, s)
          | Ok _ =>
              match readRecordLocked e executionName s with
              | Ok existingEncoded =>
                  match decodeRecord ActionLeaseExecutionClaim.t existingEncoded with
                  | Ok existing =>
                      if failed (ActionLeaseExecutionClaim_Validate existing) ||
                         negb (bool_decide (existing = c))
                      then (Err ErrRecordConflict, s) else (Ok tt, s)
                  | Err _ => (Err ErrRecordConflict, s)
                  end
              | Err ErrRecordNotFound =>
                  persistImmutableRecordLocked e recordActionExecution executionName encoded s
              | Err err => (Err err, s)
              end
          end)
    end.

Definition ReadActionLeaseExecutionClaim (e : Env) (domain : Domain) (actionID : UUID) (s : State)
    : result store_error ActionLeaseExecutionClaim.t :=
  leaseName ← transactionRecordFilename recordActionLease actionID;
  executionName ← transactionRecordFilename recordActionExecution actionID;
  match open_check e with
  | Some err => Err err
  | None =>
      lease ← readActionLeaseLocked e domain leaseName actionID s;
      encoded ← readRecordLocked e executionName s;
      match decodeRecord ActionLeaseExecutionClaim.t encoded with
      | Ok claim =>
          if failed (ActionLeaseExecutionClaim_Validate claim) || negb (executionMatchesLease claim lease)
          then Err ErrRecordConflict else Ok claim
      | Err _ => Err ErrRecordConflict
      end
  end.

Definition ReadActionLeaseState (e : Env) (domain : Domain) (actionID : UUID) (s : State)
    : result store_error (ActionLease.t * option ActionLeaseOutcome.t) :=
  leaseName ← transactionRecordFilename recordActionLease actionID;
  match open_check e with
  | Some err => Err err
  | None =>
      lease ← readActionLeaseLocked e domain leaseName actionID s;
      match readRecordLocked e (filename recordActionOutcome actionID) s with
      | Err ErrRecordNotFound => Ok (lease, None)
      | Err err => Err err
      | Ok outcomeEncoded =>
          match decodeRecord ActionLeaseOutcome.t outcomeEncoded with
          | Ok outcome =>
              if failed (ActionLeaseOutcome_Validate outcome) || negb (outcomeMatchesLease outcome lease)
              then Err ErrRecordConflict else Ok (lease, Some outcome)
          | Err _ => Err ErrRecordConflict
          end
      end
  end.

Definition ReadActionLease (e : Env) (domain : Domain) (actionID : UUID) (s : State)
    : result store_error ActionLease.t :=
  state ← ReadActionLeaseState e domain actionID s; Ok state.1.

(** The evidence a committed outcome needs: the execution claim of the lease and
    the governing pointer. *)
Definition require_execution (e : Env) (lease : ActionLease.t) (actionID : UUID) (s : State)
    : result store_error unit :=
  executionEncoded ← readRecordLocked e (filename recordActionExecution actionID) s;
  match decodeRecord ActionLeaseExecutionClaim.t executionEncoded with
  | Ok execution =>
      if failed (ActionLeaseExecutionClaim_Validate execution) ||
         negb (executionMatchesLease execution lease)
      then Err ErrRecordConflict else require_pointer e lease s
  | Err _ => Err ErrRecordConflict
  end.

Definition PersistActionLeaseOutcome (e : Env) (domain : Domain) (o : ActionLeaseOutcome.t) (s : State)
    : result store_error unit * State :=
  if failed (ActionLeaseOutcome_Validate o) || negb (String.eqb domain (ActionLeaseOutcome.Domain o))
  then (Err ErrInvalidRecord, s)
  else
    let actionID := ActionLeaseOutcome.ActionID o in
    match (leaseName ← transactionRecordFilename recordActionLease actionID;
           outcomeName ← transactionRecordFilename recordActionOutcome actionID;
           encoded ← marshalRecord o;
           Ok (leaseName, outcomeName, encoded)) with
    | Err err => (Err err, s)
    | Ok (leaseName, outcomeName, encoded) =>
        locked e s (
          match (lease ← readActionLeaseLocked e domain leaseName actionID s;
                 ensure (outcomeMatchesLease o lease) ErrRecordConflict;;
                 refuse_if_resolved e outcomeName s;;
                 if String.eqb (ActionLeaseOutcome.Status o) LeaseCommitted
                 then require_execution e lease actionID s else Ok tt) with
          | Err err => (Err err, s)
          | Ok _ =>
              match persistRecordLocked e recordActionOutcome outcomeName encoded false s with
              | (Err EEXIST, s') => (Err ErrActionLeaseResolved, s')
              | r => r
              end
          end)
    end.

(** ** Histories of the store *)

(** One call of the store, with any environment: successful, refused or stopped
    anywhere. [admissible] restricts the pointers given to the store, for the
    statement that reads them back. *)
Inductive store_step (admissible : ActivePointer.t -> Prop) (domain : Domain) (s : State) : State -> Prop :=
| step_prepare e x r s' : PersistPrepareReceipt e domain x s = (r, s') -> store_step admissible domain s s'
| step_commit e x r s' : PersistCommitIntent e domain x s = (r, s') -> store_step admissible domain s s'
| step_active e x r s' : admissible x -> PersistActivePointer e domain x s = (r, s') ->
    store_step admissible domain s s'
| step_lease e x r s' : PersistActionLease e domain x s = (r, s') -> store_step admissible domain s s'
| step_execution e x r s' : PersistActionLeaseExecutionClaim e domain x s = (r, s') ->
    store_step admissible domain s s'
| step_outcome e x r s' : PersistActionLeaseOutcome e domain x s = (r, s') -> store_step admissible domain s s'.

Definition store_history (admissible : ActivePointer.t -> Prop) (domain : Domain) : State -> State -> Prop :=
  rtc (store_step admissible domain).

(** What every step does to a file that is not the active pointer: nothing when
    it is there. *)
Definition keeps (s s' : State) : Prop :=
  forall n f, n <> activePointerFilename -> dotted n = false -> s !! n = Some f -> s' !! n = Some f.

#[global] Instance keeps_preorder : PreOrder keeps.
Proof. split; [by intros s n f|]. intros s1 s2 s3 H1 H2 n f Hn Hd Hf. eauto. Qed.

(** A step of anything but the active pointer also leaves the pointer's file. *)
Definition keeps_all (s s' : State) : Prop :=
  keeps s s' /\ s' !! activePointerFilename = s !! activePointerFilename.

#[global] Instance keeps_all_preorder : PreOrder keeps_all.
Proof.
  split; [by intros s|]. intros s1 s2 s3 [H1 H2] [H3 H4]. split; [by transitivity s2|congruence].
Qed.

Lemma write_keeps name encoded s r s' : name <> activePointerFilename ->
  write_effect name encoded false s r s' -> keeps_all s s'.
Proof.
  intros Hact [Ho Hn _]. split; [|by apply Ho]. intros n f _ Hd Hf. destruct (decide (n = name)) as [->|Hne].
  - destruct Hn as [->|[_ Hfree]]; [done|]. rewrite Hfree in Hf; done.
  - by rewrite Ho.
Qed.

Lemma pointer_write_keeps encoded replace s r s' :
  write_effect activePointerFilename encoded replace s r s' -> keeps s s'.
Proof. intros [Ho _ _] n f Hne Hd Hf. by rewrite Ho. Qed.

Lemma filename_Ok op id name : transactionRecordFilename op id = Ok name -> name = filename op id.
Proof. by intros (_ & -> & _)%transactionRecordFilename_Ok. Qed.

Lemma immutable_keeps e op op' id name encoded s r s' :
  persistImmutableRecordLocked e op name encoded s = (r, s') ->
  transactionRecordFilename op' id = Ok name -> keeps_all s s'.
Proof.
  intros Hp Hn. eapply write_keeps, persistImmutable_effect; [| |done].
  { by eapply transactionRecordFilename_not_active. }
  by eapply transactionRecordFilename_not_dotted.
Qed.

Lemma PersistPrepareReceipt_keeps e domain x s r s' :
  PersistPrepareReceipt e domain x s = (r, s') -> keeps_all s s'.
Proof.
  unfold PersistPrepareReceipt, locked. intros Hp.
  destruct (_ || _); [by simplify_eq|]. destruct (marshalRecord x); [|by simplify_eq].
  destruct (transactionRecordFilename _ _) as [name|] eqn:Hn; [|by simplify_eq].
  destruct (open_check e); [by simplify_eq|].
  by eapply immutable_keeps.
Qed.

Lemma PersistCommitIntent_keeps e domain x s r s' :
  PersistCommitIntent e domain x s = (r, s') -> keeps_all s s'.
Proof.
  unfold PersistCommitIntent, locked. intros Hp.
  destruct (failed _); [by simplify_eq|]. destruct (marshalRecord x); [|by simplify_eq].
  destruct (transactionRecordFilename recordCommit _) as [name|] eqn:Hn; [|by simplify_eq].
  destruct (open_check e); [by simplify_eq|].
  destruct (_ ≫= _); [|by simplify_eq]. destruct (decodeRecord _ _); [|by simplify_eq].
  destruct (_ || _); [by simplify_eq|].
  by eapply immutable_keeps.
Qed.

Lemma PersistActivePointer_keeps e domain x s r s' :
  PersistActivePointer e domain x s = (r, s') -> keeps s s'.
Proof.
  unfold PersistActivePointer, locked. intros Hp.
  destruct (_ || _); [by simplify_eq|]. destruct (marshalRecord x); [|by simplify_eq].
  destruct (open_check e); [by simplify_eq|].
  destruct (_ ≫= _); [|by simplify_eq]. destruct (decodeRecord _ _); [|by simplify_eq].
  destruct (_ || _); [by simplify_eq|]. destruct (pointer_gate _ _ _ _ _); [by simplify_eq|].
  apply persistRecordLocked_effect in Hp as [Hw _]; [|done]. by eapply pointer_write_keeps.
Qed.

Lemma PersistActionLease_keeps e domain x s r s' :
  PersistActionLease e domain x s = (r, s') -> keeps_all s s'.
Proof.
  unfold PersistActionLease, locked. intros Hp. destruct (_ || _); [by simplify_eq|].
  destruct (_ ≫= _) as [[[[c1 c2] n1] n2]|] eqn:Hb; [|by simplify_eq]. inv_bind. simplify_eq.
  destruct (open_check e); [by simplify_eq|].
  destruct (refuse_if_resolved _ _ _ ≫= _); [|by simplify_eq].
  destruct (persistImmutableRecordLocked e recordActionNonce n1 _ s) as [[[]|] s1] eqn:Hnonce.
  - transitivity s1; by eapply immutable_keeps.
  - simplify_eq. by eapply immutable_keeps.
Qed.

(** What a lease that can be read satisfies. *)
Lemma readActionLeaseLocked_Ok e domain name id s l :
  readActionLeaseLocked e domain name id s = Ok l ->
  ActionLease_Validate l = Ok tt /\ ActionLease.Status l = LeasePending /\
  ActionLease.Domain l = domain /\ ActionLease.ActionID l = id.
Proof.
  unfold readActionLeaseLocked. intros (d & _ & Hl)%bind_Ok.
  destruct (decodeRecord ActionLease.t d) as [l'|]; [|done]. destruct (_ || _) eqn:Hv; [done|].
  apply bind_Ok in Hl as (dc & _ & Hl). destruct (decodeRecord actionNonceClaim.t dc); [|done].
  destruct (_ || _) in Hl; [done|]. simplify_eq. bool_prop. rewrite <- failed_unit. done.
Qed.

(** What a successful claim of an execution read and left. *)
Lemma PersistExecution_inv e domain c s r s' :
  PersistActionLeaseExecutionClaim e domain c s = (r, s') ->
  keeps_all s s' /\
  (r = Ok tt -> exists name encoded f,
     transactionRecordFilename recordActionExecution (ActionLeaseExecutionClaim.ActionID c) = Ok name /\
     ActionLeaseExecutionClaim_Validate c = Ok tt /\ marshalRecord c = Ok encoded /\
     s !! filename recordActionOutcome (ActionLeaseExecutionClaim.ActionID c) = None /\
     s' !! name = Some f /\
     (content f = encoded \/ decodeRecord ActionLeaseExecutionClaim.t (content f) = Ok c)).
Proof.
  unfold PersistActionLeaseExecutionClaim, locked. intros Hp.
  destruct (_ || _) eqn:Hv; [by simplify_eq|]. bool_prop.
  destruct (_ ≫= _) as [[[n1 n2] encoded]|] eqn:Hb; [|by simplify_eq]. inv_bind. simplify_eq.
  destruct (open_check e); [by simplify_eq|].
  destruct (readActionLeaseLocked _ _ _ _ _ ≫= _) eqn:Hchain; [|by simplify_eq]. inv_bind.
  assert (s !! filename recordActionOutcome (ActionLeaseExecutionClaim.ActionID c) = None) as Hout.
  { match goal with Hr : refuse_if_resolved _ _ _ = Ok _ |- _ => unfold refuse_if_resolved in Hr;
      destruct (readRecordLocked _ _ _) as [|[]] eqn:Hread in Hr; try done end.
    by apply readRecordLocked_NotFound in Hread. }
  destruct (readRecordLocked e n2 s) as [existing|err] eqn:Hread.
  - destruct (decodeRecord ActionLeaseExecutionClaim.t existing) as [c'|] eqn:Hdec; [|by simplify_eq].
    destruct (_ || _) eqn:Hsame; simplify_eq; [done|]. bool_prop. subst c'. split; [done|]. intros _.
    apply readRecordLocked_Ok in Hread as (f & Hf & <- & _).
    exists n2, encoded, f. split_and!; try done; [by apply failed_unit|by right].
  - destruct (decide (err = ErrRecordNotFound)) as [->|Hne].
    2:{ assert ((r, s') = (Err err, s)) as Heq by (by destruct err). by simplify_eq. }
    apply persistImmutable_effect in Hp; [|by eapply transactionRecordFilename_not_dotted].
    split; [eapply write_keeps, Hp; by eapply transactionRecordFilename_not_active|].
    intros ->. destruct Hp as [_ _ Hok].
    destruct (Hok eq_refl) as (f & Hf & Hc & _).
    exists n2, encoded, f. split_and!; try done; [by apply failed_unit|by left].
Qed.

(** What a successful outcome read and left. *)
Lemma PersistOutcome_inv e domain o s r s' :
  PersistActionLeaseOutcome e domain o s = (r, s') ->
  keeps_all s s' /\
  (r = Ok tt -> exists lease name encoded f,
     transactionRecordFilename recordActionOutcome (ActionLeaseOutcome.ActionID o) = Ok name /\
     ActionLeaseOutcome_Validate o = Ok tt /\ marshalRecord o = Ok encoded /\
     readActionLeaseLocked e domain (filename recordActionLease (ActionLeaseOutcome.ActionID o))
       (ActionLeaseOutcome.ActionID o) s = Ok lease /\
     s !! name = None /\ s' !! name = Some f /\ content f = encoded /\
     (ActionLeaseOutcome.Status o = LeaseCommitted ->
      require_execution e lease (ActionLeaseOutcome.ActionID o) s = Ok tt)).
Proof.
  unfold PersistActionLeaseOutcome, locked. intros Hp.
  destruct (_ || _) eqn:Hv; [by simplify_eq|]. bool_prop.
  destruct (_ ≫= _) as [[[n1 n2] encoded]|] eqn:Hb; [|by simplify_eq]. inv_bind. simplify_eq.
  destruct (open_check e); [by simplify_eq|].
  destruct (readActionLeaseLocked _ _ _ _ _ ≫= _) as [[]|] eqn:Hchain; [|by simplify_eq]. inv_bind.
  assert (s !! n2 = None) as Hfree.
  { match goal with Hr : refuse_if_resolved _ _ _ = Ok _ |- _ => unfold refuse_if_resolved in Hr;
      destruct (readRecordLocked _ _ _) as [|[]] eqn:Hread in Hr; try done end.
    by apply readRecordLocked_NotFound in Hread. }
  destruct (persistRecordLocked e recordActionOutcome n2 encoded false s) as [r1 s1] eqn:Hwrite.
  apply persistRecordLocked_effect in Hwrite as [Hw Hex]; [|by eapply transactionRecordFilename_not_dotted].
  assert (s' = s1 /\ (r = Ok tt -> r1 = Ok tt)) as [-> Hr].
  { destruct r1 as [|[]]; simplify_eq; done. }
  split; [eapply write_keeps, Hw; by eapply transactionRecordFilename_not_active|].
  intros ->. destruct Hw as [_ _ Hok].
  destruct (Hok (Hr eq_refl)) as (f & Hf & Hc & _).
  match goal with Hl : readActionLeaseLocked _ _ _ _ _ = Ok ?l |- _ => exists l, n2, encoded, f end.
  erewrite <- (filename_Ok recordActionLease) by done.
  split_and!; try done; [by apply failed_unit|]. intros Hst. by rewrite Hst in Hchain.
Qed.

Lemma store_step_keeps P domain s s' : store_step P domain s s' -> keeps s s'.
Proof.
  destruct 1; [eapply PersistPrepareReceipt_keeps|eapply PersistCommitIntent_keeps
    |eapply PersistActivePointer_keeps|eapply PersistActionLease_keeps
    |eapply PersistExecution_inv|eapply PersistOutcome_inv]; eassumption.
Qed.

Lemma store_history_keeps P domain s s' : store_history P domain s s' -> keeps s s'.
Proof.
  induction 1 as [|s1 s2 s3 Hs _ IH]; [done|]. transitivity s2; [|done]. by eapply store_step_keeps.
Qed.


(** ** The active pointer *)

Definition pointer_of (s : State) : option ActivePointer.t :=
  f ← s !! activePointerFilename;
  match decodeRecord ActivePointer.t (content f) with Ok p => Some p | Err _ => None end.

(** The pointer of a later directory: the same, one of a later bundle, or the same
    one after its confirmation. *)
Definition advances (p q : ActivePointer.t) : Prop :=
  p = q \/ ActivePointer.BundleGeneration p < ActivePointer.BundleGeneration q \/
  (ActivePointer.with_ConfirmedAt p "" = ActivePointer.with_ConfirmedAt q "" /\
   ActivePointer.ConfirmedAt p = "" /\ ActivePointer.ConfirmedAt q <> "").

Lemma advances_generation p q : advances p q ->
  ActivePointer.BundleGeneration p <= ActivePointer.BundleGeneration q.
Proof.
  intros [->|[?|(Heq & _)]]; [lia..|]. apply (f_equal ActivePointer.BundleGeneration) in Heq.
  simpl in Heq. lia.
Qed.

#[global] Instance advances_preorder : PreOrder advances.
Proof.
  split; [by left|]. intros p q r Hpq Hqr.
  pose proof (advances_generation _ _ Hpq). pose proof (advances_generation _ _ Hqr).
  destruct Hpq as [->|[?|(E1 & C1 & D1)]]; [done|right; left; lia|].
  destruct Hqr as [->|[?|(E2 & C2 & D2)]]; [by right; right|right; left; lia|]. congruence.
Qed.

Lemma decodeRecord_marshal T `{!Codec T, !CodecLaws T} (v : T) d :
  exact v = true -> marshalRecord v = Ok d -> decodeRecord T d = Ok v.
Proof.
  unfold marshalRecord, decodeRecord. intros He Hm.
  destruct (MarshalCanonical v) as [d'|] eqn:Hc; [|done].
  destruct (_ || _) eqn:Hl; simplify_eq. rewrite Hl.
  rewrite (decode_canonical v d He Hc), Hc. by rewrite bool_decide_eq_true_2.
Qed.

(** ** A persisted lease is read back *)

Lemma filename_valid op id : validTransactionID id = true -> op <> recordActive -> op <> recordAudit ->
  transactionRecordFilename op id = Ok (filename op id).
Proof. unfold transactionRecordFilename, filename. intros -> Ha Hb. by destruct op. Qed.

Lemma filename_ne op id op' id' : validTransactionID id = true -> validTransactionID id' = true ->
  op <> recordActive -> op <> recordAudit -> op' <> recordActive -> op' <> recordAudit -> op <> op' ->
  filename op id <> filename op' id'.
Proof.
  intros H1 H2 ? ? ? ? Hne Heq.
  pose proof (filename_valid op id H1) as Hf. rewrite Heq in Hf.
  destruct (transactionRecordFilename_inj op id op' id' (filename op' id')); auto using filename_valid.
Qed.

Lemma readRecordLocked_bound e name s f : bound e = true -> s !! name = Some f ->
  validateRecordStat f = true -> readRecordLocked e name s = Ok (content f).
Proof. intros Hb Hf Hs. unfold readRecordLocked. by rewrite Hf, Hs, Hb. Qed.

Definition nonce_claim (l : ActionLease.t) : actionNonceClaim.t :=
  actionNonceClaim.mk actionNonceClaimSchema (ActionLease.Domain l) (ActionLease.ActionID l)
    (ActionLease.Nonce l) (ActionLease.IssuedAt l).

Lemma ActionLease_identifiers l : ActionLease_Validate l = Ok tt ->
  validTransactionID (ActionLease.ActionID l) = true /\ validTransactionID (ActionLease.Nonce l) = true /\
  actionNonceClaim_Validate (nonce_claim l) = Ok tt.
Proof.
  unfold ActionLease_Validate. intros Hv. inv_result. bool_prop.
  unfold actionNonceClaim_Validate, validTransactionID. simpl.
  repeat match goal with H : _ = true |- _ => rewrite H end. split_and!; try done.
  unfold validCanonicalUTC. rewrite bool_decide_eq_true_2; [done|].
  by match goal with H : parsed (parseCanonicalUTC (ActionLease.IssuedAt l)) = true |- _ =>
    apply parsed_Some in H as [? ->] end.
Qed.

(** The preconditions of a lease that can be stored: it is a valid pending lease
    of the domain whose records have a text, and neither its identifier nor its
    nonce was used. *)
Record storable (domain : Domain) (l : ActionLease.t) (s : State) : Prop := {
  st_valid : ActionLease_Validate l = Ok tt;
  st_pending : ActionLease.Status l = LeasePending;
  st_domain : ActionLease.Domain l = domain;
  st_exact : exact l = true /\ exact (nonce_claim l) = true;
  st_claim_text : exists d, marshalRecord (nonce_claim l) = Ok d /\ fits d;
  st_lease_text : exists d, marshalRecord l = Ok d /\ fits d;
  st_no_outcome : s !! filename recordActionOutcome (ActionLease.ActionID l) = None;
  st_no_lease : s !! filename recordActionLease (ActionLease.ActionID l) = None;
  st_no_nonce : s !! filename recordActionNonce (ActionLease.Nonce l) = None
}.

Context `{!CodecLaws ActionLease.t} `{!CodecLaws actionNonceClaim.t}.

Lemma readActionLeaseLocked_stored e domain l s fl fc : bound e = true ->
  ActionLease_Validate l = Ok tt -> ActionLease.Status l = LeasePending -> ActionLease.Domain l = domain ->
  s !! filename recordActionLease (ActionLease.ActionID l) = Some fl -> validateRecordStat fl = true ->
  decodeRecord ActionLease.t (content fl) = Ok l ->
  s !! filename recordActionNonce (ActionLease.Nonce l) = Some fc -> validateRecordStat fc = true ->
  decodeRecord actionNonceClaim.t (content fc) = Ok (nonce_claim l) ->
  readActionLeaseLocked e domain (filename recordActionLease (ActionLease.ActionID l))
    (ActionLease.ActionID l) s = Ok l.
Proof.
  intros Hb Hv Hp Hd Hfl Hsl Hdl Hfc Hsc Hdc. unfold readActionLeaseLocked.
  rewrite (readRecordLocked_bound _ _ _ _ Hb Hfl Hsl). cbn [mbind result_bind].
  rewrite Hdl, (proj2 (failed_unit _) Hv), Hp, Hd, !String.eqb_refl. cbn [negb orb].
  rewrite (readRecordLocked_bound _ _ _ _ Hb Hfc Hsc). cbn [mbind result_bind].
  destruct (ActionLease_identifiers _ Hv) as (_ & _ & Hn).
  rewrite Hdc, (proj2 (failed_unit _) Hn). unfold nonce_claim. simpl.
  by rewrite Hd, !String.eqb_refl.
Qed.

(** A lease that is stored can be used. In an environment without failures, a
    storable lease under the governing confirmed pointer is persisted, and from
    then on reading its state gives back exactly this lease, unresolved. *)
Theorem stored_lease_is_read_back e domain l s : storable domain l s -> open_check e = None ->
  require_pointer e l s = Ok tt ->
  quiet e recordActionNonce (filename recordActionNonce (ActionLease.Nonce l)) s ->
  quiet e recordActionLease (filename recordActionLease (ActionLease.ActionID l)) s ->
  exists s', PersistActionLease e domain l s = (Ok tt, s') /\
    forall e', open_check e' = None -> bound e' = true ->
      ReadActionLeaseState e' domain (ActionLease.ActionID l) s' = Ok (l, None).
Proof.
  intros [Hv Hp Hd [El Ec] (dc & Hc & Fc) (dl & Hl & Fl) Ho Hnl Hnn] Hopen Hptr Qn Ql.
  destruct (ActionLease_identifiers _ Hv) as (Hid & Hnonce & Hnc).
  pose proof (filename_valid recordActionNonce _ Hnonce ltac:(done) ltac:(done)) as Fn.
  pose proof (filename_valid recordActionLease _ Hid ltac:(done) ltac:(done)) as Fa.
  pose proof (transactionRecordFilename_not_dotted _ _ _ Fn) as Dn.
  pose proof (transactionRecordFilename_not_dotted _ _ _ Fa) as Da.
  pose proof (transactionRecordFilename_not_dotted _ _ _
    (filename_valid recordActionOutcome _ Hid ltac:(done) ltac:(done))) as Do.
  destruct (persistImmutable_quiet e _ _ dc s Dn Qn Fc Hnn) as (s1 & H1 & Hdot).
  pose proof (persistImmutable_effect _ _ _ _ _ _ _ Dn H1) as [O1 _ K1].
  destruct (persistImmutable_quiet e recordActionLease (filename recordActionLease (ActionLease.ActionID l))
    dl s1 Da) as (s2 & H2 & _); [| done | |].
  { destruct Ql as [Qb Qs Qf]. constructor; [done..|]. rewrite Hdot; [done|]. apply temporary_name_dotted. }
  { rewrite O1; [done| |done]. by apply filename_ne. }
  pose proof (persistImmutable_effect _ _ _ _ _ _ _ Da H2) as [O2 _ K2].
  destruct (K1 eq_refl) as (fc & Hfc & Cfc & Sfc). destruct (K2 eq_refl) as (fl & Hfl & Cfl & Sfl).
  exists s2. split.
  - unfold PersistActionLease, locked, refuse_if_resolved.
    rewrite (proj2 (failed_unit _) Hv), Hp, Hd, !String.eqb_refl. cbn [negb orb].
    fold (nonce_claim l). rewrite <- Hd at 1. fold (nonce_claim l).
    rewrite Hc, Hl, Fn, Fa, Hopen. cbn [mbind result_bind].
    assert (readRecordLocked e (filename recordActionOutcome (ActionLease.ActionID l)) s =
      Err ErrRecordNotFound) as -> by (unfold readRecordLocked; by rewrite Ho).
    cbn [mbind result_bind]. rewrite Hptr, H1. done.
  - intros e' Hopen' Hb'. unfold ReadActionLeaseState. rewrite Fa, Hopen'. cbn [mbind result_bind].
    erewrite (readActionLeaseLocked_stored e' domain l s2 fl fc); try done.
    + cbn [mbind result_bind]. unfold readRecordLocked. rewrite O2, O1; [|by apply filename_ne|done..].
      by rewrite Ho.
    + rewrite Cfl. by apply decodeRecord_marshal.
    + rewrite O2; [done|by apply filename_ne|done].
    + rewrite Cfc. by apply decodeRecord_marshal.
Qed.

Context `{!CodecLaws ActivePointer.t}.

Lemma PersistActivePointer_advances e domain p s r s' q : exact p = true ->
  PersistActivePointer e domain p s = (r, s') -> pointer_of s = Some q ->
  exists q', pointer_of s' = Some q' /\ advances q q'.
Proof.
  unfold PersistActivePointer, locked. intros He Hp Hq.
  assert (s = s' -> exists q', pointer_of s' = Some q' /\ advances q q') as Hstay.
  { intros <-. exists q. split; [done|]. by left. }
  destruct (_ || _); [apply Hstay; by simplify_eq|].
  destruct (marshalRecord p) as [encoded|] eqn:Hm; [|apply Hstay; by simplify_eq].
  destruct (open_check e); [apply Hstay; by simplify_eq|].
  destruct (_ ≫= _); [|apply Hstay; by simplify_eq]. destruct (decodeRecord CommitIntent.t _); [|apply Hstay; by simplify_eq].
  destruct (_ || _); [apply Hstay; by simplify_eq|].
  destruct (pointer_gate e domain p encoded s) eqn:Hg; [apply Hstay; by simplify_eq|].
  apply persistRecordLocked_effect in Hp as [[_ Hname _] _]; [|done].
  destruct Hname as [Hsame|[Hnew _]].
  { exists q. split; [|done]. unfold pointer_of in *. by rewrite Hsame. }
  exists p. unfold pointer_of. rewrite Hnew. simpl. rewrite (decodeRecord_marshal _ _ _ He Hm).
  split; [done|]. unfold pointer_of in Hq. unfold pointer_gate, readRecordLocked in Hg.
  destruct (s !! activePointerFilename) as [f|]; [|done]. simpl in Hq.
  destruct (negb (validateRecordStat f)); [done|]. destruct (negb (bound e)); [done|].
  case_bool_decide; [done|]. destruct (decodeRecord ActivePointer.t (content f)) as [q1|]; simplify_eq.
  destruct (_ || _); [done|]. destruct (_ && activePointerConfirmationAdvance q p) eqn:Hadv.
  - unfold activePointerConfirmationAdvance in Hadv. bool_prop. right. right. done.
  - destruct (_ <=? _) eqn:Hle; [done|]. bool_prop. right. left. lia.
Qed.

Lemma pointer_of_keeps s s' : keeps_all s s' -> pointer_of s' = pointer_of s.
Proof. intros [_ Hp]. unfold pointer_of. by rewrite Hp. Qed.

Lemma store_step_advances domain s s' q : store_step (fun p => exact p = true) domain s s' ->
  pointer_of s = Some q -> exists q', pointer_of s' = Some q' /\ advances q q'.
Proof.
  intros Hs Hq.
  assert (keeps_all s s' \/ exists e x r, exact x = true /\ PersistActivePointer e domain x s = (r, s'))
    as [Hk|(e & x & r & He & Hp)].
  - destruct Hs as [| |e x r s' He Hp| | |]; [| |right; eauto| | |]; left;
      [eapply PersistPrepareReceipt_keeps|eapply PersistCommitIntent_keeps
      |eapply PersistActionLease_keeps|eapply PersistExecution_inv|eapply PersistOutcome_inv]; eassumption.
  - exists q. by rewrite (pointer_of_keeps _ _ Hk).
  - by eapply PersistActivePointer_advances.
Qed.

(** C32: the active pointer only moves forward. Once the directory holds a readable
    active pointer, every later directory holds one, through any sequence of
    calls and interruptions: it is the same pointer, or one of a later bundle
    generation, or the same pointer whose confirmation time was added. *)
Theorem active_pointer_advances domain s s' q :
  store_history (fun p => exact p = true) domain s s' -> pointer_of s = Some q ->
  exists q', pointer_of s' = Some q' /\ advances q q'.
Proof.
  intros Hh. revert q. induction Hh as [s|s1 s2 s3 Hs _ IH]; intros q Hq; [by exists q|].
  destruct (store_step_advances _ _ _ _ Hs Hq) as (q2 & Hq2 & Ha).
  destruct (IH q2 Hq2) as (q3 & Hq3 & Hb). exists q3. split; [done|]. by transitivity q2.
Qed.
End leases.

(** ** A concrete store

    Texts are the documents themselves; a digest tells the kind of the document. *)

Module StoreSample.
Inductive doc :=
| DReceipt (r : PrepareReceipt.t)
| DIntent (i : CommitIntent.t)
| DPointer (p : ActivePointer.t)
| DApproval (a : SignedApproval.t)
| DNonce (c : actionNonceClaim.t)
| DLease (l : ActionLease.t)
| DExecution (c : ActionLeaseExecutionClaim.t)
| DOutcome (o : ActionLeaseOutcome.t).

#[global] Instance doc_eq_dec : EqDecision doc.
Proof. solve_decision. Defined.

Definition digest_of (d : doc) : string :=
  of_chars (replicate 64 (match d with DIntent _ => "1" | DApproval _ => "e" | _ => "0" end)%char).

#[export] Instance json : JSON := {|
  Doc := doc; doc_len := fun _ => 100; Transform := Some; SHA256Hex := digest_of |}.

Definition codec {T} (inj : T -> doc) (proj : doc -> option T) : Codec T :=
  {| json_Marshal := fun v => Some (inj v); strictJSONDecode := proj; exact := fun _ => true |}.

#[export] Instance record_codecs : RecordCodecs := {|
  receipt_codec := codec DReceipt (fun d => match d with DReceipt r => Some r | _ => None end);
  intent_codec := codec DIntent (fun d => match d with DIntent r => Some r | _ => None end);
  pointer_codec := codec DPointer (fun d => match d with DPointer r => Some r | _ => None end);
  approval_codec := codec DApproval (fun d => match d with DApproval r => Some r | _ => None end) |}.

#[export] Instance lease_codecs : LeaseCodecs := {|
  lease_records := record_codecs;
  nonce_codec := codec DNonce (fun d => match d with DNonce r => Some r | _ => None end);
  lease_codec := codec DLease (fun d => match d with DLease r => Some r | _ => None end);
  execution_codec := codec DExecution (fun d => match d with DExecution r => Some r | _ => None end);
  outcome_codec := codec DOutcome (fun d => match d with DOutcome r => Some r | _ => None end) |}.

#[export] Instance pointer_laws : CodecLaws ActivePointer.t.
Proof. intros v d _ [= <-]. reflexivity. Qed.

#[export] Instance lease_laws : CodecLaws ActionLease.t.
Proof. intros v d _ [= <-]. reflexivity. Qed.

#[export] Instance nonce_laws : CodecLaws actionNonceClaim.t.
Proof. intros v d _ [= <-]. reflexivity. Qed.

#[export] Instance execution_laws : CodecLaws ActionLeaseExecutionClaim.t.
Proof. intros v d _ [= <-]. reflexivity. Qed.

#[export] Instance outcome_laws : CodecLaws ActionLeaseOutcome.t.
Proof. intros v d _ [= <-]. reflexivity. Qed.

Definition tx (c : ascii) : UUID :=
  of_chars (replicate 8 c ++ "-"%char :: replicate 4 c ++ "-"%char :: "4"%char :: replicate 3 c ++
            "-"%char :: "8"%char :: replicate 3 c ++ "-"%char :: replicate 12 c)%list.

Definition env : Env := mkEnv None true (fun _ => None) (fun _ => tx "9").

(** The environment in which writing the active pointer stops at a point. *)
Definition stopping (p : stop_point) : Env :=
  mkEnv None true (fun op => match op with recordActive => Some p | _ => None end) (fun _ => tx "9").

Definition digest (c : ascii) : string := of_chars (replicate 64 c).

Definition approval : SignedApproval.t :=
  SignedApproval.mk
    (ApprovalStatement.mk ApprovalSchema (digest "a") (digest "b") (digest "c") (digest "d") (digest "f")
       "2026-03-01T00:00:00Z" "2026-03-20T00:00:00Z")
    (of_chars (replicate 86 "A"%char)).

Definition receipt (t : UUID) (bundle : Z) : PrepareReceipt.t :=
  PrepareReceipt.mk PrepareReceiptSchema t DomainUser bundle 3 (digest "a") (digest "c") (digest "e")
    "2026-03-02T00:00:00Z".

Definition intent (t : UUID) (bundle : Z) : CommitIntent.t :=
  CommitIntent.mk CommitIntentSchema t bundle 2 3 (digest "a") (digest "b") (digest "c") (digest "e")
    approval "2026-03-02T00:00:00Z".

Definition pointer (t : UUID) (bundle : Z) (confirmed : string) : ActivePointer.t :=
  ActivePointer.mk ActivePointerSchema t DomainUser bundle 3 (digest "a") (digest "c") (digest "e")
    (digest "1") approval "2026-03-02T00:00:00Z" confirmed.

Definition confirmed_at := "2026-03-02T00:00:05Z".

(** A directory with the evidence of two bundles, of which the first is active. *)
Definition state0 : gmap string File :=
  let s := (PersistPrepareReceipt env DomainUser (receipt (tx "1") 7) ∅).2 in
  let s := (PersistCommitIntent env DomainUser (intent (tx "1") 7) s).2 in
  let s := (PersistPrepareReceipt env DomainUser (receipt (tx "2") 8) s).2 in
  let s := (PersistCommitIntent env DomainUser (intent (tx "2") 8) s).2 in
  (PersistActivePointer env DomainUser (pointer (tx "1") 7 confirmed_at) s).2.

Definition state1 := (PersistActivePointer (stopping boundaryAfterRename) DomainUser
                        (pointer (tx "2") 8 "") state0).2.

Lemma sample_step (P : ActivePointer.t -> Prop) : P (pointer (tx "2") 8 "") ->
  store_history P DomainUser state0 state1.
Proof.
  intros HP. apply rtc_once. unfold state1. generalize state0. intros s.
  eapply step_active; [exact HP|apply surjective_pairing].
Qed.

Lemma active_pointer_advances_witness :
  exists q, pointer_of state1 = Some q /\ advances (pointer (tx "1") 7 confirmed_at) q.
Proof.
  apply (active_pointer_advances DomainUser state0).
  - apply sample_step. reflexivity.
  - vm_compute. reflexivity.
Defined.


Lemma stored_lease_is_read_back_witness :
  exists s', PersistActionLease env DomainUser sample_lease state0 = (Ok tt, s') /\
    ReadActionLeaseState env DomainUser (ActionLease.ActionID sample_lease) s' = Ok (sample_lease, None).
Proof.
  destruct (stored_lease_is_read_back env DomainUser sample_lease state0) as (s' & H1 & H2).
  - constructor; try (vm_compute; reflexivity); [by split|eexists; split; [vm_compute; reflexivity|]..];
      (split; vm_compute; [reflexivity|discriminate]).
  - reflexivity.
  - vm_compute. reflexivity.
  - constructor; vm_compute; reflexivity.
  - constructor; vm_compute; reflexivity.
  - exists s'. split; [exact H1|]. apply H2; reflexivity.
Defined.
End StoreSample.
