(* ===== verification/LeaseGuard.v ===== *)
(** * The action lease guard

    [internal/actionlease/guard.go]: the object through which a runtime uses a
    lease. Its operations are programs over the calls of the [ExecutionStore]
    interface, each of which is one atomic step of the store, and over the
    guard's own cell, which [claimMu] protects. [ExecutionStoreLaws] states what
    the guard relies on; [StoreLeases] is shown to satisfy it. The theorems are
    about any number of concurrent calls of any number of guards, interleaved
    with each other and with every other call of the store. *)

From Stdlib Require Import ZArith Lia Ascii String.
From stdpp Require Import base strings list option gmap.
From S2P Require Import Prelude GoTime Metadata PolicyModel PolicyValidate PolicyCanonical PolicyClock.
From S2P Require Import PolicyApproval StoreRecords StoreLeases.

Open Scope string_scope.
Open Scope Z_scope.

(** ** The store interface *)

Class ExecutionStore := {
  store : Type;
  call_env : Type;
  st_error : Type;
  read_state : call_env -> UUID -> store -> result st_error (ActionLease.t * option ActionLeaseOutcome.t);
  read_claim : call_env -> UUID -> store -> result st_error ActionLeaseExecutionClaim.t;
  persist_claim : call_env -> ActionLeaseExecutionClaim.t -> store -> result st_error unit * store;
  persist_outcome : call_env -> ActionLeaseOutcome.t -> store -> result st_error unit * store;
  (** any other call made on the same store *)
  other_step : store -> store -> Prop
}.

(** What the store has on record for an action, and how its calls change it. *)
Class ExecutionStoreLaws `{ExecutionStore} := {
  claim_of : store -> UUID -> option ActionLeaseExecutionClaim.t;
  outcome_of : store -> UUID -> option ActionLeaseOutcome.t;
  extends (s s' : store) : Prop :=
    (forall id c, claim_of s id = Some c -> claim_of s' id = Some c) /\
    (forall id o, outcome_of s id = Some o -> outcome_of s' id = Some o);
  persist_claim_extends e c s r s' : persist_claim e c s = (r, s') -> extends s s';
  persist_outcome_extends e o s r s' : persist_outcome e o s = (r, s') -> extends s s';
  other_extends s s' : other_step s s' -> extends s s';
  persist_claim_Ok e c s s' : persist_claim e c s = (Ok tt, s') ->
    claim_of s' (ActionLeaseExecutionClaim.ActionID c) = Some c /\
    outcome_of s (ActionLeaseExecutionClaim.ActionID c) = None;
  persist_outcome_Ok e o s s' : persist_outcome e o s = (Ok tt, s') ->
    outcome_of s (ActionLeaseOutcome.ActionID o) = None /\
    outcome_of s' (ActionLeaseOutcome.ActionID o) = Some o;
  read_state_Ok e id s l o : read_state e id s = Ok (l, o) ->
    ActionLease.ActionID l = id /\ outcome_of s id = o
}.

(** ** Data *)

Module CurrentAuthorization.
Record t := mk {
  Domain : Domain;
  Capability : Capability;
  BundleGeneration : Z;
  DomainPolicyGeneration : Z;
  ControlStateGeneration : Z;
  Target : string;
  PlanSHA256 : string;
  BootID : UUID;
  MonotonicNS : Z;
  ObservedAt : Z
}.
End CurrentAuthorization.

Section guard.
Context `{ExecutionStore}.

Inductive guard_error :=
| ErrInvalidGuard
| ErrLeaseReplay
| ErrLeaseExpired
| ErrLeaseStale
| ErrBindingMismatch
| ErrLeaseClock
| ErrStore (err : st_error).

(** The guard without its store: the cell [claim] and the flag [started] are
    shared by the calls on one guard. *)
Record Guard := mkGuard {
  actionID : UUID;
  attemptID : UUID;
  claim : option ActionLeaseExecutionClaim.t;
  started : bool
}.

Definition validObservedAt (t : Z) : bool := year_in_range t.

Definition CurrentAuthorization_Validate (c : CurrentAuthorization.t) : result guard_error unit :=
  if negb (Domain_Valid (CurrentAuthorization.Domain c)) ||
     negb (Capability_Valid (CurrentAuthorization.Capability c)) ||
     (CurrentAuthorization.BundleGeneration c =? 0) ||
     (CurrentAuthorization.DomainPolicyGeneration c =? 0) ||
     (CurrentAuthorization.ControlStateGeneration c =? 0) ||
     String.eqb (CurrentAuthorization.Target c) "" ||
     String.eqb (CurrentAuthorization.PlanSHA256 c) "" ||
     (CurrentAuthorization.MonotonicNS c <? 0) ||
     negb (validObservedAt (CurrentAuthorization.ObservedAt c))
  then Err ErrInvalidGuard
  else if failed (ParseUUID (CurrentAuthorization.BootID c)) then Err ErrInvalidGuard
  else Ok tt.

(** The third component is the error, [None] when the lease is current. *)
Definition classifyCurrent (l : ActionLease.t) (c : CurrentAuthorization.t)
    : LeaseStatus * LeaseOutcomeReason * option guard_error :=
  match ValidatePendingLease l
          (mkLeaseSample (CurrentAuthorization.MonotonicNS c) (CurrentAuthorization.BootID c)) with
  | Err PolicyClock.ErrLeaseExpired => (LeaseExpired, LeaseOutcomeTTLExpired, Some ErrLeaseExpired)
  | Err ErrLeaseBootMismatch => (LeaseExpired, LeaseOutcomeBootMismatch, Some ErrLeaseExpired)
  | Err ErrClockAnomaly => (LeaseAborted, LeaseOutcomeClockAnomaly, Some ErrLeaseClock)
  | Err _ => (LeaseAborted, LeaseOutcomeClockAnomaly, Some ErrInvalidGuard)
  | Ok _ =>
      if negb (CurrentAuthorization.BundleGeneration c =? ActionLease.BundleGeneration l) ||
         negb (CurrentAuthorization.DomainPolicyGeneration c =? ActionLease.DomainPolicyGeneration l) ||
         negb (CurrentAuthorization.ControlStateGeneration c =? ActionLease.ControlStateGeneration l)
      then (LeaseAborted, LeaseOutcomeStaleGeneration, Some ErrLeaseStale)
      else if negb (String.eqb (CurrentAuthorization.Domain c) (ActionLease.Domain l)) ||
              negb (String.eqb (CurrentAuthorization.Capability c) (ActionLease.Capability l)) ||
              negb (String.eqb (CurrentAuthorization.Target c) (ActionLease.Target l)) ||
              negb (String.eqb (CurrentAuthorization.PlanSHA256 c) (ActionLease.PlanSHA256 l))
      then (LeaseAborted, LeaseOutcomeBindingMismatch, Some ErrBindingMismatch)
      else (LeasePending, "", None)
  end.

Definition newOutcome (l : ActionLease.t) (status : LeaseStatus) (reason : LeaseOutcomeReason) (at_ : Z)
    : ActionLeaseOutcome.t :=
  ActionLeaseOutcome.mk ActionLeaseOutcomeSchema (ActionLease.ActionID l) (ActionLease.Domain l)
    (ActionLease.Nonce l) status reason (Format at_).

Definition newClaim (attempt : UUID) (l : ActionLease.t) (c : CurrentAuthorization.t)
    : ActionLeaseExecutionClaim.t :=
  ActionLeaseExecutionClaim.mk ActionLeaseExecutionSchema (ActionLease.ActionID l) (ActionLease.Domain l)
    (ActionLease.Nonce l) attempt (CurrentAuthorization.BootID c)
    (Format (CurrentAuthorization.ObservedAt c)).

(** ** Programs over the store

    [UseClaim c k]: under [claimMu], set the cell to [c] if it is empty, and go on
    with its value. [Start k]: under [claimMu], set [started] and go on with what
    it was. *)
Inductive prog (A : Type) :=
| Ret (a : A)
| ReadState (k : result st_error (ActionLease.t * option ActionLeaseOutcome.t) -> prog A)
| ReadClaim (k : result st_error ActionLeaseExecutionClaim.t -> prog A)
| PersistClaim (c : ActionLeaseExecutionClaim.t) (k : result st_error unit -> prog A)
| PersistOutcome (o : ActionLeaseOutcome.t) (k : result st_error unit -> prog A)
| UseClaim (c : ActionLeaseExecutionClaim.t) (k : ActionLeaseExecutionClaim.t -> prog A)
| Start (k : bool -> prog A).

Arguments Ret {A} a.
Arguments ReadState {A} k.
Arguments ReadClaim {A} k.
Arguments PersistClaim {A} c k.
Arguments PersistOutcome {A} o k.
Arguments UseClaim {A} c k.
Arguments Start {A} k.

Fixpoint bind {A B} (p : prog A) (f : A -> prog B) : prog B :=
  match p with
  | Ret a => f a
  | ReadState k => ReadState (fun r => bind (k r) f)
  | ReadClaim k => ReadClaim (fun r => bind (k r) f)
  | PersistClaim c k => PersistClaim c (fun r => bind (k r) f)
  | PersistOutcome o k => PersistOutcome o (fun r => bind (k r) f)
  | UseClaim c k => UseClaim c (fun r => bind (k r) f)
  | Start k => Start (fun r => bind (k r) f)
  end.

Definition BeginExecution : prog (result guard_error unit) :=
  Start (fun started => Ret (if started then Err ErrLeaseReplay else Ok tt)).

Definition persistOutcome (o : ActionLeaseOutcome.t) : prog (result guard_error unit) :=
  PersistOutcome o (fun r =>
    match r with
    | Ok _ => Ret (Ok tt)
    | Err err =>
        ReadState (fun state =>
          match state with
          | Ok (_, Some _) => Ret (Err ErrLeaseReplay)
          | _ => Ret (Err (ErrStore err))
          end)
    end).

Definition ensureExecutionClaim (attempt : UUID) (l : ActionLease.t) (current : CurrentAuthorization.t)
    : prog (result guard_error unit) :=
  UseClaim (newClaim attempt l current) (fun c =>
    PersistClaim c (fun r =>
      match r with
      | Ok _ => Ret (Ok tt)
      | Err err =>
          ReadState (fun state =>
            match state with
            | Ok (_, Some _) => Ret (Err ErrLeaseReplay)
            | _ =>
                ReadClaim (fun existing =>
                  match existing with
                  | Ok x => if negb (String.eqb (ActionLeaseExecutionClaim.AttemptID x) attempt)
                            then Ret (Err ErrLeaseReplay) else Ret (Err (ErrStore err))
                  | Err _ => Ret (Err (ErrStore err))
                  end)
            end)
      end)).

Definition validate (attempt : UUID) (current : CurrentAuthorization.t)
    : prog (result guard_error ActionLease.t) :=
  if failed (CurrentAuthorization_Validate current) then Ret (Err ErrInvalidGuard)
  else ReadState (fun state =>
    match state with
    | Err err => Ret (Err (ErrStore err))
    | Ok (_, Some _) => Ret (Err ErrLeaseReplay)
    | Ok (lease, None) =>
        match classifyCurrent lease current with
        | (_, _, None) =>
            bind (ensureExecutionClaim attempt lease current) (fun r =>
              match r with Err err => Ret (Err err) | Ok _ => Ret (Ok lease) end)
        | (status, reason, Some validationErr) =>
            bind (persistOutcome (newOutcome lease status reason (CurrentAuthorization.ObservedAt current)))
              (fun r => match r with Err err => Ret (Err err) | Ok _ => Ret (Err validationErr) end)
        end
    end).

Definition BeforeStep (attempt : UUID) (current : CurrentAuthorization.t) : prog (result guard_error unit) :=
  bind (validate attempt current) (fun r =>
    match r with Err err => Ret (Err err) | Ok _ => Ret (Ok tt) end).

Definition Commit (attempt : UUID) (current : CurrentAuthorization.t) : prog (result guard_error unit) :=
  bind (validate attempt current) (fun r =>
    match r with
    | Err err => Ret (Err err)
    | Ok lease => persistOutcome (newOutcome lease LeaseCommitted LeaseOutcomeCompleted
                                    (CurrentAuthorization.ObservedAt current))
    end).

Definition Abort (observedAt : Z) : prog (result guard_error unit) :=
  if negb (validObservedAt observedAt) then Ret (Err ErrInvalidGuard)
  else ReadState (fun state =>
    match state with
    | Err err => Ret (Err (ErrStore err))
    | Ok (_, Some _) => Ret (Err ErrLeaseReplay)
    | Ok (lease, None) => persistOutcome (newOutcome lease LeaseAborted LeaseOutcomeCanceled observedAt)
    end).

(** [newGuard] with the random bytes it reads; a nil store is left out. *)
Definition newGuard (action : UUID) (random : list Z) : result guard_error Guard :=
  match ParseUUID action with
  | Err _ => Err ErrInvalidGuard
  | Ok _ =>
      match (NewUUID random).1 with
      | Err _ => Err ErrInvalidGuard
      | Ok attempt => Ok (mkGuard action attempt None false)
      end
  end.

(** ** Concurrent calls

    A configuration holds the store, the guards, the calls in flight, the calls
    that returned, and the outcomes persisted so far with the call that persisted
    them. A call remembers whether its lease was resolved when it began. *)

Inductive call :=
| CBeginExecution
| CBeforeStep (current : CurrentAuthorization.t)
| CCommit (current : CurrentAuthorization.t)
| CAbort (observedAt : Z).

Definition call_prog (attempt : UUID) (c : call) : prog (result guard_error unit) :=
  match c with
  | CBeginExecution => BeginExecution
  | CBeforeStep current => BeforeStep attempt current
  | CCommit current => Commit attempt current
  | CAbort observedAt => Abort observedAt
  end.

Record thread := mkThread {
  t_guard : nat;
  t_action : UUID;
  t_attempt : UUID;
  t_call : call;
  t_late : bool;
  t_prog : prog (result guard_error unit)
}.

Record returned := mkReturned {
  r_thread : nat;
  r_guard : nat;
  r_action : UUID;
  r_attempt : UUID;
  r_call : call;
  r_late : bool;
  r_result : result guard_error unit
}.

Record config := mkConfig {
  cf_store : store;
  cf_guards : gmap nat Guard;
  cf_threads : gmap nat thread;
  cf_returned : list returned;
  cf_log : list (nat * ActionLeaseOutcome.t)
}.

(** One atomic step of a program of a guard. *)
Definition exec (e : call_env) (g : Guard) (s : store) {A} (p : prog A)
    : option (Guard * store * prog A * option ActionLeaseOutcome.t) :=
  match p with
  | Ret _ => None
  | ReadState k => Some (g, s, k (read_state e (actionID g) s), None)
  | ReadClaim k => Some (g, s, k (read_claim e (actionID g) s), None)
  | PersistClaim c k => let '(r, s') := persist_claim e c s in Some (g, s', k r, None)
  | PersistOutcome o k =>
      let '(r, s') := persist_outcome e o s in
      Some (g, s', k r, match r with Ok _ => Some o | Err _ => None end)
  | UseClaim c k =>
      match claim g with
      | Some c' => Some (g, s, k c', None)
      | None => Some (mkGuard (actionID g) (attemptID g) (Some c) (started g), s, k c, None)
      end
  | Start k => Some (mkGuard (actionID g) (attemptID g) (claim g) true, s, k (started g), None)
  end.

Definition log_add (t : nat) (o : option ActionLeaseOutcome.t) (log : list (nat * ActionLeaseOutcome.t))
    : list (nat * ActionLeaseOutcome.t) :=
  match o with Some x => (t, x) :: log | None => log end.

Context `{!ExecutionStoreLaws}.

Inductive cstep : config -> config -> Prop :=
| step_new cf i action attempt : cf_guards cf !! i = None ->
    cstep cf (mkConfig (cf_store cf) (<[i := mkGuard action attempt None false]> (cf_guards cf))
                (cf_threads cf) (cf_returned cf) (cf_log cf))
| step_call cf i g t c : cf_guards cf !! i = Some g -> cf_threads cf !! t = None ->
    Forall (fun r => r_thread r <> t) (cf_returned cf) ->
    cstep cf (mkConfig (cf_store cf) (cf_guards cf)
                (<[t := mkThread i (actionID g) (attemptID g) c
                          (bool_decide (is_Some (outcome_of (cf_store cf) (actionID g))))
                          (call_prog (attemptID g) c)]> (cf_threads cf))
                (cf_returned cf) (cf_log cf))
| step_run cf t th e g g' s' p' o : cf_threads cf !! t = Some th -> cf_guards cf !! t_guard th = Some g ->
    exec e g (cf_store cf) (t_prog th) = Some (g', s', p', o) ->
    cstep cf (mkConfig s' (<[t_guard th := g']> (cf_guards cf))
                (<[t := mkThread (t_guard th) (t_action th) (t_attempt th) (t_call th) (t_late th) p']>
                   (cf_threads cf))
                (cf_returned cf) (log_add t o (cf_log cf)))
| step_return cf t th r : cf_threads cf !! t = Some th -> t_prog th = Ret r ->
    cstep cf (mkConfig (cf_store cf) (cf_guards cf) (delete t (cf_threads cf))
                (mkReturned t (t_guard th) (t_action th) (t_attempt th) (t_call th) (t_late th) r
                   :: cf_returned cf) (cf_log cf))
| step_other cf s' : other_step (cf_store cf) s' ->
    cstep cf (mkConfig s' (cf_guards cf) (cf_threads cf) (cf_returned cf) (cf_log cf)).

Definition initial (s : store) : config := mkConfig s ∅ ∅ [] [].

Definition reachable (s : store) (cf : config) : Prop := rtc cstep (initial s) cf.

(** ** What a program establishes under interference *)

Definition world : Type := store * list (nat * ActionLeaseOutcome.t).

Definition future (w w' : world) : Prop := extends w.1 w'.1 /\ (forall x, x ∈ w.2 -> x ∈ w'.2).

#[global] Instance future_preorder : PreOrder future.
Proof.
  split; [by intros w|]. intros w1 w2 w3 [[A1 A2] A3] [[B1 B2] B3]. split; [split|]; eauto.
Qed.

Section wp.
Context (t : nat) (action attempt : UUID).

Definition mine (c : ActionLeaseExecutionClaim.t) : Prop :=
  ActionLeaseExecutionClaim.ActionID c = action /\ ActionLeaseExecutionClaim.AttemptID c = attempt.

(** The condition under which [p], with arbitrary steps of others before each of
    its own, returns only values that satisfy [Q]. *)
Fixpoint wp {A} (p : prog A) (Q : A -> world -> Prop) (w : world) : Prop :=
  match p with
  | Ret a => Q a w
  | ReadState k => forall w' e, future w w' -> wp (k (read_state e action w'.1)) Q w'
  | ReadClaim k => forall w' e, future w w' -> wp (k (read_claim e action w'.1)) Q w'
  | PersistClaim c k => forall w' e r s', future w w' -> persist_claim e c w'.1 = (r, s') ->
      wp (k r) Q (s', w'.2)
  | PersistOutcome o k => forall w' e r s', future w w' -> persist_outcome e o w'.1 = (r, s') ->
      wp (k r) Q (s', log_add t (match r with Ok _ => Some o | Err _ => None end) w'.2)
  | UseClaim c k => mine c /\ forall w' c', future w w' -> mine c' -> wp (k c') Q w'
  | Start k => forall w' b, future w w' -> wp (k b) Q w'
  end.

Definition monotone {A} (Q : A -> world -> Prop) : Prop :=
  forall a w w', future w w' -> Q a w -> Q a w'.

Lemma wp_future {A} (p : prog A) Q w w' : monotone Q -> future w w' -> wp p Q w -> wp p Q w'.
Proof.
  intros HQ Hf. destruct p; simpl; [by apply HQ|..]; try (intros Hp; intros; eapply Hp; eauto; by etrans).
  intros [Hm Hp]. split; [done|]. intros. apply Hp; [by etrans|done].
Qed.

Lemma wp_bind {A B} (p : prog A) (f : A -> prog B) Q w :
  wp p (fun a w' => wp (f a) Q w') w -> wp (bind p f) Q w.
Proof.
  revert w. induction p as [a|k IH|k IH|c k IH|o k IH|c k IH|k IH]; intros w Hp; simpl in *; eauto.
  destruct Hp as [Hm Hp]. split; [done|]. eauto.
Qed.

Lemma wp_weaken {A} (p : prog A) (Q R : A -> world -> Prop) w :
  (forall a w', Q a w' -> R a w') -> wp p Q w -> wp p R w.
Proof.
  intros HQR. revert w. induction p as [a|k IH|k IH|c k IH|o k IH|c k IH|k IH]; intros w Hp; simpl in *; eauto.
  destruct Hp as [Hm Hp]. split; [done|]. eauto.
Qed.

(** The attempt holds the execution claim of the action. *)
Definition holds_claim (w : world) : Prop :=
  exists c, claim_of w.1 action = Some c /\ ActionLeaseExecutionClaim.AttemptID c = attempt.

(** This call persisted an outcome of the action, with this status. *)
Definition resolved_here (status : LeaseStatus) (w : world) : Prop :=
  exists o, (t, o) ∈ w.2 /\ ActionLeaseOutcome.ActionID o = action /\ ActionLeaseOutcome.Status o = status.

Lemma holds_claim_future w w' : future w w' -> holds_claim w -> holds_claim w'.
Proof. intros [[Hc _] _] (c & H1 & H2). exists c. eauto. Qed.

Lemma resolved_here_future status w w' : future w w' -> resolved_here status w -> resolved_here status w'.
Proof. intros [_ Hl] (o & H1 & H2). exists o. eauto. Qed.

Lemma wp_persistOutcome l status reason at_ w : ActionLease.ActionID l = action ->
  wp (persistOutcome (newOutcome l status reason at_))
    (fun r w' => r = Ok tt -> resolved_here status w') w.
Proof.
  intros Ha. simpl. intros w' e r s' _ _. destruct r as [[]|err]; simpl.
  - intros _. exists (newOutcome l status reason at_). split; [left|]. by split.
  - intros w2 e2 _. destruct (read_state e2 action w2.1) as [[? []]|]; done.
Qed.

Lemma wp_ensureExecutionClaim l current w : ActionLease.ActionID l = action ->
  wp (ensureExecutionClaim attempt l current) (fun r w' => r = Ok tt -> holds_claim w') w.
Proof.
  intros Ha. simpl. split; [by split|]. intros w' c _ [Hc1 Hc2] w2 e r s' _ Hp.
  destruct r as [[]|err]; simpl.
  - intros _. apply persist_claim_Ok in Hp as [Hp _]. exists c. simpl. by rewrite <- Hc1.
  - intros w3 e3 _. destruct (read_state e3 action w3.1) as [[? []]|]; simpl; [done|..];
      intros w4 e4 _; (destruct (read_claim e4 action w4.1); [destruct (negb _)|]; done).
Qed.

Lemma wp_validate current w :
  wp (validate attempt current)
    (fun r w' => forall l, r = Ok l -> ActionLease.ActionID l = action /\ holds_claim w') w.
Proof.
  unfold validate. destruct (failed _); [done|]. cbn [wp]. intros w' e _.
  destruct (read_state e action w'.1) as [[l [o|]]|] eqn:Hr; [done| |done].
  apply read_state_Ok in Hr as [Ha _].
  destruct (classifyCurrent l current) as [[status reason] [err|]]; apply wp_bind.
  - eapply wp_weaken; [|by apply wp_persistOutcome]. intros [[]|] w2 _; done.
  - eapply wp_weaken; [|by apply wp_ensureExecutionClaim].
    intros [[]|] w2 Hw; simpl; [|done]. intros l' [= <-]. auto.
Qed.

Definition call_post (c : call) (r : result guard_error unit) (w : world) : Prop :=
  r = Ok tt ->
  match c with
  | CBeginExecution => True
  | CBeforeStep _ => holds_claim w
  | CCommit _ => holds_claim w /\ resolved_here LeaseCommitted w
  | CAbort _ => resolved_here LeaseAborted w
  end.

Lemma call_post_monotone c : monotone (call_post c).
Proof.
  intros r w w' Hf Hp Hr. specialize (Hp Hr). destruct c; try done.
  - by eapply holds_claim_future.
  - destruct Hp as [H1 H2]. split; [by eapply holds_claim_future|by eapply resolved_here_future].
  - by eapply resolved_here_future.
Qed.

Lemma persistOutcome_keeps_claim o : forall w, holds_claim w ->
  wp (persistOutcome o) (fun _ w' => holds_claim w') w.
Proof.
  intros w Hw. simpl. intros w' e r s' Hf Hp.
  assert (holds_claim (s', log_add t (match r with Ok _ => Some o | Err _ => None end) w'.2)) as Hw'.
  { apply (holds_claim_future w'); [|by eapply holds_claim_future]. split; simpl; [|intros x Hx; destruct r; simpl; [by right|done]].
    by eapply persist_outcome_extends. }
  destruct r as [[]|]; simpl; [done|]. intros w2 e2 Hf2.
  destruct (read_state e2 action w2.1) as [[? []]|]; by eapply holds_claim_future.
Qed.

Lemma wp_and {A} (p : prog A) Q R w : wp p Q w -> wp p R w -> wp p (fun a w' => Q a w' /\ R a w') w.
Proof.
  revert w. induction p as [a|k IH|k IH|c k IH|o k IH|c k IH|k IH]; intros w HQ HR; simpl in *; eauto.
  destruct HQ as [Hm HQ], HR as [_ HR]. split; [done|]. eauto.
Qed.

Lemma wp_call c w : wp (call_prog attempt c) (call_post c) w.
Proof.
  destruct c as [|current|current|at_]; simpl call_prog; unfold call_post.
  - simpl. intros w' b _ Hb. done.
  - unfold BeforeStep. apply wp_bind. eapply wp_weaken; [|apply wp_validate].
    intros [l|err] w' Hw; simpl; [|done]. intros _. by eapply Hw.
  - unfold Commit. apply wp_bind. eapply wp_weaken; [|apply wp_validate].
    intros [l|err] w' Hw; [|done]. destruct (Hw l eq_refl) as [Ha Hc].
    eapply wp_weaken; [|apply wp_and; [by apply (persistOutcome_keeps_claim _ w' Hc)
      |by apply (wp_persistOutcome l LeaseCommitted)]].
    intros r w2 [H1 H2] Hr. auto.
  - unfold Abort. destruct (negb _); [done|]. cbn [wp]. intros w' e _.
    destruct (read_state e action w'.1) as [[l [o|]]|] eqn:Hr; [done| |done].
    apply read_state_Ok in Hr as [Ha _]. by apply (wp_persistOutcome l LeaseAborted).
Qed.

(** A call that begins on a resolved lease does not succeed. *)
Definition refused (c : call) (r : result guard_error unit) : Prop :=
  match c with CBeginExecution => True | _ => r <> Ok tt end.

Lemma wp_refused c w o : outcome_of w.1 action = Some o ->
  wp (call_prog attempt c) (fun r _ => refused c r) w.
Proof.
  intros Ho.
  assert (forall w' e l, future w w' -> read_state e action w'.1 = Ok (l, None) -> False) as Hread.
  { intros w' e l [[_ Hout] _] Hr. apply read_state_Ok in Hr as [_ Hr].
    rewrite (Hout _ _ Ho) in Hr. done. }
  assert (forall current, wp (validate attempt current) (fun r _ => exists err, r = Err err) w) as Hval.
  { intros current. unfold validate. destruct (failed _); [simpl; eauto|]. cbn [wp]. intros w' e Hf.
    destruct (read_state e action w'.1) as [[l [o'|]]|] eqn:Hr; [simpl; eauto| |simpl; eauto].
    by destruct (Hread w' e l). }
  destruct c as [|current|current|at_]; simpl call_prog; unfold refused.
  - by simpl.
  - unfold BeforeStep. apply wp_bind. eapply wp_weaken; [|apply Hval]. by intros r w' [err ->].
  - unfold Commit. apply wp_bind. eapply wp_weaken; [|apply Hval]. by intros r w' [err ->].
  - unfold Abort. destruct (negb _); [done|]. cbn [wp]. intros w' e Hf.
    destruct (read_state e action w'.1) as [[l [o'|]]|] eqn:Hr; [done| |done].
    by destruct (Hread w' e l).
Qed.
End wp.

(** ** The invariant of concurrent calls *)

Definition guard_ok (g : Guard) : Prop :=
  forall c, claim g = Some c -> mine (actionID g) (attemptID g) c.

Lemma exec_sound {A} t e g s log (p : prog A) Q g' s' p' o :
  guard_ok g -> wp t (actionID g) (attemptID g) p Q (s, log) -> exec e g s p = Some (g', s', p', o) ->
  future (s, log) (s', log_add t o log) /\
  wp t (actionID g) (attemptID g) p' Q (s', log_add t o log) /\
  guard_ok g' /\ actionID g' = actionID g /\ attemptID g' = attemptID g /\
  (forall x, o = Some x -> outcome_of s (ActionLeaseOutcome.ActionID x) = None /\
                           outcome_of s' (ActionLeaseOutcome.ActionID x) = Some x).
Proof.
  intros Hg Hw He. destruct p as [a|k|k|c k|x k|c k|k]; simpl in Hw, He; simplify_eq.
  - split_and!; try done. by apply (Hw (s', log)).
  - split_and!; try done. by apply (Hw (s', log)).
  - destruct (persist_claim e c s) as [r s1] eqn:Hp. simplify_eq. split_and!; try done.
    + split; [by eapply persist_claim_extends|done].
    + by apply (Hw (s, log) e).
  - destruct (persist_outcome e x s) as [r s1] eqn:Hp. simplify_eq. split_and!; try done.
    + split; simpl; [by eapply persist_outcome_extends|]. intros y Hy. destruct r; simpl; [by right|done].
    + by apply (Hw (s, log) e).
    + intros y Hy. destruct r as [[]|]; simplify_eq. by apply persist_outcome_Ok in Hp.
  - destruct Hw as [Hm Hw]. destruct (claim g) as [c0|] eqn:Hc; simplify_eq; split_and!; try done.
    + apply (Hw (s', log)); [done|]. by apply Hg.
    + by apply (Hw (s', log)).
    + intros c1. simpl. intros [= <-]. done.
  - split_and!; try done. by apply (Hw (s', log)).
Qed.

Definition cf_world (cf : config) : world := (cf_store cf, cf_log cf).

Definition thread_ok (cf : config) (t : nat) (th : thread) : Prop :=
  (exists g, cf_guards cf !! t_guard th = Some g /\ actionID g = t_action th /\ attemptID g = t_attempt th) /\
  wp t (t_action th) (t_attempt th) (t_prog th)
    (call_post t (t_action th) (t_attempt th) (t_call th)) (cf_world cf) /\
  (t_late th = true ->
   wp t (t_action th) (t_attempt th) (t_prog th) (fun r _ => refused (t_call th) r) (cf_world cf)).

Definition returned_ok (w : world) (r : returned) : Prop :=
  call_post (r_thread r) (r_action r) (r_attempt r) (r_call r) (r_result r) w /\
  (r_late r = true -> refused (r_call r) (r_result r)).

Record inv (cf : config) : Prop := {
  inv_guards i g : cf_guards cf !! i = Some g -> guard_ok g;
  inv_threads t th : cf_threads cf !! t = Some th -> thread_ok cf t th;
  inv_returned r : r ∈ cf_returned cf -> returned_ok (cf_world cf) r;
  inv_log t o : (t, o) ∈ cf_log cf ->
    outcome_of (cf_store cf) (ActionLeaseOutcome.ActionID o) = Some o;
  inv_log_once : NoDup (map (fun x => ActionLeaseOutcome.ActionID x.2) (cf_log cf));
  inv_ids : NoDup (map r_thread (cf_returned cf));
  inv_finished r : r ∈ cf_returned cf -> cf_threads cf !! r_thread r = None
}.

Lemma returned_future w w' r : future w w' -> returned_ok w r -> returned_ok w' r.
Proof. intros Hf [H1 H2]. split; [|done]. by eapply call_post_monotone. Qed.

(** Threads of a configuration whose store and log grew and whose guards kept
    their identity. *)
Lemma thread_future cf cf' t th : future (cf_world cf) (cf_world cf') ->
  (forall i g, cf_guards cf !! i = Some g -> exists g', cf_guards cf' !! i = Some g' /\
     actionID g' = actionID g /\ attemptID g' = attemptID g) ->
  thread_ok cf t th -> thread_ok cf' t th.
Proof.
  intros Hf Hg ((g & G1 & G2 & G3) & H2 & H3). split_and!.
  - destruct (Hg _ _ G1) as (g' & E1 & E2 & E3). exists g'. split_and!; congruence.
  - eapply wp_future; [apply call_post_monotone|done|done].
  - intros Hl. eapply wp_future; [|done|by apply H3]. by intros ? ? ?.
Qed.

Lemma inv_initial s : inv (initial s).
Proof.
  constructor; simpl; try done; try constructor; intros; rewrite ?lookup_empty in *; try done;
    by match goal with H : _ ∈ [] |- _ => apply elem_of_nil in H end.
Qed.

Lemma inv_new cf i action attempt : inv cf -> cf_guards cf !! i = None ->
  inv (mkConfig (cf_store cf) (<[i := mkGuard action attempt None false]> (cf_guards cf))
         (cf_threads cf) (cf_returned cf) (cf_log cf)).
Proof.
  intros [I1 I2 I3 I4 I5 I6 I7] Hi. constructor; simpl; try done.
  - intros j g. destruct (decide (i = j)) as [<-|Hne].
    + rewrite lookup_insert_eq. by intros [= <-].
    + rewrite lookup_insert_ne by done. apply I1.
  - intros t th Ht. eapply thread_future; [| |by apply I2]; [done|]. simpl.
    intros j g Hj. exists g. rewrite lookup_insert_ne; [done|congruence].
Qed.

Lemma inv_call cf i g t c : inv cf -> cf_guards cf !! i = Some g -> cf_threads cf !! t = None ->
  Forall (fun r => r_thread r <> t) (cf_returned cf) ->
  inv (mkConfig (cf_store cf) (cf_guards cf)
         (<[t := mkThread i (actionID g) (attemptID g) c
                   (bool_decide (is_Some (outcome_of (cf_store cf) (actionID g))))
                   (call_prog (attemptID g) c)]> (cf_threads cf))
         (cf_returned cf) (cf_log cf)).
Proof.
  intros [I1 I2 I3 I4 I5 I6 I7] Hi Ht Hr. constructor; simpl; try done.
  - intros t' th. destruct (decide (t = t')) as [<-|Hne].
    + rewrite lookup_insert_eq. intros [= <-]. split_and!; simpl.
      * by exists g.
      * apply wp_call.
      * intros [o Ho]%bool_decide_eq_true. by eapply wp_refused.
    + rewrite lookup_insert_ne by done. apply I2.
  - intros r Hin. rewrite Forall_forall in Hr. specialize (Hr _ Hin).
    rewrite lookup_insert_ne by done. by apply I7.
Qed.

Lemma inv_run cf t th e g g' s' p' o : inv cf -> cf_threads cf !! t = Some th ->
  cf_guards cf !! t_guard th = Some g -> exec e g (cf_store cf) (t_prog th) = Some (g', s', p', o) ->
  inv (mkConfig s' (<[t_guard th := g']> (cf_guards cf))
         (<[t := mkThread (t_guard th) (t_action th) (t_attempt th) (t_call th) (t_late th) p']>
            (cf_threads cf)) (cf_returned cf) (log_add t o (cf_log cf))).
Proof.
  intros [I1 I2 I3 I4 I5 I6 I7] Ht Hg He.
  destruct (I2 _ _ Ht) as ((g0 & G1 & G2 & G3) & Hwp & Hlate).
  rewrite Hg in G1. injection G1 as <-.
  rewrite <- G2, <- G3 in *.
  destruct (exec_sound t e g (cf_store cf) (cf_log cf) (t_prog th) _ g' s' p' o (I1 _ _ Hg) Hwp He)
    as (Hf & Hwp' & Hg' & Ea & Eb & Hnew).
  constructor; simpl.
  - intros j gj. destruct (decide (t_guard th = j)) as [<-|Hne].
    + rewrite lookup_insert_eq. by intros [= <-].
    + rewrite lookup_insert_ne by done. apply I1.
  - assert (forall j gj, cf_guards cf !! j = Some gj ->
      exists g2, <[t_guard th := g']> (cf_guards cf) !! j = Some g2 /\
        actionID g2 = actionID gj /\ attemptID g2 = attemptID gj) as Hids.
    { intros j gj Hj. destruct (decide (t_guard th = j)) as [<-|Hne].
      - exists g'. rewrite lookup_insert_eq. simplify_eq. done.
      - exists gj. by rewrite lookup_insert_ne. }
    intros t' th'. destruct (decide (t = t')) as [<-|Hne].
    + rewrite lookup_insert_eq. intros [= <-]. split_and!; simpl.
      * exists g'. rewrite lookup_insert_eq. done.
      * done.
      * intros Hl. by destruct (exec_sound t e g (cf_store cf) (cf_log cf) (t_prog th) _ g' s' p' o
          (I1 _ _ Hg) (Hlate Hl) He) as (_ & ? & _).
    + rewrite lookup_insert_ne by done. intros Ht'.
      eapply thread_future; [| |by apply I2]; [done|]. exact Hids.
  - intros r Hr. eapply returned_future; [|by apply I3]. done.
  - intros t' x Hx. destruct Hf as [[_ Hout] _]. simpl in Hout.
    destruct o as [y|]; simpl in Hx; [|by apply Hout, (I4 t')].
    apply elem_of_cons in Hx as [[= -> ->]|Hx]; [by apply Hnew|by apply Hout, (I4 t')].
  - destruct o as [y|]; simpl; [|done]. constructor; [|done].
    intros ([t2 x] & Hx1 & Hx2)%list_elem_of_fmap. simpl in Hx1.
    destruct (Hnew y eq_refl) as [Hnone _]. rewrite Hx1, (I4 t2 x Hx2) in Hnone. done.
  - done.
  - intros r Hr. rewrite lookup_insert_ne; [by apply I7|]. intros ->. by rewrite (I7 _ Hr) in Ht.
Qed.

Lemma inv_return cf t th r : inv cf -> cf_threads cf !! t = Some th -> t_prog th = Ret r ->
  inv (mkConfig (cf_store cf) (cf_guards cf) (delete t (cf_threads cf))
         (mkReturned t (t_guard th) (t_action th) (t_attempt th) (t_call th) (t_late th) r
            :: cf_returned cf) (cf_log cf)).
Proof.
  intros [I1 I2 I3 I4 I5 I6 I7] Ht Hp. destruct (I2 _ _ Ht) as (_ & Hwp & Hlate).
  rewrite Hp in Hwp, Hlate. simpl in Hwp, Hlate.
  constructor; simpl; try done.
  - intros t' th' Ht'. apply lookup_delete_Some in Ht' as [_ Ht']. by apply I2.
  - intros x. rewrite elem_of_cons. intros [->|Hx]; [by split|by apply I3].
  - constructor; [|done]. intros (x & Hx1 & Hx2)%list_elem_of_fmap.
    pose proof (I7 _ Hx2). congruence.
  - intros x. rewrite elem_of_cons. intros [->|Hx]; simpl; [apply lookup_delete_eq|].
    apply lookup_delete_None. right. by apply I7.
Qed.

Lemma inv_other cf s' : inv cf -> other_step (cf_store cf) s' ->
  inv (mkConfig s' (cf_guards cf) (cf_threads cf) (cf_returned cf) (cf_log cf)).
Proof.
  intros [I1 I2 I3 I4 I5 I6 I7] Ho. apply other_extends in Ho as Hext.
  assert (forall gs ts rs, future (cf_world cf) (cf_world (mkConfig s' gs ts rs (cf_log cf)))) as Hf
    by (intros; by split).
  constructor; simpl; try done.
  - intros t th Ht. eapply thread_future; [apply Hf| |by apply I2]. simpl. eauto.
  - intros r Hr. eapply returned_future; [apply (Hf ∅ ∅ [])|]. by apply I3.
  - intros t o Hin. apply Hext. by apply (I4 t).
Qed.

Lemma inv_step c1 c2 : cstep c1 c2 -> inv c1 -> inv c2.
Proof.
  intros Hs Hi. destruct Hs.
  - by apply inv_new.
  - by apply inv_call.
  - by eapply inv_run.
  - by apply inv_return.
  - by apply inv_other.
Qed.

Lemma reachable_inv s cf : reachable s cf -> inv cf.
Proof.
  unfold reachable. intros Hr. pose proof (inv_initial s) as Hi. revert Hi. generalize (initial s) Hr.
  clear Hr. intros c0 Hr. induction Hr as [|c1 c2 c3 Hs _ IH]; [done|]. intros Hi. eauto using inv_step.
Qed.

(** ** Theorems *)

Definition approves (r : returned) : Prop :=
  r_result r = Ok tt /\ match r_call r with CBeforeStep _ | CCommit _ => True | _ => False end.

Definition resolves (r : returned) : Prop :=
  r_result r = Ok tt /\ match r_call r with CCommit _ | CAbort _ => True | _ => False end.

Lemma approves_claim w r : returned_ok w r -> approves r -> holds_claim (r_action r) (r_attempt r) w.
Proof.
  intros [Hp _] [Hok Hc]. specialize (Hp Hok). destruct (r_call r); done || by destruct Hp.
Qed.

Lemma resolves_log w r : returned_ok w r -> resolves r ->
  exists status, resolved_here (r_thread r) (r_action r) status w.
Proof.
  intros [Hp _] [Hok Hc]. specialize (Hp Hok). destruct (r_call r); try done; [destruct Hp|]; eauto.
Qed.

Lemma NoDup_map_eq {A B} (f : A -> B) l x y : NoDup (map f l) -> x ∈ l -> y ∈ l -> f x = f y -> x = y.
Proof.
  induction l as [|z l IH]; simpl; [by intros _ ?%elem_of_nil|].
  intros [Hz Hl]%NoDup_cons Hx Hy Heq. apply elem_of_cons in Hx, Hy.
  destruct Hx as [->|Hx], Hy as [->|Hy]; [done| | |by apply IH].
  - destruct Hz. rewrite Heq. by apply list_elem_of_fmap_2.
  - destruct Hz. rewrite <- Heq. by apply list_elem_of_fmap_2.
Qed.

Lemma single_executor_laws s cf r1 r2 : reachable s cf -> r1 ∈ cf_returned cf -> r2 ∈ cf_returned cf ->
  approves r1 -> approves r2 -> r_action r1 = r_action r2 -> r_attempt r1 = r_attempt r2.
Proof.
  intros Hr H1 H2 A1 A2 Ha. apply reachable_inv in Hr as Hi.
  destruct (approves_claim _ _ (inv_returned _ Hi _ H1) A1) as (c1 & E1 & <-).
  destruct (approves_claim _ _ (inv_returned _ Hi _ H2) A2) as (c2 & E2 & <-).
  rewrite Ha in E1. congruence.
Qed.

Lemma resolved_at_most_once_laws s cf r1 r2 : reachable s cf ->
  r1 ∈ cf_returned cf -> r2 ∈ cf_returned cf -> resolves r1 -> resolves r2 ->
  r_action r1 = r_action r2 -> r1 = r2.
Proof.
  intros Hr H1 H2 R1 R2 Ha. apply reachable_inv in Hr as Hi.
  destruct (resolves_log _ _ (inv_returned _ Hi _ H1) R1) as (st1 & o1 & L1 & A1 & _).
  destruct (resolves_log _ _ (inv_returned _ Hi _ H2) R2) as (st2 & o2 & L2 & A2 & _).
  assert ((r_thread r1, o1) = (r_thread r2, o2)) as Heq.
  { eapply (NoDup_map_eq _ (cf_log cf)); [apply (inv_log_once _ Hi)|done|done|]. simpl. congruence. }
  injection Heq as Ht _. eapply (NoDup_map_eq r_thread); [apply (inv_ids _ Hi)|done|done|done].
Qed.

Lemma resolved_lease_refuses_laws s cf r : reachable s cf -> r ∈ cf_returned cf -> r_late r = true ->
  r_call r <> CBeginExecution -> r_result r <> Ok tt.
Proof.
  intros Hr Hin Hl Hc. apply reachable_inv in Hr as Hi.
  destruct (inv_returned _ Hi _ Hin) as [_ Href]. specialize (Href Hl). by destruct (r_call r).
Qed.

(** ** Schedules

    An executable choice of steps; a choice that is not possible is skipped. *)

Inductive choice :=
| ChNew (i : nat) (action attempt : UUID)
| ChCall (i t : nat) (c : call)
| ChRun (t : nat) (e : call_env)
| ChReturn (t : nat).

Definition choose (ch : choice) (cf : config) : config :=
  match ch with
  | ChNew i action attempt =>
      match cf_guards cf !! i with
      | None => mkConfig (cf_store cf) (<[i := mkGuard action attempt None false]> (cf_guards cf))
                  (cf_threads cf) (cf_returned cf) (cf_log cf)
      | Some _ => cf
      end
  | ChCall i t c =>
      match cf_guards cf !! i, cf_threads cf !! t with
      | Some g, None =>
          if decide (Forall (fun r => r_thread r <> t) (cf_returned cf)) then
            mkConfig (cf_store cf) (cf_guards cf)
              (<[t := mkThread i (actionID g) (attemptID g) c
                        (bool_decide (is_Some (outcome_of (cf_store cf) (actionID g))))
                        (call_prog (attemptID g) c)]> (cf_threads cf)) (cf_returned cf) (cf_log cf)
          else cf
      | _, _ => cf
      end
  | ChRun t e =>
      match cf_threads cf !! t with
      | Some th =>
          match cf_guards cf !! t_guard th with
          | Some g =>
              match exec e g (cf_store cf) (t_prog th) with
              | Some (g', s', p', o) =>
                  mkConfig s' (<[t_guard th := g']> (cf_guards cf))
                    (<[t := mkThread (t_guard th) (t_action th) (t_attempt th) (t_call th) (t_late th) p']>
                       (cf_threads cf)) (cf_returned cf) (log_add t o (cf_log cf))
              | None => cf
              end
          | None => cf
          end
      | None => cf
      end
  | ChReturn t =>
      match cf_threads cf !! t with
      | Some th =>
          match t_prog th with
          | Ret r => mkConfig (cf_store cf) (cf_guards cf) (delete t (cf_threads cf))
                       (mkReturned t (t_guard th) (t_action th) (t_attempt th) (t_call th) (t_late th) r
                          :: cf_returned cf) (cf_log cf)
          | _ => cf
          end
      | None => cf
      end
  end.

Definition schedule (chs : list choice) (s : store) : config :=
  fold_left (fun cf ch => choose ch cf) chs (initial s).

Lemma choose_step ch cf : rtc cstep cf (choose ch cf).
Proof.
  destruct ch as [i a b|i t c|t e|t]; simpl.
  - destruct (cf_guards cf !! i) eqn:?; [done|]. by apply rtc_once, step_new.
  - destruct (cf_guards cf !! i) eqn:?; [|done]. destruct (cf_threads cf !! t) eqn:?; [done|].
    case_decide; [|done]. by apply rtc_once, step_call.
  - destruct (cf_threads cf !! t) as [th|] eqn:?; [|done].
    destruct (cf_guards cf !! t_guard th) eqn:?; [|done].
    destruct (exec _ _ _ _) as [[[[]]]|] eqn:?; [|done]. by eapply rtc_once, step_run.
  - destruct (cf_threads cf !! t) as [th|] eqn:?; [|done].
    destruct (t_prog th) eqn:?; try done. by apply rtc_once, step_return.
Qed.

Lemma schedule_reachable chs s : reachable s (schedule chs s).
Proof.
  unfold reachable, schedule. generalize (initial s). induction chs as [|ch chs IH]; intros cf; [done|].
  simpl. etrans; [apply choose_step|apply IH].
Qed.
End guard.

(** ** The policy store provides the interface *)

Section policy_store.
Context `{LeaseCodecs} `{!CodecLaws ActionLeaseExecutionClaim.t} `{!CodecLaws ActionLeaseOutcome.t}.

(** The fields of a valid claim and of a valid outcome are ASCII texts, which JSON
    carries exactly. *)
Class TextsExact := {
  claim_exact c : ActionLeaseExecutionClaim_Validate c = Ok tt -> exact c = true;
  outcome_exact o : ActionLeaseOutcome_Validate o = Ok tt -> exact o = true
}.

Context (domain : Domain).

Definition policy_store : ExecutionStore := {|
  store := gmap string File;
  call_env := Env;
  st_error := store_error;
  read_state e id s := ReadActionLeaseState e domain id s;
  read_claim e id s := ReadActionLeaseExecutionClaim e domain id s;
  persist_claim e c s := PersistActionLeaseExecutionClaim e domain c s;
  persist_outcome e o s := PersistActionLeaseOutcome e domain o s;
  other_step := store_step (fun _ => True) domain
|}.

Definition decoded T `{!Codec T} (name : string) (s : gmap string File) : option T :=
  f ← s !! name; match decodeRecord T (content f) with Ok v => Some v | Err _ => None end.

Definition recorded_claim (s : gmap string File) (id : UUID) : option ActionLeaseExecutionClaim.t :=
  decoded ActionLeaseExecutionClaim.t (filename recordActionExecution id) s.

Definition recorded_outcome (s : gmap string File) (id : UUID) : option ActionLeaseOutcome.t :=
  decoded ActionLeaseOutcome.t (filename recordActionOutcome id) s.

Lemma decoded_keeps T `{!Codec T} name s s' v : name <> activePointerFilename -> dotted name = false ->
  keeps s s' -> decoded T name s = Some v -> decoded T name s' = Some v.
Proof.
  unfold decoded. intros Hn Hd Hk. destruct (s !! name) as [f|] eqn:Hf; [|done].
  by rewrite (Hk _ _ Hn Hd Hf).
Qed.

Lemma keeps_extends s s' : keeps s s' ->
  (forall id c, recorded_claim s id = Some c -> recorded_claim s' id = Some c) /\
  (forall id o, recorded_outcome s id = Some o -> recorded_outcome s' id = Some o).
Proof. intros Hk. split; intros id v; by apply decoded_keeps. Qed.

Context `{!TextsExact}.

Lemma persist_claim_recorded e c s s' :
  PersistActionLeaseExecutionClaim e domain c s = (Ok tt, s') ->
  recorded_claim s' (ActionLeaseExecutionClaim.ActionID c) = Some c /\
  recorded_outcome s (ActionLeaseExecutionClaim.ActionID c) = None.
Proof.
  intros Hp. apply PersistExecution_inv in Hp as [_ Hok].
  destruct (Hok eq_refl) as (name & encoded & f & Hn & Hv & Hm & Hout & Hf & Hc).
  apply filename_Ok in Hn as ->. unfold recorded_claim, recorded_outcome, decoded. rewrite Hf, Hout.
  split; [|done]. simpl. destruct Hc as [->| ->]; [|done].
  by rewrite (decodeRecord_marshal _ _ _ (claim_exact _ Hv) Hm).
Qed.

Lemma persist_outcome_recorded e o s s' :
  PersistActionLeaseOutcome e domain o s = (Ok tt, s') ->
  recorded_outcome s (ActionLeaseOutcome.ActionID o) = None /\
  recorded_outcome s' (ActionLeaseOutcome.ActionID o) = Some o.
Proof.
  intros Hp. apply PersistOutcome_inv in Hp as [_ Hok].
  destruct (Hok eq_refl) as (lease & name & encoded & f & Hn & Hv & Hm & _ & Hfree & Hf & Hc & _).
  apply filename_Ok in Hn as ->. unfold recorded_outcome, decoded. rewrite Hf, Hfree.
  split; [done|]. simpl. by rewrite Hc, (decodeRecord_marshal _ _ _ (outcome_exact _ Hv) Hm).
Qed.

Lemma read_state_recorded e id s l o : ReadActionLeaseState e domain id s = Ok (l, o) ->
  ActionLease.ActionID l = id /\ recorded_outcome s id = o.
Proof.
  unfold ReadActionLeaseState. intros Hr. apply bind_Ok in Hr as (name & _ & Hr).
  destruct (open_check e); [done|]. apply bind_Ok in Hr as (lease & Hl & Hr).
  apply readActionLeaseLocked_Ok in Hl as (_ & _ & _ & Hid).
  unfold recorded_outcome, decoded, readRecordLocked in *.
  destruct (s !! filename recordActionOutcome id) as [f|]; [|by simplify_eq]. simpl.
  destruct (negb (validateRecordStat f)); [done|]. destruct (negb (bound e)); [done|].
  destruct (decodeRecord _ _); [|done]. destruct (_ || _); by simplify_eq.
Qed.

#[export] Instance policy_store_laws : @ExecutionStoreLaws policy_store.
Proof.
  refine (@Build_ExecutionStoreLaws policy_store recorded_claim recorded_outcome _ _ _ _ _ _); simpl.
  - intros e c s r s' Hp. apply keeps_extends. by apply PersistExecution_inv in Hp as [[] _].
  - intros e o s r s' Hp. apply keeps_extends. by apply PersistOutcome_inv in Hp as [[] _].
  - intros s s' Hs. apply keeps_extends. by eapply store_step_keeps.
  - apply persist_claim_recorded.
  - apply persist_outcome_recorded.
  - apply read_state_recorded.
Defined.
End policy_store.

(** ** Theorems about the policy store *)

Section claims.
Context `{LeaseCodecs} `{!CodecLaws ActionLeaseExecutionClaim.t} `{!CodecLaws ActionLeaseOutcome.t}
  `{!TextsExact} (domain : Domain).

#[local] Existing Instance policy_store.

Abbreviation directory := (gmap string File).

(** C1: a lease has one executor. However many guards are made for an action and
    however their calls interleave with each other and with any other call on
    the store, all calls that let a step go on or commit the action belong to
    one and the same attempt. *)
Theorem single_executor (s : directory) cf r1 r2 : @reachable (policy_store domain) _ s cf ->
  r1 ∈ cf_returned cf -> r2 ∈ cf_returned cf ->
  approves r1 -> approves r2 -> r_action r1 = r_action r2 -> r_attempt r1 = r_attempt r2.
Proof. apply single_executor_laws. Qed.

(** C2: a lease is resolved at most once. Of all the concurrent calls that commit
    or abort an action, through any guards, at most one succeeds. *)
Theorem resolved_at_most_once (s : directory) cf r1 r2 : @reachable (policy_store domain) _ s cf ->
  r1 ∈ cf_returned cf -> r2 ∈ cf_returned cf -> resolves r1 -> resolves r2 ->
  r_action r1 = r_action r2 -> r1 = r2.
Proof. apply resolved_at_most_once_laws. Qed.

(** A resolved lease authorizes nothing more. A step check, commit or abort
    that begins when the store holds an outcome for the action never succeeds,
    whatever runs next to it. *)
Theorem resolved_lease_refuses (s : directory) cf r : @reachable (policy_store domain) _ s cf ->
  r ∈ cf_returned cf -> r_late r = true -> r_call r <> CBeginExecution -> r_result r <> Ok tt.
Proof. apply resolved_lease_refuses_laws. Qed.
End claims.

(** ** A concrete schedule

    Two guards race for one lease: the first claims it, steps and commits, the
    second is refused before and after the commit. *)

Module GuardSample.
Import StoreSample.

#[local] Instance texts_exact : TextsExact.
Proof. by split. Qed.

#[local] Instance sample_store : ExecutionStore := policy_store DomainUser.
#[local] Instance sample_store_laws : ExecutionStoreLaws := policy_store_laws DomainUser.

Definition lease_state : gmap string File := (PersistActionLease env DomainUser sample_lease state0).2.

Definition now (ns : Z) : CurrentAuthorization.t :=
  CurrentAuthorization.mk DomainUser CapabilityPritunlRecovery 7 3 12 "pritunl"
    "0123456789abcdef0123456789abcdef0123456789abcdef0123456789abcdef"
    "11111111-1111-4111-8111-111111111111" ns (sample_instant + ns).

Definition action := ActionLease.ActionID sample_lease.

Definition choices : list choice :=
  [ChNew 0 action (tx "a"); ChNew 1 action (tx "b");
   ChCall 0 0 (CBeforeStep (now 2000)); ChCall 1 1 (CBeforeStep (now 2000));
   ChRun 0 env; ChRun 1 env; ChRun 0 env; ChRun 1 env; ChRun 0 env; ChRun 1 env; ChRun 1 env; ChRun 1 env;
   ChReturn 0; ChReturn 1;
   ChCall 0 2 (CCommit (now 3000)); ChRun 2 env; ChRun 2 env; ChRun 2 env; ChRun 2 env; ChReturn 2;
   ChCall 1 3 (CBeforeStep (now 4000)); ChRun 3 env; ChReturn 3]%nat.

Definition final : config := schedule choices lease_state.

(** The thread, the attempt, whether it began late, whether it commits, and whether
    it succeeded, of each returned call. *)
Definition summary (r : returned) : nat * string * bool * bool * bool :=
  (r_thread r, r_attempt r, r_late r,
   match r_call r with CCommit _ => true | _ => false end, is_ok (r_result r)).

Definition final_returns : list (nat * string * bool * bool * bool) :=
  [(3%nat, tx "b", true, false, false); (2%nat, tx "a", false, true, true);
   (1%nat, tx "b", false, false, false); (0%nat, tx "a", false, false, true)].

Definition contains_summary (x : nat * string * bool * bool * bool) : bool :=
  bool_decide (x ∈ final_returns).

Lemma final_summary : map summary (cf_returned final) = final_returns.
Proof. vm_compute. reflexivity. Qed.

Definition checked (r : returned) : bool :=
  String.eqb (r_action r) action && match r_call r with CBeforeStep _ | CCommit _ => true | _ => false end.

Lemma final_checked : forallb checked (cf_returned final) = true.
Proof. vm_compute. reflexivity. Qed.

Lemma checked_in (l : list returned) r : forallb checked l = true -> r ∈ l ->
  r_action r = action /\ r_call r <> CBeginExecution /\
  (is_ok (r_result r) = true -> approves r).
Proof.
  rewrite forallb_forall. intros Hall Hr%list_elem_of_In. specialize (Hall r Hr). unfold checked in Hall.
  bool_prop. unfold approves. destruct (r_call r), (r_result r) as [[]|]; done.
Qed.

(** The returned call with a given summary. *)
Lemma call_of (l : list returned) x : x ∈ map summary l -> exists r, r ∈ l /\ summary r = x.
Proof. intros (r & -> & Hr)%list_elem_of_fmap. eauto. Qed.

Lemma final_reachable : reachable lease_state final.
Proof. apply schedule_reachable. Qed.

Definition stepped : nat * string * bool * bool * bool := (0%nat, tx "a", false, false, true).
Definition committed : nat * string * bool * bool * bool := (2%nat, tx "a", false, true, true).
Definition too_late : nat * string * bool * bool * bool := (3%nat, tx "b", true, false, false).

Lemma final_has x : contains_summary x = true -> exists r, r ∈ cf_returned final /\ summary r = x.
Proof.
  intros Hx. apply call_of. rewrite final_summary. by apply bool_decide_eq_true in Hx.
Qed.

Lemma summary_committed r : summary r = committed -> resolves r.
Proof.
  unfold summary, committed, resolves. intros S1. injection S1 as _ _ _ Hc Hok.
  destruct (r_result r) as [[]|], (r_call r); done.
Qed.

Lemma final_same r1 r2 : r1 ∈ cf_returned final -> r2 ∈ cf_returned final -> r_action r1 = r_action r2.
Proof.
  intros H1 H2. destruct (checked_in _ _ final_checked H1) as [E1 _].
  destruct (checked_in _ _ final_checked H2) as [E2 _]. exact (eq_trans E1 (eq_sym E2)).
Qed.

Lemma single_executor_witness :
  exists r1 r2, r1 ∈ cf_returned final /\ r2 ∈ cf_returned final /\
    summary r1 = stepped /\ summary r2 = committed /\ r_attempt r1 = r_attempt r2.
Proof.
  destruct (final_has stepped) as (r1 & H1 & S1); [vm_compute; reflexivity|].
  destruct (final_has committed) as (r2 & H2 & S2); [vm_compute; reflexivity|].
  exists r1, r2. split; [exact H1|]. split; [exact H2|]. split; [exact S1|]. split; [exact S2|].
  apply (single_executor DomainUser lease_state final r1 r2 final_reachable H1 H2).
  - apply (checked_in _ _ final_checked H1). by injection S1.
  - apply (checked_in _ _ final_checked H2). by injection S2.
  - exact (final_same r1 r2 H1 H2).
Defined.

Lemma resolved_at_most_once_witness :
  exists r1, r1 ∈ cf_returned final /\ summary r1 = committed /\
    forall r2, r2 ∈ cf_returned final -> resolves r2 -> r1 = r2.
Proof.
  destruct (final_has committed) as (r1 & H1 & S1); [vm_compute; reflexivity|].
  exists r1. split; [exact H1|]. split; [exact S1|]. intros r2 H2 R2.
  exact (resolved_at_most_once DomainUser lease_state final r1 r2 final_reachable H1 H2
    (summary_committed r1 S1) R2 (final_same r1 r2 H1 H2)).
Defined.

Lemma resolved_lease_refuses_witness :
  exists r, r ∈ cf_returned final /\ summary r = too_late /\ r_result r <> Ok tt.
Proof.
  destruct (final_has too_late) as (r & H1 & S1); [vm_compute; reflexivity|].
  exists r. split; [exact H1|]. split; [exact S1|].
  apply (resolved_lease_refuses DomainUser lease_state final r final_reachable H1).
  - by injection S1.
  - apply (checked_in _ _ final_checked H1).
Defined.
End GuardSample.
