(* ===== verification/LeaseIssue.v ===== *)
(** * Issuing action leases

    [internal/actionlease/issue.go]. The store's two methods are the domain it
    answers with and [PersistActionLease]; the clock's two readings and the bytes
    of the random reader are arguments. *)

From Stdlib Require Import ZArith Lia Ascii String.
From stdpp Require Import base strings list option gmap.
From S2P Require Import Prelude GoTime Metadata PolicyModel PolicyValidate PolicyCanonical PolicyClock.
From S2P Require Import PolicyApproval StoreRecords StoreLeases LeaseGuard.

Open Scope string_scope.
Open Scope Z_scope.

Definition DefaultTTL := 30 * second_ns.
Definition MaxTTL := MaxActionLeaseTTL.

Module IssueInput.
Record t := mk {
  Domain : Domain;
  Capability : Capability;
  BundleGeneration : Z;
  DomainPolicyGeneration : Z;
  ControlStateGeneration : Z;
  Target : string;
  PlanSHA256 : string;
  BootID : UUID;
  TTL : Z
}.
End IssueInput.

Inductive issue_error :=
| ErrInvalidIssue
| ErrIssueStore (err : store_error).

Section issue.
Context `{LeaseCodecs}.

(** [max_i64 - ttl] does not overflow for the accepted times to live. *)
Definition IssueAndPersist (e : Env) (store_domain : Domain) (input : IssueInput.t) (wall monotonic : Z)
    (random : list Z) (s : gmap string File) : result issue_error ActionLease.t * gmap string File :=
  let ttl := if IssueInput.TTL input =? 0 then DefaultTTL else IssueInput.TTL input in
  if negb (Domain_Valid (IssueInput.Domain input)) ||
     negb (String.eqb store_domain (IssueInput.Domain input)) || (ttl <? 0) || (MaxTTL <? ttl)
  then (Err ErrInvalidIssue, s)
  else if IsZero wall || (monotonic <? 0) || (ttl <=? 0) || (max_i64 - ttl <? monotonic)
  then (Err ErrInvalidIssue, s)
  else match NewUUID random with
  | (Err _, _) => (Err ErrInvalidIssue, s)
  | (Ok actionID, random') =>
      match NewUUID random' with
      | (Err _, _) => (Err ErrInvalidIssue, s)
      | (Ok nonce, _) =>
          let lease := ActionLease.mk ActionLeaseSchema actionID (IssueInput.Domain input)
            (IssueInput.Capability input) (IssueInput.BundleGeneration input)
            (IssueInput.DomainPolicyGeneration input) (IssueInput.ControlStateGeneration input)
            (IssueInput.Target input) (IssueInput.PlanSHA256 input) (Format wall) (Format (wall + ttl))
            monotonic (i64 (monotonic + ttl)) (IssueInput.BootID input) nonce LeasePending in
          if failed (ActionLease_Validate lease) then (Err ErrInvalidIssue, s)
          else match PersistActionLease e store_domain lease s with
               | (Ok _, s') => (Ok lease, s')
               | (Err err, s') => (Err (ErrIssueStore err), s')
               end
      end
  end.

Lemma ActionLease_BootID l : ActionLease_Validate l = Ok tt -> validUUID (ActionLease.BootID l) = true.
Proof. unfold ActionLease_Validate. intros Hv. inv_result. by bool_prop. Qed.

Lemma IssueAndPersist_Ok e domain input wall monotonic random s l s' :
  IssueAndPersist e domain input wall monotonic random s = (Ok l, s') ->
  ActionLease_Validate l = Ok tt /\ ActionLease.Status l = LeasePending /\
  ActionLease.BootID l = IssueInput.BootID input /\
  ActionLease.IssuedMonotonicNS l = monotonic /\ 0 <= monotonic /\
  (exists ttl, 0 < ttl <= MaxTTL /\ ActionLease.ExpiresMonotonicNS l = monotonic + ttl /\
     (ttl = IssueInput.TTL input \/ (IssueInput.TTL input = 0 /\ ttl = DefaultTTL))) /\
  ActionLease.Domain l = IssueInput.Domain input /\ ActionLease.Capability l = IssueInput.Capability input /\
  ActionLease.BundleGeneration l = IssueInput.BundleGeneration input /\
  ActionLease.DomainPolicyGeneration l = IssueInput.DomainPolicyGeneration input /\
  ActionLease.ControlStateGeneration l = IssueInput.ControlStateGeneration input /\
  ActionLease.Target l = IssueInput.Target input /\ ActionLease.PlanSHA256 l = IssueInput.PlanSHA256 input /\
  PersistActionLease e domain l s = (Ok tt, s').
Proof.
  unfold IssueAndPersist. set (ttl := if IssueInput.TTL input =? 0 then DefaultTTL else IssueInput.TTL input).
  intros Hp. repeat (case_match; try discriminate Hp). injection Hp as <- <-. bool_prop.
  match goal with Hf : failed _ = false |- _ => apply failed_unit in Hf end.
  match goal with u : unit |- _ => destruct u end.
  rewrite i64_small in * by (unfold min_i64 in *; lia).
  split_and!; try done. exists ttl. split_and!; try done; try lia.
  subst ttl. destruct (Z.eqb_spec (IssueInput.TTL input) 0); auto.
Qed.

(** An issued lease is usable at once and for its time to live. A lease that
    is issued and stored is valid and pending; at the boot and the reading it
    was issued, and at every reading before its time to live ends, the guard
    that presents the same binding finds it current, and from the end on it
    finds it expired. *)
Theorem issued_lease_is_current e domain input wall monotonic random s l s' :
  IssueAndPersist e domain input wall monotonic random s = (Ok l, s') ->
  exists ttl, 0 < ttl <= MaxTTL /\
  forall current,
    CurrentAuthorization.Domain current = IssueInput.Domain input ->
    CurrentAuthorization.Capability current = IssueInput.Capability input ->
    CurrentAuthorization.BundleGeneration current = IssueInput.BundleGeneration input ->
    CurrentAuthorization.DomainPolicyGeneration current = IssueInput.DomainPolicyGeneration input ->
    CurrentAuthorization.ControlStateGeneration current = IssueInput.ControlStateGeneration input ->
    CurrentAuthorization.Target current = IssueInput.Target input ->
    CurrentAuthorization.PlanSHA256 current = IssueInput.PlanSHA256 input ->
    CurrentAuthorization.BootID current = IssueInput.BootID input ->
    monotonic <= CurrentAuthorization.MonotonicNS current ->
    @classifyCurrent (policy_store domain) l current =
      if CurrentAuthorization.MonotonicNS current <? monotonic + ttl
      then (LeasePending, "", None)
      else (LeaseExpired, LeaseOutcomeTTLExpired, Some LeaseGuard.ErrLeaseExpired).
Proof.
  intros (Hv & Hs & Hb & Hi & Hpos & (ttl & Ht & He & _) & E1 & E2 & E3 & E4 & E5 & E6 & E7 & _)%IssueAndPersist_Ok.
  exists ttl. split; [done|]. intros current C1 C2 C3 C4 C5 C6 C7 C8 C9.
  unfold classifyCurrent. destruct (Z.ltb_spec (CurrentAuthorization.MonotonicNS current) (monotonic + ttl)).
  - rewrite (proj2 (ValidatePendingLease_Ok _ _)).
    + rewrite C1, C2, C3, C4, C5, C6, C7, E1, E2, E3, E4, E5, E6, E7, !Z.eqb_refl, !String.eqb_refl. done.
    + simpl. rewrite C8, <- Hb. split_and!; try done; try lia. by apply ActionLease_BootID.
  - pose proof (ActionLease_BootID _ Hv) as Hu. unfold ValidatePendingLease, failed, validUUID in *.
    rewrite Hv, Hs. simpl. rewrite C8, <- Hb, Hu, !String.eqb_refl, Hi, He. simpl.
    rewrite (proj2 (Z.ltb_ge (CurrentAuthorization.MonotonicNS current) 0)) by lia. simpl.
    rewrite (proj2 (Z.ltb_ge _ monotonic)) by lia. by rewrite (proj2 (Z.leb_le _ _)) by lia.
Qed.
End issue.

Module IssueSample.
Import StoreSample.

Definition input : IssueInput.t :=
  IssueInput.mk DomainUser CapabilityPritunlRecovery 7 3 12 "pritunl"
    "0123456789abcdef0123456789abcdef0123456789abcdef0123456789abcdef"
    "11111111-1111-4111-8111-111111111111" 0.

Abbreviation issued := (IssueAndPersist env DomainUser input sample_instant 5000 sample_bytes state0).

Definition issued_lease : ActionLease.t := Eval vm_compute in
  match issued.1 with Ok l => l | Err _ => sample_lease end.

Lemma issued_Ok : issued.1 = Ok issued_lease.
Proof. vm_compute. reflexivity. Qed.

Lemma pair_of_first {A B} (p : A * B) a : p.1 = a -> p = (a, p.2).
Proof. destruct p. simpl. by intros ->. Qed.

Lemma issued_lease_is_current_witness :
  issued.1 = Ok issued_lease /\ exists ttl, 0 < ttl <= MaxTTL.
Proof.
  split; [exact issued_Ok|].
  destruct (issued_lease_is_current env DomainUser input sample_instant 5000 sample_bytes state0
    issued_lease issued.2 (pair_of_first issued (Ok issued_lease) issued_Ok)) as (ttl & Ht & _).
  exists ttl. exact Ht.
Defined.
End IssueSample.
