(* ===== verification/ReconContracts.v ===== *)
(** * Reconciler contracts

    [internal/reconciler/contracts.go], [capability.go] and [prerequisite.go]: the
    action records of the reconciler with their validation, the registry of
    synthetic capabilities, and the gate of its prerequisites. Texts that a regular
    expression accepts are described by the scanner it stands for. *)

From Stdlib Require Import ZArith Lia Ascii String.
From stdpp Require Import base strings list option sets gmap.
From S2P Require Import Prelude GoTime Metadata PolicyModel.

Open Scope string_scope.
Open Scope Z_scope.

Definition ActionRecordSchema := "hexroute.reconciler-action-record.v1".
Definition ActionProvenanceSchema := "hexroute.reconciler-action-provenance.v1".
Definition MaxRecordBytes := 16 * 1024.
Definition MaxIdentifierBytes := 96.
Definition MaxDigestReferences := 16.
Definition MaxPlanSteps := 16.
Definition MaxResources := 16.
Definition MaxRetryAfterSeconds := 3600.

(** The sentinel errors of the package. *)
Inductive recon_error :=
| ErrInvalidContract
| ErrInvalidCapabilityRegistry
| ErrInvalidPrerequisiteInput
| ErrInvalidReadinessInput
| ErrInvalidTranslationInput
| ErrAttemptJournal
| ErrAttemptCAS
| ErrAttemptTransition
| ErrAttemptImmutable
| ErrAttemptJournalTamper
| ErrOperationCheckpoint
| ErrOperationCheckpointCAS
| ErrOperationCheckpointTamper
| ErrOperationResume
| ErrCancellationIntent
| ErrCancellationRejected
| ErrCancellationBlocked
| ErrCleanupRegistry
| ErrSyntheticAdapter
| ErrSyntheticConflict
| ErrSyntheticVerification
| ErrSyntheticFault
| ErrIO.

#[global] Instance recon_error_eq_dec : EqDecision recon_error.
Proof. solve_decision. Defined.

(** ** Enumerations *)

Abbreviation RecordKind := string (only parsing).
Definition RecordReadiness : RecordKind := "readiness".
Definition RecordAcknowledgement : RecordKind := "acknowledgement".
Definition RecordActionPlan : RecordKind := "action_plan".
Definition RecordOperationSession : RecordKind := "operation_session".
Definition RecordCheckpoint : RecordKind := "checkpoint".
Definition RecordAttempt : RecordKind := "attempt".
Definition RecordStep : RecordKind := "step".
Definition RecordResource : RecordKind := "resource".
Definition RecordOutcome : RecordKind := "outcome".
Definition RecordIncident : RecordKind := "incident".
Definition RecordKind_Valid (value : RecordKind) : bool :=
  contains_string [RecordReadiness; RecordAcknowledgement; RecordActionPlan; RecordOperationSession; RecordCheckpoint; RecordAttempt; RecordStep; RecordResource; RecordOutcome; RecordIncident] value.

Abbreviation Producer := string (only parsing).
Definition ProducerRootDaemon : Producer := "root_daemon".
Definition ProducerUserDaemon : Producer := "user_daemon".
Definition ProducerSynthetic : Producer := "synthetic_engine".
Definition Producer_Valid (value : Producer) : bool :=
  contains_string [ProducerRootDaemon; ProducerUserDaemon; ProducerSynthetic] value.

Abbreviation ReadinessStatus := string (only parsing).
Definition ReadinessReady : ReadinessStatus := "ready".
Definition ReadinessTemporarilyBlocked : ReadinessStatus := "temporarily_blocked".
Definition ReadinessDenied : ReadinessStatus := "denied".
Definition ReadinessStatus_Valid (value : ReadinessStatus) : bool :=
  contains_string [ReadinessReady; ReadinessTemporarilyBlocked; ReadinessDenied] value.

Abbreviation AckClass := string (only parsing).
Definition AckAccepted : AckClass := "accepted".
Definition AckTemporarilyRejected : AckClass := "temporarily_rejected".
Definition AckDenied : AckClass := "denied".
Definition AckClass_Valid (value : AckClass) : bool :=
  contains_string [AckAccepted; AckTemporarilyRejected; AckDenied] value.

Abbreviation RetryClass := string (only parsing).
Definition RetryNone : RetryClass := "none".
Definition RetryAfterHint : RetryClass := "retry_after".
Definition RetryNever : RetryClass := "never".
Definition RetryClass_Valid (value : RetryClass) : bool :=
  contains_string [RetryNone; RetryAfterHint; RetryNever] value.

Abbreviation Reason := string (only parsing).
Definition ReasonNone : Reason := "none".
Definition ReasonNoAction : Reason := "no_action".
Definition ReasonAccepted : Reason := "accepted".
Definition ReasonFreshness : Reason := "freshness".
Definition ReasonThreshold : Reason := "threshold".
Definition ReasonBudget : Reason := "budget".
Definition ReasonBackoff : Reason := "backoff".
Definition ReasonCooldown : Reason := "cooldown".
Definition ReasonPolicy : Reason := "policy".
Definition ReasonCapability : Reason := "capability".
Definition ReasonOwnership : Reason := "ownership".
Definition ReasonSchema : Reason := "schema".
Definition ReasonGeneration : Reason := "generation".
Definition ReasonTarget : Reason := "target".
Definition ReasonLineage : Reason := "lineage".
Definition ReasonResumeDenied : Reason := "resume_denied".
Definition ReasonVerification : Reason := "verification".
Definition ReasonCompensation : Reason := "compensation".
Definition ReasonCleanup : Reason := "cleanup".
Definition ReasonExpired : Reason := "expired".
Definition ReasonCancelled : Reason := "cancelled".
Definition ReasonSafeMode : Reason := "safe_mode".
Definition ReasonTelemetryPending : Reason := "telemetry_pending".
Definition ReasonTelemetryRejected : Reason := "telemetry_rejected".
Definition ReasonGapUnrecoverable : Reason := "telemetry_gap_unrecoverable".
Definition Reason_Valid (value : Reason) : bool :=
  contains_string [ReasonNone; ReasonNoAction; ReasonAccepted; ReasonFreshness; ReasonThreshold; ReasonBudget; ReasonBackoff; ReasonCooldown; ReasonPolicy; ReasonCapability; ReasonOwnership; ReasonSchema; ReasonGeneration; ReasonTarget; ReasonLineage; ReasonResumeDenied; ReasonVerification; ReasonCompensation; ReasonCleanup; ReasonExpired; ReasonCancelled; ReasonSafeMode; ReasonTelemetryPending; ReasonTelemetryRejected; ReasonGapUnrecoverable] value.

Abbreviation AttemptState := string (only parsing).
Definition AttemptPending : AttemptState := "pending".
Definition AttemptClaimed : AttemptState := "claimed".
Definition AttemptRunning : AttemptState := "running".
Definition AttemptVerifying : AttemptState := "verifying".
Definition AttemptCommitted : AttemptState := "committed".
Definition AttemptExpired : AttemptState := "expired".
Definition AttemptDenied : AttemptState := "denied".
Definition AttemptCancelled : AttemptState := "cancelled".
Definition AttemptRolledBack : AttemptState := "rolled_back".
Definition AttemptFailed : AttemptState := "failed".
Definition AttemptSafeMode : AttemptState := "safe_mode".
Definition AttemptState_Valid (value : AttemptState) : bool :=
  contains_string [AttemptPending; AttemptClaimed; AttemptRunning; AttemptVerifying; AttemptCommitted; AttemptExpired; AttemptDenied; AttemptCancelled; AttemptRolledBack; AttemptFailed; AttemptSafeMode] value.

Abbreviation TerminalOutcome := string (only parsing).
Definition OutcomeCommitted : TerminalOutcome := "committed".
Definition OutcomeExpired : TerminalOutcome := "expired".
Definition OutcomeDenied : TerminalOutcome := "denied".
Definition OutcomeCancelled : TerminalOutcome := "cancelled".
Definition OutcomeRolledBack : TerminalOutcome := "rolled_back".
Definition OutcomeFailed : TerminalOutcome := "failed".
Definition OutcomeSafeMode : TerminalOutcome := "safe_mode".
Definition TerminalOutcome_Valid (value : TerminalOutcome) : bool :=
  contains_string [OutcomeCommitted; OutcomeExpired; OutcomeDenied; OutcomeCancelled; OutcomeRolledBack; OutcomeFailed; OutcomeSafeMode] value.

Abbreviation ReportDeliveryState := string (only parsing).
Definition ReportPending : ReportDeliveryState := "pending".
Definition ReportAcknowledged : ReportDeliveryState := "acknowledged".
Definition ReportTerminallyRejected : ReportDeliveryState := "terminally_rejected".
Definition ReportDeliveryState_Valid (value : ReportDeliveryState) : bool :=
  contains_string [ReportPending; ReportAcknowledged; ReportTerminallyRejected] value.

Abbreviation SessionLifecycle := string (only parsing).
Definition SessionRunning : SessionLifecycle := "running".
Definition SessionSuspended : SessionLifecycle := "suspended".
Definition SessionCancelled : SessionLifecycle := "cancelled".
Definition SessionFailed : SessionLifecycle := "failed".
Definition SessionCompleted : SessionLifecycle := "completed".
Definition SessionLifecycle_Valid (value : SessionLifecycle) : bool :=
  contains_string [SessionRunning; SessionSuspended; SessionCancelled; SessionFailed; SessionCompleted] value.

Abbreviation StepState := string (only parsing).
Definition StepPending : StepState := "pending".
Definition StepApplied : StepState := "applied".
Definition StepVerified : StepState := "verified".
Definition StepCompensated : StepState := "compensated".
Definition StepFailed : StepState := "failed".
Definition StepSkippedNoop : StepState := "skipped_noop".
Definition StepState_Valid (value : StepState) : bool :=
  contains_string [StepPending; StepApplied; StepVerified; StepCompensated; StepFailed; StepSkippedNoop] value.

Abbreviation ResourceKind := string (only parsing).
Definition ResourceSyntheticHelper : ResourceKind := "synthetic_helper".
Definition ResourceSyntheticFile : ResourceKind := "synthetic_file".
Definition ResourceSyntheticLease : ResourceKind := "synthetic_lease".
Definition ResourceKind_Valid (value : ResourceKind) : bool :=
  contains_string [ResourceSyntheticHelper; ResourceSyntheticFile; ResourceSyntheticLease] value.

Abbreviation ResourceState := string (only parsing).
Definition ResourceRegistered : ResourceState := "registered".
Definition ResourceClosed : ResourceState := "closed".
Definition ResourceFailed : ResourceState := "failed".
Definition ResourceState_Valid (value : ResourceState) : bool :=
  contains_string [ResourceRegistered; ResourceClosed; ResourceFailed] value.

Abbreviation WorkflowKind := string (only parsing).
Definition WorkflowSyntheticQualification : WorkflowKind := "synthetic_qualification".
Definition WorkflowShadowComparison : WorkflowKind := "shadow_comparison".
Definition WorkflowCrashRecoveryDrill : WorkflowKind := "crash_recovery_drill".
Definition WorkflowKind_Valid (value : WorkflowKind) : bool :=
  contains_string [WorkflowSyntheticQualification; WorkflowShadowComparison; WorkflowCrashRecoveryDrill] value.

Abbreviation Severity := string (only parsing).
Definition SeverityInfo : Severity := "info".
Definition SeverityWarning : Severity := "warning".
Definition SeverityCritical : Severity := "critical".
Definition Severity_Valid (value : Severity) : bool :=
  contains_string [SeverityInfo; SeverityWarning; SeverityCritical] value.

Abbreviation CapabilityID := string (only parsing).
Definition CapabilitySyntheticNoop : CapabilityID := "synthetic.reconciler.noop".
Definition CapabilitySyntheticMemory : CapabilityID := "synthetic.reconciler.memory".
Definition CapabilitySyntheticCrashFixture : CapabilityID := "synthetic.reconciler.crash_fixture".

Abbreviation OperationClass := string (only parsing).
Definition OperationSyntheticNoop : OperationClass := "synthetic_noop".
Definition OperationSyntheticState : OperationClass := "synthetic_state".
Definition OperationSyntheticCrashFixture : OperationClass := "synthetic_crash_fixture".
Definition OperationSyntheticTunnelInterface : OperationClass := "synthetic_tunnel_interface".
Definition OperationSyntheticScopedRoute : OperationClass := "synthetic_scoped_route".
Definition OperationSyntheticDNS : OperationClass := "synthetic_dns".
Definition OperationSyntheticFirewall : OperationClass := "synthetic_firewall".
Definition OperationSyntheticProcess : OperationClass := "synthetic_process".
Definition OperationSyntheticUserAccess : OperationClass := "synthetic_user_access".
Definition OperationClass_Valid (value : OperationClass) : bool :=
  contains_string [OperationSyntheticNoop; OperationSyntheticState; OperationSyntheticCrashFixture; OperationSyntheticTunnelInterface; OperationSyntheticScopedRoute; OperationSyntheticDNS; OperationSyntheticFirewall; OperationSyntheticProcess; OperationSyntheticUserAccess] value.

(** ** Texts *)

(** [strings.Contains] *)
Fixpoint contains_chars (s fragment : list ascii) : bool :=
  bool_decide (take (length fragment) s = fragment) ||
  match s with [] => false | _ :: s' => contains_chars s' fragment end.

Definition contains_fragment (s fragment : string) : bool := contains_chars (chars s) (chars fragment).

(** [strings.ToLower] of an ASCII text. *)
Definition lower (c : ascii) : ascii := if is_upper c then ascii_of_nat (nat_of_ascii c + 32) else c.
Definition to_lower (s : string) : string := of_chars (map lower (chars s)).

Definition hasProtectedString (value : string) : bool :=
  existsb (contains_fragment (to_lower value))
    ["hexroute_canary_"; "credential"; "endpoint"; "gitlab"; "keychain"; "medvidi"; "otp"; "path"; "pin";
     "pritunl"; "process"; "selector"; "session"; "totp"; "topology"; "twilight"; "vless"].

Definition hasProductionFragment (value : string) : bool :=
  existsb (contains_fragment (to_lower value))
    ["adguard"; "credential"; "dns"; "firewall"; "keychain"; "mtg"; "pritunl"; "reality"; "route"; "sing-box";
     "transport"; "tun"; "tunnel"; "twilight"; "vless"; "vpn"; "xray"].

(** [^[a-z][a-z0-9_.:-]{0,95}$] *)
Definition identifier_char (c : ascii) : bool :=
  is_lower c || is_digit c || existsb (Ascii.eqb c) ["_"; "."; ":"; "-"]%char.

Definition identifierPattern (value : string) : bool :=
  match chars value with
  | [] => false
  | c :: l => is_lower c && forallb identifier_char l && (Z.of_nat (length l) <=? 95)
  end.

(** [^v[0-9]+(\.[0-9]+){0,2}$] *)
Definition versionPattern (value : string) : bool :=
  match chars value with
  | c :: l =>
      let parts := split_on "."%char l in
      Ascii.eqb c "v" && (Z.of_nat (length parts) <=? 3) &&
      forallb (fun part => negb (bool_decide (part = [])) && forallb is_digit part) parts
  | [] => false
  end.

(** A fixed prefix and [[a-z][a-z0-9_]{0,63}$]. *)
Definition suffixPattern (prefix value : string) : bool :=
  match cut_prefix prefix value with
  | (rest, true) =>
      match chars rest with
      | [] => false
      | c :: l => is_lower c && forallb (fun x => is_lower x || is_digit x || Ascii.eqb x "_") l &&
                  (Z.of_nat (length l) <=? 63)
      end
  | (_, false) => false
  end.

Definition capabilityIDPattern (value : string) : bool := suffixPattern "synthetic.reconciler." value.
Definition adapterIDPattern (value : string) : bool := suffixPattern "synthetic.adapter." value.

(** [^[a-f0-9]{64}$] *)
Definition validDigest (value : string) : bool := (slen value =? 64) && forallb is_lower_hex (chars value).

Definition validIdentifier (value : string) : bool :=
  (0 <? slen value) && (slen value <=? MaxIdentifierBytes) && identifierPattern value &&
  negb (hasProtectedString value).

Definition validRetry (class : RetryClass) (seconds : Z) : bool :=
  if String.eqb class RetryNone || String.eqb class RetryNever then seconds =? 0
  else if String.eqb class RetryAfterHint then (0 <? seconds) && (seconds <=? MaxRetryAfterSeconds)
  else false.

Definition validDigestList (values : list string) (minimum maximum : Z) : bool :=
  negb ((len values <? minimum) || (maximum <? len values)) &&
  forallb validDigest values && distinct_strings values.

Definition validUUIDList (values : list UUID) (maximum : Z) : bool :=
  negb (maximum <? len values) && forallb validUUID values && distinct_strings values.

Definition canonicalTime (value : string) : bool :=
  match Parse value with
  | Some t => negb (IsZero t) && String.eqb (Format t) value
  | None => false
  end.

(** [value != "" && !valid(value)], negated. *)
Definition optional (valid : string -> bool) (value : string) : bool := String.eqb value "" || valid value.

(** ** Records *)

Module ActionProvenance.
Record t := mk {
  Schema : string;
  RecordID : UUID;
  Kind : RecordKind;
  ParentActionID : UUID;
  RootActionID : UUID;
  Producer : Producer;
  Domain : Domain;
  BootID : UUID;
  BundleGeneration : Z;
  DomainPolicyGeneration : Z;
  ControlGeneration : Z;
  SnapshotGeneration : Z;
  SourceSHA256 : string;
  InputSHA256 : string;
  OutputSHA256 : string;
  ObservedAt : string;
  SourceMonotonicNS : Z
}.
#[global] Instance eq_dec : EqDecision t.
Proof. solve_decision. Defined.
End ActionProvenance.

Module ReadinessRecord.
Record t := mk {
  Target : string;
  Status : ReadinessStatus;
  Reason : Reason;
  RetryClass : RetryClass;
  RetryAfterSeconds : Z
}.
#[global] Instance eq_dec : EqDecision t.
Proof. solve_decision. Defined.
End ReadinessRecord.

Module AcknowledgementRecord.
Record t := mk {
  RequestID : UUID;
  Class : AckClass;
  Reason : Reason;
  RetryClass : RetryClass;
  RetryAfterSeconds : Z;
  ActionID : UUID;
  NoAction : bool
}.
#[global] Instance eq_dec : EqDecision t.
Proof. solve_decision. Defined.
End AcknowledgementRecord.

Module ActionPlanRecord.
Record t := mk {
  PlanSHA256 : string;
  Target : string;
  CapabilityID : CapabilityID;
  AdapterVersion : string;
  AdapterSHA256 : string;
  ProposalSHA256 : string;
  DiffSHA256 : string;
  SnapshotSHA256 : string;
  ReadinessSHA256 : string;
  BundleGeneration : Z;
  DomainPolicyGeneration : Z;
  ControlGeneration : Z;
  SnapshotGeneration : Z;
  StepDigests : list string;
  VerificationDigests : list string;
  CompensationDigests : list string
}.
#[global] Instance eq_dec : EqDecision t.
Proof. solve_decision. Defined.
End ActionPlanRecord.

Module OperationSessionRecord.
Record t := mk {
  OperationID : UUID;
  Workflow : WorkflowKind;
  Lifecycle : SessionLifecycle;
  ContractVersion : string;
  RuntimeVersion : string;
  ManifestSHA256 : string;
  ChildActionIDs : list UUID
}.
#[global] Instance eq_dec : EqDecision t.
Proof. solve_decision. Defined.
End OperationSessionRecord.

Module CheckpointRecord.
Record t := mk {
  OperationID : UUID;
  Sequence : Z;
  ParentCheckpointSHA256 : string;
  ReducerSHA256 : string;
  AdapterSHA256 : string;
  ChildActionIDs : list UUID;
  AttemptIDs : list UUID;
  EvidenceDigests : list string
}.
#[global] Instance eq_dec : EqDecision t.
Proof. solve_decision. Defined.
End CheckpointRecord.

Module AttemptRecord.
Record t := mk {
  ActionID : UUID;
  AttemptID : UUID;
  Nonce : UUID;
  State : AttemptState;
  PlanSHA256 : string
}.
#[global] Instance eq_dec : EqDecision t.
Proof. solve_decision. Defined.
End AttemptRecord.

Module StepRecord.
Record t := mk {
  StepID : string;
  State : StepState;
  Operation : OperationClass;
  InputSHA256 : string;
  BeforeSHA256 : string;
  AppliedSHA256 : string
}.
#[global] Instance eq_dec : EqDecision t.
Proof. solve_decision. Defined.
End StepRecord.

Module ResourceRecord.
Record t := mk {
  ResourceID : string;
  Kind : ResourceKind;
  State : ResourceState;
  OwnerSHA256 : string
}.
#[global] Instance eq_dec : EqDecision t.
Proof. solve_decision. Defined.
End ResourceRecord.

Module OutcomeRecord.
Record t := mk {
  ActionID : UUID;
  AttemptID : UUID;
  Outcome : TerminalOutcome;
  Reason : Reason;
  ReportDelivery : ReportDeliveryState
}.
#[global] Instance eq_dec : EqDecision t.
Proof. solve_decision. Defined.
End OutcomeRecord.

Module IncidentRecord.
Record t := mk {
  IncidentID : UUID;
  Severity : Severity;
  Reason : Reason;
  Target : string
}.
#[global] Instance eq_dec : EqDecision t.
Proof. solve_decision. Defined.
End IncidentRecord.

(** [if refused { return ErrInvalidContract }; return nil] *)
Definition accept (holds : bool) : result recon_error unit := ensure holds ErrInvalidContract.

Definition ActionProvenance_Validate (p : ActionProvenance.t) (kind : RecordKind) : result recon_error unit :=
  if negb (String.eqb (ActionProvenance.Schema p) ActionProvenanceSchema) ||
     negb (String.eqb (ActionProvenance.Kind p) kind) || negb (RecordKind_Valid kind) ||
     negb (validUUID (ActionProvenance.RecordID p)) ||
     negb (optional validUUID (ActionProvenance.ParentActionID p)) ||
     negb (optional validUUID (ActionProvenance.RootActionID p)) ||
     negb (Producer_Valid (ActionProvenance.Producer p)) || negb (Domain_Valid (ActionProvenance.Domain p)) ||
     negb (validUUID (ActionProvenance.BootID p)) ||
     (ActionProvenance.BundleGeneration p =? 0) || (ActionProvenance.DomainPolicyGeneration p =? 0) ||
     (ActionProvenance.ControlGeneration p =? 0) || (ActionProvenance.SnapshotGeneration p =? 0) ||
     negb (validDigest (ActionProvenance.SourceSHA256 p)) || negb (validDigest (ActionProvenance.InputSHA256 p)) ||
     negb (validDigest (ActionProvenance.OutputSHA256 p)) || negb (canonicalTime (ActionProvenance.ObservedAt p)) ||
     (ActionProvenance.SourceMonotonicNS p <? 0)
  then Err ErrInvalidContract
  else if negb (String.eqb kind RecordOperationSession) && String.eqb (ActionProvenance.RootActionID p) ""
  then Err ErrInvalidContract else Ok tt.

Definition ReadinessRecord_Validate (p : ReadinessRecord.t) : result recon_error unit :=
  accept (validIdentifier (ReadinessRecord.Target p) && ReadinessStatus_Valid (ReadinessRecord.Status p) &&
          Reason_Valid (ReadinessRecord.Reason p) && RetryClass_Valid (ReadinessRecord.RetryClass p) &&
          validRetry (ReadinessRecord.RetryClass p) (ReadinessRecord.RetryAfterSeconds p)).

Definition AcknowledgementRecord_Validate (p : AcknowledgementRecord.t) : result recon_error unit :=
  let class := AcknowledgementRecord.Class p in
  let retry := AcknowledgementRecord.RetryClass p in
  let seconds := AcknowledgementRecord.RetryAfterSeconds p in
  let unnamed := String.eqb (AcknowledgementRecord.ActionID p) "" in
  let noAction := AcknowledgementRecord.NoAction p in
  if negb (validUUID (AcknowledgementRecord.RequestID p)) || negb (AckClass_Valid class) ||
     negb (Reason_Valid (AcknowledgementRecord.Reason p)) || negb (RetryClass_Valid retry) ||
     negb (validRetry retry seconds) || negb (optional validUUID (AcknowledgementRecord.ActionID p))
  then Err ErrInvalidContract
  else if String.eqb class AckAccepted then
    accept (negb (negb (String.eqb retry RetryNone) || negb (seconds =? 0) || (negb noAction && unnamed)))
  else if String.eqb class AckTemporarilyRejected then
    accept (negb (negb (String.eqb retry RetryAfterHint) || negb unnamed || noAction))
  else if String.eqb class AckDenied then
    accept (negb (negb (String.eqb retry RetryNever) || negb (seconds =? 0) || negb unnamed || noAction))
  else Ok tt.

Definition ActionPlanRecord_Validate (p : ActionPlanRecord.t) : result recon_error unit :=
  accept (
    validDigest (ActionPlanRecord.PlanSHA256 p) && validIdentifier (ActionPlanRecord.Target p) &&
    capabilityIDPattern (ActionPlanRecord.CapabilityID p) &&
    negb (hasProductionFragment (ActionPlanRecord.CapabilityID p)) &&
    versionPattern (ActionPlanRecord.AdapterVersion p) && validDigest (ActionPlanRecord.AdapterSHA256 p) &&
    validDigest (ActionPlanRecord.ProposalSHA256 p) && validDigest (ActionPlanRecord.DiffSHA256 p) &&
    validDigest (ActionPlanRecord.SnapshotSHA256 p) && validDigest (ActionPlanRecord.ReadinessSHA256 p) &&
    negb (ActionPlanRecord.BundleGeneration p =? 0) && negb (ActionPlanRecord.DomainPolicyGeneration p =? 0) &&
    negb (ActionPlanRecord.ControlGeneration p =? 0) && negb (ActionPlanRecord.SnapshotGeneration p =? 0) &&
    validDigestList (ActionPlanRecord.StepDigests p) 1 MaxPlanSteps &&
    validDigestList (ActionPlanRecord.VerificationDigests p) 1 MaxPlanSteps &&
    validDigestList (ActionPlanRecord.CompensationDigests p) 1 MaxPlanSteps &&
    (len (ActionPlanRecord.StepDigests p) =? len (ActionPlanRecord.VerificationDigests p)) &&
    (len (ActionPlanRecord.StepDigests p) =? len (ActionPlanRecord.CompensationDigests p))).

Definition OperationSessionRecord_Validate (p : OperationSessionRecord.t) : result recon_error unit :=
  accept (
    validUUID (OperationSessionRecord.OperationID p) && WorkflowKind_Valid (OperationSessionRecord.Workflow p) &&
    SessionLifecycle_Valid (OperationSessionRecord.Lifecycle p) &&
    versionPattern (OperationSessionRecord.ContractVersion p) &&
    versionPattern (OperationSessionRecord.RuntimeVersion p) &&
    validDigest (OperationSessionRecord.ManifestSHA256 p) &&
    validUUIDList (OperationSessionRecord.ChildActionIDs p) MaxDigestReferences).

Definition CheckpointRecord_Validate (p : CheckpointRecord.t) : result recon_error unit :=
  accept (
    validUUID (CheckpointRecord.OperationID p) && negb (CheckpointRecord.Sequence p =? 0) &&
    optional validDigest (CheckpointRecord.ParentCheckpointSHA256 p) &&
    validDigest (CheckpointRecord.ReducerSHA256 p) && validDigest (CheckpointRecord.AdapterSHA256 p) &&
    validUUIDList (CheckpointRecord.ChildActionIDs p) MaxDigestReferences &&
    validUUIDList (CheckpointRecord.AttemptIDs p) MaxDigestReferences &&
    validDigestList (CheckpointRecord.EvidenceDigests p) 1 MaxDigestReferences).

Definition AttemptRecord_Validate (p : AttemptRecord.t) : result recon_error unit :=
  accept (
    validUUID (AttemptRecord.ActionID p) && validUUID (AttemptRecord.AttemptID p) &&
    validUUID (AttemptRecord.Nonce p) && AttemptState_Valid (AttemptRecord.State p) &&
    validDigest (AttemptRecord.PlanSHA256 p) &&
    negb (String.eqb (AttemptRecord.ActionID p) (AttemptRecord.AttemptID p)) &&
    negb (String.eqb (AttemptRecord.ActionID p) (AttemptRecord.Nonce p)) &&
    negb (String.eqb (AttemptRecord.AttemptID p) (AttemptRecord.Nonce p))).

Definition StepRecord_Validate (p : StepRecord.t) : result recon_error unit :=
  accept (
    validIdentifier (StepRecord.StepID p) && StepState_Valid (StepRecord.State p) &&
    OperationClass_Valid (StepRecord.Operation p) && validDigest (StepRecord.InputSHA256 p) &&
    validDigest (StepRecord.BeforeSHA256 p) && validDigest (StepRecord.AppliedSHA256 p)).

Definition ResourceRecord_Validate (p : ResourceRecord.t) : result recon_error unit :=
  accept (
    validIdentifier (ResourceRecord.ResourceID p) && ResourceKind_Valid (ResourceRecord.Kind p) &&
    ResourceState_Valid (ResourceRecord.State p) && validDigest (ResourceRecord.OwnerSHA256 p)).

Definition OutcomeRecord_Validate (p : OutcomeRecord.t) : result recon_error unit :=
  accept (
    validUUID (OutcomeRecord.ActionID p) && validUUID (OutcomeRecord.AttemptID p) &&
    negb (String.eqb (OutcomeRecord.ActionID p) (OutcomeRecord.AttemptID p)) &&
    TerminalOutcome_Valid (OutcomeRecord.Outcome p) && Reason_Valid (OutcomeRecord.Reason p) &&
    ReportDeliveryState_Valid (OutcomeRecord.ReportDelivery p)).

Definition IncidentRecord_Validate (p : IncidentRecord.t) : result recon_error unit :=
  accept (
    validUUID (IncidentRecord.IncidentID p) && Severity_Valid (IncidentRecord.Severity p) &&
    Reason_Valid (IncidentRecord.Reason p) && validIdentifier (IncidentRecord.Target p)).

(** ** Capabilities *)

Module CapabilityDescriptor.
Record t := mk {
  ID : CapabilityID;
  AdapterID : string;
  OperationClass : OperationClass
}.
#[global] Instance eq_dec : EqDecision t.
Proof. solve_decision. Defined.
End CapabilityDescriptor.

Definition CapabilityDescriptor_validate (d : CapabilityDescriptor.t) : result recon_error unit :=
  ensure (
    capabilityIDPattern (CapabilityDescriptor.ID d) && adapterIDPattern (CapabilityDescriptor.AdapterID d) &&
    OperationClass_Valid (CapabilityDescriptor.OperationClass d) &&
    negb (hasProductionFragment (CapabilityDescriptor.ID d)) &&
    negb (hasProductionFragment (CapabilityDescriptor.AdapterID d))) ErrInvalidCapabilityRegistry.

(** [Registry]: the descriptors by identifier. *)
Abbreviation Registry := (gmap string CapabilityDescriptor.t) (only parsing).

Fixpoint register_all (owned : Registry) (descriptors : list CapabilityDescriptor.t) : result recon_error Registry :=
  match descriptors with
  | [] => Ok owned
  | d :: descriptors' =>
      match CapabilityDescriptor_validate d with
      | Err _ => Err ErrInvalidCapabilityRegistry
      | Ok _ =>
          if bool_decide (is_Some (owned !! CapabilityDescriptor.ID d)) then Err ErrInvalidCapabilityRegistry
          else register_all (<[CapabilityDescriptor.ID d := d]> owned) descriptors'
      end
  end.

Definition NewRegistry (descriptors : list CapabilityDescriptor.t) : result recon_error Registry :=
  if (len descriptors =? 0) || (16 <? len descriptors) then Err ErrInvalidCapabilityRegistry
  else register_all ∅ descriptors.

Definition default_descriptors : list CapabilityDescriptor.t :=
  [CapabilityDescriptor.mk CapabilitySyntheticNoop "synthetic.adapter.noop" OperationSyntheticNoop;
   CapabilityDescriptor.mk CapabilitySyntheticMemory "synthetic.adapter.memory" OperationSyntheticState;
   CapabilityDescriptor.mk CapabilitySyntheticCrashFixture "synthetic.adapter.crash_fixture"
     OperationSyntheticCrashFixture].

Definition Registry_IDs (registry : Registry) : list CapabilityID := sort_strings (map fst (map_to_list registry)).

Definition SyntheticOnly (registry : Registry) : bool :=
  negb (bool_decide (registry = ∅)) &&
  forallb (fun x => String.eqb x.1 (CapabilityDescriptor.ID x.2) && is_ok (CapabilityDescriptor_validate x.2))
    (map_to_list registry).

(** ** Prerequisites *)

Abbreviation PrerequisiteID := string (only parsing).
Definition PrerequisiteAtomicPolicyGenerations : PrerequisiteID := "add-atomic-policy-generations".
Definition PrerequisiteObservableConnectivityStateMachine : PrerequisiteID := "add-observable-connectivity-state-machine".
Definition PrerequisiteID_Valid (value : PrerequisiteID) : bool :=
  contains_string [PrerequisiteAtomicPolicyGenerations; PrerequisiteObservableConnectivityStateMachine] value.

Abbreviation PrerequisiteStatus := string (only parsing).
Definition PrerequisiteComplete : PrerequisiteStatus := "complete".
Definition PrerequisiteCollecting : PrerequisiteStatus := "collecting".
Definition PrerequisitePlanned : PrerequisiteStatus := "planned".
Definition PrerequisiteInvalid : PrerequisiteStatus := "invalid".

Abbreviation GateReason := string (only parsing).
Definition GateReasonNone : GateReason := "none".
Definition GateReasonMissingPrerequisite : GateReason := "missing_prerequisite".
Definition GateReasonIncompletePrerequisite : GateReason := "incomplete_prerequisite".
Definition GateReasonInvalidPrerequisite : GateReason := "invalid_prerequisite".
Definition GateReasonUnsyncedBaseline : GateReason := "unsynchronized_baseline".
Definition GateReasonGenerationMismatch : GateReason := "generation_mismatch".

Module GenerationBinding.
Record t := mk {
  BundleGeneration : Z;
  RootPolicyGeneration : Z;
  UserPolicyGeneration : Z;
  ManifestSHA256 : string
}.
#[global] Instance eq_dec : EqDecision t.
Proof. solve_decision. Defined.
End GenerationBinding.

Module PrerequisiteEvidence.
Record t := mk {
  ID : PrerequisiteID;
  Status : PrerequisiteStatus;
  Valid : bool;
  BaselineSynchronized : bool;
  Binding : GenerationBinding.t;
  EvidenceSHA256 : string;
  BaselineRevisionSHA256 : string;
  QualificationArtifactRef : string
}.
#[global] Instance eq_dec : EqDecision t.
Proof. solve_decision. Defined.
End PrerequisiteEvidence.

Record Gate := mkGate { gate_ready : bool; gate_reason : GateReason; gate_prerequisite : PrerequisiteID }.

Definition blocked (reason : GateReason) (prerequisite : PrerequisiteID) : Gate := mkGate false reason prerequisite.

(** [RequiredPrerequisites], of which the evaluation reads the identifiers. *)
Definition required_prerequisites : list PrerequisiteID :=
  [PrerequisiteAtomicPolicyGenerations; PrerequisiteObservableConnectivityStateMachine].

Definition GenerationBinding_valid (b : GenerationBinding.t) : bool :=
  (0 <? GenerationBinding.BundleGeneration b) && (0 <? GenerationBinding.RootPolicyGeneration b) &&
  (0 <? GenerationBinding.UserPolicyGeneration b) && validDigest (GenerationBinding.ManifestSHA256 b).

Definition evidence_of (evidence : list PrerequisiteEvidence.t) (id : PrerequisiteID) : option PrerequisiteEvidence.t :=
  List.find (fun e => String.eqb (PrerequisiteEvidence.ID e) id) evidence.

(** One round of the second loop: [None] when the prerequisite is met. *)
Definition prerequisite_blocks (expected : GenerationBinding.t) (evidence : list PrerequisiteEvidence.t)
    (id : PrerequisiteID) : option Gate :=
  match evidence_of evidence id with
  | None => Some (blocked GateReasonMissingPrerequisite id)
  | Some e =>
      if negb (PrerequisiteEvidence.Valid e) || String.eqb (PrerequisiteEvidence.Status e) PrerequisiteInvalid ||
         negb (validDigest (PrerequisiteEvidence.EvidenceSHA256 e)) ||
         negb (validDigest (PrerequisiteEvidence.BaselineRevisionSHA256 e)) ||
         String.eqb (PrerequisiteEvidence.QualificationArtifactRef e) ""
      then Some (blocked GateReasonInvalidPrerequisite id)
      else if negb (String.eqb (PrerequisiteEvidence.Status e) PrerequisiteComplete)
      then Some (blocked GateReasonIncompletePrerequisite id)
      else if negb (PrerequisiteEvidence.BaselineSynchronized e)
      then Some (blocked GateReasonUnsyncedBaseline id)
      else if negb (bool_decide (PrerequisiteEvidence.Binding e = expected))
      then Some (blocked GateReasonGenerationMismatch id)
      else None
  end.

Fixpoint first_block (expected : GenerationBinding.t) (evidence : list PrerequisiteEvidence.t)
    (required : list PrerequisiteID) : Gate :=
  match required with
  | [] => mkGate true GateReasonNone ""
  | id :: required' =>
      match prerequisite_blocks expected evidence id with
      | Some gate => gate
      | None => first_block expected evidence required'
      end
  end.

Definition EvaluatePrerequisites (expected : GenerationBinding.t) (evidence : list PrerequisiteEvidence.t)
    : result recon_error Gate :=
  if negb (GenerationBinding_valid expected) then Err ErrInvalidPrerequisiteInput
  else if negb (forallb (fun e => PrerequisiteID_Valid (PrerequisiteEvidence.ID e)) evidence) ||
          negb (distinct_strings (map PrerequisiteEvidence.ID evidence))
  then Err ErrInvalidPrerequisiteInput
  else Ok (first_block expected evidence required_prerequisites).

Lemma is_ok_unit {E} (r : result E unit) : is_ok r = true -> r = Ok tt.
Proof. by destruct r as [[]|]. Qed.

(** ** Chains of records

    The verification loop of the journals: every record is valid on its own, the first
    may start a chain and each later one follows the record before it. *)
Section chain.
Context {E A : Type} (tampered : E) (valid starts : A -> bool) (follows : A -> A -> bool).

Fixpoint chain_after (previous : option A) (l : list A) : result E unit :=
  match l with
  | [] => Ok tt
  | x :: rest =>
      if negb (valid x) then Err tampered
      else if negb (match previous with None => starts x | Some p => follows p x end) then Err tampered
      else chain_after (Some x) rest
  end.

Lemma chain_app previous l k :
  chain_after previous (l ++ k)%list =
  (_ ← chain_after previous l; chain_after (match last l with Some x => Some x | None => previous end) k).
Proof.
  revert previous. induction l as [|x l IH]; intros previous; [done|].
  cbn [chain_after app]. destruct (negb (valid x)); [done|]. destruct (negb _); [done|].
  rewrite IH. destruct (chain_after (Some x) l); [|done]. simpl. f_equal.
  destruct l as [|y l]; [done|]. rewrite last_cons_cons. by destruct (last (y :: l)) eqn:Hl; [|apply last_None in Hl].
Qed.

Lemma chain_start x : valid x = true -> starts x = true -> chain_after None [x] = Ok tt.
Proof. intros Hv Hs. cbn [chain_after]. by rewrite Hv, Hs. Qed.

Lemma chain_snoc l x y : last l = Some x -> chain_after None l = Ok tt -> valid y = true -> follows x y = true ->
  chain_after None (l ++ [y])%list = Ok tt.
Proof. intros Hl Hc Hv Hf. rewrite chain_app, Hc, Hl. cbn [chain_after]. rewrite Ok_bind. by rewrite Hv, Hf. Qed.

Lemma chain_valid previous l x : chain_after previous l = Ok tt -> x ∈ l -> valid x = true.
Proof.
  revert previous. induction l as [|y l IH]; intros previous Hc Hin; [by apply elem_of_nil in Hin|].
  cbn [chain_after] in Hc. destruct (valid y) eqn:Hy; cbn [negb] in Hc; [|done]. destruct (negb _); [done|].
  apply elem_of_cons in Hin as [->|Hin]; [done|by apply (IH (Some y))].
Qed.

Lemma chain_pairs previous l i x y : chain_after previous l = Ok tt -> l !! i = Some x -> l !! S i = Some y ->
  follows x y = true.
Proof.
  revert previous i. induction l as [|z l IH]; intros previous i Hc Hx Hy; [done|].
  cbn [chain_after] in Hc. destruct (negb (valid z)); [done|]. destruct (negb _); [done|].
  destruct i as [|i]; [|by apply (IH (Some z) i)]. injection Hx as ->. destruct l as [|w l]; [done|]. injection Hy as ->.
  cbn [chain_after] in Hc. destruct (negb (valid y)); [done|]. by destruct (follows x y).
Qed.

Lemma chain_head x l : chain_after None (x :: l) = Ok tt -> starts x = true.
Proof. cbn [chain_after]. destruct (negb (valid x)); [done|]. by destruct (starts x). Qed.

(** Where records are numbered, a chain numbers them from one. *)
Lemma chain_sequence (sequence : A -> Z) l i x :
  (forall a, starts a = true -> sequence a = 1) ->
  (forall a b, follows a b = true -> sequence b = u64 (sequence a + 1)) ->
  len l <= max_u64 -> chain_after None l = Ok tt -> l !! i = Some x -> sequence x = Z.of_nat i + 1.
Proof.
  intros Hs Hf Hlen Hc. revert x. induction i as [|i IH]; intros x Hx.
  - destruct l as [|y l]; [done|]. injection Hx as ->. apply chain_head in Hc. rewrite (Hs _ Hc). lia.
  - destruct (l !! i) as [y|] eqn:Hy; [|apply lookup_ge_None in Hy; apply lookup_lt_Some in Hx; lia].
    rewrite (Hf y x) by (by eapply chain_pairs). rewrite (IH y eq_refl). apply lookup_lt_Some in Hx.
    rewrite u64_small; lia.
Qed.

Lemma chain_last_sequence (sequence : A -> Z) l x :
  (forall a, starts a = true -> sequence a = 1) ->
  (forall a b, follows a b = true -> sequence b = u64 (sequence a + 1)) ->
  len l <= max_u64 -> chain_after None l = Ok tt -> last l = Some x -> sequence x = len l.
Proof.
  intros Hs Hf Hlen Hc Hl. rewrite last_lookup in Hl. pose proof (lookup_lt_Some _ _ _ Hl).
  rewrite (chain_sequence sequence l (pred (length l)) x) by done. lia.
Qed.
End chain.
