(* ===== verification/ReconReadiness.v ===== *)
(** * Readiness and translation of proposals

    [internal/reconciler/readiness.go] and [translator.go]: when a failed component
    may be acted on, and the translation of a proposal into an acknowledgement and,
    for an accepted proposal that changes something, a plan. *)

From Stdlib Require Import ZArith Lia Ascii String.
From stdpp Require Import base strings list option sets gmap.
From S2P Require Import Prelude GoTime Metadata PolicyModel PolicyCanonical ReconContracts.

Open Scope string_scope.
Open Scope Z_scope.

Abbreviation RawComponentState := string (only parsing).
Definition RawHealthy : RawComponentState := "healthy".
Definition RawFailed : RawComponentState := "failed".
Definition RawMissing : RawComponentState := "missing".
Definition RawConflict : RawComponentState := "conflict".
Definition RawComponentState_Valid (value : RawComponentState) : bool :=
  contains_string [RawHealthy; RawFailed; RawMissing; RawConflict] value.

Module SnapshotBinding.
Record t := mk {
  BootID : UUID;
  BundleGeneration : Z;
  DomainPolicyGeneration : Z;
  ControlGeneration : Z;
  SnapshotGeneration : Z;
  SourceWatermark : Z
}.
#[global] Instance eq_dec : EqDecision t.
Proof. solve_decision. Defined.
End SnapshotBinding.

Module SourceEvidenceState.
Record t := mk {
  Fresh : bool;
  BaselineAvailable : bool;
  Gap : bool;
  Conflict : bool;
  Stale : bool
}.
#[global] Instance eq_dec : EqDecision t.
Proof. solve_decision. Defined.
End SourceEvidenceState.

Module RawComponentObservation.
Record t := mk {
  Target : string;
  State : RawComponentState;
  Reason : Reason;
  ConsecutiveFailures : Z;
  FailedDurationSeconds : Z;
  Owner : Domain;
  ObservedBinding : SnapshotBinding.t
}.
#[global] Instance eq_dec : EqDecision t.
Proof. solve_decision. Defined.
End RawComponentObservation.

Module ReadinessPolicy.
Record t := mk {
  CapabilityAllowed : bool;
  Suspended : bool;
  RequiredConsecutiveFailures : Z;
  RequiredFailureDurationSeconds : Z;
  BudgetRemaining : Z;
  CooldownRemainingSeconds : Z;
  BackoffRemainingSeconds : Z
}.
#[global] Instance eq_dec : EqDecision t.
Proof. solve_decision. Defined.
End ReadinessPolicy.

Module ReadinessInput.
Record t := mk {
  Target : string;
  CapabilityID : CapabilityID;
  Domain : Domain;
  ExpectedBinding : SnapshotBinding.t;
  SnapshotSHA256 : string;
  Source : SourceEvidenceState.t;
  Raw : RawComponentObservation.t;
  Policy : ReadinessPolicy.t
}.
#[global] Instance eq_dec : EqDecision t.
Proof. solve_decision. Defined.
End ReadinessInput.

Module RawProjection.
Record t := mk {
  Target : string;
  State : RawComponentState;
  Reason : Reason;
  ConsecutiveFailures : Z;
  FailedDurationSeconds : Z
}.
#[global] Instance eq_dec : EqDecision t.
Proof. solve_decision. Defined.
End RawProjection.

Module ReadinessEvaluation.
Record t := mk {
  Raw : RawProjection.t;
  Readiness : ReadinessRecord.t
}.
#[global] Instance eq_dec : EqDecision t.
Proof. solve_decision. Defined.
End ReadinessEvaluation.

Module ReadinessProjection.
Record t := mk {
  Target : string;
  RawComponent : RawProjection.t;
  ActionReadiness : ReadinessRecord.t
}.
#[global] Instance eq_dec : EqDecision t.
Proof. solve_decision. Defined.
End ReadinessProjection.

Definition SnapshotBinding_validate (b : SnapshotBinding.t) : result recon_error unit :=
  ensure (validUUID (SnapshotBinding.BootID b) && negb (SnapshotBinding.BundleGeneration b =? 0) &&
          negb (SnapshotBinding.DomainPolicyGeneration b =? 0) && negb (SnapshotBinding.ControlGeneration b =? 0) &&
          negb (SnapshotBinding.SnapshotGeneration b =? 0) && negb (SnapshotBinding.SourceWatermark b =? 0))
    ErrInvalidReadinessInput.

Definition SourceEvidenceState_validate (s : SourceEvidenceState.t) : result recon_error unit :=
  ensure (negb (negb (SourceEvidenceState.BaselineAvailable s) &&
                (SourceEvidenceState.Gap s || SourceEvidenceState.Conflict s))) ErrInvalidReadinessInput.

Definition RawComponentObservation_validate (r : RawComponentObservation.t) : result recon_error unit :=
  if negb (validIdentifier (RawComponentObservation.Target r)) ||
     negb (RawComponentState_Valid (RawComponentObservation.State r)) ||
     negb (Reason_Valid (RawComponentObservation.Reason r)) ||
     negb (Domain_Valid (RawComponentObservation.Owner r)) ||
     negb (is_ok (SnapshotBinding_validate (RawComponentObservation.ObservedBinding r)))
  then Err ErrInvalidReadinessInput
  else if String.eqb (RawComponentObservation.State r) RawHealthy &&
          (negb (RawComponentObservation.ConsecutiveFailures r =? 0) ||
           negb (RawComponentObservation.FailedDurationSeconds r =? 0))
  then Err ErrInvalidReadinessInput else Ok tt.

Definition ReadinessPolicy_validate (p : ReadinessPolicy.t) : result recon_error unit :=
  ensure (negb (ReadinessPolicy.RequiredConsecutiveFailures p =? 0) &&
          negb (ReadinessPolicy.RequiredFailureDurationSeconds p =? 0) &&
          negb (MaxRetryAfterSeconds <? ReadinessPolicy.CooldownRemainingSeconds p) &&
          negb (MaxRetryAfterSeconds <? ReadinessPolicy.BackoffRemainingSeconds p)) ErrInvalidReadinessInput.

Definition ReadinessInput_validate (i : ReadinessInput.t) : result recon_error unit :=
  ensure (validIdentifier (ReadinessInput.Target i) &&
          String.eqb (RawComponentObservation.Target (ReadinessInput.Raw i)) (ReadinessInput.Target i) &&
          capabilityIDPattern (ReadinessInput.CapabilityID i) &&
          negb (hasProductionFragment (ReadinessInput.CapabilityID i)) &&
          Domain_Valid (ReadinessInput.Domain i) &&
          is_ok (SnapshotBinding_validate (ReadinessInput.ExpectedBinding i)) &&
          validDigest (ReadinessInput.SnapshotSHA256 i) &&
          is_ok (SourceEvidenceState_validate (ReadinessInput.Source i)) &&
          is_ok (RawComponentObservation_validate (ReadinessInput.Raw i)) &&
          is_ok (ReadinessPolicy_validate (ReadinessInput.Policy i))) ErrInvalidReadinessInput.

Definition boundedRetry (value : Z) : Z :=
  if MaxRetryAfterSeconds <? value then MaxRetryAfterSeconds else value.

Definition evaluation (raw : RawProjection.t) (status : ReadinessStatus) (reason : Reason) (retry : RetryClass)
    (retryAfter : Z) : ReadinessEvaluation.t :=
  ReadinessEvaluation.mk raw (ReadinessRecord.mk (RawProjection.Target raw) status reason retry retryAfter).

Definition EvaluateReadiness (i : ReadinessInput.t) : result recon_error ReadinessEvaluation.t :=
  let r := ReadinessInput.Raw i in
  let p := ReadinessInput.Policy i in
  let s := ReadinessInput.Source i in
  if negb (is_ok (ReadinessInput_validate i)) then Err ErrInvalidReadinessInput
  else
    let raw := RawProjection.mk (RawComponentObservation.Target r) (RawComponentObservation.State r)
      (RawComponentObservation.Reason r) (RawComponentObservation.ConsecutiveFailures r)
      (RawComponentObservation.FailedDurationSeconds r) in
    Ok (
      if negb (ReadinessPolicy.CapabilityAllowed p) then evaluation raw ReadinessDenied ReasonPolicy RetryNever 0
      else if ReadinessPolicy.Suspended p then evaluation raw ReadinessDenied ReasonPolicy RetryNever 0
      else if negb (String.eqb (RawComponentObservation.Owner r) (ReadinessInput.Domain i))
      then evaluation raw ReadinessDenied ReasonOwnership RetryNever 0
      else if negb (bool_decide (RawComponentObservation.ObservedBinding r = ReadinessInput.ExpectedBinding i))
      then evaluation raw ReadinessDenied ReasonGeneration RetryNever 0
      else if negb (SourceEvidenceState.Fresh s) || negb (SourceEvidenceState.BaselineAvailable s) ||
              SourceEvidenceState.Stale s
      then evaluation raw ReadinessTemporarilyBlocked ReasonFreshness RetryAfterHint 60
      else if SourceEvidenceState.Gap s || SourceEvidenceState.Conflict s ||
              String.eqb (RawComponentObservation.State r) RawConflict
      then evaluation raw ReadinessTemporarilyBlocked ReasonLineage RetryAfterHint 60
      else if String.eqb (RawComponentObservation.State r) RawHealthy
      then evaluation raw ReadinessTemporarilyBlocked ReasonNoAction RetryAfterHint 60
      else if (RawComponentObservation.ConsecutiveFailures r <? ReadinessPolicy.RequiredConsecutiveFailures p) ||
              (RawComponentObservation.FailedDurationSeconds r <? ReadinessPolicy.RequiredFailureDurationSeconds p)
      then evaluation raw ReadinessTemporarilyBlocked ReasonThreshold RetryAfterHint 60
      else if ReadinessPolicy.BudgetRemaining p =? 0
      then evaluation raw ReadinessTemporarilyBlocked ReasonBudget RetryAfterHint 300
      else if 0 <? ReadinessPolicy.BackoffRemainingSeconds p
      then evaluation raw ReadinessTemporarilyBlocked ReasonBackoff RetryAfterHint
             (boundedRetry (ReadinessPolicy.BackoffRemainingSeconds p))
      else if 0 <? ReadinessPolicy.CooldownRemainingSeconds p
      then evaluation raw ReadinessTemporarilyBlocked ReasonCooldown RetryAfterHint
             (boundedRetry (ReadinessPolicy.CooldownRemainingSeconds p))
      else evaluation raw ReadinessReady ReasonAccepted RetryNone 0).

Definition ProjectReadiness (e : ReadinessEvaluation.t) : ReadinessProjection.t :=
  ReadinessProjection.mk (RawProjection.Target (ReadinessEvaluation.Raw e)) (ReadinessEvaluation.Raw e)
    (ReadinessEvaluation.Readiness e).

(** ** Translation *)

Module AdapterMetadata.
Record t := mk {
  ID : string;
  Version : string;
  SHA256 : string
}.
#[global] Instance eq_dec : EqDecision t.
Proof. solve_decision. Defined.
End AdapterMetadata.

Module ProposalBinding.
Record t := mk {
  RequestID : UUID;
  ActionID : UUID;
  Target : string;
  Domain : Domain;
  CapabilityID : CapabilityID;
  ProposalSHA256 : string;
  DiffSHA256 : string;
  SnapshotSHA256 : string;
  ReadinessSHA256 : string;
  SnapshotBinding : SnapshotBinding.t
}.
#[global] Instance eq_dec : EqDecision t.
Proof. solve_decision. Defined.
End ProposalBinding.

Module TranslationStep.
Record t := mk {
  ID : string;
  Operation : OperationClass;
  InputSHA256 : string;
  BeforeSHA256 : string;
  AppliedSHA256 : string;
  VerificationSHA256 : string;
  CompensationSHA256 : string
}.
#[global] Instance eq_dec : EqDecision t.
Proof. solve_decision. Defined.
End TranslationStep.

Module TranslationInput.
Record t := mk {
  DaemonDomain : Domain;
  Proposal : ProposalBinding.t;
  CurrentSnapshotBinding : SnapshotBinding.t;
  Readiness : ReadinessRecord.t;
  Registry : gmap string CapabilityDescriptor.t;
  Adapter : AdapterMetadata.t;
  SemanticNoop : bool;
  Steps : list TranslationStep.t
}.
End TranslationInput.

Module TranslationResult.
Record t := mk { Acknowledgement : AcknowledgementRecord.t; Plan : option ActionPlanRecord.t }.
#[global] Instance eq_dec : EqDecision t.
Proof. solve_decision. Defined.
End TranslationResult.

Definition operationAllowedForDomain (domain : Domain) (class : OperationClass) : bool :=
  if contains_string [OperationSyntheticNoop; OperationSyntheticState; OperationSyntheticCrashFixture] class
  then Domain_Valid domain
  else if contains_string [OperationSyntheticTunnelInterface; OperationSyntheticScopedRoute; OperationSyntheticDNS;
                           OperationSyntheticFirewall; OperationSyntheticProcess] class
  then String.eqb domain DomainRoot
  else if String.eqb class OperationSyntheticUserAccess then String.eqb domain DomainUser
  else false.

Definition ProposalBinding_validate (p : ProposalBinding.t) : result recon_error unit :=
  ensure (validUUID (ProposalBinding.RequestID p) && optional validUUID (ProposalBinding.ActionID p) &&
          validIdentifier (ProposalBinding.Target p) && Domain_Valid (ProposalBinding.Domain p) &&
          capabilityIDPattern (ProposalBinding.CapabilityID p) &&
          negb (hasProductionFragment (ProposalBinding.CapabilityID p)) &&
          validDigest (ProposalBinding.ProposalSHA256 p) && validDigest (ProposalBinding.DiffSHA256 p) &&
          validDigest (ProposalBinding.SnapshotSHA256 p) && validDigest (ProposalBinding.ReadinessSHA256 p) &&
          is_ok (SnapshotBinding_validate (ProposalBinding.SnapshotBinding p))) ErrInvalidTranslationInput.

Definition AdapterMetadata_validate (m : AdapterMetadata.t) : result recon_error unit :=
  ensure (adapterIDPattern (AdapterMetadata.ID m) && negb (hasProductionFragment (AdapterMetadata.ID m)) &&
          versionPattern (AdapterMetadata.Version m) && validDigest (AdapterMetadata.SHA256 m))
    ErrInvalidTranslationInput.

Definition validTranslationSteps (steps : list TranslationStep.t) : bool :=
  negb ((len steps =? 0) || (MaxPlanSteps <? len steps)) &&
  forallb (fun s => validIdentifier (TranslationStep.ID s) && OperationClass_Valid (TranslationStep.Operation s) &&
    validDigest (TranslationStep.InputSHA256 s) && validDigest (TranslationStep.BeforeSHA256 s) &&
    validDigest (TranslationStep.AppliedSHA256 s) && validDigest (TranslationStep.VerificationSHA256 s) &&
    validDigest (TranslationStep.CompensationSHA256 s)) steps &&
  distinct_strings (map TranslationStep.ID steps).

Definition operationClass (i : TranslationInput.t) : OperationClass :=
  match TranslationInput.Steps i with [] => "" | s :: _ => TranslationStep.Operation s end.

Definition denied (requestID : UUID) (reason : Reason) : TranslationResult.t :=
  let reason := if Reason_Valid reason then reason else ReasonSchema in
  TranslationResult.mk (AcknowledgementRecord.mk requestID AckDenied reason RetryNever 0 "" false) None.

Definition validateCommon (i : TranslationInput.t) : result recon_error unit :=
  ensure (is_ok (ProposalBinding_validate (TranslationInput.Proposal i)) &&
          Domain_Valid (TranslationInput.DaemonDomain i) &&
          is_ok (SnapshotBinding_validate (TranslationInput.CurrentSnapshotBinding i)) &&
          is_ok (ReadinessRecord_Validate (TranslationInput.Readiness i)) &&
          is_ok (AdapterMetadata_validate (TranslationInput.Adapter i)) &&
          SyntheticOnly (TranslationInput.Registry i)) ErrInvalidTranslationInput.

Definition with_PlanSHA256 (p : ActionPlanRecord.t) (digest : string) : ActionPlanRecord.t :=
  ActionPlanRecord.mk digest (ActionPlanRecord.Target p) (ActionPlanRecord.CapabilityID p)
    (ActionPlanRecord.AdapterVersion p) (ActionPlanRecord.AdapterSHA256 p) (ActionPlanRecord.ProposalSHA256 p)
    (ActionPlanRecord.DiffSHA256 p) (ActionPlanRecord.SnapshotSHA256 p) (ActionPlanRecord.ReadinessSHA256 p)
    (ActionPlanRecord.BundleGeneration p) (ActionPlanRecord.DomainPolicyGeneration p)
    (ActionPlanRecord.ControlGeneration p) (ActionPlanRecord.SnapshotGeneration p)
    (ActionPlanRecord.StepDigests p) (ActionPlanRecord.VerificationDigests p)
    (ActionPlanRecord.CompensationDigests p).

(** [text_digest]: SHA-256 of a text, in hexadecimal. *)
Section translate.
Context `{JSON} `{!Codec ActionPlanRecord.t} (text_digest : string -> string).

Definition actionPlanDigest (plan : ActionPlanRecord.t) : option string :=
  match CanonicalSHA256 (with_PlanSHA256 plan "") with Ok (digest, _) => Some digest | Err _ => None end.

Definition step_digest (s : TranslationStep.t) : string :=
  text_digest (TranslationStep.ID s ++ ":" ++ TranslationStep.InputSHA256 s ++ ":" ++
               TranslationStep.BeforeSHA256 s ++ ":" ++ TranslationStep.AppliedSHA256 s).

Definition buildActionPlan (i : TranslationInput.t) (descriptor : CapabilityDescriptor.t)
    : result recon_error ActionPlanRecord.t :=
  let p := TranslationInput.Proposal i in
  let b := ProposalBinding.SnapshotBinding p in
  let steps := TranslationInput.Steps i in
  if negb (forallb (fun s => String.eqb (TranslationStep.Operation s) (CapabilityDescriptor.OperationClass descriptor)) steps)
  then Err ErrInvalidTranslationInput
  else
    let plan := ActionPlanRecord.mk "" (ProposalBinding.Target p) (ProposalBinding.CapabilityID p)
      (AdapterMetadata.Version (TranslationInput.Adapter i)) (AdapterMetadata.SHA256 (TranslationInput.Adapter i))
      (ProposalBinding.ProposalSHA256 p) (ProposalBinding.DiffSHA256 p) (ProposalBinding.SnapshotSHA256 p)
      (ProposalBinding.ReadinessSHA256 p) (SnapshotBinding.BundleGeneration b)
      (SnapshotBinding.DomainPolicyGeneration b) (SnapshotBinding.ControlGeneration b)
      (SnapshotBinding.SnapshotGeneration b) (map step_digest steps)
      (map TranslationStep.VerificationSHA256 steps) (map TranslationStep.CompensationSHA256 steps) in
    match actionPlanDigest plan with
    | None => Err ErrInvalidTranslationInput
    | Some digest =>
        let plan' := with_PlanSHA256 plan digest in
        if negb (is_ok (ActionPlanRecord_Validate plan')) then Err ErrInvalidTranslationInput else Ok plan'
    end.

Definition TranslateProposal (i : TranslationInput.t) : result recon_error TranslationResult.t :=
  let p := TranslationInput.Proposal i in
  let request := ProposalBinding.RequestID p in
  let readiness := TranslationInput.Readiness i in
  if negb (is_ok (validateCommon i)) then Err ErrInvalidTranslationInput
  else if negb (String.eqb (ProposalBinding.Domain p) (TranslationInput.DaemonDomain i))
  then Ok (denied request ReasonOwnership)
  else match TranslationInput.Registry i !! ProposalBinding.CapabilityID p with
  | None => Ok (denied request ReasonCapability)
  | Some descriptor =>
      let class := CapabilityDescriptor.OperationClass descriptor in
      if negb (operationAllowedForDomain (TranslationInput.DaemonDomain i) class)
      then Ok (denied request ReasonOwnership)
      else if negb (String.eqb (CapabilityDescriptor.AdapterID descriptor) (AdapterMetadata.ID (TranslationInput.Adapter i))) ||
              (negb (TranslationInput.SemanticNoop i) && negb (String.eqb class (operationClass i)))
      then Ok (denied request ReasonCapability)
      else if negb (bool_decide (TranslationInput.CurrentSnapshotBinding i = ProposalBinding.SnapshotBinding p))
      then Ok (denied request ReasonGeneration)
      else if negb (String.eqb (ReadinessRecord.Target readiness) (ProposalBinding.Target p))
      then Ok (denied request ReasonTarget)
      else if String.eqb (ReadinessRecord.Status readiness) ReadinessDenied
      then Ok (denied request (ReadinessRecord.Reason readiness))
      else if String.eqb (ReadinessRecord.Status readiness) ReadinessTemporarilyBlocked
      then Ok (TranslationResult.mk (AcknowledgementRecord.mk request AckTemporarilyRejected
                 (ReadinessRecord.Reason readiness) RetryAfterHint (ReadinessRecord.RetryAfterSeconds readiness) "" false) None)
      else if TranslationInput.SemanticNoop i
      then Ok (TranslationResult.mk (AcknowledgementRecord.mk request AckAccepted ReasonNoAction RetryNone 0 "" true) None)
      else if negb (validUUID (ProposalBinding.ActionID p)) || negb (validTranslationSteps (TranslationInput.Steps i))
      then Err ErrInvalidTranslationInput
      else
        plan ← buildActionPlan i descriptor;
        Ok (TranslationResult.mk (AcknowledgementRecord.mk request AckAccepted ReasonAccepted RetryNone 0
              (ProposalBinding.ActionID p) false) (Some plan))
  end.

(** ** When a plan is built *)

Lemma readiness_status r : ReadinessRecord_Validate r = Ok tt ->
  ReadinessRecord.Status r = ReadinessReady \/ ReadinessRecord.Status r = ReadinessTemporarilyBlocked \/
  ReadinessRecord.Status r = ReadinessDenied.
Proof.
  unfold ReadinessRecord_Validate, accept. intros Hv. inv_bind. bool_prop.
  match goal with Hs : ReadinessStatus_Valid _ = true |- _ => apply contains_string_spec in Hs; set_unfold in Hs end.
  naive_solver.
Qed.

(** Every condition under which a failed component may be acted on. *)
Definition ready (i : ReadinessInput.t) : Prop :=
  let r := ReadinessInput.Raw i in
  let p := ReadinessInput.Policy i in
  let s := ReadinessInput.Source i in
  ReadinessPolicy.CapabilityAllowed p = true /\ ReadinessPolicy.Suspended p = false /\
  RawComponentObservation.Owner r = ReadinessInput.Domain i /\
  RawComponentObservation.ObservedBinding r = ReadinessInput.ExpectedBinding i /\
  (SourceEvidenceState.Fresh s = true /\ SourceEvidenceState.BaselineAvailable s = true /\
   SourceEvidenceState.Stale s = false /\ SourceEvidenceState.Gap s = false /\ SourceEvidenceState.Conflict s = false) /\
  RawComponentObservation.State r ∈ [RawFailed; RawMissing] /\
  ReadinessPolicy.RequiredConsecutiveFailures p <= RawComponentObservation.ConsecutiveFailures r /\
  ReadinessPolicy.RequiredFailureDurationSeconds p <= RawComponentObservation.FailedDurationSeconds r /\
  ReadinessPolicy.BudgetRemaining p <> 0 /\ ReadinessPolicy.BackoffRemainingSeconds p <= 0 /\
  ReadinessPolicy.CooldownRemainingSeconds p <= 0.

Lemma evaluated_ready i e : EvaluateReadiness i = Ok e ->
  ReadinessRecord.Status (ReadinessEvaluation.Readiness e) = ReadinessReady ->
  ReadinessInput_validate i = Ok tt /\ ready i /\
  ReadinessRecord.Target (ReadinessEvaluation.Readiness e) = ReadinessInput.Target i.
Proof.
  unfold EvaluateReadiness. intros He Hs. destruct (negb _) eqn:Hv; [done|]. injection He as <-.
  apply negb_false_iff, is_ok_unit in Hv. split; [done|].
  pose proof Hv as Hvalid. unfold ReadinessInput_validate in Hv. inv_bind. bool_prop.
  match goal with Hraw : is_ok (RawComponentObservation_validate _) = true |- _ => apply is_ok_unit in Hraw; rename Hraw into Hr end.
  unfold RawComponentObservation_validate in Hr. inv_result. bool_prop.
  match goal with Hst : RawComponentState_Valid _ = true |- _ => apply contains_string_spec in Hst; rename Hst into Hstate end.
  repeat match type of Hs with context [if ?b then _ else _] => destruct b eqn:?; [discriminate Hs|] end.
  bool_prop. split; [|done]. unfold ready. repeat split; try assumption; try lia.
  set_unfold. naive_solver.
Qed.

Lemma actionPlanDigest_ignores plan digest :
  actionPlanDigest (with_PlanSHA256 plan digest) = actionPlanDigest plan.
Proof. done. Qed.

(** A built plan names its own digest and copies the proposal. *)
Lemma buildActionPlan_Ok i descriptor plan : buildActionPlan i descriptor = Ok plan ->
  let p := TranslationInput.Proposal i in
  (forall s, s ∈ TranslationInput.Steps i ->
    TranslationStep.Operation s = CapabilityDescriptor.OperationClass descriptor) /\
  actionPlanDigest plan = Some (ActionPlanRecord.PlanSHA256 plan) /\ ActionPlanRecord_Validate plan = Ok tt /\
  ActionPlanRecord.Target plan = ProposalBinding.Target p /\
  ActionPlanRecord.CapabilityID plan = ProposalBinding.CapabilityID p /\
  ActionPlanRecord.ProposalSHA256 plan = ProposalBinding.ProposalSHA256 p /\
  ActionPlanRecord.StepDigests plan = map step_digest (TranslationInput.Steps i) /\
  ActionPlanRecord.CompensationDigests plan = map TranslationStep.CompensationSHA256 (TranslationInput.Steps i) /\
  SnapshotBinding.SnapshotGeneration (ProposalBinding.SnapshotBinding p) = ActionPlanRecord.SnapshotGeneration plan.
Proof.
  unfold buildActionPlan. intros Hb. destruct (negb _) eqn:Hsteps; [done|].
  destruct (actionPlanDigest _) as [digest|] eqn:Hd; [|done]. destruct (negb (is_ok _)) eqn:Hv; [done|].
  injection Hb as <-. split; [|split; [exact Hd|]].
  - intros s Hs. apply negb_false_iff in Hsteps. rewrite forallb_forall in Hsteps.
    apply String.eqb_eq, Hsteps. by apply list_elem_of_In.
  - apply negb_false_iff, is_ok_unit in Hv. done.
Qed.

(** A plan exists only for a proposal that may run. When the translation of a
    proposal yields a plan, and the readiness it used was evaluated for the proposal's
    domain, then the component really is failed past its thresholds with fresh and
    gapless evidence, within budget and outside backoff and cooldown; the daemon owns
    the domain; the capability is registered for an operation the domain may perform
    and every step is of that operation; the proposal was made against the current
    snapshot; and the plan is valid, carries the digest of its own contents and is the
    one acknowledged. *)
Theorem plan_only_when_ready i ri e answer plan :
  TranslateProposal i = Ok answer -> TranslationResult.Plan answer = Some plan ->
  EvaluateReadiness ri = Ok e -> TranslationInput.Readiness i = ReadinessEvaluation.Readiness e ->
  let p := TranslationInput.Proposal i in
  ready ri /\ ReadinessInput.Target ri = ProposalBinding.Target p /\
  ProposalBinding.Domain p = TranslationInput.DaemonDomain i /\
  TranslationInput.CurrentSnapshotBinding i = ProposalBinding.SnapshotBinding p /\
  (exists descriptor, TranslationInput.Registry i !! ProposalBinding.CapabilityID p = Some descriptor /\
    operationAllowedForDomain (TranslationInput.DaemonDomain i) (CapabilityDescriptor.OperationClass descriptor) = true /\
    forall s, s ∈ TranslationInput.Steps i ->
      TranslationStep.Operation s = CapabilityDescriptor.OperationClass descriptor) /\
  1 <= len (TranslationInput.Steps i) <= MaxPlanSteps /\
  ActionPlanRecord_Validate plan = Ok tt /\ actionPlanDigest plan = Some (ActionPlanRecord.PlanSHA256 plan) /\
  ActionPlanRecord.StepDigests plan = map step_digest (TranslationInput.Steps i) /\
  AcknowledgementRecord.Class (TranslationResult.Acknowledgement answer) = AckAccepted /\
  AcknowledgementRecord.ActionID (TranslationResult.Acknowledgement answer) = ProposalBinding.ActionID p.
Proof.
  intros Ht Hp He Hr p. unfold TranslateProposal in Ht. fold p in Ht.
  destruct (negb (is_ok (validateCommon i))) eqn:Hcommon; [done|].
  destruct (negb (String.eqb (ProposalBinding.Domain p) _)) eqn:Hdomain; [by injection Ht as <-|].
  destruct (TranslationInput.Registry i !! _) as [descriptor|] eqn:Hreg; [|by injection Ht as <-].
  destruct (negb (operationAllowedForDomain _ _)) eqn:Hallowed; [by injection Ht as <-|].
  destruct (_ || _) eqn:Hadapter in Ht; [by injection Ht as <-|].
  destruct (negb (bool_decide _)) eqn:Hbinding in Ht; [by injection Ht as <-|].
  destruct (negb (String.eqb (ReadinessRecord.Target _) _)) eqn:Htarget in Ht; [by injection Ht as <-|].
  destruct (String.eqb _ ReadinessDenied) eqn:Hdenied in Ht; [by injection Ht as <-|].
  destruct (String.eqb _ ReadinessTemporarilyBlocked) eqn:Hblocked in Ht; [by injection Ht as <-|].
  destruct (TranslationInput.SemanticNoop i) eqn:Hnoop in Ht; [by injection Ht as <-|].
  destruct (_ || _) eqn:Hsteps in Ht; [done|]. apply bind_Ok in Ht as (built & Hbuilt & Ht).
  injection Ht as <-. injection Hp as ->. bool_prop.
  destruct (buildActionPlan_Ok _ _ _ Hbuilt) as (Hops & Hd & Hv & _ & _ & _ & Hsd & _).
  assert (ReadinessRecord.Status (TranslationInput.Readiness i) = ReadinessReady) as Hstatus.
  { match goal with Hc : is_ok (validateCommon i) = true |- _ => apply is_ok_unit in Hc; unfold validateCommon in Hc end.
    inv_bind. bool_prop.
    match goal with Hc : is_ok (ReadinessRecord_Validate _) = true |- _ =>
      apply is_ok_unit in Hc; by apply readiness_status in Hc as [|[]] end. }
  rewrite Hr in Hstatus. destruct (evaluated_ready ri e He Hstatus) as (_ & Hready & Htgt).
  match goal with Hc : validTranslationSteps _ = true |- _ => unfold validTranslationSteps in Hc end.
  bool_prop. rewrite Hr in *.
  split; [done|]. split; [congruence|]. split; [done|]. split; [done|]. split; [by exists descriptor|].
  split; [lia|]. done.
Qed.
End translate.

(** ** A failed component and the plan for it *)
Module TranslateSample.
Import SampleDigest.

#[export] Instance sample_json : JSON := json.

Definition plan_texts (p : ActionPlanRecord.t) : list string :=
  (ActionPlanRecord.PlanSHA256 p :: ActionPlanRecord.Target p :: ActionPlanRecord.CapabilityID p ::
   ActionPlanRecord.AdapterVersion p :: number (ActionPlanRecord.SnapshotGeneration p) ::
   ActionPlanRecord.StepDigests p)%list.

#[export] Instance plan_codec : Codec ActionPlanRecord.t := texts_codec plan_texts.

Definition text_digest (s : string) : string := hash [s].
Definition digest (c : ascii) : string := of_chars (replicate 64 c).
Definition binding : SnapshotBinding.t := SnapshotBinding.mk "33333333-3333-4333-8333-333333333333" 4 3 2 9 7.

Definition observed : RawComponentObservation.t :=
  RawComponentObservation.mk "synthetic.target" RawFailed ReasonVerification 5 120 DomainUser binding.

Definition readiness_input : ReadinessInput.t :=
  ReadinessInput.mk "synthetic.target" CapabilitySyntheticMemory DomainUser binding (digest "a")
    (SourceEvidenceState.mk true true false false false) observed (ReadinessPolicy.mk true false 3 60 2 0 0).

Definition evaluated : ReadinessEvaluation.t :=
  evaluation (RawProjection.mk "synthetic.target" RawFailed ReasonVerification 5 120)
    ReadinessReady ReasonAccepted RetryNone 0.

Definition proposal : ProposalBinding.t :=
  ProposalBinding.mk "6d2f0a51-0b7e-4c1f-9a2d-0123456789ab" "11111111-1111-4111-8111-111111111111"
    "synthetic.target" DomainUser CapabilitySyntheticMemory (digest "a") (digest "b") (digest "c") (digest "d") binding.

Definition registry : gmap string CapabilityDescriptor.t :=
  {[ CapabilitySyntheticMemory := CapabilityDescriptor.mk CapabilitySyntheticMemory "synthetic.adapter.memory" OperationSyntheticState ]}.

Definition input : TranslationInput.t :=
  TranslationInput.mk DomainUser proposal binding (ReadinessEvaluation.Readiness evaluated) registry
    (AdapterMetadata.mk "synthetic.adapter.memory" "v1" (digest "e")) false
    [TranslationStep.mk "synthetic.stepa" OperationSyntheticState (digest "a") (digest "b") (digest "c") (digest "d") (digest "e")].

Definition translated : result recon_error TranslationResult.t :=
  Eval vm_compute in TranslateProposal text_digest input.

Definition no_plan : ActionPlanRecord.t := ActionPlanRecord.mk "" "" "" "" "" "" "" "" "" 0 0 0 0 [] [] [].
Definition planned : TranslationResult.t :=
  match translated with Ok r => r | Err _ => denied "" "" end.
Definition plan : ActionPlanRecord.t := match TranslationResult.Plan planned with Some p => p | None => no_plan end.

Lemma plan_only_when_ready_witness :
  ready readiness_input /\ ActionPlanRecord_Validate plan = Ok tt.
Proof.
  destruct (plan_only_when_ready text_digest input readiness_input evaluated planned plan)
    as (Hr & _ & _ & _ & _ & _ & Hv & _);
    [vm_compute; reflexivity|reflexivity|vm_compute; reflexivity|reflexivity|exact (conj Hr Hv)].
Defined.
End TranslateSample.
