(* ===== verification/ReconJournal.v ===== *)
(** * Attempt journals

    [internal/reconciler/attempt_journal.go]: the journal of an action's attempt, in
    memory and in an append-only file, and the classification of an attempt found at
    startup. Both journals keep, for each action, the entries of its single attempt;
    an entry may only be appended by a compare-and-swap along the transition table.

    A file is its bytes. The file system is described by the outcome of each append:
    the open may fail, the write may stop after any number of bytes, with or without
    an error, and the sync may fail. *)

From Stdlib Require Import ZArith Lia Ascii String.
From stdpp Require Import base strings list option sets gmap.
From S2P Require Import Prelude Metadata PolicyModel PolicyValidate PolicyCanonical ReconContracts.

Open Scope string_scope.
Open Scope Z_scope.

(** ** Data *)

Module AttemptBinding.
Record t := mk {
  ActionID : UUID;
  AttemptID : UUID;
  Nonce : UUID;
  Domain : Domain;
  Target : string;
  BootID : UUID;
  BundleGeneration : Z;
  DomainPolicyGeneration : Z;
  ControlGeneration : Z;
  SnapshotGeneration : Z;
  PlanSHA256 : string
}.
#[global] Instance eq_dec : EqDecision t.
Proof. solve_decision. Defined.
End AttemptBinding.

Module AttemptJournalEntry.
Record t := mk {
  Sequence : Z;
  Previous : AttemptState;
  Attempt : AttemptRecord.t;
  Binding : AttemptBinding.t;
  Reason : Reason;
  EntrySHA256 : string
}.
#[global] Instance eq_dec : EqDecision t.
Proof. solve_decision. Defined.
End AttemptJournalEntry.

Module attemptJournalDigestInput.
Record t := mk {
  Sequence : Z;
  Previous : AttemptState;
  Attempt : AttemptRecord.t;
  Binding : AttemptBinding.t;
  Reason : Reason
}.
End attemptJournalDigestInput.

Abbreviation Entry := AttemptJournalEntry.t (only parsing).
Abbreviation entry_state e := (AttemptRecord.State (AttemptJournalEntry.Attempt e)).

(** The map of [MemoryAttemptJournal]; also what the file journal reads back. *)
Abbreviation Records := (gmap UUID (list AttemptJournalEntry.t)).

Abbreviation TargetRecoveryState := string (only parsing).
Definition TargetUntouched : TargetRecoveryState := "untouched".
Definition TargetExactlyOwnedApplied : TargetRecoveryState := "exactly_owned_applied".
Definition TargetUncertain : TargetRecoveryState := "uncertain".
Definition TargetRecoveryState_Valid (state : TargetRecoveryState) : bool :=
  contains_string [TargetUntouched; TargetExactlyOwnedApplied; TargetUncertain] state.

Abbreviation StartupRecoveryClass := string (only parsing).
Definition RecoveryTerminal : StartupRecoveryClass := "terminal".
Definition RecoveryUntouched : StartupRecoveryClass := "untouched".
Definition RecoveryVerifyOwned : StartupRecoveryClass := "verify_owned".
Definition RecoverySafeMode : StartupRecoveryClass := "safe_mode".
Definition RecoveryBlocked : StartupRecoveryClass := "blocked".

Module StartupObservation.
Record t := mk { BootID : UUID; AttemptID : UUID; TargetState : TargetRecoveryState }.
End StartupObservation.

Module StartupRecovery.
Record t := mk { Class : StartupRecoveryClass; Reason : Reason; CanAutoRun : bool }.
End StartupRecovery.

(** ** The transition table *)

Definition terminalAttemptState (state : AttemptState) : bool :=
  contains_string [AttemptCommitted; AttemptExpired; AttemptDenied; AttemptCancelled; AttemptRolledBack;
                   AttemptFailed; AttemptSafeMode] state.

Definition allowedAttemptTransition (from to : AttemptState) : bool :=
  if terminalAttemptState from then false
  else if String.eqb from AttemptPending then
    contains_string [AttemptClaimed; AttemptExpired; AttemptDenied; AttemptCancelled] to
  else if String.eqb from AttemptClaimed then
    contains_string [AttemptRunning; AttemptExpired; AttemptDenied; AttemptCancelled; AttemptSafeMode] to
  else if String.eqb from AttemptRunning then
    contains_string [AttemptVerifying; AttemptCancelled; AttemptRolledBack; AttemptFailed; AttemptSafeMode] to
  else if String.eqb from AttemptVerifying then
    contains_string [AttemptCommitted; AttemptCancelled; AttemptRolledBack; AttemptFailed; AttemptSafeMode] to
  else false.

(** How far along an attempt is; every transition of the table advances it. *)
Definition progress (state : AttemptState) : Z :=
  if terminalAttemptState state then 4
  else if String.eqb state AttemptPending then 0
  else if String.eqb state AttemptClaimed then 1
  else if String.eqb state AttemptRunning then 2
  else if String.eqb state AttemptVerifying then 3
  else 0.

Lemma transition_advances from to : allowedAttemptTransition from to = true ->
  terminalAttemptState from = false /\ progress from < progress to <= 4.
Proof.
  unfold allowedAttemptTransition. intros Ht. inv_result; try done; bool_prop; subst;
  (split; [done|]);
  apply contains_string_spec in Ht; set_unfold in Ht; destruct_or?; subst; vm_compute; split; congruence.
Qed.

(** ** Validation *)

Definition AttemptBinding_validate (b : AttemptBinding.t) : result recon_error unit :=
  ensure (validUUID (AttemptBinding.ActionID b) && validUUID (AttemptBinding.AttemptID b) &&
          validUUID (AttemptBinding.Nonce b) && Domain_Valid (AttemptBinding.Domain b) &&
          validIdentifier (AttemptBinding.Target b) && validUUID (AttemptBinding.BootID b) &&
          negb (AttemptBinding.BundleGeneration b =? 0) && negb (AttemptBinding.DomainPolicyGeneration b =? 0) &&
          negb (AttemptBinding.ControlGeneration b =? 0) && negb (AttemptBinding.SnapshotGeneration b =? 0) &&
          validDigest (AttemptBinding.PlanSHA256 b) &&
          negb (String.eqb (AttemptBinding.ActionID b) (AttemptBinding.AttemptID b)) &&
          negb (String.eqb (AttemptBinding.ActionID b) (AttemptBinding.Nonce b)) &&
          negb (String.eqb (AttemptBinding.AttemptID b) (AttemptBinding.Nonce b))) ErrAttemptJournal.

Definition StartupObservation_validate (o : StartupObservation.t) : result recon_error unit :=
  ensure (validUUID (StartupObservation.BootID o) && validUUID (StartupObservation.AttemptID o) &&
          TargetRecoveryState_Valid (StartupObservation.TargetState o)) ErrAttemptJournal.

Definition AttemptBindingFromLeaseClaim (lease : ActionLease.t) (claim : ActionLeaseExecutionClaim.t)
    (snapshotGeneration : Z) : result recon_error AttemptBinding.t :=
  if negb (is_ok (ActionLease_Validate lease)) || negb (is_ok (ActionLeaseExecutionClaim_Validate claim)) ||
     (snapshotGeneration =? 0) ||
     negb (String.eqb (ActionLease.ActionID lease) (ActionLeaseExecutionClaim.ActionID claim)) ||
     negb (String.eqb (ActionLease.Domain lease) (ActionLeaseExecutionClaim.Domain claim)) ||
     negb (String.eqb (ActionLease.Nonce lease) (ActionLeaseExecutionClaim.Nonce claim)) ||
     negb (String.eqb (ActionLease.BootID lease) (ActionLeaseExecutionClaim.BootID claim))
  then Err ErrAttemptJournal
  else
    let binding := AttemptBinding.mk (ActionLease.ActionID lease) (ActionLeaseExecutionClaim.AttemptID claim)
      (ActionLease.Nonce lease) (ActionLease.Domain lease) (ActionLease.Target lease) (ActionLease.BootID lease)
      (ActionLease.BundleGeneration lease) (ActionLease.DomainPolicyGeneration lease)
      (ActionLease.ControlStateGeneration lease) snapshotGeneration (ActionLease.PlanSHA256 lease) in
    if negb (is_ok (AttemptBinding_validate binding)) then Err ErrAttemptJournal else Ok binding.

(** ** Entries *)

Section journal.
Context `{JSON} `{!Codec attemptJournalDigestInput.t}.

Definition attemptJournalEntryDigest (e : Entry) : result recon_error string :=
  if (AttemptJournalEntry.Sequence e =? 0) || negb (Reason_Valid (AttemptJournalEntry.Reason e)) ||
     negb (is_ok (AttemptRecord_Validate (AttemptJournalEntry.Attempt e))) ||
     negb (is_ok (AttemptBinding_validate (AttemptJournalEntry.Binding e)))
  then Err ErrAttemptJournal
  else match MarshalCanonical (attemptJournalDigestInput.mk (AttemptJournalEntry.Sequence e)
               (AttemptJournalEntry.Previous e) (AttemptJournalEntry.Attempt e) (AttemptJournalEntry.Binding e)
               (AttemptJournalEntry.Reason e)) with
       | Err _ => Err ErrAttemptJournal
       | Ok encoded => Ok (SHA256Hex encoded)
       end.

Definition AttemptJournalEntry_validate (e : Entry) : result recon_error unit :=
  let a := AttemptJournalEntry.Attempt e in
  let b := AttemptJournalEntry.Binding e in
  let previous := AttemptJournalEntry.Previous e in
  if (AttemptJournalEntry.Sequence e =? 0) || negb (is_ok (AttemptRecord_Validate a)) ||
     negb (is_ok (AttemptBinding_validate b)) || negb (Reason_Valid (AttemptJournalEntry.Reason e)) ||
     negb (validDigest (AttemptJournalEntry.EntrySHA256 e)) ||
     negb (String.eqb (AttemptRecord.ActionID a) (AttemptBinding.ActionID b)) ||
     negb (String.eqb (AttemptRecord.AttemptID a) (AttemptBinding.AttemptID b)) ||
     negb (String.eqb (AttemptRecord.Nonce a) (AttemptBinding.Nonce b)) ||
     negb (String.eqb (AttemptRecord.PlanSHA256 a) (AttemptBinding.PlanSHA256 b))
  then Err ErrAttemptJournal
  else if negb (String.eqb previous "") && negb (AttemptState_Valid previous) then Err ErrAttemptJournal
  else match attemptJournalEntryDigest e with
       | Err _ => Err ErrAttemptJournal
       | Ok digest => ensure (String.eqb digest (AttemptJournalEntry.EntrySHA256 e)) ErrAttemptJournal
       end.

Definition newAttemptJournalEntry (sequence : Z) (previous state : AttemptState) (b : AttemptBinding.t)
    (reason : Reason) : result recon_error Entry :=
  let entry := AttemptJournalEntry.mk sequence previous
    (AttemptRecord.mk (AttemptBinding.ActionID b) (AttemptBinding.AttemptID b) (AttemptBinding.Nonce b) state
       (AttemptBinding.PlanSHA256 b)) b reason in
  digest ← attemptJournalEntryDigest (entry "");
  if negb (is_ok (AttemptJournalEntry_validate (entry digest))) then Err ErrAttemptJournal else Ok (entry digest).

Definition follows (previous e : Entry) : bool :=
  let a := AttemptJournalEntry.Attempt e in
  let a' := AttemptJournalEntry.Attempt previous in
  (AttemptJournalEntry.Sequence e =? u64 (AttemptJournalEntry.Sequence previous + 1)) &&
  String.eqb (AttemptJournalEntry.Previous e) (AttemptRecord.State a') &&
  bool_decide (AttemptJournalEntry.Binding e = AttemptJournalEntry.Binding previous) &&
  String.eqb (AttemptRecord.ActionID a) (AttemptRecord.ActionID a') &&
  String.eqb (AttemptRecord.AttemptID a) (AttemptRecord.AttemptID a') &&
  String.eqb (AttemptRecord.Nonce a) (AttemptRecord.Nonce a') &&
  String.eqb (AttemptRecord.PlanSHA256 a) (AttemptRecord.PlanSHA256 a').

Definition starts (e : Entry) : bool :=
  (AttemptJournalEntry.Sequence e =? 1) && String.eqb (AttemptJournalEntry.Previous e) "" &&
  String.eqb (entry_state e) AttemptPending.

Definition verifyAttemptEntries (entries : list Entry) : result recon_error unit :=
  chain_after ErrAttemptJournalTamper (fun e => is_ok (AttemptJournalEntry_validate e)) starts follows None entries.

Definition ClassifyStartupAttempt (e : Entry) (o : StartupObservation.t) : result recon_error StartupRecovery.t :=
  let b := AttemptJournalEntry.Binding e in
  if negb (is_ok (AttemptJournalEntry_validate e)) || negb (is_ok (StartupObservation_validate o))
  then Err ErrAttemptJournal
  else if terminalAttemptState (entry_state e)
  then Ok (StartupRecovery.mk RecoveryTerminal (AttemptJournalEntry.Reason e) false)
  else if negb (String.eqb (StartupObservation.BootID o) (AttemptBinding.BootID b))
  then Ok (StartupRecovery.mk RecoveryBlocked ReasonGeneration false)
  else if negb (String.eqb (StartupObservation.AttemptID o) (AttemptBinding.AttemptID b))
  then Ok (StartupRecovery.mk RecoveryBlocked ReasonOwnership false)
  else if String.eqb (StartupObservation.TargetState o) TargetUntouched
  then Ok (StartupRecovery.mk RecoveryUntouched ReasonAccepted false)
  else if String.eqb (StartupObservation.TargetState o) TargetExactlyOwnedApplied
  then Ok (StartupRecovery.mk RecoveryVerifyOwned ReasonVerification false)
  else if String.eqb (StartupObservation.TargetState o) TargetUncertain
  then Ok (StartupRecovery.mk RecoverySafeMode ReasonSafeMode false)
  else Err ErrAttemptJournal.

(** ** The two journals *)

(** The argument checks both implementations share. *)
Definition append_allowed (b : AttemptBinding.t) (reason : Reason) : bool :=
  is_ok (AttemptBinding_validate b) && Reason_Valid reason.

Definition swap_allowed (b : AttemptBinding.t) (from to : AttemptState) (reason : Reason) : bool :=
  is_ok (AttemptBinding_validate b) && AttemptState_Valid from && AttemptState_Valid to && Reason_Valid reason.

Definition entries_of (records : Records) (actionID : UUID) : list Entry := default [] (records !! actionID).

Definition Memory_AppendPending (j : Records) (b : AttemptBinding.t) (reason : Reason)
    : Records * result recon_error Entry :=
  if negb (append_allowed b reason) then (j, Err ErrAttemptJournal)
  else match j !! AttemptBinding.ActionID b with
       | Some _ => (j, Err ErrAttemptCAS)
       | None =>
           match newAttemptJournalEntry 1 "" AttemptPending b reason with
           | Err e => (j, Err e)
           | Ok entry => (<[AttemptBinding.ActionID b := [entry]]> j, Ok entry)
           end
       end.

Definition Memory_CompareAndSwap (j : Records) (b : AttemptBinding.t) (from to : AttemptState) (reason : Reason)
    : Records * result recon_error Entry :=
  if negb (swap_allowed b from to reason) then (j, Err ErrAttemptJournal)
  else if negb (allowedAttemptTransition from to) then (j, Err ErrAttemptTransition)
  else
    let entries := entries_of j (AttemptBinding.ActionID b) in
    match last entries with
    | None => (j, Err ErrAttemptCAS)
    | Some latest =>
        match verifyAttemptEntries entries with
        | Err e => (j, Err e)
        | Ok _ =>
            if negb (String.eqb (entry_state latest) from) then (j, Err ErrAttemptCAS)
            else if negb (bool_decide (AttemptJournalEntry.Binding latest = b)) then (j, Err ErrAttemptImmutable)
            else match newAttemptJournalEntry (u64 (AttemptJournalEntry.Sequence latest + 1)) from to b reason with
                 | Err e => (j, Err e)
                 | Ok entry => (<[AttemptBinding.ActionID b := (entries ++ [entry])%list]> j, Ok entry)
                 end
        end
    end.

Definition Memory_Latest (j : Records) (actionID : UUID) : result recon_error (option Entry) :=
  if negb (validUUID actionID) then Err ErrAttemptJournal
  else
    let entries := entries_of j actionID in
    match last entries with
    | None => Ok None
    | Some latest => _ ← verifyAttemptEntries entries; Ok (Some latest)
    end.

Definition Memory_Entries (j : Records) (actionID : UUID) : result recon_error (list Entry) :=
  if negb (validUUID actionID) then Err ErrAttemptJournal
  else
    let entries := entries_of j actionID in
    if 0 <? len entries then _ ← verifyAttemptEntries entries; Ok entries else Ok entries.

(** ** The file journal *)

(** How the file system answers one append. *)
Inductive write_outcome :=
| OpenFails
| Written (count : nat) (failed synced : bool).

(** [contents] of the file at [path], and the answers of the file system to come; it
    serves every request once the list is used up. *)
Record FileJournal := mkFile { contents : list ascii; disk : list write_outcome }.

Context (doc_bytes : Doc -> list ascii) (bytes_doc : list ascii -> Doc) `{!Codec AttemptJournalEntry.t}.

Definition newline : ascii := ascii_of_nat 10.

Definition load_line (records : Records) (line : list ascii) : result recon_error Records :=
  if bool_decide (line = []) then Err ErrAttemptJournalTamper
  else
    let text := bytes_doc line in
    match Canonicalize text with
    | Err _ => Err ErrAttemptJournalTamper
    | Ok canonical =>
        if negb (bool_decide (canonical = text)) then Err ErrAttemptJournalTamper
        else match strictJSONDecode text with
             | None => Err ErrAttemptJournalTamper
             | Some entry =>
                 if negb (is_ok (AttemptJournalEntry_validate entry)) then Err ErrAttemptJournalTamper
                 else
                   let actionID := AttemptRecord.ActionID (AttemptJournalEntry.Attempt entry) in
                   Ok (<[actionID := (entries_of records actionID ++ [entry])%list]> records)
             end
    end.

Fixpoint load_lines (records : Records) (lines : list (list ascii)) : result recon_error Records :=
  match lines with
  | [] => Ok records
  | line :: rest => records' ← load_line records line; load_lines records' rest
  end.

(** The only error of [verifyAttemptEntries] is the tamper error, so the order in which
    the map is walked does not show. *)
Definition verified (records : Records) : bool :=
  bool_decide (map_Forall (fun _ entries => verifyAttemptEntries entries = Ok tt) records).

Definition loadEntries (encoded : list ascii) : result recon_error Records :=
  match last encoded with
  | None => Ok ∅
  | Some final =>
      if negb (Ascii.eqb final newline) then Err ErrAttemptJournalTamper
      else
        records ← load_lines ∅ (split_on newline (removelast encoded));
        if verified records then Ok records else Err ErrAttemptJournalTamper
  end.

Definition entry_line (encoded : Doc) : list ascii := (doc_bytes encoded ++ [newline])%list.

Definition appendEntry (j : FileJournal) (entry : Entry) : FileJournal * result recon_error unit :=
  match MarshalCanonical entry with
  | Err _ => (j, Err ErrAttemptJournal)
  | Ok encoded =>
      let line := entry_line encoded in
      match disk j with
      | OpenFails :: answers => (mkFile (contents j) answers, Err ErrIO)
      | Written count failed synced :: answers =>
          let j' := mkFile (contents j ++ take count line)%list answers in
          if failed then (j', Err ErrIO)
          else if (count <? length line)%nat then (j', Err ErrAttemptJournal)
          else (j', if synced then Ok tt else Err ErrIO)
      | [] => (mkFile (contents j ++ line)%list [], Ok tt)
      end
  end.

(** [appendEntry] and the return of the entry. *)
Definition store_entry (j : FileJournal) (made : result recon_error Entry) : FileJournal * result recon_error Entry :=
  match made with
  | Err e => (j, Err e)
  | Ok entry =>
      match appendEntry j entry with
      | (j', Err e) => (j', Err e)
      | (j', Ok _) => (j', Ok entry)
      end
  end.

Definition File_AppendPending (j : FileJournal) (b : AttemptBinding.t) (reason : Reason)
    : FileJournal * result recon_error Entry :=
  if negb (append_allowed b reason) then (j, Err ErrAttemptJournal)
  else match loadEntries (contents j) with
       | Err e => (j, Err e)
       | Ok records =>
           match records !! AttemptBinding.ActionID b with
           | Some _ => (j, Err ErrAttemptCAS)
           | None => store_entry j (newAttemptJournalEntry 1 "" AttemptPending b reason)
           end
       end.

Definition File_CompareAndSwap (j : FileJournal) (b : AttemptBinding.t) (from to : AttemptState) (reason : Reason)
    : FileJournal * result recon_error Entry :=
  if negb (swap_allowed b from to reason) then (j, Err ErrAttemptJournal)
  else if negb (allowedAttemptTransition from to) then (j, Err ErrAttemptTransition)
  else match loadEntries (contents j) with
       | Err e => (j, Err e)
       | Ok records =>
           match last (entries_of records (AttemptBinding.ActionID b)) with
           | None => (j, Err ErrAttemptCAS)
           | Some latest =>
               if negb (String.eqb (entry_state latest) from) then (j, Err ErrAttemptCAS)
               else if negb (bool_decide (AttemptJournalEntry.Binding latest = b)) then (j, Err ErrAttemptImmutable)
               else store_entry j
                 (newAttemptJournalEntry (u64 (AttemptJournalEntry.Sequence latest + 1)) from to b reason)
           end
       end.

Definition File_Latest (j : FileJournal) (actionID : UUID) : result recon_error (option Entry) :=
  if negb (validUUID actionID) then Err ErrAttemptJournal
  else records ← loadEntries (contents j); Ok (last (entries_of records actionID)).

Definition File_Entries (j : FileJournal) (actionID : UUID) : result recon_error (list Entry) :=
  if negb (validUUID actionID) then Err ErrAttemptJournal
  else records ← loadEntries (contents j); Ok (entries_of records actionID).

(** [on_disk]: the bytes at the path, if the file exists; it is created otherwise, which
    the file system may refuse. *)
Definition OpenFileAttemptJournal (path : string) (accessible : bool) (on_disk : option (list ascii))
    (answers : list write_outcome) : result recon_error FileJournal :=
  if String.eqb path "" then Err ErrAttemptJournal
  else if negb accessible then Err ErrIO
  else
    let encoded := default [] on_disk in
    _ ← loadEntries encoded; Ok (mkFile encoded answers).
(** ** Reachable journals *)

Lemma validate_action e : AttemptJournalEntry_validate e = Ok tt ->
  AttemptRecord.ActionID (AttemptJournalEntry.Attempt e) = AttemptBinding.ActionID (AttemptJournalEntry.Binding e) /\
  AttemptRecord.AttemptID (AttemptJournalEntry.Attempt e) = AttemptBinding.AttemptID (AttemptJournalEntry.Binding e) /\
  AttemptRecord.Nonce (AttemptJournalEntry.Attempt e) = AttemptBinding.Nonce (AttemptJournalEntry.Binding e) /\
  AttemptRecord.PlanSHA256 (AttemptJournalEntry.Attempt e) = AttemptBinding.PlanSHA256 (AttemptJournalEntry.Binding e).
Proof. unfold AttemptJournalEntry_validate. intros Hv. inv_result; bool_prop; done. Qed.

Lemma newAttemptJournalEntry_Ok sequence previous state b reason e :
  newAttemptJournalEntry sequence previous state b reason = Ok e ->
  AttemptJournalEntry_validate e = Ok tt /\ AttemptJournalEntry.Sequence e = sequence /\
  AttemptJournalEntry.Previous e = previous /\ entry_state e = state /\
  AttemptJournalEntry.Binding e = b /\ AttemptJournalEntry.Reason e = reason.
Proof.
  unfold newAttemptJournalEntry. intros He. apply bind_Ok in He as (digest & _ & He).
  destruct (negb _) eqn:Hv; [done|]. injection He as <-. apply negb_false_iff in Hv. by apply is_ok_unit in Hv.
Qed.

Lemma verify_snoc l latest e : last l = Some latest ->
  verifyAttemptEntries l = Ok tt -> AttemptJournalEntry_validate e = Ok tt -> follows latest e = true ->
  verifyAttemptEntries (l ++ [e])%list = Ok tt.
Proof. intros Hl Hv He Hf. eapply chain_snoc; [done|done|by rewrite He|done]. Qed.

Lemma verify_valid l e : verifyAttemptEntries l = Ok tt -> e ∈ l -> AttemptJournalEntry_validate e = Ok tt.
Proof. intros Hv Hin. apply is_ok_unit. by apply (chain_valid _ _ _ _ _ _ _ Hv Hin). Qed.

(** The entries of one attempt: it starts pending and takes one allowed transition
    at a time, under one binding. *)
Inductive attempt_path : list Entry -> Prop :=
| path_pending e :
    AttemptJournalEntry_validate e = Ok tt -> starts e = true -> attempt_path [e]
| path_next l latest e :
    attempt_path l -> last l = Some latest ->
    AttemptJournalEntry_validate e = Ok tt -> follows latest e = true ->
    allowedAttemptTransition (entry_state latest) (entry_state e) = true ->
    attempt_path (l ++ [e])%list.

Lemma path_verified l : attempt_path l -> verifyAttemptEntries l = Ok tt.
Proof.
  induction 1 as [e He Hs|l latest e Hp IH Hl He Hf Ha]; [|by eapply verify_snoc].
  apply chain_start; [by rewrite He|done].
Qed.

Lemma path_last l : attempt_path l -> exists e, last l = Some e /\
  AttemptJournalEntry.Sequence e = len l /\ len l <= progress (entry_state e) + 1.
Proof.
  induction 1 as [e He Hs|l latest e Hp (x & Hx & Hseq & Hlen) Hl He Hf Ha].
  - exists e. unfold starts in Hs. bool_prop. split; [done|]. split; [done|].
    replace (entry_state e) with AttemptPending. vm_compute. congruence.
  - exists e. rewrite last_snoc. split; [done|]. rewrite Hl in Hx. injection Hx as ->.
    pose proof (transition_advances _ _ Ha) as [_ Hr]. unfold follows in Hf. bool_prop.
    rewrite length_app. simpl. rewrite u64_small in *; [lia|]. unfold max_u64. lia.
Qed.

Lemma progress_bounds s : 0 <= progress s <= 4.
Proof. unfold progress. repeat case_match; lia. Qed.

Lemma path_length l : attempt_path l -> 1 <= len l <= 5.
Proof.
  intros Hp. pose proof (path_last l Hp) as (e & Hl & _ & Hlen). pose proof (progress_bounds (entry_state e)).
  destruct l; [done|]. simpl in *. lia.
Qed.

Lemma path_pairs l : attempt_path l -> forall i e e', l !! i = Some e -> l !! S i = Some e' ->
  allowedAttemptTransition (entry_state e) (entry_state e') = true /\
  AttemptJournalEntry.Binding e' = AttemptJournalEntry.Binding e.
Proof.
  induction 1 as [x Hx Hs|l latest x Hp IH Hl Hx Hf Ha]; intros i e e' Hi Hi'; [by destruct i|].
  apply lookup_app_Some in Hi' as [Hi'|[Hge Hi']].
  - apply (IH i); [|done]. apply lookup_lt_Some in Hi'. rewrite lookup_app_l in Hi by lia. done.
  - apply list_lookup_singleton_Some in Hi' as [Hz <-].
    rewrite last_lookup in Hl. rewrite lookup_app_l in Hi by (destruct l; [done|simpl in *; lia]).
    replace (pred (length l)) with i in Hl by lia. rewrite Hl in Hi. injection Hi as ->.
    unfold follows in Hf. bool_prop. done.
Qed.

(** Everything a client may do with the journal. *)
Inductive journal_step : Records -> Records -> Prop :=
| step_append j b reason : journal_step j (Memory_AppendPending j b reason).1
| step_swap j b from to reason : journal_step j (Memory_CompareAndSwap j b from to reason).1.

Definition reachable_journal (j : Records) : Prop := rtc journal_step ∅ j.

Definition action_of (l : list Entry) (actionID : UUID) : Prop :=
  forall e, e ∈ l -> AttemptBinding.ActionID (AttemptJournalEntry.Binding e) = actionID.

Definition journal_inv (j : Records) : Prop :=
  map_Forall (fun actionID l => attempt_path l /\ action_of l actionID) j.

Lemma append_cases j b reason :
  match Memory_AppendPending j b reason with
  | (j', Err _) => j' = j
  | (j', Ok e) => j !! AttemptBinding.ActionID b = None /\ j' = <[AttemptBinding.ActionID b := [e]]> j /\
      newAttemptJournalEntry 1 "" AttemptPending b reason = Ok e
  end.
Proof. unfold Memory_AppendPending. repeat case_match; simplify_eq; done. Qed.

Lemma swap_cases j b from to reason :
  match Memory_CompareAndSwap j b from to reason with
  | (j', Err _) => j' = j
  | (j', Ok e) => exists latest, allowedAttemptTransition from to = true /\
      last (entries_of j (AttemptBinding.ActionID b)) = Some latest /\
      verifyAttemptEntries (entries_of j (AttemptBinding.ActionID b)) = Ok tt /\
      entry_state latest = from /\ AttemptJournalEntry.Binding latest = b /\
      newAttemptJournalEntry (u64 (AttemptJournalEntry.Sequence latest + 1)) from to b reason = Ok e /\
      j' = <[AttemptBinding.ActionID b := (entries_of j (AttemptBinding.ActionID b) ++ [e])%list]> j
  end.
Proof.
  unfold Memory_CompareAndSwap. repeat case_match; simplify_eq; try done. bool_prop.
  repeat match goal with x : unit |- _ => destruct x end. eexists. split_and!; done.
Qed.

Lemma new_follows latest from to b reason e :
  AttemptJournalEntry_validate latest = Ok tt -> entry_state latest = from -> AttemptJournalEntry.Binding latest = b ->
  newAttemptJournalEntry (u64 (AttemptJournalEntry.Sequence latest + 1)) from to b reason = Ok e ->
  follows latest e = true.
Proof.
  intros Hl Hs Hb He. apply newAttemptJournalEntry_Ok in He as (Hv & Hq & Hp & _ & Hb' & _).
  apply validate_action in Hv as (A1 & A2 & A3 & A4).
  apply validate_action in Hl as (B1 & B2 & B3 & B4).
  unfold follows. rewrite Hq, Hp, Hs, A1, A2, A3, A4, B1, B2, B3, B4, Hb', Hb, Z.eqb_refl, !String.eqb_refl.
  by rewrite bool_decide_true.
Qed.

Lemma entries_of_Some (j : Records) a e l : last (entries_of j a) = Some e -> entries_of j a = l -> j !! a = Some l.
Proof. unfold entries_of. by destruct (j !! a); simpl; intros; subst. Qed.

Lemma journal_step_inv j j' : journal_inv j -> journal_step j j' -> journal_inv j'.
Proof.
  intros Hi Hstep. destruct Hstep as [j0 b reason|j0 b from to reason].
  - pose proof (append_cases j0 b reason) as Hc. destruct (Memory_AppendPending j0 b reason) as [k [e|]]; [|by subst].
    destruct Hc as (_ & -> & He). apply newAttemptJournalEntry_Ok in He as (Hv & Hq & Hp & Hs & Hb & _).
    apply map_Forall_insert_2; [|done]. split.
    + apply path_pending; [done|]. unfold starts. by rewrite Hq, Hp, Hs.
    + intros x ->%list_elem_of_singleton. by rewrite Hb.
  - pose proof (swap_cases j0 b from to reason) as Hc.
    destruct (Memory_CompareAndSwap j0 b from to reason) as [k [e|]]; [|by subst].
    destruct Hc as (latest & Ha & Hl & Hver & Hs & Hb & He & ->).
    pose proof (entries_of_Some _ _ _ _ Hl eq_refl) as Hj. apply Hi in Hj as [Hpath Hact].
    assert (AttemptJournalEntry_validate latest = Ok tt) as Hlv
      by (eapply verify_valid; [done|]; by apply last_Some_elem_of).
    pose proof (new_follows _ _ _ _ _ _ Hlv Hs Hb He) as Hf.
    apply newAttemptJournalEntry_Ok in He as (Hv & _ & _ & Hst & Hbe & _).
    apply map_Forall_insert_2; [|done]. split.
    + eapply path_next; [done..|]. by rewrite Hs, Hst.
    + intros x [Hx| ->%list_elem_of_singleton]%elem_of_app; [by apply Hact|]. by rewrite Hbe.
Qed.

Lemma reachable_journal_inv j : reachable_journal j -> journal_inv j.
Proof.
  unfold reachable_journal. revert j. apply (rtc_ind_r (R := journal_step)); [apply map_Forall_empty|].
  intros y z _ Hs Hy. by eapply journal_step_inv.
Qed.

(** C17: whatever sequence of appends and compare-and-swaps a journal has been
    through, the entries of an action pass verification, carry that action and one
    unchanged binding, are numbered from one, move only along the transition table,
    and are at most five: an attempt is started once and ends once. *)
Theorem attempt_runs_once j actionID l :
  reachable_journal j -> j !! actionID = Some l ->
  verifyAttemptEntries l = Ok tt /\ action_of l actionID /\ 1 <= len l <= 5 /\
  (exists latest, last l = Some latest /\ AttemptJournalEntry.Sequence latest = len l) /\
  forall i e e', l !! i = Some e -> l !! S i = Some e' ->
    allowedAttemptTransition (entry_state e) (entry_state e') = true /\
    AttemptJournalEntry.Binding e' = AttemptJournalEntry.Binding e.
Proof.
  intros Hr Hj. apply reachable_journal_inv in Hr. apply Hr in Hj as [Hp Ha].
  split; [by apply path_verified|]. split; [done|]. split; [by apply path_length|].
  split; [|by apply path_pairs]. destruct (path_last l Hp) as (e & Hl & Hq & _). by exists e.
Qed.

(** ** The file journal stands for the memory journal *)

(** What the code relies on of the canonical JSON text: a text is its bytes, a
    canonical text has no line feed and is its own canonical form, and the entries
    of the journal, which are bounded records of texts and numbers, can be written. *)
Class JournalText := {
  bytes_doc_bytes : forall d, bytes_doc (doc_bytes d) = d;
  doc_bytes_length : forall d, doc_len d = len (doc_bytes d);
  canonical_one_line : forall text d, Canonicalize text = Ok d -> newline ∉ doc_bytes d;
  canonical_fixed : forall text d, Canonicalize text = Ok d -> Canonicalize d = Ok d;
  entries_written : forall e, AttemptJournalEntry_validate e = Ok tt -> is_ok (MarshalCanonical e) = true
}.

Context `{!JournalText, !CodecLaws AttemptJournalEntry.t}.

Lemma Marshal_is_canonical e d : MarshalCanonical e = Ok d -> exists text, Canonicalize text = Ok d.
Proof. unfold MarshalCanonical. destruct (json_Marshal e) as [text|]; [|done]. by exists text. Qed.

Lemma split_on_line line rest : newline ∉ line ->
  split_on newline (line ++ newline :: rest)%list = line :: split_on newline rest.
Proof.
  induction line as [|c line IH]; intros Hn.
  - cbn [app split_on]. by rewrite Ascii.eqb_refl.
  - apply not_elem_of_cons in Hn as [Hc Hn]. cbn [app split_on].
    destruct (Ascii.eqb_spec c newline) as [->|_]; [done|]. by rewrite IH.
Qed.

Lemma split_on_single line : newline ∉ line -> split_on newline line = [line].
Proof.
  induction line as [|c line IH]; intros Hn; [done|].
  apply not_elem_of_cons in Hn as [Hc Hn]. cbn [split_on].
  destruct (Ascii.eqb_spec c newline) as [->|_]; [done|]. by rewrite IH.
Qed.

(** A new line after a complete file is a new last element of the split. *)
Lemma split_on_snoc l line : newline ∉ line ->
  split_on newline (l ++ newline :: line)%list = (split_on newline l ++ [line])%list.
Proof.
  intros Hn. induction l as [|c l IH].
  - cbn [app split_on]. by rewrite Ascii.eqb_refl, split_on_single.
  - cbn [app split_on]. destruct (Ascii.eqb c newline); [by rewrite IH|]. rewrite IH.
    destruct (split_on newline l) eqn:Hl; [|done]. destruct l as [|x l]; [done|]. cbn [split_on] in Hl.
    by destruct (Ascii.eqb x newline); [|destruct (split_on newline l)].
Qed.

Lemma load_lines_app records l k : load_lines records (l ++ k)%list = (r ← load_lines records l; load_lines r k).
Proof.
  revert records. induction l as [|x l IH]; intros records; [done|].
  cbn [load_lines app]. destruct (load_line records x); [|done]. by rewrite !Ok_bind, IH.
Qed.

Lemma load_entry_line records e d : AttemptJournalEntry_validate e = Ok tt -> exact e = true ->
  MarshalCanonical e = Ok d ->
  load_line records (doc_bytes d) =
    Ok (<[AttemptBinding.ActionID (AttemptJournalEntry.Binding e) :=
          (entries_of records (AttemptBinding.ActionID (AttemptJournalEntry.Binding e)) ++ [e])%list]> records).
Proof.
  intros Hv Hx Hd. unfold load_line. rewrite bool_decide_false.
  2:{ intros Hn. pose proof (MarshalCanonical_len e d Hd) as [Hz _]. rewrite doc_bytes_length, Hn in Hz. done. }
  rewrite bytes_doc_bytes. destruct (Marshal_is_canonical e d Hd) as [text Ht].
  rewrite (canonical_fixed text d Ht), bool_decide_true by done. cbn [negb].
  rewrite (decode_canonical e d Hx Hd), Hv. cbn [is_ok negb]. by destruct (validate_action e Hv) as [-> _].
Qed.

Lemma verified_spec records :
  verified records = true <-> map_Forall (fun _ l => verifyAttemptEntries l = Ok tt) records.
Proof. apply bool_decide_eq_true. Qed.

Lemma loadEntries_verified encoded records : loadEntries encoded = Ok records ->
  map_Forall (fun _ l => verifyAttemptEntries l = Ok tt) records.
Proof.
  unfold loadEntries. intros Hl. destruct (last encoded); [|injection Hl as <-; apply map_Forall_empty].
  destruct (negb _); [done|]. apply bind_Ok in Hl as (r & _ & Hl).
  destruct (verified r) eqn:Hr; [|done]. injection Hl as <-. by apply verified_spec.
Qed.

Lemma removelast_snoc {A} (l : list A) x : removelast (l ++ [x])%list = l.
Proof. by rewrite removelast_app, app_nil_r. Qed.

(** Reading the file after a complete line was appended. *)
Lemma load_appended encoded records e d :
  loadEntries encoded = Ok records -> AttemptJournalEntry_validate e = Ok tt -> exact e = true ->
  MarshalCanonical e = Ok d ->
  let actionID := AttemptBinding.ActionID (AttemptJournalEntry.Binding e) in
  verifyAttemptEntries (entries_of records actionID ++ [e])%list = Ok tt ->
  loadEntries (encoded ++ entry_line d)%list =
    Ok (<[actionID := (entries_of records actionID ++ [e])%list]> records).
Proof.
  intros Hl Hv Hx Hd actionID Hver. pose proof (loadEntries_verified _ _ Hl) as Hall.
  destruct (Marshal_is_canonical e d Hd) as [text Ht]. pose proof (canonical_one_line text d Ht) as Hn.
  assert (verified (<[actionID := (entries_of records actionID ++ [e])%list]> records) = true) as Hok.
  { apply verified_spec. by apply map_Forall_insert_2. }
  unfold loadEntries, entry_line in *. rewrite app_assoc, last_snoc, Ascii.eqb_refl, removelast_snoc. cbn [negb].
  destruct (last encoded) as [final|] eqn:Hfinal.
  - destruct (Ascii.eqb_spec final newline) as [->|]; [|done]. cbn [negb] in Hl.
    apply last_Some in Hfinal as [body ->]. rewrite removelast_snoc in Hl.
    rewrite <- app_assoc. cbn [app]. rewrite split_on_snoc by done. rewrite load_lines_app.
    apply bind_Ok in Hl as (r & -> & Hr). destruct (verified r); [|done]. injection Hr as ->.
    rewrite Ok_bind. cbn [load_lines]. rewrite (load_entry_line records e d) by done.
    rewrite !Ok_bind. fold actionID. by rewrite Hok.
  - apply last_None in Hfinal as ->. injection Hl as <-. cbn [app]. rewrite split_on_single by done.
    cbn [load_lines]. rewrite (load_entry_line ∅ e d) by done. rewrite !Ok_bind. fold actionID. by rewrite Hok.
Qed.

(** A line that was cut short is found by the next reader. *)
Lemma load_torn encoded e d n : MarshalCanonical e = Ok d -> (0 < n < length (entry_line d))%nat ->
  loadEntries (encoded ++ take n (entry_line d))%list = Err ErrAttemptJournalTamper.
Proof.
  intros Hd Hn. destruct (Marshal_is_canonical e d Hd) as [text Ht].
  pose proof (canonical_one_line text d Ht) as Hline. unfold entry_line in *. rewrite length_app in Hn. simpl in Hn.
  rewrite take_app_le by lia. destruct (last (take n (doc_bytes d))) as [c|] eqn:Hc.
  - unfold loadEntries. rewrite last_app, Hc. destruct (Ascii.eqb_spec c newline) as [->|_]; [|done].
    exfalso. apply Hline. apply last_Some_elem_of in Hc.
    apply elem_of_take in Hc as (i & Hi & _). by eapply list_elem_of_lookup_2.
  - apply last_None in Hc. apply (f_equal length) in Hc. rewrite length_take in Hc. simpl in Hc. lia.
Qed.

Lemma entries_verified encoded records actionID : loadEntries encoded = Ok records ->
  verifyAttemptEntries (entries_of records actionID) = Ok tt.
Proof.
  intros Hl. unfold entries_of. destruct (records !! actionID) as [l|] eqn:Hr; [|done].
  by apply (loadEntries_verified _ _ Hl actionID).
Qed.

Lemma entries_latest encoded records actionID latest : loadEntries encoded = Ok records ->
  last (entries_of records actionID) = Some latest -> AttemptJournalEntry_validate latest = Ok tt.
Proof.
  intros Hl Hlast. eapply verify_valid; [by eapply entries_verified|]. by apply last_Some_elem_of.
Qed.

(** One entry stored on a file system that serves every request. *)
Lemma store_served encoded records e :
  loadEntries encoded = Ok records -> AttemptJournalEntry_validate e = Ok tt -> exact e = true ->
  let actionID := AttemptBinding.ActionID (AttemptJournalEntry.Binding e) in
  verifyAttemptEntries (entries_of records actionID ++ [e])%list = Ok tt ->
  exists encoded', store_entry (mkFile encoded []) (Ok e) = (mkFile encoded' [], Ok e) /\
    loadEntries encoded' = Ok (<[actionID := (entries_of records actionID ++ [e])%list]> records).
Proof.
  intros Hl Hv Hx actionID Hver. pose proof (entries_written e Hv) as Hw.
  destruct (MarshalCanonical e) as [d|] eqn:Hd; [|done]. exists (encoded ++ entry_line d)%list.
  split; [|by apply load_appended]. unfold store_entry, appendEntry. by rewrite Hd.
Qed.

Definition exact_answer (answer : result recon_error Entry) : Prop :=
  match answer with Ok e => exact e = true | Err _ => True end.

Definition file_answers (encoded : list ascii) (file : FileJournal * result recon_error Entry)
    (memory : Records * result recon_error Entry) : Prop :=
  exists encoded', file = (mkFile encoded' [], memory.2) /\ loadEntries encoded' = Ok memory.1.

Lemma append_refines encoded records b reason : loadEntries encoded = Ok records ->
  exact_answer (Memory_AppendPending records b reason).2 ->
  file_answers encoded (File_AppendPending (mkFile encoded []) b reason) (Memory_AppendPending records b reason).
Proof.
  intros Hl. unfold Memory_AppendPending, File_AppendPending. cbn [contents]. rewrite Hl.
  destruct (negb _); [intros _; by exists encoded|].
  destruct (records !! AttemptBinding.ActionID b) eqn:Hr; [intros _; by exists encoded|].
  destruct (newAttemptJournalEntry _ _ _ _ _) as [e|] eqn:He; [|intros _; by exists encoded].
  cbn [snd exact_answer]. intros Hx.
  destruct (newAttemptJournalEntry_Ok _ _ _ _ _ _ He) as (Hv & Hq & Hp & Hs & Hb & _).
  pose proof (store_served encoded records e Hl Hv Hx) as Hstore. rewrite Hb in Hstore.
  unfold entries_of in Hstore. rewrite Hr in Hstore. apply Hstore.
  apply path_verified, path_pending; [done|]. unfold starts. by rewrite Hq, Hp, Hs.
Qed.

Lemma swap_refines encoded records b from to reason : loadEntries encoded = Ok records ->
  exact_answer (Memory_CompareAndSwap records b from to reason).2 ->
  file_answers encoded (File_CompareAndSwap (mkFile encoded []) b from to reason)
    (Memory_CompareAndSwap records b from to reason).
Proof.
  intros Hl. unfold Memory_CompareAndSwap, File_CompareAndSwap. cbn [contents]. rewrite Hl.
  rewrite (entries_verified _ _ (AttemptBinding.ActionID b) Hl).
  destruct (negb _); [intros _; by exists encoded|]. destruct (negb _); [intros _; by exists encoded|].
  destruct (last _) as [latest|] eqn:Hlast; [|intros _; by exists encoded].
  destruct (String.eqb_spec (entry_state latest) from) as [Hs|]; cbn [negb]; [|intros _; by exists encoded].
  destruct (bool_decide (AttemptJournalEntry.Binding latest = b)) eqn:Hb; cbn [negb]; [|intros _; by exists encoded].
  apply bool_decide_eq_true in Hb.
  destruct (newAttemptJournalEntry _ _ _ _ _) as [e|] eqn:He; [|intros _; by exists encoded].
  cbn [snd exact_answer]. intros Hx.
  pose proof (entries_latest _ _ _ _ Hl Hlast) as Hlv.
  pose proof (new_follows _ _ _ _ _ _ Hlv Hs Hb He) as Hf.
  destruct (newAttemptJournalEntry_Ok _ _ _ _ _ _ He) as (Hv & _ & _ & _ & Hbe & _).
  pose proof (store_served encoded records e Hl Hv Hx) as Hstore. rewrite Hbe in Hstore. apply Hstore.
  eapply verify_snoc; [done|by eapply entries_verified|done|done].
Qed.

Inductive journal_op :=
| AppendOp (b : AttemptBinding.t) (reason : Reason)
| SwapOp (b : AttemptBinding.t) (from to : AttemptState) (reason : Reason)
| LatestOp (actionID : UUID)
| EntriesOp (actionID : UUID).

Inductive journal_answer :=
| Stored (answer : result recon_error Entry)
| Found (answer : result recon_error (option Entry))
| Listed (answer : result recon_error (list Entry)).

Definition memory_op (j : Records) (op : journal_op) : Records * journal_answer :=
  match op with
  | AppendOp b reason => prod_map id Stored (Memory_AppendPending j b reason)
  | SwapOp b from to reason => prod_map id Stored (Memory_CompareAndSwap j b from to reason)
  | LatestOp actionID => (j, Found (Memory_Latest j actionID))
  | EntriesOp actionID => (j, Listed (Memory_Entries j actionID))
  end.

Definition file_op (j : FileJournal) (op : journal_op) : FileJournal * journal_answer :=
  match op with
  | AppendOp b reason => prod_map id Stored (File_AppendPending j b reason)
  | SwapOp b from to reason => prod_map id Stored (File_CompareAndSwap j b from to reason)
  | LatestOp actionID => (j, Found (File_Latest j actionID))
  | EntriesOp actionID => (j, Listed (File_Entries j actionID))
  end.

Definition exact_stored (answer : journal_answer) : Prop :=
  match answer with Stored a => exact_answer a | _ => True end.

Lemma op_refines encoded records op : loadEntries encoded = Ok records ->
  exact_stored (memory_op records op).2 ->
  exists encoded', file_op (mkFile encoded []) op = (mkFile encoded' [], (memory_op records op).2) /\
    loadEntries encoded' = Ok (memory_op records op).1.
Proof.
  intros Hl. destruct op as [b reason|b from to reason|actionID|actionID]; cbn [file_op memory_op].
  - cbn [prod_map snd exact_stored]. intros Hx. destruct (append_refines _ _ _ _ Hl Hx) as (k & -> & Hk).
    exists k. split; [reflexivity|exact Hk].
  - cbn [prod_map snd exact_stored]. intros Hx. destruct (swap_refines _ _ _ _ _ _ Hl Hx) as (k & -> & Hk).
    exists k. split; [reflexivity|exact Hk].
  - intros _. exists encoded. split; [|done]. do 2 f_equal. unfold File_Latest, Memory_Latest.
    destruct (negb _); [done|]. cbn [contents]. rewrite Hl, Ok_bind, (entries_verified _ _ actionID Hl).
    by destruct (last _).
  - intros _. exists encoded. split; [|done]. do 2 f_equal. unfold File_Entries, Memory_Entries.
    destruct (negb _); [done|]. cbn [contents]. rewrite Hl, Ok_bind, (entries_verified _ _ actionID Hl).
    by destruct (0 <? _).
Qed.

Fixpoint run {S} (step : S -> journal_op -> S * journal_answer) (s : S) (ops : list journal_op)
    : S * list journal_answer :=
  match ops with
  | [] => (s, [])
  | op :: rest =>
      let '(s', answer) := step s op in
      let '(final, answers) := run step s' rest in (final, answer :: answers)
  end.


(** An append survives any failure of the file system. Whatever the open, the
    write and the sync do, the file then reads either as before, or with exactly the
    new entry, or is refused as tampered and accepts nothing; when the append reports
    success it reads with the new entry. *)
Theorem append_is_atomic_or_detected encoded records answers e j r :
  loadEntries encoded = Ok records -> AttemptJournalEntry_validate e = Ok tt -> exact e = true ->
  let actionID := AttemptBinding.ActionID (AttemptJournalEntry.Binding e) in
  verifyAttemptEntries (entries_of records actionID ++ [e])%list = Ok tt ->
  appendEntry (mkFile encoded answers) e = (j, r) ->
  let appended := Ok (<[actionID := (entries_of records actionID ++ [e])%list]> records) in
  (loadEntries (contents j) = Ok records \/ loadEntries (contents j) = appended \/
   loadEntries (contents j) = Err ErrAttemptJournalTamper) /\
  (r = Ok tt -> loadEntries (contents j) = appended).
Proof.
  intros Hl Hv Hx actionID Hver Ha appended. unfold appendEntry in Ha.
  destruct (MarshalCanonical e) as [d|] eqn:Hd; [|injection Ha as <- <-; split; [by left|done]].
  pose proof (load_appended _ _ _ _ Hl Hv Hx Hd Hver) as Hfull. fold actionID appended in Hfull.
  assert (forall n, let k := (encoded ++ take n (entry_line d))%list in
    loadEntries k = Ok records \/ loadEntries k = appended \/ loadEntries k = Err ErrAttemptJournalTamper) as Hcut.
  { intros n k. destruct (decide (n = 0%nat)) as [->|]; [left; unfold k; by rewrite take_0, app_nil_r|].
    destruct (decide (n < length (entry_line d))%nat); [right; right; eapply load_torn; [done|lia]|].
    right; left. unfold k. by rewrite take_ge by lia. }
  cbn [disk contents] in Ha. destruct answers as [|[|count failed synced] answers].
  - injection Ha as <- <-. split; [by right; left|done].
  - injection Ha as <- <-. split; [by left|done].
  - destruct failed; [injection Ha as <- <-; split; [apply Hcut|done]|].
    destruct (Nat.ltb_spec count (length (entry_line d))); [injection Ha as <- <-; split; [apply Hcut|done]|].
    injection Ha as <- <-. cbn [contents]. rewrite take_ge by lia. split; [by right; left|done].
Qed.
End journal.

(** ** A journal of one attempt *)
Module JournalSample.
Import SampleDigest.

Definition binding : AttemptBinding.t := AttemptBinding.mk
  "6d2f0a51-0b7e-4c1f-9a2d-0123456789ab" "11111111-1111-4111-8111-111111111111"
  "22222222-2222-4222-8222-222222222222" DomainUser "synthetic.target"
  "33333333-3333-4333-8333-333333333333" 4 3 2 9 (hash ["plan"]).

Definition attempt_texts (a : AttemptRecord.t) : list string :=
  [AttemptRecord.ActionID a; AttemptRecord.AttemptID a; AttemptRecord.Nonce a; AttemptRecord.State a;
   AttemptRecord.PlanSHA256 a].

Definition binding_texts (b : AttemptBinding.t) : list string :=
  [AttemptBinding.ActionID b; AttemptBinding.AttemptID b; AttemptBinding.Nonce b; AttemptBinding.Domain b;
   AttemptBinding.Target b; AttemptBinding.BootID b; number (AttemptBinding.BundleGeneration b);
   number (AttemptBinding.DomainPolicyGeneration b); number (AttemptBinding.ControlGeneration b);
   number (AttemptBinding.SnapshotGeneration b); AttemptBinding.PlanSHA256 b].

Definition digest_text (i : attemptJournalDigestInput.t) : list ascii :=
  chars (hash (number (attemptJournalDigestInput.Sequence i) :: attemptJournalDigestInput.Previous i ::
    attemptJournalDigestInput.Reason i :: attempt_texts (attemptJournalDigestInput.Attempt i) ++
    binding_texts (attemptJournalDigestInput.Binding i))%list).

(** Documents are lines of text. *)
#[export] Instance json : JSON := {|
  Doc := list ascii; doc_len := fun d => len d;
  Transform := fun d => if bool_decide (newline ∈ d) then None else Some d;
  SHA256Hex := fun d => hash [of_chars d] |}.

#[export] Instance digest_codec : Codec attemptJournalDigestInput.t :=
  {| json_Marshal := fun i => Some (digest_text i); strictJSONDecode := fun _ => None; exact := fun _ => true |}.

Definition entry_of (r : result recon_error AttemptJournalEntry.t) : AttemptJournalEntry.t :=
  match r with
  | Ok e => e
  | Err _ => AttemptJournalEntry.mk 0 "" (AttemptRecord.mk "" "" "" "" "") binding "" ""
  end.

Definition pending : AttemptJournalEntry.t :=
  Eval vm_compute in entry_of (newAttemptJournalEntry 1 "" AttemptPending binding ReasonAccepted).
Definition claimed : AttemptJournalEntry.t :=
  Eval vm_compute in entry_of (newAttemptJournalEntry 2 AttemptPending AttemptClaimed binding ReasonAccepted).

(** The entries of the attempt are written as one letter each; other entries share a letter. *)
#[export] Instance entry_codec : Codec AttemptJournalEntry.t := {|
  json_Marshal := fun e => Some [if bool_decide (e = pending) then "p"%char
                                 else if bool_decide (e = claimed) then "c"%char else "o"%char];
  strictJSONDecode := fun d => if bool_decide (d = ["p"%char]) then Some pending
                               else if bool_decide (d = ["c"%char]) then Some claimed else None;
  exact := fun e => bool_decide (e = pending) || bool_decide (e = claimed) |}.

#[export] Instance entry_laws : CodecLaws AttemptJournalEntry.t.
Proof.
  intros v d Hx. unfold exact, entry_codec in Hx. apply orb_true_iff in Hx as [Hx|Hx];
  apply bool_decide_eq_true in Hx as ->; vm_compute; by intros [= <-].
Qed.

Lemma canonical_line (d c : list ascii) : Canonicalize d = Ok c -> c = d /\ newline ∉ c.
Proof.
  unfold Canonicalize. cbn [Transform json Doc]. intros Hc. inv_result. by bool_prop.
Qed.

Definition to_bytes (d : @Doc json) : list ascii := d.
Definition of_bytes (bytes : list ascii) : @Doc json := bytes.

#[export] Instance sample_text : JournalText to_bytes of_bytes.
Proof.
  split; try done.
  - intros d c Hc. by apply canonical_line in Hc as [_ ?].
  - intros d c Hc. by destruct (canonical_line d c Hc) as [-> _].
  - intros e _. unfold MarshalCanonical, json_Marshal, entry_codec.
    destruct (bool_decide _); [by vm_compute|]. by destruct (bool_decide _); vm_compute.
Qed.

Definition swap : journal_op := SwapOp binding AttemptPending AttemptClaimed ReasonAccepted.
Definition ops : list journal_op :=
  [AppendOp binding ReasonAccepted; AppendOp binding ReasonAccepted; swap; swap;
   LatestOp (AttemptBinding.ActionID binding)].

Definition claimed_journal : gmap UUID (list AttemptJournalEntry.t) :=
  (Memory_CompareAndSwap (Memory_AppendPending ∅ binding ReasonAccepted).1 binding AttemptPending AttemptClaimed
     ReasonAccepted).1.

Lemma claimed_journal_reachable : reachable_journal claimed_journal.
Proof.
  unfold reachable_journal, claimed_journal. eapply rtc_l; [apply (step_append ∅)|].
  eapply rtc_l; [apply step_swap|]. apply rtc_refl.
Qed.

Lemma claimed_journal_entries : claimed_journal !! AttemptBinding.ActionID binding = Some [pending; claimed].
Proof. vm_compute. reflexivity. Qed.

Lemma attempt_runs_once_witness :
  verifyAttemptEntries [pending; claimed] = Ok tt /\ allowedAttemptTransition AttemptPending AttemptClaimed = true.
Proof.
  destruct (attempt_runs_once claimed_journal (AttemptBinding.ActionID binding) [pending; claimed]
    claimed_journal_reachable claimed_journal_entries) as (Hv & _ & _ & _ & Hpairs).
  split; [exact Hv|]. exact (proj1 (Hpairs 0%nat pending claimed eq_refl eq_refl)).
Defined.

Definition stored_exactly (a : journal_answer) : bool :=
  match a with Stored (Ok e) => exact e | _ => true end.

Lemma stored_exactly_spec l : forallb stored_exactly l = true -> Forall exact_stored l.
Proof. induction l as [|[[e|]|r|r] l IH]; simpl; intros Hl; bool_prop; constructor; simpl; auto. Qed.

Definition answered_ok (a : journal_answer) : bool :=
  match a with Stored r => is_ok r | Found r => is_ok r | Listed r => is_ok r end.

Lemma ops_answers :
  forallb stored_exactly (run memory_op ∅ ops).2 = true /\
  map answered_ok (run memory_op ∅ ops).2 = [true; false; true; false; true].
Proof. vm_compute. split; reflexivity. Qed.


(** The write stops after the letter, before the line feed. *)
Lemma append_is_atomic_or_detected_witness :
  loadEntries of_bytes (contents (appendEntry to_bytes (mkFile [] [Written 1 false true]) pending).1) = Err ErrAttemptJournalTamper.
Proof.
  destruct (append_is_atomic_or_detected to_bytes of_bytes [] ∅ [Written 1 false true] pending
    (mkFile ["p"%char] []) (Err ErrAttemptJournal)) as [[Hl|[Hl|Hl]] _];
    [reflexivity|vm_compute; reflexivity|vm_compute; reflexivity|vm_compute; reflexivity|vm_compute; reflexivity|..].
  - discriminate Hl.
  - discriminate Hl.
  - exact Hl.
Defined.
End JournalSample.
