(* ===== verification/ReconCheckpoint.v ===== *)
(** * Operation checkpoints

    [internal/reconciler/operation_checkpoint.go]: the chain of checkpoints of a
    long-running operation, kept per operation, and the claims to resume it. A
    checkpoint carries the digest of its parent; a resume names the exact latest
    checkpoint and is claimed by one resume identifier. *)

From Stdlib Require Import ZArith Lia Ascii String.
From stdpp Require Import base strings list option sets gmap.
From S2P Require Import Prelude Metadata PolicyModel PolicyCanonical ReconContracts ReconReadiness.

Open Scope string_scope.
Open Scope Z_scope.

(** ** Data *)

Module OperationCheckpointInput.
Record t := mk {
  OperationID : UUID;
  Domain : Domain;
  Binding : SnapshotBinding.t;
  Workflow : WorkflowKind;
  Lifecycle : SessionLifecycle;
  ContractVersion : string;
  RuntimeVersion : string;
  ManifestSHA256 : string;
  ReducerSHA256 : string;
  AdapterSHA256 : string;
  ChildActionIDs : list UUID;
  AttemptIDs : list UUID;
  EvidenceDigests : list string
}.
End OperationCheckpointInput.

Module OperationCheckpointEnvelope.
Record t := mk {
  Sequence : Z;
  Domain : Domain;
  Binding : SnapshotBinding.t;
  Session : OperationSessionRecord.t;
  Checkpoint : CheckpointRecord.t;
  CheckpointSHA256 : string
}.
#[global] Instance eq_dec : EqDecision t.
Proof. solve_decision. Defined.
End OperationCheckpointEnvelope.

Module operationCheckpointDigestInput.
Record t := mk {
  Sequence : Z;
  Domain : Domain;
  Binding : SnapshotBinding.t;
  Session : OperationSessionRecord.t;
  Checkpoint : CheckpointRecord.t
}.
End operationCheckpointDigestInput.

Module OperationResumeRequest.
Record t := mk {
  OperationID : UUID;
  ResumeID : UUID;
  Domain : Domain;
  Binding : SnapshotBinding.t;
  ManifestSHA256 : string;
  ContractVersion : string;
  RuntimeVersion : string;
  ExpectedSequence : Z;
  ExpectedCheckpointSHA256 : string;
  OwnerAttemptID : UUID;
  AllowSuspended : bool
}.
End OperationResumeRequest.

Module OperationResumeDecision.
Record t := mk { Accepted : bool; Reason : Reason; Lifecycle : SessionLifecycle }.
End OperationResumeDecision.

Abbreviation ReplayGateOutcome := string (only parsing).
Definition ReplayApproved : ReplayGateOutcome := "approved".
Definition ReplayRejected : ReplayGateOutcome := "rejected".
Definition ReplayTimeout : ReplayGateOutcome := "timeout".
Definition ReplayChangedPlan : ReplayGateOutcome := "changed_plan".
Definition ReplayGateOutcome_Valid (outcome : ReplayGateOutcome) : bool :=
  contains_string [ReplayApproved; ReplayRejected; ReplayTimeout; ReplayChangedPlan] outcome.

Module ReplayContinuationRecord.
Record t := mk {
  OperationID : UUID;
  RequestID : UUID;
  CheckpointSHA256 : string;
  PlanSHA256 : string;
  Outcome : ReplayGateOutcome;
  Reason : Reason;
  SessionLifecycle : SessionLifecycle;
  ActionStateUnchanged : bool
}.
End ReplayContinuationRecord.

Module resumeClaim.
Record t := mk { resumeID : UUID; checkpointSHA256 : string; sequence : Z }.
#[global] Instance eq_dec : EqDecision t.
Proof. solve_decision. Defined.
End resumeClaim.

Abbreviation Envelope := OperationCheckpointEnvelope.t (only parsing).
Abbreviation lifecycle_of e := (OperationSessionRecord.Lifecycle (OperationCheckpointEnvelope.Session e)).

(** [MemoryOperationCheckpointStore] *)
Record CheckpointStore := mkStore {
  checkpoints : gmap UUID (list OperationCheckpointEnvelope.t);
  resumeClaims : gmap UUID resumeClaim.t
}.

Definition NewMemoryOperationCheckpointStore : CheckpointStore := mkStore ∅ ∅.

(** ** Lifecycle *)

Definition terminalSessionLifecycle (lifecycle : SessionLifecycle) : bool :=
  contains_string [SessionCancelled; SessionFailed; SessionCompleted] lifecycle.

Definition allowedSessionTransition (from to : SessionLifecycle) : bool :=
  if terminalSessionLifecycle from then false
  else if String.eqb from SessionRunning then
    contains_string [SessionRunning; SessionSuspended; SessionCancelled; SessionFailed; SessionCompleted] to
  else if String.eqb from SessionSuspended then
    contains_string [SessionRunning; SessionCancelled; SessionFailed] to
  else false.

(** ** Validation *)

Definition OperationCheckpointInput_validate (i : OperationCheckpointInput.t) : result recon_error unit :=
  ensure (validUUID (OperationCheckpointInput.OperationID i) && Domain_Valid (OperationCheckpointInput.Domain i) &&
          is_ok (SnapshotBinding_validate (OperationCheckpointInput.Binding i)) &&
          WorkflowKind_Valid (OperationCheckpointInput.Workflow i) &&
          SessionLifecycle_Valid (OperationCheckpointInput.Lifecycle i) &&
          versionPattern (OperationCheckpointInput.ContractVersion i) &&
          versionPattern (OperationCheckpointInput.RuntimeVersion i) &&
          validDigest (OperationCheckpointInput.ManifestSHA256 i) &&
          validDigest (OperationCheckpointInput.ReducerSHA256 i) &&
          validDigest (OperationCheckpointInput.AdapterSHA256 i) &&
          validUUIDList (OperationCheckpointInput.ChildActionIDs i) MaxDigestReferences &&
          validUUIDList (OperationCheckpointInput.AttemptIDs i) MaxDigestReferences &&
          validDigestList (OperationCheckpointInput.EvidenceDigests i) 1 MaxDigestReferences) ErrOperationCheckpoint.

Definition OperationResumeRequest_validate (r : OperationResumeRequest.t) : result recon_error unit :=
  ensure (validUUID (OperationResumeRequest.OperationID r) && validUUID (OperationResumeRequest.ResumeID r) &&
          Domain_Valid (OperationResumeRequest.Domain r) &&
          is_ok (SnapshotBinding_validate (OperationResumeRequest.Binding r)) &&
          validDigest (OperationResumeRequest.ManifestSHA256 r) &&
          versionPattern (OperationResumeRequest.ContractVersion r) &&
          versionPattern (OperationResumeRequest.RuntimeVersion r) &&
          negb (OperationResumeRequest.ExpectedSequence r =? 0) &&
          validDigest (OperationResumeRequest.ExpectedCheckpointSHA256 r) &&
          optional validUUID (OperationResumeRequest.OwnerAttemptID r)) ErrOperationResume.

Definition ReplayContinuationRecord_Validate (r : ReplayContinuationRecord.t) : result recon_error unit :=
  ensure (validUUID (ReplayContinuationRecord.OperationID r) && validUUID (ReplayContinuationRecord.RequestID r) &&
          validDigest (ReplayContinuationRecord.CheckpointSHA256 r) &&
          validDigest (ReplayContinuationRecord.PlanSHA256 r) &&
          ReplayGateOutcome_Valid (ReplayContinuationRecord.Outcome r) &&
          Reason_Valid (ReplayContinuationRecord.Reason r) &&
          SessionLifecycle_Valid (ReplayContinuationRecord.SessionLifecycle r) &&
          ReplayContinuationRecord.ActionStateUnchanged r) ErrOperationResume.

Definition NewReplayContinuationRecord (operationID requestID : UUID) (checkpointSHA256 planSHA256 : string)
    (outcome : ReplayGateOutcome) : result recon_error ReplayContinuationRecord.t :=
  let record reason lifecycle :=
    ReplayContinuationRecord.mk operationID requestID checkpointSHA256 planSHA256 outcome reason lifecycle true in
  let checked r :=
    if negb (is_ok (ReplayContinuationRecord_Validate r)) then Err ErrOperationResume else Ok r in
  if String.eqb outcome ReplayApproved then checked (record ReasonAccepted SessionRunning)
  else if String.eqb outcome ReplayRejected then checked (record ReasonResumeDenied SessionCancelled)
  else if String.eqb outcome ReplayTimeout then checked (record ReasonExpired SessionFailed)
  else if String.eqb outcome ReplayChangedPlan then checked (record ReasonLineage SessionSuspended)
  else Err ErrOperationResume.

Definition uuidInSlice (value : UUID) (values : list UUID) : bool := existsb (String.eqb value) values.
Definition sameUUIDSet (left right : list UUID) : bool := bool_decide (left = right).

(** ** The store *)

Section checkpoints.
Context `{JSON} `{!Codec operationCheckpointDigestInput.t}.

Definition operationCheckpointDigest (e : Envelope) : result recon_error string :=
  let session := OperationCheckpointEnvelope.Session e in
  let checkpoint := OperationCheckpointEnvelope.Checkpoint e in
  if (OperationCheckpointEnvelope.Sequence e =? 0) || negb (Domain_Valid (OperationCheckpointEnvelope.Domain e)) ||
     negb (is_ok (SnapshotBinding_validate (OperationCheckpointEnvelope.Binding e))) ||
     negb (is_ok (OperationSessionRecord_Validate session)) || negb (is_ok (CheckpointRecord_Validate checkpoint)) ||
     negb (String.eqb (OperationSessionRecord.OperationID session) (CheckpointRecord.OperationID checkpoint)) ||
     negb (OperationCheckpointEnvelope.Sequence e =? CheckpointRecord.Sequence checkpoint)
  then Err ErrOperationCheckpoint
  else match MarshalCanonical (operationCheckpointDigestInput.mk (OperationCheckpointEnvelope.Sequence e)
               (OperationCheckpointEnvelope.Domain e) (OperationCheckpointEnvelope.Binding e) session checkpoint) with
       | Err _ => Err ErrOperationCheckpoint
       | Ok encoded => Ok (SHA256Hex encoded)
       end.

Definition OperationCheckpointEnvelope_validate (e : Envelope) : result recon_error unit :=
  let session := OperationCheckpointEnvelope.Session e in
  let checkpoint := OperationCheckpointEnvelope.Checkpoint e in
  if (OperationCheckpointEnvelope.Sequence e =? 0) || negb (Domain_Valid (OperationCheckpointEnvelope.Domain e)) ||
     negb (is_ok (SnapshotBinding_validate (OperationCheckpointEnvelope.Binding e))) ||
     negb (is_ok (OperationSessionRecord_Validate session)) || negb (is_ok (CheckpointRecord_Validate checkpoint)) ||
     negb (validDigest (OperationCheckpointEnvelope.CheckpointSHA256 e)) ||
     negb (OperationCheckpointEnvelope.Sequence e =? CheckpointRecord.Sequence checkpoint) ||
     negb (String.eqb (OperationSessionRecord.OperationID session) (CheckpointRecord.OperationID checkpoint)) ||
     negb (sameUUIDSet (OperationSessionRecord.ChildActionIDs session) (CheckpointRecord.ChildActionIDs checkpoint))
  then Err ErrOperationCheckpoint
  else match operationCheckpointDigest e with
       | Err _ => Err ErrOperationCheckpoint
       | Ok digest => ensure (String.eqb digest (OperationCheckpointEnvelope.CheckpointSHA256 e)) ErrOperationCheckpoint
       end.

Definition checkpoint_starts (e : Envelope) : bool :=
  (OperationCheckpointEnvelope.Sequence e =? 1) &&
  String.eqb (CheckpointRecord.ParentCheckpointSHA256 (OperationCheckpointEnvelope.Checkpoint e)) "" &&
  String.eqb (lifecycle_of e) SessionRunning.

Definition checkpoint_follows (previous e : Envelope) : bool :=
  (OperationCheckpointEnvelope.Sequence e =? u64 (OperationCheckpointEnvelope.Sequence previous + 1)) &&
  String.eqb (CheckpointRecord.ParentCheckpointSHA256 (OperationCheckpointEnvelope.Checkpoint e))
    (OperationCheckpointEnvelope.CheckpointSHA256 previous) &&
  String.eqb (OperationCheckpointEnvelope.Domain e) (OperationCheckpointEnvelope.Domain previous) &&
  bool_decide (OperationCheckpointEnvelope.Binding e = OperationCheckpointEnvelope.Binding previous) &&
  String.eqb (OperationSessionRecord.OperationID (OperationCheckpointEnvelope.Session e))
    (OperationSessionRecord.OperationID (OperationCheckpointEnvelope.Session previous)) &&
  allowedSessionTransition (lifecycle_of previous) (lifecycle_of e).

Definition verifyOperationCheckpoints (entries : list Envelope) : result recon_error unit :=
  chain_after ErrOperationCheckpointTamper (fun e => is_ok (OperationCheckpointEnvelope_validate e))
    checkpoint_starts checkpoint_follows None entries.

Definition newOperationCheckpointEnvelope (i : OperationCheckpointInput.t) (sequence : Z) (parent : string)
    : result recon_error Envelope :=
  let session := OperationSessionRecord.mk (OperationCheckpointInput.OperationID i)
    (OperationCheckpointInput.Workflow i) (OperationCheckpointInput.Lifecycle i)
    (OperationCheckpointInput.ContractVersion i) (OperationCheckpointInput.RuntimeVersion i)
    (OperationCheckpointInput.ManifestSHA256 i) (OperationCheckpointInput.ChildActionIDs i) in
  let checkpoint := CheckpointRecord.mk (OperationCheckpointInput.OperationID i) sequence parent
    (OperationCheckpointInput.ReducerSHA256 i) (OperationCheckpointInput.AdapterSHA256 i)
    (OperationCheckpointInput.ChildActionIDs i) (OperationCheckpointInput.AttemptIDs i)
    (OperationCheckpointInput.EvidenceDigests i) in
  let envelope := OperationCheckpointEnvelope.mk sequence (OperationCheckpointInput.Domain i)
    (OperationCheckpointInput.Binding i) session checkpoint in
  digest ← operationCheckpointDigest (envelope "");
  if negb (is_ok (OperationCheckpointEnvelope_validate (envelope digest))) then Err ErrOperationCheckpoint
  else Ok (envelope digest).

Definition checkpoints_of (s : CheckpointStore) (operationID : UUID) : list Envelope :=
  default [] (checkpoints s !! operationID).

Definition AppendCheckpoint (s : CheckpointStore) (i : OperationCheckpointInput.t)
    : CheckpointStore * result recon_error Envelope :=
  let operationID := OperationCheckpointInput.OperationID i in
  let entries := checkpoints_of s operationID in
  let appended parent :=
    match newOperationCheckpointEnvelope i (u64 (len entries + 1)) parent with
    | Err e => (s, Err e)
    | Ok envelope => (mkStore (<[operationID := (entries ++ [envelope])%list]> (checkpoints s)) (resumeClaims s),
                      Ok envelope)
    end in
  if negb (is_ok (OperationCheckpointInput_validate i)) then (s, Err ErrOperationCheckpoint)
  else match last entries with
  | Some latest =>
      match verifyOperationCheckpoints entries with
      | Err e => (s, Err e)
      | Ok _ =>
          if negb (String.eqb (OperationCheckpointEnvelope.Domain latest) (OperationCheckpointInput.Domain i)) ||
             negb (bool_decide (OperationCheckpointEnvelope.Binding latest = OperationCheckpointInput.Binding i)) ||
             negb (String.eqb (OperationSessionRecord.OperationID (OperationCheckpointEnvelope.Session latest)) operationID) ||
             negb (allowedSessionTransition (lifecycle_of latest) (OperationCheckpointInput.Lifecycle i))
          then (s, Err ErrOperationCheckpointCAS)
          else appended (OperationCheckpointEnvelope.CheckpointSHA256 latest)
      end
  | None =>
      if negb (String.eqb (OperationCheckpointInput.Lifecycle i) SessionRunning)
      then (s, Err ErrOperationCheckpointCAS)
      else appended ""
  end.

Definition LatestCheckpoint (s : CheckpointStore) (operationID : UUID) : result recon_error (option Envelope) :=
  if negb (validUUID operationID) then Err ErrOperationCheckpoint
  else
    let entries := checkpoints_of s operationID in
    match last entries with
    | None => Ok None
    | Some latest => _ ← verifyOperationCheckpoints entries; Ok (Some latest)
    end.

Definition validateResumeLocked (s : CheckpointStore) (r : OperationResumeRequest.t)
    : result recon_error OperationResumeDecision.t :=
  let entries := checkpoints_of s (OperationResumeRequest.OperationID r) in
  match last entries with
  | None => Ok (OperationResumeDecision.mk false ReasonLineage "")
  | Some latest =>
      _ ← verifyOperationCheckpoints entries;
      let session := OperationCheckpointEnvelope.Session latest in
      let attempts := CheckpointRecord.AttemptIDs (OperationCheckpointEnvelope.Checkpoint latest) in
      let lifecycle := OperationSessionRecord.Lifecycle session in
      let decide accepted reason := Ok (OperationResumeDecision.mk accepted reason lifecycle) in
      if String.eqb lifecycle SessionSuspended && negb (OperationResumeRequest.AllowSuspended r)
      then decide false ReasonResumeDenied
      else if terminalSessionLifecycle lifecycle then decide false ReasonResumeDenied
      else if negb (String.eqb (OperationCheckpointEnvelope.Domain latest) (OperationResumeRequest.Domain r)) ||
              negb (bool_decide (OperationCheckpointEnvelope.Binding latest = OperationResumeRequest.Binding r))
      then decide false ReasonGeneration
      else if negb (String.eqb (OperationSessionRecord.ManifestSHA256 session) (OperationResumeRequest.ManifestSHA256 r)) ||
              negb (String.eqb (OperationSessionRecord.ContractVersion session) (OperationResumeRequest.ContractVersion r)) ||
              negb (String.eqb (OperationSessionRecord.RuntimeVersion session) (OperationResumeRequest.RuntimeVersion r))
      then decide false ReasonLineage
      else if negb (OperationCheckpointEnvelope.Sequence latest =? OperationResumeRequest.ExpectedSequence r) ||
              negb (String.eqb (OperationCheckpointEnvelope.CheckpointSHA256 latest)
                     (OperationResumeRequest.ExpectedCheckpointSHA256 r))
      then decide false ReasonLineage
      else if (0 <? len attempts) &&
              (String.eqb (OperationResumeRequest.OwnerAttemptID r) "" ||
               negb (uuidInSlice (OperationResumeRequest.OwnerAttemptID r) attempts))
      then decide false ReasonOwnership
      else decide true ReasonAccepted
  end.

Definition ValidateResume (s : CheckpointStore) (r : OperationResumeRequest.t)
    : result recon_error OperationResumeDecision.t :=
  if negb (is_ok (OperationResumeRequest_validate r)) then Err ErrOperationResume else validateResumeLocked s r.

Definition claim_for (r : OperationResumeRequest.t) : resumeClaim.t :=
  resumeClaim.mk (OperationResumeRequest.ResumeID r) (OperationResumeRequest.ExpectedCheckpointSHA256 r)
    (OperationResumeRequest.ExpectedSequence r).

Definition ClaimResume (s : CheckpointStore) (r : OperationResumeRequest.t)
    : CheckpointStore * result recon_error OperationResumeDecision.t :=
  let operationID := OperationResumeRequest.OperationID r in
  if negb (is_ok (OperationResumeRequest_validate r)) then (s, Err ErrOperationResume)
  else match validateResumeLocked s r with
  | Err e => (s, Err e)
  | Ok decision =>
      if negb (OperationResumeDecision.Accepted decision) then (s, Ok decision)
      else
        let refused := (s, Ok (OperationResumeDecision.mk false ReasonOwnership (OperationResumeDecision.Lifecycle decision))) in
        let claimed := (mkStore (checkpoints s) (<[operationID := claim_for r]> (resumeClaims s)), Ok decision) in
        match resumeClaims s !! operationID with
        | Some claim => if negb (bool_decide (claim = claim_for r)) then refused else claimed
        | None => claimed
        end
  end.

(** ** Reachable stores *)

Inductive store_step : CheckpointStore -> CheckpointStore -> Prop :=
| step_checkpoint s i : store_step s (AppendCheckpoint s i).1
| step_claim s r : store_step s (ClaimResume s r).1.

Definition reachable_store (s : CheckpointStore) : Prop := rtc store_step NewMemoryOperationCheckpointStore s.

Lemma newEnvelope_Ok i sequence parent e : newOperationCheckpointEnvelope i sequence parent = Ok e ->
  OperationCheckpointEnvelope_validate e = Ok tt /\ OperationCheckpointEnvelope.Sequence e = sequence /\
  CheckpointRecord.ParentCheckpointSHA256 (OperationCheckpointEnvelope.Checkpoint e) = parent /\
  OperationCheckpointEnvelope.Domain e = OperationCheckpointInput.Domain i /\
  OperationCheckpointEnvelope.Binding e = OperationCheckpointInput.Binding i /\
  OperationSessionRecord.OperationID (OperationCheckpointEnvelope.Session e) = OperationCheckpointInput.OperationID i /\
  lifecycle_of e = OperationCheckpointInput.Lifecycle i.
Proof.
  unfold newOperationCheckpointEnvelope. intros He. apply bind_Ok in He as (digest & _ & He).
  destruct (negb _) eqn:Hv; [done|]. injection He as <-. apply negb_false_iff, is_ok_unit in Hv. done.
Qed.

Lemma envelope_sequence e : OperationCheckpointEnvelope_validate e = Ok tt ->
  OperationCheckpointEnvelope.Sequence e <> 0.
Proof. unfold OperationCheckpointEnvelope_validate. intros Hv. inv_result. bool_prop. done. Qed.

(** The number the verification walks along. *)
Lemma starts_sequence e : checkpoint_starts e = true -> OperationCheckpointEnvelope.Sequence e = 1.
Proof. unfold checkpoint_starts. intros Hs. by bool_prop. Qed.

Lemma follows_sequence p e : checkpoint_follows p e = true ->
  OperationCheckpointEnvelope.Sequence e = u64 (OperationCheckpointEnvelope.Sequence p + 1).
Proof. unfold checkpoint_follows. intros Hs. by bool_prop. Qed.

Definition chain_ok (l : list Envelope) : Prop := verifyOperationCheckpoints l = Ok tt /\ len l <= max_u64.

Lemma chain_latest l e : chain_ok l -> last l = Some e -> OperationCheckpointEnvelope.Sequence e = len l.
Proof.
  intros [Hv Hl] He. eapply chain_last_sequence; eauto using starts_sequence, follows_sequence.
Qed.

Definition store_inv (s : CheckpointStore) : Prop := forall op, chain_ok (checkpoints_of s op).

(** Checkpoints are only appended and claims are never replaced. *)
Definition grows (s s' : CheckpointStore) : Prop :=
  (forall op, checkpoints_of s op `prefix_of` checkpoints_of s' op) /\
  (forall op c, resumeClaims s !! op = Some c -> resumeClaims s' !! op = Some c).

Lemma grows_refl s : grows s s.
Proof. by split. Qed.

Lemma grows_trans s1 s2 s3 : grows s1 s2 -> grows s2 s3 -> grows s1 s3.
Proof. intros [Hp Hc] [Hp' Hc']. split; [intros op; by transitivity (checkpoints_of s2 op)|eauto]. Qed.

Lemma AppendCheckpoint_Ok s i s' e : AppendCheckpoint s i = (s', Ok e) ->
  let op := OperationCheckpointInput.OperationID i in
  let entries := checkpoints_of s op in
  s' = mkStore (<[op := (entries ++ [e])%list]> (checkpoints s)) (resumeClaims s) /\
  exists parent, newOperationCheckpointEnvelope i (u64 (len entries + 1)) parent = Ok e /\
  match last entries with
  | None => parent = "" /\ OperationCheckpointInput.Lifecycle i = SessionRunning
  | Some latest => parent = OperationCheckpointEnvelope.CheckpointSHA256 latest /\
      OperationCheckpointEnvelope.Domain latest = OperationCheckpointInput.Domain i /\
      OperationCheckpointEnvelope.Binding latest = OperationCheckpointInput.Binding i /\
      OperationSessionRecord.OperationID (OperationCheckpointEnvelope.Session latest) = op /\
      allowedSessionTransition (lifecycle_of latest) (OperationCheckpointInput.Lifecycle i) = true
  end.
Proof.
  unfold AppendCheckpoint. intros Ha. destruct (negb _); [done|].
  destruct (last _) as [latest|].
  - destruct (verifyOperationCheckpoints _); [|done]. destruct (_ || _) eqn:Hg; [done|].
    destruct (newOperationCheckpointEnvelope _ _ _) as [x|] eqn:Hx; [|done]. injection Ha as <- <-.
    bool_prop. eauto 10.
  - destruct (negb _) eqn:Hg; [done|].
    destruct (newOperationCheckpointEnvelope _ _ _) as [x|] eqn:Hx; [|done]. injection Ha as <- <-.
    bool_prop. eauto 10.
Qed.

Lemma AppendCheckpoint_Err s i s' e : AppendCheckpoint s i = (s', Err e) -> s' = s.
Proof. unfold AppendCheckpoint. repeat case_match; congruence. Qed.

Lemma checkpoints_of_insert m c op op' l :
  checkpoints_of (mkStore (<[op := l]> m) c) op' = if decide (op' = op) then l else checkpoints_of (mkStore m c) op'.
Proof.
  unfold checkpoints_of. cbn [checkpoints]. destruct (decide (op' = op)) as [->|].
  - by rewrite lookup_insert_eq.
  - by rewrite lookup_insert_ne.
Qed.

Lemma appended_chain l i parent e : chain_ok l ->
  newOperationCheckpointEnvelope i (u64 (len l + 1)) parent = Ok e ->
  match last l with
  | None => parent = "" /\ OperationCheckpointInput.Lifecycle i = SessionRunning
  | Some latest => parent = OperationCheckpointEnvelope.CheckpointSHA256 latest /\
      OperationCheckpointEnvelope.Domain latest = OperationCheckpointInput.Domain i /\
      OperationCheckpointEnvelope.Binding latest = OperationCheckpointInput.Binding i /\
      OperationSessionRecord.OperationID (OperationCheckpointEnvelope.Session latest) = OperationCheckpointInput.OperationID i /\
      allowedSessionTransition (lifecycle_of latest) (OperationCheckpointInput.Lifecycle i) = true
  end ->
  chain_ok (l ++ [e])%list.
Proof.
  intros Hc He Hm. destruct (newEnvelope_Ok _ _ _ _ He) as (Hv & Hq & Hp & Hd & Hb & Ho & Hl).
  pose proof (envelope_sequence e Hv) as Hnz. destruct Hc as [Hver Hlen].
  assert (len l + 1 <= max_u64) as Hbound.
  { destruct (decide (len l = max_u64)) as [Hmax|]; [|lia]. rewrite Hq, Hmax in Hnz. done. }
  split; [|rewrite length_app; simpl; lia].
  destruct (last l) as [latest|] eqn:Hlast.
  - destruct Hm as (-> & Hd' & Hb' & Ho' & Ht). eapply chain_snoc; [done|done|by rewrite Hv|].
    unfold checkpoint_follows. rewrite Hq, Hp, Hd, Hb, Ho, Hl, Hd', Hb', Ho', Ht, !String.eqb_refl.
    rewrite (chain_latest l latest (conj Hver Hlen) Hlast), Z.eqb_refl. by rewrite bool_decide_true.
  - apply last_None in Hlast as ->. destruct Hm as [-> Hr]. apply chain_start; [by rewrite Hv|].
    unfold checkpoint_starts. by rewrite Hq, Hp, Hl, Hr.
Qed.

Lemma ClaimResume_Ok s r s' d : ClaimResume s r = (s', Ok d) -> OperationResumeDecision.Accepted d = true ->
  validateResumeLocked s r = Ok d /\
  s' = mkStore (checkpoints s) (<[OperationResumeRequest.OperationID r := claim_for r]> (resumeClaims s)) /\
  (forall c, resumeClaims s !! OperationResumeRequest.OperationID r = Some c -> c = claim_for r).
Proof.
  unfold ClaimResume. intros Hc Ha. destruct (negb _); [done|].
  destruct (validateResumeLocked s r) as [d'|]; [|done].
  destruct (negb (OperationResumeDecision.Accepted d')) eqn:Hd.
  { injection Hc as <- <-. by rewrite Ha in Hd. }
  destruct (resumeClaims s !! _) as [c|] eqn:Hs.
  - destruct (negb (bool_decide _)) eqn:Hn; injection Hc as <- <-; [done|]. bool_prop. split; [done|]. split; [done|]. congruence.
  - by injection Hc as <- <-.
Qed.

Lemma ClaimResume_cases s r : (ClaimResume s r).1 = s \/
  (ClaimResume s r).1 = mkStore (checkpoints s) (<[OperationResumeRequest.OperationID r := claim_for r]> (resumeClaims s)) /\
  (forall c, resumeClaims s !! OperationResumeRequest.OperationID r = Some c -> c = claim_for r).
Proof.
  unfold ClaimResume. destruct (negb _); [by left|]. destruct (validateResumeLocked s r) as [d'|]; [|by left].
  destruct (negb _); [by left|]. destruct (resumeClaims s !! _) as [c|] eqn:Hs; [|right; split; [done|congruence]].
  destruct (negb _) eqn:Hn; [by left|]. bool_prop. right. split; [done|]. congruence.
Qed.

Lemma store_step_inv s s' : store_step s s' -> store_inv s -> store_inv s' /\ grows s s'.
Proof.
  intros Hstep Hi. destruct Hstep as [s i|s r].
  - destruct (AppendCheckpoint s i) as [s' [e|e]] eqn:Ha.
    + apply AppendCheckpoint_Ok in Ha as (-> & parent & He & Hm). cbn [fst]. split.
      * intros op. rewrite checkpoints_of_insert. destruct (decide _) as [->|]; [|by apply Hi].
        by eapply appended_chain.
      * split; [|done]. intros op. rewrite checkpoints_of_insert. destruct (decide _) as [->|]; [|done].
        by apply prefix_app_r.
    + apply AppendCheckpoint_Err in Ha as ->. split; [done|apply grows_refl].
  - destruct (ClaimResume_cases s r) as [->|[-> Hc]]; [split; [done|apply grows_refl]|].
    split; [done|]. split; [done|]. intros op c Hop. cbn [resumeClaims].
    destruct (decide (op = OperationResumeRequest.OperationID r)) as [->|].
    + rewrite lookup_insert_eq. by rewrite (Hc c Hop).
    + by rewrite lookup_insert_ne.
Qed.

Lemma store_steps_inv s s' : rtc store_step s s' -> store_inv s -> store_inv s' /\ grows s s'.
Proof.
  induction 1 as [s|s1 s2 s3 Hs _ IH]; intros Hi; [split; [done|apply grows_refl]|].
  destruct (store_step_inv _ _ Hs Hi) as [Hi2 G]. destruct (IH Hi2) as [Hi3 G']. split; [done|by eapply grows_trans].
Qed.

Lemma reachable_store_inv s : reachable_store s -> store_inv s.
Proof.
  intros Hr. apply (store_steps_inv _ _ Hr). intros op. unfold checkpoints_of. cbn. by rewrite lookup_empty.
Qed.

(** What an accepted resume has been checked against. *)
Lemma accepted_resume s r d : validateResumeLocked s r = Ok d -> OperationResumeDecision.Accepted d = true ->
  exists latest, last (checkpoints_of s (OperationResumeRequest.OperationID r)) = Some latest /\
    OperationCheckpointEnvelope.Sequence latest = OperationResumeRequest.ExpectedSequence r /\
    OperationCheckpointEnvelope.CheckpointSHA256 latest = OperationResumeRequest.ExpectedCheckpointSHA256 r /\
    OperationCheckpointEnvelope.Binding latest = OperationResumeRequest.Binding r /\
    terminalSessionLifecycle (lifecycle_of latest) = false.
Proof.
  unfold validateResumeLocked. intros Hv Ha. destruct (last _) as [latest|]; [|by injection Hv as <-].
  apply bind_Ok in Hv as (_ & _ & Hv). exists latest. inv_result; try done. bool_prop. done.
Qed.

(** An operation is resumed at one checkpoint by one owner. When a resume has
    been granted, any resume granted later for the same operation, after any further
    checkpoints and claims, carries the same resume identifier and names the same
    checkpoint, which is still the latest, unterminated, one: nothing was appended in
    between. *)
Theorem resume_has_one_owner s1 r1 s1' d1 s2 r2 s2' d2 :
  reachable_store s1 ->
  ClaimResume s1 r1 = (s1', Ok d1) -> OperationResumeDecision.Accepted d1 = true ->
  rtc store_step s1' s2 ->
  ClaimResume s2 r2 = (s2', Ok d2) -> OperationResumeDecision.Accepted d2 = true ->
  OperationResumeRequest.OperationID r2 = OperationResumeRequest.OperationID r1 ->
  OperationResumeRequest.ResumeID r2 = OperationResumeRequest.ResumeID r1 /\
  OperationResumeRequest.ExpectedCheckpointSHA256 r2 = OperationResumeRequest.ExpectedCheckpointSHA256 r1 /\
  checkpoints_of s2 (OperationResumeRequest.OperationID r1) = checkpoints_of s1 (OperationResumeRequest.OperationID r1) /\
  exists latest, last (checkpoints_of s2 (OperationResumeRequest.OperationID r1)) = Some latest /\
    OperationCheckpointEnvelope.CheckpointSHA256 latest = OperationResumeRequest.ExpectedCheckpointSHA256 r1 /\
    terminalSessionLifecycle (lifecycle_of latest) = false.
Proof.
  intros Hr Hc1 Ha1 Hsteps Hc2 Ha2 Hop. pose proof (reachable_store_inv s1 Hr) as Hi1.
  destruct (ClaimResume_Ok _ _ _ _ Hc1 Ha1) as (Hv1 & Hs1' & _). destruct (ClaimResume_Ok _ _ _ _ Hc2 Ha2) as (Hv2 & _ & Hk).
  destruct (store_steps_inv s1' s2 Hsteps) as [Hi2 [Hpre Hclaims]]; [by rewrite Hs1'|].
  assert (claim_for r1 = claim_for r2) as Hsame.
  { apply Hk. rewrite Hop. apply Hclaims. rewrite Hs1'. cbn [resumeClaims]. by rewrite lookup_insert_eq. }
  injection Hsame as Hid Hsha Hseq.
  destruct (accepted_resume _ _ _ Hv1 Ha1) as (l1 & Hl1 & Hq1 & _).
  destruct (accepted_resume _ _ _ Hv2 Ha2) as (l2 & Hl2 & Hq2 & Hsha2 & _ & Ht2). rewrite Hop in Hl2.
  pose proof (chain_latest _ _ (Hi1 _) Hl1) as Hlen1. pose proof (chain_latest _ _ (Hi2 _) Hl2) as Hlen2.
  split; [done|]. split; [done|]. split; [|exists l2; by rewrite Hsha].
  symmetry. apply prefix_length_eq; [|lia]. specialize (Hpre (OperationResumeRequest.OperationID r1)). by rewrite Hs1' in Hpre.
Qed.
End checkpoints.

(** ** An operation that is resumed twice by one owner *)
Module CheckpointSample.
Import SampleDigest.

Definition binding_texts (b : SnapshotBinding.t) : list string :=
  [SnapshotBinding.BootID b; number (SnapshotBinding.BundleGeneration b);
   number (SnapshotBinding.DomainPolicyGeneration b); number (SnapshotBinding.ControlGeneration b);
   number (SnapshotBinding.SnapshotGeneration b); number (SnapshotBinding.SourceWatermark b)].

Definition digest_texts (i : operationCheckpointDigestInput.t) : list string :=
  let session := operationCheckpointDigestInput.Session i in
  let checkpoint := operationCheckpointDigestInput.Checkpoint i in
  (number (operationCheckpointDigestInput.Sequence i) :: operationCheckpointDigestInput.Domain i ::
   OperationSessionRecord.OperationID session :: OperationSessionRecord.Lifecycle session ::
   OperationSessionRecord.ManifestSHA256 session :: CheckpointRecord.ParentCheckpointSHA256 checkpoint ::
   CheckpointRecord.ReducerSHA256 checkpoint :: CheckpointRecord.AdapterSHA256 checkpoint ::
   CheckpointRecord.EvidenceDigests checkpoint ++ binding_texts (operationCheckpointDigestInput.Binding i))%list.

#[export] Instance sample_json : JSON := json.
#[export] Instance digest_codec : Codec operationCheckpointDigestInput.t := texts_codec digest_texts.

Definition operation : UUID := "6d2f0a51-0b7e-4c1f-9a2d-0123456789ab".
Definition binding : SnapshotBinding.t := SnapshotBinding.mk "33333333-3333-4333-8333-333333333333" 4 3 2 9 7.
Definition digest : string := of_chars (replicate 64 "d"%char).

Definition input : OperationCheckpointInput.t :=
  OperationCheckpointInput.mk operation DomainRoot binding WorkflowSyntheticQualification SessionRunning "v1" "v1"
    digest digest digest [] [] [digest].

Definition first : CheckpointStore := (AppendCheckpoint NewMemoryOperationCheckpointStore input).1.

Lemma first_reachable : reachable_store first.
Proof. unfold reachable_store, first. eapply rtc_l; [apply step_checkpoint|apply rtc_refl]. Qed.

Definition latest_digest : string :=
  Eval vm_compute in
    match last (checkpoints_of first operation) with
    | Some e => OperationCheckpointEnvelope.CheckpointSHA256 e
    | None => ""
    end.

Definition request : OperationResumeRequest.t :=
  OperationResumeRequest.mk operation "11111111-1111-4111-8111-111111111111" DomainRoot binding digest "v1" "v1" 1
    latest_digest "" false.

Definition granted (answer : CheckpointStore * result recon_error OperationResumeDecision.t) : bool :=
  match answer.2 with Ok d => OperationResumeDecision.Accepted d | Err _ => false end.

Lemma granted_spec answer : granted answer = true ->
  exists s d, answer = (s, Ok d) /\ OperationResumeDecision.Accepted d = true.
Proof. destruct answer as [s [d|]]; [by exists s, d|done]. Qed.

Lemma both_granted : granted (ClaimResume first request) = true /\
  granted (ClaimResume (ClaimResume first request).1 request) = true.
Proof. vm_compute. split; reflexivity. Qed.

Lemma resume_has_one_owner_witness :
  checkpoints_of (ClaimResume first request).1 operation = checkpoints_of first operation.
Proof.
  destruct both_granted as [Hg1 Hg2].
  destruct (granted_spec _ Hg1) as (s1 & d1 & Hc1 & Ha1). destruct (granted_spec _ Hg2) as (s2 & d2 & Hc2 & Ha2).
  rewrite Hc1 in Hc2 |- *. cbn [fst] in *.
  destruct (resume_has_one_owner first request s1 d1 s1 request s2 d2) as (_ & _ & Hsame & _);
    [exact first_reachable|exact Hc1|exact Ha1|apply rtc_refl|exact Hc2|exact Ha2|reflexivity|exact Hsame].
Defined.
End CheckpointSample.
