(* ===== verification/ReconAdapter.v ===== *)
(** * Synthetic adapters

    [internal/reconciler/synthetic_adapter.go]: the resources an adapter acts on, the
    comparison of the state with the desired one, and the steps that change it. The
    package's interface is the class [SyntheticAdapter]; the memory adapter and the
    fault-injecting adapter around it are its instances.

    [text_digest] is SHA-256 of a text in hexadecimal. A Go map is walked in an
    unspecified order: [walk] is that order, any permutation of the map's contents. *)

From Stdlib Require Import ZArith Lia Ascii String.
From stdpp Require Import base strings list option sets gmap.
From S2P Require Import Prelude Metadata PolicyModel PolicyCanonical ReconContracts ReconReadiness ReconJournal.

Open Scope string_scope.
Open Scope Z_scope.

(** ** Data *)

Abbreviation SyntheticOwnership := string (only parsing).
Definition SyntheticOwned : SyntheticOwnership := "owned".
Definition SyntheticForeign : SyntheticOwnership := "foreign".
Definition SyntheticAmbiguous : SyntheticOwnership := "ambiguous".
Definition SyntheticOwnership_Valid (ownership : SyntheticOwnership) : bool :=
  contains_string [SyntheticOwned; SyntheticForeign; SyntheticAmbiguous] ownership.

Abbreviation SyntheticFaultPoint := string (only parsing).
Definition SyntheticFaultObserve : SyntheticFaultPoint := "observe".
Definition SyntheticFaultCompare : SyntheticFaultPoint := "compare".
Definition SyntheticFaultApply : SyntheticFaultPoint := "apply".
Definition SyntheticFaultVerify : SyntheticFaultPoint := "verify".
Definition SyntheticFaultCompensate : SyntheticFaultPoint := "compensate".
Definition SyntheticFaultCleanup : SyntheticFaultPoint := "cleanup".
Definition SyntheticFaultPoint_Valid (fault : SyntheticFaultPoint) : bool :=
  contains_string [SyntheticFaultObserve; SyntheticFaultCompare; SyntheticFaultApply; SyntheticFaultVerify;
                   SyntheticFaultCompensate; SyntheticFaultCleanup] fault.

Module SyntheticResource.
Record t := mk {
  ID : string;
  Operation : OperationClass;
  StateSHA256 : string;
  Ownership : SyntheticOwnership;
  OwnerActionID : UUID;
  OwnerAttemptID : UUID;
  Protected : bool
}.
#[global] Instance eq_dec : EqDecision t.
Proof. solve_decision. Defined.
End SyntheticResource.

(** [SyntheticState] *)
Abbreviation SyntheticState := (list SyntheticResource.t).

Module SyntheticDesiredResource.
Record t := mk { ID : string; Operation : OperationClass; InputSHA256 : string; StateSHA256 : string }.
#[global] Instance eq_dec : EqDecision t.
Proof. solve_decision. Defined.
End SyntheticDesiredResource.

Module SyntheticDesiredState.
Record t := mk {
  Fresh : bool;
  Authorized : bool;
  Owner : AttemptBinding.t;
  Resources : list SyntheticDesiredResource.t
}.
End SyntheticDesiredState.

Module SyntheticPlanStep.
Record t := mk {
  ID : string;
  ResourceID : string;
  Operation : OperationClass;
  Owner : AttemptBinding.t;
  InputSHA256 : string;
  BeforeSHA256 : string;
  AppliedSHA256 : string;
  VerificationSHA256 : string;
  CompensationSHA256 : string
}.
#[global] Instance eq_dec : EqDecision t.
Proof. solve_decision. Defined.
End SyntheticPlanStep.

Module SyntheticConflict.
Record t := mk { ResourceID : string; Operation : OperationClass; Reason : Reason }.
#[global] Instance eq_dec : EqDecision t.
Proof. solve_decision. Defined.
End SyntheticConflict.

Module SyntheticDiff.
Record t := mk { Steps : list SyntheticPlanStep.t; Conflicts : list SyntheticConflict.t; Noop : bool }.
#[global] Instance eq_dec : EqDecision t.
Proof. solve_decision. Defined.
End SyntheticDiff.

Abbreviation Resource := SyntheticResource.t (only parsing).
Abbreviation Step := SyntheticPlanStep.t (only parsing).
Abbreviation ResourceMap := (gmap string SyntheticResource.t).

(** ** Validation *)

Definition SyntheticDesiredResource_validate (r : SyntheticDesiredResource.t) : result recon_error unit :=
  ensure (validIdentifier (SyntheticDesiredResource.ID r) && OperationClass_Valid (SyntheticDesiredResource.Operation r) &&
          validDigest (SyntheticDesiredResource.InputSHA256 r) && validDigest (SyntheticDesiredResource.StateSHA256 r))
    ErrSyntheticAdapter.

Definition SyntheticDesiredState_validate (d : SyntheticDesiredState.t) : result recon_error unit :=
  if negb (SyntheticDesiredState.Fresh d) || negb (SyntheticDesiredState.Authorized d) ||
     negb (is_ok (AttemptBinding_validate (SyntheticDesiredState.Owner d))) ||
     (MaxResources <? len (SyntheticDesiredState.Resources d))
  then Err ErrSyntheticAdapter
  else ensure (forallb (fun r => is_ok (SyntheticDesiredResource_validate r)) (SyntheticDesiredState.Resources d))
         ErrSyntheticAdapter.

Definition SyntheticResource_validate (r : Resource) : result recon_error unit :=
  if negb (validIdentifier (SyntheticResource.ID r)) || negb (OperationClass_Valid (SyntheticResource.Operation r)) ||
     negb (validDigest (SyntheticResource.StateSHA256 r)) ||
     negb (SyntheticOwnership_Valid (SyntheticResource.Ownership r))
  then Err ErrSyntheticAdapter
  else if String.eqb (SyntheticResource.Ownership r) SyntheticOwned &&
          (negb (validUUID (SyntheticResource.OwnerActionID r)) || negb (validUUID (SyntheticResource.OwnerAttemptID r)) ||
           String.eqb (SyntheticResource.OwnerActionID r) (SyntheticResource.OwnerAttemptID r))
  then Err ErrSyntheticAdapter else Ok tt.

Definition SyntheticPlanStep_validate (s : Step) : result recon_error unit :=
  ensure (validIdentifier (SyntheticPlanStep.ID s) && validIdentifier (SyntheticPlanStep.ResourceID s) &&
          OperationClass_Valid (SyntheticPlanStep.Operation s) &&
          is_ok (AttemptBinding_validate (SyntheticPlanStep.Owner s)) &&
          validDigest (SyntheticPlanStep.InputSHA256 s) && validDigest (SyntheticPlanStep.BeforeSHA256 s) &&
          validDigest (SyntheticPlanStep.AppliedSHA256 s) && validDigest (SyntheticPlanStep.VerificationSHA256 s) &&
          validDigest (SyntheticPlanStep.CompensationSHA256 s)) ErrSyntheticAdapter.

Definition syntheticResourceKey (id : string) (operation : OperationClass) : string :=
  id ++ String "000"%char EmptyString ++ operation.

Abbreviation resource_key r := (syntheticResourceKey (SyntheticResource.ID r) (SyntheticResource.Operation r)).
Abbreviation step_key s := (syntheticResourceKey (SyntheticPlanStep.ResourceID s) (SyntheticPlanStep.Operation s)).
Abbreviation desired_key r :=
  (syntheticResourceKey (SyntheticDesiredResource.ID r) (SyntheticDesiredResource.Operation r)).

Definition SyntheticDiff_validate (d : SyntheticDiff.t) : result recon_error unit :=
  if (MaxPlanSteps <? len (SyntheticDiff.Steps d)) || (MaxResources <? len (SyntheticDiff.Conflicts d))
  then Err ErrSyntheticAdapter
  else ensure (
    forallb (fun s => is_ok (SyntheticPlanStep_validate s)) (SyntheticDiff.Steps d) &&
    distinct_strings (map (fun s => step_key s) (SyntheticDiff.Steps d)) &&
    forallb (fun c => validIdentifier (SyntheticConflict.ResourceID c) &&
                      OperationClass_Valid (SyntheticConflict.Operation c) && Reason_Valid (SyntheticConflict.Reason c))
      (SyntheticDiff.Conflicts d)) ErrSyntheticAdapter.

(** ** Maps of resources *)

Fixpoint resource_map_from (out : ResourceMap) (resources : list Resource) : result recon_error ResourceMap :=
  match resources with
  | [] => Ok out
  | r :: rest =>
      if negb (is_ok (SyntheticResource_validate r)) then Err ErrSyntheticAdapter
      else match out !! resource_key r with
           | Some _ => Err ErrSyntheticAdapter
           | None => resource_map_from (<[resource_key r := r]> out) rest
           end
  end.

Definition syntheticResourceMap (resources : list Resource) : result recon_error ResourceMap :=
  if MaxResources <? len resources then Err ErrSyntheticAdapter else resource_map_from ∅ resources.

Definition sorted_keys {A} (m : gmap string A) : list string := sort_strings (map fst (map_to_list m)).

Definition syntheticResources (resources : ResourceMap) : list Resource :=
  omap (fun key => resources !! key) (sorted_keys resources).

Fixpoint desired_map_from (out : gmap string SyntheticDesiredResource.t) (resources : list SyntheticDesiredResource.t)
    : result recon_error (gmap string SyntheticDesiredResource.t) :=
  match resources with
  | [] => Ok out
  | r :: rest =>
      match out !! desired_key r with
      | Some _ => Err ErrSyntheticAdapter
      | None => desired_map_from (<[desired_key r := r]> out) rest
      end
  end.

Definition classifySyntheticResource (r : Resource) (owner : AttemptBinding.t) : Reason * bool :=
  if SyntheticResource.Protected r then (ReasonPolicy, true)
  else if String.eqb (SyntheticResource.Ownership r) SyntheticForeign then (ReasonOwnership, true)
  else if String.eqb (SyntheticResource.Ownership r) SyntheticAmbiguous then (ReasonOwnership, true)
  else if String.eqb (SyntheticResource.Ownership r) SyntheticOwned then
    if negb (String.eqb (SyntheticResource.OwnerActionID r) (AttemptBinding.ActionID owner)) ||
       negb (String.eqb (SyntheticResource.OwnerAttemptID r) (AttemptBinding.AttemptID owner))
    then (ReasonOwnership, true) else (ReasonAccepted, false)
  else (ReasonSchema, true).

(** [resource] as a step leaves it. *)
Definition owned_resource (s : Step) (state : string) : Resource :=
  SyntheticResource.mk (SyntheticPlanStep.ResourceID s) (SyntheticPlanStep.Operation s) state SyntheticOwned
    (AttemptBinding.ActionID (SyntheticPlanStep.Owner s)) (AttemptBinding.AttemptID (SyntheticPlanStep.Owner s)) false.

Definition TranslationStep_of (s : Step) : TranslationStep.t :=
  TranslationStep.mk (SyntheticPlanStep.ID s) (SyntheticPlanStep.Operation s) (SyntheticPlanStep.InputSHA256 s)
    (SyntheticPlanStep.BeforeSHA256 s) (SyntheticPlanStep.AppliedSHA256 s) (SyntheticPlanStep.VerificationSHA256 s)
    (SyntheticPlanStep.CompensationSHA256 s).

Section adapter.
Context (text_digest : string -> string) (walk : ResourceMap -> list (string * Resource)).

Definition syntheticMissingStateSHA256 : string := text_digest "hexroute.synthetic.missing-state.v1".

Definition newSyntheticPlanStep (index : nat) (r : SyntheticDesiredResource.t) (owner : AttemptBinding.t)
    (before : string) : Step :=
  let id := SyntheticDesiredResource.ID r in
  let operation := SyntheticDesiredResource.Operation r in
  let state := SyntheticDesiredResource.StateSHA256 r in
  SyntheticPlanStep.mk ("synthetic.step" ++ String (ascii_of_nat (97 + index)) EmptyString) id operation owner
    (SyntheticDesiredResource.InputSHA256 r) before state
    (text_digest ("verify:" ++ id ++ ":" ++ operation ++ ":" ++ state))
    (text_digest ("compensate:" ++ id ++ ":" ++ before)).

(** What the comparison of one desired resource adds to the diff. *)
Definition compare_resource (index : nat) (have : option Resource) (want : SyntheticDesiredResource.t)
    (owner : AttemptBinding.t) : option (Step + SyntheticConflict.t) :=
  match have with
  | None => Some (inl (newSyntheticPlanStep index want owner syntheticMissingStateSHA256))
  | Some have =>
      let '(conflict, blocked) := classifySyntheticResource have owner in
      if (blocked : bool) then
        Some (inr (SyntheticConflict.mk (SyntheticDesiredResource.ID want) (SyntheticDesiredResource.Operation want) conflict))
      else if String.eqb (SyntheticResource.StateSHA256 have) (SyntheticDesiredResource.StateSHA256 want) then None
      else Some (inl (newSyntheticPlanStep index want owner (SyntheticResource.StateSHA256 have)))
  end.

Definition compared (current : ResourceMap) (wanted : gmap string SyntheticDesiredResource.t) (owner : AttemptBinding.t)
    : list (Step + SyntheticConflict.t) :=
  omap id (imap (fun index key => want ← wanted !! key; compare_resource index (current !! key) want owner)
    (sorted_keys wanted)).

(** A resource that is not desired. *)
Definition unwanted (wanted : gmap string SyntheticDesiredResource.t) (owner : AttemptBinding.t)
    (x : string * Resource) : option SyntheticConflict.t :=
  match wanted !! x.1 with
  | Some _ => None
  | None =>
      let reason := (classifySyntheticResource x.2 owner).1 in
      Some (SyntheticConflict.mk (SyntheticResource.ID x.2) (SyntheticResource.Operation x.2)
        (if String.eqb reason ReasonAccepted then ReasonLineage else reason))
  end.

Definition DiffSyntheticState (current : SyntheticState) (desired : SyntheticDesiredState.t)
    : result recon_error SyntheticDiff.t :=
  have ← syntheticResourceMap current;
  if negb (is_ok (SyntheticDesiredState_validate desired)) then Err ErrSyntheticAdapter
  else
    wanted ← desired_map_from ∅ (SyntheticDesiredState.Resources desired);
    let owner := SyntheticDesiredState.Owner desired in
    let found := compared have wanted owner in
    let steps := omap (fun x => match x with inl s => Some s | inr _ => None end) found in
    let conflicts := (omap (fun x => match x with inr c => Some c | inl _ => None end) found ++
                      omap (unwanted wanted owner) (walk have))%list in
    let diff := SyntheticDiff.mk steps conflicts ((len steps =? 0) && (len conflicts =? 0)) in
    _ ← SyntheticDiff_validate diff; Ok diff.

(** ** The memory adapter *)

Definition NewMemorySyntheticAdapter (resources : list Resource) : result recon_error ResourceMap :=
  syntheticResourceMap resources.

Definition Memory_Observe (a : ResourceMap) : result recon_error SyntheticState := Ok (syntheticResources a).

Definition Memory_SemanticCompare (a : ResourceMap) (desired : SyntheticDesiredState.t)
    : result recon_error SyntheticDiff.t :=
  current ← Memory_Observe a; DiffSyntheticState current desired.

Definition Memory_Apply (a : ResourceMap) (s : Step) : ResourceMap * result recon_error SyntheticState :=
  if negb (is_ok (SyntheticPlanStep_validate s)) then (a, Err ErrSyntheticAdapter)
  else
    let a' := <[step_key s := owned_resource s (SyntheticPlanStep.AppliedSHA256 s)]> a in
    (a', Memory_Observe a').

(** The ownership tests of [Verify] and of the compensation. *)
Definition owned_by_step (r : Resource) (s : Step) : bool :=
  String.eqb (SyntheticResource.StateSHA256 r) (SyntheticPlanStep.AppliedSHA256 s) &&
  String.eqb (SyntheticResource.Ownership r) SyntheticOwned &&
  String.eqb (SyntheticResource.OwnerActionID r) (AttemptBinding.ActionID (SyntheticPlanStep.Owner s)) &&
  String.eqb (SyntheticResource.OwnerAttemptID r) (AttemptBinding.AttemptID (SyntheticPlanStep.Owner s)).

Definition Memory_Verify (a : ResourceMap) (s : Step) : result recon_error unit :=
  if negb (is_ok (SyntheticPlanStep_validate s)) then Err ErrSyntheticAdapter
  else match a !! step_key s with
       | None => Err ErrSyntheticVerification
       | Some r => if negb (owned_by_step r s) then Err ErrSyntheticVerification else Ok tt
       end.

Definition Memory_Compensate (a : ResourceMap) (s : Step) : ResourceMap * result recon_error SyntheticState :=
  if negb (is_ok (SyntheticPlanStep_validate s)) then (a, Err ErrSyntheticAdapter)
  else
    let a' := if String.eqb (SyntheticPlanStep.BeforeSHA256 s) syntheticMissingStateSHA256
              then delete (step_key s) a
              else <[step_key s := owned_resource s (SyntheticPlanStep.BeforeSHA256 s)]> a in
    (a', Memory_Observe a').

Definition Memory_Cleanup (a : ResourceMap) (owner : AttemptBinding.t) : result recon_error unit :=
  if negb (is_ok (AttemptBinding_validate owner)) then Err ErrSyntheticAdapter else Ok tt.

(** ** The interface *)

Class SyntheticAdapter (A : Type) := {
  Observe : A -> result recon_error SyntheticState;
  SemanticCompare : A -> SyntheticDesiredState.t -> result recon_error SyntheticDiff.t;
  Apply : A -> Step -> A * result recon_error SyntheticState;
  Verify : A -> Step -> result recon_error unit;
  Compensate : A -> Step -> A * result recon_error SyntheticState;
  Cleanup : A -> AttemptBinding.t -> result recon_error unit
}.

#[export] Instance MemorySyntheticAdapter : SyntheticAdapter ResourceMap := {|
  Observe := Memory_Observe; SemanticCompare := Memory_SemanticCompare; Apply := Memory_Apply;
  Verify := Memory_Verify; Compensate := Memory_Compensate; Cleanup := Memory_Cleanup |}.

(** The adapter that fails where it is told to. *)
Record CrashFixture := mkCrash { inner : ResourceMap; faults : gset string }.

Definition NewCrashFixtureSyntheticAdapter (resources : list Resource) (points : list SyntheticFaultPoint)
    : result recon_error CrashFixture :=
  inner ← NewMemorySyntheticAdapter resources;
  if forallb SyntheticFaultPoint_Valid points then Ok (mkCrash inner (list_to_set points)) else Err ErrSyntheticAdapter.

Definition faulty {B} (a : CrashFixture) (point : SyntheticFaultPoint) (call : result recon_error B) : result recon_error B :=
  if bool_decide (point ∈ faults a) then Err ErrSyntheticFault else call.

Definition faulty_change {B} (a : CrashFixture) (point : SyntheticFaultPoint)
    (call : ResourceMap -> ResourceMap * result recon_error B) : CrashFixture * result recon_error B :=
  if bool_decide (point ∈ faults a) then (a, Err ErrSyntheticFault)
  else let '(inner', r) := call (inner a) in (mkCrash inner' (faults a), r).

#[export] Instance CrashFixtureSyntheticAdapter : SyntheticAdapter CrashFixture := {|
  Observe := fun a => faulty a SyntheticFaultObserve (Memory_Observe (inner a));
  SemanticCompare := fun a desired => faulty a SyntheticFaultCompare (Memory_SemanticCompare (inner a) desired);
  Apply := fun a s => faulty_change a SyntheticFaultApply (fun m => Memory_Apply m s);
  Verify := fun a s => faulty a SyntheticFaultVerify (Memory_Verify (inner a) s);
  Compensate := fun a s => faulty_change a SyntheticFaultCompensate (fun m => Memory_Compensate m s);
  Cleanup := fun a owner => faulty a SyntheticFaultCleanup (Memory_Cleanup (inner a) owner) |}.

(** ** Well-formed adapters *)

Definition wf_state (a : ResourceMap) : Prop :=
  map_Forall (fun key r => key = resource_key r /\ SyntheticResource_validate r = Ok tt) a.

Lemma resource_map_from_Ok out l m : resource_map_from out l = Ok m -> wf_state out ->
  wf_state m /\ out ⊆ m /\ forall r, r ∈ l -> m !! resource_key r = Some r.
Proof.
  revert out. induction l as [|x l IH]; intros out Hm Hw; cbn [resource_map_from] in Hm.
  - injection Hm as <-. split; [done|]. split; [done|]. intros r Hr. by apply elem_of_nil in Hr.
  - destruct (is_ok _) eqn:Hv; cbn [negb] in Hm; [|done]. destruct (out !! resource_key x) eqn:Hx; [done|].
    destruct (IH _ Hm) as (Hw' & Hsub & Hl).
    { apply map_Forall_insert_2; [|done]. split; [done|by apply is_ok_unit]. }
    split; [done|]. split.
    + etransitivity; [|exact Hsub]. by apply insert_subseteq.
    + intros r [->|Hr]%elem_of_cons; [|by apply Hl].
      eapply lookup_weaken; [|exact Hsub]. apply lookup_insert_eq.
Qed.

Lemma resource_map_from_dom out l m : resource_map_from out l = Ok m ->
  forall k, is_Some (m !! k) -> is_Some (out !! k) \/ exists r, r ∈ l /\ resource_key r = k.
Proof.
  revert out. induction l as [|x l IH]; intros out Hm k Hk; cbn [resource_map_from] in Hm.
  - injection Hm as <-. by left.
  - destruct (negb _); [done|]. destruct (out !! resource_key x) eqn:Hx; [done|].
    destruct (IH _ Hm k Hk) as [Ho|(r & Hr & He)]; [|right; exists r; split; [by right|done]].
    destruct (decide (k = resource_key x)) as [->|]; [right; exists x; split; [by left|done]|].
    left. by rewrite lookup_insert_ne in Ho.
Qed.

Lemma resource_map_from_total out l :
  (forall r, r ∈ l -> SyntheticResource_validate r = Ok tt /\ out !! resource_key r = None) ->
  NoDup (map (fun r => resource_key r) l) -> exists m, resource_map_from out l = Ok m.
Proof.
  revert out. induction l as [|x l IH]; intros out Hl Hn; [by exists out|]. cbn [resource_map_from map] in *.
  apply NoDup_cons in Hn as [Hx Hn]. destruct (Hl x) as [Hv Ho]; [by left|]. rewrite Hv, Ho. cbn [is_ok negb].
  apply IH; [|done]. intros r Hr. destruct (Hl r) as [Hv' Ho']; [by right|]. split; [done|].
  rewrite lookup_insert_ne; [done|]. intros He. apply Hx. rewrite He.
  apply (list_elem_of_fmap_2 (fun r => resource_key r)). done.
Qed.

Lemma elem_of_sorted_keys {A} (m : gmap string A) k : k ∈ sorted_keys m <-> is_Some (m !! k).
Proof.
  unfold sorted_keys, sort_strings. rewrite elem_of_sort_slice, list_elem_of_fmap. split.
  - intros ([k' v] & -> & Hk). apply elem_of_map_to_list in Hk. by exists v.
  - intros [v Hv]. exists (k, v). split; [done|]. by apply elem_of_map_to_list.
Qed.

Lemma sorted_keys_NoDup {A} (m : gmap string A) : NoDup (sorted_keys m).
Proof. unfold sorted_keys, sort_strings. rewrite sort_slice_perm. apply NoDup_fst_map_to_list. Qed.

Lemma length_sorted_keys {A} (m : gmap string A) : length (sorted_keys m) = size m.
Proof. unfold sorted_keys, sort_strings. by rewrite length_sort_slice, length_map, length_map_to_list. Qed.

Lemma elem_of_syntheticResources a r : r ∈ syntheticResources a <-> exists key, a !! key = Some r.
Proof.
  unfold syntheticResources. rewrite list_elem_of_omap. split.
  - intros (key & _ & Hr). by exists key.
  - intros [key Hr]. exists key. rewrite elem_of_sorted_keys, Hr. by split; [eexists|].
Qed.

Lemma syntheticResources_keys a : wf_state a -> map (fun r => resource_key r) (syntheticResources a) = sorted_keys a.
Proof.
  intros Hw. unfold syntheticResources.
  assert (forall l, (forall k, k ∈ l -> is_Some (a !! k)) ->
    map (fun r => resource_key r) (omap (fun key => a !! key) l) = l) as Hgen.
  { induction l as [|k l IH]; intros Hl; [done|]. destruct (Hl k) as [r Hr]; [by left|]. cbn [omap list_omap].
    rewrite Hr. cbn [map]. f_equal; [by destruct (Hw k r Hr)|]. apply IH. intros k' Hk'. apply Hl. by right. }
  apply Hgen. intros k. by rewrite elem_of_sorted_keys.
Qed.

(** Observing a well-formed adapter and rebuilding the map gives the map back. *)
Lemma observed_map a : wf_state a -> Z.of_nat (size a) <= MaxResources ->
  syntheticResourceMap (syntheticResources a) = Ok a.
Proof.
  intros Hw Hs. unfold syntheticResourceMap. pose proof (syntheticResources_keys a Hw) as Hk.
  assert (length (syntheticResources a) = size a) as Hlen.
  { by rewrite <- length_sorted_keys, <- Hk, length_map. }
  destruct (Z.ltb_spec MaxResources (len (syntheticResources a))); [lia|].
  destruct (resource_map_from_total ∅ (syntheticResources a)) as [m Hm].
  { intros r [key Hr]%elem_of_syntheticResources. split; [by apply (Hw key)|apply lookup_empty]. }
  { rewrite Hk. apply sorted_keys_NoDup. }
  rewrite Hm. f_equal. destruct (resource_map_from_Ok _ _ _ Hm) as (_ & _ & Hl); [apply map_Forall_empty|].
  apply map_eq. intros k. destruct (a !! k) as [r|] eqn:Hr.
  - destruct (Hw k r Hr) as [-> _]. apply Hl, elem_of_syntheticResources. by exists (resource_key r).
  - destruct (m !! k) as [r|] eqn:Hmk; [|done]. exfalso.
    destruct (resource_map_from_dom _ _ _ Hm k) as [[x Hx]|(r' & [key Hr']%elem_of_syntheticResources & <-)];
      [by exists r|by rewrite lookup_empty in Hx|].
    destruct (Hw key r' Hr') as [-> _]. congruence.
Qed.

Lemma observed_map_inv a m : wf_state a -> syntheticResourceMap (syntheticResources a) = Ok m ->
  m = a /\ Z.of_nat (size a) <= MaxResources.
Proof.
  intros Hw Hm. assert (Z.of_nat (size a) <= MaxResources) as Hs.
  { unfold syntheticResourceMap in Hm. destruct (Z.ltb_spec MaxResources (len (syntheticResources a))) as [|Hle]; [done|].
    rewrite <- length_sorted_keys, <- (syntheticResources_keys a Hw), length_map. lia. }
  split; [|done]. rewrite observed_map in Hm by done. congruence.
Qed.

(** ** The desired map *)

Lemma desired_map_from_Ok out l m : desired_map_from out l = Ok m ->
  map_Forall (fun key w => key = desired_key w) out ->
  map_Forall (fun key w => key = desired_key w) m /\
  size m = (size out + length l)%nat /\
  (forall k w, m !! k = Some w -> out !! k = Some w \/ w ∈ l).
Proof.
  revert out. induction l as [|x l IH]; intros out Hm Ho; cbn [desired_map_from] in Hm.
  - injection Hm as <-. split; [done|]. split; [simpl; lia|]. auto.
  - destruct (out !! desired_key x) eqn:Hx; [done|].
    destruct (IH _ Hm) as (Hw & Hs & Hin); [by apply map_Forall_insert_2|].
    split; [done|]. split; [rewrite Hs, map_size_insert_None by done; simpl; lia|].
    intros k w Hk. destruct (Hin k w Hk) as [Hi|]; [|by right; right].
    apply lookup_insert_Some in Hi as [[_ <-]|[_ Hi]]; [by right; left|by left].
Qed.

Lemma elem_of_compared have wanted owner x : x ∈ compared have wanted owner <->
  exists index key want, sorted_keys wanted !! index = Some key /\ wanted !! key = Some want /\
    compare_resource index (have !! key) want owner = Some x.
Proof.
  unfold compared. rewrite list_elem_of_omap. setoid_rewrite elem_of_lookup_imap. split.
  - intros (o & (index & key & -> & Hk) & Ho). cbn [id] in Ho. apply bind_Some in Ho as (want & Hw & Hx).
    by exists index, key, want.
  - intros (index & key & want & Hk & Hw & Hx). exists (Some x). split; [|done].
    exists index, key. split; [|done]. by rewrite Hw.
Qed.

(** ** Convergence *)

(** Applying the steps of a plan in order, stopping at the first error. *)
Fixpoint apply_all {A} `{SyntheticAdapter A} (a : A) (steps : list Step) : A * result recon_error unit :=
  match steps with
  | [] => (a, Ok tt)
  | s :: rest =>
      match Apply a s with
      | (a', Err e) => (a', Err e)
      | (a', Ok _) => apply_all a' rest
      end
  end.

Definition applied (a : ResourceMap) (steps : list Step) : ResourceMap :=
  foldl (fun m s => <[step_key s := owned_resource s (SyntheticPlanStep.AppliedSHA256 s)]> m) a steps.

Lemma apply_all_valid a steps : (forall s, s ∈ steps -> SyntheticPlanStep_validate s = Ok tt) ->
  apply_all a steps = (applied a steps, Ok tt).
Proof.
  revert a. induction steps as [|s steps IH]; intros a Hs; [done|].
  cbn [apply_all Apply MemorySyntheticAdapter]. unfold Memory_Apply. rewrite (Hs s) by by left. cbn [is_ok negb].
  unfold Memory_Observe. apply IH. intros x Hx. apply Hs. by right.
Qed.

Lemma binding_owner b : AttemptBinding_validate b = Ok tt ->
  validUUID (AttemptBinding.ActionID b) = true /\ validUUID (AttemptBinding.AttemptID b) = true /\
  AttemptBinding.ActionID b <> AttemptBinding.AttemptID b.
Proof. unfold AttemptBinding_validate. intros Hb. inv_bind. bool_prop. done. Qed.

Lemma owned_resource_valid s state : SyntheticPlanStep_validate s = Ok tt -> validDigest state = true ->
  SyntheticResource_validate (owned_resource s state) = Ok tt.
Proof.
  unfold SyntheticPlanStep_validate. intros Hs Hd. inv_bind. bool_prop.
  match goal with Hb : is_ok (AttemptBinding_validate _) = true |- _ => apply is_ok_unit, binding_owner in Hb as (Hu & Hv & Hn) end.
  unfold SyntheticResource_validate, owned_resource.
  cbn [SyntheticResource.ID SyntheticResource.Operation SyntheticResource.StateSHA256 SyntheticResource.Ownership
       SyntheticResource.OwnerActionID SyntheticResource.OwnerAttemptID].
  apply String.eqb_neq in Hn. rewrite Hd, Hu, Hv, Hn.
  repeat match goal with Hb : _ = true |- _ => rewrite Hb; clear Hb end. done.
Qed.

Lemma step_applied_digest s : SyntheticPlanStep_validate s = Ok tt ->
  validDigest (SyntheticPlanStep.AppliedSHA256 s) = true /\ validDigest (SyntheticPlanStep.BeforeSHA256 s) = true.
Proof. unfold SyntheticPlanStep_validate. intros Hs. inv_bind. bool_prop. done. Qed.

Lemma applied_wf a steps : wf_state a -> (forall s, s ∈ steps -> SyntheticPlanStep_validate s = Ok tt) ->
  wf_state (applied a steps).
Proof.
  revert a. induction steps as [|s steps IH]; intros a Hw Hs; [done|]. apply IH.
  - apply map_Forall_insert_2; [|done]. split; [done|]. pose proof (Hs s ltac:(by left)) as Hv.
    by apply owned_resource_valid, step_applied_digest.
  - intros x Hx. apply Hs. by right.
Qed.

(** A resource that already is as desired, owned by the attempt. *)
Definition settled (wanted : gmap string SyntheticDesiredResource.t) (owner : AttemptBinding.t) (a : ResourceMap)
    (key : string) : Prop :=
  exists r w, a !! key = Some r /\ wanted !! key = Some w /\ (classifySyntheticResource r owner).2 = false /\
    SyntheticResource.StateSHA256 r = SyntheticDesiredResource.StateSHA256 w.

(** A step towards the desired state. *)
Definition settles (wanted : gmap string SyntheticDesiredResource.t) (owner : AttemptBinding.t) (s : Step) : Prop :=
  exists w, wanted !! step_key s = Some w /\ SyntheticPlanStep.Owner s = owner /\
    SyntheticPlanStep.AppliedSHA256 s = SyntheticDesiredResource.StateSHA256 w.

Lemma owned_unblocked s state :
  classifySyntheticResource (owned_resource s state) (SyntheticPlanStep.Owner s) = (ReasonAccepted, false).
Proof.
  unfold classifySyntheticResource, owned_resource.
  cbn [SyntheticResource.Protected SyntheticResource.Ownership SyntheticResource.OwnerActionID SyntheticResource.OwnerAttemptID].
  by rewrite !String.eqb_refl.
Qed.

Lemma unblocked_owned r owner : (classifySyntheticResource r owner).2 = false ->
  SyntheticResource.Protected r = false /\ SyntheticResource.Ownership r = SyntheticOwned /\
  SyntheticResource.OwnerActionID r = AttemptBinding.ActionID owner /\
  SyntheticResource.OwnerAttemptID r = AttemptBinding.AttemptID owner.
Proof.
  unfold classifySyntheticResource. intros Hb. repeat case_match; try discriminate Hb. bool_prop. done.
Qed.

Lemma applied_settles wanted owner steps a : (forall s, s ∈ steps -> settles wanted owner s) ->
  (forall key, is_Some (a !! key) -> is_Some (wanted !! key)) ->
  (forall key, settled wanted owner a key -> settled wanted owner (applied a steps) key) /\
  (forall s, s ∈ steps -> settled wanted owner (applied a steps) (step_key s)) /\
  (forall key, is_Some (applied a steps !! key) -> is_Some (wanted !! key)).
Proof.
  revert a. induction steps as [|s steps IH]; intros a Hs Ha.
  { split; [done|]. split; [|done]. intros x Hx. by apply elem_of_nil in Hx. }
  set (a1 := <[step_key s := owned_resource s (SyntheticPlanStep.AppliedSHA256 s)]> a).
  destruct (Hs s) as (w & Hw & Ho & Hst); [by left|].
  assert (settled wanted owner a1 (step_key s)) as Hself.
  { exists (owned_resource s (SyntheticPlanStep.AppliedSHA256 s)), w. unfold a1. rewrite lookup_insert_eq.
    split; [done|]. split; [done|]. split; [|done]. by rewrite <- Ho, owned_unblocked. }
  destruct (IH a1) as (Hkeep & Hdone & Hdom).
  { intros x Hx. apply Hs. by right. }
  { intros key. unfold a1. destruct (decide (key = step_key s)) as [->|]; [by rewrite Hw; eexists|].
    rewrite lookup_insert_ne by done. apply Ha. }
  split; [|split; [|done]].
  - intros key Hk. apply Hkeep. destruct (decide (key = step_key s)) as [->|]; [done|].
    destruct Hk as (r & w' & Hr & Hk). exists r, w'. unfold a1. by rewrite lookup_insert_ne.
  - intros x [->|Hx]%elem_of_cons; [by apply Hkeep|by apply Hdone].
Qed.

Lemma DiffSyntheticState_Ok current desired diff : DiffSyntheticState current desired = Ok diff ->
  exists have wanted, syntheticResourceMap current = Ok have /\ SyntheticDesiredState_validate desired = Ok tt /\
    desired_map_from ∅ (SyntheticDesiredState.Resources desired) = Ok wanted /\
    let found := compared have wanted (SyntheticDesiredState.Owner desired) in
    (forall s, s ∈ SyntheticDiff.Steps diff <-> inl s ∈ found) /\
    (SyntheticDiff.Conflicts diff = [] ->
      (forall c, inr c ∉ found) /\ omap (unwanted wanted (SyntheticDesiredState.Owner desired)) (walk have) = []) /\
    SyntheticDiff_validate diff = Ok tt.
Proof.
  unfold DiffSyntheticState. intros Hd. apply bind_Ok in Hd as (have & Hh & Hd).
  destruct (is_ok _) eqn:Hv in Hd; cbn [negb] in Hd; [|done]. apply is_ok_unit in Hv.
  apply bind_Ok in Hd as (wanted & Hw & Hd). apply bind_Ok in Hd as ([] & Hvd & Hd). injection Hd as <-.
  exists have, wanted. do 3 (split; [done|]). cbn [SyntheticDiff.Steps SyntheticDiff.Conflicts]. split; [|split; [|done]].
  - intros s. rewrite list_elem_of_omap. split; [intros ([s'|] & Hx & [= <-]); done|]. intros Hs. by exists (inl s).
  - intros [Hc Hu]%app_eq_nil. split; [|done]. intros c Hin.
    assert (c ∈ omap (fun x => match x with inr c => Some c | inl _ => None end)
      (compared have wanted (SyntheticDesiredState.Owner desired))) as Habs
      by (apply list_elem_of_omap; by exists (inr c)).
    rewrite Hc in Habs. by apply elem_of_nil in Habs.
Qed.

Context (walk_all : forall m, walk m ≡ₚ map_to_list m).

Lemma walk_unwanted wanted owner (m : ResourceMap) :
  omap (unwanted wanted owner) (walk m) = [] <-> forall key, is_Some (m !! key) -> is_Some (wanted !! key).
Proof.
  assert (omap (unwanted wanted owner) (walk m) = [] <-> forall x, x ∈ walk m -> unwanted wanted owner x = None) as ->.
  { induction (walk m) as [|x l IH]; cbn [omap list_omap].
    - split; [intros _ x Hx; by apply elem_of_nil in Hx|done].
    - destruct (unwanted wanted owner x) as [c|] eqn:Hx.
      + split; [done|]. intros Hall. rewrite Hall in Hx by by left. done.
      + rewrite IH. split; [|intros Hall y Hy; apply Hall; by right].
        intros Hall y [->|Hy]%elem_of_cons; [done|by apply Hall]. }
  setoid_rewrite walk_all. split.
  - intros Hall key [r Hr]. specialize (Hall (key, r)). rewrite elem_of_map_to_list in Hall. specialize (Hall Hr).
    unfold unwanted in Hall. cbn [fst] in Hall. by destruct (wanted !! key); [eexists|].
  - intros Hall [key r] Hr%elem_of_map_to_list. unfold unwanted. cbn [fst snd].
    by destruct (Hall key (mk_is_Some _ _ Hr)) as [w ->].
Qed.

Lemma compare_steps (have : ResourceMap) wanted owner index key want x :
  map_Forall (fun key w => key = desired_key w) wanted -> wanted !! key = Some want ->
  compare_resource index (have !! key) want owner = Some (inl x) -> step_key x = key /\ settles wanted owner x.
Proof.
  intros Hkeys Hw Hc. pose proof (Hkeys _ _ Hw) as Hk. unfold compare_resource in Hc.
  assert (forall before, x = newSyntheticPlanStep index want owner before -> step_key x = key /\ settles wanted owner x) as Hnew.
  { intros before ->. unfold newSyntheticPlanStep. cbn [SyntheticPlanStep.ResourceID SyntheticPlanStep.Operation].
    split; [done|]. exists want. split; [|done]. rewrite Hk in Hw. exact Hw. }
  destruct (have !! key) as [r|]; [|injection Hc as <-; by eapply Hnew].
  destruct (classifySyntheticResource r owner) as [conflict []]; [done|].
  destruct (String.eqb _ _); [done|]. injection Hc as <-. by eapply Hnew.
Qed.

(** A desired resource that needs neither a step nor raises a conflict. *)
Lemma compare_settled (have : ResourceMap) wanted owner index key want :
  wanted !! key = Some want -> compare_resource index (have !! key) want owner = None ->
  settled wanted owner have key.
Proof.
  unfold compare_resource. intros Hw Hc. destruct (have !! key) as [r|] eqn:Hr; [|done].
  destruct (classifySyntheticResource r owner) as [conflict blocked] eqn:Hb. destruct blocked; [done|].
  destruct (String.eqb_spec (SyntheticResource.StateSHA256 r) (SyntheticDesiredResource.StateSHA256 want)) as [He|]; [|done].
  exists r, want. by rewrite Hb.
Qed.

Lemma settled_compare (have : ResourceMap) wanted owner index key want :
  wanted !! key = Some want -> settled wanted owner have key ->
  compare_resource index (have !! key) want owner = None.
Proof.
  intros Hw (r & w & Hr & Hw' & Hb & Hs). rewrite Hw in Hw'. injection Hw' as <-. rewrite Hr. unfold compare_resource.
  destruct (classifySyntheticResource r owner) as [conflict blocked]. cbn in Hb. subst blocked.
  by rewrite Hs, String.eqb_refl.
Qed.

Lemma diff_steps_valid diff s : SyntheticDiff_validate diff = Ok tt -> s ∈ SyntheticDiff.Steps diff ->
  SyntheticPlanStep_validate s = Ok tt.
Proof.
  unfold SyntheticDiff_validate. intros Hd Hs. destruct (_ || _); [done|]. inv_bind. bool_prop.
  match goal with Hf : forallb _ (SyntheticDiff.Steps diff) = true |- _ => rewrite forallb_forall in Hf;
    apply is_ok_unit, Hf end.
  by apply list_elem_of_In.
Qed.

Lemma size_within (a : ResourceMap) (wanted : gmap string SyntheticDesiredResource.t) :
  (forall key, is_Some (a !! key) -> is_Some (wanted !! key)) -> (size a <= size wanted)%nat.
Proof.
  intros Hsub. rewrite <- !size_dom. apply subseteq_size. intros key.
  rewrite !elem_of_dom. apply Hsub.
Qed.

(** Nothing is found against a state in which every desired resource is settled. *)
Lemma settled_diff a desired wanted :
  wf_state a -> SyntheticDesiredState_validate desired = Ok tt ->
  desired_map_from ∅ (SyntheticDesiredState.Resources desired) = Ok wanted ->
  (forall key, is_Some (a !! key) -> is_Some (wanted !! key)) ->
  (forall key, is_Some (wanted !! key) -> settled wanted (SyntheticDesiredState.Owner desired) a key) ->
  Memory_SemanticCompare a desired = Ok (SyntheticDiff.mk [] [] true).
Proof.
  intros Hw Hd Hm Hdom Hall. unfold Memory_SemanticCompare, Memory_Observe. rewrite Ok_bind.
  destruct (desired_map_from_Ok _ _ _ Hm) as (_ & Hsize & _); [apply map_Forall_empty|].
  rewrite map_size_empty in Hsize. pose proof (size_within _ _ Hdom) as Hle.
  assert (len (SyntheticDesiredState.Resources desired) <= MaxResources) as Hmax.
  { unfold SyntheticDesiredState_validate in Hd. destruct (_ || _) eqn:Hg; [done|]. bool_prop. lia. }
  unfold DiffSyntheticState. rewrite observed_map by (done || lia). rewrite Ok_bind, Hd. cbn [is_ok negb].
  rewrite Hm, Ok_bind.
  assert (compared a wanted (SyntheticDesiredState.Owner desired) = []) as ->.
  { destruct (compared _ _ _) as [|x l] eqn:Hc; [done|]. exfalso.
    assert (x ∈ compared a wanted (SyntheticDesiredState.Owner desired)) as Hx by (rewrite Hc; by left).
    apply elem_of_compared in Hx as (index & key & want & _ & Hwant & Hx).
    rewrite (settled_compare a wanted) in Hx; [done|done|]. apply Hall. by eexists. }
  rewrite (proj2 (walk_unwanted wanted (SyntheticDesiredState.Owner desired) a)) by done. done.
Qed.

(** Reconciliation converges. When the comparison of a well-formed adapter with
    a desired state raises no conflict, every step of the diff can be applied, each
    applied step verifies at the end, and comparing again finds nothing left to do. *)
Theorem adapter_converges a desired diff :
  wf_state a -> Memory_SemanticCompare a desired = Ok diff -> SyntheticDiff.Conflicts diff = [] ->
  exists a', apply_all a (SyntheticDiff.Steps diff) = (a', Ok tt) /\ wf_state a' /\
    Memory_SemanticCompare a' desired = Ok (SyntheticDiff.mk [] [] true) /\
    forall s, s ∈ SyntheticDiff.Steps diff -> Memory_Verify a' s = Ok tt.
Proof.
  intros Hw Hc Hnone. unfold Memory_SemanticCompare, Memory_Observe in Hc. rewrite Ok_bind in Hc.
  apply DiffSyntheticState_Ok in Hc as (have & wanted & Hh & Hd & Hm & Hsteps & Hconf & Hv).
  apply observed_map_inv in Hh as [-> Hsize]; [|done]. destruct (Hconf Hnone) as [Hno Hwalk].
  rewrite walk_unwanted in Hwalk.
  destruct (desired_map_from_Ok _ _ _ Hm) as (Hkeys & _ & _); [apply map_Forall_empty|].
  assert (forall s, s ∈ SyntheticDiff.Steps diff -> settles wanted (SyntheticDesiredState.Owner desired) s) as Hset.
  { intros s (index & key & want & _ & Hwant & Hx)%Hsteps%elem_of_compared. by eapply compare_steps. }
  assert (forall s, s ∈ SyntheticDiff.Steps diff -> SyntheticPlanStep_validate s = Ok tt) as Hvalid
    by (intros s; by apply diff_steps_valid).
  destruct (applied_settles _ _ _ a Hset Hwalk) as (Hkeep & Hdone & Hdom).
  exists (applied a (SyntheticDiff.Steps diff)). split; [by apply apply_all_valid|].
  split; [by apply applied_wf|]. split.
  - eapply settled_diff; try done; [by apply applied_wf|]. intros key [want Hwant].
    pose proof (proj2 (elem_of_sorted_keys wanted key) (mk_is_Some _ _ Hwant)) as Hin.
    apply list_elem_of_lookup in Hin as [index Hi].
    destruct (compare_resource index (a !! key) want (SyntheticDesiredState.Owner desired)) as [[s|c]|] eqn:Hx.
    + destruct (compare_steps a wanted _ _ _ _ _ Hkeys Hwant Hx) as [Hkey _]. rewrite <- Hkey. apply Hdone, Hsteps.
      apply elem_of_compared. by exists index, key, want.
    + exfalso. apply (Hno c), elem_of_compared. by exists index, key, want.
    + apply Hkeep. by eapply compare_settled.
  - intros s Hs. unfold Memory_Verify. rewrite (Hvalid s Hs). cbn [is_ok negb].
    destruct (Hdone s Hs) as (r & w & -> & Hw' & Hb & Hst). destruct (Hset s Hs) as (w' & Hw'' & Ho & Ha).
    rewrite Hw' in Hw''. injection Hw'' as <-. rewrite <- Ho in Hb. unfold owned_by_step.
    apply unblocked_owned in Hb as (_ & -> & -> & ->). by rewrite Hst, Ha, !String.eqb_refl.
Qed.
End adapter.

(** ** Two resources, one of them to be created *)
Module AdapterSample.
Import SampleDigest.

Definition owner : AttemptBinding.t := JournalSample.binding.
Definition text_digest (s : string) : string := hash [s].
Definition digest (c : ascii) : string := of_chars (replicate 64 c).

Definition present : SyntheticResource.t :=
  SyntheticResource.mk "synthetic.first" OperationSyntheticState (digest "a") SyntheticOwned
    (AttemptBinding.ActionID owner) (AttemptBinding.AttemptID owner) false.

Definition adapter : gmap string SyntheticResource.t := {[ resource_key present := present ]}.

Definition desired : SyntheticDesiredState.t :=
  SyntheticDesiredState.mk true true owner
    [SyntheticDesiredResource.mk "synthetic.first" OperationSyntheticState (digest "c") (digest "b");
     SyntheticDesiredResource.mk "synthetic.second" OperationSyntheticState (digest "c") (digest "d")].

Definition compared_diff : result recon_error SyntheticDiff.t :=
  Eval vm_compute in Memory_SemanticCompare text_digest map_to_list adapter desired.

Definition diff : SyntheticDiff.t := match compared_diff with Ok d => d | Err _ => SyntheticDiff.mk [] [] true end.

Lemma diff_found : Memory_SemanticCompare text_digest map_to_list adapter desired = Ok diff.
Proof. vm_compute. reflexivity. Qed.

Lemma adapter_wf : wf_state adapter.
Proof. apply map_Forall_singleton. split; [reflexivity|]. vm_compute. reflexivity. Qed.

Lemma adapter_converges_witness :
  len (SyntheticDiff.Steps diff) = 2 /\
  exists a', apply_all (H := MemorySyntheticAdapter text_digest map_to_list) adapter (SyntheticDiff.Steps diff) = (a', Ok tt) /\
    Memory_SemanticCompare text_digest map_to_list a' desired = Ok (SyntheticDiff.mk [] [] true).
Proof.
  split; [reflexivity|].
  destruct (adapter_converges text_digest map_to_list (fun m => Permutation_refl _) adapter desired diff adapter_wf
    diff_found eq_refl) as (a' & Ha & _ & Hn & _).
  exists a'. exact (conj Ha Hn).
Defined.
End AdapterSample.
