(* ===== verification/ReconCancel.v ===== *)
(** * Cancellation

    [internal/reconciler/cancellation.go]: a cancellation is first recorded as an
    intent, which blocks every further step of the attempt, and then resolved: the
    applied steps are compensated last to first, the attempt's resources are closed,
    and the attempt is swapped into its terminal state. The journal and the adapter
    are used through the package's interfaces. *)

From Stdlib Require Import ZArith Lia Ascii String.
From stdpp Require Import base strings list option sets gmap.
From S2P Require Import Prelude Metadata PolicyModel PolicyCanonical ReconContracts ReconReadiness ReconJournal ReconAdapter.

Open Scope string_scope.
Open Scope Z_scope.

(** ** The journal's interface *)

Class AttemptStateJournal (J : Type) := {
  Latest : J -> UUID -> result recon_error (option AttemptJournalEntry.t);
  CompareAndSwap : J -> AttemptBinding.t -> AttemptState -> AttemptState -> Reason ->
    J * result recon_error AttemptJournalEntry.t
}.

(** What a journal promises its clients: a swap succeeds only from the latest entry,
    under its binding and along the transition table, and then is the latest entry;
    a swap outside the table is refused and changes nothing. *)
Class AttemptJournalLaws (J : Type) `{AttemptStateJournal J} := {
  journal_ok : J -> Prop;
  swap_done : forall j b from to reason j' e, journal_ok j ->
    CompareAndSwap j b from to reason = (j', Ok e) ->
    journal_ok j' /\ Latest j' (AttemptBinding.ActionID b) = Ok (Some e) /\
    entry_state e = to /\ AttemptJournalEntry.Binding e = b /\ AttemptJournalEntry.Reason e = reason /\
    allowedAttemptTransition from to = true /\
    exists latest, Latest j (AttemptBinding.ActionID b) = Ok (Some latest) /\ entry_state latest = from /\
      AttemptJournalEntry.Binding latest = b;
  swap_outside : forall j b from to reason, swap_allowed b from to reason = true ->
    allowedAttemptTransition from to = false -> CompareAndSwap j b from to reason = (j, Err ErrAttemptTransition)
}.

(** ** Data *)

Module CancellationIntentRecord.
Record t := mk {
  CancelID : UUID;
  ActionID : UUID;
  AttemptID : UUID;
  Binding : AttemptBinding.t;
  ObservedState : AttemptState;
  Reason : Reason;
  IntentSHA256 : string
}.
#[global] Instance eq_dec : EqDecision t.
Proof. solve_decision. Defined.
End CancellationIntentRecord.

Module cancellationIntentDigestInput.
Record t := mk {
  CancelID : UUID;
  ActionID : UUID;
  AttemptID : UUID;
  Binding : AttemptBinding.t;
  ObservedState : AttemptState;
  Reason : Reason
}.
End cancellationIntentDigestInput.

(** [MemoryCancellationIntentStore] and [MemorySyntheticResourceRegistry] *)
Abbreviation IntentStore := (gmap UUID CancellationIntentRecord.t).
Abbreviation ResourceRegistry := (gmap string ResourceRecord.t).

Module CleanupResult.
Record t := mk {
  Closed : list string;
  Failed : list string;
  Incident : option IncidentRecord.t;
  Uncertainty : bool
}.
End CleanupResult.

Module CompensationResult.
Record t := mk {
  Compensated : list string;
  Outcome : AttemptState;
  Reason : Reason;
  Incident : option IncidentRecord.t
}.
End CompensationResult.

Module CancellationResolution.
Record t := mk {
  Intent : CancellationIntentRecord.t;
  Attempt : AttemptJournalEntry.t;
  Compensation : CompensationResult.t;
  Cleanup : CleanupResult.t;
  Outcome : OutcomeRecord.t
}.
End CancellationResolution.

(** ** Small operations *)

Definition cancellableAttemptState (state : AttemptState) : bool :=
  contains_string [AttemptPending; AttemptClaimed; AttemptRunning; AttemptVerifying] state.

Definition cleanupIncident (b : AttemptBinding.t) (reason : Reason) : IncidentRecord.t :=
  IncidentRecord.mk (AttemptBinding.ActionID b) SeverityCritical reason (AttemptBinding.Target b).

Definition safeModeCompensation (b : AttemptBinding.t) (reason : Reason) : CompensationResult.t :=
  CompensationResult.mk [] AttemptSafeMode reason (Some (cleanupIncident b reason)).

Definition cleanupUncertain (b : AttemptBinding.t) (reason : Reason) : CleanupResult.t :=
  CleanupResult.mk [] [] (Some (cleanupIncident b reason)) true.

Definition syntheticStepIsExactlyOwned (state : SyntheticState) (s : SyntheticPlanStep.t) : bool :=
  existsb (fun r => String.eqb (SyntheticResource.ID r) (SyntheticPlanStep.ResourceID s) &&
    String.eqb (SyntheticResource.Operation r) (SyntheticPlanStep.Operation s) && owned_by_step r s &&
    negb (SyntheticResource.Protected r)) state.

Definition BuildCancellationOutcome (b : AttemptBinding.t) (state : AttemptState) (reason : Reason) : OutcomeRecord.t :=
  let outcome :=
    if String.eqb state AttemptCancelled then OutcomeCancelled
    else if String.eqb state AttemptRolledBack then OutcomeRolledBack
    else if String.eqb state AttemptSafeMode then OutcomeSafeMode
    else if String.eqb state AttemptFailed then OutcomeFailed
    else OutcomeCancelled in
  OutcomeRecord.mk (AttemptBinding.ActionID b) (AttemptBinding.AttemptID b) outcome reason ReportPending.

(** ** Compensation *)

(** The loop over [applied], from its last step to its first. *)
Fixpoint compensate_steps {A} `{SyntheticAdapter A} (a : A) (b : AttemptBinding.t) (result : CompensationResult.t)
    (steps : list SyntheticPlanStep.t) : A * CompensationResult.t :=
  match steps with
  | [] => (a, result)
  | s :: rest =>
      if negb (is_ok (SyntheticPlanStep_validate s)) || negb (bool_decide (SyntheticPlanStep.Owner s = b))
      then (a, safeModeCompensation b ReasonOwnership)
      else match Observe a with
           | Err _ => (a, safeModeCompensation b ReasonCompensation)
           | Ok state =>
               if negb (syntheticStepIsExactlyOwned state s) then (a, safeModeCompensation b ReasonSafeMode)
               else match Compensate a s with
                    | (a', Err _) => (a', safeModeCompensation b ReasonCompensation)
                    | (a', Ok _) =>
                        compensate_steps a' b
                          (CompensationResult.mk (CompensationResult.Compensated result ++ [SyntheticPlanStep.ID s])%list
                             (CompensationResult.Outcome result) (CompensationResult.Reason result)
                             (CompensationResult.Incident result)) rest
                    end
           end
  end.

Definition CompensateSyntheticAppliedPrefix {A} `{SyntheticAdapter A} (a : A) (b : AttemptBinding.t)
    (applied : list SyntheticPlanStep.t) : A * result recon_error CompensationResult.t :=
  if negb (is_ok (AttemptBinding_validate b)) || (len applied =? 0) || (MaxPlanSteps <? len applied)
  then (a, Err ErrSyntheticAdapter)
  else
    let '(a', r) := compensate_steps a b (CompensationResult.mk [] AttemptRolledBack ReasonCompensation None) (rev applied) in
    (a', Ok r).

Section cancel.
Context `{JSON} `{!Codec cancellationIntentDigestInput.t} `{!Codec AttemptBinding.t}.

Definition AttemptBindingSHA256 (b : AttemptBinding.t) : string :=
  match MarshalCanonical b with Err _ => "" | Ok encoded => SHA256Hex encoded end.

(** ** Intents *)

Definition cancellationIntentDigest (i : CancellationIntentRecord.t) : result recon_error string :=
  let b := CancellationIntentRecord.Binding i in
  if negb (validUUID (CancellationIntentRecord.CancelID i)) || negb (validUUID (CancellationIntentRecord.ActionID i)) ||
     negb (validUUID (CancellationIntentRecord.AttemptID i)) || negb (is_ok (AttemptBinding_validate b)) ||
     negb (AttemptState_Valid (CancellationIntentRecord.ObservedState i)) ||
     negb (Reason_Valid (CancellationIntentRecord.Reason i)) ||
     negb (String.eqb (CancellationIntentRecord.ActionID i) (AttemptBinding.ActionID b)) ||
     negb (String.eqb (CancellationIntentRecord.AttemptID i) (AttemptBinding.AttemptID b))
  then Err ErrCancellationIntent
  else match MarshalCanonical (cancellationIntentDigestInput.mk (CancellationIntentRecord.CancelID i)
               (CancellationIntentRecord.ActionID i) (CancellationIntentRecord.AttemptID i) b
               (CancellationIntentRecord.ObservedState i) (CancellationIntentRecord.Reason i)) with
       | Err _ => Err ErrCancellationIntent
       | Ok encoded => Ok (SHA256Hex encoded)
       end.

Definition CancellationIntentRecord_Validate (i : CancellationIntentRecord.t) : result recon_error unit :=
  if negb (validDigest (CancellationIntentRecord.IntentSHA256 i)) then Err ErrCancellationIntent
  else match cancellationIntentDigest i with
       | Err _ => Err ErrCancellationIntent
       | Ok digest => ensure (String.eqb digest (CancellationIntentRecord.IntentSHA256 i)) ErrCancellationIntent
       end.

Definition newCancellationIntent (e : AttemptJournalEntry.t) (cancelID : UUID)
    : result recon_error CancellationIntentRecord.t :=
  let b := AttemptJournalEntry.Binding e in
  let intent := CancellationIntentRecord.mk cancelID (AttemptBinding.ActionID b) (AttemptBinding.AttemptID b) b
    (entry_state e) ReasonCancelled in
  digest ← cancellationIntentDigest (intent "");
  if negb (is_ok (CancellationIntentRecord_Validate (intent digest))) then Err ErrCancellationIntent
  else Ok (intent digest).

Definition Lookup (store : IntentStore) (actionID : UUID) : result recon_error (option CancellationIntentRecord.t) :=
  if negb (validUUID actionID) then Err ErrCancellationIntent
  else match store !! actionID with
       | Some intent => if negb (is_ok (CancellationIntentRecord_Validate intent)) then Err ErrCancellationIntent
                        else Ok (Some intent)
       | None => Ok None
       end.

Definition persist (store : IntentStore) (i : CancellationIntentRecord.t) : IntentStore * result recon_error unit :=
  if negb (is_ok (CancellationIntentRecord_Validate i)) then (store, Err ErrCancellationIntent)
  else
    let kept := (<[CancellationIntentRecord.ActionID i := i]> store, Ok tt) in
    match store !! CancellationIntentRecord.ActionID i with
    | Some existing => if negb (bool_decide (existing = i)) then (store, Err ErrCancellationRejected) else kept
    | None => kept
    end.

Definition RequestCancellation {J} `{AttemptStateJournal J} (j : J) (store : IntentStore) (actionID cancelID : UUID)
    : IntentStore * result recon_error CancellationIntentRecord.t :=
  if negb (validUUID actionID) || negb (validUUID cancelID) then (store, Err ErrCancellationIntent)
  else match Latest j actionID with
  | Err e => (store, Err e)
  | Ok None => (store, Err ErrCancellationRejected)
  | Ok (Some entry) =>
      if negb (cancellableAttemptState (entry_state entry)) then (store, Err ErrCancellationRejected)
      else match newCancellationIntent entry cancelID with
      | Err e => (store, Err e)
      | Ok intent =>
          match persist store intent with
          | (store', Err e) => (store', Err e)
          | (store', Ok _) => (store', Ok intent)
          end
      end
  end.

Definition CanStartNextSyntheticStep (store : IntentStore) (b : AttemptBinding.t) : result recon_error unit :=
  if negb (is_ok (AttemptBinding_validate b)) then Err ErrCancellationIntent
  else match Lookup store (AttemptBinding.ActionID b) with
       | Err e => Err e
       | Ok (Some _) => Err ErrCancellationBlocked
       | Ok None => Ok tt
       end.

(** ** The resource registry *)

Definition with_State (r : ResourceRecord.t) (state : ResourceState) : ResourceRecord.t :=
  ResourceRecord.mk (ResourceRecord.ResourceID r) (ResourceRecord.Kind r) state (ResourceRecord.OwnerSHA256 r).

Definition Register (registry : ResourceRegistry) (b : AttemptBinding.t) (kind : ResourceKind) (resourceID : string)
    : ResourceRegistry * result recon_error ResourceRecord.t :=
  let record := ResourceRecord.mk resourceID kind ResourceRegistered (AttemptBindingSHA256 b) in
  let stored := (<[resourceID := record]> registry, Ok record) in
  if negb (is_ok (AttemptBinding_validate b)) || negb (ResourceKind_Valid kind) || negb (validIdentifier resourceID)
  then (registry, Err ErrCleanupRegistry)
  else if negb (is_ok (ResourceRecord_Validate record)) then (registry, Err ErrCleanupRegistry)
  else match registry !! resourceID with
       | Some existing =>
           if negb (String.eqb (ResourceRecord.State existing) ResourceClosed) then (registry, Err ErrCleanupRegistry)
           else stored
       | None => stored
       end.

Definition MarkFailed (registry : ResourceRegistry) (resourceID : string) : ResourceRegistry * result recon_error unit :=
  if negb (validIdentifier resourceID) then (registry, Err ErrCleanupRegistry)
  else match registry !! resourceID with
       | None => (registry, Err ErrCleanupRegistry)
       | Some record => (<[resourceID := with_State record ResourceFailed]> registry, Ok tt)
       end.

(** One turn of the loop of [CloseAll]: whether the record is closed. *)
Definition closes (owner : string) (record : ResourceRecord.t) : bool :=
  negb (negb (String.eqb (ResourceRecord.OwnerSHA256 record) owner) ||
        String.eqb (ResourceRecord.State record) ResourceFailed).

Fixpoint close_keys (owner : string) (registry : ResourceRegistry) (keys : list string) (closed failed : list string)
    : ResourceRegistry * list string * list string :=
  match keys with
  | [] => (registry, closed, failed)
  | key :: rest =>
      match registry !! key with
      | None => close_keys owner registry rest closed failed
      | Some record =>
          if closes owner record
          then close_keys owner (<[key := with_State record ResourceClosed]> registry) rest
                 (closed ++ [ResourceRecord.ResourceID record])%list failed
          else close_keys owner registry rest closed (failed ++ [ResourceRecord.ResourceID record])%list
      end
  end.

Definition CloseAll (registry : ResourceRegistry) (b : AttemptBinding.t) : ResourceRegistry * CleanupResult.t :=
  if negb (is_ok (AttemptBinding_validate b)) then (registry, cleanupUncertain b ReasonCleanup)
  else
    let '(registry', closed, failed) := close_keys (AttemptBindingSHA256 b) registry (sorted_keys registry) [] [] in
    let uncertain := 0 <? len failed in
    (registry', CleanupResult.mk closed failed (if uncertain then Some (cleanupIncident b ReasonCleanup) else None) uncertain).

Definition Snapshot (registry : ResourceRegistry) : list ResourceRecord.t :=
  omap (fun key => registry !! key) (sorted_keys registry).

(** ** Resolution *)

Record world (J A : Type) := mkWorld { the_journal : J; the_registry : ResourceRegistry; the_adapter : A }.
Arguments mkWorld {J A} _ _ _.
Arguments the_journal {J A} _.
Arguments the_registry {J A} _.
Arguments the_adapter {J A} _.

(** The compensation once cleaning up has shown itself uncertain. *)
Definition uncertain_compensation (c : CompensationResult.t) (cleanup : CleanupResult.t) : CompensationResult.t :=
  CompensationResult.mk (CompensationResult.Compensated c) AttemptSafeMode ReasonCleanup
    (match CompensationResult.Incident c with Some i => Some i | None => CleanupResult.Incident cleanup end).

Definition ResolveCancellation {J A} `{AttemptStateJournal J} `{SyntheticAdapter A} (w : world J A) (store : IntentStore)
    (b : AttemptBinding.t) (applied : list SyntheticPlanStep.t)
    : world J A * result recon_error CancellationResolution.t :=
  if negb (is_ok (AttemptBinding_validate b)) || (MaxPlanSteps <? len applied) then (w, Err ErrCancellationIntent)
  else match Lookup store (AttemptBinding.ActionID b) with
  | Err e => (w, Err e)
  | Ok None => (w, Err ErrCancellationRejected)
  | Ok (Some intent) =>
      match Latest (the_journal w) (AttemptBinding.ActionID b) with
      | Err e => (w, Err e)
      | Ok None => (w, Err ErrCancellationRejected)
      | Ok (Some latest) =>
          if negb (bool_decide (AttemptJournalEntry.Binding latest = b)) ||
             negb (cancellableAttemptState (entry_state latest))
          then (w, Err ErrCancellationRejected)
          else
            let '(adapter, compensated) :=
              if 0 <? len applied then CompensateSyntheticAppliedPrefix (the_adapter w) b applied
              else (the_adapter w, Ok (CompensationResult.mk [] AttemptCancelled ReasonCancelled None)) in
            match compensated with
            | Err e => (mkWorld (the_journal w) (the_registry w) adapter, Err e)
            | Ok compensation =>
                let '(registry, cleanup) := CloseAll (the_registry w) b in
                let compensation :=
                  if CleanupResult.Uncertainty cleanup &&
                     negb (String.eqb (CompensationResult.Outcome compensation) AttemptSafeMode)
                  then uncertain_compensation compensation cleanup else compensation in
                let target := CompensationResult.Outcome compensation in
                let '(journal, swapped) := CompareAndSwap (the_journal w) b (entry_state latest) target
                  (CompensationResult.Reason compensation) in
                (mkWorld journal registry adapter,
                 match swapped with
                 | Err e => Err e
                 | Ok next => Ok (CancellationResolution.mk intent next compensation cleanup
                     (BuildCancellationOutcome b target (CompensationResult.Reason compensation)))
                 end)
            end
      end
  end.
End cancel.

Arguments mkWorld {J A} _ _ _.
Arguments the_journal {J A} _.
Arguments the_registry {J A} _.
Arguments the_adapter {J A} _.

(** ** The journals behind the interface *)

Section journals.
Context `{JSON} `{!Codec attemptJournalDigestInput.t}.

#[export] Instance memory_journal : AttemptStateJournal (gmap UUID (list AttemptJournalEntry.t)) := {|
  Latest := Memory_Latest; CompareAndSwap := Memory_CompareAndSwap |}.

Lemma swap_allowed_uuid b from to reason : swap_allowed b from to reason = true ->
  validUUID (AttemptBinding.ActionID b) = true.
Proof.
  unfold swap_allowed, AttemptBinding_validate. intros Hs. bool_prop.
  match goal with Hb : is_ok (ensure _ _) = true |- _ => apply is_ok_unit in Hb end. inv_bind. by bool_prop.
Qed.

Lemma Memory_Latest_some (j : gmap UUID (list AttemptJournalEntry.t)) actionID latest : validUUID actionID = true ->
  last (entries_of j actionID) = Some latest -> verifyAttemptEntries (entries_of j actionID) = Ok tt ->
  Memory_Latest j actionID = Ok (Some latest).
Proof. intros Hu Hl Hv. unfold Memory_Latest. by rewrite Hu, Hl, Hv. Qed.

Lemma Memory_swap_allowed j b from to reason j' e :
  Memory_CompareAndSwap j b from to reason = (j', Ok e) -> swap_allowed b from to reason = true.
Proof. unfold Memory_CompareAndSwap. by destruct (swap_allowed b from to reason). Qed.

#[export] Instance memory_journal_laws : AttemptJournalLaws (gmap UUID (list AttemptJournalEntry.t)).
Proof.
  refine {| journal_ok := fun _ => True |}.
  - intros j b from to reason j' e _ Hc. cbn [CompareAndSwap Latest memory_journal] in *.
    pose proof (swap_allowed_uuid _ _ _ _ (Memory_swap_allowed _ _ _ _ _ _ _ Hc)) as Hu.
    pose proof (swap_cases j b from to reason) as Hcases. rewrite Hc in Hcases.
    destruct Hcases as (latest & Ha & Hl & Hv & Hs & Hb & He & Hj').
    assert (AttemptJournalEntry_validate latest = Ok tt) as Hlv
      by (eapply verify_valid; [done|]; by apply last_Some_elem_of).
    pose proof (new_follows _ _ _ _ _ _ Hlv Hs Hb He) as Hf.
    destruct (newAttemptJournalEntry_Ok _ _ _ _ _ _ He) as (Hve & _ & _ & Hst & Hbe & Hr).
    split; [done|]. split.
    { subst j'. unfold entries_of. apply Memory_Latest_some; [done| |]; unfold entries_of; rewrite lookup_insert_eq; cbn [default].
      - apply last_snoc.
      - by eapply verify_snoc. }
    do 4 (split; [done|]). exists latest. split; [|done]. by apply Memory_Latest_some.
  - intros j b from to reason Hs Ha. cbn [CompareAndSwap memory_journal]. unfold Memory_CompareAndSwap. by rewrite Hs, Ha.
Defined.

Lemma memory_journal_ok (j : gmap UUID (list AttemptJournalEntry.t)) : journal_ok j.
Proof. exact I. Qed.

#[export] Instance file_journal (doc_bytes : Doc -> list ascii) (bytes_doc : list ascii -> Doc)
    `{!Codec AttemptJournalEntry.t} : AttemptStateJournal FileJournal := {|
  Latest := File_Latest bytes_doc; CompareAndSwap := File_CompareAndSwap doc_bytes bytes_doc |}.
End journals.

(** ** What a resolution leaves behind *)

Lemma compensate_outcome {A} `{SyntheticAdapter A} (a a' : A) b steps r r' :
  compensate_steps a b r steps = (a', r') ->
  CompensationResult.Outcome r' = AttemptSafeMode \/
  CompensationResult.Outcome r' = CompensationResult.Outcome r /\ CompensationResult.Reason r' = CompensationResult.Reason r /\
  CompensationResult.Compensated r' = (CompensationResult.Compensated r ++ map SyntheticPlanStep.ID steps)%list.
Proof.
  revert a r. induction steps as [|s steps IH]; intros a r Hc; cbn [compensate_steps] in Hc.
  { injection Hc as <- <-. right. by rewrite app_nil_r. }
  destruct (_ || _); [injection Hc as <- <-; by left|]. destruct (Observe a); [|injection Hc as <- <-; by left].
  destruct (negb _); [injection Hc as <- <-; by left|]. destruct (Compensate a s) as [a1 [st|]]; [|injection Hc as <- <-; by left].
  destruct (IH _ _ Hc) as [|(Ho & Hr & Hcs)]; [by left|]. right. split; [done|]. split; [done|]. rewrite Hcs.
  cbn [CompensationResult.Compensated map]. by rewrite <- app_assoc.
Qed.

Lemma cancellable_not_terminal s : cancellableAttemptState s = true -> terminalAttemptState s = false.
Proof.
  unfold cancellableAttemptState. intros Hs%contains_string_spec. set_unfold in Hs. destruct_or?; by subst.
Qed.

(** How each outcome comes about, given the steps that had been applied. *)
Definition explained (applied : list SyntheticPlanStep.t) (c : CompensationResult.t) (cleanup : CleanupResult.t) : Prop :=
  CompensationResult.Outcome c = AttemptSafeMode \/
  CleanupResult.Uncertainty cleanup = false /\
  (CompensationResult.Outcome c = AttemptCancelled /\ applied = [] \/
   CompensationResult.Outcome c = AttemptRolledBack /\
   CompensationResult.Compensated c = map SyntheticPlanStep.ID (rev applied)).

Lemma compensated_explained {A} `{SyntheticAdapter A} (a a' : A) b applied c :
  (if 0 <? len applied then CompensateSyntheticAppliedPrefix a b applied
   else (a, Ok (CompensationResult.mk [] AttemptCancelled ReasonCancelled None))) = (a', Ok c) ->
  CompensationResult.Outcome c = AttemptSafeMode \/
  (CompensationResult.Outcome c = AttemptCancelled /\ applied = [] \/
   CompensationResult.Outcome c = AttemptRolledBack /\
   CompensationResult.Compensated c = map SyntheticPlanStep.ID (rev applied)).
Proof.
  destruct (Z.ltb_spec 0 (len applied)) as [Hlen|Hlen]; intros Hc.
  - unfold CompensateSyntheticAppliedPrefix in Hc. destruct (_ || _); [done|].
    destruct (compensate_steps _ _ _ _) as [a1 r] eqn:Hr. injection Hc as <- <-.
    destruct (compensate_outcome _ _ _ _ _ _ Hr) as [|(Ho & _ & Hcs)]; [by left|]. right. right. done.
  - injection Hc as <- <-. right. left. split; [done|]. destruct applied; [done|]. simpl in Hlen. lia.
Qed.

Section resolution.
Context `{JSON} `{!Codec cancellationIntentDigestInput.t} `{!Codec AttemptBinding.t}.
Context {J A : Type} `{!AttemptStateJournal J} `{!AttemptJournalLaws J} `{!SyntheticAdapter A}.

(** A resolved cancellation is final and says what happened. When resolving
    returns, the attempt was recorded under the same binding in a cancellable state
    and an intent existed; its latest journal entry is now the terminal one returned;
    it is cancelled only when nothing had been applied and rolled back only when
    every applied step was compensated, last to first, both only after a certain
    cleanup, and otherwise in safe mode; and no swap on that action succeeds any more. *)
Theorem cancellation_is_final (w w' : world J A) store b applied res :
  journal_ok (the_journal w) ->
  ResolveCancellation w store b applied = (w', Ok res) ->
  let entry := CancellationResolution.Attempt res in
  (exists intent latest, Lookup store (AttemptBinding.ActionID b) = Ok (Some intent) /\
    Latest (the_journal w) (AttemptBinding.ActionID b) = Ok (Some latest) /\
    AttemptJournalEntry.Binding latest = b /\ cancellableAttemptState (entry_state latest) = true) /\
  Latest (the_journal w') (AttemptBinding.ActionID b) = Ok (Some entry) /\
  terminalAttemptState (entry_state entry) = true /\
  entry_state entry = CompensationResult.Outcome (CancellationResolution.Compensation res) /\
  explained applied (CancellationResolution.Compensation res) (CancellationResolution.Cleanup res) /\
  forall b' from to reason j' e, AttemptBinding.ActionID b' = AttemptBinding.ActionID b ->
    CompareAndSwap (the_journal w') b' from to reason <> (j', Ok e).
Proof.
  intros Hok Hr. unfold ResolveCancellation in Hr.
  destruct (_ || _); [done|]. destruct (Lookup store _) as [[intent|]|] eqn:Hlookup; [|done..].
  destruct (Latest _ _) as [[latest|]|] eqn:Hlatest in Hr; [|done..].
  destruct (_ || _) eqn:Hguard in Hr; [done|]. apply orb_false_iff in Hguard as [Hb Hcan].
  apply negb_false_iff in Hb, Hcan. apply bool_decide_eq_true in Hb.
  destruct (if 0 <? len applied then _ else _) as [adapter compensated] eqn:Hcomp.
  destruct compensated as [c|]; [|done]. apply compensated_explained in Hcomp.
  destruct (CloseAll (the_registry w) b) as [registry cleanup].
  set (c' := if _ && _ then _ else c) in Hr.
  destruct (CompareAndSwap _ _ _ _ _) as [journal swapped] eqn:Hswap. destruct swapped as [next|]; [|done].
  injection Hr as <- <-. cbn [CancellationResolution.Attempt CancellationResolution.Compensation
    CancellationResolution.Cleanup the_journal].
  destruct (swap_done _ _ _ _ _ _ _ Hok Hswap) as (Hok' & Hlast & Hst & _ & _ & Hallowed & _).
  assert (explained applied c' cleanup) as Hexplained.
  { unfold c'. destruct (CleanupResult.Uncertainty cleanup) eqn:Hu.
    - cbn [andb]. destruct (String.eqb_spec (CompensationResult.Outcome c) AttemptSafeMode); by left.
    - cbn [andb]. destruct Hcomp as [|Hcomp]; [by left|]. by right. }
  assert (terminalAttemptState (entry_state next) = true) as Hterm.
  { rewrite Hst. destruct Hexplained as [->|[_ [[-> _]|[-> _]]]]; done. }
  split; [by exists intent, latest|]. do 4 (split; [done|]).
  intros b' from to reason j' e Hact Habs.
  destruct (swap_done _ _ _ _ _ _ _ Hok' Habs) as (_ & _ & _ & _ & _ & Ha & latest' & Hl' & Hs' & _).
  rewrite Hact, Hlast in Hl'. injection Hl' as <-. apply transition_advances in Ha as [Hnt _]. congruence.
Qed.

End resolution.

(** ** Rolling back *)

Lemma app_at_first {A} (x : A) l1 r1 l2 r2 : x ∉ l1 -> x ∉ l2 ->
  (l1 ++ x :: r1 = l2 ++ x :: r2)%list -> l1 = l2 /\ r1 = r2.
Proof.
  revert l2. induction l1 as [|y l1 IH]; intros [|z l2] H1 H2 He.
  - by injection He as ->.
  - injection He as -> _. exfalso. apply H2. by left.
  - injection He as <- _. exfalso. apply H1. by left.
  - injection He as -> He. apply not_elem_of_cons in H1 as [_ H1]. apply not_elem_of_cons in H2 as [_ H2].
    destruct (IH l2 H1 H2 He) as [-> ->]. done.
Qed.

Lemma identifier_no_nul id : validIdentifier id = true -> "000"%char ∉ chars id.
Proof.
  unfold validIdentifier, identifierPattern. intros Hv Hin. bool_prop. destruct (chars id) as [|c l]; [done|]. bool_prop.
  apply elem_of_cons in Hin as [<-|Hin]; [done|].
  match goal with Hf : forallb identifier_char l = true |- _ => rewrite forallb_forall in Hf;
    apply list_elem_of_In, Hf in Hin end. done.
Qed.

(** The key of a resource determines it. *)
Lemma syntheticResourceKey_inj id1 op1 id2 op2 : validIdentifier id1 = true -> validIdentifier id2 = true ->
  syntheticResourceKey id1 op1 = syntheticResourceKey id2 op2 -> id1 = id2 /\ op1 = op2.
Proof.
  intros H1%identifier_no_nul H2%identifier_no_nul He. apply (f_equal chars) in He.
  unfold syntheticResourceKey in He. rewrite !chars_app in He.
  apply app_at_first in He as [Hid Hop]; [|done..]. split; by apply (inj chars).
Qed.

Lemma resource_id_valid r : SyntheticResource_validate r = Ok tt -> validIdentifier (SyntheticResource.ID r) = true.
Proof. unfold SyntheticResource_validate. intros Hv. inv_result. by bool_prop. Qed.

Lemma step_resource_valid s : SyntheticPlanStep_validate s = Ok tt ->
  validIdentifier (SyntheticPlanStep.ResourceID s) = true.
Proof. unfold SyntheticPlanStep_validate. intros Hv. inv_bind. by bool_prop. Qed.

Section rollback.
Context (text_digest : string -> string) (walk : gmap string SyntheticResource.t -> list (string * SyntheticResource.t)).

#[local] Existing Instance MemorySyntheticAdapter.

(** What compensating a step relies on: it recorded the state it replaced. *)
Definition undoable (a : gmap string SyntheticResource.t) (s : SyntheticPlanStep.t) : Prop :=
  match a !! step_key s with
  | None => SyntheticPlanStep.BeforeSHA256 s = syntheticMissingStateSHA256 text_digest
  | Some r => SyntheticPlanStep.BeforeSHA256 s <> syntheticMissingStateSHA256 text_digest /\
      r = owned_resource s (SyntheticPlanStep.BeforeSHA256 s)
  end.

Lemma applied_other a steps key : key ∉ map (fun s => step_key s) steps -> applied a steps !! key = a !! key.
Proof.
  revert a. induction steps as [|s steps IH]; intros a Hk; [done|]. apply not_elem_of_cons in Hk as [Hs Hk].
  cbn [applied foldl]. etransitivity; [by apply IH|]. by rewrite lookup_insert_ne.
Qed.

Lemma applied_snoc a steps s :
  applied a (steps ++ [s])%list =
  <[step_key s := owned_resource s (SyntheticPlanStep.AppliedSHA256 s)]> (applied a steps).
Proof. unfold applied. by rewrite foldl_snoc. Qed.

Lemma applied_is_owned a s :
  syntheticStepIsExactlyOwned
    (syntheticResources (<[step_key s := owned_resource s (SyntheticPlanStep.AppliedSHA256 s)]> a)) s = true.
Proof.
  apply existsb_exists. exists (owned_resource s (SyntheticPlanStep.AppliedSHA256 s)). split.
  - apply list_elem_of_In, elem_of_syntheticResources. exists (step_key s). by rewrite lookup_insert_eq.
  - unfold owned_by_step, owned_resource.
    cbn [SyntheticResource.ID SyntheticResource.Operation SyntheticResource.StateSHA256 SyntheticResource.Ownership
       SyntheticResource.OwnerActionID SyntheticResource.OwnerAttemptID SyntheticResource.Protected].
    by rewrite !String.eqb_refl.
Qed.

Lemma compensate_undoes a b steps r :
  (forall s, s ∈ steps -> SyntheticPlanStep_validate s = Ok tt /\ SyntheticPlanStep.Owner s = b /\ undoable a s) ->
  NoDup (map (fun s => step_key s) steps) ->
  exists r', compensate_steps (H := MemorySyntheticAdapter text_digest walk) (applied a steps) b r (rev steps) = (a, r') /\
    CompensationResult.Outcome r' = CompensationResult.Outcome r /\
    CompensationResult.Compensated r' = (CompensationResult.Compensated r ++ map SyntheticPlanStep.ID (rev steps))%list.
Proof.
  revert r. induction steps as [|s steps IH] using rev_ind; intros r Hs Hn.
  { exists r. by rewrite app_nil_r. }
  rewrite map_app in Hn. apply NoDup_app in Hn as (Hn & Hnew & _).
  assert (step_key s ∉ map (fun s => step_key s) steps) as Hkey.
  { intros Hin. apply (Hnew _ Hin). by left. }
  destruct (Hs s) as (Hv & Ho & Hu); [apply elem_of_app; right; by left|].
  rewrite rev_app_distr, applied_snoc. cbn [rev app compensate_steps]. rewrite Hv, bool_decide_true by done.
  cbn [is_ok negb orb Observe MemorySyntheticAdapter]. unfold Memory_Observe. rewrite applied_is_owned. cbn [negb].
  cbn [Compensate MemorySyntheticAdapter]. unfold Memory_Compensate. rewrite Hv. cbn [is_ok negb].
  unfold Memory_Observe.
  match goal with |- exists _, compensate_steps ?m _ ?r1 _ = _ /\ _ =>
    assert (m = applied a steps) as ->; [|set (r2 := r1)] end.
  { unfold undoable in Hu. rewrite <- (applied_other a steps _ Hkey) in Hu.
    destruct (applied a steps !! step_key s) as [x|] eqn:Hx.
    - destruct Hu as [Hne ->]. apply String.eqb_neq in Hne. rewrite Hne, insert_insert_eq. by apply insert_id.
    - rewrite Hu, String.eqb_refl. by apply delete_insert_id. }
  destruct (IH r2) as (r' & -> & Hout & Hcomp); [|done|].
  { intros x Hx. apply Hs, elem_of_app. by left. }
  exists r'. split; [done|]. split; [done|]. rewrite Hcomp. unfold r2. cbn [CompensationResult.Compensated map].
  by rewrite <- app_assoc.
Qed.

Context (walk_all : forall m, walk m ≡ₚ map_to_list m).

Lemma diff_undoable a desired diff s :
  wf_state a -> (forall key r, a !! key = Some r ->
    SyntheticResource.StateSHA256 r <> syntheticMissingStateSHA256 text_digest) ->
  Memory_SemanticCompare text_digest walk a desired = Ok diff -> s ∈ SyntheticDiff.Steps diff ->
  SyntheticPlanStep_validate s = Ok tt /\ SyntheticPlanStep.Owner s = SyntheticDesiredState.Owner desired /\ undoable a s.
Proof.
  intros Hw Hmissing Hc Hs. unfold Memory_SemanticCompare, Memory_Observe in Hc. rewrite Ok_bind in Hc.
  apply DiffSyntheticState_Ok in Hc as (have & wanted & Hh & _ & Hm & Hsteps & _ & Hv).
  apply observed_map_inv in Hh as [-> _]; [|done]. pose proof (diff_steps_valid diff s Hv Hs) as Hvs.
  destruct (desired_map_from_Ok _ _ _ Hm) as (Hkeys & _ & _); [apply map_Forall_empty|].
  apply Hsteps, elem_of_compared in Hs as (index & key & want & _ & Hwant & Hx).
  destruct (compare_steps text_digest a wanted _ _ _ _ _ Hkeys Hwant Hx) as [Hkey (_ & _ & Ho & _)].
  split; [done|]. split; [done|]. unfold undoable. rewrite Hkey. unfold compare_resource in Hx.
  destruct (a !! key) as [r|] eqn:Hr; [|by injection Hx as <-].
  destruct (classifySyntheticResource r _) as [conflict blocked] eqn:Hb. destruct blocked; [done|].
  destruct (String.eqb _ _); [done|]. injection Hx as <-.
  assert ((classifySyntheticResource r (SyntheticDesiredState.Owner desired)).2 = false) as Hub by by rewrite Hb.
  apply unblocked_owned in Hub as (Hp & How & Hact & Hatt). destruct (Hw key r Hr) as [Hkr Hrv].
  apply step_resource_valid in Hvs as Hid. apply resource_id_valid in Hrv.
  split; [by eapply Hmissing|]. unfold newSyntheticPlanStep, owned_resource in *.
  cbn [SyntheticPlanStep.ResourceID SyntheticPlanStep.Operation SyntheticPlanStep.BeforeSHA256 SyntheticPlanStep.Owner] in *.
  rewrite <- Hkey in Hkr. apply syntheticResourceKey_inj in Hkr as [-> ->]; [|done..].
  rewrite <- Hact, <- Hatt, <- How, <- Hp. by destruct r.
Qed.

(** C34: rolling back undoes any part of a plan. Whatever prefix of a diff's steps
    has been applied to a well-formed adapter, compensating it under the plan's
    binding reports a rollback of exactly those steps, last to first, and leaves every
    resource as it was before the first step. The digest that stands for a missing
    resource must not be the digest of a resource that exists. *)
Theorem rollback_restores a desired diff n :
  wf_state a -> (forall key r, a !! key = Some r ->
    SyntheticResource.StateSHA256 r <> syntheticMissingStateSHA256 text_digest) ->
  Memory_SemanticCompare text_digest walk a desired = Ok diff ->
  let prefix := take n (SyntheticDiff.Steps diff) in
  prefix <> [] ->
  exists a' r, apply_all (H := MemorySyntheticAdapter text_digest walk) a prefix = (a', Ok tt) /\
    CompensateSyntheticAppliedPrefix (H := MemorySyntheticAdapter text_digest walk) a'
      (SyntheticDesiredState.Owner desired) prefix = (a, Ok r) /\
    CompensationResult.Outcome r = AttemptRolledBack /\
    CompensationResult.Compensated r = map SyntheticPlanStep.ID (rev prefix).
Proof.
  intros Hw Hmissing Hc prefix Hne.
  assert (forall s, s ∈ prefix -> SyntheticPlanStep_validate s = Ok tt /\
    SyntheticPlanStep.Owner s = SyntheticDesiredState.Owner desired /\ undoable a s) as Hall.
  { intros s (i & Hi & _)%elem_of_take. eapply diff_undoable; try done. by eapply list_elem_of_lookup_2. }
  unfold Memory_SemanticCompare, Memory_Observe in Hc. rewrite Ok_bind in Hc.
  apply DiffSyntheticState_Ok in Hc as (have & wanted & _ & Hd & _ & _ & _ & Hv).
  unfold SyntheticDiff_validate in Hv. destruct (_ || _) eqn:Hlen in Hv; [done|]. inv_bind. bool_prop.
  match goal with Hdist : distinct_strings _ = true |- _ => apply distinct_strings_NoDup in Hdist; rename Hdist into Hnodup end.
  assert (NoDup (map (fun s => step_key s) prefix)) as Hn.
  { unfold prefix. rewrite <- (take_drop n (SyntheticDiff.Steps diff)), map_app in Hnodup.
    by apply NoDup_app in Hnodup as [? _]. }
  exists (applied a prefix).
  destruct (compensate_undoes a (SyntheticDesiredState.Owner desired) prefix
    (CompensationResult.mk [] AttemptRolledBack ReasonCompensation None) Hall Hn) as (r & Hr & Hout & Hcomp).
  exists r. split; [apply apply_all_valid; intros s Hs; by apply Hall|]. split; [|done].
  unfold CompensateSyntheticAppliedPrefix. rewrite Hr.
  assert (is_ok (AttemptBinding_validate (SyntheticDesiredState.Owner desired)) = true) as ->.
  { unfold SyntheticDesiredState_validate in Hd. destruct (_ || _) eqn:Hg in Hd; [done|]. by bool_prop. }
  assert (len prefix <= MaxPlanSteps /\ len prefix <> 0) as [Hmax Hnz].
  { split; [unfold prefix; rewrite length_take; lia|]. destruct prefix; [done|simpl; lia]. }
  destruct (Z.eqb_spec (len prefix) 0); [lia|]. by destruct (Z.ltb_spec MaxPlanSteps (len prefix)); [lia|].
Qed.
End rollback.

(** ** Cancelling a claimed and a pending attempt *)
Module CancelSample.
Import SampleDigest.
Import JournalSample.

#[export] Instance intent_codec : Codec cancellationIntentDigestInput.t := {|
  json_Marshal := fun i => Some (chars (hash (cancellationIntentDigestInput.CancelID i ::
    cancellationIntentDigestInput.ObservedState i :: binding_texts (cancellationIntentDigestInput.Binding i))));
  strictJSONDecode := fun _ => None; exact := fun _ => true |}.

#[export] Instance binding_codec : Codec AttemptBinding.t := {|
  json_Marshal := fun b => Some (chars (hash (binding_texts b)));
  strictJSONDecode := fun _ => None; exact := fun _ => true |}.

Definition action : UUID := AttemptBinding.ActionID binding.
Definition cancel : UUID := "44444444-4444-4444-8444-444444444444".

#[export] Instance sample_adapter : SyntheticAdapter (gmap string SyntheticResource.t) :=
  MemorySyntheticAdapter AdapterSample.text_digest map_to_list.

Abbreviation sample_world := (world (gmap UUID (list AttemptJournalEntry.t)) (gmap string SyntheticResource.t)).

(** A resource another attempt registered and has since closed. *)
Definition foreign : gmap string ResourceRecord.t :=
  {[ "synthetic.file" := ResourceRecord.mk "synthetic.file" ResourceSyntheticFile ResourceClosed (hash ["other"]) ]}.

Definition claimed_world : sample_world := mkWorld claimed_journal ∅ ∅.
Definition pending_journal : gmap UUID (list AttemptJournalEntry.t) :=
  {[ AttemptBinding.ActionID binding := [pending] ]}.
Definition pending_world : sample_world := mkWorld pending_journal foreign ∅.

Definition intents (j : gmap UUID (list AttemptJournalEntry.t)) : gmap UUID CancellationIntentRecord.t :=
  (RequestCancellation j ∅ action cancel).1.

Lemma returned {W B} (answer : W * result recon_error B) : is_ok answer.2 = true -> exists w b, answer = (w, Ok b).
Proof. destruct answer as [w [b|e]]; [by exists w, b|done]. Qed.

Lemma claimed_resolves : is_ok (ResolveCancellation claimed_world (intents claimed_journal) binding []).2 = true.
Proof. vm_compute. reflexivity. Qed.

Lemma cancellation_is_final_witness :
  exists e, Latest (the_journal (ResolveCancellation claimed_world (intents claimed_journal) binding []).1) action = Ok (Some e) /\
    terminalAttemptState (entry_state e) = true.
Proof.
  destruct (returned _ claimed_resolves) as (w & r & Hr). rewrite Hr.
  destruct (cancellation_is_final claimed_world w (intents claimed_journal) binding [] r
    (memory_journal_ok _) Hr) as (_ & Hl & Ht & _).
  exists (CancellationResolution.Attempt r). exact (conj Hl Ht).
Defined.

(** [unwrap] for lookups that are known to succeed. *)
Definition found_intent (r : result recon_error (option CancellationIntentRecord.t)) : CancellationIntentRecord.t :=
  match r with Ok (Some i) => i | _ => CancellationIntentRecord.mk "" "" "" binding "" "" "" end.

Lemma found {E B} (r : result E (option B)) (get : result E (option B) -> B) :
  (forall b, get (Ok (Some b)) = b) -> match r with Ok (Some _) => true | _ => false end = true -> r = Ok (Some (get r)).
Proof. intros Hget. destruct r as [[b|]|]; [|done..]. by rewrite Hget. Qed.

Lemma pending_intent : Lookup (intents pending_journal) action =
  Ok (Some (found_intent (Lookup (intents pending_journal) action))).
Proof. apply found; [done|]. vm_compute. reflexivity. Qed.

Lemma binding_valid : AttemptBinding_validate binding = Ok tt.
Proof. vm_compute. reflexivity. Qed.

Lemma pending_latest : Latest pending_journal action = Ok (Some pending).
Proof. vm_compute. reflexivity. Qed.

Lemma foreign_uncertain : CleanupResult.Uncertainty (CloseAll foreign binding).2 = true.
Proof. vm_compute. reflexivity. Qed.


Lemma rollback_restores_witness :
  exists a' r, CompensateSyntheticAppliedPrefix a' binding (SyntheticDiff.Steps AdapterSample.diff) =
      (AdapterSample.adapter, Ok r) /\ CompensationResult.Outcome r = AttemptRolledBack.
Proof.
  destruct (rollback_restores AdapterSample.text_digest map_to_list AdapterSample.adapter AdapterSample.desired
    AdapterSample.diff 2 AdapterSample.adapter_wf) as (a' & r & _ & Hr & Ho & _).
  - intros key r Hk. unfold AdapterSample.adapter in Hk. apply lookup_singleton_Some in Hk as [_ <-].
    vm_compute. discriminate.
  - exact AdapterSample.diff_found.
  - discriminate.
  - exists a', r. exact (conj Hr Ho).
Defined.
End CancelSample.
