(* ===== verification/Connectivity.v ===== *)
(** * Connectivity facts

    [internal/connectivity] ([model.go], [payload.go], [codec.go]) and
    [internal/safety/connectivity.go]: the facts that sources report about the
    components of a host, their validation and canonical encoding, and the compiled
    table that says which source may speak about which component. *)

From Stdlib Require Import ZArith Lia Ascii String.
From stdpp Require Import base strings list option sets gmap.
From S2P Require Import Prelude PolicyModel PolicyCanonical.

Open Scope string_scope.
Open Scope Z_scope.

(** The sentinel errors of the packages that handle facts. *)
Inductive conn_error :=
| ErrInvalidFact
| ErrInvalidPayload
| ErrInvalidEncoding
| ErrNotCanonical
| ErrPayloadMismatch
| ErrForbiddenContent
| ErrUnknownSource
| ErrDomainMismatch
| ErrCorroboratingWrite
| ErrInvalidState
| ErrInvalidInput
| ErrInvalidSnapshot
| ErrOutOfOrder
| ErrInvalidDesired
| ErrInvalidProposal
| ErrStaleProposal.

#[global] Instance conn_error_eq_dec : EqDecision conn_error.
Proof. solve_decision. Defined.

Definition FactSchema := "hexroute.connectivity-fact.v1".
Definition FactSchemaVersion := 1.
Definition MaxEncodedFactBytes := 4 * 1024.
Definition MaxIdentifierBytes := 64.
Definition MaxComponentCount := 4096.

Abbreviation Component := string (only parsing).
Definition ComponentPhysicalNetwork : Component := "physical_network".
Definition ComponentDefaultPath : Component := "default_path".
Definition ComponentDNS : Component := "dns".
Definition ComponentScopedRoutes : Component := "scoped_routes".
Definition ComponentTransports : Component := "managed_transports".
Definition ComponentRelays : Component := "relay_ingress".
Definition ComponentUserAccess : Component := "user_access".
Definition ComponentSessionExpiry : Component := "session_expiry".
Definition Component_Valid (value : Component) : bool :=
  contains_string [ComponentPhysicalNetwork; ComponentDefaultPath; ComponentDNS; ComponentScopedRoutes; ComponentTransports; ComponentRelays; ComponentUserAccess; ComponentSessionExpiry] value.

Abbreviation Lifecycle := string (only parsing).
Definition LifecycleUnknown : Lifecycle := "unknown".
Definition LifecycleReady : Lifecycle := "ready".
Definition LifecycleDegraded : Lifecycle := "degraded".
Definition LifecycleFailed : Lifecycle := "failed".
Definition LifecycleNotApplicable : Lifecycle := "not_applicable".
Definition Lifecycle_Valid (value : Lifecycle) : bool :=
  contains_string [LifecycleUnknown; LifecycleReady; LifecycleDegraded; LifecycleFailed; LifecycleNotApplicable] value.

Abbreviation Reason := string (only parsing).
Definition ReasonNone : Reason := "none".
Definition ReasonBaseline : Reason := "baseline".
Definition ReasonProbeSucceeded : Reason := "probe_succeeded".
Definition ReasonProbeFailed : Reason := "probe_failed".
Definition ReasonLinkChanged : Reason := "link_changed".
Definition ReasonPolicyApplied : Reason := "policy_applied".
Definition ReasonOwnerUnavailable : Reason := "owner_unavailable".
Definition ReasonWakeRebaseline : Reason := "wake_rebaseline".
Definition ReasonBootRebaseline : Reason := "boot_rebaseline".
Definition ReasonNotConfigured : Reason := "not_configured".
Definition ReasonExpiryApproaching : Reason := "expiry_approaching".
Definition ReasonExpired : Reason := "expired".
Definition Reason_Valid (value : Reason) : bool :=
  contains_string [ReasonNone; ReasonBaseline; ReasonProbeSucceeded; ReasonProbeFailed; ReasonLinkChanged; ReasonPolicyApplied; ReasonOwnerUnavailable; ReasonWakeRebaseline; ReasonBootRebaseline; ReasonNotConfigured; ReasonExpiryApproaching; ReasonExpired] value.

Abbreviation LinkClass := string (only parsing).
Definition LinkNone : LinkClass := "none".
Definition LinkWired : LinkClass := "wired".
Definition LinkWireless : LinkClass := "wireless".
Definition LinkCellular : LinkClass := "cellular".
Definition LinkVirtual : LinkClass := "virtual".
Definition LinkClass_Valid (value : LinkClass) : bool :=
  contains_string [LinkNone; LinkWired; LinkWireless; LinkCellular; LinkVirtual] value.

Abbreviation PathClass := string (only parsing).
Definition PathNone : PathClass := "none".
Definition PathDirect : PathClass := "direct".
Definition PathTunneled : PathClass := "tunneled".
Definition PathClass_Valid (value : PathClass) : bool :=
  contains_string [PathNone; PathDirect; PathTunneled] value.

Abbreviation ResolverClass := string (only parsing).
Definition ResolverNone : ResolverClass := "none".
Definition ResolverSystem : ResolverClass := "system".
Definition ResolverScoped : ResolverClass := "scoped".
Definition ResolverEncrypted : ResolverClass := "encrypted".
Definition ResolverClass_Valid (value : ResolverClass) : bool :=
  contains_string [ResolverNone; ResolverSystem; ResolverScoped; ResolverEncrypted] value.

Abbreviation SelectedClass := string (only parsing).
Definition SelectedNone : SelectedClass := "none".
Definition SelectedPrimary : SelectedClass := "primary".
Definition SelectedReserve : SelectedClass := "reserve".
Definition SelectedClass_Valid (value : SelectedClass) : bool :=
  contains_string [SelectedNone; SelectedPrimary; SelectedReserve] value.

Abbreviation ProfileClass := string (only parsing).
Definition ProfileNone : ProfileClass := "none".
Definition ProfileConfigured : ProfileClass := "configured".
Definition ProfileClass_Valid (value : ProfileClass) : bool :=
  contains_string [ProfileNone; ProfileConfigured] value.

Abbreviation ExpiryClass := string (only parsing).
Definition ExpiryNone : ExpiryClass := "none".
Definition ExpiryValid : ExpiryClass := "valid".
Definition ExpiryExpiring : ExpiryClass := "expiring".
Definition ExpiryExpired : ExpiryClass := "expired".
Definition ExpiryClass_Valid (value : ExpiryClass) : bool :=
  contains_string [ExpiryNone; ExpiryValid; ExpiryExpiring; ExpiryExpired] value.

Abbreviation SourceID := string (only parsing).
Abbreviation Tick := Z (only parsing).

Definition Components : list Component :=
  [ComponentPhysicalNetwork; ComponentDefaultPath; ComponentDNS; ComponentScopedRoutes; ComponentTransports;
   ComponentRelays; ComponentUserAccess; ComponentSessionExpiry].

Definition TimeSensitive (component : Component) : bool := negb (String.eqb component ComponentScopedRoutes).

(** ** Payloads *)

Module PhysicalNetworkPayload.
Record t := mk {
  LinkClass : LinkClass;
  LinkUp : bool;
  HasCarrier : bool
}.
#[global] Instance eq_dec : EqDecision t.
Proof. solve_decision. Defined.
End PhysicalNetworkPayload.

Module DefaultPathPayload.
Record t := mk {
  PathClass : PathClass;
  GatewayPresent : bool
}.
#[global] Instance eq_dec : EqDecision t.
Proof. solve_decision. Defined.
End DefaultPathPayload.

Module DNSPayload.
Record t := mk {
  ResolverClass : ResolverClass;
  Responding : bool;
  ScopedDomains : Z;
  FailingDomains : Z
}.
#[global] Instance eq_dec : EqDecision t.
Proof. solve_decision. Defined.
End DNSPayload.

Module ScopedRoutesPayload.
Record t := mk {
  Configured : Z;
  Installed : Z;
  Conflicting : Z;
  Missing : Z
}.
#[global] Instance eq_dec : EqDecision t.
Proof. solve_decision. Defined.
End ScopedRoutesPayload.

Module TransportsPayload.
Record t := mk {
  Configured : Z;
  Ready : Z;
  Degraded : Z
}.
#[global] Instance eq_dec : EqDecision t.
Proof. solve_decision. Defined.
End TransportsPayload.

Module RelaysPayload.
Record t := mk {
  Configured : Z;
  Reachable : Z;
  Reserve : Z;
  SelectedClass : SelectedClass
}.
#[global] Instance eq_dec : EqDecision t.
Proof. solve_decision. Defined.
End RelaysPayload.

Module UserAccessPayload.
Record t := mk {
  ProfileClass : ProfileClass;
  Connected : bool;
  Authenticated : bool
}.
#[global] Instance eq_dec : EqDecision t.
Proof. solve_decision. Defined.
End UserAccessPayload.

Module SessionExpiryPayload.
Record t := mk {
  ExpiryClass : ExpiryClass;
  Sessions : Z
}.
#[global] Instance eq_dec : EqDecision t.
Proof. solve_decision. Defined.
End SessionExpiryPayload.

Module Payload.
Record t := mk {
  PhysicalNetwork : option PhysicalNetworkPayload.t;
  DefaultPath : option DefaultPathPayload.t;
  DNS : option DNSPayload.t;
  ScopedRoutes : option ScopedRoutesPayload.t;
  Transports : option TransportsPayload.t;
  Relays : option RelaysPayload.t;
  UserAccess : option UserAccessPayload.t;
  SessionExpiry : option SessionExpiryPayload.t
}.
#[global] Instance eq_dec : EqDecision t.
Proof. solve_decision. Defined.
End Payload.

(** An instant with the location it is printed in. *)
Module Time.
Record t := mk { instant : Z; utc : bool }.
#[global] Instance eq_dec : EqDecision t.
Proof. solve_decision. Defined.
End Time.

Module Fact.
Record t := mk {
  Schema : string;
  Version : Z;
  EventID : string;
  Domain : Domain;
  Component : Component;
  SourceID : SourceID;
  BootID : string;
  SourceSequence : Z;
  ObservedAt : Time.t;
  MonotonicTick : Tick;
  FreshnessDeadline : Tick;
  Lifecycle : Lifecycle;
  Reason : Reason;
  Baseline : bool;
  Payload : Payload.t
}.
#[global] Instance eq_dec : EqDecision t.
Proof. solve_decision. Defined.
End Fact.

(** ** Payload validation *)

Definition PhysicalNetworkPayload_validate (p : PhysicalNetworkPayload.t) : result conn_error unit :=
  let up := PhysicalNetworkPayload.LinkUp p in
  let carrier := PhysicalNetworkPayload.HasCarrier p in
  if negb (LinkClass_Valid (PhysicalNetworkPayload.LinkClass p)) then Err ErrInvalidPayload
  else if carrier && negb up then Err ErrInvalidPayload
  else if String.eqb (PhysicalNetworkPayload.LinkClass p) LinkNone && (up || carrier) then Err ErrInvalidPayload
  else Ok tt.

Definition DefaultPathPayload_validate (p : DefaultPathPayload.t) : result conn_error unit :=
  if negb (PathClass_Valid (DefaultPathPayload.PathClass p)) then Err ErrInvalidPayload
  else if String.eqb (DefaultPathPayload.PathClass p) PathNone && DefaultPathPayload.GatewayPresent p
  then Err ErrInvalidPayload else Ok tt.

Definition DNSPayload_validate (p : DNSPayload.t) : result conn_error unit :=
  if negb (ResolverClass_Valid (DNSPayload.ResolverClass p)) then Err ErrInvalidPayload
  else if (MaxComponentCount <? DNSPayload.ScopedDomains p) || (MaxComponentCount <? DNSPayload.FailingDomains p)
  then Err ErrInvalidPayload
  else if DNSPayload.ScopedDomains p <? DNSPayload.FailingDomains p then Err ErrInvalidPayload
  else if String.eqb (DNSPayload.ResolverClass p) ResolverNone && DNSPayload.Responding p
  then Err ErrInvalidPayload else Ok tt.

Definition ScopedRoutesPayload_validate (p : ScopedRoutesPayload.t) : result conn_error unit :=
  let configured := ScopedRoutesPayload.Configured p in
  let installed := ScopedRoutesPayload.Installed p in
  let conflicting := ScopedRoutesPayload.Conflicting p in
  let missing := ScopedRoutesPayload.Missing p in
  if (MaxComponentCount <? configured) || (MaxComponentCount <? installed) || (MaxComponentCount <? conflicting) ||
     (MaxComponentCount <? missing)
  then Err ErrInvalidPayload
  else if (configured <? installed) || (configured <? conflicting) || (configured <? missing)
  then Err ErrInvalidPayload
  else if configured <? u32 (u32 (installed + conflicting) + missing) then Err ErrInvalidPayload else Ok tt.

Definition TransportsPayload_validate (p : TransportsPayload.t) : result conn_error unit :=
  let configured := TransportsPayload.Configured p in
  let ready := TransportsPayload.Ready p in
  let degraded := TransportsPayload.Degraded p in
  if (MaxComponentCount <? configured) || (MaxComponentCount <? ready) || (MaxComponentCount <? degraded)
  then Err ErrInvalidPayload
  else if configured <? u16 (ready + degraded) then Err ErrInvalidPayload else Ok tt.

Definition RelaysPayload_validate (p : RelaysPayload.t) : result conn_error unit :=
  let configured := RelaysPayload.Configured p in
  let reachable := RelaysPayload.Reachable p in
  let reserve := RelaysPayload.Reserve p in
  let selected := RelaysPayload.SelectedClass p in
  if negb (SelectedClass_Valid selected) then Err ErrInvalidPayload
  else if (MaxComponentCount <? configured) || (MaxComponentCount <? reachable) || (MaxComponentCount <? reserve)
  then Err ErrInvalidPayload
  else if (configured <? reachable) || (configured <? reserve) then Err ErrInvalidPayload
  else if negb (String.eqb selected SelectedNone) && (configured =? 0) then Err ErrInvalidPayload
  else if String.eqb selected SelectedReserve && (reserve =? 0) then Err ErrInvalidPayload
  else Ok tt.

Definition UserAccessPayload_validate (p : UserAccessPayload.t) : result conn_error unit :=
  let connected := UserAccessPayload.Connected p in
  let authenticated := UserAccessPayload.Authenticated p in
  if negb (ProfileClass_Valid (UserAccessPayload.ProfileClass p)) then Err ErrInvalidPayload
  else if String.eqb (UserAccessPayload.ProfileClass p) ProfileNone && (connected || authenticated)
  then Err ErrInvalidPayload
  else if connected && negb authenticated then Err ErrInvalidPayload else Ok tt.

Definition SessionExpiryPayload_validate (p : SessionExpiryPayload.t) : result conn_error unit :=
  let class := SessionExpiryPayload.ExpiryClass p in
  let sessions := SessionExpiryPayload.Sessions p in
  if negb (ExpiryClass_Valid class) then Err ErrInvalidPayload
  else if MaxComponentCount <? sessions then Err ErrInvalidPayload
  else if String.eqb class ExpiryNone && (0 <? sessions) then Err ErrInvalidPayload
  else if negb (String.eqb class ExpiryNone) && (sessions =? 0) then Err ErrInvalidPayload
  else Ok tt.

(** The members of a payload that are set, in the order of the struct. *)
Definition payload_members (p : Payload.t) : list Component :=
  let member {A} (o : option A) (c : Component) : list Component := match o with Some _ => [c] | None => [] end in
  (member (Payload.PhysicalNetwork p) ComponentPhysicalNetwork ++ member (Payload.DefaultPath p) ComponentDefaultPath ++
   member (Payload.DNS p) ComponentDNS ++ member (Payload.ScopedRoutes p) ComponentScopedRoutes ++
   member (Payload.Transports p) ComponentTransports ++ member (Payload.Relays p) ComponentRelays ++
   member (Payload.UserAccess p) ComponentUserAccess ++ member (Payload.SessionExpiry p) ComponentSessionExpiry)%list.

Definition Payload_component (p : Payload.t) : Component * bool :=
  (default "" (last (payload_members p)), len (payload_members p) =? 1).

Definition Payload_validate (p : Payload.t) : result conn_error unit :=
  match p with
  | Payload.mk (Some x) _ _ _ _ _ _ _ => PhysicalNetworkPayload_validate x
  | Payload.mk _ (Some x) _ _ _ _ _ _ => DefaultPathPayload_validate x
  | Payload.mk _ _ (Some x) _ _ _ _ _ => DNSPayload_validate x
  | Payload.mk _ _ _ (Some x) _ _ _ _ => ScopedRoutesPayload_validate x
  | Payload.mk _ _ _ _ (Some x) _ _ _ => TransportsPayload_validate x
  | Payload.mk _ _ _ _ _ (Some x) _ _ => RelaysPayload_validate x
  | Payload.mk _ _ _ _ _ _ (Some x) _ => UserAccessPayload_validate x
  | Payload.mk _ _ _ _ _ _ _ (Some x) => SessionExpiryPayload_validate x
  | _ => Err ErrInvalidPayload
  end.

(** ** Facts *)

Definition identifierRunes (value : string) : bool :=
  forallb (fun c => is_lower c || is_upper c || is_digit c || existsb (Ascii.eqb c) ["-"; "_"; "."]%char) (chars value).

Fixpoint double_dot (l : list ascii) : bool :=
  match l with
  | a :: ((b :: _) as rest) => (Ascii.eqb a "." && Ascii.eqb b ".") || double_dot rest
  | _ => false
  end.

Definition fact_identifier (value : string) : bool :=
  let l := chars value in
  negb (String.eqb value "" || (MaxIdentifierBytes <? slen value)) &&
  negb (match head l with Some c => Ascii.eqb c "." | None => false end ||
        match last l with Some c => Ascii.eqb c "." | None => false end) &&
  negb (double_dot l) && identifierRunes value.

Definition validEventUUID (value : string) : bool :=
  (slen value =? 36) &&
  forallb (fun x => if existsb (Nat.eqb x.1) [8; 13; 18; 23]%nat then Ascii.eqb x.2 "-" else is_lower_hex x.2)
    (imap pair (chars value)).

Definition Validate (f : Fact.t) : result conn_error unit :=
  if negb (String.eqb (Fact.Schema f) FactSchema) || negb (Fact.Version f =? FactSchemaVersion) then Err ErrInvalidFact
  else if negb (validEventUUID (Fact.EventID f)) then Err ErrInvalidFact
  else if negb (String.eqb (Fact.Domain f) DomainRoot) && negb (String.eqb (Fact.Domain f) DomainUser)
  then Err ErrInvalidFact
  else if negb (Component_Valid (Fact.Component f)) then Err ErrInvalidFact
  else if negb (fact_identifier (Fact.SourceID f)) then Err ErrForbiddenContent
  else if negb (fact_identifier (Fact.BootID f)) then Err ErrForbiddenContent
  else if Fact.SourceSequence f =? 0 then Err ErrInvalidFact
  else if (Time.instant (Fact.ObservedAt f) =? 0) || negb (Time.utc (Fact.ObservedAt f)) then Err ErrInvalidFact
  else if Fact.MonotonicTick f <=? 0 then Err ErrInvalidFact
  else if Fact.FreshnessDeadline f <=? Fact.MonotonicTick f then Err ErrInvalidFact
  else if negb (Lifecycle_Valid (Fact.Lifecycle f)) then Err ErrInvalidFact
  else if negb (Reason_Valid (Fact.Reason f)) then Err ErrInvalidFact
  else
    let '(component, single) := Payload_component (Fact.Payload f) in
    if negb single then Err ErrInvalidPayload
    else if negb (String.eqb component (Fact.Component f)) then Err ErrPayloadMismatch
    else Payload_validate (Fact.Payload f).

Section codec.
Context `{JSON} `{!Codec Fact.t}.

Definition Encode (f : Fact.t) : result conn_error Doc :=
  _ ← Validate f;
  match MarshalCanonical f with
  | Err _ => Err ErrInvalidEncoding
  | Ok canonical => if MaxEncodedFactBytes <? doc_len canonical then Err ErrInvalidEncoding else Ok canonical
  end.

Definition Digest (f : Fact.t) : result conn_error string := canonical ← Encode f; Ok (SHA256Hex canonical).

Definition Decode (encoded : Doc) : result conn_error Fact.t :=
  if (doc_len encoded =? 0) || (MaxEncodedFactBytes <? doc_len encoded) then Err ErrInvalidEncoding
  else match strictJSONDecode encoded with
       | None => Err ErrInvalidEncoding
       | Some f =>
           _ ← Validate f;
           match MarshalCanonical f with
           | Err _ => Err ErrInvalidEncoding
           | Ok canonical => if bool_decide (canonical = encoded) then Ok f else Err ErrNotCanonical
           end
       end.
End codec.

(** ** The sources that may speak *)

Abbreviation SourceRole := string (only parsing).
Definition RoleAuthoritative : SourceRole := "authoritative".
Definition RoleCorroborating : SourceRole := "corroborating".

Module SourceDeclaration.
Record t := mk { Source : SourceID; Domain : Domain; Component : Component; Role : SourceRole }.
#[global] Instance eq_dec : EqDecision t.
Proof. solve_decision. Defined.
End SourceDeclaration.

Definition connectivitySources : list SourceDeclaration.t :=
  [SourceDeclaration.mk "root.network" DomainRoot ComponentPhysicalNetwork RoleAuthoritative;
   SourceDeclaration.mk "root.network" DomainRoot ComponentDefaultPath RoleAuthoritative;
   SourceDeclaration.mk "root.dns" DomainRoot ComponentDNS RoleAuthoritative;
   SourceDeclaration.mk "root.routes" DomainRoot ComponentScopedRoutes RoleAuthoritative;
   SourceDeclaration.mk "root.transports" DomainRoot ComponentTransports RoleAuthoritative;
   SourceDeclaration.mk "root.relays" DomainRoot ComponentRelays RoleAuthoritative;
   SourceDeclaration.mk "user.access" DomainUser ComponentUserAccess RoleAuthoritative;
   SourceDeclaration.mk "user.session" DomainUser ComponentSessionExpiry RoleAuthoritative;
   SourceDeclaration.mk "root.probe" DomainRoot ComponentDefaultPath RoleCorroborating;
   SourceDeclaration.mk "root.probe" DomainRoot ComponentDNS RoleCorroborating;
   SourceDeclaration.mk "root.probe" DomainRoot ComponentRelays RoleCorroborating;
   SourceDeclaration.mk "user.probe" DomainUser ComponentUserAccess RoleCorroborating].

(** [connectivityByKey], which holds each declaration under its source and component. *)
Definition connectivityByKey (source : SourceID) (component : Component) : option SourceDeclaration.t :=
  List.find (fun d => String.eqb (SourceDeclaration.Source d) source &&
                      String.eqb (SourceDeclaration.Component d) component) connectivitySources.

Definition ConnectivityAuthority (component : Component) : option SourceDeclaration.t :=
  List.find (fun d => String.eqb (SourceDeclaration.Component d) component &&
                      String.eqb (SourceDeclaration.Role d) RoleAuthoritative) connectivitySources.

Definition ConnectivitySourceComponents (source : SourceID) : list Component :=
  List.filter (fun component => match connectivityByKey source component with Some _ => true | None => false end) Components.

Definition ClassifyConnectivityFact (f : Fact.t) (authenticatedDomain : Domain) : result conn_error SourceRole :=
  if negb (String.eqb (Fact.Domain f) authenticatedDomain) then Err ErrDomainMismatch
  else match connectivityByKey (Fact.SourceID f) (Fact.Component f) with
       | None => Err ErrUnknownSource
       | Some d =>
           if negb (String.eqb (SourceDeclaration.Domain d) authenticatedDomain) then Err ErrDomainMismatch
           else Ok (SourceDeclaration.Role d)
       end.

Definition ValidateAuthoritativeConnectivityFact (f : Fact.t) (authenticatedDomain : Domain) : result conn_error unit :=
  role ← ClassifyConnectivityFact f authenticatedDomain;
  if negb (String.eqb role RoleAuthoritative) then Err ErrCorroboratingWrite else Ok tt.

(** [init]: the maps it fills, or the panic that stops it. *)
Definition sourceKey (d : SourceDeclaration.t) : SourceID * Component := (SourceDeclaration.Source d, SourceDeclaration.Component d).

Fixpoint fill (byKey : gmap (SourceID * Component) SourceDeclaration.t) (authorities : gmap Component SourceDeclaration.t)
    (declarations : list SourceDeclaration.t)
    : option (gmap (SourceID * Component) SourceDeclaration.t * gmap Component SourceDeclaration.t) :=
  match declarations with
  | [] => Some (byKey, authorities)
  | d :: rest =>
      match byKey !! sourceKey d with
      | Some _ => None
      | None =>
          let byKey := <[sourceKey d := d]> byKey in
          if negb (String.eqb (SourceDeclaration.Role d) RoleAuthoritative) then fill byKey authorities rest
          else match authorities !! SourceDeclaration.Component d with
               | Some _ => None
               | None => fill byKey (<[SourceDeclaration.Component d := d]> authorities) rest
               end
      end
  end.

Definition init (declarations : list SourceDeclaration.t)
    : option (gmap (SourceID * Component) SourceDeclaration.t * gmap Component SourceDeclaration.t) :=
  '(byKey, authorities) ← fill ∅ ∅ declarations;
  if forallb (fun c => match authorities !! c with Some _ => true | None => false end) Components
  then Some (byKey, authorities) else None.

(** The authoritative declarations of a component. *)
Definition owners (declarations : list SourceDeclaration.t) (component : Component) : list SourceDeclaration.t :=
  List.filter (fun d => String.eqb (SourceDeclaration.Component d) component &&
                        String.eqb (SourceDeclaration.Role d) RoleAuthoritative) declarations.

(** A table that [init] accepts has at most one owner per component. *)
Lemma fill_owners byKey authorities declarations maps component :
  fill byKey authorities declarations = Some maps ->
  maps.2 !! component = match authorities !! component with Some d => Some d | None => head (owners declarations component) end /\
  (length (owners declarations component) + (if authorities !! component then 1 else 0) <= 1)%nat.
Proof.
  unfold owners.
  revert byKey authorities. induction declarations as [|d rest IH]; intros byKey authorities; simpl.
  - intros [= <-]. simpl. destruct (authorities !! component); simpl; split; first [done|lia].
  - destruct (byKey !! sourceKey d); [done|].
    destruct (String.eqb (SourceDeclaration.Role d) RoleAuthoritative) eqn:Hr; simpl;
      [|rewrite andb_false_r; apply IH].
    destruct (authorities !! SourceDeclaration.Component d) eqn:Ha; [done|]. intros [Hm Hl]%IH. rewrite andb_true_r.
    destruct (String.eqb (SourceDeclaration.Component d) component) eqn:Hc; [apply String.eqb_eq in Hc|apply String.eqb_neq in Hc].
    + subst component. rewrite lookup_insert_eq in Hm, Hl. rewrite Ha, Hm. simpl. split; [done|lia].
    + rewrite lookup_insert_ne in Hm, Hl by done. done.
Qed.

Lemma init_owners declarations maps component : init declarations = Some maps -> component ∈ Components ->
  exists d, owners declarations component = [d] /\ maps.2 !! component = Some d.
Proof.
  unfold init. intros Hi Hc. destruct (fill _ _ _) as [[byKey authorities]|] eqn:Hf; [|done]. cbn [mbind option_bind] in Hi.
  destruct (forallb _ Components) eqn:Hall; [|done]. injection Hi as <-.
  destruct (fill_owners _ _ _ _ component Hf) as [Hm Hl]. rewrite lookup_empty in Hm, Hl. simpl in Hm, Hl.
  rewrite forallb_forall in Hall. specialize (Hall component ltac:(by apply list_elem_of_In)). simpl. rewrite Hm in Hall |- *.
  destruct (owners declarations component) as [|d [|]]; [done|by exists d|simpl in Hl; lia].
Qed.

(** The compiled table does not panic, and its look-ups are those of the maps. *)
Lemma init_passes : exists maps, init connectivitySources = Some maps.
Proof.
  assert (is_Some (init connectivitySources)) as [maps Hm]; [|by exists maps].
  apply option.is_Some_alt. vm_compute. exact I.
Qed.

Lemma find_head_filter {A} (p : A -> bool) l : List.find p l = head (List.filter p l).
Proof. induction l as [|x l IH]; simpl; [done|]. by destruct (p x). Qed.

Lemma authority_owner component d : owners connectivitySources component = [d] -> ConnectivityAuthority component = Some d.
Proof. intros Ho. unfold ConnectivityAuthority. rewrite find_head_filter. exact (f_equal head Ho). Qed.

(** A component has one owner: every fact accepted as an authoritative statement
    about a component comes from the same source, the one [ConnectivityAuthority]
    names, over a transport that proved that source's domain. *)
Theorem one_owner_per_component f domain :
  Component_Valid (Fact.Component f) = true -> ValidateAuthoritativeConnectivityFact f domain = Ok tt ->
  exists d, ConnectivityAuthority (Fact.Component f) = Some d /\ SourceDeclaration.Source d = Fact.SourceID f /\
    SourceDeclaration.Domain d = domain /\ Fact.Domain f = domain.
Proof.
  intros Hv%contains_string_spec. change (Fact.Component f ∈ Components) in Hv.
  unfold ValidateAuthoritativeConnectivityFact, ClassifyConnectivityFact, connectivityByKey.
  destruct (negb (String.eqb (Fact.Domain f) domain)) eqn:Hd; [done|].
  destruct (List.find _ _) as [d|] eqn:Hk; [|done]. simpl.
  destruct (negb (String.eqb (SourceDeclaration.Domain d) domain)) eqn:Hd'; [done|]. simpl.
  destruct (negb (String.eqb (SourceDeclaration.Role d) RoleAuthoritative)) eqn:Hr; [done|]. intros _. bool_prop.
  apply find_some in Hk as [Hin Hk]. bool_prop. exists d. split_and!; [|done..]. apply authority_owner.
  destruct init_passes as [maps Hm]. destruct (init_owners _ _ _ Hm Hv) as (d' & Ho & _). rewrite Ho. f_equal.
  assert (In d (owners connectivitySources (Fact.Component f))) as Hi.
  { unfold owners. apply filter_In. split; [done|]. apply andb_true_iff. split; apply String.eqb_eq; congruence. }
  rewrite Ho in Hi. by destruct Hi.
Qed.

(** A fact within the range of JSON numbers survives the wire, and a text is read
    as a fact only when it is the one canonical text of that fact. *)
Theorem fact_roundtrip `{JSON} `{!Codec Fact.t, !CodecLaws Fact.t} (f : Fact.t) (d : Doc) :
  (exact f = true -> Encode f = Ok d -> Decode d = Ok f) /\ (Decode d = Ok f -> Encode f = Ok d).
Proof.
  unfold Encode, Decode. split.
  - intros He Hd. destruct (Validate f) as [[]|] eqn:Hv; [|done]. simpl in Hd.
    destruct (MarshalCanonical f) as [c|] eqn:Hm; [|done]. destruct (_ <? _) eqn:Hl; [done|]. injection Hd as <-.
    rewrite Hl, orb_false_r. rewrite (proj2 (Z.eqb_neq _ _)) by (apply MarshalCanonical_len in Hm; lia).
    rewrite (decode_canonical f c He Hm), Hv. simpl. by rewrite Hm, bool_decide_eq_true_2.
  - destruct (_ || _) eqn:Hl; [done|]. destruct (strictJSONDecode d) as [g|]; [|done].
    destruct (Validate g) as [[]|] eqn:Hv; [|done]. simpl. destruct (MarshalCanonical g) as [c|] eqn:Hm; [|done].
    destruct (bool_decide _) eqn:Hc; [|done]. intros [= ->]. bool_prop. subst d. rewrite Hv. simpl. rewrite Hm.
    by destruct (_ <? _) eqn:Hlt; bool_prop; [lia|].
Qed.
