(* ===== verification/ConnAccept.v ===== *)
(** * Acceptance of connectivity facts

    [internal/connectivityaccept/acceptor.go]: each arrival is given its place in the
    order of the host, or is recognised as a retry, a reuse of an identity with other
    content, or too late. The acceptor's pointers into its map of sources are states
    passed along. *)

From Stdlib Require Import ZArith Lia Ascii String.
From stdpp Require Import base strings list option sets gmap sorting.
From S2P Require Import Prelude PolicyModel PolicyCanonical Connectivity.

Open Scope string_scope.
Open Scope Z_scope.

Definition RetryWindow := 64.
Definition MaxGapRanges := 64.

Abbreviation Outcome := string (only parsing).
Definition OutcomeAccepted : Outcome := "accepted".
Definition OutcomeDuplicate : Outcome := "duplicate".
Definition OutcomeConflict : Outcome := "conflict".
Definition OutcomeStale : Outcome := "stale".
Definition OutcomeRejected : Outcome := "rejected".

(** The reasons of the acceptor; those of the facts have the same names. *)
Abbreviation AcceptReason := string (only parsing).
Definition AcceptReasonNone : AcceptReason := "none".
Definition AcceptReasonInvalidFact : AcceptReason := "invalid_fact".
Definition AcceptReasonOwnership : AcceptReason := "ownership".
Definition AcceptReasonDomainMismatch : AcceptReason := "domain_mismatch".
Definition AcceptReasonExactRetry : AcceptReason := "exact_retry".
Definition AcceptReasonIdentityReused : AcceptReason := "identity_reused".
Definition AcceptReasonBehindWatermark : AcceptReason := "behind_watermark".
Definition AcceptReasonBeyondRetry : AcceptReason := "beyond_retry_window".
Definition AcceptReasonSequenceGap : AcceptReason := "sequence_gap".
Definition AcceptReasonBootChanged : AcceptReason := "boot_changed".
Definition AcceptReasonGapOverflow : AcceptReason := "gap_overflow".
Definition AcceptReasonBaselineAccepted : AcceptReason := "baseline_accepted".
Definition AcceptReasonBaselinePending : AcceptReason := "baseline_pending".

Module Identity.
Record t := mk {
  SourceID : SourceID;
  BootID : string;
  Sequence : Z
}.
#[global] Instance eq_dec : EqDecision t.
Proof. solve_decision. Defined.
End Identity.

Module GapRange.
Record t := mk {
  From : Z;
  To : Z
}.
#[global] Instance eq_dec : EqDecision t.
Proof. solve_decision. Defined.
End GapRange.

Module RecentDigest.
Record t := mk {
  Sequence : Z;
  Digest : string
}.
#[global] Instance eq_dec : EqDecision t.
Proof. solve_decision. Defined.
End RecentDigest.

Module SourceIntegrity.
Record t := mk {
  BootID : string;
  LastSequence : Z;
  Gaps : list GapRange.t;
  GapOverflow : bool;
  PendingBaseline : list Component;
  Conflicts : Z;
  Recent : list RecentDigest.t
}.
#[global] Instance eq_dec : EqDecision t.
Proof. solve_decision. Defined.
End SourceIntegrity.

Module Acceptance.
Record t := mk {
  Outcome : Outcome;
  Reason : AcceptReason;
  Role : SourceRole;
  Digest : string;
  HostSequence : Z;
  FoldPosition : Z;
  OpenedGap : option GapRange.t;
  ClearedGaps : list GapRange.t;
  Source : SourceIntegrity.t
}.
#[global] Instance eq_dec : EqDecision t.
Proof. solve_decision. Defined.
End Acceptance.

Module SourceState.
Record t := mk {
  BootID : string;
  LastSequence : Z;
  Recent : list RecentDigest.t;
  Gaps : list GapRange.t;
  GapOverflow : bool;
  PendingBaseline : list Component;
  Conflicts : Z
}.
#[global] Instance eq_dec : EqDecision t.
Proof. solve_decision. Defined.
End SourceState.

(** [State] *)
Record State := mkState {
  HostSequence : Z;
  FoldPosition : Z;
  Sources : gmap SourceID SourceState.t
}.

(** ** The durable state *)

Definition AwaitingBaseline (s : SourceState.t) : bool := 0 <? len (SourceState.PendingBaseline s).

Definition containsComponent (l : list Component) (value : Component) : bool := contains_string l value.

(** The order test of the loop over [Recent]. *)
Fixpoint recent_ordered (bound : Z) (previous : option Z) (recent : list RecentDigest.t) : bool :=
  match recent with
  | [] => true
  | e :: rest =>
      let sequence := RecentDigest.Sequence e in
      (sequence <=? bound) && (match previous with Some p => p <? sequence | None => true end) &&
      recent_ordered bound (Some sequence) rest
  end.

Definition source_valid (id : SourceID) (s : SourceState.t) : bool :=
  negb (RetryWindow <? len (SourceState.Recent s)) && negb (MaxGapRanges <? len (SourceState.Gaps s)) &&
  recent_ordered (SourceState.LastSequence s) None (SourceState.Recent s) &&
  forallb (fun gap => negb ((GapRange.From gap =? 0) || (GapRange.To gap <? GapRange.From gap))) (SourceState.Gaps s) &&
  negb ((0 <? len (SourceState.Gaps s)) && (len (SourceState.PendingBaseline s) =? 0)) &&
  forallb (containsComponent (ConnectivitySourceComponents id)) (SourceState.PendingBaseline s).

Definition State_Validate (st : State) : result conn_error unit :=
  ensure (bool_decide (map_Forall (fun id s => source_valid id s = true) (Sources st))) ErrInvalidState.

Definition New : State := mkState 0 0 ∅.

Definition Restore (st : State) : result conn_error State := _ ← State_Validate st; Ok st.

(** ** Decisions *)

Definition integrityOf (s : SourceState.t) : SourceIntegrity.t :=
  SourceIntegrity.mk (SourceState.BootID s) (SourceState.LastSequence s) (SourceState.Gaps s) (SourceState.GapOverflow s)
    (SourceState.PendingBaseline s) (SourceState.Conflicts s) (SourceState.Recent s).

Definition with_pending (s : SourceState.t) (pending : list Component) : SourceState.t :=
  SourceState.mk (SourceState.BootID s) (SourceState.LastSequence s) (SourceState.Recent s) (SourceState.Gaps s)
    (SourceState.GapOverflow s) pending (SourceState.Conflicts s).

Definition owesBaseline (s : SourceState.t) (id : SourceID) : SourceState.t :=
  with_pending s (sort_strings
    (fold_left (fun pending component => if containsComponent pending component then pending else (pending ++ [component])%list)
       (ConnectivitySourceComponents id) (SourceState.PendingBaseline s))).

Definition settleBaseline (s : SourceState.t) (component : Component) : SourceState.t * bool :=
  let remaining := List.filter (fun pending => negb (String.eqb pending component)) (SourceState.PendingBaseline s) in
  (with_pending s remaining, len remaining =? 0).

Definition gap_before (a b : GapRange.t) : bool := GapRange.From a <? GapRange.From b.

(** The last [n] elements. *)
Definition keep_last {A} (n : Z) (l : list A) : list A := if n <? len l then drop (Z.to_nat (len l - n)) l else l.

Definition recordGap (s : SourceState.t) (gap : GapRange.t) (id : SourceID) : SourceState.t :=
  let gaps := sort_slice gap_before (SourceState.Gaps s ++ [gap])%list in
  owesBaseline (SourceState.mk (SourceState.BootID s) (SourceState.LastSequence s) (SourceState.Recent s)
    (keep_last MaxGapRanges gaps) (SourceState.GapOverflow s || (MaxGapRanges <? len gaps))
    (SourceState.PendingBaseline s) (SourceState.Conflicts s)) id.

Definition inGap (gaps : list GapRange.t) (sequence : Z) : bool :=
  existsb (fun gap => (GapRange.From gap <=? sequence) && (sequence <=? GapRange.To gap)) gaps.

(** The first half of [admit]: the hole behind the arrival. *)
Definition open_gap (s : SourceState.t) (f : Fact.t) : SourceState.t * option GapRange.t :=
  let expected := u64 (SourceState.LastSequence s + 1) in
  if (0 <? SourceState.LastSequence s) && (expected <? Fact.SourceSequence f) then
    let gap := GapRange.mk expected (u64 (Fact.SourceSequence f - 1)) in
    (recordGap s gap (Fact.SourceID f), Some gap)
  else (s, None).

(** Its second part: what a baseline settles. *)
Definition settle (s : SourceState.t) (f : Fact.t) (reason : AcceptReason)
    : SourceState.t * list GapRange.t * AcceptReason :=
  if Fact.Baseline f && AwaitingBaseline s then
    let '(s', settled) := settleBaseline s (Fact.Component f) in
    if (settled : bool) then
      (SourceState.mk (SourceState.BootID s') (SourceState.LastSequence s') (SourceState.Recent s') [] false [] 0,
       SourceState.Gaps s', AcceptReasonBaselineAccepted)
    else (s', [], if String.eqb reason AcceptReasonNone then AcceptReasonBaselinePending else reason)
  else (s, [], reason).

Definition remember (s : SourceState.t) (sequence : Z) (digest : string) : SourceState.t :=
  SourceState.mk (SourceState.BootID s) sequence
    (keep_last RetryWindow (SourceState.Recent s ++ [RecentDigest.mk sequence digest])%list)
    (SourceState.Gaps s) (SourceState.GapOverflow s) (SourceState.PendingBaseline s) (SourceState.Conflicts s).

Definition admit_fact (host : Z) (s : SourceState.t) (f : Fact.t) (digest : string) (role : SourceRole)
    : Z * SourceState.t * Acceptance.t :=
  let '(s1, opened) := open_gap s f in
  let reason := match opened with Some _ => AcceptReasonSequenceGap | None => AcceptReasonNone end in
  let '(s2, cleared, reason) := settle s1 f reason in
  let s3 := remember s2 (Fact.SourceSequence f) digest in
  let host := u64 (host + 1) in
  (host, s3, Acceptance.mk OutcomeAccepted reason role digest host 0 opened cleared (integrityOf s3)).

Definition replay (s : SourceState.t) (f : Fact.t) (digest : string) (role : SourceRole)
    : SourceState.t * Acceptance.t :=
  match List.find (fun e => RecentDigest.Sequence e =? Fact.SourceSequence f) (SourceState.Recent s) with
  | Some e =>
      if String.eqb (RecentDigest.Digest e) digest
      then (s, Acceptance.mk OutcomeDuplicate AcceptReasonExactRetry role digest 0 0 None [] (integrityOf s))
      else
        let s' := owesBaseline (SourceState.mk (SourceState.BootID s) (SourceState.LastSequence s) (SourceState.Recent s)
          (SourceState.Gaps s) (SourceState.GapOverflow s) (SourceState.PendingBaseline s)
          (u32 (SourceState.Conflicts s + 1))) (Fact.SourceID f) in
        (s', Acceptance.mk OutcomeConflict AcceptReasonIdentityReused role digest 0 0 None [] (integrityOf s'))
  | None =>
      let reason := if inGap (SourceState.Gaps s) (Fact.SourceSequence f) then AcceptReasonBehindWatermark
                    else AcceptReasonBeyondRetry in
      (s, Acceptance.mk OutcomeStale reason role digest 0 0 None [] (integrityOf s))
  end.

Definition no_integrity : SourceIntegrity.t := SourceIntegrity.mk "" 0 [] false [] 0 [].

Definition rejected (reason : AcceptReason) : Acceptance.t :=
  Acceptance.mk OutcomeRejected reason "" "" 0 0 None [] no_integrity.

Definition at_fold (a : Acceptance.t) (reason : AcceptReason) (folded : Z) : Acceptance.t :=
  Acceptance.mk (Acceptance.Outcome a) reason (Acceptance.Role a) (Acceptance.Digest a) (Acceptance.HostSequence a) folded
    (Acceptance.OpenedGap a) (Acceptance.ClearedGaps a) (Acceptance.Source a).

(** What [Accept] does under its lock, once the fact is known to be in order. *)
Definition decide_arrival (st : State) (f : Fact.t) (digest : string) (role : SourceRole) : State * Acceptance.t :=
  let id := Fact.SourceID f in
  let s := default (SourceState.mk (Fact.BootID f) 0 [] [] false [] 0) (Sources st !! id) in
  let folded := u64 (FoldPosition st + 1) in
  if negb (String.eqb (SourceState.BootID s) (Fact.BootID f)) then
    let fresh := SourceState.mk (Fact.BootID f) 0 [] [] false (ConnectivitySourceComponents id) 0 in
    let '(host, s', a) := admit_fact (HostSequence st) fresh f digest role in
    let reason :=
      if String.eqb (Acceptance.Reason a) AcceptReasonNone || String.eqb (Acceptance.Reason a) AcceptReasonSequenceGap
      then AcceptReasonBootChanged else Acceptance.Reason a in
    (mkState host folded (<[id := s']> (Sources st)), at_fold a reason folded)
  else if SourceState.LastSequence s <? Fact.SourceSequence f then
    let '(host, s', a) := admit_fact (HostSequence st) s f digest role in
    (mkState host folded (<[id := s']> (Sources st)), at_fold a (Acceptance.Reason a) folded)
  else
    let '(s', a) := replay s f digest role in
    (mkState (HostSequence st) folded (<[id := s']> (Sources st)), at_fold a (Acceptance.Reason a) folded).

Section accept.
Context `{JSON} `{!Codec Fact.t}.

(** The new state, the decision and the error that comes with a rejection. *)
Definition Accept (st : State) (f : Fact.t) (authenticatedDomain : Domain) : State * Acceptance.t * option conn_error :=
  match Validate f with
  | Err e => (st, rejected AcceptReasonInvalidFact, Some e)
  | Ok _ =>
      match ClassifyConnectivityFact f authenticatedDomain with
      | Err e =>
          (st, rejected (if bool_decide (e = ErrDomainMismatch) then AcceptReasonDomainMismatch else AcceptReasonOwnership),
           Some e)
      | Ok role =>
          match Digest f with
          | Err e => (st, rejected AcceptReasonInvalidFact, Some e)
          | Ok digest => (decide_arrival st f digest role, None)
          end
      end
  end.

Definition Gaps (st : State) (id : SourceID) : option (list GapRange.t) := SourceState.Gaps <$> Sources st !! id.
End accept.

(** ** What a reader of the decisions knows

    The decisions handed out so far, in order, and what they say about one source in
    its present boot: the arrivals accepted, the holes announced, and the holes
    announced since the last complete restatement. *)

Module Stream.
Record t := mk {
  boot : string;
  accepted : list RecentDigest.t;
  opened : list GapRange.t;
  missing : list GapRange.t
}.
End Stream.

Definition no_stream : Stream.t := Stream.mk "" [] [] [].

Definition is_accepted (a : Acceptance.t) : bool := String.eqb (Acceptance.Outcome a) OutcomeAccepted.

Definition note (h : Stream.t) (f : Fact.t) (a : Acceptance.t) : Stream.t :=
  let h := if String.eqb (Stream.boot h) (Fact.BootID f) then h else Stream.mk (Fact.BootID f) [] [] [] in
  let holes := match Acceptance.OpenedGap a with Some g => [g] | None => [] end in
  Stream.mk (Stream.boot h)
    (if is_accepted a then Stream.accepted h ++ [RecentDigest.mk (Fact.SourceSequence f) (Acceptance.Digest a)]
     else Stream.accepted h)%list
    (Stream.opened h ++ holes)%list
    (if String.eqb (Acceptance.Reason a) AcceptReasonBaselineAccepted then [] else Stream.missing h ++ holes)%list.

Abbreviation Log := (list (Fact.t * Acceptance.t)) (only parsing).

Definition note_for (id : SourceID) (h : Stream.t) (e : Fact.t * Acceptance.t) : Stream.t :=
  if String.eqb (Fact.SourceID e.1) id then note h e.1 e.2 else h.

Definition stream_of (id : SourceID) (log : Log) : Stream.t := fold_left (note_for id) log no_stream.

Definition accepted_in (log : Log) : Z := len (List.filter (fun e => is_accepted e.2) log).

(** The decision on an arrival, from the whole history of its boot. *)
Definition decide_by_history (h : Stream.t) (f : Fact.t) (digest : string) : Outcome :=
  if negb (String.eqb (Stream.boot h) (Fact.BootID f)) then OutcomeAccepted
  else if forallb (fun e => RecentDigest.Sequence e <? Fact.SourceSequence f) (Stream.accepted h) then OutcomeAccepted
  else match List.find (fun e => RecentDigest.Sequence e =? Fact.SourceSequence f)
               (keep_last RetryWindow (Stream.accepted h)) with
       | Some e => if String.eqb (RecentDigest.Digest e) digest then OutcomeDuplicate else OutcomeConflict
       | None => OutcomeStale
       end.

Section reachable.
Context `{JSON} `{!Codec Fact.t}.

Inductive reach : State -> Log -> Prop :=
| reach_new : reach New []
| reach_accept st log f domain st' a :
    reach st log -> 0 <= Fact.SourceSequence f <= max_u64 ->
    Accept st f domain = (st', a, None) -> reach st' (log ++ [(f, a)])%list
| reach_reject st log f domain st' a e :
    reach st log -> Accept st f domain = (st', a, Some e) -> reach st' log.
End reachable.

(** ** Lists kept within their bounds *)

Lemma keep_last_le {A} n (l : list A) : 0 <= n -> len (keep_last n l) <= n.
Proof.
  intros Hn. unfold keep_last. destruct (n <? len l) eqn:Hc; bool_prop; [|lia].
  rewrite length_drop. lia.
Qed.

Lemma keep_last_suffix {A} n (l : list A) : keep_last n l `suffix_of` l.
Proof. unfold keep_last. case_match; [apply suffix_drop|done]. Qed.

Lemma keep_last_snoc {A} n (l : list A) x : 0 < n ->
  keep_last n (keep_last n l ++ [x])%list = keep_last n (l ++ [x])%list.
Proof.
  intros Hn. unfold keep_last. destruct (n <? len l) eqn:Hc; [|done]. bool_prop.
  rewrite !length_app, length_drop. simpl length.
  rewrite !(proj2 (Z.ltb_lt _ _)) by lia.
  rewrite !drop_app_le by (rewrite ?length_drop; lia). rewrite drop_drop. do 2 f_equal. lia.
Qed.

Lemma keep_last_nil {A} n (l : list A) : 0 < n -> keep_last n l = [] -> l = [].
Proof.
  intros Hn. unfold keep_last. destruct (n <? len l) eqn:Hc; [|done]. bool_prop.
  intros Hd%(f_equal length). rewrite length_drop in Hd. simpl in Hd. lia.
Qed.

(** ** Baselines owed *)

Definition components_ok (id : SourceID) (l : list Component) : Prop :=
  NoDup l /\ Forall (fun c => c ∈ ConnectivitySourceComponents id) l.

Lemma source_components_NoDup id : NoDup (ConnectivitySourceComponents id).
Proof.
  apply NoDup_ListNoDup, List.NoDup_filter, NoDup_ListNoDup, distinct_strings_NoDup. vm_compute. reflexivity.
Qed.

Lemma owed_NoDup (declared pending : list Component) : NoDup pending ->
  NoDup (fold_left (fun pending component => if containsComponent pending component then pending else (pending ++ [component])%list)
           declared pending).
Proof.
  revert pending. induction declared as [|d declared IH]; intros pending Hp; simpl; [done|]. apply IH.
  destruct (containsComponent pending d) eqn:Hc; [done|]. apply NoDup_app. split_and!; [done| |apply NoDup_singleton].
  intros x Hx ->%list_elem_of_singleton. apply contains_string_spec in Hx. unfold containsComponent in Hc. congruence.
Qed.

Lemma owed_fold (declared pending : list Component) c :
  c ∈ fold_left (fun pending component => if containsComponent pending component then pending else (pending ++ [component])%list)
        declared pending <-> c ∈ pending \/ c ∈ declared.
Proof.
  revert pending. induction declared as [|d declared IH]; intros pending; simpl; [set_solver|].
  rewrite IH. destruct (containsComponent pending d) eqn:Hc; [|set_solver].
  apply contains_string_spec in Hc. set_solver.
Qed.

Lemma owesBaseline_pending s id c :
  c ∈ SourceState.PendingBaseline (owesBaseline s id) <-> c ∈ SourceState.PendingBaseline s \/ c ∈ ConnectivitySourceComponents id.
Proof. unfold owesBaseline, with_pending, sort_strings. simpl. by rewrite elem_of_sort_slice, owed_fold. Qed.

Lemma owes_components_ok id s : components_ok id (SourceState.PendingBaseline s) ->
  components_ok id (SourceState.PendingBaseline (owesBaseline s id)).
Proof.
  unfold components_ok. rewrite !Forall_forall. intros [Hd Hp]. split; [|intros c [?|?]%owesBaseline_pending; auto].
  unfold owesBaseline, with_pending, sort_strings. simpl. rewrite sort_slice_perm. by apply owed_NoDup.
Qed.

Lemma owes_something id s : ConnectivitySourceComponents id <> [] -> SourceState.PendingBaseline (owesBaseline s id) <> [].
Proof.
  intros Hne Hnil. destruct (ConnectivitySourceComponents id) as [|c l] eqn:Hc; [done|].
  assert (c ∈ SourceState.PendingBaseline (owesBaseline s id)) as Hin.
  { apply owesBaseline_pending. right. rewrite Hc. apply list_elem_of_here. }
  rewrite Hnil in Hin. by apply not_elem_of_nil in Hin.
Qed.

(** A source that may speak has something to restate. *)
Lemma classified_has_components f domain role :
  ClassifyConnectivityFact f domain = Ok role -> Component_Valid (Fact.Component f) = true ->
  ConnectivitySourceComponents (Fact.SourceID f) <> [].
Proof.
  unfold ClassifyConnectivityFact. destruct (negb _); [done|].
  destruct (connectivityByKey _ _) as [d|] eqn:Hk; [|done]. intros _ Hv Hnil.
  assert (In (Fact.Component f) (ConnectivitySourceComponents (Fact.SourceID f))) as Hin.
  { unfold ConnectivitySourceComponents. apply filter_In. split; [|by rewrite Hk].
    apply list_elem_of_In, contains_string_spec. exact Hv. }
  by rewrite Hnil in Hin.
Qed.

(** ** Holes *)

Definition in_range_of (g : GapRange.t) (n : Z) : Prop := GapRange.From g <= n <= GapRange.To g.
Definition in_gaps (l : list GapRange.t) (n : Z) : Prop := exists g, g ∈ l /\ in_range_of g n.

Lemma inGap_spec l n : inGap l n = true <-> in_gaps l n.
Proof.
  unfold inGap, in_gaps, in_range_of. rewrite existsb_exists. setoid_rewrite list_elem_of_In.
  split; intros (g & Hg & Hn); exists g; (split; [done|]); [bool_prop; lia|].
  apply andb_true_iff. split; apply Z.leb_le; lia.
Qed.

Lemma in_gaps_app l k n : in_gaps (l ++ k)%list n <-> in_gaps l n \/ in_gaps k n.
Proof. unfold in_gaps. set_solver. Qed.

(** The holes a source holds, against those announced since its last restatement. *)
Record gaps_inv (id : SourceID) (missing : list GapRange.t) (s : SourceState.t) : Prop := {
  gi_len : len (SourceState.Gaps s) <= MaxGapRanges;
  gi_pending : components_ok id (SourceState.PendingBaseline s);
  gi_owes : SourceState.Gaps s <> [] -> SourceState.PendingBaseline s <> [];
  gi_sound : Forall (fun g => g ∈ missing) (SourceState.Gaps s);
  gi_shape : Forall (fun g => 1 <= GapRange.From g <= GapRange.To g) missing;
  gi_complete : SourceState.GapOverflow s = true \/ Forall (fun g => g ∈ SourceState.Gaps s) missing
}.

Lemma owes_gaps_inv id m s : gaps_inv id m s -> ConnectivitySourceComponents id <> [] -> gaps_inv id m (owesBaseline s id).
Proof. intros [] Hc. split; try done; [by apply owes_components_ok|intros _; by apply owes_something]. Qed.

Lemma recordGap_inv id m s g : gaps_inv id m s -> ConnectivitySourceComponents id <> [] ->
  1 <= GapRange.From g <= GapRange.To g -> gaps_inv id (m ++ [g])%list (recordGap s g id).
Proof.
  intros [Hl Hp Ho Hs Hsh Hc] Hne Hg. unfold recordGap.
  set (gaps := sort_slice gap_before (SourceState.Gaps s ++ [g])%list).
  assert (forall x, x ∈ gaps <-> x ∈ SourceState.Gaps s \/ x = g) as Hin.
  { intros x. unfold gaps. rewrite elem_of_sort_slice. set_solver. }
  split.
  - by apply keep_last_le.
  - by apply owes_components_ok.
  - intros _. by apply owes_something.
  - simpl. rewrite Forall_forall in *. intros x Hx. destruct (keep_last_suffix MaxGapRanges gaps) as [k Hk].
    assert (x ∈ gaps) as [Hx'| ->]%Hin by (rewrite Hk; set_solver); set_solver.
  - apply Forall_app. split; [done|]. by apply Forall_singleton.
  - simpl. unfold keep_last. destruct (MaxGapRanges <? len gaps) eqn:Hov; [left; apply orb_true_r|].
    destruct Hc as [->|Hc]; [by left|]. right. rewrite Forall_forall in *. setoid_rewrite Hin. set_solver.
Qed.

Lemma settle_inv id m s f reason s' cleared reason' : gaps_inv id m s -> reason <> AcceptReasonBaselineAccepted ->
  settle s f reason = (s', cleared, reason') ->
  gaps_inv id (if String.eqb reason' AcceptReasonBaselineAccepted then [] else m) s' /\
  SourceState.BootID s' = SourceState.BootID s /\ SourceState.Recent s' = SourceState.Recent s.
Proof.
  intros [] Hr. unfold settle, settleBaseline. simpl.
  destruct (Fact.Baseline f && AwaitingBaseline s); [|intros [= <- <- <-]; apply String.eqb_neq in Hr; rewrite Hr; done].
  set (rest := List.filter _ _). destruct (len rest =? 0) eqn:Hz; intros [= <- <- <-]; simpl.
  - split; [|done]. split; simpl; first [done|by split; [apply NoDup_nil|apply Forall_nil]|by apply Forall_nil|right; by apply Forall_nil].
  - replace (String.eqb _ _) with false.
    2:{ symmetry. apply String.eqb_neq. destruct (String.eqb reason _); [done|done]. }
    split; [|done]. split; simpl; try done.
    + destruct gi_pending0 as [Hd Hp]. split; [by apply NoDup_ListNoDup, List.NoDup_filter, NoDup_ListNoDup|].
      rewrite Forall_forall in *. intros c Hc. apply Hp.
      apply list_elem_of_In, filter_In in Hc as [Hc _]. by apply list_elem_of_In.
    + intros _ Hnil. rewrite Hnil in Hz. done.
Qed.

(** ** The order of a stream *)

Definition earlier (x y : RecentDigest.t) : Prop := RecentDigest.Sequence x < RecentDigest.Sequence y.

Record order_inv (h : Stream.t) (s : SourceState.t) : Prop := {
  oi_boot : Stream.boot h = SourceState.BootID s;
  oi_recent : SourceState.Recent s = keep_last RetryWindow (Stream.accepted h);
  oi_sorted : StronglySorted earlier (Stream.accepted h);
  oi_positive : Forall (fun e => 0 < RecentDigest.Sequence e) (Stream.accepted h);
  oi_last : from_option RecentDigest.Sequence 0 (last (Stream.accepted h)) = SourceState.LastSequence s;
  oi_bound : 0 <= SourceState.LastSequence s <= max_u64;
  oi_opened : Forall (fun g => GapRange.To g < SourceState.LastSequence s) (Stream.opened h);
  oi_cover : forall e n, e ∈ Stream.accepted h -> RecentDigest.Sequence e <= n <= SourceState.LastSequence s ->
    n ∈ (RecentDigest.Sequence <$> Stream.accepted h) \/ in_gaps (Stream.opened h) n;
  oi_disjoint : forall n, n ∈ (RecentDigest.Sequence <$> Stream.accepted h) -> ~ in_gaps (Stream.opened h) n
}.

Lemma oi_below h s e : order_inv h s -> e ∈ Stream.accepted h -> RecentDigest.Sequence e <= SourceState.LastSequence s.
Proof.
  intros [] He. rewrite <- oi_last0. destruct (Stream.accepted h) as [|x l] using rev_ind; [by apply not_elem_of_nil in He|].
  rewrite last_snoc. simpl. apply elem_of_app in He as [He|He%list_elem_of_singleton]; [|subst; lia].
  apply Z.lt_le_incl. eapply (StronglySorted_app_1_elem_of earlier); [exact oi_sorted0|done|]. by apply list_elem_of_singleton.
Qed.

(** [open_gap] announces exactly the sequences between the watermark and the arrival. *)
Lemma open_gap_spec s f s1 opened : 0 <= SourceState.LastSequence s < Fact.SourceSequence f -> Fact.SourceSequence f <= max_u64 ->
  open_gap s f = (s1, opened) ->
  (opened = None /\ s1 = s /\ (SourceState.LastSequence s = 0 \/ Fact.SourceSequence f = SourceState.LastSequence s + 1)) \/
  (exists g, opened = Some g /\ s1 = recordGap s g (Fact.SourceID f) /\ 0 < SourceState.LastSequence s /\
     GapRange.From g = SourceState.LastSequence s + 1 /\ GapRange.To g = Fact.SourceSequence f - 1 /\
     GapRange.From g <= GapRange.To g).
Proof.
  intros Hl Hm. unfold open_gap. rewrite !u64_small by lia.
  destruct (_ && _) eqn:Hc; intros [= <- <-].
  - right. bool_prop. eexists. split_and!; try reflexivity; simpl; lia.
  - left. split_and!; [done..|]. apply andb_false_iff in Hc as [?|?]; bool_prop; lia.
Qed.

Definition holes (o : option GapRange.t) : list GapRange.t := match o with Some g => [g] | None => [] end.

(** Accepting the next arrival keeps the order. *)
Lemma order_inv_accept h s f s1 opened digest missing s3 :
  order_inv h s -> SourceState.LastSequence s < Fact.SourceSequence f <= max_u64 -> open_gap s f = (s1, opened) ->
  SourceState.BootID s3 = SourceState.BootID s -> SourceState.LastSequence s3 = Fact.SourceSequence f ->
  SourceState.Recent s3 = keep_last RetryWindow (SourceState.Recent s ++ [RecentDigest.mk (Fact.SourceSequence f) digest])%list ->
  order_inv (Stream.mk (Stream.boot h) (Stream.accepted h ++ [RecentDigest.mk (Fact.SourceSequence f) digest])%list
    (Stream.opened h ++ holes opened)%list missing) s3.
Proof.
  intros Hi Hs Ho Hb Hl Hr. pose proof (fun e => oi_below h s e Hi) as Hbelow. destruct Hi.
  apply open_gap_spec in Ho; [|lia..].
  assert (forall n, in_gaps (holes opened) n <-> SourceState.LastSequence s < n < Fact.SourceSequence f /\ 0 < SourceState.LastSequence s) as Hh.
  { intros n. destruct Ho as [(-> & -> & Hq)|(g & -> & -> & Hp & Hf & Ht & Hle)]; unfold in_gaps, in_range_of; simpl.
    - split; [intros (? & Hx & _); by apply not_elem_of_nil in Hx|lia].
    - split; [intros (x & ->%list_elem_of_singleton & Hx); lia|]. intros. exists g. split; [by apply list_elem_of_singleton|lia]. }
  split; simpl; rewrite ?Hl, ?Hb.
  - done.
  - rewrite Hr, oi_recent0. by apply keep_last_snoc.
  - apply StronglySorted_app_2; [|done|repeat constructor].
    intros x y Hx ->%list_elem_of_singleton. unfold earlier. simpl. specialize (Hbelow x Hx). lia.
  - apply Forall_app. split; [done|]. apply Forall_singleton. simpl. lia.
  - by rewrite last_snoc.
  - lia.
  - apply Forall_app. split; [eapply Forall_impl; [exact oi_opened0|]; simpl; lia|].
    destruct Ho as [(-> & _)|(g & -> & _ & _ & _ & Ht & _)]; [by apply Forall_nil|apply Forall_singleton; lia].
  - intros e n He Hn. rewrite fmap_app, elem_of_app, in_gaps_app, Hh. simpl.
    destruct (decide (n = Fact.SourceSequence f)) as [->|Hne]; [left; right; by apply list_elem_of_singleton|].
    apply elem_of_app in He as [He|He%list_elem_of_singleton]; [|subst e; simpl in Hn; lia].
    destruct (decide (n <= SourceState.LastSequence s)) as [Hle|Hgt].
    + destruct (oi_cover0 e n He) as [?|?]; [lia|by left; left|by right; left].
    + right; right. specialize (Hbelow e He). rewrite Forall_forall in oi_positive0. specialize (oi_positive0 e He). lia.
  - intros n. rewrite fmap_app, elem_of_app, in_gaps_app, Hh. simpl. intros [Hn|Hn%list_elem_of_singleton] [Hg|Hg].
    + by eapply oi_disjoint0.
    + apply list_elem_of_fmap in Hn as (e & -> & He). specialize (Hbelow e He). lia.
    + subst n. destruct Hg as (g & Hg & Hr'). rewrite Forall_forall in oi_opened0. specialize (oi_opened0 g Hg). unfold in_range_of in Hr'. lia.
    + lia.
Qed.

(** ** One decision *)

Definition src_inv (id : SourceID) (h : Stream.t) (s : SourceState.t) : Prop :=
  gaps_inv id (Stream.missing h) s /\ order_inv h s.

Definition same_settlement (r r' : AcceptReason) : Prop :=
  String.eqb r AcceptReasonBaselineAccepted = String.eqb r' AcceptReasonBaselineAccepted.

Lemma note_accepted h f a r folded : Stream.boot h = Fact.BootID f -> Acceptance.Outcome a = OutcomeAccepted ->
  same_settlement r (Acceptance.Reason a) ->
  note h f (at_fold a r folded) =
  Stream.mk (Stream.boot h) (Stream.accepted h ++ [RecentDigest.mk (Fact.SourceSequence f) (Acceptance.Digest a)])%list
    (Stream.opened h ++ holes (Acceptance.OpenedGap a))%list
    (if String.eqb (Acceptance.Reason a) AcceptReasonBaselineAccepted then []
     else (Stream.missing h ++ holes (Acceptance.OpenedGap a))%list).
Proof.
  intros Hb Ho Hr. unfold note, is_accepted. rewrite Hb, String.eqb_refl. simpl. rewrite Ho, Hr, Hb. reflexivity.
Qed.

Lemma admit_inv host s f digest role host' s3 a h r folded :
  src_inv (Fact.SourceID f) h s -> SourceState.BootID s = Fact.BootID f ->
  ConnectivitySourceComponents (Fact.SourceID f) <> [] ->
  SourceState.LastSequence s < Fact.SourceSequence f <= max_u64 ->
  admit_fact host s f digest role = (host', s3, a) -> same_settlement r (Acceptance.Reason a) ->
  src_inv (Fact.SourceID f) (note h f (at_fold a r folded)) s3 /\
  Acceptance.Outcome a = OutcomeAccepted /\ Acceptance.HostSequence a = host' /\ host' = u64 (host + 1).
Proof.
  intros [Hg Ho] Hb Hne Hs. unfold admit_fact. destruct (open_gap s f) as [s1 opened] eqn:Hog.
  destruct (settle _ _ _) as [[s2 cleared] reason] eqn:Hst. intros [= <- <- <-] Hr.
  split; [|done]. rewrite note_accepted; [|by rewrite (oi_boot _ _ Ho)|done|exact Hr]. simpl.
  assert (gaps_inv (Fact.SourceID f) (Stream.missing h ++ holes opened)%list s1 /\
          SourceState.BootID s1 = SourceState.BootID s /\ SourceState.Recent s1 = SourceState.Recent s) as (Hg1 & Hb1 & Hr1).
  { pose proof Hog as Hspec. apply open_gap_spec in Hspec; [|pose proof (oi_bound _ _ Ho); lia..].
    destruct Hspec as [(-> & -> & _)|(g & -> & -> & Hp & Hf & Ht & Hle)]; simpl; [by rewrite app_nil_r|].
    split; [|done]. apply recordGap_inv; [done..|lia]. }
  eapply settle_inv in Hst as (Hg2 & Hb2 & Hr2); [|exact Hg1|by destruct opened].
  split; [destruct Hg2; split; done|].
  eapply order_inv_accept; [exact Ho|exact Hs|exact Hog|simpl; congruence|done|]. simpl. by rewrite Hr2, Hr1.
Qed.

(** The answer to an arrival that is not ahead, from the retry window. *)
Definition replay_outcome (recent : list RecentDigest.t) (sequence : Z) (digest : string) : Outcome :=
  match List.find (fun e => RecentDigest.Sequence e =? sequence) recent with
  | Some e => if String.eqb (RecentDigest.Digest e) digest then OutcomeDuplicate else OutcomeConflict
  | None => OutcomeStale
  end.

Lemma replay_inv s f digest role s' a h folded :
  src_inv (Fact.SourceID f) h s -> SourceState.BootID s = Fact.BootID f ->
  ConnectivitySourceComponents (Fact.SourceID f) <> [] -> replay s f digest role = (s', a) ->
  src_inv (Fact.SourceID f) (note h f (at_fold a (Acceptance.Reason a) folded)) s' /\
  Acceptance.Outcome a = replay_outcome (SourceState.Recent s) (Fact.SourceSequence f) digest /\
  is_accepted a = false /\ Acceptance.HostSequence a = 0.
Proof.
  intros [Hg Ho] Hb Hne Hr.
  assert (forall b, Acceptance.OpenedGap b = None -> is_accepted b = false ->
    Acceptance.Reason b <> AcceptReasonBaselineAccepted -> note h f (at_fold b (Acceptance.Reason b) folded) = h) as Hnote.
  { intros b H1 H2 H3. unfold note. rewrite (oi_boot _ _ Ho), Hb, String.eqb_refl. simpl. rewrite H1.
    unfold is_accepted in *. simpl. rewrite H2. apply String.eqb_neq in H3. rewrite H3, !app_nil_r. by destruct h. }
  unfold replay in Hr. unfold replay_outcome. destruct (List.find _ _) as [e|] eqn:Hf.
  - destruct (String.eqb _ digest) eqn:Hd; injection Hr as <- <-; (split; [rewrite Hnote by done|done]); [done|].
    split; [apply owes_gaps_inv; [|done]; destruct Hg; split; done|]. destruct Ho; split; done.
  - injection Hr as <- <-. split; [|done]. rewrite Hnote; [done..|]. simpl. by destruct (inGap _ _).
Qed.

Definition new_boot (boot : string) : Stream.t := Stream.mk boot [] [] [].

Lemma fresh_source_inv id boot pending : components_ok id pending ->
  src_inv id (new_boot boot) (SourceState.mk boot 0 [] [] false pending 0).
Proof.
  intros Hp. split; split; simpl; try done; try (by constructor); try (by right).
  - intros e n He. by apply not_elem_of_nil in He.
  - intros n Hn. by apply not_elem_of_nil in Hn.
Qed.

Lemma note_other_boot h f a : Stream.boot h <> Fact.BootID f -> note h f a = note (new_boot (Fact.BootID f)) f a.
Proof. intros Hb%String.eqb_neq. unfold note. rewrite Hb. simpl. by rewrite String.eqb_refl. Qed.

Lemma note_boot h f a : Stream.boot (note h f a) = Fact.BootID f.
Proof. unfold note. destruct (String.eqb _ _) eqn:Hb; simpl; [by apply String.eqb_eq|done]. Qed.

Lemma ahead_spec h s sequence : order_inv h s -> 0 < sequence ->
  forallb (fun e => RecentDigest.Sequence e <? sequence) (Stream.accepted h) = (SourceState.LastSequence s <? sequence).
Proof.
  intros Ho Hs. pose proof (fun e => oi_below h s e Ho) as Hb. apply eq_true_iff_eq.
  rewrite forallb_forall, Z.ltb_lt. setoid_rewrite <- list_elem_of_In. setoid_rewrite Z.ltb_lt. split.
  - intros Hall. rewrite <- (oi_last _ _ Ho). destruct (last _) as [e|] eqn:He; simpl; [|lia].
    apply Hall. by apply last_Some_elem_of in He.
  - intros Hl e He. specialize (Hb e He). lia.
Qed.

Record state_inv (st : State) (log : Log) : Prop := {
  si_host : HostSequence st = u64 (accepted_in log);
  si_fold : FoldPosition st = u64 (len log);
  si_sources : forall id, match Sources st !! id with
    | Some s => src_inv id (stream_of id log) s
    | None => stream_of id log = no_stream
    end
}.

Lemma u64_succ n : u64 (u64 n + 1) = u64 (n + 1).
Proof. unfold u64. by rewrite Zplus_mod_idemp_l. Qed.

(** One more decision on the log of a source. *)
Lemma state_inv_snoc st log f a host s' :
  state_inv st log -> host = (if is_accepted a then u64 (HostSequence st + 1) else HostSequence st) ->
  src_inv (Fact.SourceID f) (note (stream_of (Fact.SourceID f) log) f a) s' ->
  state_inv (mkState host (u64 (FoldPosition st + 1)) (<[Fact.SourceID f := s']> (Sources st))) (log ++ [(f, a)])%list.
Proof.
  intros [Hh Hf Hsrc] -> Hs. split; simpl.
  - unfold accepted_in in *. rewrite List.filter_app, length_app. simpl. rewrite Hh.
    destruct (is_accepted a); simpl; [rewrite u64_succ|]; f_equal; lia.
  - rewrite Hf, u64_succ, length_app. simpl. f_equal. lia.
  - intros id. unfold stream_of. rewrite fold_left_app. simpl. fold (stream_of id log). unfold note_for. simpl.
    destruct (decide (id = Fact.SourceID f)) as [->|Hne].
    + by rewrite lookup_insert_eq, String.eqb_refl.
    + rewrite lookup_insert_ne by done. rewrite (proj2 (String.eqb_neq _ _)) by congruence. apply Hsrc.
Qed.

(** An arrival that the checks before the lock let through. *)
Record in_order (f : Fact.t) : Prop := {
  io_boot : Fact.BootID f <> "";
  io_sequence : 0 < Fact.SourceSequence f <= max_u64;
  io_components : ConnectivitySourceComponents (Fact.SourceID f) <> []
}.

(** What the decision says, by the history of the stream and the length of the log. *)
Definition decided_by (log : Log) (f : Fact.t) (digest : string) (a : Acceptance.t) : Prop :=
  Acceptance.Outcome a = decide_by_history (stream_of (Fact.SourceID f) log) f digest /\
  Acceptance.FoldPosition a = u64 (len log + 1) /\
  Acceptance.HostSequence a = if is_accepted a then u64 (accepted_in log + 1) else 0.

(** The cases that admit the arrival, from a state that agrees with [h]. *)
Lemma admit_decided st log f digest role s h host s' a r :
  state_inv st log -> in_order f -> src_inv (Fact.SourceID f) h s -> SourceState.BootID s = Fact.BootID f ->
  note h f (at_fold a r (u64 (FoldPosition st + 1))) =
    note (stream_of (Fact.SourceID f) log) f (at_fold a r (u64 (FoldPosition st + 1))) ->
  decide_by_history (stream_of (Fact.SourceID f) log) f digest = OutcomeAccepted ->
  SourceState.LastSequence s < Fact.SourceSequence f -> admit_fact (HostSequence st) s f digest role = (host, s', a) ->
  same_settlement r (Acceptance.Reason a) ->
  state_inv (mkState host (u64 (FoldPosition st + 1)) (<[Fact.SourceID f := s']> (Sources st)))
    (log ++ [(f, at_fold a r (u64 (FoldPosition st + 1)))])%list /\
  decided_by log f digest (at_fold a r (u64 (FoldPosition st + 1))).
Proof.
  intros Hi [_ Hq Hc] Hs Hb Hn Hd Hl Ha Hr.
  destruct (admit_inv _ _ _ _ _ _ _ _ _ _ (u64 (FoldPosition st + 1)) Hs Hb Hc ltac:(lia) Ha Hr) as (Hs' & Ho & Hh & Hh').
  assert (is_accepted (at_fold a r (u64 (FoldPosition st + 1))) = true) as Hacc by (unfold is_accepted; simpl; by rewrite Ho).
  split; [apply state_inv_snoc; [done|by rewrite Hacc|by rewrite <- Hn]|].
  split_and!; [by rewrite Hd|simpl; by rewrite (si_fold _ _ Hi), u64_succ|].
  rewrite Hacc. simpl. by rewrite Hh, Hh', (si_host _ _ Hi), u64_succ.
Qed.

Lemma decide_arrival_inv st log f digest role st' a :
  state_inv st log -> in_order f -> decide_arrival st f digest role = (st', a) ->
  state_inv st' (log ++ [(f, a)])%list /\ decided_by log f digest a.
Proof.
  intros Hi Hf. pose proof (si_sources _ _ Hi (Fact.SourceID f)) as Hs. unfold decide_arrival.
  destruct (Sources st !! Fact.SourceID f) as [s|] eqn:Hl; cbn [from_option id].
  - destruct (String.eqb (SourceState.BootID s) (Fact.BootID f)) eqn:Hb; cbn [negb]; [apply String.eqb_eq in Hb|apply String.eqb_neq in Hb].
    + assert (Stream.boot (stream_of (Fact.SourceID f) log) = Fact.BootID f) as Hhb by (rewrite (oi_boot _ _ (proj2 Hs)); exact Hb).
      pose proof (ahead_spec _ _ (Fact.SourceSequence f) (proj2 Hs) ltac:(destruct Hf; lia)) as Hahead.
      destruct (_ <? _) eqn:Hlt.
      * destruct (admit_fact _ _ _ _ _) as [[host s'] b] eqn:Ha. intros [= <- <-].
        eapply admit_decided; [done..| |by apply Z.ltb_lt|exact Ha|done].
        unfold decide_by_history. by rewrite Hhb, String.eqb_refl, Hahead.
      * destruct (replay _ _ _ _) as [s' b] eqn:Hr. intros [= <- <-].
        destruct (replay_inv _ _ _ _ _ _ _ (u64 (FoldPosition st + 1)) Hs Hb (io_components _ Hf) Hr) as (Hs' & Ho & Hna & Hz).
        split; [apply state_inv_snoc; [done|by unfold is_accepted in *; simpl; rewrite Hna|done]|].
        split_and!; [|simpl; by rewrite (si_fold _ _ Hi), u64_succ|by unfold is_accepted in *; simpl; rewrite Hna].
        unfold decide_by_history. rewrite Hhb, String.eqb_refl, Hahead. simpl. rewrite Ho, (oi_recent _ _ (proj2 Hs)). reflexivity.
    + assert (Stream.boot (stream_of (Fact.SourceID f) log) <> Fact.BootID f) as Hhb by (rewrite (oi_boot _ _ (proj2 Hs)); exact Hb).
      destruct (admit_fact _ _ _ _ _) as [[host s'] b] eqn:Ha. intros [= <- <-].
      eapply (admit_decided _ _ _ _ _ _ (new_boot (Fact.BootID f))); [exact Hi|exact Hf|..|exact Ha|]; cbn [SourceState.BootID SourceState.LastSequence].
      * apply fresh_source_inv. split; [apply source_components_NoDup|by apply Forall_forall].
      * done.
      * by rewrite (note_other_boot (stream_of _ _)).
      * unfold decide_by_history. apply String.eqb_neq in Hhb. by rewrite Hhb.
      * destruct Hf. simpl. lia.
      * unfold same_settlement. destruct (String.eqb (Acceptance.Reason b) AcceptReasonNone) eqn:H1; bool_prop; [by rewrite H1|].
        destruct (String.eqb (Acceptance.Reason b) AcceptReasonSequenceGap) eqn:H2; bool_prop; [by rewrite H2|done].
  - rewrite String.eqb_refl. cbn [negb SourceState.BootID SourceState.LastSequence].
    rewrite (proj2 (Z.ltb_lt 0 _)) by (destruct Hf; lia).
    destruct (admit_fact _ _ _ _ _) as [[host s'] b] eqn:Ha. intros [= <- <-].
    assert (Stream.boot (stream_of (Fact.SourceID f) log) <> Fact.BootID f) as Hhb by (rewrite Hs; destruct Hf; simpl; congruence).
    eapply (admit_decided _ _ _ _ _ _ (new_boot (Fact.BootID f))); [exact Hi|exact Hf|..|exact Ha|done]; cbn [SourceState.BootID SourceState.LastSequence].
    + apply fresh_source_inv. by split; [apply NoDup_nil|apply Forall_nil].
    + done.
    + by rewrite (note_other_boot (stream_of _ _)).
    + unfold decide_by_history. apply String.eqb_neq in Hhb. by rewrite Hhb.
    + destruct Hf. simpl. lia.
Qed.

(** ** Every reachable acceptor *)

Lemma recent_ordered_spec bound previous l :
  StronglySorted earlier l -> Forall (fun e => RecentDigest.Sequence e <= bound) l ->
  (forall p, previous = Some p -> Forall (fun e => p < RecentDigest.Sequence e) l) ->
  recent_ordered bound previous l = true.
Proof.
  revert previous. induction l as [|e l IH]; intros previous; simpl; [done|].
  intros [Hs Hall]%StronglySorted_inv [He Hb]%Forall_cons Hp. rewrite !andb_true_iff. split_and!.
  - by apply Z.leb_le.
  - destruct previous as [p|]; [|done]. specialize (Hp p eq_refl). apply Forall_cons in Hp as [Hp _]. by apply Z.ltb_lt.
  - apply IH; [done..|]. intros p [= <-]. exact Hall.
Qed.

Lemma src_inv_valid id h s : src_inv id h s -> source_valid id s = true.
Proof.
  intros [[Hl Hp Ho Hs Hsh _] Hord]. pose proof (fun e => oi_below h s e Hord) as Hb. destruct Hord. unfold source_valid.
  rewrite oi_recent0. destruct (keep_last_suffix RetryWindow (Stream.accepted h)) as [k Hk].
  pose proof (keep_last_le RetryWindow (Stream.accepted h) ltac:(done)) as Hle.
  rewrite !andb_true_iff, !negb_true_iff, !Z.ltb_ge. split_and!; [done..| | | |].
  - apply recent_ordered_spec; [|apply Forall_forall; intros e He; apply Hb; rewrite Hk; set_solver|done].
    rewrite Hk in oi_sorted0. by apply StronglySorted_app_1_r in oi_sorted0.
  - apply forallb_forall. intros g Hg%list_elem_of_In. rewrite Forall_forall in Hs, Hsh. specialize (Hsh g (Hs g Hg)).
    apply negb_true_iff, orb_false_iff. split; [apply Z.eqb_neq|apply Z.ltb_ge]; lia.
  - apply andb_false_iff. rewrite Z.ltb_ge, Z.eqb_neq. destruct (SourceState.Gaps s) as [|g l]; [by left|]. right.
    destruct (SourceState.PendingBaseline s); [by exfalso; apply Ho|simpl; lia].
  - apply forallb_forall. intros c Hc%list_elem_of_In. destruct Hp as [_ Hp]. rewrite Forall_forall in Hp.
    apply contains_string_spec. by apply Hp.
Qed.

Lemma Validate_spec f : Validate f = Ok tt ->
  Fact.BootID f <> "" /\ Fact.SourceSequence f <> 0 /\ Component_Valid (Fact.Component f) = true.
Proof.
  unfold Validate. intros Hv. do 7 (destruct (_ : bool) eqn:? in Hv; [discriminate Hv|]).
  clear Hv. bool_prop. split_and!; [|done..].
  intros Hb. rewrite Hb in *. discriminate.
Qed.

Section theorems.
Context `{JSON} `{!Codec Fact.t}.

Lemma Accept_decides st f domain st' a : Accept st f domain = (st', a, None) -> 0 <= Fact.SourceSequence f <= max_u64 ->
  exists digest role, Digest f = Ok digest /\ in_order f /\ decide_arrival st f digest role = (st', a).
Proof.
  unfold Accept. destruct (Validate f) as [[]|] eqn:Hv; [|done]. destruct (ClassifyConnectivityFact _ _) as [role|] eqn:Hc; [|done].
  destruct (Digest f) as [digest|]; [|done]. intros [= Hd] Hs. apply Validate_spec in Hv as (Hb & Hz & Hcomp).
  exists digest, role. split; [done|]. split; [|done]. split; [done|lia|]. by eapply classified_has_components.
Qed.

Lemma Accept_rejects st f domain st' a e : Accept st f domain = (st', a, Some e) -> st' = st.
Proof. unfold Accept. destruct (Validate f); [|naive_solver]. destruct (ClassifyConnectivityFact _ _); [|naive_solver]. destruct (Digest f); naive_solver. Qed.

Lemma reach_inv st log : reach st log -> state_inv st log.
Proof.
  induction 1 as [|st log f domain st' a _ IH Hs Ha|st log f domain st' a e _ IH Ha].
  - split; [done..|]. intros id. simpl. by rewrite lookup_empty.
  - apply Accept_decides in Ha as (digest & role & _ & Hf & Hd); [|done]. by eapply decide_arrival_inv.
  - apply Accept_rejects in Ha as ->. exact IH.
Qed.
End theorems.

Section acceptor.
Context `{JSON} `{!Codec Fact.t}.


(** Whatever arrives, the acceptor's durable state passes the checks of [Restore],
    so a checkpoint of it always resumes. *)
Theorem acceptor_state_restores st log : reach st log -> Restore st = Ok st.
Proof.
  intros Hr%reach_inv. unfold Restore, State_Validate. rewrite bool_decide_eq_true_2; [done|].
  intros id s Hs. pose proof (si_sources _ _ Hr id) as Hi. rewrite Hs in Hi. by eapply src_inv_valid.
Qed.


(** A run of the acceptor over a list of arrivals. *)
Fixpoint accept_all (st : State) (log : Log) (arrivals : list (Fact.t * Domain)) : State * Log :=
  match arrivals with
  | [] => (st, log)
  | (f, domain) :: rest =>
      match Accept st f domain with
      | (st', a, None) => accept_all st' (log ++ [(f, a)])%list rest
      | (st', _, Some _) => accept_all st' log rest
      end
  end.

Lemma accept_all_reach st log arrivals :
  reach st log -> forallb (fun x => (0 <=? Fact.SourceSequence x.1) && (Fact.SourceSequence x.1 <=? max_u64)) arrivals = true ->
  reach (accept_all st log arrivals).1 (accept_all st log arrivals).2.
Proof.
  revert st log. induction arrivals as [|[f domain] rest IH]; intros st log Hr; simpl; [done|].
  intros [Hs Hrest]%andb_true_iff. destruct (Accept st f domain) as [[st' a] [e|]] eqn:Ha; apply IH; try done.
  - by eapply reach_reject.
  - eapply reach_accept; [done| |done]. bool_prop. lia.
Qed.
End acceptor.

Module AcceptSample.
Import SampleDigest.

Definition fact (boot : string) (sequence : Z) (baseline up : bool) : Fact.t :=
  Fact.mk FactSchema FactSchemaVersion "6f1b2c3d-0000-4000-8000-000000000001" DomainRoot ComponentPhysicalNetwork "root.network"
    boot sequence (Time.mk 1000 true) 5 9 LifecycleReady ReasonProbeSucceeded baseline
    (Payload.mk (Some (PhysicalNetworkPayload.mk LinkWired up up)) None None None None None None None).

Definition fact_texts (f : Fact.t) : list string :=
  [Fact.BootID f; number (Fact.SourceSequence f);
   match Payload.PhysicalNetwork (Fact.Payload f) with
   | Some p => if PhysicalNetworkPayload.LinkUp p then "up" else "down" | None => "" end].

#[export] Instance sample_json : JSON := json.
#[export] Instance fact_codec : Codec Fact.t := texts_codec fact_texts.

(** A first fact, a hole behind the second, and an unknown source. *)
Definition arrivals : list (Fact.t * Domain) :=
  [(fact "boot-a" 3 false true, DomainRoot); (fact "boot-a" 6 false true, DomainRoot); (fact "boot-a" 7 false true, DomainUser)].
Definition now : State * Log := accept_all New [] arrivals.

Lemma now_reached : reach now.1 now.2.
Proof. apply accept_all_reach; [constructor|]. vm_compute. reflexivity. Qed.

Lemma now_gaps : (forall s, Sources now.1 !! "root.network" = Some s ->
    SourceState.Gaps s = [GapRange.mk 4 5] /\ SourceState.LastSequence s = 6) /\
  exists s, Sources now.1 !! "root.network" = Some s.
Proof.
  assert ((fun s => (SourceState.Gaps s, SourceState.LastSequence s)) <$> Sources now.1 !! "root.network" = Some ([GapRange.mk 4 5], 6)) as Hs
    by (vm_compute; reflexivity).
  destruct (Sources now.1 !! "root.network") as [s|]; [|discriminate Hs]. injection Hs as H1 H2.
  split; [|by eexists]. intros ? [= <-]. done.
Qed.

Definition decision (f : Fact.t) : Acceptance.t := (Accept now.1 f DomainRoot).1.2.

Lemma decisions : (map (fun f => (Acceptance.Outcome (decision f), Acceptance.Reason (decision f), is_ok (Digest f)))
    [fact "boot-a" 6 false true; fact "boot-a" 6 false false; fact "boot-a" 5 false true; fact "boot-b" 1 false true]) =
  [(OutcomeDuplicate, AcceptReasonExactRetry, true); (OutcomeConflict, AcceptReasonIdentityReused, true);
   (OutcomeStale, AcceptReasonBehindWatermark, true); (OutcomeAccepted, AcceptReasonBootChanged, true)].
Proof. vm_compute. reflexivity. Qed.

Lemma sample_accepts f : snd (Accept now.1 f DomainRoot) = None ->
  Accept now.1 f DomainRoot = ((Accept now.1 f DomainRoot).1.1, decision f, None).
Proof. unfold decision. by destruct (Accept now.1 f DomainRoot) as [[? ?] ?]; simpl; intros ->. Qed.

Lemma retry_taken : snd (Accept now.1 (fact "boot-a" 6 false true) DomainRoot) = None.
Proof. vm_compute. reflexivity. Qed.


Lemma one_owner_per_component_witness : exists d, ConnectivityAuthority ComponentPhysicalNetwork = Some d /\
  SourceDeclaration.Source d = "root.network" /\ SourceDeclaration.Domain d = DomainRoot /\ DomainRoot = DomainRoot.
Proof. apply (one_owner_per_component (fact "boot-a" 6 false true) DomainRoot); reflexivity. Defined.

Lemma acceptor_state_restores_witness : Restore now.1 = Ok now.1.
Proof. apply (acceptor_state_restores now.1 now.2). exact now_reached. Defined.


(** A fact of an earlier boot starts its stream again: the same observation, accepted
    at first, is accepted a second time after another boot was seen. *)
Lemma earlier_boot_accepted_again :
  map (fun e => (Fact.BootID e.1, Fact.SourceSequence e.1, Acceptance.Outcome e.2, Acceptance.HostSequence e.2))
    (accept_all New [] [(fact "boot-a" 3 false true, DomainRoot); (fact "boot-b" 1 false true, DomainRoot);
                        (fact "boot-a" 3 false true, DomainRoot)]).2 =
  [("boot-a", 3, OutcomeAccepted, 1); ("boot-b", 1, OutcomeAccepted, 2); ("boot-a", 3, OutcomeAccepted, 3)].
Proof. vm_compute. reflexivity. Qed.

(** When the hole that overflows the record is announced by the baseline that settles the
    whole debt, the hole that was dropped is in no [ClearedGaps] and no overflow is reported. *)
Definition dns_fact (sequence : Z) (baseline : bool) : Fact.t :=
  Fact.mk FactSchema FactSchemaVersion "6f1b2c3d-0000-4000-8000-000000000001" DomainRoot ComponentDNS "root.dns"
    "boot-a" sequence (Time.mk 1000 true) 5 9 LifecycleReady ReasonProbeSucceeded baseline
    (Payload.mk None None (Some (DNSPayload.mk ResolverSystem true 0 0)) None None None None None).

Definition every_other : list (Fact.t * Domain) :=
  (map (fun i => (dns_fact (2 * Z.of_nat i + 1) false, DomainRoot)) (seq 0 65) ++ [(dns_fact 131 true, DomainRoot)])%list.
Definition overflowed : Log := (accept_all New [] every_other).2.

Lemma dropped_hole_unreported :
  (fun e => Acceptance.OpenedGap e.2) <$> overflowed !! 1%nat = Some (Some (GapRange.mk 2 2)) /\
  existsb (fun e => inGap (Acceptance.ClearedGaps e.2) 2 || SourceIntegrity.GapOverflow (Acceptance.Source e.2)) overflowed = false /\
  (fun e => (Acceptance.Reason e.2, len (Acceptance.ClearedGaps e.2))) <$> last overflowed = Some (AcceptReasonBaselineAccepted, 64).
Proof. vm_compute. split; [|split]; reflexivity. Qed.
End AcceptSample.
