(* ===== verification/ConnReduce.v ===== *)
(** * Reduction of accepted facts

    [internal/connectivityreduce]: the snapshot that a batch of decisions of the acceptor
    leaves ([reduce.go], [snapshot.go]), what the policy desires of it ([desired.go]), the
    comparison of the two ([diff.go]) and the proposals that follow ([proposal.go]). The
    tables of pointers that a reduction fills are finite maps passed along. *)

From Stdlib Require Import ZArith Lia Ascii String.
From stdpp Require Import base strings list option sets gmap sorting.
From S2P Require Import Prelude PolicyModel PolicyCanonical Connectivity ConnAccept.

Open Scope string_scope.
Open Scope Z_scope.

Definition SnapshotSchema := "hexroute.connectivity-snapshot.v1".
Definition SnapshotSchemaVersion := 3.
Definition ReducerID := "hexroute.connectivity-reducer".
Definition ReducerVersion := 4.
Definition MaxCorroborations := 8.
Definition MaxConflictRecords := 8.
Definition DesiredSchema := "hexroute.connectivity-desired.v1".
Definition DesiredSchemaVersion := 1.
Definition DiffSchema := "hexroute.connectivity-diff.v1".
Definition DiffSchemaVersion := 1.
Definition ProposalSchema := "hexroute.connectivity-proposal.v1".
Definition ProposalSchemaVersion := 1.

Abbreviation ComponentState := string (only parsing).
Definition StateUnknown : ComponentState := "unknown".
Definition StateReady : ComponentState := "ready".
Definition StateDegraded : ComponentState := "degraded".
Definition StateFailed : ComponentState := "failed".
Definition StateStale : ComponentState := "stale".
Definition StateConflict : ComponentState := "conflict".
Definition StateNotApplicable : ComponentState := "not_applicable".
Definition ComponentState_Valid (value : ComponentState) : bool :=
  contains_string [StateUnknown; StateReady; StateDegraded; StateFailed; StateStale; StateConflict; StateNotApplicable] value.

Abbreviation Authorization := string (only parsing).
Definition AuthorizationAuthorized : Authorization := "authorized".
Definition AuthorizationUnauthorized : Authorization := "unauthorized".

Abbreviation AuthorizationReason := string (only parsing).
Definition AuthorizationReasonNone : AuthorizationReason := "none".
Definition AuthorizationReasonAbsent : AuthorizationReason := "policy_absent".
Definition AuthorizationReasonInvalid : AuthorizationReason := "policy_invalid".
Definition AuthorizationReasonSuspended : AuthorizationReason := "policy_suspended".
Definition AuthorizationReasonGenerationGap : AuthorizationReason := "policy_generation_mismatch".

Abbreviation AggregateState := string (only parsing).
Definition AggregateUnknown : AggregateState := "unknown".
Definition AggregateReady : AggregateState := "ready".
Definition AggregateDegraded : AggregateState := "degraded".
Definition AggregateFailed : AggregateState := "failed".

Abbreviation Classification := string (only parsing).
Definition ClassConverged : Classification := "converged".
Definition ClassMissing : Classification := "missing".
Definition ClassUnexpected : Classification := "unexpected".
Definition ClassDivergent : Classification := "divergent".
Definition ClassStale : Classification := "stale".
Definition ClassUnknown : Classification := "unknown".
Definition ClassConflict : Classification := "conflict".
Definition ClassGrandfathered : Classification := "grandfathered_noncompliant".

Abbreviation DiffReason := string (only parsing).
Definition DiffReasonNone : DiffReason := "none".
Definition DiffReasonNotObserved : DiffReason := "not_observed".
Definition DiffReasonStaleObservation : DiffReason := "stale_observation".
Definition DiffReasonOwnerConflict : DiffReason := "owner_conflict".
Definition DiffReasonNothingPresent : DiffReason := "nothing_present".
Definition DiffReasonBelowExpected : DiffReason := "below_expected_count".
Definition DiffReasonClassMismatch : DiffReason := "class_mismatch".
Definition DiffReasonFailed : DiffReason := "observed_failed".
Definition DiffReasonDegraded : DiffReason := "observed_degraded".
Definition DiffReasonNotManaged : DiffReason := "not_managed_by_policy".
Definition DiffReasonPolicyExcluded : DiffReason := "excluded_by_new_policy".
Definition DiffReasonUnauthorized : DiffReason := "policy_unauthorized".

Abbreviation ProposalClass := string (only parsing).
Definition ProposalEstablish : ProposalClass := "establish".
Definition ProposalReconcile : ProposalClass := "reconcile".
Definition ProposalWithdraw : ProposalClass := "withdraw".
Definition ProposalObserve : ProposalClass := "observe".
Definition ProposalClass_Valid (value : ProposalClass) : bool :=
  contains_string [ProposalEstablish; ProposalReconcile; ProposalWithdraw; ProposalObserve] value.

Module Corroboration.
Record t := mk {
  Source : SourceID;
  Lifecycle : Lifecycle;
  Reason : Reason;
  Agrees : bool;
  MonotonicTick : Tick
}.
#[global] Instance eq_dec : EqDecision t.
Proof. solve_decision. Defined.
End Corroboration.

Module ComponentRecord.
Record t := mk {
  Component : Component;
  State : ComponentState;
  Domain : Domain;
  Source : SourceID;
  Observed : Lifecycle;
  Reason : Reason;
  Payload : Payload.t;
  BootID : string;
  MonotonicTick : Tick;
  FreshnessDeadline : Tick;
  HostSequence : Z;
  HasBaseline : bool;
  RebaselineRequired : bool;
  Conflicts : Z;
  Corroborations : list Corroboration.t
}.
#[global] Instance eq_dec : EqDecision t.
Proof. solve_decision. Defined.
End ComponentRecord.

Module SourceWatermark.
Record t := mk {
  Source : SourceID;
  Domain : Domain;
  Role : SourceRole;
  BootID : string;
  LastSequence : Z;
  Gaps : list GapRange.t;
  GapOverflow : bool;
  PendingBaseline : list Component;
  Conflicts : Z;
  Recent : list RecentDigest.t
}.
#[global] Instance eq_dec : EqDecision t.
Proof. solve_decision. Defined.
End SourceWatermark.

Module ConflictRecord.
Record t := mk {
  Source : SourceID;
  Component : Component;
  Sequence : Z;
  Reason : AcceptReason;
  Count : Z
}.
#[global] Instance eq_dec : EqDecision t.
Proof. solve_decision. Defined.
End ConflictRecord.

Module PolicyDescriptor.
Record t := mk {
  Present : bool;
  Valid : bool;
  Suspended : bool;
  BundleGeneration : Z;
  RootGeneration : Z;
  UserGeneration : Z;
  ManifestDigest : string
}.
#[global] Instance eq_dec : EqDecision t.
Proof. solve_decision. Defined.
End PolicyDescriptor.

Module Summary.
Record t := mk {
  State : AggregateState;
  Authorization : Authorization;
  Reason : AuthorizationReason;
  Ready : Z;
  Degraded : Z;
  Failed : Z;
  Stale : Z;
  Unknown : Z;
  Conflicted : Z;
  NotApplicable : Z;
  OpenGaps : Z;
  GapOverflow : bool;
  SourceConflicts : Z;
  AwaitingBaseline : Z;
  ConflictOverflow : bool
}.
#[global] Instance eq_dec : EqDecision t.
Proof. solve_decision. Defined.
End Summary.

Module Snapshot.
Record t := mk {
  Schema : string;
  Version : Z;
  Generation : Z;
  ReducerID : string;
  ReducerVersion : Z;
  BootID : string;
  EvaluationTick : Tick;
  Policy : PolicyDescriptor.t;
  Authorization : Authorization;
  Reason : AuthorizationReason;
  ConsumedHostSequence : Z;
  ConsumedFoldPosition : Z;
  Components : list ComponentRecord.t;
  Sources : list SourceWatermark.t;
  Conflicts : list ConflictRecord.t;
  Summary : Summary.t
}.
#[global] Instance eq_dec : EqDecision t.
Proof. solve_decision. Defined.
End Snapshot.

Module Expectation.
Record t := mk {
  Lifecycle : Lifecycle;
  PathClass : option PathClass;
  ResolverClass : option ResolverClass;
  SelectedClass : option SelectedClass;
  ProfileClass : option ProfileClass;
  MinInstalledRoutes : option Z;
  MinReadyTransports : option Z;
  MinReachableRelays : option Z
}.
#[global] Instance eq_dec : EqDecision t.
Proof. solve_decision. Defined.
End Expectation.

Module ComponentPolicy.
Record t := mk {
  Component : Component;
  Managed : bool;
  Expect : Expectation.t
}.
#[global] Instance eq_dec : EqDecision t.
Proof. solve_decision. Defined.
End ComponentPolicy.

Module EffectivePolicy.
Record t := mk {
  Descriptor : PolicyDescriptor.t;
  Components : list ComponentPolicy.t
}.
#[global] Instance eq_dec : EqDecision t.
Proof. solve_decision. Defined.
End EffectivePolicy.

Module DesiredComponent.
Record t := mk {
  Component : Component;
  Domain : Domain;
  Managed : bool;
  Expect : Expectation.t
}.
#[global] Instance eq_dec : EqDecision t.
Proof. solve_decision. Defined.
End DesiredComponent.

Module DesiredState.
Record t := mk {
  Schema : string;
  Version : Z;
  Policy : PolicyDescriptor.t;
  Authorized : bool;
  Components : list DesiredComponent.t
}.
#[global] Instance eq_dec : EqDecision t.
Proof. solve_decision. Defined.
End DesiredState.

Module ComponentDiff.
Record t := mk {
  Component : Component;
  Domain : Domain;
  Classification : Classification;
  Reason : DiffReason
}.
#[global] Instance eq_dec : EqDecision t.
Proof. solve_decision. Defined.
End ComponentDiff.

Module Diff.
Record t := mk {
  Schema : string;
  Version : Z;
  SnapshotGeneration : Z;
  Policy : PolicyDescriptor.t;
  Authorized : bool;
  Components : list ComponentDiff.t
}.
#[global] Instance eq_dec : EqDecision t.
Proof. solve_decision. Defined.
End Diff.

Module Proposal.
Record t := mk {
  Schema : string;
  Version : Z;
  SnapshotGeneration : Z;
  BundleGeneration : Z;
  DomainPolicyGeneration : Z;
  Domain : Domain;
  Target : Component;
  Class : ProposalClass;
  Reason : DiffReason;
  DiffDigest : string;
  Digest : string
}.
#[global] Instance eq_dec : EqDecision t.
Proof. solve_decision. Defined.
End Proposal.

Module Event.
Record t := mk {
  Acceptance : Acceptance.t;
  Fact : Fact.t
}.
#[global] Instance eq_dec : EqDecision t.
Proof. solve_decision. Defined.
End Event.

Module Wake.
Record t := mk {
  Tick : Tick
}.
#[global] Instance eq_dec : EqDecision t.
Proof. solve_decision. Defined.
End Wake.

Module Input.
Record t := mk {
  Prior : option Snapshot.t;
  Events : list Event.t;
  Policy : PolicyDescriptor.t;
  PolicyComponents : list ComponentPolicy.t;
  BootID : string;
  PriorFolded : Z;
  PriorConsumed : Z;
  EvaluationTick : Tick;
  Wake : option Wake.t
}.
#[global] Instance eq_dec : EqDecision t.
Proof. solve_decision. Defined.
End Input.

Module Output.
Record t := mk {
  Snapshot : Snapshot.t;
  Desired : DesiredState.t;
  Diff : Diff.t;
  Proposals : list Proposal.t;
  Changed : bool
}.
#[global] Instance eq_dec : EqDecision t.
Proof. solve_decision. Defined.
End Output.

Module semanticCorroboration.
Record t := mk {
  Source : SourceID;
  Lifecycle : Lifecycle;
  Agrees : bool
}.
#[global] Instance eq_dec : EqDecision t.
Proof. solve_decision. Defined.
End semanticCorroboration.

Module semanticComponent.
Record t := mk {
  Component : Component;
  State : ComponentState;
  Observed : Lifecycle;
  Reason : Reason;
  Payload : Payload.t;
  HasBaseline : bool;
  RebaselineRequired : bool;
  Conflicts : Z;
  Corroborations : list semanticCorroboration.t
}.
#[global] Instance eq_dec : EqDecision t.
Proof. solve_decision. Defined.
End semanticComponent.

Module semanticSource.
Record t := mk {
  Source : SourceID;
  BootID : string;
  Gaps : list GapRange.t;
  GapOverflow : bool;
  PendingBaseline : list Component;
  Conflicts : Z
}.
#[global] Instance eq_dec : EqDecision t.
Proof. solve_decision. Defined.
End semanticSource.

Module semantic.
Record t := mk {
  BootID : string;
  Policy : PolicyDescriptor.t;
  Authorization : Authorization;
  Reason : AuthorizationReason;
  Components : list semanticComponent.t;
  Sources : list semanticSource.t;
  Conflicts : list ConflictRecord.t;
  Summary : Summary.t
}.
#[global] Instance eq_dec : EqDecision t.
Proof. solve_decision. Defined.
End semantic.


(** ** Snapshots *)

Definition watermark_awaits (w : SourceWatermark.t) : bool := 0 <? len (SourceWatermark.PendingBaseline w).

Definition Authorized (d : PolicyDescriptor.t) : bool :=
  PolicyDescriptor.Present d && PolicyDescriptor.Valid d && negb (PolicyDescriptor.Suspended d) &&
  (0 <? PolicyDescriptor.BundleGeneration d) && negb (String.eqb (PolicyDescriptor.ManifestDigest d) "").

(** The loop over the components of a snapshot, against the compiled order. *)
Definition components_in_order (records : list ComponentRecord.t) : bool :=
  bool_decide (map ComponentRecord.Component records = Components) &&
  forallb (fun r => ComponentState_Valid (ComponentRecord.State r)) records.

Definition of_source (source : SourceID) (c : ConflictRecord.t) : bool := String.eqb (ConflictRecord.Source c) source.

Definition conflicts_bounded (conflicts : list ConflictRecord.t) : bool :=
  forallb (fun c => negb (MaxConflictRecords <? len (List.filter (of_source (ConflictRecord.Source c)) conflicts))) conflicts.

Definition watermark_valid (w : SourceWatermark.t) : bool :=
  negb (MaxGapRanges <? len (SourceWatermark.Gaps w)) &&
  negb ((0 <? len (SourceWatermark.Gaps w)) && negb (watermark_awaits w)) &&
  negb (len (ConnectivitySourceComponents (SourceWatermark.Source w)) <? len (SourceWatermark.PendingBaseline w)).

Definition Snapshot_Validate (s : Snapshot.t) : result conn_error unit :=
  if negb (String.eqb (Snapshot.Schema s) SnapshotSchema) || negb (Snapshot.Version s =? SnapshotSchemaVersion)
  then Err ErrInvalidSnapshot
  else if negb (String.eqb (Snapshot.ReducerID s) ReducerID) || negb (Snapshot.ReducerVersion s =? ReducerVersion)
  then Err ErrInvalidSnapshot
  else if Snapshot.Generation s =? 0 then Err ErrInvalidSnapshot
  else if negb (components_in_order (Snapshot.Components s)) then Err ErrInvalidSnapshot
  else if negb (conflicts_bounded (Snapshot.Conflicts s)) then Err ErrInvalidSnapshot
  else if negb (forallb watermark_valid (Snapshot.Sources s)) then Err ErrInvalidSnapshot
  else if existsb (fun r => MaxCorroborations <? len (ComponentRecord.Corroborations r)) (Snapshot.Components s)
  then Err ErrInvalidSnapshot
  else if String.eqb (Snapshot.Authorization s) AuthorizationAuthorized &&
          negb (String.eqb (Snapshot.Reason s) AuthorizationReasonNone) then Err ErrInvalidSnapshot
  else if String.eqb (Snapshot.Authorization s) AuthorizationUnauthorized &&
          String.eqb (Snapshot.Reason s) AuthorizationReasonNone then Err ErrInvalidSnapshot
  else Ok tt.

(** ** The tables of a reduction *)

Abbreviation componentTable := (gmap Component ComponentRecord.t) (only parsing).
Abbreviation sourceTable := (gmap SourceID SourceWatermark.t) (only parsing).
Abbreviation conflictKey := (SourceID * Component * Z)%type (only parsing).
Abbreviation conflictTable := (gmap conflictKey ConflictRecord.t) (only parsing).

Definition no_payload : Payload.t := Payload.mk None None None None None None None None.

Definition unobserved (component : Component) : ComponentRecord.t :=
  let '(domain, source) := match ConnectivityAuthority component with
    | Some d => (SourceDeclaration.Domain d, SourceDeclaration.Source d) | None => ("", "") end in
  ComponentRecord.mk component StateUnknown domain source LifecycleUnknown ReasonNone no_payload "" 0 0 0 false false 0 [].

Definition newComponentTable (prior : option Snapshot.t) : componentTable :=
  let table := list_to_map (map (fun c => (c, unobserved c)) Components) in
  match prior with
  | None => table
  | Some p => fold_left (fun t r => <[ComponentRecord.Component r := r]> t) (Snapshot.Components p) table
  end.

Definition newSourceTable (prior : option Snapshot.t) : sourceTable :=
  match prior with
  | None => ∅
  | Some p => fold_left (fun t w => <[SourceWatermark.Source w := w]> t) (Snapshot.Sources p) ∅
  end.

Definition key_of (c : ConflictRecord.t) : conflictKey :=
  (ConflictRecord.Source c, ConflictRecord.Component c, ConflictRecord.Sequence c).

Definition newConflictTable (prior : option Snapshot.t) : conflictTable :=
  match prior with
  | None => ∅
  | Some p => fold_left (fun t c => <[key_of c := c]> t) (Snapshot.Conflicts p) ∅
  end.

Definition with_rebaseline (r : ComponentRecord.t) (required : bool) : ComponentRecord.t :=
  ComponentRecord.mk (ComponentRecord.Component r) (ComponentRecord.State r) (ComponentRecord.Domain r)
    (ComponentRecord.Source r) (ComponentRecord.Observed r) (ComponentRecord.Reason r) (ComponentRecord.Payload r)
    (ComponentRecord.BootID r) (ComponentRecord.MonotonicTick r) (ComponentRecord.FreshnessDeadline r)
    (ComponentRecord.HostSequence r) (ComponentRecord.HasBaseline r) required (ComponentRecord.Conflicts r)
    (ComponentRecord.Corroborations r).

Definition with_corroborations (r : ComponentRecord.t) (l : list Corroboration.t) : ComponentRecord.t :=
  ComponentRecord.mk (ComponentRecord.Component r) (ComponentRecord.State r) (ComponentRecord.Domain r)
    (ComponentRecord.Source r) (ComponentRecord.Observed r) (ComponentRecord.Reason r) (ComponentRecord.Payload r)
    (ComponentRecord.BootID r) (ComponentRecord.MonotonicTick r) (ComponentRecord.FreshnessDeadline r)
    (ComponentRecord.HostSequence r) (ComponentRecord.HasBaseline r) (ComponentRecord.RebaselineRequired r)
    (ComponentRecord.Conflicts r) l.

Definition markRebaseline (components : componentTable) (i : Input.t) : componentTable :=
  let rebooted := match Input.Prior i with
    | Some p => negb (String.eqb (Snapshot.BootID p) (Input.BootID i)) | None => false end in
  if bool_decide (Input.Wake i = None) && negb rebooted then components
  else map_imap (fun component r =>
    Some (if negb (TimeSensitive component) then r
          else if ComponentRecord.HostSequence r =? 0 then r
          else with_rebaseline r true)) components.

Definition watermarkFor (sources : sourceTable) (e : Event.t) : SourceWatermark.t :=
  match sources !! Fact.SourceID (Event.Fact e) with
  | Some w => w
  | None => SourceWatermark.mk (Fact.SourceID (Event.Fact e)) (Fact.Domain (Event.Fact e))
      (Acceptance.Role (Event.Acceptance e)) (Fact.BootID (Event.Fact e)) 0 [] false [] 0 []
  end.

(** The watermark with the role of the event, and the integrity that the acceptor decided. *)
Definition adoptIntegrity (w : SourceWatermark.t) (e : Event.t) : SourceWatermark.t :=
  let i := Acceptance.Source (Event.Acceptance e) in
  SourceWatermark.mk (SourceWatermark.Source w) (SourceWatermark.Domain w) (Acceptance.Role (Event.Acceptance e))
    (SourceIntegrity.BootID i) (SourceIntegrity.LastSequence i) (SourceIntegrity.Gaps i) (SourceIntegrity.GapOverflow i)
    (SourceIntegrity.PendingBaseline i) (SourceIntegrity.Conflicts i) (SourceIntegrity.Recent i).

Definition clearComponentConflicts (conflicts : conflictTable) (source : SourceID) (component : Component) : conflictTable :=
  filter (fun kv => negb (String.eqb kv.1.1.1 source && String.eqb kv.1.1.2 component) = true) conflicts.

(** Replaces the first entry of the same source. *)
Fixpoint replace_corroboration (entry : Corroboration.t) (l : list Corroboration.t) : option (list Corroboration.t) :=
  match l with
  | [] => None
  | c :: rest =>
      if String.eqb (Corroboration.Source c) (Corroboration.Source entry) then Some (entry :: rest)
      else cons c <$> replace_corroboration entry rest
  end.

Definition addCorroboration (r : ComponentRecord.t) (e : Event.t) : ComponentRecord.t :=
  let f := Event.Fact e in
  let entry := Corroboration.mk (Fact.SourceID f) (Fact.Lifecycle f) (Fact.Reason f)
    (String.eqb (Fact.Lifecycle f) (ComponentRecord.Observed r)) (Fact.MonotonicTick f) in
  match replace_corroboration entry (ComponentRecord.Corroborations r) with
  | Some l => with_corroborations r l
  | None =>
      if MaxCorroborations <=? len (ComponentRecord.Corroborations r) then r
      else with_corroborations r (ComponentRecord.Corroborations r ++ [entry])%list
  end.

(** The owner's statement, in the record of its component. *)
Definition observed_by_owner (r : ComponentRecord.t) (e : Event.t) : ComponentRecord.t :=
  let f := Event.Fact e in
  ComponentRecord.mk (ComponentRecord.Component r) (ComponentRecord.State r) (ComponentRecord.Domain r)
    (ComponentRecord.Source r) (Fact.Lifecycle f) (Fact.Reason f) (Fact.Payload f) (Fact.BootID f) (Fact.MonotonicTick f)
    (Fact.FreshnessDeadline f) (Acceptance.HostSequence (Event.Acceptance e))
    (if Fact.Baseline f then true else ComponentRecord.HasBaseline r)
    (if Fact.Baseline f then false else ComponentRecord.RebaselineRequired r)
    (ComponentRecord.Conflicts r) (ComponentRecord.Corroborations r).

(** A record that the table does not hold would be a nil dereference; [alter] leaves such a
    table alone, and [newComponentTable] holds every valid component. *)
Definition applyAccepted (components : componentTable) (sources : sourceTable) (conflicts : conflictTable) (e : Event.t)
    : componentTable * sourceTable * conflictTable :=
  let f := Event.Fact e in
  let sources := <[Fact.SourceID f := adoptIntegrity (watermarkFor sources e) e]> sources in
  let conflicts := if Fact.Baseline f then clearComponentConflicts conflicts (Fact.SourceID f) (Fact.Component f) else conflicts in
  let update r := if negb (String.eqb (Acceptance.Role (Event.Acceptance e)) RoleAuthoritative) then addCorroboration r e
                  else observed_by_owner r e in
  (alter update (Fact.Component f) components, sources, conflicts).

Definition applyConflict (sources : sourceTable) (conflicts : conflictTable) (e : Event.t) : sourceTable * conflictTable :=
  let f := Event.Fact e in
  let sources := <[Fact.SourceID f := adoptIntegrity (watermarkFor sources e) e]> sources in
  let key := (Fact.SourceID f, Fact.Component f, Fact.SourceSequence f) in
  (sources,
   match conflicts !! key with
   | Some c => <[key := ConflictRecord.mk (ConflictRecord.Source c) (ConflictRecord.Component c) (ConflictRecord.Sequence c)
                          (ConflictRecord.Reason c) (u32 (ConflictRecord.Count c + 1))]> conflicts
   | None => <[key := ConflictRecord.mk (Fact.SourceID f) (Fact.Component f) (Fact.SourceSequence f)
                        (Acceptance.Reason (Event.Acceptance e)) 1]> conflicts
   end).

(** ** Rendering *)

Definition deriveState (r : ComponentRecord.t) (i : Input.t) : ComponentState :=
  let observed := ComponentRecord.Observed r in
  if String.eqb observed LifecycleUnknown && (ComponentRecord.HostSequence r =? 0) then StateUnknown
  else if 0 <? ComponentRecord.Conflicts r then StateConflict
  else if negb (String.eqb (ComponentRecord.BootID r) (Input.BootID i)) then StateStale
  else if ComponentRecord.RebaselineRequired r then StateStale
  else if ComponentRecord.FreshnessDeadline r <? Input.EvaluationTick i then StateStale
  else if String.eqb observed LifecycleReady then StateReady
  else if String.eqb observed LifecycleDegraded then StateDegraded
  else if String.eqb observed LifecycleFailed then StateFailed
  else if String.eqb observed LifecycleNotApplicable then StateNotApplicable
  else StateUnknown.

Definition sortedCorroborations (l : list Corroboration.t) : list Corroboration.t :=
  sort_slice (fun a b => String.ltb (Corroboration.Source a) (Corroboration.Source b)) l.

(** A record with the refusals of its owner's stream, its state and its evidence in order. *)
Definition render_component (sources : sourceTable) (i : Input.t) (r : ComponentRecord.t) : ComponentRecord.t :=
  let conflicts := match sources !! ComponentRecord.Source r with Some w => SourceWatermark.Conflicts w | None => 0 end in
  let counted := ComponentRecord.mk (ComponentRecord.Component r) (ComponentRecord.State r) (ComponentRecord.Domain r)
    (ComponentRecord.Source r) (ComponentRecord.Observed r) (ComponentRecord.Reason r) (ComponentRecord.Payload r)
    (ComponentRecord.BootID r) (ComponentRecord.MonotonicTick r) (ComponentRecord.FreshnessDeadline r)
    (ComponentRecord.HostSequence r) (ComponentRecord.HasBaseline r) (ComponentRecord.RebaselineRequired r) conflicts
    (ComponentRecord.Corroborations r) in
  ComponentRecord.mk (ComponentRecord.Component r) (deriveState counted i) (ComponentRecord.Domain r)
    (ComponentRecord.Source r) (ComponentRecord.Observed r) (ComponentRecord.Reason r) (ComponentRecord.Payload r)
    (ComponentRecord.BootID r) (ComponentRecord.MonotonicTick r) (ComponentRecord.FreshnessDeadline r)
    (ComponentRecord.HostSequence r) (ComponentRecord.HasBaseline r) (ComponentRecord.RebaselineRequired r) conflicts
    (sortedCorroborations (ComponentRecord.Corroborations r)).

Definition renderComponents (components : componentTable) (sources : sourceTable) (i : Input.t) : list ComponentRecord.t :=
  omap (fun c => render_component sources i <$> components !! c) Components.

Definition render_watermark (w : SourceWatermark.t) : SourceWatermark.t :=
  SourceWatermark.mk (SourceWatermark.Source w) (SourceWatermark.Domain w) (SourceWatermark.Role w) (SourceWatermark.BootID w)
    (SourceWatermark.LastSequence w) (sort_slice gap_before (SourceWatermark.Gaps w)) (SourceWatermark.GapOverflow w)
    (sort_strings (SourceWatermark.PendingBaseline w)) (SourceWatermark.Conflicts w) (SourceWatermark.Recent w).

(** [walk] is the order in which the iteration meets the entries. *)
Definition render_watermarks (walk : list SourceWatermark.t) : list SourceWatermark.t :=
  sort_slice (fun a b => String.ltb (SourceWatermark.Source a) (SourceWatermark.Source b)) (map render_watermark walk).

Definition renderSources (sources : sourceTable) : list SourceWatermark.t := render_watermarks (map_to_list sources).*2.

Definition by_age (a b : ConflictRecord.t) : bool :=
  if negb (ConflictRecord.Sequence a =? ConflictRecord.Sequence b) then ConflictRecord.Sequence a <? ConflictRecord.Sequence b
  else String.ltb (ConflictRecord.Component a) (ConflictRecord.Component b).

Definition by_place (a b : ConflictRecord.t) : bool :=
  if negb (String.eqb (ConflictRecord.Source a) (ConflictRecord.Source b))
  then String.ltb (ConflictRecord.Source a) (ConflictRecord.Source b)
  else if negb (String.eqb (ConflictRecord.Component a) (ConflictRecord.Component b))
  then String.ltb (ConflictRecord.Component a) (ConflictRecord.Component b)
  else ConflictRecord.Sequence a <? ConflictRecord.Sequence b.

(** The records of one source, in the order of their age, and whether there are too many. *)
Definition aged (walk : list ConflictRecord.t) (source : SourceID) : list ConflictRecord.t :=
  sort_slice by_age (List.filter (of_source source) walk).

Definition render_conflicts (walk : list ConflictRecord.t) : list ConflictRecord.t * bool :=
  let bySource := map (aged walk) (remove_dups (map ConflictRecord.Source walk)) in
  (sort_slice by_place (concat (map (keep_last MaxConflictRecords) bySource)),
   existsb (fun records => MaxConflictRecords <? len records) bySource).

Definition renderConflicts (conflicts : conflictTable) : list ConflictRecord.t * bool :=
  render_conflicts (map_to_list conflicts).*2.

Definition authorize (d : PolicyDescriptor.t) (prior : option Snapshot.t) : Authorization * AuthorizationReason :=
  if negb (PolicyDescriptor.Present d) then (AuthorizationUnauthorized, AuthorizationReasonAbsent)
  else if negb (PolicyDescriptor.Valid d) then (AuthorizationUnauthorized, AuthorizationReasonInvalid)
  else if PolicyDescriptor.Suspended d then (AuthorizationUnauthorized, AuthorizationReasonSuspended)
  else if negb (Authorized d) then (AuthorizationUnauthorized, AuthorizationReasonInvalid)
  else
    let backwards := match prior with
      | Some p =>
          PolicyDescriptor.Present (Snapshot.Policy p) &&
          ((PolicyDescriptor.BundleGeneration d <? PolicyDescriptor.BundleGeneration (Snapshot.Policy p)) ||
           (PolicyDescriptor.RootGeneration d <? PolicyDescriptor.RootGeneration (Snapshot.Policy p)) ||
           (PolicyDescriptor.UserGeneration d <? PolicyDescriptor.UserGeneration (Snapshot.Policy p)))
      | None => false end in
    if backwards then (AuthorizationUnauthorized, AuthorizationReasonGenerationGap)
    else (AuthorizationAuthorized, AuthorizationReasonNone).

(** ** The summary *)

(** A [uint16] counter that a loop increments for the elements that satisfy [p]. *)
Definition count16 {A} (p : A -> bool) (l : list A) : Z := fold_left (fun n x => if p x then u16 (n + 1) else n) l 0.

Definition in_state (state : ComponentState) (r : ComponentRecord.t) : bool := String.eqb (ComponentRecord.State r) state.

Definition summarize (components : list ComponentRecord.t) (sources : list SourceWatermark.t)
    (authorization : Authorization) (reason : AuthorizationReason) (conflictOverflow : bool) : Summary.t :=
  let failed := count16 (in_state StateFailed) components in
  let degraded := count16 (in_state StateDegraded) components in
  let stale := count16 (in_state StateStale) components in
  let conflicted := count16 (in_state StateConflict) components in
  let unknown := count16 (fun r => negb (in_state StateReady r || in_state StateDegraded r || in_state StateFailed r ||
    in_state StateStale r || in_state StateConflict r || in_state StateNotApplicable r)) components in
  let openGaps := fold_left (fun n w => u16 (n + u16 (len (SourceWatermark.Gaps w)))) sources 0 in
  let gapOverflow := existsb SourceWatermark.GapOverflow sources in
  let sourceConflicts := count16 (fun w => 0 <? SourceWatermark.Conflicts w) sources in
  let awaiting := count16 watermark_awaits sources in
  let integrity := (0 <? openGaps) || gapOverflow || (0 <? awaiting) || (0 <? sourceConflicts) in
  let state :=
    if 0 <? failed then AggregateFailed
    else if (0 <? degraded) || (0 <? stale) || (0 <? conflicted) || integrity then AggregateDegraded
    else if 0 <? unknown then AggregateUnknown
    else AggregateReady in
  Summary.mk state authorization reason (count16 (in_state StateReady) components) degraded failed stale unknown conflicted
    (count16 (in_state StateNotApplicable) components) openGaps gapOverflow sourceConflicts awaiting conflictOverflow.

(** ** The semantic projection *)

Definition project (s : Snapshot.t) : semantic.t :=
  semantic.mk (Snapshot.BootID s) (Snapshot.Policy s) (Snapshot.Authorization s) (Snapshot.Reason s)
    (map (fun r => semanticComponent.mk (ComponentRecord.Component r) (ComponentRecord.State r) (ComponentRecord.Observed r)
       (ComponentRecord.Reason r) (ComponentRecord.Payload r) (ComponentRecord.HasBaseline r)
       (ComponentRecord.RebaselineRequired r) (ComponentRecord.Conflicts r)
       (map (fun c => semanticCorroboration.mk (Corroboration.Source c) (Corroboration.Lifecycle c) (Corroboration.Agrees c))
          (ComponentRecord.Corroborations r))) (Snapshot.Components s))
    (map (fun w => semanticSource.mk (SourceWatermark.Source w) (SourceWatermark.BootID w) (SourceWatermark.Gaps w)
       (SourceWatermark.GapOverflow w) (SourceWatermark.PendingBaseline w) (SourceWatermark.Conflicts w)) (Snapshot.Sources s))
    (Snapshot.Conflicts s) (Snapshot.Summary s).

(** ** Desired state *)

Definition no_expectation : Expectation.t := Expectation.mk LifecycleNotApplicable None None None None None None None.

Definition pinned {A} (o : option A) : bool := match o with Some _ => true | None => false end.

Definition validateExpectation (component : Component) (e : Expectation.t) : result conn_error unit :=
  let allowed (set condition : bool) := negb set || condition in
  if negb (String.eqb (Expectation.Lifecycle e) LifecycleReady || String.eqb (Expectation.Lifecycle e) LifecycleNotApplicable)
  then Err ErrInvalidInput
  else if negb (allowed (pinned (Expectation.PathClass e)) (String.eqb component ComponentDefaultPath)) then Err ErrInvalidInput
  else if negb (allowed (pinned (Expectation.ResolverClass e)) (String.eqb component ComponentDNS)) then Err ErrInvalidInput
  else if negb (allowed (pinned (Expectation.SelectedClass e)) (String.eqb component ComponentRelays)) then Err ErrInvalidInput
  else if negb (allowed (pinned (Expectation.ProfileClass e)) (String.eqb component ComponentUserAccess)) then Err ErrInvalidInput
  else if negb (allowed (pinned (Expectation.MinInstalledRoutes e)) (String.eqb component ComponentScopedRoutes)) then Err ErrInvalidInput
  else if negb (allowed (pinned (Expectation.MinReadyTransports e)) (String.eqb component ComponentTransports)) then Err ErrInvalidInput
  else if negb (allowed (pinned (Expectation.MinReachableRelays e)) (String.eqb component ComponentRelays)) then Err ErrInvalidInput
  else Ok tt.

Fixpoint policy_by_component (table : gmap Component ComponentPolicy.t) (entries : list ComponentPolicy.t)
    : result conn_error (gmap Component ComponentPolicy.t) :=
  match entries with
  | [] => Ok table
  | e :: rest =>
      let component := ComponentPolicy.Component e in
      if negb (Component_Valid component) then Err ErrInvalidInput
      else match table !! component with
           | Some _ => Err ErrInvalidInput
           | None =>
               _ ← (if ComponentPolicy.Managed e then validateExpectation component (ComponentPolicy.Expect e) else Ok tt);
               policy_by_component (<[component := e]> table) rest
           end
  end.

Definition desired_component (table : gmap Component ComponentPolicy.t) (authorized : bool) (component : Component)
    : result conn_error DesiredComponent.t :=
  match ConnectivityAuthority component with
  | None => Err ErrInvalidInput
  | Some d =>
      let managed := match table !! component with Some e => ComponentPolicy.Managed e && authorized | None => false end in
      let expect := match table !! component with
        | Some e => if managed then ComponentPolicy.Expect e else no_expectation | None => no_expectation end in
      Ok (DesiredComponent.mk component (SourceDeclaration.Domain d) managed expect)
  end.

Definition Desire (p : EffectivePolicy.t) : result conn_error DesiredState.t :=
  let descriptor := EffectivePolicy.Descriptor p in
  table ← policy_by_component ∅ (EffectivePolicy.Components p);
  components ← mapM (desired_component table (Authorized descriptor)) Components;
  Ok (DesiredState.mk DesiredSchema DesiredSchemaVersion descriptor (Authorized descriptor) components).

(** ** The comparison *)

Definition absent (r : ComponentRecord.t) : bool :=
  match ComponentRecord.Payload r with
  | Payload.mk (Some p) _ _ _ _ _ _ _ => String.eqb (PhysicalNetworkPayload.LinkClass p) LinkNone
  | Payload.mk _ (Some p) _ _ _ _ _ _ => String.eqb (DefaultPathPayload.PathClass p) PathNone
  | Payload.mk _ _ (Some p) _ _ _ _ _ => String.eqb (DNSPayload.ResolverClass p) ResolverNone
  | Payload.mk _ _ _ (Some p) _ _ _ _ => ScopedRoutesPayload.Installed p =? 0
  | Payload.mk _ _ _ _ (Some p) _ _ _ => TransportsPayload.Ready p =? 0
  | Payload.mk _ _ _ _ _ (Some p) _ _ => RelaysPayload.Reachable p =? 0
  | Payload.mk _ _ _ _ _ _ (Some p) _ => String.eqb (UserAccessPayload.ProfileClass p) ProfileNone
  | Payload.mk _ _ _ _ _ _ _ (Some p) => String.eqb (SessionExpiryPayload.ExpiryClass p) ExpiryNone
  | _ => true
  end.

(** A pin against the member of the payload it constrains, when both are there. *)
Definition differs {A P} (pin : option A) (payload : option P) (test : P -> A -> bool) : bool :=
  match pin, payload with Some a, Some p => test p a | _, _ => false end.

Definition below (pin : option Z) (count : option Z) : option (Classification * DiffReason) :=
  match pin, count with
  | Some least, Some n =>
      if n <? least then
        if n =? 0 then Some (ClassMissing, DiffReasonNothingPresent) else Some (ClassDivergent, DiffReasonBelowExpected)
      else None
  | _, _ => None
  end.

Definition pinMismatch (r : ComponentRecord.t) (e : Expectation.t) : option (Classification * DiffReason) :=
  let p := ComponentRecord.Payload r in
  let mismatch := Some (ClassDivergent, DiffReasonClassMismatch) in
  if differs (Expectation.PathClass e) (Payload.DefaultPath p)
       (fun x c => negb (String.eqb (DefaultPathPayload.PathClass x) c)) then mismatch
  else if differs (Expectation.ResolverClass e) (Payload.DNS p)
       (fun x c => negb (String.eqb (DNSPayload.ResolverClass x) c)) then mismatch
  else if differs (Expectation.SelectedClass e) (Payload.Relays p)
       (fun x c => negb (String.eqb (RelaysPayload.SelectedClass x) c)) then mismatch
  else if differs (Expectation.ProfileClass e) (Payload.UserAccess p)
       (fun x c => negb (String.eqb (UserAccessPayload.ProfileClass x) c)) then mismatch
  else match below (Expectation.MinInstalledRoutes e) (ScopedRoutesPayload.Installed <$> Payload.ScopedRoutes p) with
       | Some c => Some c
       | None =>
           match below (Expectation.MinReadyTransports e) (TransportsPayload.Ready <$> Payload.Transports p) with
           | Some c => Some c
           | None => below (Expectation.MinReachableRelays e) (RelaysPayload.Reachable <$> Payload.Relays p)
           end
       end.

Definition establishedUnderEarlierPolicy (r : ComponentRecord.t) (prior : option Snapshot.t) (s : Snapshot.t) : bool :=
  match prior with
  | None => false
  | Some p =>
      if negb (PolicyDescriptor.Present (Snapshot.Policy p)) then false
      else if PolicyDescriptor.BundleGeneration (Snapshot.Policy s) <=? PolicyDescriptor.BundleGeneration (Snapshot.Policy p)
      then false
      else match List.find (fun b => String.eqb (ComponentRecord.Component b) (ComponentRecord.Component r)) (Snapshot.Components p) with
           | Some b => in_state StateReady b || in_state StateDegraded b
           | None => false
           end
  end.

Definition classify (r : ComponentRecord.t) (want : DesiredComponent.t) (prior : option Snapshot.t) (s : Snapshot.t)
    : Classification * DiffReason :=
  if in_state StateConflict r then (ClassConflict, DiffReasonOwnerConflict)
  else if in_state StateStale r then (ClassStale, DiffReasonStaleObservation)
  else if in_state StateUnknown r then (ClassUnknown, DiffReasonNotObserved)
  else if negb (DesiredComponent.Managed want) then
    if in_state StateNotApplicable r then (ClassConverged, DiffReasonNotManaged)
    else if establishedUnderEarlierPolicy r prior s then (ClassGrandfathered, DiffReasonPolicyExcluded)
    else (ClassUnexpected, DiffReasonNotManaged)
  else if String.eqb (Expectation.Lifecycle (DesiredComponent.Expect want)) LifecycleNotApplicable then
    if in_state StateNotApplicable r then (ClassConverged, DiffReasonNone)
    else if establishedUnderEarlierPolicy r prior s then (ClassGrandfathered, DiffReasonPolicyExcluded)
    else (ClassUnexpected, DiffReasonNone)
  else if in_state StateFailed r then
    if absent r then (ClassMissing, DiffReasonNothingPresent) else (ClassDivergent, DiffReasonFailed)
  else if in_state StateDegraded r then (ClassDivergent, DiffReasonDegraded)
  else if in_state StateNotApplicable r then (ClassMissing, DiffReasonNothingPresent)
  else match pinMismatch r (DesiredComponent.Expect want) with
       | Some c => c
       | None => (ClassConverged, DiffReasonNone)
       end.

(** The zero value that a lookup of an absent component gives. *)
Definition nothing_wanted : DesiredComponent.t :=
  DesiredComponent.mk "" "" false (Expectation.mk "" None None None None None None None).

Definition Compare (s : Snapshot.t) (desired : DesiredState.t) (prior : option Snapshot.t) : Diff.t :=
  let authorized := String.eqb (Snapshot.Authorization s) AuthorizationAuthorized && DesiredState.Authorized desired in
  let wanted := fold_left (fun t c => <[DesiredComponent.Component c := c]> t) (DesiredState.Components desired)
                  (∅ : gmap Component DesiredComponent.t) in
  let entry r :=
    let '(classification, reason) :=
      if negb authorized then (ClassUnknown, DiffReasonUnauthorized)
      else classify r (default nothing_wanted (wanted !! ComponentRecord.Component r)) prior s in
    ComponentDiff.mk (ComponentRecord.Component r) (ComponentRecord.Domain r) classification reason in
  Diff.mk DiffSchema DiffSchemaVersion (Snapshot.Generation s) (Snapshot.Policy s) authorized (map entry (Snapshot.Components s)).

(** ** Proposals *)

Definition proposalClass (c : Classification) : option ProposalClass :=
  if String.eqb c ClassMissing then Some ProposalEstablish
  else if String.eqb c ClassDivergent then Some ProposalReconcile
  else if String.eqb c ClassUnexpected then Some ProposalWithdraw
  else if String.eqb c ClassStale || String.eqb c ClassUnknown || String.eqb c ClassConflict then Some ProposalObserve
  else None.

Definition domainGeneration (d : PolicyDescriptor.t) (domain : Domain) : Z :=
  if String.eqb domain DomainUser then PolicyDescriptor.UserGeneration d else PolicyDescriptor.RootGeneration d.

Definition with_digest (p : Proposal.t) (digest : string) : Proposal.t :=
  Proposal.mk (Proposal.Schema p) (Proposal.Version p) (Proposal.SnapshotGeneration p) (Proposal.BundleGeneration p)
    (Proposal.DomainPolicyGeneration p) (Proposal.Domain p) (Proposal.Target p) (Proposal.Class p) (Proposal.Reason p)
    (Proposal.DiffDigest p) digest.

Definition proposalBody (p : Proposal.t) : Proposal.t := with_digest p "".

(** ** The reduction *)

Definition validateInput (i : Input.t) : result conn_error unit :=
  let contradicted := match Input.Prior i with
    | Some p =>
        (negb (Input.PriorConsumed i =? 0) && negb (Input.PriorConsumed i =? Snapshot.ConsumedHostSequence p)) ||
        (negb (Input.PriorFolded i =? 0) && negb (Input.PriorFolded i =? Snapshot.ConsumedFoldPosition p))
    | None => false end in
  if contradicted then Err ErrInvalidInput
  else if String.eqb (Input.BootID i) "" || (Input.EvaluationTick i <=? 0) then Err ErrInvalidInput
  else if match Input.Wake i with Some w => Wake.Tick w <=? 0 | None => false end then Err ErrInvalidInput
  else if match Input.Prior i with
          | Some p => negb (is_ok (Snapshot_Validate p)) ||
                      (String.eqb (Snapshot.BootID p) (Input.BootID i) && (Input.EvaluationTick i <? Snapshot.EvaluationTick p))
          | None => false end then Err ErrInvalidInput
  else if existsb (fun e => negb (is_ok (Validate (Event.Fact e))) ||
                            String.eqb (Acceptance.Outcome (Event.Acceptance e)) OutcomeRejected) (Input.Events i)
  then Err ErrInvalidInput
  else Ok tt.

(** The watermarks and the tables that the loop over the events carries. *)
Module Fold.
Record t := mk {
  folded : Z;
  consumed : Z;
  components : componentTable;
  sources : sourceTable;
  conflicts : conflictTable
}.
End Fold.

Definition fold_event (st : Fold.t) (e : Event.t) : result conn_error Fold.t :=
  let a := Event.Acceptance e in
  if negb (Acceptance.FoldPosition a =? u64 (Fold.folded st + 1)) then Err ErrOutOfOrder
  else
    let folded := Acceptance.FoldPosition a in
    if String.eqb (Acceptance.Outcome a) OutcomeAccepted then
      if negb (Acceptance.HostSequence a =? u64 (Fold.consumed st + 1)) then Err ErrOutOfOrder
      else
        let '(components, sources, conflicts) := applyAccepted (Fold.components st) (Fold.sources st) (Fold.conflicts st) e in
        Ok (Fold.mk folded (Acceptance.HostSequence a) components sources conflicts)
    else if String.eqb (Acceptance.Outcome a) OutcomeConflict then
      let '(sources, conflicts) := applyConflict (Fold.sources st) (Fold.conflicts st) e in
      Ok (Fold.mk folded (Fold.consumed st) (Fold.components st) sources conflicts)
    else if String.eqb (Acceptance.Outcome a) OutcomeDuplicate || String.eqb (Acceptance.Outcome a) OutcomeStale then
      Ok (Fold.mk folded (Fold.consumed st) (Fold.components st) (Fold.sources st) (Fold.conflicts st))
    else Err ErrInvalidInput.

Fixpoint fold_events (st : Fold.t) (events : list Event.t) : result conn_error Fold.t :=
  match events with
  | [] => Ok st
  | e :: rest => st' ← fold_event st e; fold_events st' rest
  end.

Definition start (i : Input.t) : Fold.t :=
  Fold.mk (match Input.Prior i with Some p => Snapshot.ConsumedFoldPosition p | None => Input.PriorFolded i end)
    (match Input.Prior i with Some p => Snapshot.ConsumedHostSequence p | None => Input.PriorConsumed i end)
    (markRebaseline (newComponentTable (Input.Prior i)) i) (newSourceTable (Input.Prior i)) (newConflictTable (Input.Prior i)).

(** The snapshot of the tables, at a generation. *)
Definition render (i : Input.t) (st : Fold.t) (generation : Z) : Snapshot.t :=
  let components := renderComponents (Fold.components st) (Fold.sources st) i in
  let sources := renderSources (Fold.sources st) in
  let '(records, conflictOverflow) := renderConflicts (Fold.conflicts st) in
  let '(authorization, reason) := authorize (Input.Policy i) (Input.Prior i) in
  Snapshot.mk SnapshotSchema SnapshotSchemaVersion generation ReducerID ReducerVersion (Input.BootID i) (Input.EvaluationTick i)
    (Input.Policy i) authorization reason (Fold.consumed st) (Fold.folded st) components sources records
    (summarize components sources authorization reason conflictOverflow).

Section reduction.
Context `{JSON} `{!Codec semantic.t, !Codec Diff.t, !Codec Proposal.t}.

Definition SemanticDigest (s : Snapshot.t) : result conn_error string :=
  match CanonicalSHA256 (project s) with Ok (digest, _) => Ok digest | Err _ => Err ErrInvalidSnapshot end.

Definition effective (prior : option Snapshot.t) (next : Snapshot.t) : result conn_error bool :=
  match prior with
  | None => Ok true
  | Some p => before ← SemanticDigest p; after ← SemanticDigest next; Ok (negb (String.eqb before after))
  end.

Definition Diff_Digest (d : Diff.t) : result conn_error string :=
  match CanonicalSHA256 d with Ok (digest, _) => Ok digest | Err _ => Err ErrInvalidSnapshot end.

Definition Verify (p : Proposal.t) : result conn_error unit :=
  if negb (String.eqb (Proposal.Schema p) ProposalSchema) || negb (Proposal.Version p =? ProposalSchemaVersion)
  then Err ErrInvalidProposal
  else if negb (Component_Valid (Proposal.Target p)) || negb (ProposalClass_Valid (Proposal.Class p)) then Err ErrInvalidProposal
  else if negb (String.eqb (Proposal.Domain p) DomainRoot) && negb (String.eqb (Proposal.Domain p) DomainUser)
  then Err ErrInvalidProposal
  else if (Proposal.SnapshotGeneration p =? 0) || (Proposal.BundleGeneration p =? 0) || negb (slen (Proposal.DiffDigest p) =? 64)
  then Err ErrInvalidProposal
  else match CanonicalSHA256 (proposalBody p) with
       | Err _ => Err ErrInvalidProposal
       | Ok (expected, _) => if negb (String.eqb expected (Proposal.Digest p)) then Err ErrInvalidProposal else Ok tt
       end.

Definition VerifyCurrent (p : Proposal.t) (s : Snapshot.t) (diffDigest : string) : result conn_error unit :=
  _ ← Verify p;
  if negb (Proposal.SnapshotGeneration p =? Snapshot.Generation s) then Err ErrStaleProposal
  else if negb (Proposal.BundleGeneration p =? PolicyDescriptor.BundleGeneration (Snapshot.Policy s)) then Err ErrStaleProposal
  else if negb (Proposal.DomainPolicyGeneration p =? domainGeneration (Snapshot.Policy s) (Proposal.Domain p))
  then Err ErrStaleProposal
  else if negb (String.eqb (Proposal.DiffDigest p) diffDigest) then Err ErrStaleProposal
  else Ok tt.

Definition propose_entry (s : Snapshot.t) (diffDigest : string) (class : ProposalClass) (e : ComponentDiff.t)
    : result conn_error Proposal.t :=
  let proposal := Proposal.mk ProposalSchema ProposalSchemaVersion (Snapshot.Generation s)
    (PolicyDescriptor.BundleGeneration (Snapshot.Policy s)) (domainGeneration (Snapshot.Policy s) (ComponentDiff.Domain e))
    (ComponentDiff.Domain e) (ComponentDiff.Component e) class (ComponentDiff.Reason e) diffDigest "" in
  match CanonicalSHA256 (proposalBody proposal) with
  | Err _ => Err ErrInvalidProposal
  | Ok (digest, _) => let proposal := with_digest proposal digest in _ ← Verify proposal; Ok proposal
  end.

Fixpoint propose_entries (s : Snapshot.t) (diffDigest : string) (entries : list ComponentDiff.t)
    : result conn_error (list Proposal.t) :=
  match entries with
  | [] => Ok []
  | e :: rest =>
      match proposalClass (ComponentDiff.Classification e) with
      | None => propose_entries s diffDigest rest
      | Some class =>
          proposal ← propose_entry s diffDigest class e;
          proposals ← propose_entries s diffDigest rest;
          Ok (proposal :: proposals)
      end
  end.

Definition Propose (s : Snapshot.t) (d : Diff.t) : result conn_error (list Proposal.t) :=
  if negb (Diff.Authorized d) then Ok []
  else diffDigest ← Diff_Digest d; propose_entries s diffDigest (Diff.Components d).

Definition Reduce (i : Input.t) : result conn_error Output.t :=
  _ ← validateInput i;
  st ← fold_events (start i) (Input.Events i);
  changed ← effective (Input.Prior i) (render i st 0);
  let generation := match Input.Prior i with Some p => Snapshot.Generation p | None => 0 end in
  let advanced := changed || bool_decide (Input.Prior i = None) in
  let snapshot := render i st (if advanced then u64 (generation + 1) else generation) in
  _ ← Snapshot_Validate snapshot;
  desired ← Desire (EffectivePolicy.mk (Input.Policy i) (Input.PolicyComponents i));
  let diff := Compare snapshot desired (Input.Prior i) in
  proposals ← Propose snapshot diff;
  Ok (Output.mk snapshot desired diff proposals advanced).
End reduction.
