(* ===== verification/ConnAggregate.v ===== *)
(** * What the connectivity read model guarantees

    The theorems about [ConnReduce], and about the reducer fed by the acceptor of
    [ConnAccept]: the summary is as bad as its worst part, a wake withdraws readiness,
    proposals describe the snapshot they come with, and the reducer follows the acceptor
    batch after batch. *)

From Stdlib Require Import ZArith Lia Ascii String.
From stdpp Require Import base strings list option sets gmap sorting.
From S2P Require Import Prelude PolicyModel PolicyCanonical Connectivity ConnAccept ConnReduce.

Open Scope string_scope.
Open Scope Z_scope.

(** ** Counters *)

Lemma u16_small z : 0 <= z < 2 ^ 16 -> u16 z = z.
Proof. apply Z.mod_small. Qed.

Lemma count16_from {A} (p : A -> bool) l n : 0 <= n -> n + len l < 2 ^ 16 ->
  fold_left (fun n x => if p x then u16 (n + 1) else n) l n = n + len (List.filter p l).
Proof.
  revert n. induction l as [|x l IH]; intros n Hn Hb; simpl in *; [lia|].
  destruct (p x); simpl; [rewrite u16_small by lia|]; rewrite IH by lia; lia.
Qed.

Lemma count16_zero {A} (p : A -> bool) l : len l < 2 ^ 16 -> (0 <? count16 p l) = existsb p l.
Proof.
  intros Hl. unfold count16. rewrite count16_from by lia. clear Hl.
  induction l as [|x l IH]; simpl; [done|]. destruct (p x); simpl; [apply Z.ltb_lt; lia|exact IH].
Qed.

Lemma open_gaps_from (l : list SourceWatermark.t) n :
  Forall (fun w => len (SourceWatermark.Gaps w) <= MaxGapRanges) l -> 0 <= n -> n + 64 * len l < 2 ^ 16 ->
  n <= fold_left (fun n w => u16 (n + u16 (len (SourceWatermark.Gaps w)))) l n /\
  (fold_left (fun n w => u16 (n + u16 (len (SourceWatermark.Gaps w)))) l n = n <->
   Forall (fun w => SourceWatermark.Gaps w = []) l).
Proof.
  intros Hg. revert n. induction Hg as [|w l Hw _ IH]; intros n Hn Hb; simpl in *; [split; [lia|]; split; [by constructor|done]|].
  unfold MaxGapRanges in Hw. rewrite (u16_small (len _)), u16_small by lia.
  destruct (IH (n + len (SourceWatermark.Gaps w))) as [Hle Hiff]; [lia..|]. split; [lia|].
  rewrite Forall_cons, <- Hiff. destruct (SourceWatermark.Gaps w) as [|g k]; simpl in *; [|split; [lia|intros [[=] _]]].
  rewrite Z.add_0_r. naive_solver.
Qed.

Lemma open_gaps_zero l :
  Forall (fun w => len (SourceWatermark.Gaps w) <= MaxGapRanges) l -> 64 * len l < 2 ^ 16 ->
  (0 <? fold_left (fun n w => u16 (n + u16 (len (SourceWatermark.Gaps w)))) l 0) =
  existsb (fun w => negb (bool_decide (SourceWatermark.Gaps w = []))) l.
Proof.
  intros Hg Hl. destruct (open_gaps_from l 0 Hg) as [Hle Hiff]; [lia..|]. apply eq_true_iff_eq.
  rewrite existsb_exists, Z.ltb_lt. split.
  - intros Hpos. assert (~ Forall (fun w => SourceWatermark.Gaps w = []) l) as Hn by (intros Ha; apply Hiff in Ha; lia).
    apply not_Forall_Exists, Exists_exists in Hn as (w & Hw & Hne); [|intros w; apply _].
    exists w. split; [by apply list_elem_of_In|]. by apply negb_true_iff, bool_decide_eq_false.
  - intros (w & Hw%list_elem_of_In & Hne). apply negb_true_iff, bool_decide_eq_false in Hne.
    destruct (decide (fold_left (fun n w => u16 (n + u16 (len (SourceWatermark.Gaps w)))) l 0 = 0)) as [He|]; [|lia].
    apply Hiff in He. rewrite Forall_forall in He. by apply He in Hw.
Qed.

(** ** The summary *)

(** A part of the snapshot that a healthy summary may not hide. *)
Definition healthy_component (r : ComponentRecord.t) : bool := in_state StateReady r || in_state StateNotApplicable r.
Definition continuous (w : SourceWatermark.t) : bool :=
  bool_decide (SourceWatermark.Gaps w = []) && negb (SourceWatermark.GapOverflow w) && negb (watermark_awaits w) &&
  negb (0 <? SourceWatermark.Conflicts w).

(** The aggregate state by the worst part, with no counters. *)
Definition worst (components : list ComponentRecord.t) (sources : list SourceWatermark.t) : AggregateState :=
  if existsb (in_state StateFailed) components then AggregateFailed
  else if existsb (fun r => in_state StateDegraded r || in_state StateStale r || in_state StateConflict r) components ||
          negb (forallb continuous sources) then AggregateDegraded
  else if negb (forallb healthy_component components) then AggregateUnknown
  else AggregateReady.

Lemma existsb_or {A} (p q : A -> bool) l : existsb (fun x => p x || q x) l = existsb p l || existsb q l.
Proof.
  induction l as [|x l IH]; simpl; [done|]. rewrite IH. destruct (p x), (q x), (existsb p l); done.
Qed.

Lemma negb_forallb {A} (p : A -> bool) l : negb (forallb p l) = existsb (fun x => negb (p x)) l.
Proof. induction l as [|x l IH]; simpl; [done|]. by rewrite negb_andb, IH. Qed.

Lemma existsb_ext_in {A} (p q : A -> bool) l : (forall x, In x l -> p x = q x) -> existsb p l = existsb q l.
Proof.
  induction l as [|x l IH]; simpl; [done|]. intros He. rewrite (He x) by (by left). rewrite IH; [done|]. intros y Hy. apply He. by right.
Qed.

Lemma summarize_worst components sources authorization reason overflow :
  len components < 2 ^ 16 -> 64 * len sources < 2 ^ 16 ->
  Forall (fun w => len (SourceWatermark.Gaps w) <= MaxGapRanges) sources ->
  Summary.State (summarize components sources authorization reason overflow) = worst components sources.
Proof.
  intros Hc Hs Hg. unfold summarize, worst. simpl. rewrite !count16_zero by lia. rewrite (open_gaps_zero sources Hg Hs).
  destruct (existsb (in_state StateFailed) components) eqn:Hf; [done|].
  rewrite !existsb_or, !negb_forallb.
  replace (existsb (fun x => negb (continuous x)) sources) with
    (existsb (fun w => negb (bool_decide (SourceWatermark.Gaps w = []))) sources || existsb SourceWatermark.GapOverflow sources ||
     existsb watermark_awaits sources || existsb (fun w => 0 <? SourceWatermark.Conflicts w) sources).
  2:{ rewrite <- !existsb_or. apply existsb_ext_in. intros w _. unfold continuous. by rewrite !negb_andb, !negb_involutive. }
  destruct (existsb (in_state StateDegraded) components) eqn:Hd; [done|].
  destruct (existsb (in_state StateStale) components) eqn:Hst; [done|].
  destruct (existsb (in_state StateConflict) components) eqn:Hcf; [done|]. cbn [orb].
  destruct (_ || existsb (fun w => 0 <? SourceWatermark.Conflicts w) sources); [done|].
  erewrite (existsb_ext_in _ (fun r => negb (healthy_component r))); [done|].
  intros r Hr. unfold healthy_component.
  assert (forall st, existsb (in_state st) components = false -> in_state st r = false) as Hno.
  { intros st He. destruct (in_state st r) eqn:Hi; [|done]. rewrite <- He. symmetry. apply existsb_exists. by exists r. }
  rewrite (Hno _ Hf), (Hno _ Hd), (Hno _ Hst), (Hno _ Hcf), !orb_false_r. done.
Qed.

(** ** A reduction that returned *)

Section returned.
Context `{JSON} `{!Codec semantic.t, !Codec Diff.t, !Codec Proposal.t}.

Record reduced (i : Input.t) (o : Output.t) (st : Fold.t) : Prop := {
  rd_input : validateInput i = Ok tt;
  rd_fold : fold_events (start i) (Input.Events i) = Ok st;
  rd_snapshot : Output.Snapshot o = render i st (Snapshot.Generation (Output.Snapshot o));
  rd_valid : Snapshot_Validate (Output.Snapshot o) = Ok tt;
  rd_desired : Desire (EffectivePolicy.mk (Input.Policy i) (Input.PolicyComponents i)) = Ok (Output.Desired o);
  rd_diff : Output.Diff o = Compare (Output.Snapshot o) (Output.Desired o) (Input.Prior i);
  rd_proposals : Propose (Output.Snapshot o) (Output.Diff o) = Ok (Output.Proposals o)
}.

Lemma render_generation i st g : Snapshot.Generation (render i st g) = g.
Proof. unfold render. by destruct (renderConflicts _), (authorize _ _). Qed.

Lemma Reduce_reduced i o : Reduce i = Ok o -> exists st, reduced i o st.
Proof.
  unfold Reduce. intros Hr.
  apply bind_Ok in Hr as ([] & Hi & Hr). apply bind_Ok in Hr as (st & Hf & Hr). apply bind_Ok in Hr as (changed & _ & Hr).
  apply bind_Ok in Hr as ([] & Hv & Hr). apply bind_Ok in Hr as (desired & Hd & Hr). apply bind_Ok in Hr as (proposals & Hp & Hr).
  injection Hr as <-. exists st. split; try done. simpl. by rewrite render_generation.
Qed.
End returned.

Lemma validated_evidence s : Snapshot_Validate s = Ok tt ->
  Forall (fun r => len (ComponentRecord.Corroborations r) <= MaxCorroborations) (Snapshot.Components s).
Proof.
  unfold Snapshot_Validate. intros Hv. do 6 (destruct (_ : bool) in Hv; [discriminate Hv|]).
  destruct (existsb _ _) eqn:He; [discriminate Hv|]. apply Forall_forall. intros r Hr.
  destruct (decide (len (ComponentRecord.Corroborations r) <= MaxCorroborations)) as [|Hn]; [done|]. exfalso.
  apply Bool.not_true_iff_false in He. apply He, existsb_exists. exists r. split; [by apply list_elem_of_In|]. apply Z.ltb_lt. lia.
Qed.

Lemma validated_prior i p : validateInput i = Ok tt -> Input.Prior i = Some p -> Snapshot_Validate p = Ok tt.
Proof.
  unfold validateInput. intros Hv Hp. rewrite Hp in Hv. do 3 (destruct (_ : bool) in Hv; [discriminate Hv|]).
  destruct (Snapshot_Validate p) as [[]|]; [done|]. discriminate Hv.
Qed.

Lemma validated_sources s : Snapshot_Validate s = Ok tt -> forallb watermark_valid (Snapshot.Sources s) = true.
Proof. unfold Snapshot_Validate. intros Hv. do 5 (destruct (_ : bool) in Hv; [discriminate Hv|]). by destruct (forallb watermark_valid _). Qed.

Lemma validated_components s : Snapshot_Validate s = Ok tt ->
  map ComponentRecord.Component (Snapshot.Components s) = Components /\ Snapshot.Generation s <> 0.
Proof.
  unfold Snapshot_Validate. intros Hv. do 2 (destruct (_ : bool) in Hv; [discriminate Hv|]).
  destruct (Snapshot.Generation s =? 0) eqn:Hg; [discriminate Hv|]. unfold components_in_order in Hv.
  destruct (bool_decide _) eqn:Hc; [|discriminate Hv]. bool_prop. done.
Qed.

Lemma render_summary i st g :
  Snapshot.Summary (render i st g) =
  summarize (Snapshot.Components (render i st g)) (Snapshot.Sources (render i st g)) (Snapshot.Authorization (render i st g))
    (Snapshot.Reason (render i st g)) (renderConflicts (Fold.conflicts st)).2.
Proof. unfold render. by destruct (renderConflicts _), (authorize _ _). Qed.

Section pessimism.
Context `{JSON} `{!Codec semantic.t, !Codec Diff.t, !Codec Proposal.t}.

(** The operator's summary is never better than its worst part: it says failed
    exactly when a component failed, and ready only when every component is ready or not
    applicable and every source's stream is without holes, overflow, debt and refusals.
    The counters do not wrap as long as there are fewer than 1024 sources. *)
Theorem summary_is_pessimistic i o :
  Reduce i = Ok o -> len (Snapshot.Sources (Output.Snapshot o)) < 1024 ->
  let s := Output.Snapshot o in
  (Summary.State (Snapshot.Summary s) = AggregateFailed <-> exists r, r ∈ Snapshot.Components s /\ ComponentRecord.State r = StateFailed) /\
  (Summary.State (Snapshot.Summary s) = AggregateReady ->
     Forall (fun r => ComponentRecord.State r = StateReady \/ ComponentRecord.State r = StateNotApplicable) (Snapshot.Components s) /\
     Forall (fun w => SourceWatermark.Gaps w = [] /\ SourceWatermark.GapOverflow w = false /\
       SourceWatermark.PendingBaseline w = [] /\ SourceWatermark.Conflicts w <= 0) (Snapshot.Sources s)).
Proof.
  intros (st & [])%Reduce_reduced Hl s.
  assert (Summary.State (Snapshot.Summary s) = worst (Snapshot.Components s) (Snapshot.Sources s)) as ->.
  { apply validated_components in rd_valid0 as Hc. apply validated_sources in rd_valid0 as Hw.
    unfold s. rewrite rd_snapshot0, render_summary, <- rd_snapshot0. apply summarize_worst; [|lia|].
    - destruct Hc as [Hc%(f_equal length) _]. rewrite length_map in Hc. rewrite Hc. done.
    - rewrite forallb_forall in Hw. apply Forall_forall. intros w Hin%list_elem_of_In. specialize (Hw w Hin).
      unfold watermark_valid in Hw. bool_prop. lia. }
  unfold worst. split.
  - destruct (existsb (in_state StateFailed) _) eqn:Hf.
    + split; [|done]. intros _. apply existsb_exists in Hf as (r & Hr%list_elem_of_In & Hs). apply String.eqb_eq in Hs. by exists r.
    + split; [by repeat case_match|]. intros (r & Hr%list_elem_of_In & Hs).
      assert (existsb (in_state StateFailed) (Snapshot.Components s) = true) as Ht; [|congruence].
      apply existsb_exists. exists r. split; [done|]. by apply String.eqb_eq.
  - destruct (existsb (in_state StateFailed) _); [done|].
    destruct (_ || negb (forallb continuous _)) eqn:Hc; [done|]. destruct (negb (forallb healthy_component _)) eqn:Hh; [done|]. intros _.
    bool_prop. rewrite forallb_forall in *. split; apply Forall_forall; intros x Hx%list_elem_of_In.
    + specialize (Hh x Hx). apply orb_true_iff in Hh as [Hh|Hh]; apply String.eqb_eq in Hh; [by left|by right].
    + match goal with H : forall w, In w (Snapshot.Sources s) -> _ |- _ => specialize (H x Hx); rename H into Hw end.
      unfold continuous, watermark_awaits in Hw. bool_prop. split_and!; [done..| |lia].
      destruct (SourceWatermark.PendingBaseline x); [done|simpl in *; lia].
Qed.
End pessimism.

(** ** Wakes and reboots *)

(** The owner restates the component in full. *)
Definition restates (c : Component) (e : Event.t) : bool :=
  String.eqb (Acceptance.Outcome (Event.Acceptance e)) OutcomeAccepted &&
  String.eqb (Acceptance.Role (Event.Acceptance e)) RoleAuthoritative &&
  String.eqb (Fact.Component (Event.Fact e)) c && Fact.Baseline (Event.Fact e).

Definition withdrawn (components : gmap Component ComponentRecord.t) (c : Component) : Prop :=
  exists r, components !! c = Some r /\ ComponentRecord.Component r = c /\ ComponentRecord.RebaselineRequired r = true.

Lemma addCorroboration_fields r e :
  ComponentRecord.Component (addCorroboration r e) = ComponentRecord.Component r /\
  ComponentRecord.RebaselineRequired (addCorroboration r e) = ComponentRecord.RebaselineRequired r /\
  ComponentRecord.Source (addCorroboration r e) = ComponentRecord.Source r.
Proof. unfold addCorroboration. destruct (replace_corroboration _ _); [done|]. by case_match. Qed.

Lemma applyAccepted_components components sources conflicts e c :
  (applyAccepted components sources conflicts e).1.1 !! c =
  if String.eqb (Fact.Component (Event.Fact e)) c then
    (fun r => if negb (String.eqb (Acceptance.Role (Event.Acceptance e)) RoleAuthoritative) then addCorroboration r e
              else observed_by_owner r e) <$> components !! c
  else components !! c.
Proof.
  unfold applyAccepted. simpl. destruct (String.eqb _ c) eqn:Hc; bool_prop.
  - subst c. by rewrite lookup_alter_eq.
  - by rewrite lookup_alter_ne.
Qed.

Lemma fold_event_withdrawn st e st' c : fold_event st e = Ok st' -> restates c e = false ->
  withdrawn (Fold.components st) c -> withdrawn (Fold.components st') c.
Proof.
  unfold fold_event, restates. intros Hf Hr Hw.
  destruct (negb (_ =? u64 (Fold.folded st + 1))); [done|].
  destruct (String.eqb _ OutcomeAccepted) eqn:Ho.
  - destruct (negb _) in Hf; [done|]. destruct (applyAccepted _ _ _ _) as [[components sources] conflicts] eqn:Ha.
    injection Hf as <-. destruct Hw as (r & Hl & Hc & Hq). unfold withdrawn. simpl.
    pose proof (applyAccepted_components (Fold.components st) (Fold.sources st) (Fold.conflicts st) e c) as Hx.
    rewrite Ha in Hx. simpl in Hx. rewrite Hx, Hl. cbn [andb] in Hr.
    destruct (String.eqb (Fact.Component (Event.Fact e)) c) eqn:Hfc; [|by exists r]. simpl. eexists. split; [done|].
    destruct (String.eqb _ RoleAuthoritative) eqn:Hrole; cbn [andb negb] in *.
    + unfold observed_by_owner. simpl. rewrite Hr. done.
    + destruct (addCorroboration_fields r e) as (H1 & H2 & _). split; congruence.
  - destruct (String.eqb _ OutcomeConflict) in Hf; [destruct (applyConflict _ _ _) in Hf; injection Hf as <-; done|].
    destruct (_ || _) in Hf; [|done]. by injection Hf as <-.
Qed.

Lemma fold_events_withdrawn st events st' c : fold_events st events = Ok st' -> forallb (fun e => negb (restates c e)) events = true ->
  withdrawn (Fold.components st) c -> withdrawn (Fold.components st') c.
Proof.
  revert st. induction events as [|e events IH]; intros st; simpl; [by intros [= <-]|].
  intros Hf [He Hrest]%andb_true_iff Hw. apply bind_Ok in Hf as (st1 & H1 & H2). apply (IH st1); [done..|].
  eapply fold_event_withdrawn; [exact H1|by apply negb_true_iff|exact Hw].
Qed.

(** A table filled from a list whose keys are distinct holds every entry. *)
Lemma fill_table_other {K V} `{Countable K} (key : V -> K) (l : list V) (m : gmap K V) k :
  k ∉ map key l -> fold_left (fun t v => <[key v := v]> t) l m !! k = m !! k.
Proof.
  revert m. induction l as [|w l IH]; intros m Hn; simpl in *; [done|]. apply not_elem_of_cons in Hn as [Hne Hn].
  rewrite IH by done. by apply lookup_insert_ne.
Qed.

Lemma fill_table {K V} `{Countable K} (key : V -> K) (l : list V) (m : gmap K V) x :
  NoDup (map key l) -> x ∈ l -> fold_left (fun t v => <[key v := v]> t) l m !! key x = Some x.
Proof.
  revert m. induction l as [|v l IH]; intros m; simpl; [intros _ Hx; by apply not_elem_of_nil in Hx|].
  intros [Hn Hd]%NoDup_cons [->|Hx]%elem_of_cons; [|by apply IH].
  by rewrite fill_table_other, lookup_insert_eq.
Qed.

(** And holds nothing else but what was there. *)
Lemma fill_table_inv {K V} `{Countable K} (key : V -> K) (l : list V) (m : gmap K V) k x :
  fold_left (fun t v => <[key v := v]> t) l m !! k = Some x -> (x ∈ l /\ key x = k) \/ m !! k = Some x.
Proof.
  revert m. induction l as [|v l IH]; intros m; simpl; [by right|]. intros [[Hx Hk]|Hm]%IH; [left; set_solver|].
  apply lookup_insert_Some in Hm as [[<- <-]|[_ Hm]]; [left; set_solver|by right].
Qed.

Lemma Components_NoDup : NoDup Components.
Proof. apply distinct_strings_NoDup. vm_compute. reflexivity. Qed.

Lemma newComponentTable_prior p r : map ComponentRecord.Component (Snapshot.Components p) = Components ->
  r ∈ Snapshot.Components p -> newComponentTable (Some p) !! ComponentRecord.Component r = Some r.
Proof. intros Hc Hr. unfold newComponentTable. apply fill_table; [|done]. rewrite Hc. apply Components_NoDup. Qed.

Lemma start_withdrawn i p r : Input.Prior i = Some p -> (Input.Wake i <> None \/ Snapshot.BootID p <> Input.BootID i) ->
  map ComponentRecord.Component (Snapshot.Components p) = Components -> r ∈ Snapshot.Components p ->
  TimeSensitive (ComponentRecord.Component r) = true -> ComponentRecord.HostSequence r <> 0 ->
  withdrawn (Fold.components (start i)) (ComponentRecord.Component r).
Proof.
  intros Hp Hw Hc Hr Ht Hh. unfold start, markRebaseline, withdrawn. simpl. rewrite Hp.
  replace (bool_decide _ && _) with false.
  2:{ symmetry. apply andb_false_iff. destruct Hw as [Hw|Hw]; [left; by apply bool_decide_eq_false|right].
      apply negb_false_iff, negb_true_iff. by apply String.eqb_neq. }
  exists (with_rebaseline r true). rewrite map_lookup_imap, (newComponentTable_prior p r Hc Hr). simpl. rewrite Ht. simpl.
  by rewrite (proj2 (Z.eqb_neq _ _) Hh).
Qed.

(** ** The table of components *)

Record table_ok (t : gmap Component ComponentRecord.t) : Prop := {
  to_key : forall c r, t !! c = Some r -> ComponentRecord.Component r = c;
  to_all : forall c, c ∈ Components -> is_Some (t !! c);
  to_evidence : forall c r, t !! c = Some r -> len (ComponentRecord.Corroborations r) <= MaxCorroborations
}.

Lemma unobserved_component c : ComponentRecord.Component (unobserved c) = c /\ ComponentRecord.Corroborations (unobserved c) = [].
Proof. unfold unobserved. by destruct (ConnectivityAuthority c). Qed.

Lemma new_table_ok : table_ok (newComponentTable None).
Proof.
  unfold newComponentTable.
  assert (forall c r, (list_to_map (map (fun c => (c, unobserved c)) Components) : gmap Component ComponentRecord.t) !! c = Some r ->
    r = unobserved c) as Hin.
  { intros c r Hl. apply elem_of_list_to_map_2 in Hl. apply list_elem_of_In, in_map_iff in Hl as (x & [= -> <-] & _). done. }
  split.
  - intros c r ->%Hin. apply unobserved_component.
  - intros c Hc. exists (unobserved c). apply elem_of_list_to_map.
    + apply distinct_strings_NoDup. vm_compute. reflexivity.
    + apply list_elem_of_In, in_map_iff. exists c. split; [done|]. by apply list_elem_of_In.
  - intros c r ->%Hin. destruct (unobserved_component c) as [_ ->]. done.
Qed.

Lemma prior_table_ok p : Snapshot_Validate p = Ok tt -> table_ok (newComponentTable (Some p)).
Proof.
  intros Hv. destruct (validated_components p Hv) as [Hc _]. pose proof (validated_evidence p Hv) as He. rewrite Forall_forall in He.
  destruct new_table_ok as [Hk Ha Hev]. unfold newComponentTable in *. split.
  - intros c r [[_ Hr]|Hr]%fill_table_inv; [done|by apply Hk].
  - intros c Hin. pose proof Hin as Hin'. rewrite <- Hc in Hin'. apply list_elem_of_In, in_map_iff in Hin' as (r & <- & Hr%list_elem_of_In).
    exists r. apply fill_table; [rewrite Hc; apply Components_NoDup|done].
  - intros c r [[Hr _]|Hr]%fill_table_inv; [by apply He|by eapply Hev].
Qed.

Lemma start_table_ok i : validateInput i = Ok tt -> table_ok (Fold.components (start i)).
Proof.
  intros Hv. assert (table_ok (newComponentTable (Input.Prior i))) as [Hk Ha He].
  { destruct (Input.Prior i) as [p|] eqn:Hp; [|apply new_table_ok]. by eapply prior_table_ok, validated_prior. }
  unfold start. simpl. unfold markRebaseline. destruct (_ && _); [done|].
  split; intros c; rewrite map_lookup_imap.
  - intros r (q & Hq & [= <-])%bind_Some. apply Hk in Hq. by repeat case_match.
  - intros [q Hq]%Ha. rewrite Hq. by eexists.
  - intros r (q & Hq & [= <-])%bind_Some. apply He in Hq. by repeat case_match.
Qed.

Lemma replace_corroboration_length e l k : replace_corroboration e l = Some k -> length k = length l.
Proof.
  revert k. induction l as [|c l IH]; intros k; simpl; [done|]. destruct (String.eqb _ _); [by intros [= <-]|].
  intros (k' & Hk & ->)%fmap_Some. simpl. by rewrite (IH k').
Qed.

Lemma addCorroboration_bounded r e : len (ComponentRecord.Corroborations r) <= MaxCorroborations ->
  len (ComponentRecord.Corroborations (addCorroboration r e)) <= MaxCorroborations.
Proof.
  intros Hl. unfold addCorroboration. destruct (replace_corroboration _ _) as [k|] eqn:Hr; simpl.
  - apply replace_corroboration_length in Hr. lia.
  - destruct (MaxCorroborations <=? _) eqn:Hm; [done|]. bool_prop. simpl. rewrite length_app. simpl. lia.
Qed.

Lemma applyAccepted_table_ok components sources conflicts e : table_ok components ->
  table_ok (applyAccepted components sources conflicts e).1.1.
Proof.
  intros [Hk Ha He]. split; intros c; rewrite applyAccepted_components.
  - destruct (String.eqb _ c); [|apply Hk]. intros r (q & Hq%Hk & ->)%fmap_Some.
    destruct (negb _); [by destruct (addCorroboration_fields q e) as (-> & _)|done].
  - intros [q Hq]%Ha. rewrite Hq. destruct (String.eqb _ c); by eexists.
  - destruct (String.eqb _ c); [|apply He]. intros r (q & Hq%He & ->)%fmap_Some.
    destruct (negb _); [by apply addCorroboration_bounded|done].
Qed.

Lemma fold_event_table_ok st e st' : fold_event st e = Ok st' -> table_ok (Fold.components st) -> table_ok (Fold.components st').
Proof.
  unfold fold_event. intros Hf Ht. destruct (negb (_ =? u64 (Fold.folded st + 1))); [done|].
  destruct (String.eqb _ OutcomeAccepted).
  - destruct (negb _) in Hf; [done|].
    pose proof (applyAccepted_table_ok (Fold.components st) (Fold.sources st) (Fold.conflicts st) e Ht) as Hx.
    destruct (applyAccepted _ _ _ _) as [[? ?] ?]. by injection Hf as <-.
  - destruct (String.eqb _ OutcomeConflict); [destruct (applyConflict _ _ _); by injection Hf as <-|].
    destruct (_ || _) in Hf; [|done]. by injection Hf as <-.
Qed.

Lemma fold_events_table_ok st events st' : fold_events st events = Ok st' ->
  table_ok (Fold.components st) -> table_ok (Fold.components st').
Proof.
  revert st. induction events as [|e events IH]; intros st; simpl; [by intros [= <-]|].
  intros Hf Ht. apply bind_Ok in Hf as (st1 & H1 & H2). eapply IH; [done|]. by eapply fold_event_table_ok.
Qed.

Lemma withdrawn_state r i : ComponentRecord.RebaselineRequired r = true ->
  deriveState r i ∈ [StateUnknown; StateConflict; StateStale].
Proof. unfold deriveState. intros ->. repeat case_match; set_solver. Qed.

Section wake.
Context `{JSON} `{!Codec semantic.t, !Codec Diff.t, !Codec Proposal.t}.

(** Sleep is not evidence of health: after a wake or a reboot, a time-sensitive
    component that had been observed is shown stale, in conflict or unknown, whatever
    fresh facts arrive, until its owner restates it in full. *)
Theorem wake_withdraws_readiness i o p r r' :
  Reduce i = Ok o -> Input.Prior i = Some p -> (Input.Wake i <> None \/ Snapshot.BootID p <> Input.BootID i) ->
  r ∈ Snapshot.Components p -> TimeSensitive (ComponentRecord.Component r) = true -> ComponentRecord.HostSequence r <> 0 ->
  forallb (fun e => negb (restates (ComponentRecord.Component r) e)) (Input.Events i) = true ->
  r' ∈ Snapshot.Components (Output.Snapshot o) -> ComponentRecord.Component r' = ComponentRecord.Component r ->
  ComponentRecord.State r' ∈ [StateUnknown; StateConflict; StateStale].
Proof.
  intros (st & [])%Reduce_reduced Hp Hw Hr Ht Hh He Hr' Hc.
  assert (map ComponentRecord.Component (Snapshot.Components p) = Components) as Hpc
    by (eapply validated_components, validated_prior; done).
  pose proof (fold_events_table_ok _ _ _ rd_fold0 (start_table_ok i rd_input0)) as Htab.
  pose proof (start_withdrawn i p r Hp Hw Hpc Hr Ht Hh) as Hs. eapply fold_events_withdrawn in Hs as (q & Hq & Hqc & Hqr); [|done..].
  rewrite rd_snapshot0 in Hr'. unfold render in Hr'. destruct (renderConflicts _), (authorize _ _). simpl in Hr'.
  unfold renderComponents in Hr'. apply list_elem_of_omap in Hr' as (c & _ & Hl).
  apply fmap_Some in Hl as (q' & Hq' & ->). simpl in *. apply (to_key _ Htab) in Hq' as Hkey. rewrite Hc in Hkey. subst c.
  rewrite Hq in Hq'. injection Hq' as <-. by apply withdrawn_state.
Qed.
End wake.

(** ** Proposals *)

Lemma classify_uncertain r want prior s :
  ComponentRecord.State r ∈ [StateUnknown; StateConflict; StateStale] ->
  proposalClass (classify r want prior s).1 = Some ProposalObserve.
Proof.
  unfold classify, in_state. intros Hs. rewrite !elem_of_cons in Hs.
  destruct Hs as [Hs|[Hs|[Hs|Hs]]]; [..|by apply not_elem_of_nil in Hs]; rewrite Hs; reflexivity.
Qed.

(** A pin only ever says that something is missing or differs. *)
Lemma pinMismatch_class r e c : pinMismatch r e = Some c -> c.1 = ClassMissing \/ c.1 = ClassDivergent.
Proof.
  assert (forall pin n d, below pin n = Some d -> d.1 = ClassMissing \/ d.1 = ClassDivergent) as Hb.
  { unfold below. intros [least|] [n|] d; try done. repeat case_match; intros [= <-]; [by left|by right]. }
  unfold pinMismatch. do 4 (destruct (differs _ _ _); [intros [= <-]; by right|]).
  destruct (below (Expectation.MinInstalledRoutes e) _) eqn:H1; [intros [= <-]; by eapply Hb|].
  destruct (below (Expectation.MinReadyTransports e) _) eqn:H2; [intros [= <-]; by eapply Hb|]. apply Hb.
Qed.

Lemma classify_withdraw r want prior s : proposalClass (classify r want prior s).1 = Some ProposalWithdraw ->
  establishedUnderEarlierPolicy r prior s = false /\
  (DesiredComponent.Managed want = false \/ Expectation.Lifecycle (DesiredComponent.Expect want) = LifecycleNotApplicable).
Proof.
  unfold classify. do 3 (destruct (in_state _ r); [done|]).
  destruct (DesiredComponent.Managed want) eqn:Hm; cbn [negb].
  - destruct (String.eqb _ LifecycleNotApplicable) eqn:Hl.
    + apply String.eqb_eq in Hl. destruct (in_state _ r); [done|]. destruct (establishedUnderEarlierPolicy r prior s); [done|].
      intros _. split; [done|by right].
    + destruct (in_state StateFailed r); [by destruct (absent r)|]. do 2 (destruct (in_state _ r); [done|]).
      destruct (pinMismatch _ _) as [c|] eqn:Hp; [|done]. by apply pinMismatch_class in Hp as [->| ->].
  - destruct (in_state _ r); [done|]. destruct (establishedUnderEarlierPolicy r prior s); [done|]. intros _. split; [done|by left].
Qed.

Lemma Compare_entries s desired prior e : e ∈ Diff.Components (Compare s desired prior) ->
  Diff.Authorized (Compare s desired prior) = true ->
  exists r want, r ∈ Snapshot.Components s /\ ComponentDiff.Component e = ComponentRecord.Component r /\
    ComponentDiff.Domain e = ComponentRecord.Domain r /\ ComponentDiff.Classification e = (classify r want prior s).1.
Proof.
  unfold Compare. simpl. intros He Ha. rewrite Ha in He. apply list_elem_of_In, in_map_iff in He as (r & <- & Hr%list_elem_of_In).
  set (want := default _ _). exists r, want. cbn [negb]. by destruct (classify r want prior s).
Qed.

Section proposals.
Context `{JSON} `{!Codec semantic.t, !Codec Diff.t, !Codec Proposal.t}.

Lemma propose_entries_elem s d entries ps p : propose_entries s d entries = Ok ps -> p ∈ ps ->
  exists e class, e ∈ entries /\ proposalClass (ComponentDiff.Classification e) = Some class /\ propose_entry s d class e = Ok p.
Proof.
  revert ps. induction entries as [|e entries IH]; intros ps; simpl; [intros [= <-] Hp; by apply not_elem_of_nil in Hp|].
  destruct (proposalClass _) as [class|] eqn:Hc.
  - intros (q & Hq & (qs & Hqs & [= <-])%bind_Ok)%bind_Ok [->|Hp]%elem_of_cons.
    + exists e, class. split; [apply list_elem_of_here|done].
    + destruct (IH qs Hqs Hp) as (e' & class' & Hin & Hrest). exists e', class'. split; [by apply list_elem_of_further|done].
  - intros Hqs Hp. destruct (IH ps Hqs Hp) as (e' & class' & Hin & Hrest). exists e', class'. split; [by apply list_elem_of_further|done].
Qed.

Lemma propose_entry_current s d class e p : propose_entry s d class e = Ok p ->
  VerifyCurrent p s d = Ok tt /\ Proposal.Class p = class /\ Proposal.Target p = ComponentDiff.Component e /\
  Proposal.Domain p = ComponentDiff.Domain e.
Proof.
  unfold propose_entry. destruct (CanonicalSHA256 _) as [[digest ?]|]; [|done]. intros ([] & Hv & [= <-])%bind_Ok.
  split; [|done]. unfold VerifyCurrent. rewrite Hv. simpl. by rewrite !Z.eqb_refl, String.eqb_refl.
Qed.

(** Every proposal of a reduction passes [VerifyCurrent] against the snapshot and the
    diff it comes with, and exists only under an authorized policy. Its target is a
    component of the snapshot: it asks for an observation when the state is uncertain,
    and never for the withdrawal of what an earlier policy had established. *)
Theorem proposals_describe_the_snapshot i o p :
  Reduce i = Ok o -> p ∈ Output.Proposals o ->
  Snapshot.Authorization (Output.Snapshot o) = AuthorizationAuthorized /\
  (exists digest, Diff_Digest (Output.Diff o) = Ok digest /\ VerifyCurrent p (Output.Snapshot o) digest = Ok tt) /\
  exists r, r ∈ Snapshot.Components (Output.Snapshot o) /\ ComponentRecord.Component r = Proposal.Target p /\
    ComponentRecord.Domain r = Proposal.Domain p /\
    (ComponentRecord.State r ∈ [StateUnknown; StateConflict; StateStale] -> Proposal.Class p = ProposalObserve) /\
    (Proposal.Class p = ProposalWithdraw ->
       establishedUnderEarlierPolicy r (Input.Prior i) (Output.Snapshot o) = false).
Proof.
  intros (st & [])%Reduce_reduced Hp. unfold Propose in rd_proposals0.
  destruct (Diff.Authorized (Output.Diff o)) eqn:Ha; cbn [negb] in rd_proposals0.
  2:{ injection rd_proposals0 as Hn. rewrite <- Hn in Hp. by apply not_elem_of_nil in Hp. }
  apply bind_Ok in rd_proposals0 as (digest & Hd & Hps).
  destruct (propose_entries_elem _ _ _ _ _ Hps Hp) as (e & class & He & Hc & Hpe).
  apply propose_entry_current in Hpe as (Hv & Hcl & Ht & Hdm).
  rewrite rd_diff0 in He, Ha. split; [|split; [by exists digest|]].
  - unfold Compare in Ha. simpl in Ha. apply andb_true_iff in Ha as [Ha _]. by apply String.eqb_eq.
  - destruct (Compare_entries _ _ _ _ He Ha) as (r & want & Hr & Hrc & Hrd & Hcls). exists r.
    rewrite Hcls in Hc. split_and!; [done|congruence|congruence| |].
    + intros Hs. apply (classify_uncertain r want (Input.Prior i) (Output.Snapshot o)) in Hs. congruence.
    + intros Hw. apply (classify_withdraw r want). congruence.
Qed.
End proposals.

(** ** The acceptor and the reducer *)

(** The watermark of a snapshot says what the acceptor holds about the source; the order
    of the holes and of the components owed is the renderer's. *)
Record agree (id : SourceID) (s : SourceState.t) (w : SourceWatermark.t) : Prop := {
  ag_source : SourceWatermark.Source w = id;
  ag_boot : SourceWatermark.BootID w = SourceState.BootID s;
  ag_last : SourceWatermark.LastSequence w = SourceState.LastSequence s;
  ag_gaps : SourceWatermark.Gaps w ≡ₚ SourceState.Gaps s;
  ag_overflow : SourceWatermark.GapOverflow w = SourceState.GapOverflow s;
  ag_pending : SourceWatermark.PendingBaseline w ≡ₚ SourceState.PendingBaseline s;
  ag_conflicts : SourceWatermark.Conflicts w = SourceState.Conflicts s;
  ag_recent : SourceWatermark.Recent w = SourceState.Recent s
}.

Definition agree_opt (id : SourceID) (s : option SourceState.t) (w : option SourceWatermark.t) : Prop :=
  match s, w with Some s, Some w => agree id s w | None, None => True | _, _ => False end.

Definition sources_agree (states : gmap SourceID SourceState.t) (table : gmap SourceID SourceWatermark.t) : Prop :=
  forall id, agree_opt id (states !! id) (table !! id).

Record follows (st : State) (fo : Fold.t) : Prop := {
  fl_fold : Fold.folded fo = FoldPosition st;
  fl_host : Fold.consumed fo = HostSequence st;
  fl_sources : sources_agree (Sources st) (Fold.sources fo)
}.

(** What a decision does to the acceptor, and what it tells the reducer. *)
Inductive told (st : State) (f : Fact.t) (st' : State) (a : Acceptance.t) : Prop :=
| told_accepted s' : Acceptance.Outcome a = OutcomeAccepted -> HostSequence st' = u64 (HostSequence st + 1) ->
    Acceptance.HostSequence a = HostSequence st' -> Sources st' = <[Fact.SourceID f := s']> (Sources st) ->
    Acceptance.Source a = integrityOf s' -> told st f st' a
| told_conflict s' : Acceptance.Outcome a = OutcomeConflict -> HostSequence st' = HostSequence st ->
    Sources st' = <[Fact.SourceID f := s']> (Sources st) -> Acceptance.Source a = integrityOf s' -> told st f st' a
| told_nothing : Acceptance.Outcome a = OutcomeDuplicate \/ Acceptance.Outcome a = OutcomeStale ->
    HostSequence st' = HostSequence st -> Sources st' = Sources st -> told st f st' a.

Lemma admit_tells host s f digest role host' s' a : admit_fact host s f digest role = (host', s', a) ->
  Acceptance.Outcome a = OutcomeAccepted /\ host' = u64 (host + 1) /\ Acceptance.HostSequence a = host' /\
  Acceptance.Source a = integrityOf s'.
Proof. unfold admit_fact. destruct (open_gap s f), (settle _ _ _) as [[? ?] ?]. by intros [= <- <- <-]. Qed.

Lemma decide_arrival_tells st f digest role st' a : in_order f -> decide_arrival st f digest role = (st', a) ->
  told st f st' a /\ FoldPosition st' = u64 (FoldPosition st + 1) /\ Acceptance.FoldPosition a = FoldPosition st'.
Proof.
  intros [_ Hq _]. unfold decide_arrival. set (s := default _ _).
  destruct (negb _).
  - destruct (admit_fact _ _ _ _ _) as [[host s'] b] eqn:Ha. apply admit_tells in Ha as (H1 & H2 & H3 & H4). intros [= <- <-].
    split; [|done]. by eapply told_accepted.
  - destruct (SourceState.LastSequence s <? Fact.SourceSequence f) eqn:Hl.
    + destruct (admit_fact _ _ _ _ _) as [[host s'] b] eqn:Ha. apply admit_tells in Ha as (H1 & H2 & H3 & H4). intros [= <- <-].
      split; [|done]. by eapply told_accepted.
    + destruct (Sources st !! Fact.SourceID f) as [s0|] eqn:Hs; [|bool_prop; simpl in Hl; lia].
      unfold replay. destruct (List.find _ _) as [e|].
      * destruct (String.eqb _ digest); intros [= <- <-]; (split; [|done]).
        -- apply told_nothing; [by left|done|]. simpl. by apply insert_id.
        -- by eapply told_conflict.
      * intros [= <- <-]. split; [|done]. apply told_nothing; [by right|done|]. simpl. by apply insert_id.
Qed.

Lemma adopted_agrees w e s' : SourceWatermark.Source w = Fact.SourceID (Event.Fact e) ->
  Acceptance.Source (Event.Acceptance e) = integrityOf s' -> agree (Fact.SourceID (Event.Fact e)) s' (adoptIntegrity w e).
Proof. intros Hw Hs. unfold adoptIntegrity. rewrite Hs. by split. Qed.

Lemma watermarkFor_source states table e : sources_agree states table ->
  SourceWatermark.Source (watermarkFor table e) = Fact.SourceID (Event.Fact e).
Proof.
  intros Ha. specialize (Ha (Fact.SourceID (Event.Fact e))). unfold watermarkFor.
  destruct (table !! _); [|done]. destruct (states !! _); [by destruct Ha|done].
Qed.

Lemma sources_agree_insert states table id s w : sources_agree states table -> agree id s w ->
  sources_agree (<[id := s]> states) (<[id := w]> table).
Proof.
  intros Ha Hw k. destruct (decide (k = id)) as [->|Hne]; [by rewrite !lookup_insert_eq|].
  rewrite !lookup_insert_ne by done. apply Ha.
Qed.

Lemma fold_event_follows st fo f st' a : follows st fo -> told st f st' a ->
  FoldPosition st' = u64 (FoldPosition st + 1) -> Acceptance.FoldPosition a = FoldPosition st' ->
  exists fo', fold_event fo (Event.mk a f) = Ok fo' /\ follows st' fo'.
Proof.
  intros [Hf Hh Hs] Ht Hfp Hfa. unfold fold_event. simpl. rewrite Hf, Hfa, Hfp, Z.eqb_refl. cbn [negb].
  pose proof (watermarkFor_source _ _ (Event.mk a f) Hs) as Hw.
  destruct Ht as [s' Ho Hh' Ha Hm Hi|s' Ho Hh' Hm Hi|Ho Hh' Hm].
  - rewrite Ho, Hh, Ha, Hh', Z.eqb_refl. simpl. eexists. split; [reflexivity|]. split; simpl; [done..|].
    rewrite Hm. apply sources_agree_insert; [done|]. by apply (adopted_agrees _ (Event.mk a f)).
  - rewrite Ho. simpl. eexists. split; [reflexivity|]. split; simpl; [done|congruence|].
    rewrite Hm. apply sources_agree_insert; [done|]. by apply (adopted_agrees _ (Event.mk a f)).
  - eexists. split; [destruct Ho as [-> | ->]; reflexivity|]. split; simpl; [done|congruence|by rewrite Hm].
Qed.

(** ** Rendered tables *)

Definition keyed (t : gmap SourceID SourceWatermark.t) : Prop := forall id w, t !! id = Some w -> SourceWatermark.Source w = id.

Lemma elem_of_values {K V} `{Countable K} (m : gmap K V) v : v ∈ (map_to_list m).*2 <-> exists k, m !! k = Some v.
Proof.
  rewrite list_elem_of_fmap. split.
  - intros ([k x] & -> & Hin%elem_of_map_to_list). by exists k.
  - intros [k Hk]. exists (k, v). split; [done|]. by apply elem_of_map_to_list.
Qed.

Lemma elem_of_renderSources t w : w ∈ renderSources t <-> exists id v, t !! id = Some v /\ w = render_watermark v.
Proof.
  unfold renderSources, render_watermarks. rewrite elem_of_sort_slice, list_elem_of_In, in_map_iff. split.
  - intros (v & <- & [id Hv]%list_elem_of_In%elem_of_values). by exists id, v.
  - intros (id & v & Hv & ->). exists v. split; [done|]. apply list_elem_of_In, elem_of_values. by exists id.
Qed.

Lemma map_key_values (l : list (SourceID * SourceWatermark.t)) : (forall p, p ∈ l -> SourceWatermark.Source p.2 = p.1) ->
  map SourceWatermark.Source l.*2 = l.*1.
Proof. induction l as [|p l IH]; intros Hk; simpl; [done|]. rewrite Hk by set_solver. f_equal. apply IH. set_solver. Qed.

Lemma renderSources_NoDup t : keyed t -> NoDup (map SourceWatermark.Source (renderSources t)).
Proof.
  intros Hk. unfold renderSources, render_watermarks.
  match goal with |- NoDup (map _ (sort_slice ?less ?l)) => change (NoDup (SourceWatermark.Source <$> sort_slice less l)) end.
  rewrite sort_slice_perm. change (NoDup (SourceWatermark.Source <$> (render_watermark <$> (map_to_list t).*2))). rewrite <- list_fmap_compose.
  change (NoDup (map SourceWatermark.Source (map_to_list t).*2)). rewrite map_key_values.
  - apply NoDup_fst_map_to_list.
  - intros [id w] Hin%elem_of_map_to_list. by apply Hk.
Qed.

Lemma restored_table t id : keyed t ->
  fold_left (fun t w => <[SourceWatermark.Source w := w]> t) (renderSources t) (∅ : gmap SourceID SourceWatermark.t) !! id =
  render_watermark <$> t !! id.
Proof.
  intros Hk. destruct (t !! id) as [w|] eqn:Hw; simpl.
  - pose proof (Hk _ _ Hw) as Hid.
    pose proof (fill_table SourceWatermark.Source (renderSources t) ∅ (render_watermark w) (renderSources_NoDup t Hk)) as Hf.
    simpl in Hf. rewrite Hid in Hf. apply Hf. apply elem_of_renderSources. by exists id, w.
  - destruct (fold_left _ _ _ !! id) as [x|] eqn:Hx; [|done].
    apply fill_table_inv in Hx as [[(k & v & Hv & ->)%elem_of_renderSources Hid]|Hx]; [|by rewrite lookup_empty in Hx].
    simpl in Hid. rewrite (Hk _ _ Hv) in Hid. congruence.
Qed.

Lemma agree_rendered id s w : agree id s w -> agree id s (render_watermark w).
Proof. intros []. split; simpl; [done..| |done| |done|done]; unfold sort_strings; by rewrite sort_slice_perm. Qed.

Lemma sources_agree_keyed states t : sources_agree states t -> keyed t.
Proof. intros Ha id w Hw. specialize (Ha id). rewrite Hw in Ha. destruct (states !! id); [by destruct Ha|done]. Qed.

Lemma sources_agree_restored states t : sources_agree states t ->
  sources_agree states (fold_left (fun t w => <[SourceWatermark.Source w := w]> t) (renderSources t) ∅).
Proof.
  intros Ha id. rewrite restored_table by (by eapply sources_agree_keyed). specialize (Ha id).
  destruct (states !! id), (t !! id); simpl in *; [by apply agree_rendered|done..].
Qed.

(** The watermarks of a state that the acceptor reached are within the snapshot's bounds. *)
Lemma agree_valid id s w h : src_inv id h s -> agree id s w -> watermark_valid w = true.
Proof.
  intros [[Hl [Hd Hp] Ho _ _ _] _] []. unfold watermark_valid, watermark_awaits.
  apply Permutation_length in ag_gaps0 as Hg. apply Permutation_length in ag_pending0 as Hpl. rewrite Hg, Hpl, ag_source0.
  rewrite !andb_true_iff, !negb_true_iff, !Z.ltb_ge. split_and!; [done| |].
  - destruct (SourceState.Gaps s) as [|g l]; [done|]. rewrite andb_true_l. destruct (SourceState.PendingBaseline s); [by exfalso; apply Ho|done].
  - rewrite Forall_forall in Hp. apply Nat2Z.inj_le, submseteq_length, NoDup_submseteq; done.
Qed.

Lemma rendered_sources_valid states t log : sources_agree states t ->
  (forall id, match states !! id with Some s => src_inv id (stream_of id log) s | None => stream_of id log = no_stream end) ->
  forallb watermark_valid (renderSources t) = true.
Proof.
  intros Ha Hi. apply forallb_forall. intros w (id & v & Hv & ->)%list_elem_of_In%elem_of_renderSources.
  specialize (Ha id). specialize (Hi id). rewrite Hv in Ha. destruct (states !! id) as [s|]; [|done].
  eapply agree_valid; [done|by apply agree_rendered].
Qed.

(** At most eight refusals of a source are rendered. *)
Lemma aged_source walk source c : c ∈ aged walk source -> ConflictRecord.Source c = source.
Proof.
  unfold aged. rewrite elem_of_sort_slice, list_elem_of_In, filter_In. intros [_ Hc]. by apply String.eqb_eq.
Qed.

Lemma filter_kept walk source sources : NoDup sources ->
  len (List.filter (of_source source) (concat (map (keep_last MaxConflictRecords) (map (aged walk) sources)))) <= MaxConflictRecords.
Proof.
  assert (forall l, source ∉ l ->
    List.filter (of_source source) (concat (map (keep_last MaxConflictRecords) (map (aged walk) l))) = []) as Hnone.
  { induction l as [|s l IH]; intros Hn; simpl; [done|]. apply not_elem_of_cons in Hn as [Hne Hn]. rewrite List.filter_app, IH, app_nil_r by done.
    clear IH. destruct (List.filter _ _) as [|c k] eqn:Hf; [done|]. exfalso. assert (In c (c :: k)) as Hin by (by left). rewrite <- Hf in Hin.
    apply filter_In in Hin as [Hin Hc%String.eqb_eq]. destruct (keep_last_suffix MaxConflictRecords (aged walk s)) as [p Hp].
    assert (c ∈ aged walk s) as Ha by (rewrite Hp, elem_of_app; right; by apply list_elem_of_In).
    apply aged_source in Ha. congruence. }
  induction sources as [|s l IH]; intros Hd; simpl; [done|]. apply NoDup_cons in Hd as [Hn Hd]. rewrite List.filter_app, length_app.
  destruct (decide (s = source)) as [->|Hne]; [rewrite (Hnone l) by done; simpl|].
  - pose proof (keep_last_le MaxConflictRecords (aged walk source) ltac:(done)).
    pose proof (List.filter_length_le (of_source source) (keep_last MaxConflictRecords (aged walk source))). lia.
  - specialize (Hnone [s]). simpl in Hnone. rewrite app_nil_r in Hnone. rewrite Hnone by set_solver. simpl. by apply IH.
Qed.

Lemma renderConflicts_bounded conflicts : conflicts_bounded (renderConflicts conflicts).1 = true.
Proof.
  unfold conflicts_bounded, renderConflicts, render_conflicts. simpl. apply forallb_forall. intros c _. apply negb_true_iff, Z.ltb_ge.
  set (walk := (map_to_list conflicts).*2). set (kept := concat _).
  assert (List.filter (of_source (ConflictRecord.Source c)) (sort_slice by_place kept) ≡ₚ
          List.filter (of_source (ConflictRecord.Source c)) kept) as Hp%Permutation_length.
  { apply filter_perm, sort_slice_perm. }
  rewrite Hp. apply filter_kept, NoDup_remove_dups.
Qed.

Lemma deriveState_valid r i : ComponentState_Valid (deriveState r i) = true.
Proof. unfold deriveState. by repeat case_match. Qed.

Lemma rendered_components_ok t sources i : table_ok t ->
  components_in_order (renderComponents t sources i) = true /\
  existsb (fun r => MaxCorroborations <? len (ComponentRecord.Corroborations r)) (renderComponents t sources i) = false.
Proof.
  intros [Hk Ha He]. unfold components_in_order, renderComponents.
  assert (forall r, r ∈ omap (fun c => render_component sources i <$> t !! c) Components -> exists c q, t !! c = Some q /\ r = render_component sources i q) as Hin.
  { intros r (c & _ & (q & Hq & ->)%fmap_Some)%list_elem_of_omap. by exists c, q. }
  split; [apply andb_true_iff; split|].
  - apply bool_decide_eq_true. assert (forall l, (forall c, c ∈ l -> c ∈ Components) ->
      map ComponentRecord.Component (omap (fun c => render_component sources i <$> t !! c) l) = l) as Hmap; [|by apply Hmap].
    induction l as [|c l IH]; intros Hl; [done|]. destruct (Ha c) as [q Hq]; [apply Hl, list_elem_of_here|].
    cbn [omap list_omap]. rewrite Hq. simpl. rewrite (Hk _ _ Hq). f_equal. apply IH. intros d Hd. apply Hl. by apply list_elem_of_further.
  - apply forallb_forall. intros r (c & q & _ & ->)%list_elem_of_In%Hin. apply deriveState_valid.
  - apply Bool.not_true_iff_false. rewrite existsb_exists. intros (r & (c & q & Hq & ->)%list_elem_of_In%Hin & Hlt%Z.ltb_lt).
    simpl in Hlt. unfold sortedCorroborations in Hlt. rewrite length_sort_slice in Hlt. specialize (He _ _ Hq). lia.
Qed.

Lemma authorize_consistent d prior :
  authorize d prior = (AuthorizationAuthorized, AuthorizationReasonNone) \/
  exists reason, authorize d prior = (AuthorizationUnauthorized, reason) /\ reason <> AuthorizationReasonNone.
Proof. unfold authorize. repeat case_match; first [by left|right; by eexists]. Qed.

(** The rendered snapshot is one that the reducer accepts back. *)
Lemma rendered_valid i fo g log states : table_ok (Fold.components fo) -> sources_agree states (Fold.sources fo) ->
  (forall id, match states !! id with Some s => src_inv id (stream_of id log) s | None => stream_of id log = no_stream end) ->
  g <> 0 -> Snapshot_Validate (render i fo g) = Ok tt.
Proof.
  intros Ht Ha Hi Hg. destruct (rendered_components_ok (Fold.components fo) (Fold.sources fo) i Ht) as [Hc He].
  pose proof (rendered_sources_valid _ _ _ Ha Hi) as Hw. pose proof (renderConflicts_bounded (Fold.conflicts fo)) as Hb.
  unfold render. destruct (renderConflicts _) as [records overflow]. simpl in Hb.
  apply Z.eqb_neq in Hg.
  destruct (authorize_consistent (Input.Policy i) (Input.Prior i)) as [->|(reason & -> & Hr%String.eqb_neq)];
    unfold Snapshot_Validate; cbn [Snapshot.Schema Snapshot.Version Snapshot.ReducerID Snapshot.ReducerVersion Snapshot.Generation
      Snapshot.Components Snapshot.Conflicts Snapshot.Sources Snapshot.Authorization Snapshot.Reason];
    rewrite !String.eqb_refl, !Z.eqb_refl, Hg, Hc, Hb, Hw, He; [done|]. rewrite Hr. done.
Qed.

(** ** Batch after batch *)

Section composition.
Context `{JSON} `{!Codec Fact.t, !Codec semantic.t, !Codec Diff.t, !Codec Proposal.t}.

(** The decisions that the acceptor hands to the reducer, for a list of arrivals. *)
Fixpoint hand_over (st : State) (arrivals : list (Fact.t * Domain)) : State * list Event.t :=
  match arrivals with
  | [] => (st, [])
  | (f, domain) :: rest =>
      match Accept st f domain with
      | (st', a, None) => let '(st'', events) := hand_over st' rest in (st'', Event.mk a f :: events)
      | (st', _, Some _) => hand_over st' rest
      end
  end.

Definition in_width (arrivals : list (Fact.t * Domain)) : bool :=
  forallb (fun x => (0 <=? Fact.SourceSequence x.1) && (Fact.SourceSequence x.1 <=? max_u64)) arrivals.

Definition event_refused (e : Event.t) : bool :=
  negb (is_ok (Validate (Event.Fact e))) || String.eqb (Acceptance.Outcome (Event.Acceptance e)) OutcomeRejected.

Lemma told_not_rejected st f st' a : told st f st' a -> String.eqb (Acceptance.Outcome a) OutcomeRejected = false.
Proof. intros [s' -> |s' -> |[-> | ->]]; reflexivity. Qed.

Lemma hand_over_follows st log arrivals fo : reach st log -> in_width arrivals = true -> follows st fo ->
  exists fo' log', fold_events fo (hand_over st arrivals).2 = Ok fo' /\ follows (hand_over st arrivals).1 fo' /\
    reach (hand_over st arrivals).1 log' /\ existsb event_refused (hand_over st arrivals).2 = false.
Proof.
  revert st log fo. induction arrivals as [|[f domain] rest IH]; intros st log fo Hr; simpl; [by exists fo, log|].
  intros [Hs Hw]%andb_true_iff Hf. destruct (Accept st f domain) as [[st1 a] [e|]] eqn:Ha.
  - apply (IH st1 log); [by eapply reach_reject|done|]. apply Accept_rejects in Ha as ->. done.
  - assert (0 <= Fact.SourceSequence f <= max_u64) as Hb by (bool_prop; lia).
    assert (is_ok (Validate f) = true) as Hv by (clear -Ha; unfold Accept in Ha; by destruct (Validate f)).
    pose proof (reach_accept _ _ _ _ _ _ Hr Hb Ha) as Hr1.
    apply Accept_decides in Ha as (digest & role & _ & Hio & Hd); [|done].
    apply decide_arrival_tells in Hd as (Ht & Hp & Hpa); [|done].
    destruct (fold_event_follows st fo f st1 a Hf Ht Hp Hpa) as (fo1 & Hfo1 & Hf1).
    destruct (IH st1 _ fo1 Hr1 Hw Hf1) as (fo' & log' & H1 & H2 & H3 & H4).
    destruct (hand_over st1 rest) as [st2 events]. simpl in *. exists fo', log'. rewrite Hfo1. simpl.
    split_and!; [done..|]. unfold event_refused at 1. simpl. by rewrite Hv, (told_not_rejected _ _ _ _ Ht).
Qed.

(** A snapshot that states the position of the acceptor. *)
Definition snapshot_of (st : State) (p : Snapshot.t) : Prop :=
  Snapshot.ConsumedFoldPosition p = FoldPosition st /\ Snapshot.ConsumedHostSequence p = HostSequence st /\
  sources_agree (Sources st) (newSourceTable (Some p)).

(** The input continues from where the acceptor stands. *)
Definition continues (st : State) (i : Input.t) : Prop :=
  match Input.Prior i with
  | Some p => snapshot_of st p
  | None => st = New /\ Input.PriorFolded i = 0 /\ Input.PriorConsumed i = 0
  end.

Definition with_events (i : Input.t) (events : list Event.t) : Input.t :=
  Input.mk (Input.Prior i) events (Input.Policy i) (Input.PolicyComponents i) (Input.BootID i) (Input.PriorFolded i)
    (Input.PriorConsumed i) (Input.EvaluationTick i) (Input.Wake i).

Lemma start_follows st i : continues st i -> follows st (start i).
Proof.
  unfold continues, start. destruct (Input.Prior i) as [p|].
  - intros (H1 & H2 & H3). by split.
  - intros (-> & H1 & H2). split; [done..|]. intros id. simpl. by rewrite !lookup_empty.
Qed.

Lemma validate_with_events i events : validateInput (with_events i []) = Ok tt -> existsb event_refused events = false ->
  validateInput (with_events i events) = Ok tt.
Proof.
  unfold validateInput. cbn [with_events Input.Prior Input.BootID Input.EvaluationTick Input.Wake Input.Events Input.PriorConsumed Input.PriorFolded].
  intros Hv He. repeat (destruct (_ : bool) in Hv |- *; [discriminate Hv|]). unfold event_refused in He. by rewrite He.
Qed.

Lemma render_snapshot_of i fo st g : follows st fo -> snapshot_of st (render i fo g).
Proof.
  intros [Hf Hh Hs]. unfold snapshot_of, render. destruct (renderConflicts _), (authorize _ _). simpl.
  split_and!; [done..|]. by apply sources_agree_restored.
Qed.

(** C13: The reducer follows the acceptor, batch after batch: from an input that continues
    at the acceptor's position, the decisions on any arrivals fold without an order or
    bound being violated, the snapshot they leave is valid at any generation, and it
    states the acceptor's new position and the integrity of every source, so the next
    batch continues from it. *)
Theorem reducer_follows_acceptor i st log arrivals :
  reach st log -> in_width arrivals = true -> continues st i -> validateInput (with_events i []) = Ok tt ->
  let i' := with_events i (hand_over st arrivals).2 in
  let st' := (hand_over st arrivals).1 in
  (exists fo, fold_events (start i') (Input.Events i') = Ok fo /\
     forall g, g <> 0 -> Snapshot_Validate (render i' fo g) = Ok tt /\ snapshot_of st' (render i' fo g)) /\
  (forall o, Reduce i' = Ok o -> snapshot_of st' (Output.Snapshot o)).
Proof.
  intros Hr Hw Hc Hv i' st'. pose proof (start_follows st i' Hc) as Hs.
  destruct (hand_over_follows st log arrivals (start i') Hr Hw Hs) as (fo & log' & Hfo & Hfl & Hr' & He).
  pose proof (validate_with_events i _ Hv He) as Hv'. split.
  - exists fo. split; [done|]. intros g Hg. split; [|by apply render_snapshot_of].
    eapply (rendered_valid i' fo g log' (Sources st')); [| |apply si_sources; by apply reach_inv|done].
    + eapply fold_events_table_ok; [exact Hfo|]. by apply start_table_ok.
    + by destruct Hfl.
  - intros o (fo2 & [])%Reduce_reduced. change (Input.Events i') with ((hand_over st arrivals).2) in rd_fold0.
    rewrite Hfo in rd_fold0. injection rd_fold0 as <-. rewrite rd_snapshot0.
    by apply render_snapshot_of.
Qed.
End composition.

(** ** The order in which a map is walked *)

Lemma not_after_by_age x y : not_after by_age x y <->
  lexicographic ConflictRecord.Sequence Z.le
    (fun a b => not_after String.ltb (ConflictRecord.Component a) (ConflictRecord.Component b)) x y.
Proof.
  unfold not_after, by_age, lexicographic. destruct (_ =? _) eqn:He; simpl; bool_prop; [naive_solver|].
  rewrite Z.ltb_ge. naive_solver.
Qed.

Lemma not_after_by_place x y : not_after by_place x y <->
  lexicographic ConflictRecord.Source (not_after String.ltb)
    (lexicographic ConflictRecord.Component (not_after String.ltb)
      (fun a b => ConflictRecord.Sequence a <= ConflictRecord.Sequence b)) x y.
Proof.
  unfold not_after, by_place, lexicographic. destruct (String.eqb (ConflictRecord.Source y) _) eqn:Hs; simpl; bool_prop; [|naive_solver].
  destruct (String.eqb (ConflictRecord.Component y) _) eqn:Hc; simpl; bool_prop; [rewrite Z.ltb_ge|]; naive_solver.
Qed.

Lemma by_age_orders : Transitive (not_after by_age) /\ Total (not_after by_age) /\
  forall x y, not_after by_age x y -> not_after by_age y x ->
    ConflictRecord.Sequence x = ConflictRecord.Sequence y /\ ConflictRecord.Component x = ConflictRecord.Component y.
Proof.
  split_and!.
  - intros x y z. rewrite !not_after_by_age. apply lexicographic_transitive; [apply _..|]. intros a b c. apply (transitivity (R:=not_after String.ltb)).
  - intros x y. rewrite !not_after_by_age. apply lexicographic_total; [apply _..|]. intros a b. apply (total (not_after String.ltb)).
  - intros x y. rewrite !not_after_by_age. intros H1 H2. destruct (lexicographic_both _ _ _ x y H1 H2) as (Hs & Hc1 & Hc2).
    split; [done|]. by apply (anti_symm (not_after String.ltb)).
Qed.

Lemma by_place_orders : Transitive (not_after by_place) /\ Total (not_after by_place) /\
  forall x y, not_after by_place x y -> not_after by_place y x -> key_of x = key_of y.
Proof.
  split_and!.
  - intros x y z. rewrite !not_after_by_place. do 2 (apply lexicographic_transitive; [apply _..|]). intros a b c. lia.
  - intros x y. rewrite !not_after_by_place. do 2 (apply lexicographic_total; [apply _..|]). intros a b. lia.
  - intros x y. rewrite !not_after_by_place. intros H1 H2. destruct (lexicographic_both _ _ _ x y H1 H2) as (Hs & Hr1 & Hr2).
    destruct (lexicographic_both _ _ _ x y Hr1 Hr2) as (Hc & Hq1 & Hq2). unfold key_of. rewrite Hs, Hc. f_equal. lia.
Qed.

Lemma same_key l x y : NoDup (map key_of l) -> x ∈ l -> y ∈ l -> key_of x = key_of y -> x = y.
Proof.
  intros Hn Hx Hy He. pose proof (fill_table key_of l ∅ x Hn Hx) as H1. pose proof (fill_table key_of l ∅ y Hn Hy) as H2.
  rewrite He in H1. congruence.
Qed.

Lemma aged_elem walk source c : c ∈ aged walk source <-> c ∈ walk /\ ConflictRecord.Source c = source.
Proof.
  unfold aged. rewrite elem_of_sort_slice, list_elem_of_In, filter_In, <- list_elem_of_In. unfold of_source. by rewrite String.eqb_eq.
Qed.

Lemma aged_determined walk walk' source : walk ≡ₚ walk' -> NoDup (map key_of walk) -> aged walk source = aged walk' source.
Proof.
  intros Hp Hn. destruct by_age_orders as (Ht & Hto & Ha). apply sort_slice_determined; [done..|by apply filter_perm|].
  intros x y Hx Hy H1 H2. destruct (Ha x y H1 H2) as [Hs Hc].
  apply list_elem_of_In, filter_In in Hx as [Hx%list_elem_of_In Hx'%String.eqb_eq].
  apply list_elem_of_In, filter_In in Hy as [Hy%list_elem_of_In Hy'%String.eqb_eq].
  apply (same_key walk); [done..|]. unfold key_of. congruence.
Qed.

Lemma existsb_perm {A} (p : A -> bool) l k : l ≡ₚ k -> existsb p l = existsb p k.
Proof.
  intros Hp. apply eq_true_iff_eq. rewrite !existsb_exists. setoid_rewrite <- list_elem_of_In. by setoid_rewrite Hp.
Qed.

Lemma concat_perm {A} (l k : list (list A)) : l ≡ₚ k -> concat l ≡ₚ concat k.
Proof.
  induction 1 as [|x l k _ IH|x y l|l k m _ IH1 _ IH2]; simpl; [done|by rewrite IH| |by etrans].
  by rewrite !(assoc_L (++)%list), (comm (++)%list x y).
Qed.

(** The refusals that a snapshot shows, and whether some were evicted, do not depend
    on the order in which the iteration over the conflict table meets them. *)
Theorem conflicts_rendered_deterministically walk walk' :
  walk ≡ₚ walk' -> NoDup (map key_of walk) -> render_conflicts walk = render_conflicts walk'.
Proof.
  intros Hp Hn. unfold render_conflicts.
  rewrite (map_ext (aged walk') (aged walk)) by (intros source; symmetry; by apply aged_determined).
  assert (remove_dups (map ConflictRecord.Source walk) ≡ₚ remove_dups (map ConflictRecord.Source walk')) as Hd.
  { apply NoDup_Permutation; [apply NoDup_remove_dups..|]. intros s. rewrite !elem_of_remove_dups.
    change (s ∈ (ConflictRecord.Source <$> walk) <-> s ∈ (ConflictRecord.Source <$> walk')). by rewrite Hp. }
  f_equal; [|by apply existsb_perm, Permutation_map].
  destruct by_place_orders as (Ht & Hto & Ha). apply sort_slice_determined; [done..| |].
  - by apply concat_perm, Permutation_map, Permutation_map.
  - assert (forall x, x ∈ concat (map (keep_last MaxConflictRecords) (map (aged walk) (remove_dups (map ConflictRecord.Source walk)))) -> x ∈ walk) as Hin.
    { intros x Hx%list_elem_of_In. apply in_concat in Hx as (l & Hl & Hx). apply in_map_iff in Hl as (g & <- & Hg).
      apply in_map_iff in Hg as (source & <- & _). destruct (keep_last_suffix MaxConflictRecords (aged walk source)) as [pre Hpre].
      apply (aged_elem walk source). rewrite Hpre, elem_of_app. right. by apply list_elem_of_In. }
    intros x y Hx%Hin Hy%Hin H1 H2. apply (same_key walk); [done..|]. by apply Ha.
Qed.

(** ** A host that observes, reduces, sleeps and wakes *)

Module AggregateSample.
Import SampleDigest AcceptSample.

Definition semantic_texts (s : semantic.t) : list string :=
  (semantic.BootID s :: semantic.Authorization s :: map semanticComponent.State (semantic.Components s))%list.
Definition diff_texts (d : Diff.t) : list string :=
  (number (Diff.SnapshotGeneration d) :: map ComponentDiff.Classification (Diff.Components d))%list.
Definition proposal_texts (p : Proposal.t) : list string :=
  [number (Proposal.SnapshotGeneration p); Proposal.Domain p; Proposal.Target p; Proposal.Class p; Proposal.Reason p; Proposal.DiffDigest p].

#[export] Instance semantic_codec : Codec semantic.t := texts_codec semantic_texts.
#[export] Instance diff_codec : Codec Diff.t := texts_codec diff_texts.
#[export] Instance proposal_codec : Codec Proposal.t := texts_codec proposal_texts.

Definition descriptor : PolicyDescriptor.t := PolicyDescriptor.mk true true false 7 7 7 "m".
Definition first : Input.t := Input.mk None [] descriptor [] "boot-a" 0 0 6 None.
Definition observed : list (Fact.t * Domain) := [(fact "boot-a" 3 true true, DomainRoot); (fact "boot-a" 5 false true, DomainRoot)].
Definition i1 : Input.t := with_events first (hand_over New observed).2.
Definition p1 : Snapshot.t := match Reduce i1 with Ok o => Output.Snapshot o | Err _ => render i1 (start i1) 0 end.

(** After the wake, only an observation that does not restate the link. *)
Definition i2 : Input.t :=
  with_events (Input.mk (Some p1) [] descriptor [] "boot-a" 0 0 7 (Some (Wake.mk 7)))
    (hand_over (hand_over New observed).1 [(fact "boot-a" 6 false true, DomainRoot)]).2.

Definition shown (s : Snapshot.t) : option (Component * ComponentState * Z) :=
  (fun r => (ComponentRecord.Component r, ComponentRecord.State r, ComponentRecord.HostSequence r)) <$> head (Snapshot.Components s).

Definition checked (r : result conn_error Output.t) (p : Output.t -> bool) : bool :=
  match r with Ok o => p o | Err _ => false end.

Lemma checked_spec r p : checked r p = true -> exists o, r = Ok o /\ p o = true.
Proof. destruct r as [o|]; [by exists o|done]. Qed.

Lemma first_reduces : checked (Reduce i1) (fun o =>
  (len (Snapshot.Sources (Output.Snapshot o)) =? 1) && (len (Output.Proposals o) =? 8) &&
  String.eqb (Summary.State (Snapshot.Summary (Output.Snapshot o))) AggregateDegraded) = true.
Proof. vm_compute. reflexivity. Qed.

Lemma first_shown : bool_decide (shown p1 = Some (ComponentPhysicalNetwork, StateReady, 2)) = true.
Proof. vm_compute. reflexivity. Qed.

Lemma second_reduces : checked (Reduce i2) (fun o =>
  bool_decide (shown (Output.Snapshot o) = Some (ComponentPhysicalNetwork, StateStale, 3))) = true.
Proof. vm_compute. reflexivity. Qed.

Lemma shown_elem s c state n : shown s = Some (c, state, n) ->
  exists r, r ∈ Snapshot.Components s /\ ComponentRecord.Component r = c /\ ComponentRecord.State r = state /\ ComponentRecord.HostSequence r = n.
Proof.
  unfold shown. destruct (Snapshot.Components s) as [|r l]; [done|]. simpl. intros [= <- <- <-]. exists r.
  split; [apply list_elem_of_here|done].
Qed.

Lemma summary_is_pessimistic_witness : exists o, Reduce i1 = Ok o /\
  (Summary.State (Snapshot.Summary (Output.Snapshot o)) = AggregateFailed <->
   exists r, r ∈ Snapshot.Components (Output.Snapshot o) /\ ComponentRecord.State r = StateFailed).
Proof.
  destruct (checked_spec _ _ first_reduces) as (o & Hr & Ho). exists o. split; [exact Hr|].
  refine (proj1 (summary_is_pessimistic i1 o Hr _)). bool_prop. lia.
Defined.

Lemma proposals_describe_the_snapshot_witness : exists o p, Reduce i1 = Ok o /\ p ∈ Output.Proposals o /\
  Snapshot.Authorization (Output.Snapshot o) = AuthorizationAuthorized.
Proof.
  destruct (checked_spec _ _ first_reduces) as (o & Hr & Ho).
  assert (exists p, p ∈ Output.Proposals o) as [p Hp].
  { bool_prop. destruct (Output.Proposals o) as [|p l]; [discriminate|]. exists p. apply list_elem_of_here. }
  exists o, p. split; [exact Hr|]. split; [exact Hp|]. exact (proj1 (proposals_describe_the_snapshot i1 o p Hr Hp)).
Defined.

Lemma no_restatement : forallb (fun e => negb (restates ComponentPhysicalNetwork e)) (Input.Events i2) = true.
Proof. vm_compute. reflexivity. Qed.

Lemma wake_withdraws_readiness_witness : exists r' o, Reduce i2 = Ok o /\ r' ∈ Snapshot.Components (Output.Snapshot o) /\
  ComponentRecord.Component r' = ComponentPhysicalNetwork /\
  ComponentRecord.State r' ∈ [StateUnknown; StateConflict; StateStale].
Proof.
  destruct (checked_spec _ _ second_reduces) as (o & Hr & Ho).
  destruct (shown_elem _ _ _ _ (bool_decide_eq_true_1 _ first_shown)) as (r & Hin & Hc & _ & Hh).
  destruct (shown_elem _ _ _ _ (bool_decide_eq_true_1 _ Ho)) as (r' & Hin' & Hc' & _).
  exists r', o. split; [exact Hr|]. split; [exact Hin'|]. split; [exact Hc'|].
  apply (wake_withdraws_readiness i2 o p1 r r' Hr eq_refl); [by left|exact Hin|by rewrite Hc|by rewrite Hh| |exact Hin'|by rewrite Hc, Hc'].
  rewrite Hc. exact no_restatement.
Defined.

Definition refusal (sequence : Z) (component : Component) : ConflictRecord.t :=
  ConflictRecord.mk "root.network" component sequence AcceptReasonIdentityReused 1.

Lemma conflicts_rendered_deterministically_witness :
  render_conflicts [refusal 4 ComponentDefaultPath; refusal 2 ComponentPhysicalNetwork] =
  render_conflicts [refusal 2 ComponentPhysicalNetwork; refusal 4 ComponentDefaultPath].
Proof.
  apply (conflicts_rendered_deterministically [refusal 4 ComponentDefaultPath; refusal 2 ComponentPhysicalNetwork]).
  - apply Permutation_swap.
  - apply NoDup_cons. split; [|apply NoDup_singleton]. intros Hin%list_elem_of_singleton. discriminate Hin.
Defined.

Lemma first_input : in_width observed = true /\ validateInput (with_events first []) = Ok tt.
Proof. vm_compute. split; reflexivity. Qed.

Lemma reducer_follows_acceptor_witness : exists fo, fold_events (start i1) (Input.Events i1) = Ok fo /\
  forall g, g <> 0 -> Snapshot_Validate (render i1 fo g) = Ok tt /\ snapshot_of (hand_over New observed).1 (render i1 fo g).
Proof.
  exact (proj1 (reducer_follows_acceptor first New [] observed reach_new (proj1 first_input) (conj eq_refl (conj eq_refl eq_refl))
    (proj2 first_input))).
Defined.
End AggregateSample.
