(* ===== verification/TunnelPlan.v ===== *)
(** * Decisions of a tunnel owner

    [internal/tunnelplan/planner.go]: what one cycle of observation decides about the
    tunnel, and the state it leaves for the next cycle. *)

From Stdlib Require Import ZArith Lia Ascii String.
From stdpp Require Import base strings list option sets gmap.
From S2P Require Import Prelude.

Open Scope string_scope.
Open Scope Z_scope.

Inductive tunnel_error := ErrInvalidPolicy | ErrInvalidInput.

Abbreviation Cause := string (only parsing).
Definition CauseProcessGone : Cause := "process_gone".
Definition CauseWakeGap : Cause := "wake_gap".
Definition CauseCarrierChanged : Cause := "carrier_changed".
Definition CauseLinkReturned : Cause := "link_returned".
Definition CausePayloadFailed : Cause := "payload_failed".
Definition CauseRoutesDrifted : Cause := "routes_drifted".

Abbreviation Action := string (only parsing).
Definition ActionNone : Action := "none".
Definition ActionRebuildTunnel : Action := "rebuild_tunnel".
Definition ActionReapplyRoutes : Action := "reapply_routes".

(** ** Signatures *)

Abbreviation Signature := string (only parsing).

Definition Entries (signature : Signature) : Z :=
  if String.eqb signature "" then 0
  else Z.of_nat (length (List.filter (Ascii.eqb " ") (chars signature))) + 1.

(** [sha256_hex] is the hexadecimal SHA-256 digest of a text. *)
Definition Digest (sha256_hex : string -> string) (signature : Signature) : string :=
  if String.eqb signature "" then "" else String.substring 0 12 (sha256_hex signature).

Module CarriedDestination.
Record t := mk { Destination : string; Interface : string }.
End CarriedDestination.

Definition NewSignature (carried : list CarriedDestination.t) : Signature :=
  String.concat " " (sort_strings
    (map (fun one => CarriedDestination.Destination one ++ "=" ++ CarriedDestination.Interface one)%string carried)).

(** ** Decisions *)

Module Policy.
Record t := mk {
  Interval : Z;
  WakeThreshold : Z;
  PayloadFailures : Z;
  LinkFailures : Z
}.
End Policy.

Module Observed.
Record t := mk {
  Complete : bool;
  ProcessObserved : bool;
  ProcessRunning : bool;
  ProcessReplaced : bool;
  Slept : Z;
  TickGap : Z;
  Carrier : Signature;
  LinkPresent : bool;
  PayloadOK : bool;
  RoutesDrifted : bool
}.
End Observed.

Module State.
Record t := mk {
  Known : bool;
  Carrier : Signature;
  LinkPresent : bool;
  PayloadFailures : Z;
  LinkFailures : Z
}.
End State.

Module Grounds.
Record t := mk {
  Complete : bool;
  ProcessObserved : bool;
  ProcessRunning : bool;
  ProcessReplaced : bool;
  Slept : Z;
  TickGap : Z;
  Carrier : Signature;
  CarrierEntries : Z;
  LinkPresent : bool;
  LinkFailures : Z;
  PayloadOK : bool;
  PayloadFailures : Z;
  RoutesDrifted : bool
}.
End Grounds.

Module Plan.
Record t := mk {
  Action : Action;
  Causes : list Cause;
  Grounds : Grounds.t
}.
End Plan.

(** The state that the next cycle finds. *)
Definition next_state (policy : Policy.t) (previous : State.t) (observed : Observed.t) : State.t :=
  let payload := if Observed.PayloadOK observed then 0 else u32 (State.PayloadFailures previous + 1) in
  if negb (Observed.Complete observed) then
    State.mk (State.Known previous) (State.Carrier previous) (State.LinkPresent previous) payload (State.LinkFailures previous)
  else if Observed.LinkPresent observed then State.mk true (Observed.Carrier observed) true payload 0
  else
    let alreadyAbsent := State.Known previous && negb (State.LinkPresent previous) in
    let failures := u32 (State.LinkFailures previous + 1) in
    State.mk true (Observed.Carrier observed) (negb alreadyAbsent && (failures <? Policy.LinkFailures policy)) payload failures.

Definition causes_of (policy : Policy.t) (previous : State.t) (observed : Observed.t) : list Cause :=
  ((if Observed.ProcessObserved observed && (negb (Observed.ProcessRunning observed) || Observed.ProcessReplaced observed)
    then [CauseProcessGone] else []) ++
   (if Policy.WakeThreshold policy <=? Observed.TickGap observed then [CauseWakeGap] else []) ++
   (if Observed.Complete observed && State.Known previous && negb (String.eqb (Observed.Carrier observed) (State.Carrier previous))
    then [CauseCarrierChanged] else []))%list.

Definition grounds_of (observed : Observed.t) (next : State.t) : Grounds.t :=
  Grounds.mk (Observed.Complete observed) (Observed.ProcessObserved observed) (Observed.ProcessRunning observed)
    (Observed.ProcessReplaced observed) (Observed.Slept observed) (Observed.TickGap observed)
    (if Observed.Complete observed then Observed.Carrier observed else "")
    (if Observed.Complete observed then Entries (Observed.Carrier observed) else 0)
    (State.LinkPresent next) (State.LinkFailures next) (Observed.PayloadOK observed) (State.PayloadFailures next)
    (Observed.RoutesDrifted observed).

Definition Decide (policy : Policy.t) (previous : State.t) (observed : Observed.t) : result tunnel_error (Plan.t * State.t) :=
  if (Policy.WakeThreshold policy <=? 0) || (Policy.PayloadFailures policy =? 0) || (Policy.LinkFailures policy =? 0) ||
     (Policy.Interval policy <=? 0) || (Policy.WakeThreshold policy <=? Policy.Interval policy)
  then Err ErrInvalidPolicy
  else if (Observed.Slept observed <? 0) || (Observed.TickGap observed <? 0) then Err ErrInvalidInput
  else
    let next := next_state policy previous observed in
    let causes := causes_of policy previous observed in
    let action := if 0 <? Z.of_nat (length causes) then ActionRebuildTunnel else ActionNone in
    Ok (Plan.mk action causes (grounds_of observed next), next).

(** A runtime that has just started. *)
Definition fresh : State.t := State.mk false "" false 0 0.

(** The cycles of a runtime: each decides from the state the last one left. *)
Fixpoint cycles (policy : Policy.t) (state : State.t) (seen : list Observed.t) : result tunnel_error (list Plan.t * State.t) :=
  match seen with
  | [] => Ok ([], state)
  | o :: rest =>
      '(plan, next) ← Decide policy state o;
      '(plans, last) ← cycles policy next rest;
      Ok (plan :: plans, last)
  end.

(** ** What the history of observations says *)

Definition complete_cycles (seen : list Observed.t) : list Observed.t := List.filter Observed.Complete seen.

(** The complete cycles since the last one that reached the outer path, latest first. *)
Fixpoint failing_run (latest_first : list Observed.t) : Z :=
  match latest_first with
  | o :: rest => if Observed.LinkPresent o then 0 else 1 + failing_run rest
  | [] => 0
  end.

Definition last_carrier (seen : list Observed.t) : option Signature := Observed.Carrier <$> last (complete_cycles seen).

Record history_inv (policy : Policy.t) (seen : list Observed.t) (state : State.t) : Prop := {
  hi_known : State.Known state = bool_decide (complete_cycles seen <> []);
  hi_carrier : State.Known state = true -> last_carrier seen = Some (State.Carrier state);
  hi_link : State.Known state = true ->
    State.LinkPresent state = (failing_run (rev (complete_cycles seen)) <? Policy.LinkFailures policy);
  hi_failures : State.LinkFailures state = u32 (failing_run (rev (complete_cycles seen)))
}.

Lemma failing_run_nonneg l : 0 <= failing_run l.
Proof. induction l as [|o l IH]; simpl; [lia|]. destruct (Observed.LinkPresent o); lia. Qed.

Lemma complete_snoc seen o : complete_cycles (seen ++ [o])%list =
  (complete_cycles seen ++ if Observed.Complete o then [o] else [])%list.
Proof. unfold complete_cycles. rewrite List.filter_app. simpl. by destruct (Observed.Complete o). Qed.

Lemma u32_succ n : u32 (u32 n + 1) = u32 (n + 1).
Proof. unfold u32. by rewrite Zplus_mod_idemp_l. Qed.

Lemma next_state_history policy seen state o : 0 < Policy.LinkFailures policy <= max_u32 ->
  history_inv policy seen state -> history_inv policy (seen ++ [o])%list (next_state policy state o).
Proof.
  intros Hp [Hk Hc Hl Hf]. unfold next_state, last_carrier in *.
  destruct (Observed.Complete o) eqn:Ho; cbn [negb].
  2:{ split; unfold last_carrier; rewrite ?complete_snoc, ?Ho, ?app_nil_r; done. }
  assert (bool_decide (complete_cycles (seen ++ [o]) <> []) = true) as Hne.
  { apply bool_decide_eq_true. rewrite complete_snoc, Ho. by destruct (complete_cycles seen). }
  pose proof (failing_run_nonneg (rev (complete_cycles seen))) as Hn.
  destruct (Observed.LinkPresent o) eqn:Hlink.
  - split; unfold last_carrier; rewrite ?Hne, ?complete_snoc, ?Ho, ?rev_app_distr, ?last_snoc; simpl; rewrite ?Hlink; try done.
    intros _. symmetry. apply Z.ltb_lt. lia.
  - split; unfold last_carrier; rewrite ?Hne, ?complete_snoc, ?Ho, ?rev_app_distr, ?last_snoc; simpl; rewrite ?Hlink; try done.
    + intros _. rewrite Hf, u32_succ. destruct (State.Known state) eqn:Hks; cbn [andb].
      * rewrite Hl by done. rewrite negb_involutive. apply eq_true_iff_eq. rewrite andb_true_iff, !Z.ltb_lt. split.
        -- intros [Hlt Hu]. rewrite u32_small in Hu by (unfold max_u32 in *; lia). lia.
        -- intros Hlt. rewrite u32_small by (unfold max_u32 in *; lia). lia.
      * rewrite andb_true_l. symmetry in Hk. apply bool_decide_eq_false in Hk.
        destruct (complete_cycles seen); [|by destruct Hk]. simpl. by rewrite u32_small by (unfold max_u32; lia).
    + rewrite Hf, u32_succ. f_equal. lia.
Qed.

Lemma Decide_spec policy previous o plan next : Decide policy previous o = Ok (plan, next) ->
  next = next_state policy previous o /\ Plan.Causes plan = causes_of policy previous o /\
  Plan.Action plan = (if 0 <? Z.of_nat (length (causes_of policy previous o)) then ActionRebuildTunnel else ActionNone) /\
  Plan.Grounds plan = grounds_of o next /\ Policy.LinkFailures policy <> 0.
Proof.
  unfold Decide. destruct (_ || (Policy.WakeThreshold policy <=? _)) eqn:Hp; [done|]. destruct (_ || _) in |- *; [done|].
  intros [= <- <-]. bool_prop. done.
Qed.

Lemma fresh_history policy : history_inv policy [] fresh.
Proof. by split. Qed.

Lemma cycles_history policy seen0 seen state plans last : 0 <= Policy.LinkFailures policy <= max_u32 ->
  history_inv policy seen0 state -> cycles policy state seen = Ok (plans, last) -> history_inv policy (seen0 ++ seen)%list last.
Proof.
  intros Hp. revert seen0 state plans. induction seen as [|o rest IH]; intros seen0 state plans Hi; simpl.
  - intros [= <- <-]. by rewrite app_nil_r.
  - intros ([plan next] & Hd & ([plans' last'] & Hc & [= <- <-])%bind_Ok)%bind_Ok. apply Decide_spec in Hd as (-> & _ & _ & _ & Hz).
    rewrite cons_middle, (assoc_L (++)%list). eapply IH; [|exact Hc]. apply next_state_history; [lia|done].
Qed.

Lemma elem_of_guard {A} (b : bool) (x y : A) : x ∈ (if b then [y] else []) <-> b = true /\ x = y.
Proof. destruct b; set_solver. Qed.


(** The signature of what carries the destinations does not depend on the order they were
    observed in. *)
Lemma signature_order carried carried' : carried ≡ₚ carried' -> NewSignature carried = NewSignature carried'.
Proof. intros Hp. unfold NewSignature. f_equal. apply sort_strings_perm. by apply Permutation_map. Qed.

Module TunnelSample.
Definition policy : Policy.t := Policy.mk 60 180 3 2.
Definition seen_on (carrier : Signature) (complete link : bool) : Observed.t :=
  Observed.mk complete true true false 0 61 carrier link true false.
Definition seen : list Observed.t := [seen_on "a=en0" true true; seen_on "" false false; seen_on "a=en0" true false].
Definition next_cycle : Observed.t := seen_on "a=utun4" true false.
Definition state : State.t := match cycles policy fresh seen with Ok (_, s) => s | Err _ => fresh end.
Definition plans : list Plan.t := match cycles policy fresh seen with Ok (p, _) => p | Err _ => [] end.
Definition plan : option Plan.t := match Decide policy state next_cycle with Ok (p, _) => Some p | Err _ => None end.

End TunnelSample.
