(* ===== verification/RoutePlan.v ===== *)
(** * Where routes belong, and the plan that puts them there

    [internal/routeplace/place.go], [internal/routeplan/planner.go] and
    [internal/safety/route.go]. The zero value of a [netip.Addr] is [None]; a regular
    expression is the scanner it stands for. *)

From Stdlib Require Import ZArith Lia Ascii String.
From stdpp Require Import base strings list option sets gmap.
From S2P Require Import Prelude PolicyModel GoNetip.

Open Scope string_scope.
Open Scope Z_scope.

Inductive route_error := ErrInvalidInput | ErrAmbiguousOwnership | ErrIngressSelfRoute.

Abbreviation LinkClass := string (only parsing).
Definition LinkPhysical : LinkClass := "physical".
Definition LinkUpstreamVPN : LinkClass := "upstream_vpn".
Definition LinkTwilightTUN : LinkClass := "twilight_tun".

Abbreviation RouteRole := string (only parsing).
Definition RouteIngress : RouteRole := "ingress".
Definition RouteScoped : RouteRole := "scoped".

Abbreviation Role := string (only parsing).
Definition RoleIngress : Role := "ingress".
Definition RoleCorporate : Role := "corporate".
Definition RoleGitLabHTTPS : Role := "gitlab_https".
Definition RoleCodexFallback : Role := "codex_fallback".
Definition RoleInherited : Role := "inherited".

Abbreviation PolicyStatus := string (only parsing).
Definition PolicyUnknown : PolicyStatus := "unknown".
Definition PolicyCompliant : PolicyStatus := "compliant".
Definition PolicyDegraded : PolicyStatus := "degraded".

Abbreviation PlaceState := string (only parsing).
Definition StateInstalled : PlaceState := "installed".
Definition StateConflicting : PlaceState := "conflicting".
Definition StateMissing : PlaceState := "missing".
Definition StateUnwanted : PlaceState := "unwanted".
Definition StateUnasked : PlaceState := "unasked".

Abbreviation NetAddr := (option Addr) (only parsing).

#[export] Instance Addr_countable : Countable Addr.
Proof.
  refine (inj_countable' (fun a => (is4 a, value a, zone a)) (fun x => mkAddr x.1.1 x.1.2 x.2) _). by intros [].
Defined.

Module Route.
Record t := mk { Role : RouteRole; Link : LinkClass }.
End Route.

Module Target.
Record t := mk { Name : string; Destination : NetAddr; Role : Role; Preferred : LinkClass }.
End Target.

Module Path.
Record t := mk { Link : LinkClass; Interface : string; Gateway : NetAddr }.
End Path.

Module ObservedRoute.
Record t := mk { Destination : NetAddr; Interface : string; Gateway : NetAddr; Owned : bool }.
End ObservedRoute.

Module CodexState.
Record t := mk { NormalReady : bool; TwilightReady : bool }.
End CodexState.

Module GitLabSSHObservation.
Record t := mk { BindInterface : string; PhysicalInterface : string }.
End GitLabSSHObservation.

Module Input.
Record t := mk {
  Targets : list Target.t;
  Physical : Path.t;
  Upstream : option Path.t;
  TUN : Path.t;
  Current : gmap NetAddr ObservedRoute.t;
  Codex : CodexState.t;
  GitLabSSH : option GitLabSSHObservation.t
}.
End Input.

Module Decision.
Record t := mk {
  Target : Target.t;
  Path : Path.t;
  Active : bool;
  State : PlaceState;
  Present : bool;
  Current : ObservedRoute.t
}.
End Decision.

Module Placement.
Record t := mk { Configured : Z; Installed : Z; Conflicting : Z; Missing : Z }.
End Placement.

(** ** Validation *)

Definition ValidateRoutePlan (routes : list Route.t) : result route_error unit :=
  if existsb (fun r => String.eqb (Route.Role r) RouteIngress && String.eqb (Route.Link r) LinkTwilightTUN) routes
  then Err ErrIngressSelfRoute else Ok tt.

(** A first character and at most [n] further ones. *)
Definition pattern (first rest : ascii -> bool) (n : Z) (value : string) : bool :=
  match chars value with
  | [] => false
  | c :: l => first c && forallb rest l && (len l <=? n)
  end.

Definition targetNamePattern : string -> bool :=
  pattern is_lower (fun c => is_lower c || is_digit c || Ascii.eqb c "-") 39.

Definition interfaceNamePattern : string -> bool :=
  pattern (fun c => is_lower c || is_upper c || is_digit c)
    (fun c => is_lower c || is_upper c || is_digit c || existsb (Ascii.eqb c) ["_"; "."; "-"]%char) 31.

Definition validateTarget (t : Target.t) : result route_error unit :=
  if negb (targetNamePattern (Target.Name t)) ||
     negb (match Target.Destination t with Some a => is4 a | None => false end)
  then Err ErrInvalidInput
  else if String.eqb (Target.Role t) RoleIngress then Ok tt
  else if contains_string [RoleCorporate; RoleGitLabHTTPS; RoleCodexFallback; RoleInherited] (Target.Role t)
  then if negb (String.eqb (Target.Preferred t) "") then Err ErrInvalidInput else Ok tt
  else Err ErrInvalidInput.

Definition validatePath (p : Path.t) (tun : bool) : result route_error unit :=
  if negb (interfaceNamePattern (Path.Interface p)) then Err ErrInvalidInput
  else if tun then if negb (String.eqb (Path.Link p) LinkTwilightTUN) then Err ErrInvalidInput else Ok tt
  else if negb (String.eqb (Path.Link p) LinkPhysical) && negb (String.eqb (Path.Link p) LinkUpstreamVPN)
  then Err ErrInvalidInput
  else if String.eqb (Path.Link p) LinkPhysical && bool_decide (Path.Gateway p = None) then Err ErrInvalidInput
  else Ok tt.

Definition validateInput (i : Input.t) : result route_error unit :=
  let physical := Input.Physical i in
  if String.eqb (Path.Link physical) LinkTwilightTUN ||
     (negb (String.eqb (Path.Interface physical) "") && String.eqb (Path.Interface physical) (Path.Interface (Input.TUN i)))
  then Err ErrIngressSelfRoute
  else
    _ ← validatePath physical false;
    _ ← validatePath (Input.TUN i) true;
    match Input.Upstream i with
    | None => Ok tt
    | Some up =>
        if String.eqb (Path.Interface up) (Path.Interface (Input.TUN i)) then Err ErrIngressSelfRoute
        else if negb (is_ok (validatePath up false)) || negb (String.eqb (Path.Link up) LinkUpstreamVPN)
        then Err ErrInvalidInput else Ok tt
    end.

(** ** Decisions *)

Definition no_path : Path.t := Path.mk "" "" None.

Definition desiredPath (t : Target.t) (i : Input.t) : result route_error (Path.t * bool) :=
  let role := Target.Role t in
  if String.eqb role RoleIngress then
    let preferred := Target.Preferred t in
    if String.eqb preferred "" || String.eqb preferred LinkPhysical then Ok (Input.Physical i, true)
    else if String.eqb preferred LinkUpstreamVPN then
      match Input.Upstream i with Some up => Ok (up, true) | None => Ok (Input.Physical i, true) end
    else if String.eqb preferred LinkTwilightTUN then Err ErrIngressSelfRoute
    else Err ErrInvalidInput
  else if contains_string [RoleCorporate; RoleGitLabHTTPS; RoleInherited] role then Ok (Input.TUN i, true)
  else if String.eqb role RoleCodexFallback then
    if CodexState.NormalReady (Input.Codex i) then Ok (no_path, false)
    else if CodexState.TwilightReady (Input.Codex i) then Ok (Input.TUN i, true)
    else Ok (no_path, false)
  else Err ErrInvalidInput.

Definition routeMatches (r : ObservedRoute.t) (p : Path.t) : bool :=
  if negb (String.eqb (ObservedRoute.Interface r) (Path.Interface p)) then false
  else bool_decide (Path.Gateway p = None) || bool_decide (ObservedRoute.Gateway r = Path.Gateway p).

Definition no_route : ObservedRoute.t := ObservedRoute.mk None "" None false.

Definition classify (t : Target.t) (p : Path.t) (active : bool) (current : ObservedRoute.t) (present : bool) : PlaceState :=
  if negb active then
    if String.eqb (Target.Role t) RoleCodexFallback && present && ObservedRoute.Owned current then StateUnwanted
    else StateUnasked
  else if present && routeMatches current p then StateInstalled
  else if present then StateConflicting
  else StateMissing.

(** The judgement of one target. *)
Definition decide_target (i : Input.t) (t : Target.t) : result route_error Decision.t :=
  '(path, active) ← desiredPath t i;
  let found := Input.Current i !! Target.Destination t in
  let present := bool_decide (is_Some found) in
  let current := default no_route found in
  Ok (Decision.mk t path active (classify t path active current present) present current).

Fixpoint decide_targets (i : Input.t) (seen : list NetAddr) (targets : list Target.t) : result route_error (list Decision.t) :=
  match targets with
  | [] => Ok []
  | t :: rest =>
      _ ← validateTarget t;
      if bool_decide (Target.Destination t ∈ seen) then Err ErrAmbiguousOwnership
      else
        d ← decide_target i t;
        ds ← decide_targets i (Target.Destination t :: seen) rest;
        Ok (d :: ds)
  end.

Definition Decide (i : Input.t) : result route_error (list Decision.t) :=
  _ ← validateInput i; decide_targets i [] (Input.Targets i).

(** A [uint16] counter over the decisions. *)
Definition count_state (p : PlaceState -> bool) (ds : list Decision.t) : Z :=
  fold_left (fun n d => if p (Decision.State d) then u16 (n + 1) else n) ds 0.

Definition Place (i : Input.t) : result route_error Placement.t :=
  ds ← Decide i;
  Ok (Placement.mk (u16 (len (Input.Targets i))) (count_state (String.eqb StateInstalled) ds)
        (count_state (fun s => String.eqb s StateConflicting || String.eqb s StateUnwanted) ds)
        (count_state (String.eqb StateMissing) ds)).

Definition EvaluateGitLabSSH (o : GitLabSSHObservation.t) : PolicyStatus * option route_error :=
  let physical := GitLabSSHObservation.PhysicalInterface o in
  let bind := GitLabSSHObservation.BindInterface o in
  if negb (interfaceNamePattern physical) || has_prefix "utun" physical then (PolicyUnknown, Some ErrInvalidInput)
  else if String.eqb bind "" then (PolicyDegraded, None)
  else if negb (interfaceNamePattern bind) then (PolicyUnknown, Some ErrInvalidInput)
  else if negb (String.eqb bind physical) then (PolicyDegraded, None)
  else (PolicyCompliant, None).

(** ** The plan *)

Abbreviation OperationKind := string (only parsing).
Definition OperationEnsureHostRoute : OperationKind := "ensure_host_route".
Definition OperationRemoveOwnedHostRoute : OperationKind := "remove_owned_host_route".

Abbreviation RouteReason := string (only parsing).
Definition ReasonMissingRoute : RouteReason := "missing_route".
Definition ReasonWrongPath : RouteReason := "wrong_path".
Definition ReasonFallbackRequired : RouteReason := "fallback_required".
Definition ReasonFallbackRestored : RouteReason := "fallback_restored".

Module Operation.
Record t := mk {
  Kind : OperationKind;
  Target : string;
  Role : Role;
  Destination : NetAddr;
  Path : Path.t;
  Reason : RouteReason
}.
End Operation.

Module RoutePlan.
Record t := mk { ObserveOnly : bool; Operations : list Operation.t; GitLabSSH : PolicyStatus }.
End RoutePlan.

Definition operation_of (d : Decision.t) : option Operation.t :=
  let t := Decision.Target d in
  let state := Decision.State d in
  if String.eqb state StateUnasked || String.eqb state StateInstalled then None
  else if String.eqb state StateUnwanted then
    Some (Operation.mk OperationRemoveOwnedHostRoute (Target.Name t) (Target.Role t) (Target.Destination t) no_path
            ReasonFallbackRestored)
  else if String.eqb state StateConflicting || String.eqb state StateMissing then
    let reason := if Decision.Present d then ReasonWrongPath else ReasonMissingRoute in
    let reason := if String.eqb (Target.Role t) RoleCodexFallback then ReasonFallbackRequired else reason in
    Some (Operation.mk OperationEnsureHostRoute (Target.Name t) (Target.Role t) (Target.Destination t) (Decision.Path d) reason)
  else None.

Definition address_text (a : NetAddr) : string := match a with Some a => Addr_String a | None => "invalid IP" end.

Definition operation_before (x y : Operation.t) : bool :=
  let left := address_text (Operation.Destination x) in
  let right := address_text (Operation.Destination y) in
  if negb (String.eqb left right) then String.ltb left right else String.ltb (Operation.Target x) (Operation.Target y).

Definition safety_route (d : Decision.t) : option Route.t :=
  if Decision.Active d then
    Some (Route.mk (if String.eqb (Target.Role (Decision.Target d)) RoleIngress then RouteIngress else RouteScoped)
            (Path.Link (Decision.Path d)))
  else None.

Definition Build (i : Input.t) : result route_error RoutePlan.t :=
  ds ← Decide i;
  _ ← ValidateRoutePlan (omap safety_route ds);
  status ← (match Input.GitLabSSH i with
            | None => Ok PolicyUnknown
            | Some o => match EvaluateGitLabSSH o with (status, None) => Ok status | (_, Some e) => Err e end
            end);
  Ok (RoutePlan.mk true (sort_slice operation_before (omap operation_of ds)) status).

(** ** The host after the plan *)

(** What an operation does to the routes of the host. *)
Definition perform (current : gmap NetAddr ObservedRoute.t) (o : Operation.t) : gmap NetAddr ObservedRoute.t :=
  if String.eqb (Operation.Kind o) OperationEnsureHostRoute then
    <[Operation.Destination o := ObservedRoute.mk (Operation.Destination o) (Path.Interface (Operation.Path o))
        (Path.Gateway (Operation.Path o)) true]> current
  else delete (Operation.Destination o) current.

Definition perform_all (current : gmap NetAddr ObservedRoute.t) (ops : list Operation.t) : gmap NetAddr ObservedRoute.t :=
  fold_left perform ops current.

Definition with_current (i : Input.t) (current : gmap NetAddr ObservedRoute.t) : Input.t :=
  Input.mk (Input.Targets i) (Input.Physical i) (Input.Upstream i) (Input.TUN i) current (Input.Codex i) (Input.GitLabSSH i).

Lemma perform_other m o k : k <> Operation.Destination o -> perform m o !! k = m !! k.
Proof. intros Hk. unfold perform. case_match; [by apply lookup_insert_ne|by apply lookup_delete_ne]. Qed.

Lemma perform_all_other ops m k : k ∉ map Operation.Destination ops -> perform_all m ops !! k = m !! k.
Proof.
  unfold perform_all. revert m. induction ops as [|o ops IH]; intros m Hk; simpl in *; [done|].
  apply not_elem_of_cons in Hk as [Hne Hk]. rewrite IH by done. by apply perform_other.
Qed.

Lemma perform_all_elem ops m o : NoDup (map Operation.Destination ops) -> o ∈ ops ->
  perform_all m ops !! Operation.Destination o = perform ∅ o !! Operation.Destination o.
Proof.
  unfold perform_all. revert m. induction ops as [|x ops IH]; intros m; simpl; [intros _ Ho; by apply not_elem_of_nil in Ho|].
  intros [Hn Hd]%NoDup_cons [->|Ho]%elem_of_cons; [|by apply IH].
  fold (perform_all (perform m x) ops). rewrite perform_all_other by done. unfold perform.
  case_match; [by rewrite !lookup_insert_eq|by rewrite !lookup_delete_eq].
Qed.

(** ** The decisions *)

Lemma decide_targets_spec i seen targets ds : decide_targets i seen targets = Ok ds ->
  Forall2 (fun t d => validateTarget t = Ok tt /\ decide_target i t = Ok d) targets ds /\
  NoDup (map Target.Destination targets) /\ Forall (fun t => Target.Destination t ∉ seen) targets.
Proof.
  revert seen ds. induction targets as [|t rest IH]; intros seen ds; simpl; [intros [= <-]; by repeat constructor|].
  intros ([] & Hv & Hd)%bind_Ok. destruct (bool_decide _) eqn:Hs; [done|]. bool_prop.
  apply bind_Ok in Hd as (d & Hd & Hr). apply bind_Ok in Hr as (ds' & Hr & [= <-]). destruct (IH _ _ Hr) as (Hf & Hn & Hout).
  rewrite Forall_forall in Hout. split_and!; [by constructor| |].
  - apply NoDup_cons. split; [|done]. intros (x & Hx & Hin)%list_elem_of_In%in_map_iff.
    apply (Hout x); [by apply list_elem_of_In|]. rewrite Hx. apply list_elem_of_here.
  - constructor; [done|]. apply Forall_forall. intros x Hx Hin. apply (Hout x Hx). by apply list_elem_of_further.
Qed.

Lemma decide_targets_ok i seen targets ds :
  Forall2 (fun t d => validateTarget t = Ok tt /\ decide_target i t = Ok d) targets ds ->
  NoDup (map Target.Destination targets) -> Forall (fun t => Target.Destination t ∉ seen) targets ->
  decide_targets i seen targets = Ok ds.
Proof.
  intros Hf. revert seen. induction Hf as [|t d targets ds [Hv Hd] _ IH]; intros seen Hn Hs; simpl; [done|].
  apply NoDup_cons in Hn as [Ht Hn]. apply Forall_cons in Hs as [Hts Hs]. rewrite Hv. simpl.
  rewrite bool_decide_eq_false_2 by done. rewrite Hd. simpl. rewrite IH; [done..|]. rewrite Forall_forall in *.
  intros x Hx [He|He]%elem_of_cons; [|by apply (Hs x)]. apply Ht. apply list_elem_of_In, in_map_iff. exists x.
  split; [done|by apply list_elem_of_In].
Qed.

Lemma decide_target_spec i t d : decide_target i t = Ok d ->
  Decision.Target d = t /\ desiredPath t i = Ok (Decision.Path d, Decision.Active d) /\
  Decision.State d = classify t (Decision.Path d) (Decision.Active d) (default no_route (Input.Current i !! Target.Destination t))
    (bool_decide (is_Some (Input.Current i !! Target.Destination t))).
Proof. unfold decide_target. intros ([path active] & Hp & [= <-])%bind_Ok. done. Qed.

(** The operation on a target, by the state it stands in. *)
Lemma operation_of_destination d o : operation_of d = Some o ->
  Operation.Destination o = Target.Destination (Decision.Target d) /\ Operation.Role o = Target.Role (Decision.Target d).
Proof. unfold operation_of. repeat case_match; intros [= <-]; done. Qed.

Lemma operations_NoDup (ds : list Decision.t) : NoDup (map (fun d => Target.Destination (Decision.Target d)) ds) ->
  NoDup (map Operation.Destination (omap operation_of ds)).
Proof.
  induction ds as [|d ds IH]; simpl; [done|]. intros [Hn Hd]%NoDup_cons.
  destruct (operation_of d) as [o|] eqn:Ho; [|by apply IH]. simpl. apply NoDup_cons. split; [|by apply IH].
  apply operation_of_destination in Ho as [Ho _]. rewrite Ho. intros (x & Hx & Hin)%list_elem_of_In%in_map_iff. apply Hn.
  apply list_elem_of_In, list_elem_of_omap in Hin as (d' & Hd' & Hop). apply operation_of_destination in Hop as [Hop _].
  apply list_elem_of_In, in_map_iff. exists d'. split; [congruence|by apply list_elem_of_In].
Qed.

(** Once its operation is performed, a target needs nothing more. *)
Definition settled (s : PlaceState) : bool := String.eqb s StateInstalled || String.eqb s StateUnasked.

Lemma routeMatches_ensured destination p : routeMatches (ObservedRoute.mk destination (Path.Interface p) (Path.Gateway p) true) p = true.
Proof. unfold routeMatches. simpl. rewrite String.eqb_refl. simpl. by rewrite (bool_decide_eq_true_2 (Path.Gateway p = Path.Gateway p)), orb_true_r. Qed.

(** The state of a target for the route that is found at its destination. *)
Definition stands (t : Target.t) (p : Path.t) (active : bool) (found : option ObservedRoute.t) : PlaceState :=
  classify t p active (default no_route found) (bool_decide (is_Some found)).

Lemma performed_settled (t : Target.t) (d : Decision.t) (found after : option ObservedRoute.t) : Decision.Target d = t ->
  Decision.State d = stands t (Decision.Path d) (Decision.Active d) found ->
  after = match operation_of d with Some o => perform ∅ o !! Target.Destination t | None => found end ->
  settled (stands t (Decision.Path d) (Decision.Active d) after) = true.
Proof.
  intros Ht Hs ->. unfold operation_of. rewrite Ht, Hs. unfold stands, classify.
  destruct (Decision.Active d) eqn:Ha; cbn [negb].
  - destruct found as [r|]; cbn [from_option id].
    + rewrite (bool_decide_eq_true_2 (is_Some (Some r))) by (by exists r). cbn [andb]. destruct (routeMatches r (Decision.Path d)) eqn:Hm; simpl.
      * by rewrite Hm.
      * unfold perform. unfold perform. simpl. rewrite lookup_insert_eq. simpl. by rewrite routeMatches_ensured.
    + rewrite (bool_decide_eq_false_2 (is_Some None)) by (intros [? [=]]). unfold perform. simpl. rewrite lookup_insert_eq. simpl. by rewrite routeMatches_ensured.
  - destruct (String.eqb (Target.Role t) RoleCodexFallback && bool_decide (is_Some found) && ObservedRoute.Owned (default no_route found)) eqn:Hu; simpl.
    + unfold perform. simpl. rewrite lookup_delete_eq. simpl. by rewrite andb_false_r.
    + by rewrite Hu.
Qed.

Lemma decide_target_after (i : Input.t) (t : Target.t) (d : Decision.t) (after : gmap NetAddr ObservedRoute.t) :
  decide_target i t = Ok d ->
  after !! Target.Destination t =
    match operation_of d with Some o => perform ∅ o !! Target.Destination t | None => Input.Current i !! Target.Destination t end ->
  exists d' : Decision.t, decide_target (with_current i after) t = Ok d' /\ settled (Decision.State d') = true /\
    Decision.Path d' = Decision.Path d /\ Decision.Active d' = Decision.Active d /\ Decision.Target d' = t.
Proof.
  intros Hd Ha. destruct (decide_target_spec i t d Hd) as (Ht & Hp & Hs).
  unfold decide_target. replace (desiredPath t (with_current i after)) with (desiredPath t i) by reflexivity. rewrite Hp. simpl.
  eexists. split; [reflexivity|]. split; [|done]. by eapply performed_settled.
Qed.

(** ** Decided inputs *)

Lemma Decide_Ok i ds : Decide i = Ok ds <->
  validateInput i = Ok tt /\ Forall2 (fun t d => validateTarget t = Ok tt /\ decide_target i t = Ok d) (Input.Targets i) ds /\
  NoDup (map Target.Destination (Input.Targets i)).
Proof.
  unfold Decide. split.
  - intros ([] & Hv & (Hf & Hn & _)%decide_targets_spec)%bind_Ok. done.
  - intros (Hv & Hf & Hn). rewrite Hv. simpl. apply decide_targets_ok; [done..|]. apply Forall_forall. set_solver.
Qed.

Lemma validated_paths i : validateInput i = Ok tt ->
  Path.Link (Input.Physical i) <> LinkTwilightTUN /\ Path.Interface (Input.Physical i) <> Path.Interface (Input.TUN i) /\
  forall up, Input.Upstream i = Some up -> Path.Link up <> LinkTwilightTUN /\ Path.Interface up <> Path.Interface (Input.TUN i).
Proof.
  unfold validateInput. destruct (_ || _) eqn:H0; [done|]. apply orb_false_iff in H0 as [H1 H2]. apply String.eqb_neq in H1.
  intros ([] & Hp & ([] & Ht & Hu)%bind_Ok)%bind_Ok. split; [done|]. split.
  - apply andb_false_iff in H2 as [H2|H2]; [|by apply String.eqb_neq]. apply negb_false_iff, String.eqb_eq in H2.
    unfold validatePath in Hp. rewrite H2 in Hp. discriminate Hp.
  - intros up Hup. rewrite Hup in Hu. destruct (String.eqb _ _) eqn:Hi in Hu; [done|].
    destruct (String.eqb (Path.Link up) LinkUpstreamVPN) eqn:Hl; [|rewrite orb_true_r in Hu; discriminate Hu]. bool_prop.
    split; [by rewrite Hl|done].
Qed.

(** An ingress is never asked for through the tunnel it carries. *)
Lemma ingress_path (t : Target.t) i p active : validateInput i = Ok tt -> desiredPath t i = Ok (p, active) -> Target.Role t = RoleIngress ->
  Path.Link p <> LinkTwilightTUN /\ Path.Interface p <> Path.Interface (Input.TUN i).
Proof.
  intros (Hl & Hi & Hu)%validated_paths Hd Hr. unfold desiredPath in Hd. rewrite Hr, String.eqb_refl in Hd.
  destruct (_ || _) in Hd; [by injection Hd as <- <-|]. destruct (String.eqb _ LinkUpstreamVPN) in Hd.
  - destruct (Input.Upstream i) as [up|] eqn:Hup; [injection Hd as <- <-; by apply Hu|by injection Hd as <- <-].
  - by destruct (String.eqb _ LinkTwilightTUN) in Hd.
Qed.

(** What is known of each decision. *)
Lemma decided_elem i ds (d : Decision.t) : Decide i = Ok ds -> d ∈ ds ->
  exists t : Target.t, t ∈ Input.Targets i /\ validateTarget t = Ok tt /\ decide_target i t = Ok d.
Proof.
  intros (_ & Hf & _)%Decide_Ok Hd. apply list_elem_of_lookup in Hd as [n Hn].
  destruct (Forall2_lookup_r _ _ _ _ _ Hf Hn) as (t & Ht & Hv & Hdt). exists t. split; [|done]. by eapply list_elem_of_lookup_2.
Qed.

Lemma decided_routes_safe i ds : Decide i = Ok ds -> ValidateRoutePlan (omap safety_route ds) = Ok tt.
Proof.
  intros Hds. unfold ValidateRoutePlan. destruct (existsb _ _) eqn:He; [|done]. exfalso.
  apply existsb_exists in He as (r & (d & Hd & Hr)%list_elem_of_In%list_elem_of_omap & Hb).
  destruct (decided_elem i ds d Hds Hd) as (t & _ & _ & (Ht & Hp & _)%decide_target_spec).
  apply Decide_Ok in Hds as (Hv & _). unfold safety_route in Hr. destruct (Decision.Active d); [|done]. injection Hr as <-.
  rewrite Ht in Hb. simpl in Hb. destruct (String.eqb (Target.Role t) RoleIngress) eqn:Hrole; [|done]. simpl in Hb. bool_prop.
  destruct (ingress_path t i _ _ Hv Hp Hrole) as [Hne _]. by apply Hne.
Qed.

Lemma Build_spec i plan : Build i = Ok plan -> exists ds, Decide i = Ok ds /\
  RoutePlan.Operations plan = sort_slice operation_before (omap operation_of ds).
Proof.
  unfold Build. intros (ds & Hd & (? & _ & (? & _ & [= <-])%bind_Ok)%bind_Ok)%bind_Ok. by exists ds.
Qed.

Lemma decided_destinations i ds : Decide i = Ok ds ->
  map (fun d => Target.Destination (Decision.Target d)) ds = map Target.Destination (Input.Targets i).
Proof.
  intros (_ & Hf & _)%Decide_Ok. induction Hf as [|t d targets ds [_ Hd] _ IH]; simpl; [done|].
  apply decide_target_spec in Hd as (-> & _). by rewrite IH.
Qed.

(** The routes after the plan, at the destination of a target. *)
Lemma performed_lookup i ds (d : Decision.t) ops : Decide i = Ok ds -> d ∈ ds -> ops ≡ₚ omap operation_of ds ->
  perform_all (Input.Current i) ops !! Target.Destination (Decision.Target d) =
  match operation_of d with
  | Some o => perform ∅ o !! Target.Destination (Decision.Target d)
  | None => Input.Current i !! Target.Destination (Decision.Target d)
  end.
Proof.
  intros Hds Hd Hops.
  assert (NoDup (map (fun d => Target.Destination (Decision.Target d)) ds)) as Hn
    by (rewrite (decided_destinations i ds Hds); by apply Decide_Ok in Hds as (_ & _ & ?)).
  assert (NoDup (map Operation.Destination ops)) as Hno.
  { change (NoDup (Operation.Destination <$> ops)). rewrite Hops. by apply operations_NoDup. }
  destruct (operation_of d) as [o|] eqn:Ho.
  - apply operation_of_destination in Ho as Hdest. destruct Hdest as [<- _]. apply perform_all_elem; [done|].
    rewrite Hops. apply list_elem_of_omap. by exists d.
  - apply perform_all_other. intros (o & He & Hin)%list_elem_of_In%in_map_iff. apply list_elem_of_In in Hin. rewrite Hops in Hin.
    apply list_elem_of_omap in Hin as (d' & Hd' & Ho'). apply operation_of_destination in Ho' as Hdest.
    assert (d' = d) as ->; [|congruence]. destruct Hdest as [Hdest _].
    clear -Hn Hd Hd' He Hdest. induction ds as [|x ds IH]; [by apply not_elem_of_nil in Hd|]. simpl in Hn. apply NoDup_cons in Hn as [Hx Hn].
    apply elem_of_cons in Hd as [->|Hd], Hd' as [->|Hd']; [done|..|by apply IH]; exfalso; apply Hx, list_elem_of_In, in_map_iff;
      eexists; (split; [|by apply list_elem_of_In]); congruence.
Qed.

Lemma Forall_choice {A B} (P : A -> B -> Prop) (l : list A) : (forall x, x ∈ l -> exists y, P x y) -> exists k, Forall2 P l k.
Proof.
  induction l as [|x l IH]; intros Hp; [by exists []|].
  destruct (Hp x) as [y Hy]; [apply list_elem_of_here|]. destruct IH as [k Hk]; [intros z Hz; apply Hp; by apply list_elem_of_further|].
  exists (y :: k). by constructor.
Qed.

Lemma decided_after i ds ops : Decide i = Ok ds -> ops ≡ₚ omap operation_of ds ->
  exists ds', Decide (with_current i (perform_all (Input.Current i) ops)) = Ok ds' /\
    Forall (fun d => settled (Decision.State d) = true) ds'.
Proof.
  intros Hds Hops. set (i' := with_current i _). pose proof Hds as (Hv & Hf & Hn)%Decide_Ok.
  destruct (Forall_choice (fun (t : Target.t) (d' : Decision.t) => (validateTarget t = Ok tt /\ decide_target i' t = Ok d') /\
    settled (Decision.State d') = true) (Input.Targets i)) as [ds' Hds'].
  { intros t Ht. apply list_elem_of_lookup in Ht as [n Ht]. destruct (Forall2_lookup_l _ _ _ _ _ Hf Ht) as (d & Hd & Hvt & Hdt).
    apply list_elem_of_lookup_2 in Hd. pose proof (performed_lookup i ds d ops Hds Hd Hops) as Hl.
    destruct (decide_target_spec i t d Hdt) as (Htd & _). rewrite Htd in Hl.
    destruct (decide_target_after i t d _ Hdt Hl) as (d' & Hd' & Hs & _). by exists d'. }
  exists ds'. split.
  - apply Decide_Ok. split_and!; [done| |done]. eapply Forall2_impl; [exact Hds'|]. by intros ? ? [? _].
  - clear -Hds'. induction Hds' as [|t d l k [_ Hs] _ IH]; by constructor.
Qed.

Lemma count_none p (ds : list Decision.t) : Forall (fun d => p (Decision.State d) = false) ds -> count_state p ds = 0.
Proof. unfold count_state. induction 1 as [|d ds Hd _ IH]; simpl; [done|]. by rewrite Hd. Qed.

Lemma settled_none (ds : list Decision.t) : Forall (fun d => settled (Decision.State d) = true) ds -> omap operation_of ds = [].
Proof.
  induction 1 as [|d ds Hd _ IH]; simpl; [done|]. unfold operation_of. unfold settled in Hd. rewrite orb_comm in Hd.
  rewrite Hd. exact IH.
Qed.

(** C31: Performing the operations of a plan leaves nothing to do: planning again succeeds
    with no operation, and no configured route is then missing or on a wrong link. *)
Theorem route_plan_converges i plan : Build i = Ok plan ->
  let i' := with_current i (perform_all (Input.Current i) (RoutePlan.Operations plan)) in
  (exists plan', Build i' = Ok plan' /\ RoutePlan.Operations plan' = []) /\
  (exists p, Place i' = Ok p /\ Placement.Conflicting p = 0 /\ Placement.Missing p = 0).
Proof.
  intros Hb i'. pose proof Hb as (ds & Hds & Hops)%Build_spec.
  destruct (decided_after i ds (RoutePlan.Operations plan) Hds) as (ds' & Hd' & Hs); [rewrite Hops; apply sort_slice_perm|].
  fold i' in Hd'. split.
  - unfold Build in Hb |- *. rewrite Hds in Hb. rewrite Hd'. simpl in *. rewrite (decided_routes_safe i' ds' Hd').
    rewrite (decided_routes_safe i ds Hds) in Hb. simpl in *. destruct (match Input.GitLabSSH i with Some _ => _ | None => _ end); [|done].
    eexists. split; [reflexivity|]. simpl. by rewrite (settled_none ds' Hs).
  - unfold Place. rewrite Hd'. eexists. split; [reflexivity|]. split; apply count_none; (eapply Forall_impl; [exact Hs|]); intros d Hd;
      unfold settled in Hd; apply orb_true_iff in Hd as [Hd|Hd]; apply String.eqb_eq in Hd; by rewrite Hd.
Qed.


Lemma count_state_from (p : PlaceState -> bool) (ds : list Decision.t) n : 0 <= n -> n + len ds < 2 ^ 16 ->
  fold_left (fun n d => if p (Decision.State d) then u16 (n + 1) else n) ds n = n + len (List.filter (fun d => p (Decision.State d)) ds).
Proof.
  revert n. induction ds as [|d ds IH]; intros n Hn Hb; simpl in *; [lia|].
  destruct (p (Decision.State d)); simpl; [replace (u16 (n + 1)) with (n + 1) by (symmetry; apply Z.mod_small; lia)|]; rewrite IH by lia; lia.
Qed.

Lemma count_state_len (p : PlaceState -> bool) (ds : list Decision.t) : len ds < 2 ^ 16 ->
  count_state p ds = len (List.filter (fun d => p (Decision.State d)) ds).
Proof. intros Hl. unfold count_state. rewrite count_state_from by lia. lia. Qed.

Lemma filter_disjoint {A} (p q r : A -> bool) l :
  (forall x, (p x = true -> q x = false /\ r x = false) /\ (q x = true -> r x = false)) ->
  len (List.filter p l) + len (List.filter q l) + len (List.filter r l) <= len l.
Proof.
  intros Hd. induction l as [|x l IH]; simpl; [lia|]. destruct (Hd x) as [H1 H2].
  destruct (p x); [destruct (H1 eq_refl) as [-> ->]; simpl; lia|].
  destruct (q x); [rewrite (H2 eq_refl); simpl; lia|]. destruct (r x); simpl; lia.
Qed.

(** The counts of a placement are of disjoint states, so a fact about the routes that is
    made from them is never refused for counting more than is configured. *)
Lemma placement_counts_disjoint i p : Place i = Ok p -> len (Input.Targets i) < 2 ^ 16 ->
  Placement.Configured p = len (Input.Targets i) /\
  0 <= Placement.Installed p /\ 0 <= Placement.Conflicting p /\ 0 <= Placement.Missing p /\
  Placement.Installed p + Placement.Conflicting p + Placement.Missing p <= Placement.Configured p.
Proof.
  unfold Place. intros (ds & Hds & [= <-])%bind_Ok Hl. apply Decide_Ok in Hds as (_ & Hf & _). apply Forall2_length in Hf.
  cbn [Placement.Configured Placement.Installed Placement.Conflicting Placement.Missing].
  assert (u16 (len (Input.Targets i)) = len (Input.Targets i)) as -> by (apply Z.mod_small; lia). rewrite !count_state_len by lia.
  split; [done|]. split_and!; [lia..|]. rewrite Hf.
  apply (filter_disjoint (fun d => String.eqb StateInstalled (Decision.State d))
    (fun d => String.eqb (Decision.State d) StateConflicting || String.eqb (Decision.State d) StateUnwanted)
    (fun d => String.eqb StateMissing (Decision.State d))). intros d. cbv beta. split.
  - intros Hs. apply (proj1 (String.eqb_eq _ _)) in Hs. by rewrite <- Hs.
  - intros Hs. apply orb_true_iff in Hs as [Hs|Hs]; apply (proj1 (String.eqb_eq _ _)) in Hs; by rewrite Hs.
Qed.

Module RouteSample.
Definition address (n : Z) : option Addr := Some (mkAddr true (3325256704 + n) "").
Definition physical : Path.t := Path.mk LinkPhysical "en0" (address 1).
Definition tun : Path.t := Path.mk LinkTwilightTUN "utun4" None.
Definition route (n : Z) (interface : string) : ObservedRoute.t := ObservedRoute.mk (address n) interface None true.

(** An ingress on the tunnel, a corporate route that is missing, and a fallback that is no
    longer needed. *)
Definition input : Input.t :=
  Input.mk [Target.mk "edge" (address 10) RoleIngress ""; Target.mk "intranet" (address 11) RoleCorporate "";
            Target.mk "codex" (address 12) RoleCodexFallback ""]
    physical None tun (list_to_map (M:=gmap NetAddr ObservedRoute.t) [(address 10, route 10 "utun4"); (address 12, route 12 "utun4")]) (CodexState.mk true true) None.
Definition plan : RoutePlan.t := match Build input with Ok p => p | Err _ => RoutePlan.mk false [] "" end.

Lemma builds : Build input = Ok plan.
Proof. vm_compute. reflexivity. Qed.

Lemma planned : map (fun o => (Operation.Kind o, Operation.Target o, Operation.Reason o)) (RoutePlan.Operations plan) =
  [(OperationEnsureHostRoute, "edge", ReasonWrongPath); (OperationEnsureHostRoute, "intranet", ReasonMissingRoute);
   (OperationRemoveOwnedHostRoute, "codex", ReasonFallbackRestored)].
Proof. vm_compute. reflexivity. Qed.

Lemma route_plan_converges_witness : exists plan',
  Build (with_current input (perform_all (Input.Current input) (RoutePlan.Operations plan))) = Ok plan' /\ RoutePlan.Operations plan' = [].
Proof. exact (proj1 (route_plan_converges input plan builds)). Defined.

End RouteSample.
