(* ===== verification/Events.v ===== *)
(** * Events: the registered schemas and their wire form

    [internal/event] ([schema.go], [connectivity.go], [connectivity_projection.go]):
    the closed table of event schemas with the retention priority each one carries,
    the payload of every schema with its validation, and the bounded encoding a
    record is stored and uploaded in.

    [encoding/json] is a parameter: every payload type has a marshaller and a strict
    decoder ([EventCodecs]), and [EventLaws] states what is documented of them: what
    [json.Marshal] wrote, [decodeStrict] reads back.  The reading back is claimed
    only of values [exact] holds of: strings of valid UTF-8 (any other byte is
    replaced by the writer) and, for an embedded raw text, one that compaction
    leaves alone. *)

From Stdlib Require Import ZArith Lia Ascii String.
From stdpp Require Import base strings list option.
From S2P Require Import Prelude PolicyModel PolicyValidate PolicyCanonical Control Connectivity.

Open Scope string_scope.
Open Scope Z_scope.

Inductive event_error :=
| ErrUnknownSchema
| ErrUnsupportedVersion
| ErrPriorityMismatch
| ErrInvalidField
| ErrPayloadTooLarge
| ErrEventTooLarge
| ErrMalformedEvent
| ErrPayloadType.

#[global] Instance event_error_eq_dec : EqDecision event_error.
Proof. solve_decision. Defined.

Definition SchemaVersion := 1.
Definition MaxReferenceBytes := 64.
Definition MaxEncodedEventBytes := 8 * 1024.
Definition MaxPayloadBytes := 4 * 1024.
Definition MaxConnectivityPayloadBytes := 6 * 1024.
Definition MaxProjectedComponents := 16.
Definition tunnelCarrierDigestLength := 12.

(** ** Vocabulary *)

Abbreviation Schema := string (only parsing).
Definition SchemaObservation : Schema := "component.observation".
Definition SchemaTransition : Schema := "state.transition".
Definition SchemaAction : Schema := "recovery.action".
Definition SchemaIncident : Schema := "incident.lifecycle".
Definition SchemaDeployment : Schema := "deployment.lifecycle".
Definition SchemaConfigVersion : Schema := "config.lifecycle".
Definition SchemaDiagnostic : Schema := "runtime.diagnostic".
Definition SchemaSleep : Schema := "node.sleep".
Definition SchemaTunnelDecision : Schema := "tunnel.decision".
Definition SchemaTunnelExecution : Schema := "tunnel.execution".
Definition SchemaTunnelHandback : Schema := "tunnel.handback".
Definition SchemaPolicy : Schema := "policy.lifecycle".
Definition SchemaConnectivityBaseline : Schema := "connectivity.baseline".
Definition SchemaConnectivityObservation : Schema := "connectivity.observation".
Definition SchemaConnectivityProjection : Schema := "connectivity.projection".
Definition SchemaArchiveOverflow : Schema := "archive.overflow".

Abbreviation Priority := string (only parsing).
Definition PriorityCritical : Priority := "critical".
Definition PriorityOperational : Priority := "operational".
Definition PriorityDiagnostic : Priority := "diagnostic".

Abbreviation ActionOutcome := string (only parsing).
Definition ActionPlanned : ActionOutcome := "planned".
Definition ActionExecuted : ActionOutcome := "executed".
Definition ActionVerified : ActionOutcome := "verified".
Definition ActionFailed : ActionOutcome := "failed".
Definition ActionSuppressed : ActionOutcome := "suppressed".

Abbreviation IncidentStatus := string (only parsing).
Definition IncidentOpened : IncidentStatus := "opened".
Definition IncidentUpdated : IncidentStatus := "updated".
Definition IncidentResolved : IncidentStatus := "resolved".

Abbreviation IncidentSeverity := string (only parsing).
Definition SeverityInfo : IncidentSeverity := "info".
Definition SeverityWarning : IncidentSeverity := "warning".
Definition SeverityCritical : IncidentSeverity := "critical".

Abbreviation IncidentCategory := string (only parsing).
Definition IncidentAvailability : IncidentCategory := "availability".
Definition IncidentRecoveryBudget : IncidentCategory := "recovery_budget".
Definition IncidentSpoolOverflow : IncidentCategory := "spool_overflow".
Definition IncidentSecurityValidation : IncidentCategory := "security_validation".
Definition IncidentDeployment : IncidentCategory := "deployment".
Definition IncidentPolicyExpiry : IncidentCategory := "policy_expiry".

Abbreviation DeploymentStatus := string (only parsing).
Definition DeploymentStaged : DeploymentStatus := "staged".
Definition DeploymentActivated : DeploymentStatus := "activated".
Definition DeploymentRolledBack : DeploymentStatus := "rolled_back".
Definition DeploymentRejected : DeploymentStatus := "rejected".

Abbreviation ConfigStatus := string (only parsing).
Definition ConfigStaged : ConfigStatus := "staged".
Definition ConfigActivated : ConfigStatus := "activated".
Definition ConfigRolledBack : ConfigStatus := "rolled_back".
Definition ConfigRejected : ConfigStatus := "rejected".

Abbreviation DiagnosticCode := string (only parsing).
Definition DiagnosticAdapterSampled : DiagnosticCode := "adapter_sampled".
Definition DiagnosticRetryScheduled : DiagnosticCode := "retry_scheduled".
Definition DiagnosticTelemetryGapUnrecoverable : DiagnosticCode := "telemetry_gap_unrecoverable".
Definition DiagnosticUploadDeferred : DiagnosticCode := "upload_deferred".
Definition DiagnosticArchiveRefusedRecord : DiagnosticCode := "archive_refused_record".

Abbreviation ArchiveOverflowReason := string (only parsing).
Definition ArchiveOverflowSize : ArchiveOverflowReason := "size".
Definition ArchiveOverflowAge : ArchiveOverflowReason := "age".
Definition ArchiveOverflowRefused : ArchiveOverflowReason := "refused".

Abbreviation SleepPhase := string (only parsing).
Definition SleepStarted : SleepPhase := "started".
Definition SleepEnded : SleepPhase := "ended".

Abbreviation SleepReason := string (only parsing).
Definition SleepReasonLidClosed : SleepReason := "lid_closed".
Definition SleepReasonSystemSleep : SleepReason := "system_sleep".
Definition SleepReasonFullWake : SleepReason := "full_wake".

Abbreviation Freshness := string (only parsing).
Definition FreshnessFresh : Freshness := "fresh".
Definition FreshnessStale : Freshness := "stale".
Definition FreshnessNeverObserved : Freshness := "never_observed".

(** The vocabulary of [internal/control] that payloads name. *)
Module ControlNames.
Abbreviation Component := string (only parsing).
Definition ComponentNetwork : Component := "network".
Definition ComponentTunnel : Component := "tunnel".
Definition ComponentRoutes : Component := "routes".
Definition ComponentPritunl : Component := "pritunl".
Definition ComponentCodex : Component := "codex".
Definition ComponentTelegram : Component := "telegram".
Definition ComponentRuntime : Component := "runtime".
Abbreviation Health := string (only parsing).
Definition HealthUnknown : Health := "unknown".
Definition HealthReady : Health := "ready".
Definition HealthFailed : Health := "failed".
Definition HealthSuspended : Health := "suspended".
Abbreviation ActionKind := string (only parsing).
Definition ActionRestart : ActionKind := "restart".
Definition ActionApplyScopedRoutes : ActionKind := "apply_scoped_routes".
Definition ActionSelectIngress : ActionKind := "select_ingress".
Abbreviation ActionTarget := string (only parsing).
Definition TargetSingBox : ActionTarget := "sing_box".
Definition TargetScopedRoutes : ActionTarget := "scoped_routes".
Definition TargetIngress : ActionTarget := "ingress_selector".
Definition TargetPritunlService : ActionTarget := "pritunl_service".
End ControlNames.
Import ControlNames.

#[local] Existing Instances Types.State_eq_dec Types.Reason_eq_dec.

(** ** Payloads *)

Module Observation.
Record t := mk {
  Component : Component;
  Health : Health;
  Reason : Types.Reason;
  ConsecutiveFailures : Z
}.
#[global] Instance eq_dec : EqDecision t.
Proof. solve_decision. Defined.
End Observation.

Module Transition.
Record t := mk {
  Component : Component;
  From : Types.State;
  To : Types.State;
  Reason : Types.Reason;
  Generation : Z
}.
#[global] Instance eq_dec : EqDecision t.
Proof. solve_decision. Defined.
End Transition.

Module Action.
Record t := mk {
  Kind : ActionKind;
  Target : ActionTarget;
  Outcome : ActionOutcome;
  Attempt : Z;
  Generation : Z;
  Reason : Types.Reason
}.
#[global] Instance eq_dec : EqDecision t.
Proof. solve_decision. Defined.
End Action.

Module Incident.
Record t := mk {
  IncidentID : string;
  Status : IncidentStatus;
  Severity : IncidentSeverity;
  Category : IncidentCategory;
  Component : Component;
  Generation : Z
}.
#[global] Instance eq_dec : EqDecision t.
Proof. solve_decision. Defined.
End Incident.

Module Deployment.
Record t := mk {
  DeploymentID : string;
  Release : string;
  Status : DeploymentStatus;
  DigestSHA256 : string
}.
#[global] Instance eq_dec : EqDecision t.
Proof. solve_decision. Defined.
End Deployment.

Module ConfigVersion.
Record t := mk {
  ConfigID : string;
  Version : string;
  Status : ConfigStatus;
  DigestSHA256 : string
}.
#[global] Instance eq_dec : EqDecision t.
Proof. solve_decision. Defined.
End ConfigVersion.

Module ArchiveOverflow.
Record t := mk {
  Reason : ArchiveOverflowReason;
  Dropped : Priority;
  FirstSequence : Z;
  LastSequence : Z;
  Count : Z
}.
#[global] Instance eq_dec : EqDecision t.
Proof. solve_decision. Defined.
End ArchiveOverflow.

Module Diagnostic.
Record t := mk {
  Component : Component;
  Code : DiagnosticCode;
  Count : Z;
  DurationMS : Z
}.
#[global] Instance eq_dec : EqDecision t.
Proof. solve_decision. Defined.
End Diagnostic.

Module TunnelGrounds.
Record t := mk {
  Complete : bool;
  ProcessObserved : bool;
  Suspended : option bool;
  ProcessRunning : bool;
  ProcessReplaced : bool;
  SleptMS : Z;
  TickGapMS : option Z;
  CarrierDigest : string;
  CarrierEntries : option Z;
  LinkPresent : bool;
  LinkFailures : Z;
  PayloadOK : bool;
  PayloadFailures : Z;
  RoutesPlanned : option Z
}.
#[global] Instance eq_dec : EqDecision t.
Proof. solve_decision. Defined.
End TunnelGrounds.

Module TunnelAuthorization.
Record t := mk {
  Allowed : bool;
  Reason : string
}.
#[global] Instance eq_dec : EqDecision t.
Proof. solve_decision. Defined.
End TunnelAuthorization.

Module TunnelDecision.
Record t := mk {
  Action : string;
  Causes : list string;
  Grounds : option TunnelGrounds.t;
  Authorization : option TunnelAuthorization.t
}.
#[global] Instance eq_dec : EqDecision t.
Proof. solve_decision. Defined.
End TunnelDecision.

Module TunnelExecution.
Record t := mk {
  Performed : bool;
  Blocked : string;
  Reason : string;
  Routes : option Z;
  ElapsedMS : option Z
}.
#[global] Instance eq_dec : EqDecision t.
Proof. solve_decision. Defined.
End TunnelExecution.

Module TunnelHandback.
Record t := mk {
  Reason : string;
  Given : bool
}.
#[global] Instance eq_dec : EqDecision t.
Proof. solve_decision. Defined.
End TunnelHandback.

Module Sleep.
Record t := mk {
  Phase : SleepPhase;
  Reason : SleepReason
}.
#[global] Instance eq_dec : EqDecision t.
Proof. solve_decision. Defined.
End Sleep.

Module PolicyLifecycle.
Record t := mk {
  Status : Status.t;
  AuthorizationSuspension : AuthorizationSuspension.t;
  ExistingState : option ExistingStateStatus.t
}.
#[global] Instance eq_dec : EqDecision t.
Proof. solve_decision. Defined.
End PolicyLifecycle.

Module ProjectedComponent.
Record t := mk {
  Component : string;
  State : string;
  Freshness : Freshness;
  Reason : string
}.
#[global] Instance eq_dec : EqDecision t.
Proof. solve_decision. Defined.
End ProjectedComponent.

Module ProjectedProposalClass.
Record t := mk {
  Class : string;
  Count : Z
}.
#[global] Instance eq_dec : EqDecision t.
Proof. solve_decision. Defined.
End ProjectedProposalClass.

Module ConnectivityProjection.
Record t := mk {
  SnapshotGeneration : Z;
  ReducerVersion : Z;
  BundleGeneration : Z;
  RootGeneration : Z;
  UserGeneration : Z;
  Aggregate : string;
  Authorization : string;
  AuthorizationReason : string;
  Components : list ProjectedComponent.t;
  OpenGaps : Z;
  GapOverflow : bool;
  SourceConflicts : Z;
  AwaitingBaseline : Z;
  ConflictOverflow : bool;
  ProposalClasses : list ProjectedProposalClass.t
}.
#[global] Instance eq_dec : EqDecision t.
Proof. solve_decision. Defined.
End ConnectivityProjection.

(** The canonical fact travels as the raw text it was encoded to. *)
Module ConnectivityFact.
Section fact.
Context `{JSON}.
Record t := mk {
  Domain : Domain;
  Component : Component;
  SourceID : SourceID;
  BootID : string;
  SourceSequence : Z;
  HostSequence : Z;
  FoldPosition : Z;
  Outcome : string;
  Role : string;
  Digest : string;
  Baseline : bool;
  Fact : Doc
}.
End fact.
Arguments t {_}.
End ConnectivityFact.

(** A payload as [Encode] is given it, an [any]: a value of one of the payload
    types or a pointer to one, which the [as..] functions treat alike.
    [POther] is any other dynamic value, a nil pointer included. *)
Section payload.
Context `{JSON}.

Inductive Payload :=
| PObservation (value : Observation.t)
| PTransition (value : Transition.t)
| PAction (value : Action.t)
| PIncident (value : Incident.t)
| PDeployment (value : Deployment.t)
| PConfigVersion (value : ConfigVersion.t)
| PDiagnostic (value : Diagnostic.t)
| PSleep (value : Sleep.t)
| PTunnelDecision (value : TunnelDecision.t)
| PTunnelExecution (value : TunnelExecution.t)
| PTunnelHandback (value : TunnelHandback.t)
| PPolicyLifecycle (value : PolicyLifecycle.t)
| PConnectivityFact (value : ConnectivityFact.t)
| PArchiveOverflow (value : ArchiveOverflow.t)
| PConnectivityProjection (value : ConnectivityProjection.t)
| POther.

End payload.

Module SchemaDefinition.
Record t := mk {
  Schema : Schema;
  Version : Z;
  Priority : Priority;
  MaxPayloadBytes : Z
}.
End SchemaDefinition.

Module wireRecord.
Section wire.
Context `{JSON}.
Record t := mk {
  Schema : Schema;
  Version : Z;
  Priority : Priority;
  Payload : Doc
}.
End wire.
Arguments t {_}.
End wireRecord.

Module EventRecord.
Section record.
Context `{JSON}.
Record t := mk {
  Schema : Schema;
  Version : Z;
  Priority : Priority;
  Payload : Payload
}.
End record.
Arguments t {_}.
End EventRecord.

(** ** The schema table *)

Definition schema_priority (schema : Schema) : option Priority :=
  if contains_string [SchemaObservation; SchemaConnectivityObservation; SchemaConnectivityProjection] schema
  then Some PriorityOperational
  else if String.eqb schema SchemaDiagnostic then Some PriorityDiagnostic
  else if contains_string [SchemaTransition; SchemaAction; SchemaIncident; SchemaDeployment;
            SchemaConfigVersion; SchemaSleep; SchemaPolicy; SchemaConnectivityBaseline;
            SchemaArchiveOverflow] schema
  then Some PriorityCritical
  else if String.eqb schema SchemaTunnelDecision then Some PriorityOperational
  else if contains_string [SchemaTunnelExecution; SchemaTunnelHandback] schema then Some PriorityCritical
  else None.

Definition DefinitionFor (schema : Schema) : option SchemaDefinition.t :=
  match schema_priority schema with
  | None => None
  | Some priority =>
      let maximum :=
        if String.eqb schema SchemaConnectivityBaseline || String.eqb schema SchemaConnectivityObservation
        then MaxConnectivityPayloadBytes else MaxPayloadBytes in
      Some (SchemaDefinition.mk schema SchemaVersion priority maximum)
  end.

(** ** Field validation *)

Definition letter_or_digit (c : ascii) : bool := is_lower c || is_upper c || is_digit c.

Definition reference_char (x : nat * ascii) : bool :=
  letter_or_digit x.2 || (Nat.ltb 0 x.1 && existsb (Ascii.eqb x.2) [":"%char; "."%char; "-"%char]).

Definition validReference (value : string) : bool :=
  negb (String.eqb value "") && (slen value <=? MaxReferenceBytes) &&
  forallb reference_char (imap pair (chars value)).

(** [hex.DecodeString] of a string of even length. *)
Definition hex_decodes (value : string) : bool :=
  forallb (fun c => is_lower_hex c || in_range "A" "F" c) (chars value).

Definition validDigest (value : string) : bool :=
  if negb (slen value =? 64) || has_upper value then false else hex_decodes value.

Definition validComponent (value : Component) : bool :=
  contains_string [ComponentNetwork; ComponentTunnel; ComponentRoutes; ComponentPritunl; ComponentCodex;
                   ComponentTelegram; ComponentRuntime] value.

Definition validHealth (value : Health) : bool :=
  contains_string [HealthUnknown; HealthReady; HealthFailed; HealthSuspended] value.

Definition validReason (value : Types.Reason) : bool :=
  match value with
  | Types.ReasonNone | Types.ReasonProbeSucceeded | Types.ReasonProbeFailed
  | Types.ReasonFailureThreshold | Types.ReasonRecoveryAllowed | Types.ReasonRecoveryBudget
  | Types.ReasonVerificationPassed | Types.ReasonCooldownElapsed | Types.ReasonDependenciesReady
  | Types.ReasonDependenciesNotReady | Types.ReasonIntentionalSleep | Types.ReasonOperatorResume => true
  | _ => false
  end.

Definition validActionKind (value : ActionKind) : bool :=
  contains_string [ActionRestart; ActionApplyScopedRoutes; ActionSelectIngress] value.

Definition validActionTarget (value : ActionTarget) : bool :=
  contains_string [TargetSingBox; TargetScopedRoutes; TargetIngress; TargetPritunlService] value.

Definition validActionOutcome (value : ActionOutcome) : bool :=
  contains_string [ActionPlanned; ActionExecuted; ActionVerified; ActionFailed; ActionSuppressed] value.

Definition validIncidentStatus (value : IncidentStatus) : bool :=
  contains_string [IncidentOpened; IncidentUpdated; IncidentResolved] value.

Definition validSeverity (value : IncidentSeverity) : bool :=
  contains_string [SeverityInfo; SeverityWarning; SeverityCritical] value.

Definition validCategory (value : IncidentCategory) : bool :=
  contains_string [IncidentAvailability; IncidentRecoveryBudget; IncidentSpoolOverflow;
                   IncidentSecurityValidation; IncidentDeployment; IncidentPolicyExpiry] value.

Definition validDeploymentStatus (value : DeploymentStatus) : bool :=
  contains_string [DeploymentStaged; DeploymentActivated; DeploymentRolledBack; DeploymentRejected] value.

Definition validConfigStatus (value : ConfigStatus) : bool :=
  contains_string [ConfigStaged; ConfigActivated; ConfigRolledBack; ConfigRejected] value.

Definition validDiagnosticCode (value : DiagnosticCode) : bool :=
  contains_string [DiagnosticAdapterSampled; DiagnosticRetryScheduled; DiagnosticTelemetryGapUnrecoverable;
                   DiagnosticUploadDeferred; DiagnosticArchiveRefusedRecord] value.

Definition validSleep (value : Sleep.t) : bool :=
  if String.eqb (Sleep.Phase value) SleepStarted then
    String.eqb (Sleep.Reason value) SleepReasonLidClosed || String.eqb (Sleep.Reason value) SleepReasonSystemSleep
  else if String.eqb (Sleep.Phase value) SleepEnded then String.eqb (Sleep.Reason value) SleepReasonFullWake
  else false.

(** A refusal covers no range. *)
Definition validArchiveOverflow (value : ArchiveOverflow.t) : bool :=
  let count := ArchiveOverflow.Count value in
  let first := ArchiveOverflow.FirstSequence value in
  let last := ArchiveOverflow.LastSequence value in
  if negb (contains_string [PriorityCritical; PriorityOperational; PriorityDiagnostic] (ArchiveOverflow.Dropped value))
  then false
  else if contains_string [ArchiveOverflowSize; ArchiveOverflowAge] (ArchiveOverflow.Reason value) then
    (0 <? count) && (0 <? first) && (first <=? last) && (count <=? u64 (u64 (last - first) + 1))
  else if String.eqb (ArchiveOverflow.Reason value) ArchiveOverflowRefused then
    (count =? 0) && (first =? 0) && (last =? 0)
  else false.

Definition validTunnelAuthorization (authorization : option TunnelAuthorization.t) : bool :=
  match authorization with
  | None => true
  | Some a =>
      let reason := TunnelAuthorization.Reason a in
      if negb (contains_string ["authorized"; "invalid_request"; "inactive_policy"; "authorization_suspended";
                 "domain_mismatch"; "generation_mismatch"; "selector_mismatch";
                 "authorization_lease_inactive"; "explicitly_denied"] reason)
      then false
      else Bool.eqb (TunnelAuthorization.Allowed a) (String.eqb reason "authorized")
  end.

Definition validTunnelGrounds (grounds : option TunnelGrounds.t) : bool :=
  match grounds with
  | None => true
  | Some g =>
      let digest := TunnelGrounds.CarrierDigest g in
      if TunnelGrounds.SleptMS g <? 0 then false
      else if match TunnelGrounds.TickGapMS g with Some gap => gap <? 0 | None => false end then false
      else if negb (String.eqb digest "") &&
              (negb (slen digest =? tunnelCarrierDigestLength) || negb (forallb is_lower_hex (chars digest)))
      then false
      else if match TunnelGrounds.CarrierEntries g with Some n => n <? 0 | None => false end then false
      else if negb (Bool.eqb (TunnelGrounds.Complete g) (bool_decide (is_Some (TunnelGrounds.CarrierEntries g))))
      then false
      else Bool.eqb (TunnelGrounds.Complete g) (bool_decide (is_Some (TunnelGrounds.RoutesPlanned g)))
  end.

Definition tunnel_causes : list string :=
  ["process_gone"; "wake_gap"; "carrier_changed"; "link_returned"; "payload_failed"; "routes_drifted"].

(** The loop over the causes with its [seen] set. *)
Fixpoint causes_valid (seen : list string) (causes : list string) : bool :=
  match causes with
  | [] => true
  | cause :: rest =>
      if negb (contains_string tunnel_causes cause) then false
      else if contains_string seen cause then false
      else causes_valid (cause :: seen) rest
  end.

Definition validTunnelDecision (value : TunnelDecision.t) : bool :=
  let action := TunnelDecision.Action value in
  let causes := TunnelDecision.Causes value in
  if negb (contains_string ["none"; "rebuild_tunnel"; "reapply_routes"] action) then false
  else if Nat.ltb 6 (length causes) then false
  else if negb (causes_valid [] causes) then false
  else if String.eqb action "none" && Nat.ltb 0 (length causes) then false
  else if negb (validTunnelAuthorization (TunnelDecision.Authorization value)) then false
  else if String.eqb action "none" && bool_decide (is_Some (TunnelDecision.Authorization value)) then false
  else validTunnelGrounds (TunnelDecision.Grounds value).

Definition validTunnelHandback (handback : TunnelHandback.t) : bool :=
  contains_string ["rate_bound"; "grant_lapsed"; "tunnel_carries_nothing"] (TunnelHandback.Reason handback).

Definition validTunnelExecution (execution : TunnelExecution.t) : bool :=
  let performed := TunnelExecution.Performed execution in
  let blocked := TunnelExecution.Blocked execution in
  let reason := TunnelExecution.Reason execution in
  if negb (contains_string [""; "not_owned"; "suspended"; "authorization_unasked"; "unauthorized"; "rate_bound"]
             blocked) then false
  else if negb (contains_string [""; "stop_failed"; "start_failed"; "interface_absent"; "route_not_restored";
                  "payload_did_not_pass"; "outer_path_absent"] reason) then false
  else if Bool.eqb performed (negb (String.eqb blocked "")) then false
  else if negb performed && negb (String.eqb reason "") then false
  else if match TunnelExecution.Routes execution with Some n => n <? 0 | None => false end then false
  else if match TunnelExecution.ElapsedMS execution with Some n => n <? 0 | None => false end then false
  else if negb (Bool.eqb performed (bool_decide (is_Some (TunnelExecution.ElapsedMS execution)))) then false
  else true.

Definition Freshness_valid (freshness : Freshness) : bool :=
  contains_string [FreshnessFresh; FreshnessStale; FreshnessNeverObserved] freshness.

Definition boundedToken (value : string) : bool :=
  if String.eqb value "" || (48 <? slen value) then false
  else forallb (fun c => is_lower c || is_digit c || Ascii.eqb c "_") (chars value).

Definition projected_component_valid (component : ProjectedComponent.t) : bool :=
  boundedToken (ProjectedComponent.Component component) && boundedToken (ProjectedComponent.State component) &&
  boundedToken (ProjectedComponent.Reason component) && Freshness_valid (ProjectedComponent.Freshness component).

Definition proposal_class_valid (class : ProjectedProposalClass.t) : bool :=
  boundedToken (ProjectedProposalClass.Class class) && negb (ProjectedProposalClass.Count class =? 0).

(** ** Payload validation *)

(** The dynamic types a payload is decoded into. *)
Inductive PayloadType :=
| TObservation
| TTransition
| TAction
| TIncident
| TDeployment
| TConfigVersion
| TDiagnostic
| TSleep
| TTunnelDecision
| TTunnelExecution
| TTunnelHandback
| TPolicyLifecycle
| TConnectivityFact
| TArchiveOverflow
| TConnectivityProjection
| TNone.

Definition newPayload (schema : Schema) : PayloadType :=
  if String.eqb schema SchemaObservation then TObservation
  else if String.eqb schema SchemaTransition then TTransition
  else if String.eqb schema SchemaAction then TAction
  else if String.eqb schema SchemaIncident then TIncident
  else if String.eqb schema SchemaDeployment then TDeployment
  else if String.eqb schema SchemaConfigVersion then TConfigVersion
  else if String.eqb schema SchemaDiagnostic then TDiagnostic
  else if String.eqb schema SchemaSleep then TSleep
  else if String.eqb schema SchemaTunnelDecision then TTunnelDecision
  else if String.eqb schema SchemaTunnelExecution then TTunnelExecution
  else if String.eqb schema SchemaTunnelHandback then TTunnelHandback
  else if String.eqb schema SchemaPolicy then TPolicyLifecycle
  else if contains_string [SchemaConnectivityBaseline; SchemaConnectivityObservation] schema then TConnectivityFact
  else if String.eqb schema SchemaArchiveOverflow then TArchiveOverflow
  else if String.eqb schema SchemaConnectivityProjection then TConnectivityProjection
  else TNone.

Definition OutcomeAccepted := "accepted".


Section validation.
Context `{JSON} `{!Codec Fact.t}.

Definition payload_type (payload : Payload) : PayloadType :=
  match payload with
  | PObservation _ => TObservation
  | PTransition _ => TTransition
  | PAction _ => TAction
  | PIncident _ => TIncident
  | PDeployment _ => TDeployment
  | PConfigVersion _ => TConfigVersion
  | PDiagnostic _ => TDiagnostic
  | PSleep _ => TSleep
  | PTunnelDecision _ => TTunnelDecision
  | PTunnelExecution _ => TTunnelExecution
  | PTunnelHandback _ => TTunnelHandback
  | PPolicyLifecycle _ => TPolicyLifecycle
  | PConnectivityFact _ => TConnectivityFact
  | PArchiveOverflow _ => TArchiveOverflow
  | PConnectivityProjection _ => TConnectivityProjection
  | POther => TNone
  end.

(** The payload of a schema: the value, or what the pointer points to. *)
Definition asObservation (payload : Payload) : option Observation.t :=
  match payload with PObservation value => Some value | _ => None end.

Definition asTransition (payload : Payload) : option Transition.t :=
  match payload with PTransition value => Some value | _ => None end.

Definition asAction (payload : Payload) : option Action.t :=
  match payload with PAction value => Some value | _ => None end.

Definition asIncident (payload : Payload) : option Incident.t :=
  match payload with PIncident value => Some value | _ => None end.

Definition asDeployment (payload : Payload) : option Deployment.t :=
  match payload with PDeployment value => Some value | _ => None end.

Definition asConfigVersion (payload : Payload) : option ConfigVersion.t :=
  match payload with PConfigVersion value => Some value | _ => None end.

Definition asPolicyLifecycle (payload : Payload) : option PolicyLifecycle.t :=
  match payload with PPolicyLifecycle value => Some value | _ => None end.

Definition asArchiveOverflow (payload : Payload) : option ArchiveOverflow.t :=
  match payload with PArchiveOverflow value => Some value | _ => None end.

Definition asDiagnostic (payload : Payload) : option Diagnostic.t :=
  match payload with PDiagnostic value => Some value | _ => None end.

Definition asSleep (payload : Payload) : option Sleep.t :=
  match payload with PSleep value => Some value | _ => None end.

Definition asTunnelExecution (payload : Payload) : option TunnelExecution.t :=
  match payload with PTunnelExecution value => Some value | _ => None end.

Definition asTunnelDecision (payload : Payload) : option TunnelDecision.t :=
  match payload with PTunnelDecision value => Some value | _ => None end.

Definition asTunnelHandback (payload : Payload) : option TunnelHandback.t :=
  match payload with PTunnelHandback value => Some value | _ => None end.

Definition asConnectivityFact (payload : Payload) : option ConnectivityFact.t :=
  match payload with PConnectivityFact value => Some value | _ => None end.

Definition asConnectivityProjection (payload : Payload) : option ConnectivityProjection.t :=
  match payload with PConnectivityProjection value => Some value | _ => None end.

Definition mirrors_match (fact : Fact.t) (value : ConnectivityFact.t) : bool :=
  bool_decide (Fact.Domain fact = ConnectivityFact.Domain value) &&
  String.eqb (Fact.Component fact) (ConnectivityFact.Component value) &&
  String.eqb (Fact.SourceID fact) (ConnectivityFact.SourceID value) &&
  String.eqb (Fact.BootID fact) (ConnectivityFact.BootID value) &&
  (Fact.SourceSequence fact =? ConnectivityFact.SourceSequence value) &&
  Bool.eqb (Fact.Baseline fact) (ConnectivityFact.Baseline value).

Definition validateConnectivityFact (payload : Payload) (baseline : bool) : result event_error unit :=
  match asConnectivityFact payload with
  | Some value =>
      if (ConnectivityFact.FoldPosition value =? 0) || String.eqb (ConnectivityFact.Outcome value) "" ||
         negb (slen (ConnectivityFact.Digest value) =? 64) || (doc_len (ConnectivityFact.Fact value) =? 0)
      then Err ErrInvalidField
      else if negb (String.eqb (ConnectivityFact.Role value) "authoritative") &&
              negb (String.eqb (ConnectivityFact.Role value) "corroborating")
      then Err ErrInvalidField
      else if negb (Bool.eqb (String.eqb (ConnectivityFact.Outcome value) OutcomeAccepted)
                             (negb (ConnectivityFact.HostSequence value =? 0)))
      then Err ErrInvalidField
      else match Connectivity.Decode (ConnectivityFact.Fact value) with
           | Err _ => Err ErrInvalidField
           | Ok fact =>
               match Connectivity.Digest fact with
               | Err _ => Err ErrInvalidField
               | Ok digest =>
                   if negb (String.eqb digest (ConnectivityFact.Digest value)) then Err ErrInvalidField
                   else if negb (mirrors_match fact value) then Err ErrInvalidField
                   else if negb (Bool.eqb (Fact.Baseline fact) baseline) then Err ErrInvalidField
                   else Ok tt
               end
           end
  | None => Err ErrPayloadType
  end.

Definition validateConnectivityProjection (payload : Payload) : result event_error unit :=
  match asConnectivityProjection payload with
  | Some value =>
      if (ConnectivityProjection.SnapshotGeneration value =? 0) || (ConnectivityProjection.ReducerVersion value =? 0)
      then Err ErrInvalidField
      else if negb (boundedToken (ConnectivityProjection.Aggregate value)) ||
              negb (boundedToken (ConnectivityProjection.Authorization value)) ||
              negb (boundedToken (ConnectivityProjection.AuthorizationReason value))
      then Err ErrInvalidField
      else
        let components := ConnectivityProjection.Components value in
        let classes := ConnectivityProjection.ProposalClasses value in
        if Nat.eqb (length components) 0 || (MaxProjectedComponents <? Z.of_nat (length components))
        then Err ErrInvalidField
        else if negb (forallb projected_component_valid components) then Err ErrInvalidField
        else if MaxProjectedComponents <? Z.of_nat (length classes) then Err ErrInvalidField
        else if negb (forallb proposal_class_valid classes) then Err ErrInvalidField
        else Ok tt
  | None => Err ErrPayloadType
  end.

Definition observation_valid (payload : Payload) : bool :=
  match asObservation payload with
  | Some value =>
      validComponent (Observation.Component value) && validHealth (Observation.Health value) &&
      validReason (Observation.Reason value)
  | None => false
  end.

Definition transition_valid (payload : Payload) : bool :=
  match asTransition payload with
  | Some value =>
      validComponent (Transition.Component value) && Types.State_Valid (Transition.From value) &&
      Types.State_Valid (Transition.To value) && validReason (Transition.Reason value) &&
      negb (Transition.Generation value =? 0)
  | None => false
  end.

Definition action_valid (payload : Payload) : bool :=
  match asAction payload with
  | Some value =>
      validActionKind (Action.Kind value) && validActionTarget (Action.Target value) &&
      validActionOutcome (Action.Outcome value) && validReason (Action.Reason value) &&
      negb (Action.Attempt value =? 0) && negb (Action.Generation value =? 0)
  | None => false
  end.

Definition incident_valid (payload : Payload) : bool :=
  match asIncident payload with
  | Some value =>
      validReference (Incident.IncidentID value) && validIncidentStatus (Incident.Status value) &&
      validSeverity (Incident.Severity value) && validCategory (Incident.Category value) &&
      validComponent (Incident.Component value) && negb (Incident.Generation value =? 0)
  | None => false
  end.

Definition deployment_valid (payload : Payload) : bool :=
  match asDeployment payload with
  | Some value =>
      validReference (Deployment.DeploymentID value) && validReference (Deployment.Release value) &&
      validDeploymentStatus (Deployment.Status value) && validDigest (Deployment.DigestSHA256 value)
  | None => false
  end.

Definition config_valid (payload : Payload) : bool :=
  match asConfigVersion payload with
  | Some value =>
      validReference (ConfigVersion.ConfigID value) && validReference (ConfigVersion.Version value) &&
      validConfigStatus (ConfigVersion.Status value) && validDigest (ConfigVersion.DigestSHA256 value)
  | None => false
  end.

Definition diagnostic_valid (payload : Payload) : bool :=
  match asDiagnostic payload with
  | Some value => validComponent (Diagnostic.Component value) && validDiagnosticCode (Diagnostic.Code value)
  | None => false
  end.

Definition policy_lifecycle_valid (payload : Payload) : bool :=
  match asPolicyLifecycle payload with
  | Some value =>
      let status := PolicyLifecycle.Status value in
      if failed (Status_Validate status) ||
         failed (AuthorizationSuspension_Validate (PolicyLifecycle.AuthorizationSuspension value))
      then false
      else match PolicyLifecycle.ExistingState value with
           | Some existing =>
               negb (failed (ExistingStateStatus_Validate existing) ||
                     negb (bool_decide (ExistingStateStatus.Domain existing = Status.Domain status)) ||
                     String.eqb (Status.State status) PolicyNone)
           | None => true
           end
  | None => false
  end.

Definition validatePayload (schema : Schema) (payload : Payload) : result event_error unit :=
  if String.eqb schema SchemaConnectivityBaseline then validateConnectivityFact payload true
  else if String.eqb schema SchemaConnectivityObservation then validateConnectivityFact payload false
  else if String.eqb schema SchemaConnectivityProjection then validateConnectivityProjection payload
  else if String.eqb schema SchemaObservation then ensure (observation_valid payload) ErrInvalidField
  else if String.eqb schema SchemaTransition then ensure (transition_valid payload) ErrInvalidField
  else if String.eqb schema SchemaAction then ensure (action_valid payload) ErrInvalidField
  else if String.eqb schema SchemaIncident then ensure (incident_valid payload) ErrInvalidField
  else if String.eqb schema SchemaDeployment then ensure (deployment_valid payload) ErrInvalidField
  else if String.eqb schema SchemaConfigVersion then ensure (config_valid payload) ErrInvalidField
  else if String.eqb schema SchemaDiagnostic then ensure (diagnostic_valid payload) ErrInvalidField
  else if String.eqb schema SchemaArchiveOverflow then
    ensure (match asArchiveOverflow payload with Some value => validArchiveOverflow value | None => false end) ErrInvalidField
  else if String.eqb schema SchemaSleep then
    ensure (match asSleep payload with Some value => validSleep value | None => false end) ErrInvalidField
  else if String.eqb schema SchemaTunnelDecision then
    ensure (match asTunnelDecision payload with Some value => validTunnelDecision value | None => false end) ErrInvalidField
  else if String.eqb schema SchemaTunnelExecution then
    ensure (match asTunnelExecution payload with Some value => validTunnelExecution value | None => false end) ErrInvalidField
  else if String.eqb schema SchemaTunnelHandback then
    ensure (match asTunnelHandback payload with Some value => validTunnelHandback value | None => false end) ErrInvalidField
  else if String.eqb schema SchemaPolicy then ensure (policy_lifecycle_valid payload) ErrInvalidField
  else Err ErrUnknownSchema.

Definition CanonicalConnectivityRecord (fact : Fact.t) (hostSequence foldPosition : Z) (outcome role : string) :
  result conn_error (Schema * ConnectivityFact.t) :=
  encoded ← Connectivity.Encode fact;
  let schema := if Fact.Baseline fact then SchemaConnectivityBaseline else SchemaConnectivityObservation in
  Ok (schema, ConnectivityFact.mk (Fact.Domain fact) (Fact.Component fact) (Fact.SourceID fact) (Fact.BootID fact)
                (Fact.SourceSequence fact) hostSequence foldPosition outcome role (SHA256Hex encoded)
                (Fact.Baseline fact) encoded).

Definition DecodeConnectivityFact (record : ConnectivityFact.t) : result conn_error Fact.t :=
  Connectivity.Decode (ConnectivityFact.Fact record).

Definition sameCanonicalFact (left right : ConnectivityFact.t) : bool :=
  bool_decide (ConnectivityFact.Fact left = ConnectivityFact.Fact right).
End validation.

(** ** The wire form *)

Class EventCodecs `{JSON} := {
  Observation_codec :: Codec Observation.t;
  Transition_codec :: Codec Transition.t;
  Action_codec :: Codec Action.t;
  Incident_codec :: Codec Incident.t;
  Deployment_codec :: Codec Deployment.t;
  ConfigVersion_codec :: Codec ConfigVersion.t;
  Diagnostic_codec :: Codec Diagnostic.t;
  Sleep_codec :: Codec Sleep.t;
  TunnelDecision_codec :: Codec TunnelDecision.t;
  TunnelExecution_codec :: Codec TunnelExecution.t;
  TunnelHandback_codec :: Codec TunnelHandback.t;
  PolicyLifecycle_codec :: Codec PolicyLifecycle.t;
  ConnectivityFact_codec :: Codec ConnectivityFact.t;
  ArchiveOverflow_codec :: Codec ArchiveOverflow.t;
  ConnectivityProjection_codec :: Codec ConnectivityProjection.t;
  wire_codec :: Codec wireRecord.t;
  compact : Doc -> bool
}.

Section wire.
Context `{JSON} `{!EventCodecs} `{!Codec Fact.t}.

(** [json.Marshal] of the dynamic value. *)
Definition marshal_payload (payload : Payload) : option Doc :=
  match payload with
  | PObservation value => json_Marshal value
  | PTransition value => json_Marshal value
  | PAction value => json_Marshal value
  | PIncident value => json_Marshal value
  | PDeployment value => json_Marshal value
  | PConfigVersion value => json_Marshal value
  | PDiagnostic value => json_Marshal value
  | PSleep value => json_Marshal value
  | PTunnelDecision value => json_Marshal value
  | PTunnelExecution value => json_Marshal value
  | PTunnelHandback value => json_Marshal value
  | PPolicyLifecycle value => json_Marshal value
  | PConnectivityFact value => json_Marshal value
  | PArchiveOverflow value => json_Marshal value
  | PConnectivityProjection value => json_Marshal value
  | POther => None
  end.

(** The values [json.Marshal] writes without loss. *)
Definition exact_payload (payload : Payload) : bool :=
  match payload with
  | PObservation value => exact value
  | PTransition value => exact value
  | PAction value => exact value
  | PIncident value => exact value
  | PDeployment value => exact value
  | PConfigVersion value => exact value
  | PDiagnostic value => exact value
  | PSleep value => exact value
  | PTunnelDecision value => exact value
  | PTunnelExecution value => exact value
  | PTunnelHandback value => exact value
  | PPolicyLifecycle value => exact value
  | PConnectivityFact value => exact value
  | PArchiveOverflow value => exact value
  | PConnectivityProjection value => exact value
  | POther => false
  end.

(** [decodeStrict] into the pointer [newPayload] returned. *)
Definition decodeStrict (type : PayloadType) (data : Doc) : result event_error Payload :=
  of_option ErrMalformedEvent
    match type with
    | TObservation => PObservation <$> strictJSONDecode data
    | TTransition => PTransition <$> strictJSONDecode data
    | TAction => PAction <$> strictJSONDecode data
    | TIncident => PIncident <$> strictJSONDecode data
    | TDeployment => PDeployment <$> strictJSONDecode data
    | TConfigVersion => PConfigVersion <$> strictJSONDecode data
    | TDiagnostic => PDiagnostic <$> strictJSONDecode data
    | TSleep => PSleep <$> strictJSONDecode data
    | TTunnelDecision => PTunnelDecision <$> strictJSONDecode data
    | TTunnelExecution => PTunnelExecution <$> strictJSONDecode data
    | TTunnelHandback => PTunnelHandback <$> strictJSONDecode data
    | TPolicyLifecycle => PPolicyLifecycle <$> strictJSONDecode data
    | TConnectivityFact => PConnectivityFact <$> strictJSONDecode data
    | TArchiveOverflow => PArchiveOverflow <$> strictJSONDecode data
    | TConnectivityProjection => PConnectivityProjection <$> strictJSONDecode data
    | TNone => None
    end.

Definition Encode (schema : Schema) (payload : Payload) : result event_error Doc :=
  definition ← of_option ErrUnknownSchema (DefinitionFor schema);
  _ ← validatePayload schema payload;
  encodedPayload ← of_option ErrMalformedEvent (marshal_payload payload);
  if SchemaDefinition.MaxPayloadBytes definition <? doc_len encodedPayload then Err ErrPayloadTooLarge
  else
    encoded ← of_option ErrMalformedEvent
      (json_Marshal (wireRecord.mk schema (SchemaDefinition.Version definition)
                                   (SchemaDefinition.Priority definition) encodedPayload));
    if MaxEncodedEventBytes <? doc_len encoded then Err ErrEventTooLarge else Ok encoded.

Definition Decode (data : Doc) : result event_error EventRecord.t :=
  if MaxEncodedEventBytes <? doc_len data then Err ErrEventTooLarge
  else
    wire ← of_option ErrMalformedEvent (strictJSONDecode (T := wireRecord.t) data);
    definition ← of_option ErrUnknownSchema (DefinitionFor (wireRecord.Schema wire));
    if negb (wireRecord.Version wire =? SchemaDefinition.Version definition) then Err ErrUnsupportedVersion
    else if negb (String.eqb (wireRecord.Priority wire) (SchemaDefinition.Priority definition))
    then Err ErrPriorityMismatch
    else if (doc_len (wireRecord.Payload wire) =? 0) ||
            (SchemaDefinition.MaxPayloadBytes definition <? doc_len (wireRecord.Payload wire))
    then Err ErrPayloadTooLarge
    else
      payload ← decodeStrict (newPayload (wireRecord.Schema wire)) (wireRecord.Payload wire);
      _ ← validatePayload (wireRecord.Schema wire) payload;
      Ok (EventRecord.mk (wireRecord.Schema wire) (wireRecord.Version wire) (wireRecord.Priority wire) payload).

(** What is documented of [encoding/json]: the decoder reads back what the writer
    wrote; a written text is not empty and is compact, and a compact text
    embedded as a [json.RawMessage] is written as it is. *)
Class Reads (T : Type) `{!Codec T} :=
  reads_back : forall (v : T) d, exact v = true -> json_Marshal v = Some d -> strictJSONDecode d = Some v.

Class EventLaws := {
  Observation_reads :: Reads Observation.t;
  Transition_reads :: Reads Transition.t;
  Action_reads :: Reads Action.t;
  Incident_reads :: Reads Incident.t;
  Deployment_reads :: Reads Deployment.t;
  ConfigVersion_reads :: Reads ConfigVersion.t;
  Diagnostic_reads :: Reads Diagnostic.t;
  Sleep_reads :: Reads Sleep.t;
  TunnelDecision_reads :: Reads TunnelDecision.t;
  TunnelExecution_reads :: Reads TunnelExecution.t;
  TunnelHandback_reads :: Reads TunnelHandback.t;
  PolicyLifecycle_reads :: Reads PolicyLifecycle.t;
  ConnectivityFact_reads :: Reads ConnectivityFact.t;
  ArchiveOverflow_reads :: Reads ArchiveOverflow.t;
  ConnectivityProjection_reads :: Reads ConnectivityProjection.t;
  wire_reads :: Reads wireRecord.t;
  written_compact : forall payload d, marshal_payload payload = Some d -> compact d = true /\ 0 < doc_len d;
  wire_exact : forall schema priority d, is_Some (DefinitionFor schema) ->
    priority ∈ [PriorityCritical; PriorityOperational; PriorityDiagnostic] -> compact d = true ->
    exact (wireRecord.mk schema SchemaVersion priority d) = true
}.

(** A schema whose payload validates is registered, and the payload has its type. *)
Lemma validatePayload_type schema payload : validatePayload schema payload = Ok tt ->
  payload_type payload = newPayload schema /\ is_Some (DefinitionFor schema).
Proof.
  unfold validatePayload.
  repeat match goal with
  | |- context [String.eqb schema ?k] => destruct (String.eqb_spec schema k) as [->|_]
  end; try done.
  all: destruct payload; cbn; done.
Qed.

Lemma DefinitionFor_Some schema definition : DefinitionFor schema = Some definition ->
  SchemaDefinition.Schema definition = schema /\ SchemaDefinition.Version definition = SchemaVersion /\
  SchemaDefinition.Priority definition ∈ [PriorityCritical; PriorityOperational; PriorityDiagnostic].
Proof.
  unfold DefinitionFor, schema_priority. intros Hd. repeat case_match; simplify_eq; simpl.
  all: repeat split; apply contains_string_spec; reflexivity.
Qed.

Lemma decodeStrict_type type d payload : decodeStrict type d = Ok payload -> payload_type payload = type.
Proof.
  unfold decodeStrict, of_option. intros Hd.
  destruct type; cbn in Hd; try done.
  all: match type of Hd with context [_ <$> ?r] => destruct r; simpl in Hd; simplify_eq; reflexivity end.
Qed.

Lemma decodeStrict_marshalled `{!EventLaws} payload d :
  exact_payload payload = true -> marshal_payload payload = Some d ->
  decodeStrict (payload_type payload) d = Ok payload.
Proof.
  destruct payload; simpl; intros Hex Hm; [..|done].
  all: unfold decodeStrict; by rewrite (reads_back _ _ Hex Hm).
Qed.

Lemma of_option_Ok {E A} (e : E) (o : option A) a : of_option e o = Ok a <-> o = Some a.
Proof. destruct o; simpl; naive_solver. Qed.

Lemma Decode_Ok d r : Decode d = Ok r <->
  exists payload_text definition,
    doc_len d <= MaxEncodedEventBytes /\
    strictJSONDecode d = Some (wireRecord.mk (EventRecord.Schema r) (EventRecord.Version r)
                                             (EventRecord.Priority r) payload_text) /\
    DefinitionFor (EventRecord.Schema r) = Some definition /\
    EventRecord.Version r = SchemaDefinition.Version definition /\
    EventRecord.Priority r = SchemaDefinition.Priority definition /\
    doc_len payload_text <> 0 /\ doc_len payload_text <= SchemaDefinition.MaxPayloadBytes definition /\
    decodeStrict (newPayload (EventRecord.Schema r)) payload_text = Ok (EventRecord.Payload r) /\
    validatePayload (EventRecord.Schema r) (EventRecord.Payload r) = Ok tt.
Proof.
  unfold Decode. split.
  - intros Hd. destruct (_ <? doc_len d) eqn:Hs in Hd; [done|].
    apply bind_Ok in Hd as (wire & Hw%of_option_Ok & Hd).
    apply bind_Ok in Hd as (definition & Hdef%of_option_Ok & Hd).
    destruct (negb (_ =? _)) eqn:Hv in Hd; [done|].
    destruct (negb (String.eqb _ _)) eqn:Hp in Hd; [done|].
    destruct (_ || _) eqn:Hl in Hd; [done|]. inv_bind. bool_prop. simpl.
    exists (wireRecord.Payload wire), definition.
    match goal with u : unit |- _ => destruct u end. by destruct wire.
  - intros (text & definition & Hs & Hw & Hdef & Hv & Hp & Hz & Hm & Hpay & Hval).
    apply Z.ltb_ge in Hs, Hm. apply Z.eqb_neq in Hz.
    rewrite Hs, Hw. simpl. rewrite Hdef. simpl. rewrite <- Hv, <- Hp, Z.eqb_refl, String.eqb_refl, Hz, Hm.
    simpl. rewrite Hpay. simpl. rewrite Hval. by destruct r.
Qed.

Lemma Encode_Ok schema payload d : Encode schema payload = Ok d ->
  exists definition text,
    DefinitionFor schema = Some definition /\ validatePayload schema payload = Ok tt /\
    marshal_payload payload = Some text /\ doc_len text <= SchemaDefinition.MaxPayloadBytes definition /\
    json_Marshal (wireRecord.mk schema (SchemaDefinition.Version definition)
                                (SchemaDefinition.Priority definition) text) = Some d /\
    doc_len d <= MaxEncodedEventBytes.
Proof.
  unfold Encode. intros Hd.
  apply bind_Ok in Hd as (definition & Hdef%of_option_Ok & Hd).
  apply bind_Ok in Hd as ([] & Hval & Hd).
  apply bind_Ok in Hd as (text & Hm%of_option_Ok & Hd).
  destruct (_ <? doc_len text) eqn:Hl in Hd; [done|].
  apply bind_Ok in Hd as (encoded & Hw%of_option_Ok & Hd).
  destruct (_ <? doc_len encoded) eqn:Hs in Hd; [done|]. inv_bind. bool_prop. eauto 10.
Qed.

(** C20: Encoding and decoding are inverse on the wire.  Whatever [Encode] accepts
    and writes is at most 8 KiB, and [Decode] reads back from it the same schema and
    payload, under the version and the retention priority the schema table gives. *)
Theorem event_roundtrip `{!EventLaws} schema payload d :
  exact_payload payload = true -> Encode schema payload = Ok d ->
  doc_len d <= MaxEncodedEventBytes /\
  exists definition, DefinitionFor schema = Some definition /\
    Decode d = Ok (EventRecord.mk schema (SchemaDefinition.Version definition)
                                  (SchemaDefinition.Priority definition) payload).
Proof.
  intros Hex (definition & text & Hdef & Hval & Hm & Hl & Hw & Hs)%Encode_Ok.
  pose proof (written_compact _ _ Hm) as [Hc Hpos].
  pose proof (DefinitionFor_Some _ _ Hdef) as (_ & Hv & Hp).
  split; [done|]. exists definition. split; [done|]. apply Decode_Ok. simpl. exists text, definition.
  rewrite Hv in Hw |- *. split_and!; try done.
  - apply reads_back; [|done]. by apply wire_exact.
  - lia.
  - pose proof (proj1 (validatePayload_type _ _ Hval)) as <-. by apply decodeStrict_marshalled.
Qed.

End wire.

(** ** Journal records *)

Lemma Encode_len `{JSON} `{!Codec Fact.t} f d : Connectivity.Encode f = Ok d -> doc_len d <> 0.
Proof.
  unfold Connectivity.Encode. intros Hd. inv_bind. inv_result.
  match goal with Hm : MarshalCanonical _ = Ok _ |- _ => apply MarshalCanonical_len in Hm; lia end.
Qed.

Section journal.
Context `{JSON} `{!Codec Fact.t} `{!CodecLaws Fact.t}.
Hypothesis digest_length : forall d, slen (SHA256Hex d) = 64.

(** A folded fact always makes a journal record that stands on its own: the
    record [CanonicalConnectivityRecord] builds from a fact that encodes passes the
    validation of the schema it names (mirrors, digest and retention class agree with
    the fact), whenever a host sequence is given exactly to accepted events, and
    the fact decoded from it is the fact that was folded. *)
Theorem journal_record_valid fact host fold outcome role schema record :
  exact fact = true -> fold <> 0 -> outcome <> "" ->
  (outcome = OutcomeAccepted <-> host <> 0) -> (role = "authoritative" \/ role = "corroborating") ->
  CanonicalConnectivityRecord fact host fold outcome role = Ok (schema, record) ->
  validatePayload schema (PConnectivityFact record) = Ok tt /\ DecodeConnectivityFact record = Ok fact.
Proof.
  intros Hex Hfold Hout Hhost Hrole (encoded & Henc & [= <- <-])%bind_Ok.
  pose proof (proj1 (fact_roundtrip fact encoded) Hex Henc) as Hdec.
  split; [|exact Hdec].
  assert (Hdig : Connectivity.Digest fact = Ok (SHA256Hex encoded)) by (unfold Connectivity.Digest; by rewrite Henc).
  assert (Hcheck : validateConnectivityFact (PConnectivityFact
            (ConnectivityFact.mk (Fact.Domain fact) (Fact.Component fact) (Fact.SourceID fact) (Fact.BootID fact)
               (Fact.SourceSequence fact) host fold outcome role (SHA256Hex encoded) (Fact.Baseline fact) encoded))
            (Fact.Baseline fact) = Ok tt); [|by destruct (Fact.Baseline fact)].
  pose proof (Encode_len _ _ Henc) as Hlen.
  apply Z.eqb_neq in Hfold, Hlen. apply String.eqb_neq in Hout.
  unfold validateConnectivityFact. cbn. rewrite Hfold, Hout, digest_length, Hlen. cbn.
  assert (Hh : Bool.eqb (String.eqb outcome OutcomeAccepted) (negb (host =? 0)) = true).
  { apply Bool.eqb_true_iff, eq_true_iff_eq. rewrite String.eqb_eq, negb_true_iff, Z.eqb_neq. exact Hhost. }
  rewrite Hh, Hdec, Hdig, String.eqb_refl. unfold mirrors_match. cbn.
  rewrite bool_decide_eq_true_2 by done. rewrite !String.eqb_refl, Z.eqb_refl, !Bool.eqb_reflx.
  by destruct Hrole as [-> | ->].
Qed.
End journal.

(** ** A concrete wire form for the examples

    Texts are trees that keep what was written; every text is 100 bytes long. *)
Module EventSample.

Inductive text :=
| TextObservation (value : Observation.t)
| TextTransition (value : Transition.t)
| TextAction (value : Action.t)
| TextIncident (value : Incident.t)
| TextDeployment (value : Deployment.t)
| TextConfigVersion (value : ConfigVersion.t)
| TextDiagnostic (value : Diagnostic.t)
| TextSleep (value : Sleep.t)
| TextTunnelDecision (value : TunnelDecision.t)
| TextTunnelExecution (value : TunnelExecution.t)
| TextTunnelHandback (value : TunnelHandback.t)
| TextPolicyLifecycle (value : PolicyLifecycle.t)
| TextArchiveOverflow (value : ArchiveOverflow.t)
| TextConnectivityProjection (value : ConnectivityProjection.t)
| TextFact (fact : Fact.t)
| TextConnectivity (domain : Domain) (component source boot : string) (sequence host fold : Z)
    (outcome role digest : string) (baseline : bool) (fact : text)
| TextWire (schema : string) (version : Z) (priority : string) (payload : text)
| TextNode (texts : list string) (numbers : list Z) (inner : text).

#[global] Instance text_eq_dec : EqDecision text.
Proof. unfold EqDecision, Decision. intros x y. decide equality; apply (decide (_ = _)). Defined.

#[export] Instance json : JSON := {|
  Doc := text; doc_len := fun _ => 100; Transform := Some; SHA256Hex := fun _ => SampleDigest.hash [] |}.

#[export] Instance fact_codec : Codec Fact.t :=
  @Build_Codec json Fact.t (fun v => Some (TextFact v))
    (fun d => match d with TextFact v => Some v | _ => None end) (fun _ => true).

Definition write_fact (v : ConnectivityFact.t) : text :=
  TextConnectivity (ConnectivityFact.Domain v) (ConnectivityFact.Component v) (ConnectivityFact.SourceID v)
    (ConnectivityFact.BootID v) (ConnectivityFact.SourceSequence v) (ConnectivityFact.HostSequence v)
    (ConnectivityFact.FoldPosition v) (ConnectivityFact.Outcome v) (ConnectivityFact.Role v)
    (ConnectivityFact.Digest v) (ConnectivityFact.Baseline v) (ConnectivityFact.Fact v).

Definition read_fact (d : text) : option ConnectivityFact.t :=
  match d with
  | TextConnectivity domain component source boot sequence host fold outcome role digest baseline fact =>
      Some (@ConnectivityFact.mk json domain component source boot sequence host fold outcome role digest baseline fact)
  | _ => None
  end.

#[export] Instance event_codecs : EventCodecs := {|
  Observation_codec := @Build_Codec json Observation.t (fun v => Some (TextObservation v))
    (fun d => match d with TextObservation v => Some v | _ => None end) (fun _ => true);
  Transition_codec := @Build_Codec json Transition.t (fun v => Some (TextTransition v))
    (fun d => match d with TextTransition v => Some v | _ => None end) (fun _ => true);
  Action_codec := @Build_Codec json Action.t (fun v => Some (TextAction v))
    (fun d => match d with TextAction v => Some v | _ => None end) (fun _ => true);
  Incident_codec := @Build_Codec json Incident.t (fun v => Some (TextIncident v))
    (fun d => match d with TextIncident v => Some v | _ => None end) (fun _ => true);
  Deployment_codec := @Build_Codec json Deployment.t (fun v => Some (TextDeployment v))
    (fun d => match d with TextDeployment v => Some v | _ => None end) (fun _ => true);
  ConfigVersion_codec := @Build_Codec json ConfigVersion.t (fun v => Some (TextConfigVersion v))
    (fun d => match d with TextConfigVersion v => Some v | _ => None end) (fun _ => true);
  Diagnostic_codec := @Build_Codec json Diagnostic.t (fun v => Some (TextDiagnostic v))
    (fun d => match d with TextDiagnostic v => Some v | _ => None end) (fun _ => true);
  Sleep_codec := @Build_Codec json Sleep.t (fun v => Some (TextSleep v))
    (fun d => match d with TextSleep v => Some v | _ => None end) (fun _ => true);
  TunnelDecision_codec := @Build_Codec json TunnelDecision.t (fun v => Some (TextTunnelDecision v))
    (fun d => match d with TextTunnelDecision v => Some v | _ => None end) (fun _ => true);
  TunnelExecution_codec := @Build_Codec json TunnelExecution.t (fun v => Some (TextTunnelExecution v))
    (fun d => match d with TextTunnelExecution v => Some v | _ => None end) (fun _ => true);
  TunnelHandback_codec := @Build_Codec json TunnelHandback.t (fun v => Some (TextTunnelHandback v))
    (fun d => match d with TextTunnelHandback v => Some v | _ => None end) (fun _ => true);
  PolicyLifecycle_codec := @Build_Codec json PolicyLifecycle.t (fun v => Some (TextPolicyLifecycle v))
    (fun d => match d with TextPolicyLifecycle v => Some v | _ => None end) (fun _ => true);
  ArchiveOverflow_codec := @Build_Codec json ArchiveOverflow.t (fun v => Some (TextArchiveOverflow v))
    (fun d => match d with TextArchiveOverflow v => Some v | _ => None end) (fun _ => true);
  ConnectivityProjection_codec := @Build_Codec json ConnectivityProjection.t (fun v => Some (TextConnectivityProjection v))
    (fun d => match d with TextConnectivityProjection v => Some v | _ => None end) (fun _ => true);
  ConnectivityFact_codec := @Build_Codec json ConnectivityFact.t (fun v => Some (write_fact v)) read_fact (fun _ => true);
  wire_codec := @Build_Codec json wireRecord.t
    (fun v => Some (TextWire (wireRecord.Schema v) (wireRecord.Version v) (wireRecord.Priority v) (wireRecord.Payload v)))
    (fun d => match d with
              | TextWire schema version priority payload => Some (@wireRecord.mk json schema version priority payload)
              | _ => None
              end) (fun _ => true);
  compact := fun _ => true
|}.

#[export] Instance fact_laws : CodecLaws Fact.t.
Proof. intros v d _ [= <-]. reflexivity. Qed.

#[export] Instance event_laws : EventLaws.
Proof.
  split; try (intros v d _ [= <-]; try destruct v; reflexivity).
  - intros payload d _. split; [reflexivity|]. simpl. lia.
  - done.
Qed.

(** The incident a spool reports, and the text it is appended as. *)
Definition incident : Payload :=
  PIncident (Incident.mk "spool-overflow-1" IncidentOpened SeverityCritical IncidentSpoolOverflow ComponentRuntime 1).
Definition incident_text : text :=
  TextWire SchemaIncident SchemaVersion PriorityCritical
    (TextIncident (Incident.mk "spool-overflow-1" IncidentOpened SeverityCritical IncidentSpoolOverflow ComponentRuntime 1)).

Lemma incident_encoded : Encode SchemaIncident incident = Ok incident_text.
Proof. vm_compute. reflexivity. Qed.

Lemma event_roundtrip_witness : Encode SchemaIncident incident = Ok incident_text /\
  exists definition, DefinitionFor SchemaIncident = Some definition /\
    Decode incident_text = Ok (EventRecord.mk SchemaIncident (SchemaDefinition.Version definition)
                                 (SchemaDefinition.Priority definition) incident).
Proof. split; [exact incident_encoded|]. exact (proj2 (event_roundtrip SchemaIncident incident _ eq_refl incident_encoded)). Defined.

Lemma incident_decoded : Decode incident_text = Ok (EventRecord.mk SchemaIncident SchemaVersion PriorityCritical incident).
Proof. vm_compute. reflexivity. Qed.


Definition fact : Fact.t :=
  Fact.mk FactSchema FactSchemaVersion "6f1b2c3d-0000-4000-8000-000000000001" DomainRoot ComponentPhysicalNetwork
    "root.network" "boot-a" 3 (Time.mk 1000 true) 5 9 LifecycleReady ReasonProbeSucceeded true
    (Payload.mk (Some (PhysicalNetworkPayload.mk LinkWired true true)) None None None None None None None).

Definition journalled : Schema * ConnectivityFact.t :=
  (SchemaConnectivityBaseline,
   ConnectivityFact.mk DomainRoot ComponentPhysicalNetwork "root.network" "boot-a" 3 7 9 "accepted" "authoritative"
     (SampleDigest.hash []) true (TextFact fact)).

Lemma journalled_built : CanonicalConnectivityRecord fact 7 9 "accepted" "authoritative" = Ok journalled.
Proof. vm_compute. reflexivity. Qed.

Lemma sample_digest_length d : slen (SHA256Hex d) = 64.
Proof. vm_compute. reflexivity. Qed.

Lemma journal_record_valid_witness :
  validatePayload (fst journalled) (PConnectivityFact (snd journalled)) = Ok tt /\
  DecodeConnectivityFact (snd journalled) = Ok fact.
Proof.
  refine (journal_record_valid sample_digest_length fact 7 9 "accepted" "authoritative" _ _ eq_refl _ _ _ _ journalled_built);
    [lia|discriminate|split; [lia|reflexivity]|by left].
Defined.
End EventSample.
