(* ===== verification/Faults.v ===== *)
(** * Programs whose steps may be refused or interrupted

    A stateful operation of the source that talks to the disk, to processes or to other
    runtimes is a program over a world [W], with errors [E].  It ends in a value, in an
    error, or because the machine stopped in the middle of it.  [triple] is a program
    logic with a postcondition for each: since the world decides what becomes of each
    step, a triple that holds for every world is a statement about every fault and about
    every moment a crash can strike. *)

From stdpp Require Import base list.
From S2P Require Import Prelude.

Inductive Outcome := Carried | Refused | Crash.

Inductive run (E A : Type) :=
| Done (a : A)
| Failed (e : E)
| Crashed.
Arguments Done {E A} a.
Arguments Failed {E A} e.
Arguments Crashed {E A}.

Definition M (W E A : Type) : Type := W -> W * run E A.

#[export] Instance M_ret W E : MRet (M W E) := fun A a w => (w, Done a).
#[export] Instance M_bind W E : MBind (M W E) := fun A B k m w =>
  match m w with
  | (w', Done a) => k a w'
  | (w', Failed e) => (w', Failed e)
  | (w', Crashed) => (w', Crashed)
  end.

Section programs.
Context {W E : Type}.

Definition fail {A} (e : E) : M W E A := fun w => (w, Failed e).
Definition lift {A} (r : result E A) : M W E A :=
  fun w => match r with Ok a => (w, Done a) | Err e => (w, Failed e) end.
Definition get : M W E W := fun w => (w, Done w).
Definition update (f : W -> W) : M W E unit := fun w => (f w, Done tt).

(** [_ = op]: an error that is dropped. *)
Definition ignore (m : M W E unit) : M W E unit := fun w =>
  match m w with (w', Failed _) => (w', Done tt) | other => other end.

(** [err := op]: an error that the caller looks at. *)
Definition attempt {A} (m : M W E A) : M W E (result E A) := fun w =>
  match m w with
  | (w', Done a) => (w', Done (Ok a))
  | (w', Failed e) => (w', Done (Err e))
  | (w', Crashed) => (w', Crashed)
  end.

(** An error path that runs [cleanup] before it returns the error. *)
Definition on_error {A} (cleanup : M W E unit) (m : M W E A) : M W E A := fun w =>
  match m w with
  | (w', Failed e) =>
      match cleanup w' with
      | (w'', Crashed) => (w'', Crashed)
      | (w'', _) => (w'', Failed e)
      end
  | other => other
  end.

Fixpoint each {A} (f : A -> M W E unit) (l : list A) : M W E unit :=
  match l with
  | [] => mret tt
  | x :: rest => _ ← f x; each f rest
  end.

(** ** The logic *)

Definition triple {A} (P : W -> Prop) (m : M W E A) (Q : A -> W -> Prop) (F C : W -> Prop) : Prop :=
  forall w, P w -> match m w with
                   | (w', Done a) => Q a w'
                   | (w', Failed _) => F w'
                   | (w', Crashed) => C w'
                   end.

Lemma triple_conseq {A} (P P' : W -> Prop) (m : M W E A) (Q Q' : A -> W -> Prop) (F F' C C' : W -> Prop) :
  triple P' m Q' F' C' -> (forall w, P w -> P' w) -> (forall a w, Q' a w -> Q a w) ->
  (forall w, F' w -> F w) -> (forall w, C' w -> C w) -> triple P m Q F C.
Proof.
  intros Ht HP HQ HF HC w Hw. specialize (Ht w (HP w Hw)). destruct (m w) as [w' [a|e|]]; auto.
Qed.

Lemma triple_bind {A B} P (m : M W E A) Q (k : A -> M W E B) R F C :
  triple P m Q F C -> (forall a, triple (Q a) (k a) R F C) -> triple P (m ≫= k) R F C.
Proof.
  intros Hm Hk w Hw. specialize (Hm w Hw). unfold mbind, M_bind. destruct (m w) as [w' [a|e|]]; [|done..].
  by apply Hk.
Qed.

Lemma triple_pure {A} (pre : Prop) P (m : M W E A) Q F C :
  (pre -> triple P m Q F C) -> triple (fun w => pre /\ P w) m Q F C.
Proof. intros Hm w [Hp Hw]. exact (Hm Hp w Hw). Qed.

Lemma triple_intro {A} (P : W -> Prop) (m : M W E A) Q F C : triple P m Q F C -> forall w, P w ->
  match m w with (w', Done a) => Q a w' | (w', Failed _) => F w' | (w', Crashed) => C w' end.
Proof. done. Qed.

(** A precondition that names the world. *)
Lemma triple_pre_eq {A} w0 (P : W -> Prop) (m : M W E A) Q F C :
  (P w0 -> triple (fun w => w = w0) m Q F C) -> triple (fun w => w = w0 /\ P w) m Q F C.
Proof. intros Hm w [-> Hw]. exact (Hm Hw w0 eq_refl). Qed.

Lemma triple_weaken {A} w0 (P : W -> Prop) (Hw0 : P w0) (m : M W E A) Q F C :
  triple P m Q F C -> triple (fun w => w = w0) m Q F C.
Proof. intros Hm w ->. exact (Hm w0 Hw0). Qed.

Lemma triple_exists {A B} (P : B -> W -> Prop) (m : M W E A) Q F C :
  (forall b, triple (P b) m Q F C) -> triple (fun w => exists b, P b w) m Q F C.
Proof. intros Hm w [b Hw]. exact (Hm b w Hw). Qed.

Lemma triple_ret {A} P (a : A) (Q : A -> W -> Prop) F C : (forall w, P w -> Q a w) -> triple P (mret a) Q F C.
Proof. intros Hq w Hw. by apply Hq. Qed.

Lemma triple_get {B} P (k : W -> M W E B) R F C :
  (forall w0, triple (fun w => w = w0 /\ P w) (k w0) R F C) -> triple P (get ≫= k) R F C.
Proof. intros Hk w Hw. exact (Hk w w (conj eq_refl Hw)). Qed.

Lemma triple_update P (f : W -> W) Q F C :
  (forall w, P w -> Q tt (f w)) -> triple P (update f) Q F C.
Proof. intros Hq w Hw. by apply Hq. Qed.

Lemma triple_fail {A} P e (Q : A -> W -> Prop) (F C : W -> Prop) : (forall w, P w -> F w) -> triple P (fail e) Q F C.
Proof. intros Hf w Hw. by apply Hf. Qed.

Lemma triple_lift {A} P (r : result E A) (Q : A -> W -> Prop) (F C : W -> Prop) :
  (forall w a, P w -> r = Ok a -> Q a w) -> (forall w, P w -> F w) -> triple P (lift r) Q F C.
Proof. intros Hq Hf w Hw. unfold lift. destruct r; [by apply Hq|by apply Hf]. Qed.

Lemma triple_ignore P (m : M W E unit) (Q : unit -> W -> Prop) F C :
  triple P m Q (Q tt) C -> triple P (ignore m) Q F C.
Proof. intros Hm w Hw. specialize (Hm w Hw). unfold ignore. by destruct (m w) as [w' [[]|e|]]. Qed.

Lemma triple_attempt {A} P (m : M W E A) (Q : A -> W -> Prop) (R F C : W -> Prop) :
  triple P m Q R C ->
  triple P (attempt m) (fun r w => match r with Ok a => Q a w | Err _ => R w end) F C.
Proof. intros Hm w Hw. specialize (Hm w Hw). unfold attempt. by destruct (m w) as [w' [a|e|]]. Qed.

Lemma triple_attempt_same {A} P (m : M W E A) F C :
  triple P m (fun _ => P) P C -> triple P (attempt m) (fun _ => P) F C.
Proof.
  intros Hm. eapply triple_conseq; [exact (triple_attempt P m (fun _ => P) P F C Hm)|done| |done|done]. by intros [].
Qed.

Lemma triple_on_error {A} P (m : M W E A) cleanup Q R F C :
  triple P m Q R C -> triple R cleanup (fun _ => F) F C -> triple P (on_error cleanup m) Q F C.
Proof.
  intros Hm Hc w Hw. specialize (Hm w Hw). unfold on_error. destruct (m w) as [w' [a|e|]]; [done| |done].
  specialize (Hc w' Hm). by destruct (cleanup w') as [w'' [[]|e'|]].
Qed.

Lemma triple_each {A} (I : list A -> W -> Prop) (f : A -> M W E unit) l F C :
  (forall done x rest, l = (done ++ x :: rest)%list -> triple (I done) (f x) (fun _ => I (done ++ [x])%list) F C) ->
  triple (I []) (each f l) (fun _ => I l) F C.
Proof.
  intros Hf.
  assert (forall rest done, l = (done ++ rest)%list -> triple (I done) (each f rest) (fun _ => I l) F C) as Hgen;
    [|by apply (Hgen l [])].
  induction rest as [|x rest IH]; intros done E'; cbn [each].
  - apply triple_ret. intros w. rewrite E'. by rewrite app_nil_r.
  - eapply triple_bind; [by apply (Hf done x rest)|]. intros []. apply IH. by rewrite E', <- app_assoc.
Qed.
End programs.
