(* ===== verification/Spool.v ===== *)
(** * The event spool

    [internal/spool] ([spool.go], [index.go]): a directory of event records bounded
    in bytes, with the staging of a record under a pending name, eviction by priority
    class, the listing the spool keeps of its own directory, quarantine of records it
    cannot prove, acknowledgement, and the recovery that opening performs.

    The directory is a finite map from file names to files; [os.ReadDir] lists it in
    the order of the names.  A spool runs in a monad over the directory, the spool's own
    fields and a script that says what becomes of each coming operation on the disk: it
    is carried out, it fails and changes nothing, or the machine stops there.  A
    theorem for every script is therefore a theorem about every fault and about every
    moment a crash can strike.  Reading a file that is there succeeds.  The mutex makes
    each exported method one run.

    Parameters: the JSON codecs of the stored envelope and of the owner marker, the
    lenient reading [envelope] of an envelope, the content [torn] of a file whose
    writing did not finish, and the readings of the clock. *)

From Stdlib Require Import ZArith Lia Ascii String.
From stdpp Require Import base strings list option sets gmap sorting pretty.
From S2P Require Import Prelude GoTime Metadata PolicyCanonical Connectivity Events Faults.

Open Scope string_scope.
Open Scope Z_scope.

Inductive spool_error :=
| ErrInvalidOwner
| ErrOwnerMismatch
| ErrCorruptSpool
| ErrSpoolFull
| ErrRecordTooLarge
| ErrNotExist
| ErrDisk
| ErrEncoding
| ErrEvent (e : event_error)
| ErrMetadata (e : Metadata.error)
| ErrFullAnd (e : spool_error).

Definition DefaultMaxBytes := 100 * 1024 * 1024.
Definition ownerSchema := "hexroute.spool-owner.v1".
Definition entrySchema := "hexroute.spool-entry.v1".
Definition ownerFilename := ".owner.json".
Definition quarantinePrefix := ".quarantine-".

Abbreviation Owner := string (only parsing).
Definition OwnerRoot : Owner := "root".
Definition OwnerUser : Owner := "user".
Definition validOwner (owner : Owner) : bool := String.eqb owner OwnerRoot || String.eqb owner OwnerUser.

(** ** Names *)

(** [fmt.Sprintf("%020d.event", sequence)]; a [uint64] has at most 20 digits. *)
Definition stableName (sequence : Z) : string := of_chars (digits 20 sequence) ++ ".event".
Definition pendingName (sequence : Z) : string := ".pending-" ++ stableName sequence.
Definition quarantineName (sequence : Z) : string := quarantinePrefix ++ stableName sequence.

(** [strconv.ParseUint(text, 10, 64)]. *)
Definition ParseUint (text : list ascii) : option Z :=
  if match text with [] => true | _ => false end || negb (forallb is_digit text) then None
  else if max_u64 <? digits_value text then None else Some (digits_value text).

Definition parseStableName (name : string) : option Z :=
  if negb (slen name =? 26) || negb (has_suffix ".event" name) then None
  else match ParseUint (take 20 (chars name)) with
       | Some value => if 0 <? value then Some value else None
       | None => None
       end.

Definition isReservedName (name : string) : bool :=
  String.eqb name ownerFilename || has_prefix ".owner-" name || has_prefix ".pending-" name ||
  has_prefix quarantinePrefix name.

(** ** Records *)

Module SequenceRange.
Record t := mk { First : Z; Last : Z }.
End SequenceRange.

Module stableRecord.
Record t := mk { Sequence : Z; Size : Z; Priority : string }.
#[global] Instance eq_dec : EqDecision t.
Proof. solve_decision. Defined.
End stableRecord.

Module ownerMarker.
Record t := mk { Schema : string; Owner : string }.
End ownerMarker.

(** The part of an envelope that [readPriority] decodes. *)
Module Envelope.
Record t := mk { Schema : string; Sequence : Z; Priority : string }.
End Envelope.

Module wireEntry.
Section wire.
Context `{JSON}.
Record t := mk {
  Schema : string;
  Sequence : Z;
  Priority : string;
  Metadata : Metadata.Metadata;
  Event : Doc
}.
End wire.
Arguments t {_}.
End wireEntry.

Module Entry.
Section entry.
Context `{JSON}.
Record t := mk {
  Sequence : Z;
  Priority : string;
  Metadata : Metadata.Metadata;
  Event : Doc;
  Size : Z
}.
End entry.
Arguments t {_}.
End Entry.

Definition indexLastSequence (records : list stableRecord.t) : Z :=
  match last records with Some r => stableRecord.Sequence r | None => 0 end.

Definition indexTotalSize (records : list stableRecord.t) : Z :=
  foldr (fun r total => stableRecord.Size r + total) 0 records.

Definition excessBytes (size maximum : Z) : Z := if size <=? maximum then 0 else size - maximum.

Definition by_sequence (x y : stableRecord.t) : bool := stableRecord.Sequence x <? stableRecord.Sequence y.

(** ** Eviction *)

(** The inner loop of [chooseEvictions] over the records of one class: what was chosen
    with what it reclaims, and whether that is enough. *)
Fixpoint evict_class (required : Z) (priority : string) (candidates : list stableRecord.t)
    (evictions : list stableRecord.t) (reclaimed : Z) : list stableRecord.t * Z * bool :=
  match candidates with
  | [] => (evictions, reclaimed, false)
  | candidate :: rest =>
      if negb (String.eqb (stableRecord.Priority candidate) priority)
      then evict_class required priority rest evictions reclaimed
      else
        let evictions := (evictions ++ [candidate])%list in
        let reclaimed := reclaimed + stableRecord.Size candidate in
        if required <=? reclaimed then (evictions, reclaimed, true)
        else evict_class required priority rest evictions reclaimed
  end.

Fixpoint evict_classes (required : Z) (priorities : list string) (candidates : list stableRecord.t)
    (evictions : list stableRecord.t) (reclaimed : Z) : list stableRecord.t * bool :=
  match priorities with
  | [] => (evictions, false)
  | priority :: rest =>
      match evict_class required priority candidates evictions reclaimed with
      | (evictions, _, true) => (evictions, true)
      | (evictions, reclaimed, false) => evict_classes required rest candidates evictions reclaimed
      end
  end.

Definition chooseEvictions (candidates : list stableRecord.t) (required : Z) (includeCritical : bool) :
    list stableRecord.t * bool :=
  if required <=? 0 then ([], true)
  else
    let priorities :=
      ([PriorityDiagnostic; PriorityOperational] ++ (if includeCritical then [PriorityCritical] else []))%list in
    evict_classes required priorities candidates [] 0.

(** ** The disk *)

Inductive kind := Regular | Symlink | Folder | Irregular.
#[global] Instance kind_eq_dec : EqDecision kind.
Proof. solve_decision. Defined.

Module File.
Section file.
Context `{JSON}.
Record t := mk { type : kind; private : bool; data : Doc }.
End file.
Arguments t {_}.
End File.

Section spool.
Context `{JSON} `{!EventCodecs} `{!Codec Fact.t} `{!Codec wireEntry.t} `{!Codec ownerMarker.t}.
Context (torn : Doc) (envelope : Doc -> option Envelope.t) (clock : nat -> Z * Z).

Abbreviation Dir := (gmap string File.t) (only parsing).

(** The fields of [Spool], with the directory and the script of the disk.  [calls]
    counts the readings of the clock that were taken. *)
Record World := mkWorld {
  dir : Dir;
  script : list Outcome;
  calls : nat;
  maxBytes : Z;
  metadata : Generator;
  quarantined : list Z;
  indexed : option (list stableRecord.t);
  scans : Z;
  opens : Z
}.

Definition set_dir (d : Dir) (w : World) : World :=
  mkWorld d (script w) (calls w) (maxBytes w) (metadata w) (quarantined w) (indexed w) (scans w) (opens w).
Definition set_script (s : list Outcome) (w : World) : World :=
  mkWorld (dir w) s (calls w) (maxBytes w) (metadata w) (quarantined w) (indexed w) (scans w) (opens w).
Definition set_metadata (c : nat) (g : Generator) (w : World) : World :=
  mkWorld (dir w) (script w) c (maxBytes w) g (quarantined w) (indexed w) (scans w) (opens w).
Definition set_quarantined (q : list Z) (w : World) : World :=
  mkWorld (dir w) (script w) (calls w) (maxBytes w) (metadata w) q (indexed w) (scans w) (opens w).
Definition set_indexed (i : option (list stableRecord.t)) (w : World) : World :=
  mkWorld (dir w) (script w) (calls w) (maxBytes w) (metadata w) (quarantined w) i (scans w) (opens w).
Definition set_scans (n : Z) (w : World) : World :=
  mkWorld (dir w) (script w) (calls w) (maxBytes w) (metadata w) (quarantined w) (indexed w) n (opens w).
Definition set_opens (n : Z) (w : World) : World :=
  mkWorld (dir w) (script w) (calls w) (maxBytes w) (metadata w) (quarantined w) (indexed w) (scans w) n.

Abbreviation Prog := (M World spool_error).

(** One operation on the disk; [None] is its failure on this directory. *)
Definition perform (op : Dir -> option Dir) : Prog unit := fun w =>
  match script w with
  | Crash :: _ => (w, Crashed)
  | Refused :: rest => (set_script rest w, Failed ErrDisk)
  | _ =>
      let w' := set_script (tail (script w)) w in
      match op (dir w) with
      | Some d => (set_dir d w', Done tt)
      | None => (w', Failed ErrDisk)
      end
  end.

Definition remove (name : string) : Prog unit :=
  perform (fun d => match d !! name with Some _ => Some (delete name d) | None => None end).

Definition rename (from to : string) : Prog unit :=
  perform (fun d => match d !! from with Some f => Some (<[to := f]> (delete from d)) | None => None end).

(** [O_CREATE|O_EXCL]; until it is written the file is torn. *)
Definition create (name : string) : Prog unit :=
  perform (fun d => match d !! name with
                    | Some _ => None
                    | None => Some (<[name := File.mk Regular true torn]> d)
                    end).

Definition write (name : string) (data : Doc) : Prog unit :=
  perform (fun d => Some (<[name := File.mk Regular true data]> d)).

(** [file.Sync], [file.Close], [file.Chmod] and [syncDirectory]. *)
Definition flush : Prog unit := perform Some.

Definition forgetIndex : Prog unit := update (set_indexed None).

(** ** Entries *)

Definition marshalEntry (entry : Entry.t) : option Doc :=
  json_Marshal (wireEntry.mk entrySchema (Entry.Sequence entry) (Entry.Priority entry)
                             (Entry.Metadata entry) (Entry.Event entry)).

Definition newEntry (eventMetadata : Metadata.Metadata) (priority : string) (encodedEvent : Doc) :
    result spool_error Entry.t :=
  match Metadata.Validate eventMetadata with
  | Err _ => Err ErrCorruptSpool
  | Ok _ =>
      match Events.Decode encodedEvent with
      | Err _ => Err ErrCorruptSpool
      | Ok record =>
          if negb (String.eqb (EventRecord.Priority record) priority) then Err ErrCorruptSpool
          else
            let entry size := Entry.mk (Metadata.Sequence eventMetadata) priority eventMetadata encodedEvent size in
            match marshalEntry (entry 0) with
            | None => Err ErrEncoding
            | Some encoded => Ok (entry (doc_len encoded))
            end
      end
  end.

(** [os.Lstat] and [os.ReadFile] of one file. *)
Definition readFile (file : File.t) : result spool_error Entry.t :=
  if negb (bool_decide (File.type file = Regular)) || negb (File.private file) then Err ErrCorruptSpool
  else match strictJSONDecode (File.data file) with
       | None => Err ErrCorruptSpool
       | Some wire =>
           if negb (String.eqb (wireEntry.Schema wire) entrySchema) then Err ErrCorruptSpool
           else if negb (Metadata.Sequence (wireEntry.Metadata wire) =? wireEntry.Sequence wire)
           then Err ErrCorruptSpool
           else
             entry ← newEntry (wireEntry.Metadata wire) (wireEntry.Priority wire) (wireEntry.Event wire);
             if negb (Entry.Size entry =? doc_len (File.data file)) then Err ErrCorruptSpool else Ok entry
       end.

Definition readEntry (d : Dir) (name : string) : result spool_error Entry.t :=
  match d !! name with None => Err ErrNotExist | Some file => readFile file end.

(** The listing of [os.ReadDir]: sorted by name. *)
Definition ReadDir (d : Dir) : list (string * File.t) :=
  sort_slice (fun x y => String.ltb x.1 y.1) (map_to_list d).

(** ** The index *)

(** One turn of the loop of [scanIndex]. *)
Definition scan_file (name : string) (file : File.t) (seen : gset Z) : result spool_error (option stableRecord.t) :=
  if isReservedName name then Ok None
  else match parseStableName name with
       | None => Err ErrCorruptSpool
       | Some sequence =>
           if bool_decide (File.type file = Symlink) || bool_decide (File.type file = Folder) then Err ErrCorruptSpool
           else if bool_decide (sequence ∈ seen) then Err ErrCorruptSpool
           else if negb (bool_decide (File.type file = Regular)) || negb (File.private file) then Err ErrCorruptSpool
           else Ok (Some (stableRecord.mk sequence (doc_len (File.data file)) ""))
       end.

Fixpoint scan_files (files : list (string * File.t)) (seen : gset Z) : result spool_error (list stableRecord.t) :=
  match files with
  | [] => Ok []
  | (name, file) :: rest =>
      found ← scan_file name file seen;
      match found with
      | None => scan_files rest seen
      | Some record => records ← scan_files rest ({[stableRecord.Sequence record]} ∪ seen); Ok (record :: records)
      end
  end.

Definition scanIndex : Prog (list stableRecord.t) :=
  w ← get;
  _ ← update (set_scans (scans w + 1));
  lift (records ← scan_files (ReadDir (dir w)) ∅; Ok (sort_slice by_sequence records)).

Definition index : Prog (list stableRecord.t) :=
  w ← get;
  match indexed w with
  | Some records => mret records
  | None =>
      records ← scanIndex;
      _ ← update (set_indexed (Some records));
      mret records
  end.

(** The records of the staged entries as [os.Lstat] reports them; [None] when one of
    them cannot be inspected. *)
Definition published (d : Dir) (staged : list Entry.t) : option (list stableRecord.t) :=
  mapM (fun entry =>
    match d !! stableName (Entry.Sequence entry) with
    | None => None
    | Some file => Some (stableRecord.mk (Entry.Sequence entry) (doc_len (File.data file)) (Entry.Priority entry))
    end) staged.

Definition noteCommitted (staged : list Entry.t) (evictions : list stableRecord.t) : Prog unit :=
  w ← get;
  match indexed w with
  | None => mret tt
  | Some known =>
      let gone := map stableRecord.Sequence evictions in
      let kept := List.filter (fun r => negb (bool_decide (stableRecord.Sequence r ∈ gone))) known in
      match published (dir w) staged with
      | None => forgetIndex
      | Some records => update (set_indexed (Some (sort_slice by_sequence (kept ++ records)%list)))
      end
  end.

(** ** Quarantine *)

Definition quarantineLocked (sequence : Z) : Prog unit :=
  w ← get;
  _ ← match dir w !! stableName sequence with
      | None => mret tt
      | Some _ => rename (stableName sequence) (quarantineName sequence)
      end;
  _ ← flush;
  update (fun w => if bool_decide (sequence ∈ quarantined w) then w
                   else set_quarantined (quarantined w ++ [sequence])%list w).

(** [readPriority]: the class a stored file claims under this sequence. *)
Definition file_priority (sequence : Z) (file : File.t) : option string :=
  match envelope (File.data file) with
  | None => None
  | Some e =>
      if negb (String.eqb (Envelope.Schema e) entrySchema) || negb (Envelope.Sequence e =? sequence) then None
      else if contains_string [PriorityCritical; PriorityOperational; PriorityDiagnostic] (Envelope.Priority e)
      then Some (Envelope.Priority e) else None
  end.

Definition readPriority (d : Dir) (sequence : Z) : option string :=
  match d !! stableName sequence with None => None | Some file => file_priority sequence file end.

(** One turn of the classifying loop, in place: the record with its class if it has
    one or can be read, and whether it was opened. *)
Definition classify_record (d : Dir) (r : stableRecord.t) : stableRecord.t :=
  if negb (String.eqb (stableRecord.Priority r) "") then r
  else match readPriority d (stableRecord.Sequence r) with
       | Some priority => stableRecord.mk (stableRecord.Sequence r) (stableRecord.Size r) priority
       | None => r
       end.

Definition unclassified (records : list stableRecord.t) : list stableRecord.t :=
  List.filter (fun r => String.eqb (stableRecord.Priority r) "") records.

(** Each pass but the first sets aside at least one record of the directory, so two
    passes more than it has files are enough. *)
Fixpoint evictable_passes (fuel : nat) : Prog (list stableRecord.t) :=
  match fuel with
  | O => fail ErrCorruptSpool
  | S fuel =>
      records ← index;
      w ← get;
      let classified := map (classify_record (dir w)) records in
      _ ← update (set_opens (opens w + Z.of_nat (length (unclassified records))));
      _ ← update (set_indexed (Some classified));
      match unclassified classified with
      | [] => mret classified
      | damaged =>
          _ ← each (fun r => quarantineLocked (stableRecord.Sequence r)) damaged;
          _ ← forgetIndex;
          evictable_passes fuel
      end
  end.

Definition evictable : Prog (list stableRecord.t) :=
  w ← get; evictable_passes (S (S (size (dir w)))).

(** ** Staging and committing *)

Definition stage (entry : Entry.t) : Prog unit :=
  let path := pendingName (Entry.Sequence entry) in
  _ ← create path;
  on_error (ignore (remove path))
    (encoded ← lift (of_option ErrEncoding (marshalEntry entry));
     _ ← write path encoded;
     _ ← flush;
     _ ← flush;
     flush).

Definition commit (staged : list Entry.t) (evictions : list stableRecord.t) : Prog unit :=
  _ ← on_error forgetIndex (each (fun r => remove (stableName (stableRecord.Sequence r))) evictions);
  _ ← on_error forgetIndex
        (each (fun e => rename (pendingName (Entry.Sequence e)) (stableName (Entry.Sequence e))) staged);
  _ ← on_error forgetIndex flush;
  noteCommitted staged evictions.

(** [spool.metadata.Next()] with the clock's readings of this call. *)
Definition next : Prog Metadata.Metadata := fun w =>
  let '(monotonic, wall) := clock (calls w) in
  match Next monotonic wall (metadata w) with
  | (Ok m, g) => (set_metadata (S (calls w)) g w, Done m)
  | (Err e, g) => (set_metadata (S (calls w)) g w, Failed (ErrMetadata e))
  end.

Definition incident_entry (kind severity : string) (generation : Z -> Z) : Prog Entry.t :=
  eventMetadata ← next;
  let sequence := Metadata.Sequence eventMetadata in
  encoded ← lift (map_err ErrEvent (Events.Encode SchemaIncident
    (PIncident (Incident.mk (kind ++ pretty sequence) IncidentOpened severity IncidentSpoolOverflow
                  ControlNames.ComponentRuntime (generation sequence)))));
  lift (newEntry eventMetadata PriorityCritical encoded).

Definition overflowEntry : Prog Entry.t := incident_entry "spool-overflow-" SeverityCritical (fun sequence => sequence).

(** [defer spool.forgetIndex()] runs on every way out. *)
Definition quarantineEntry (count : nat) : Prog Entry.t :=
  entry ← on_error forgetIndex (incident_entry "spool-quarantine-" SeverityWarning (fun _ => Z.of_nat count));
  _ ← forgetIndex;
  mret entry.

Definition reportQuarantineLocked : Prog unit :=
  w ← get;
  if Nat.eqb (length (quarantined w)) 0 then mret tt
  else
    entry ← quarantineEntry (length (quarantined w));
    if maxBytes w <? Entry.Size entry then mret tt
    else
      _ ← stage entry;
      _ ← on_error (ignore (remove (pendingName (Entry.Sequence entry)))) (commit [entry] []);
      update (set_quarantined []).

Definition recordOverflow (candidates : list stableRecord.t) : Prog unit :=
  overflow ← overflowEntry;
  w ← get;
  if maxBytes w <? Entry.Size overflow then fail ErrRecordTooLarge
  else
    _ ← stage overflow;
    let required := excessBytes (indexTotalSize candidates + Entry.Size overflow) (maxBytes w) in
    let '(evictions, covered) := chooseEvictions candidates required true in
    if negb covered then
      _ ← ignore (remove (pendingName (Entry.Sequence overflow)));
      fail ErrRecordTooLarge
    else commit [overflow] evictions.

(** A critical record that does not fit among the critical ones: an overflow is recorded
    with it, and critical records may go. *)
Definition append_critical (candidates : list stableRecord.t) (maximum : Z) (incoming : Entry.t) : Prog Z :=
  overflow ← overflowEntry;
  if maximum <? Entry.Size incoming + Entry.Size overflow then
    _ ← ignore (remove (pendingName (Entry.Sequence incoming)));
    fail ErrRecordTooLarge
  else
    _ ← on_error (ignore (remove (pendingName (Entry.Sequence incoming)))) (stage overflow);
    let required := excessBytes (indexTotalSize candidates + Entry.Size incoming + Entry.Size overflow) maximum in
    let '(evictions, covered) := chooseEvictions candidates required true in
    if negb covered then
      _ ← ignore (remove (pendingName (Entry.Sequence incoming)));
      _ ← ignore (remove (pendingName (Entry.Sequence overflow)));
      fail ErrRecordTooLarge
    else
      _ ← commit [incoming; overflow] evictions;
      mret (Entry.Sequence incoming).

(** The tail of [Append] once the incoming record has to displace others. *)
Definition append_full (record : EventRecord.t) (incoming : Entry.t) : Prog Z :=
  let sequence := Entry.Sequence incoming in
  candidates ← evictable;
  w ← get;
  let stored := indexTotalSize candidates in
  let required := excessBytes (stored + Entry.Size incoming) (maxBytes w) in
  let '(evictions, covered) := chooseEvictions candidates required false in
  if covered then
    _ ← commit [incoming] evictions;
    mret sequence
  else if negb (String.eqb (EventRecord.Priority record) PriorityCritical) then
    _ ← ignore (remove (pendingName sequence));
    _ ← (fun w => match recordOverflow candidates w with
                  | (w', Failed e) => (w', Failed (ErrFullAnd e))
                  | other => other
                  end);
    fail ErrSpoolFull
  else append_critical candidates (maxBytes w) incoming.

(** [Append] from the point where the entry has been made. *)
Definition place_entry (record : EventRecord.t) (records : list stableRecord.t) (incoming : Entry.t) : Prog Z :=
  w ← get;
  if maxBytes w <? Entry.Size incoming then fail ErrRecordTooLarge
  else
    _ ← stage incoming;
    if excessBytes (indexTotalSize records + Entry.Size incoming) (maxBytes w) <=? 0 then
      _ ← commit [incoming] [];
      mret (Entry.Sequence incoming)
    else append_full record incoming.

Definition Append (encodedEvent : Doc) : Prog Z :=
  record ← lift (map_err ErrEvent (Events.Decode encodedEvent));
  _ ← reportQuarantineLocked;
  records ← index;
  eventMetadata ← next;
  let sequence := Metadata.Sequence eventMetadata in
  if sequence <=? indexLastSequence records then fail ErrCorruptSpool
  else
    incoming ← lift (newEntry eventMetadata (EventRecord.Priority record) encodedEvent);
    place_entry record records incoming.

(** ** Reading *)

(** One turn of the loop of [scanStable]. *)
Definition scan_entry (name : string) (file : File.t) (seen : gset Z) (seenEventIDs : gset string) :
    Prog (option (Z * Entry.t)) :=
  if isReservedName name then mret None
  else match parseStableName name with
       | None => fail ErrCorruptSpool
       | Some sequence =>
           if bool_decide (File.type file = Symlink) || bool_decide (File.type file = Folder) then fail ErrCorruptSpool
           else if bool_decide (sequence ∈ seen) then fail ErrCorruptSpool
           else
             _ ← update (fun w => set_opens (opens w + 1) w);
             match readFile file with
             | Ok entry =>
                 if negb (Entry.Sequence entry =? sequence) ||
                    bool_decide (Metadata.EventID (Entry.Metadata entry) ∈ seenEventIDs)
                 then _ ← quarantineLocked sequence; mret None
                 else mret (Some (sequence, entry))
             | Err _ => _ ← quarantineLocked sequence; mret None
             end
       end.

Fixpoint scan_entries (files : list (string * File.t)) (seen : gset Z) (seenEventIDs : gset string) : Prog (list Entry.t) :=
  match files with
  | [] => mret []
  | (name, file) :: rest =>
      found ← scan_entry name file seen seenEventIDs;
      match found with
      | None => scan_entries rest seen seenEventIDs
      | Some (sequence, entry) =>
          entries ← scan_entries rest ({[sequence]} ∪ seen)
                      ({[Metadata.EventID (Entry.Metadata entry)]} ∪ seenEventIDs);
          mret (entry :: entries)
      end
  end.

Definition scanStable : Prog (list Entry.t) :=
  w ← get;
  entries ← scan_entries (ReadDir (dir w)) ∅ ∅;
  mret (sort_slice (fun x y => Entry.Sequence x <? Entry.Sequence y) entries).

Definition Entries : Prog (list Entry.t) := scanStable.

(** The loop over one range.  The check for the largest sequence is at the end of the
    body, which [continue] skips. *)
Fixpoint read_range (fuel : nat) (sequence last : Z) (maxEntries : Z) (entries : list Entry.t) (complete : bool) :
    Prog (option (list Entry.t * bool)) :=
  match fuel with
  | O => mret None
  | S fuel =>
      if last <? sequence then mret (Some (entries, complete))
      else if Z.of_nat (length entries) =? maxEntries then fail ErrCorruptSpool
      else
        _ ← update (fun w => set_opens (opens w + 1) w);
        w ← get;
        match readEntry (dir w) (stableName sequence) with
        | Err ErrNotExist => read_range fuel (u64 (sequence + 1)) last maxEntries entries false
        | Err e => fail e
        | Ok entry =>
            let entries := (entries ++ [entry])%list in
            if sequence =? max_u64 then mret (Some (entries, complete))
            else read_range fuel (u64 (sequence + 1)) last maxEntries entries complete
        end
  end.

Fixpoint read_ranges (fuel : nat) (ranges : list SequenceRange.t) (maxEntries : Z) (entries : list Entry.t)
    (complete : bool) : Prog (option (list Entry.t * bool)) :=
  match ranges with
  | [] => mret (Some (entries, complete))
  | item :: rest =>
      if (SequenceRange.First item =? 0) || (SequenceRange.Last item <? SequenceRange.First item)
      then fail ErrCorruptSpool
      else
        found ← read_range fuel (SequenceRange.First item) (SequenceRange.Last item) maxEntries entries complete;
        match found with
        | None => mret None
        | Some (entries, complete) => read_ranges fuel rest maxEntries entries complete
        end
  end.

Definition EntriesBySequenceRanges (fuel : nat) (ranges : list SequenceRange.t) (maxEntries : Z) :
    Prog (option (list Entry.t * bool)) :=
  if Nat.eqb (length ranges) 0 || (maxEntries <? 1) then fail ErrCorruptSpool
  else read_ranges fuel ranges maxEntries [] true.

Definition Sequences : Prog (list Z) := records ← index; mret (map stableRecord.Sequence records).

(** [Entry]: absence is an answer, not an error. *)
Definition EntryAt (sequence : Z) : Prog (option Entry.t) :=
  _ ← update (fun w => set_opens (opens w + 1) w);
  w ← get;
  match readEntry (dir w) (stableName sequence) with
  | Err ErrNotExist => mret None
  | Err e => fail e
  | Ok entry => if negb (Entry.Sequence entry =? sequence) then fail ErrCorruptSpool else mret (Some entry)
  end.

Definition Size : Prog Z := records ← index; mret (indexTotalSize records).

(** ** Acknowledgement *)

Fixpoint remove_acknowledged (acknowledged : gset string) (entries : list Entry.t) (removed : Z) : Prog Z :=
  match entries with
  | [] => mret removed
  | entry :: rest =>
      if negb (bool_decide (Metadata.EventID (Entry.Metadata entry) ∈ acknowledged))
      then remove_acknowledged acknowledged rest removed
      else _ ← remove (stableName (Entry.Sequence entry)); remove_acknowledged acknowledged rest (removed + 1)
  end.

(** The deferred [forgetIndex] runs on every way out.  The number of records removed
    before an error is not kept. *)
Definition Acknowledge (eventIDs : list string) : Prog Z :=
  removed ← on_error forgetIndex
    (_ ← lift (map_err ErrMetadata (parse_all eventIDs));
     let acknowledged := list_to_set eventIDs : gset string in
     if Nat.eqb (length eventIDs) 0 then mret 0
     else
       entries ← scanStable;
       removed ← remove_acknowledged acknowledged entries 0;
       _ ← (if 0 <? removed then flush else mret tt);
       mret removed);
  _ ← forgetIndex;
  mret removed.

(** ** Opening *)

Definition recover_pending (name : string) : Prog unit :=
  w ← get;
  match readEntry (dir w) name with
  | Err _ => remove name
  | Ok pending =>
      let sequence := Entry.Sequence pending in
      if negb (String.eqb name (pendingName sequence)) then fail ErrCorruptSpool
      else match dir w !! stableName sequence with
           | Some stable =>
               if negb (bool_decide (Some (File.data stable) = File.data <$> dir w !! name)) then fail ErrCorruptSpool
               else remove name
           | None =>
               candidates ← evictable;
               w ← get;
               let required := excessBytes (indexTotalSize candidates + Entry.Size pending) (maxBytes w) in
               let '(evictions, covered) :=
                 chooseEvictions candidates required (String.eqb (Entry.Priority pending) PriorityCritical) in
               if negb covered then remove name else commit [pending] evictions
           end
  end.

Definition names (d : Dir) : list string := map fst (ReadDir d).

Definition recover : Prog unit :=
  w ← get;
  let directoryEntries := names (dir w) in
  _ ← each remove (List.filter (has_prefix ".owner-") directoryEntries);
  _ ← each recover_pending
        (sort_strings (List.filter (has_prefix ".pending-")
                         (List.filter (fun n => negb (has_prefix ".owner-" n)) directoryEntries)));
  records ← index;
  w ← get;
  if maxBytes w <? indexTotalSize records then fail ErrCorruptSpool else mret tt.

(** [temp] is the name [os.CreateTemp] makes for the marker's temporary file. *)
Definition ensureOwner (temp : string) (owner : Owner) : Prog unit :=
  w ← get;
  match dir w !! ownerFilename with
  | Some file =>
      match strictJSONDecode (File.data file) with
      | None => fail ErrCorruptSpool
      | Some marker =>
          if negb (String.eqb (ownerMarker.Schema marker) ownerSchema) then fail ErrCorruptSpool
          else if negb (String.eqb (ownerMarker.Owner marker) owner) then fail ErrOwnerMismatch
          else if negb (bool_decide (File.type file = Regular)) || negb (File.private file)
          then fail ErrCorruptSpool else mret tt
      end
  | None =>
      encoded ← lift (of_option ErrEncoding (json_Marshal (ownerMarker.mk ownerSchema owner)));
      _ ← create temp;
      on_error (ignore (remove temp))
        (_ ← flush;
         _ ← write temp encoded;
         _ ← flush;
         _ ← flush;
         _ ← rename temp ownerFilename;
         flush)
  end.

(** What [os.Lstat] finds at the spool's path; a missing one is created empty. *)
Inductive place := Missing | Directory | SomethingElse.

Definition ensureDirectory (p : place) : Prog unit :=
  match p with
  | Missing => _ ← flush; flush
  | Directory => flush
  | SomethingElse => fail ErrCorruptSpool
  end.

(** [Open] over the content [dir] of the directory; the fields of the world it starts in
    other than the directory, the script and the clock are those of a new [Spool]. *)
Definition Open (absolute : bool) (p : place) (temp : string) (owner : Owner) (maximum : Z) (node : string)
    (random : list Z) (disk : Dir) (steps : list Outcome) : World * run spool_error unit :=
  let bound := if maximum =? 0 then DefaultMaxBytes else maximum in
  let blank := mkGenerator "" "" 0 0 0 [] in
  let w := mkWorld disk steps 0 bound blank [] None 0 0 in
  if negb absolute then (w, Failed ErrCorruptSpool)
  else if negb (validOwner owner) then (w, Failed ErrInvalidOwner)
  else if bound <? 1 then (w, Failed ErrCorruptSpool)
  else
    (_ ← ensureDirectory p;
     _ ← ensureOwner temp owner;
     _ ← recover;
     records ← index;
     generator ← lift (map_err ErrMetadata (NewGenerator node (indexLastSequence records) (fst (clock 0)) random));
     update (set_metadata 1 generator)) w.

End spool.
(** ** Names *)

Definition all_digits (l : list ascii) : Prop := Forall (fun c => is_digit c = true) l.

Lemma digit_value_bounds c : is_digit c = true -> 0 <= digit_value c < 10.
Proof.
  unfold is_digit, in_range, digit_value. intros Hc. bool_prop.
  change (code "0") with 48 in *. change (code "9") with 57 in *. lia.
Qed.

Lemma digits_value_cons c l :
  digits_value (c :: l) = digit_value c * 10 ^ Z.of_nat (length l) + digits_value l.
Proof. change (c :: l) with ([c] ++ l)%list. rewrite digits_value_app. by unfold digits_value at 1. Qed.

Lemma digits_value_bound l : all_digits l -> 0 <= digits_value l < 10 ^ Z.of_nat (length l).
Proof.
  induction 1 as [|c l Hc Hl IH]; [unfold digits_value; simpl; lia|].
  rewrite digits_value_cons. apply digit_value_bounds in Hc. simpl length.
  rewrite Nat2Z.inj_succ, Z.pow_succ_r by lia. nia.
Qed.

Lemma digit_value_inj c d : digit_value c = digit_value d -> c = d.
Proof.
  unfold digit_value, code. intros Hc. rewrite <- (ascii_nat_embedding c), <- (ascii_nat_embedding d).
  f_equal. lia.
Qed.

Lemma digits_value_inj l k : all_digits l -> all_digits k -> length l = length k ->
  digits_value l = digits_value k -> l = k.
Proof.
  intros Hl. revert k. induction Hl as [|c l Hc Hl IH]; intros [|d k] Hk Hlen Hv; try done.
  apply Forall_cons in Hk as [Hd Hk]. injection Hlen as Hlen. rewrite !digits_value_cons, Hlen in Hv.
  pose proof (digits_value_bound _ Hl) as Bl. pose proof (digits_value_bound _ Hk) as Bk. rewrite Hlen in Bl.
  apply digit_value_bounds in Hc, Hd.
  assert (digit_value c = digit_value d) as Hcd by nia.
  rewrite (digit_value_inj _ _ Hcd). f_equal. apply IH; [done..|]. rewrite Hcd in Hv. lia.
Qed.

(** The sequences that name records. *)
Definition sequence_ok (sequence : Z) : Prop := 0 < sequence <= max_u64.

Lemma chars_stableName s : chars (stableName s) = (digits 20 s ++ chars ".event")%list.
Proof. unfold stableName. by rewrite chars_app, chars_of_chars. Qed.

(** File names and sequences correspond one to one.  [parseStableName] reads back
    the sequence [stableName] wrote, and accepts no other spelling: a name it accepts is the
    name of the sequence it returns, so two files of a directory never claim one sequence. *)
Theorem stable_names_roundtrip name sequence :
  parseStableName name = Some sequence <-> sequence_ok sequence /\ name = stableName sequence.
Proof.
  unfold parseStableName, ParseUint, sequence_ok. split.
  - intros Hp. destruct (_ || _) eqn:Hl in Hp; [done|]. bool_prop.
    assert (slen name = 26) as Hlen by done.
    destruct (_ || _) eqn:Hd in Hp; [done|]. destruct (max_u64 <? _) eqn:Hm in Hp; [done|].
    destruct (0 <? _) eqn:Hz in Hp; [|done]. injection Hp as <-. bool_prop. split; [lia|].
    apply (inj chars). rewrite chars_stableName.
    match goal with Hx : has_suffix _ _ = true |- _ => apply has_suffix_spec in Hx as [l Hsuf] end.
    assert (length l = 20%nat) as Hll.
    { pose proof (f_equal length Hsuf) as Hn. rewrite length_chars, length_app in Hn.
      change (length (chars ".event")) with 6%nat in Hn. lia. }
    rewrite Hsuf, take_app_length' in * by done. f_equal.
    assert (all_digits l) as Hdig.
    { apply Forall_forall. intros c Hc. by eapply forallb_forall; [|apply list_elem_of_In in Hc]. }
    apply digits_value_inj; [done|apply digits_are_digits|by rewrite digits_length|].
    rewrite digits_value_digits, Z.mod_small; [done|]. pose proof (digits_value_bound _ Hdig) as Hb.
    by rewrite Hll in Hb.
  - intros [Hs ->].
    assert (slen (stableName sequence) = 26) as Hlen.
    { rewrite <- length_chars, chars_stableName, length_app, digits_length. done. }
    rewrite Hlen. change (negb (26 =? 26)) with false. cbn [orb].
    replace (has_suffix ".event" (stableName sequence)) with true
      by (symmetry; apply has_suffix_spec; eexists; apply chars_stableName).
    cbn [negb]. rewrite chars_stableName, take_app_length' by (by rewrite digits_length).
    replace (forallb is_digit (digits 20 sequence)) with true
      by (symmetry; apply forallb_forall; intros c Hc%list_elem_of_In;
          by eapply Forall_forall in Hc; [|apply digits_are_digits]).
    rewrite digits_value_digits, Z.mod_small by (unfold max_u64 in Hs; lia).
    destruct (digits 20 sequence) eqn:E; [by apply (f_equal length) in E; rewrite digits_length in E|].
    cbn [orb negb]. rewrite (proj2 (Z.ltb_ge _ _)), (proj2 (Z.ltb_lt _ _)) by lia. done.
Qed.

(** ** Eviction *)

(** The order in which records go: by class, and within a class as listed. *)
Definition eviction_order (includeCritical : bool) (candidates : list stableRecord.t) : list stableRecord.t :=
  flat_map (fun priority => List.filter (fun r => String.eqb (stableRecord.Priority r) priority) candidates)
    ([PriorityDiagnostic; PriorityOperational] ++ (if includeCritical then [PriorityCritical] else []))%list.

(** The shortest prefix that reclaims what is required, or all of it. *)
Fixpoint shortest (required : Z) (order : list stableRecord.t) (reclaimed : Z) : list stableRecord.t * bool :=
  match order with
  | [] => ([], false)
  | r :: rest =>
      let reclaimed := reclaimed + stableRecord.Size r in
      if required <=? reclaimed then ([r], true)
      else let '(chosen, enough) := shortest required rest reclaimed in (r :: chosen, enough)
  end.

Lemma evict_class_shortest required priority candidates evictions reclaimed rest :
  let mine := List.filter (fun r => String.eqb (stableRecord.Priority r) priority) candidates in
  match evict_class required priority candidates evictions reclaimed with
  | (chosen, _, true) => exists more, chosen = (evictions ++ more)%list /\
                           shortest required (mine ++ rest)%list reclaimed = (more, true)
  | (chosen, reclaimed', false) =>
      chosen = (evictions ++ mine)%list /\
      shortest required (mine ++ rest)%list reclaimed =
        (let '(more, enough) := shortest required rest reclaimed' in ((mine ++ more)%list, enough))
  end.
Proof.
  revert evictions reclaimed. induction candidates as [|c candidates IH]; intros evictions reclaimed; cbn.
  - rewrite app_nil_r. split; [done|]. by destruct (shortest required rest reclaimed).
  - destruct (String.eqb (stableRecord.Priority c) priority) eqn:Hp; cbn; [|apply IH].
    destruct (required <=? reclaimed + stableRecord.Size c) eqn:Hr.
    + by exists [c].
    + specialize (IH (evictions ++ [c])%list (reclaimed + stableRecord.Size c)).
      destruct (evict_class _ _ _ _ _) as [[chosen reclaimed'] [|]].
      * destruct IH as (more & -> & ->). exists (c :: more). by rewrite <- app_assoc.
      * destruct IH as [-> IH2]. rewrite IH2, <- app_assoc. split; [done|].
        by destruct (shortest required rest reclaimed').
Qed.

Lemma evict_classes_shortest required priorities candidates evictions reclaimed :
  evict_classes required priorities candidates evictions reclaimed =
  (let '(chosen, enough) := shortest required
     (flat_map (fun priority => List.filter (fun r => String.eqb (stableRecord.Priority r) priority) candidates)
        priorities) reclaimed in ((evictions ++ chosen)%list, enough)).
Proof.
  revert evictions reclaimed. induction priorities as [|p priorities IH]; intros evictions reclaimed; cbn.
  { by rewrite app_nil_r. }
  pose proof (evict_class_shortest required p candidates evictions reclaimed
    (flat_map (fun priority => List.filter (fun r => String.eqb (stableRecord.Priority r) priority) candidates)
       priorities)) as Hc.
  destruct (evict_class _ _ _ _ _) as [[chosen reclaimed'] [|]]; cbn in Hc.
  - by destruct Hc as (more & -> & ->).
  - destruct Hc as [-> ->]. rewrite IH. destruct (shortest _ _ reclaimed'). by rewrite app_assoc.
Qed.

Lemma indexTotalSize_cons r l : indexTotalSize (r :: l) = stableRecord.Size r + indexTotalSize l.
Proof. done. Qed.

Lemma indexTotalSize_app l k : indexTotalSize (l ++ k)%list = indexTotalSize l + indexTotalSize k.
Proof. induction l as [|r l IH]; cbn; [done|]. fold (indexTotalSize (l ++ k)%list) (indexTotalSize l). lia. Qed.

Lemma shortest_spec required order reclaimed chosen enough : shortest required order reclaimed = (chosen, enough) ->
  exists rest, order = (chosen ++ rest)%list /\
    (forall k, (k < length chosen)%nat -> (0 < k)%nat -> reclaimed + indexTotalSize (take k chosen) < required) /\
    (if enough then required <= reclaimed + indexTotalSize chosen /\ chosen <> []
     else rest = [] /\ (order = [] \/ reclaimed + indexTotalSize order < required)).
Proof.
  revert reclaimed chosen. induction order as [|r order IH]; intros reclaimed chosen; cbn [shortest].
  { intros [= <- <-]. exists []. split; [done|]. split; [cbn; lia|]. split; [done|by left]. }
  destruct (required <=? reclaimed + stableRecord.Size r) eqn:Hr.
  - intros [= <- <-]. bool_prop. exists order. split; [done|]. split; [cbn; lia|]. cbn. split; [lia|done].
  - destruct (shortest required order (reclaimed + stableRecord.Size r)) as [more b] eqn:Hs. intros [= <- <-]. bool_prop.
    destruct (IH _ _ Hs) as (rest & -> & Hk & Hend). exists rest. split; [done|]. split.
    + intros [|[|k]] Hlt Hpos; [lia|destruct more; cbn; lia|].
      specialize (Hk (S k) ltac:(cbn in Hlt; lia) ltac:(lia)).
      change (take (S (S k)) (r :: more)) with (r :: take (S k) more). rewrite indexTotalSize_cons. lia.
    + change ((r :: more) ++ rest)%list with (r :: (more ++ rest))%list. rewrite !indexTotalSize_cons. destruct b.
      * destruct Hend. split; [lia|done].
      * destruct Hend as [-> Hend]. split; [done|]. right. destruct Hend as [E|Hend]; [|lia]. rewrite E. cbn. lia.
Qed.

(** The rank of a class, and which of two records goes first. *)
Definition rank (priority : string) : Z :=
  if String.eqb priority PriorityDiagnostic then 0 else if String.eqb priority PriorityOperational then 1 else 2.

Definition goes_before (x y : stableRecord.t) : Prop :=
  rank (stableRecord.Priority x) < rank (stableRecord.Priority y) \/
  (rank (stableRecord.Priority x) = rank (stableRecord.Priority y) /\ stableRecord.Sequence x < stableRecord.Sequence y).

(** A listing: strictly sorted by sequence. *)
Definition listed (records : list stableRecord.t) : Prop :=
  StronglySorted (fun x y => stableRecord.Sequence x < stableRecord.Sequence y) records.
Definition classified (r : stableRecord.t) : Prop :=
  stableRecord.Priority r ∈ [PriorityDiagnostic; PriorityOperational; PriorityCritical].

Lemma elem_of_filter_class priority candidates r :
  r ∈ List.filter (fun r => String.eqb (stableRecord.Priority r) priority) candidates <->
  r ∈ candidates /\ stableRecord.Priority r = priority.
Proof. rewrite !list_elem_of_In, filter_In, String.eqb_eq. done. Qed.

Lemma elem_of_order includeCritical candidates r :
  r ∈ eviction_order includeCritical candidates <->
  r ∈ candidates /\ classified r /\ (stableRecord.Priority r = PriorityCritical -> includeCritical = true).
Proof.
  unfold eviction_order, classified. cbn [flat_map app].
  rewrite !elem_of_app, !elem_of_filter_class. destruct includeCritical; cbn.
  - rewrite app_nil_r, elem_of_filter_class, !elem_of_cons, elem_of_nil. naive_solver.
  - rewrite !elem_of_cons, !elem_of_nil. split.
    + intros [[? ->]|[[? ->]|[]]]; (split; [done|]; split; [tauto|done]).
    + intros (? & [?|[?|[Hp|[]]]] & Hc); [by left|right; by left|]. by specialize (Hc Hp).
Qed.

Lemma sorted_filter {A} (R : A -> A -> Prop) (p : A -> bool) l :
  StronglySorted R l -> StronglySorted R (List.filter p l).
Proof.
  induction 1 as [|x l Hl IH Hx]; cbn; [constructor|]. destruct (p x); [|done]. constructor; [done|].
  apply Forall_forall. intros y Hy%list_elem_of_In%filter_In. eapply Forall_forall; [done|].
  apply list_elem_of_In. apply Hy.
Qed.

Lemma sorted_app {A} (R : A -> A -> Prop) l k :
  StronglySorted R l -> StronglySorted R k -> (forall x y, x ∈ l -> y ∈ k -> R x y) -> StronglySorted R (l ++ k).
Proof.
  intros Hl Hk Hlk. induction Hl as [|x l Hl IH Hx]; cbn; [done|]. constructor.
  - apply IH. intros. apply Hlk; [by right|done].
  - apply Forall_app. split; [done|]. apply Forall_forall. intros y Hy. apply Hlk; [by left|done].
Qed.

Lemma sorted_impl {A} (R S : A -> A -> Prop) l :
  (forall x y, x ∈ l -> y ∈ l -> R x y -> S x y) -> StronglySorted R l -> StronglySorted S l.
Proof.
  intros Hi. induction 1 as [|x l Hl IH Hx]; constructor.
  - apply IH. intros. apply Hi; [by right..|done].
  - apply Forall_forall. intros y Hy. apply Hi; [by left|by right|]. by eapply Forall_forall in Hy.
Qed.

Lemma order_sorted includeCritical candidates : listed candidates ->
  StronglySorted goes_before (eviction_order includeCritical candidates).
Proof.
  intros Hl.
  assert (forall p, StronglySorted goes_before
            (List.filter (fun r => String.eqb (stableRecord.Priority r) p) candidates)) as Hc.
  { intros p. eapply sorted_impl; [|by apply sorted_filter].
    intros x y [_ Hx]%elem_of_filter_class [_ Hy]%elem_of_filter_class Hs. right. by rewrite Hx, Hy. }
  unfold eviction_order. cbn [flat_map app].
  apply sorted_app; [apply Hc| |].
  - apply sorted_app; [apply Hc| |].
    + destruct includeCritical; cbn; [rewrite app_nil_r; apply Hc|constructor].
    + intros x y [_ Hx]%elem_of_filter_class Hy. left. rewrite Hx. destruct includeCritical; cbn in Hy.
      * rewrite app_nil_r in Hy. apply elem_of_filter_class in Hy as [_ ->]. done.
      * by apply elem_of_nil in Hy.
  - intros x y [_ Hx]%elem_of_filter_class Hy. left. rewrite Hx.
    apply elem_of_app in Hy as [[_ ->]%elem_of_filter_class|Hy]; [done|]. destruct includeCritical; cbn in Hy.
    + rewrite app_nil_r in Hy. apply elem_of_filter_class in Hy as [_ ->]. done.
    + by apply elem_of_nil in Hy.
Qed.

Lemma chooseEvictions_shortest candidates required includeCritical : 0 < required ->
  chooseEvictions candidates required includeCritical =
  shortest required (eviction_order includeCritical candidates) 0.
Proof.
  intros Hr. unfold chooseEvictions. rewrite (proj2 (Z.leb_gt _ _)) by done.
  rewrite evict_classes_shortest. unfold eviction_order. by destruct (shortest _ _ 0).
Qed.

Lemma sorted_app_inv {A} (R : A -> A -> Prop) l k x y :
  StronglySorted R (l ++ k) -> x ∈ l -> y ∈ k -> R x y.
Proof.
  induction l as [|z l IH]; intros Hs Hx Hy; [by apply elem_of_nil in Hx|].
  inversion Hs as [|? ? Hs' Hz]; subst. apply elem_of_cons in Hx as [-> | Hx]; [|by apply IH].
  eapply Forall_forall; [done|]. apply elem_of_app. by right.
Qed.

Lemma prefix_closed order chosen rest x y : StronglySorted goes_before order -> order = (chosen ++ rest)%list ->
  x ∈ chosen -> y ∈ order -> goes_before y x -> y ∈ chosen.
Proof.
  intros Hs -> Hx [Hy|Hy]%elem_of_app Hb; [done|]. exfalso.
  pose proof (sorted_app_inv _ _ _ _ _ Hs Hx Hy). unfold goes_before in *. lia.
Qed.

Lemma chooseEvictions_prefix candidates required includeCritical evictions covered :
  chooseEvictions candidates required includeCritical = (evictions, covered) ->
  exists rest, eviction_order includeCritical candidates = (evictions ++ rest)%list.
Proof.
  destruct (Z.leb_spec required 0) as [Hr|Hr].
  - unfold chooseEvictions. rewrite (proj2 (Z.leb_le _ _)) by done. intros [= <- <-]. by eexists.
  - rewrite chooseEvictions_shortest by done. intros (rest & -> & _)%shortest_spec. by eexists.
Qed.

(** Eviction goes lowest class first and oldest first, and takes no more than it
    needs.  From a listing, [chooseEvictions] takes with a record every record of a lower
    class, and every older one of its own class; it takes critical ones only when told it
    may; when it reports that the chosen records cover what is required they do, and no
    shorter part of them would; and when it reports that they do not, it has taken every
    record it may. *)
Theorem evictions_in_order candidates required includeCritical evictions covered :
  listed candidates -> chooseEvictions candidates required includeCritical = (evictions, covered) ->
  (forall x y, x ∈ evictions -> y ∈ candidates -> classified y -> goes_before y x -> y ∈ evictions) /\
  (forall x, x ∈ evictions -> x ∈ candidates /\ (stableRecord.Priority x = PriorityCritical -> includeCritical = true)) /\
  (if covered then required <= indexTotalSize evictions /\
     (forall k, (k < length evictions)%nat -> indexTotalSize (take k evictions) < required)
   else indexTotalSize evictions < required /\
     (forall y, y ∈ candidates -> classified y ->
        (stableRecord.Priority y = PriorityCritical -> includeCritical = true) -> y ∈ evictions)).
Proof.
  intros Hl Hc. pose proof (order_sorted includeCritical _ Hl) as Hsort.
  destruct (chooseEvictions_prefix _ _ _ _ _ Hc) as [rest Horder].
  assert (forall x, x ∈ evictions -> x ∈ candidates /\ classified x /\
            (stableRecord.Priority x = PriorityCritical -> includeCritical = true)) as Hin.
  { intros x Hx. apply elem_of_order. rewrite Horder. apply elem_of_app. by left. }
  split; [|split].
  - intros x y Hx Hy Hcy Hb. eapply prefix_closed; [done..| |done]. apply elem_of_order. split; [done|]. split; [done|].
    intros Hcrit. apply Hin in Hx as (_ & Hcx & Himp). apply Himp. unfold goes_before in Hb. rewrite Hcrit in Hb.
    unfold classified in Hcx. rewrite !elem_of_cons, elem_of_nil in Hcx.
    destruct Hcx as [E|[E|[E|[]]]]; [..|done]; rewrite E in Hb; destruct Hb as [Hb|[Hb _]]; discriminate Hb || by vm_compute in Hb.
  - intros x Hx. apply Hin in Hx. tauto.
  - destruct (Z.leb_spec required 0) as [Hr|Hr].
    + unfold chooseEvictions in Hc. rewrite (proj2 (Z.leb_le _ _)) in Hc by done. injection Hc as <- <-.
      split; [done|]. intros k Hk. cbn in Hk. lia.
    + rewrite chooseEvictions_shortest in Hc by done.
      apply shortest_spec in Hc as (rest' & Hrest & Hk & Hend). destruct covered.
      * destruct Hend as [Hend _]. split; [lia|]. intros [|k] Hlt; [exact Hr|]. specialize (Hk (S k) Hlt ltac:(lia)). lia.
      * destruct Hend as [-> Hend]. rewrite app_nil_r in Hrest. split.
        -- rewrite Hrest in Hend. destruct Hend as [-> | Hend]; [cbn; lia|lia].
        -- intros y Hy Hcy Hcrit. rewrite <- Hrest. by apply elem_of_order.
Qed.

Module EvictionSample.
Definition candidates : list stableRecord.t :=
  [stableRecord.mk 1 40 PriorityCritical; stableRecord.mk 2 30 PriorityDiagnostic;
   stableRecord.mk 3 30 PriorityOperational; stableRecord.mk 4 30 PriorityDiagnostic].

Lemma candidates_listed : listed candidates.
Proof. repeat (constructor; cbn; try lia). Qed.

Lemma evictions_in_order_witness :
  chooseEvictions candidates 70 false =
    ([stableRecord.mk 2 30 PriorityDiagnostic; stableRecord.mk 4 30 PriorityDiagnostic;
      stableRecord.mk 3 30 PriorityOperational], true) /\
  forall k, (k < 3)%nat -> indexTotalSize (take k
    [stableRecord.mk 2 30 PriorityDiagnostic; stableRecord.mk 4 30 PriorityDiagnostic;
     stableRecord.mk 3 30 PriorityOperational]) < 70.
Proof.
  assert (chooseEvictions candidates 70 false =
    ([stableRecord.mk 2 30 PriorityDiagnostic; stableRecord.mk 4 30 PriorityDiagnostic;
      stableRecord.mk 3 30 PriorityOperational], true)) as Hc by reflexivity.
  split; [exact Hc|]. destruct (evictions_in_order _ _ _ _ _ candidates_listed Hc) as (_ & _ & _ & Hk).
  exact Hk.
Defined.

Lemma stable_names_roundtrip_witness :
  parseStableName "00000000000000000042.event" = Some 42 /\ stableName 42 = "00000000000000000042.event".
Proof.
  split; [|reflexivity]. apply (proj2 (stable_names_roundtrip "00000000000000000042.event" 42)).
  split; [split; [lia|by unfold max_u64]|reflexivity].
Defined.
End EvictionSample.
