(* ===== verification/SpoolSafety.v ===== *)
(** * Safety of the spool under faults and crashes

    What [Spool] keeps true of its directory whatever becomes of the operations on the
    disk.  [view] is the abstract state: the stored records by sequence.  [triple] is a
    small program logic for the spool's monad with three ways to end (a value, an error,
    a crash); the operations are specified in it once and [Append] and [recover] are
    proved by composition. *)

From Stdlib Require Import ZArith Lia Ascii String.
From stdpp Require Import base strings list option sets gmap sorting pretty.
From S2P Require Import Prelude GoTime Metadata PolicyCanonical Connectivity Events Faults Spool.

Open Scope string_scope.
Open Scope Z_scope.

#[local] Existing Instances M_ret M_bind.

(** ** The shape of names *)

Lemma has_prefix_head a p c s : c <> a -> has_prefix (String a p) (String c s) = false.
Proof. unfold has_prefix. cbn [String.prefix]. intros Hn. destruct (ascii_dec a c); congruence. Qed.

Lemma stableName_reserved s : isReservedName (stableName s) = false.
Proof.
  assert (exists c rest, stableName s = String c rest /\ is_digit c = true) as (c & rest & E & Hc).
  { unfold stableName. pose proof (digits_are_digits 20 s) as Hd. cbn [digits] in *.
    apply Forall_cons in Hd as [Hd _]. eexists _, _. split; [reflexivity|exact Hd]. }
  assert (c <> "."%char) as Hn by (intros ->; done).
  rewrite E. unfold isReservedName, quarantinePrefix. rewrite !has_prefix_head by done. rewrite !orb_false_r.
  apply String.eqb_neq. by intros [= ? _].
Qed.

Lemma has_prefix_app p s : has_prefix p (p ++ s) = true.
Proof.
  unfold has_prefix. induction p as [|c p IH]; [by destruct s|].
  change (String c p ++ s) with (String c (p ++ s)). cbn [String.prefix].
  by destruct (ascii_dec c c).
Qed.

Lemma pendingName_prefix s : has_prefix ".pending-" (pendingName s) = true.
Proof. apply has_prefix_app. Qed.

Lemma pending_reserved name : has_prefix ".pending-" name = true -> isReservedName name = true.
Proof. unfold isReservedName. intros ->. by rewrite orb_true_r. Qed.

Lemma quarantine_reserved s : isReservedName (quarantineName s) = true.
Proof. unfold isReservedName, quarantineName. by rewrite has_prefix_app, !orb_true_r. Qed.

Lemma stableName_inj s t : sequence_ok s -> sequence_ok t -> stableName s = stableName t -> s = t.
Proof.
  intros Hs Ht E. pose proof (proj2 (stable_names_roundtrip (stableName s) s) (conj Hs eq_refl)) as P1.
  pose proof (proj2 (stable_names_roundtrip (stableName t) t) (conj Ht eq_refl)) as P2. rewrite E in P1. congruence.
Qed.

Lemma string_app_inj p s t : p ++ s = p ++ t -> s = t.
Proof. induction p as [|c p IH]; cbn; [done|]. intros [= E]. by apply IH. Qed.

Lemma pendingName_inj s t : sequence_ok s -> sequence_ok t -> pendingName s = pendingName t -> s = t.
Proof. unfold pendingName. intros Hs Ht E%string_app_inj. by apply stableName_inj. Qed.

Lemma reserved_not_stable name s : isReservedName name = true -> name <> stableName s.
Proof. intros Hr ->. by rewrite stableName_reserved in Hr. Qed.

Lemma pending_not_stable s t : pendingName s <> stableName t.
Proof. apply reserved_not_stable, pending_reserved, pendingName_prefix. Qed.

Lemma parse_reserved name s : parseStableName name = Some s -> isReservedName name = false.
Proof. intros [_ ->]%stable_names_roundtrip. apply stableName_reserved. Qed.

(** ** Sorting by sequence *)

Lemma filter_all {A} (p : A -> bool) l : (forall x, x ∈ l -> p x = true) -> List.filter p l = l.
Proof.
  induction l as [|x l IH]; intros Hp; [done|]. cbn. rewrite (Hp x) by by left. f_equal. apply IH.
  intros. apply Hp. by right.
Qed.

Lemma filter_none {A} (p : A -> bool) l : (forall x, x ∈ l -> p x = false) -> List.filter p l = [].
Proof.
  induction l as [|x l IH]; intros Hp; [done|]. cbn. rewrite (Hp x) by by left. apply IH.
  intros. apply Hp. by right.
Qed.

Lemma by_sequence_not_after x y : not_after by_sequence x y <-> stableRecord.Sequence x <= stableRecord.Sequence y.
Proof. unfold not_after, by_sequence. apply Z.ltb_ge. Qed.

#[local] Instance by_sequence_total : Total (not_after by_sequence).
Proof. intros x y. rewrite !by_sequence_not_after. lia. Qed.
#[local] Instance by_sequence_transitive : Transitive (not_after by_sequence).
Proof. intros x y z. rewrite !by_sequence_not_after. lia. Qed.

Abbreviation sequences l := (map stableRecord.Sequence l).

Lemma same_sequence l x y : NoDup (sequences l) -> x ∈ l -> y ∈ l ->
  stableRecord.Sequence x = stableRecord.Sequence y -> x = y.
Proof.
  induction l as [|z l IH]; intros Hn Hx Hy E; [by apply elem_of_nil in Hx|].
  cbn in Hn. apply NoDup_cons in Hn as [Hz Hn].
  assert (forall r, r ∈ l -> stableRecord.Sequence r ∈ sequences l) as Hm by (intros; by apply list_elem_of_fmap_2).
  apply elem_of_cons in Hx as [-> | Hx], Hy as [-> | Hy]; [done|..|by apply IH].
  - exfalso. apply Hz. rewrite E. by apply Hm.
  - exfalso. apply Hz. rewrite <- E. by apply Hm.
Qed.

Lemma sort_listed l : NoDup (sequences l) -> listed (sort_slice by_sequence l).
Proof.
  intros Hn. assert (NoDup (sequences (sort_slice by_sequence l))) as Hs by by rewrite sort_slice_perm.
  assert (StronglySorted (not_after by_sequence) (sort_slice by_sequence l)) as Hsort by (apply StronglySorted_merge_sort; apply _).
  revert Hs Hsort. generalize (sort_slice by_sequence l). clear l Hn. induction l as [|x l IH]; intros Hn Hs; [constructor|].
  inversion Hs as [|? ? Hs' Hx]; subst. cbn in Hn. apply NoDup_cons in Hn as [Hxn Hn].
  constructor; [by apply IH|]. apply Forall_forall. intros y Hy.
  pose proof (proj1 (Forall_forall _ _) Hx y Hy) as Hle. apply by_sequence_not_after in Hle.
  assert (stableRecord.Sequence x <> stableRecord.Sequence y); [|lia].
  intros E. apply Hxn. rewrite E. by apply list_elem_of_fmap_2.
Qed.

Lemma listed_NoDup l : listed l -> NoDup (sequences l).
Proof.
  induction 1 as [|x l Hl IH Hx]; cbn; constructor; [|done].
  intros (y & E & Hy)%list_elem_of_fmap. pose proof (proj1 (Forall_forall _ _) Hx y Hy). cbn in *. lia.
Qed.

(** Two listings of the same records are the same. *)
Lemma listed_unique l k : listed l -> listed k -> l ≡ₚ k -> l = k.
Proof.
  intros Hl Hk Hp.
  assert (forall x, listed x -> StronglySorted (not_after by_sequence) x) as Hw.
  { intros x Hx. eapply sorted_impl; [|exact Hx]. intros. apply by_sequence_not_after. cbn in *. lia. }
  apply (StronglySorted_unique_strong (not_after by_sequence)); [|by apply Hw..|done].
  intros x y Hx Hy Hxy Hyx. rewrite by_sequence_not_after in *.
  apply (same_sequence l); [by apply listed_NoDup|done|by rewrite Hp|lia].
Qed.

Lemma indexTotalSize_perm l k : l ≡ₚ k -> indexTotalSize l = indexTotalSize k.
Proof. induction 1; rewrite ?indexTotalSize_cons in *; lia. Qed.

(** ** The stored records of a directory *)

Section view.
Context `{JSON}.

Abbreviation Dir := (gmap string File.t) (only parsing).
Abbreviation View := (gmap Z File.t) (only parsing).

Definition stored (x : string * File.t) : option (Z * File.t) :=
  match parseStableName x.1 with Some s => Some (s, x.2) | None => None end.

Definition view (d : Dir) : View := list_to_map (omap stored (map_to_list d)).

Lemma elem_of_stored d s f : (s, f) ∈ omap stored (map_to_list d) <-> sequence_ok s /\ d !! stableName s = Some f.
Proof.
  rewrite list_elem_of_omap. split.
  - intros ([n g] & Hd%elem_of_map_to_list & E). unfold stored in E. cbn in E.
    destruct (parseStableName n) as [t|] eqn:Hp; [|done]. injection E as -> ->.
    by apply stable_names_roundtrip in Hp as [Hs ->].
  - intros [Hs Hd]. exists (stableName s, f). split; [by apply elem_of_map_to_list|]. unfold stored. cbn.
    by rewrite (proj2 (stable_names_roundtrip (stableName s) s)).
Qed.

Lemma view_lookup d s f : view d !! s = Some f <-> sequence_ok s /\ d !! stableName s = Some f.
Proof.
  rewrite <- elem_of_stored. split; [apply elem_of_list_to_map_2|].
  intros Hin. apply elem_of_list_to_map_1'; [|done].
  intros g Hg. apply elem_of_stored in Hin, Hg. destruct Hin as [_ E1], Hg as [_ E2]. congruence.
Qed.

Lemma view_ext d (v : View) : (forall s f, sequence_ok s /\ d !! stableName s = Some f <-> v !! s = Some f) -> view d = v.
Proof. intros Hv. apply map_eq. intros s. apply option_eq. intros f. rewrite view_lookup. apply Hv. Qed.

(** Files under reserved names are not stored records. *)
Lemma view_reserved d d' : (forall n, isReservedName n = false -> d' !! n = d !! n) -> view d' = view d.
Proof.
  intros Hd. apply view_ext. intros s f. rewrite view_lookup. by rewrite (Hd _ (stableName_reserved s)).
Qed.

Lemma view_insert_reserved d n f : isReservedName n = true -> view (<[n := f]> d) = view d.
Proof. intros Hn. apply view_reserved. intros m Hm. apply lookup_insert_ne. congruence. Qed.

Lemma view_delete_reserved d n : isReservedName n = true -> view (delete n d) = view d.
Proof. intros Hn. apply view_reserved. intros m Hm. apply lookup_delete_ne. congruence. Qed.

Lemma view_delete d s : sequence_ok s -> view (delete (stableName s) d) = delete s (view d).
Proof.
  intros Hs. apply view_ext. intros t f. rewrite (lookup_delete_Some (view d)), view_lookup. split.
  - intros [Ht Hd]. destruct (decide (s = t)) as [->|Hn]; [by rewrite lookup_delete_eq in Hd|].
    split; [done|]. split; [done|]. rewrite lookup_delete_ne in Hd; [done|]. by intros ?%stableName_inj.
  - intros (Hn & Ht & Hd). split; [done|]. rewrite lookup_delete_ne; [done|]. by intros ?%stableName_inj.
Qed.

Lemma view_insert d s f : sequence_ok s -> view (<[stableName s := f]> d) = <[s := f]> (view d).
Proof.
  intros Hs. apply view_ext. intros t g. rewrite (lookup_insert_Some (view d)), view_lookup. split.
  - intros [Ht Hd]. destruct (decide (s = t)) as [->|Hn].
    + rewrite lookup_insert_eq in Hd. left. split; congruence.
    + rewrite lookup_insert_ne in Hd by (by intros ?%stableName_inj). right. done.
  - intros [[-> ->]|(Hn & Ht & Hd)]; [split; [done|apply lookup_insert_eq]|].
    split; [done|]. rewrite lookup_insert_ne; [done|]. by intros ?%stableName_inj.
Qed.

(** ** Listings of a view *)

Context (envelope : Doc -> option Envelope.t).

(** The record of a stored file, with its class. *)
Definition record_of (x : Z * File.t) : stableRecord.t :=
  stableRecord.mk x.1 (doc_len (File.data x.2)) (default "" (file_priority envelope x.1 x.2)).

Definition classed (v : View) : list stableRecord.t := sort_slice by_sequence (map record_of (map_to_list v)).
Definition total (v : View) : Z := indexTotalSize (classed v).

Lemma classed_perm v : classed v ≡ₚ map record_of (map_to_list v).
Proof. apply sort_slice_perm. Qed.

Lemma record_sequences (l : list (Z * File.t)) : sequences (map record_of l) = map fst l.
Proof. rewrite map_map. by apply map_ext. Qed.

Lemma classed_listed v : listed (classed v).
Proof. apply sort_listed. rewrite record_sequences. apply (NoDup_fst_map_to_list v). Qed.

Lemma elem_of_classed v r : r ∈ classed v <-> exists s f, v !! s = Some f /\ r = record_of (s, f).
Proof.
  rewrite classed_perm, list_elem_of_fmap. split.
  - intros ([s f] & -> & Hm%elem_of_map_to_list). eauto.
  - intros (s & f & Hm & ->). exists (s, f). split; [done|]. by apply elem_of_map_to_list.
Qed.

Lemma classed_insert v s f : v !! s = None -> classed (<[s := f]> v) ≡ₚ record_of (s, f) :: classed v.
Proof. intros Hv. rewrite !classed_perm, map_to_list_insert by done. done. Qed.

Lemma classed_delete v s f : v !! s = Some f -> classed v ≡ₚ record_of (s, f) :: classed (delete s v).
Proof.
  intros Hv. rewrite <- (insert_delete_id v s f Hv) at 1. apply classed_insert, lookup_delete_eq.
Qed.

Lemma total_insert v s f : v !! s = None -> total (<[s := f]> v) = doc_len (File.data f) + total v.
Proof. intros Hv. unfold total. by rewrite (indexTotalSize_perm _ _ (classed_insert v s f Hv)). Qed.

Lemma total_delete v s f : v !! s = Some f -> total v = doc_len (File.data f) + total (delete s v).
Proof. intros Hv. unfold total. by rewrite (indexTotalSize_perm _ _ (classed_delete v s f Hv)). Qed.

(** A listing that knows the directory: the right records and sizes, and no class that is
    not the record's own. *)
Definition agrees (r c : stableRecord.t) : Prop :=
  stableRecord.Sequence r = stableRecord.Sequence c /\ stableRecord.Size r = stableRecord.Size c /\
  (stableRecord.Priority r = "" \/ stableRecord.Priority r = stableRecord.Priority c).

Definition faithful (l : list stableRecord.t) (v : View) : Prop := Forall2 agrees l (classed v).

Lemma agrees_total l k : Forall2 agrees l k -> indexTotalSize l = indexTotalSize k.
Proof. induction 1 as [|r c l k (_ & Hs & _) _ IH]; [done|]. rewrite !indexTotalSize_cons, IH, Hs. done. Qed.

Lemma agrees_sequences l k : Forall2 agrees l k -> sequences l = sequences k.
Proof. induction 1 as [|r c l k (Hs & _ & _) _ IH]; [done|]. cbn. by rewrite Hs, IH. Qed.

Lemma faithful_total l v : faithful l v -> indexTotalSize l = total v.
Proof. apply agrees_total. Qed.

Lemma agrees_listed l k : listed l -> Forall2 agrees l k -> listed k.
Proof.
  unfold listed. intros Hl. revert k. induction Hl as [|r l Hl IH Hr]; intros k Ha;
    inversion Ha as [|? c ? k' Hrc Ha']; subst; [constructor|].
  constructor; [by apply IH|]. apply Forall_forall. intros y Hy.
  pose proof (agrees_sequences _ _ Ha') as E.
  assert (stableRecord.Sequence y ∈ sequences l) as Hin by (rewrite E; by apply list_elem_of_fmap_2).
  apply list_elem_of_fmap in Hin as (z & Ez & Hz). destruct Hrc as [<- _]. rewrite Ez.
  exact (proj1 (Forall_forall _ _) Hr z Hz).
Qed.

(** Sorting restores the listing of whatever the records agree with. *)
Lemma faithful_sort l k v : Forall2 agrees l k -> k ≡ₚ classed v -> faithful (sort_slice by_sequence l) v.
Proof.
  intros Ha Hp.
  destruct (Permutation_Forall2 (symmetry (sort_slice_perm by_sequence l)) Ha) as (k' & Hk & Ha').
  unfold faithful. replace (classed v) with k'; [done|].
  apply listed_unique; [|apply classed_listed|by rewrite <- Hk].
  assert (NoDup (sequences l)) as Hn.
  { rewrite (agrees_sequences _ _ Ha). rewrite Hp. apply listed_NoDup, classed_listed. }
  eapply agrees_listed; [|exact Ha']. by apply sort_listed.
Qed.
End view.

(** ** A program logic for the monad of the spool *)

Section logic.
Context `{JSON}.

(** [sits w0 d w]: the world [w0], with the directory [d] and some rest of a script. *)
Definition sits (w0 : World) (d : gmap string File.t) (w : World) : Prop :=
  exists steps, w = set_script steps (set_dir d w0).

Lemma triple_perform w0 d op :
  triple (sits w0 d) (perform op) (fun _ w => exists d', op d = Some d' /\ sits w0 d' w) (sits w0 d) (sits w0 d).
Proof.
  intros w [steps ->]. unfold perform. cbn.
  destruct steps as [|[] steps]; cbn; [| |by eexists|by eexists].
  all: destruct (op d) eqn:E; cbn; [eexists; split; [done|]|]; by eexists.
Qed.

Lemma triple_flush w0 d : triple (sits w0 d) flush (fun _ => sits w0 d) (sits w0 d) (sits w0 d).
Proof.
  eapply triple_conseq; [apply triple_perform|done|cbn|done|done]. by intros _ w (d' & [= ->] & ?).
Qed.

Lemma triple_remove w0 d n :
  triple (sits w0 d) (remove n) (fun _ => sits w0 (delete n d)) (sits w0 d) (sits w0 d).
Proof.
  eapply triple_conseq; [apply triple_perform|done|cbn|done|done].
  intros _ w (d' & E & ?). destruct (d !! n); [by injection E as <-|done].
Qed.

Lemma triple_rename w0 d n m f : d !! n = Some f ->
  triple (sits w0 d) (rename n m) (fun _ => sits w0 (<[m := f]> (delete n d))) (sits w0 d) (sits w0 d).
Proof.
  intros Hn. eapply triple_conseq; [apply triple_perform|done|cbn|done|done].
  intros _ w (d' & E & ?). rewrite Hn in E. by injection E as <-.
Qed.
End logic.

(** ** Directories a spool can open *)

(** What the codecs of stored entries are documented to do: lengths are not negative, a
    torn text does not decode, an entry decodes to the envelope that was written (its event
    perhaps compacted), and the lenient reading agrees with the strict one. *)
Class SpoolLaws `{JSON} `{!Codec wireEntry.t} (torn : Doc) (envelope : Doc -> option Envelope.t) := {
  length_nonneg : forall d : Doc, 0 <= doc_len d;
  torn_unreadable : strictJSONDecode (T := wireEntry.t) torn = None;
  stored_reads : forall wire d, Metadata.Validate (wireEntry.Metadata wire) = Ok tt -> json_Marshal wire = Some d ->
    exists event, strictJSONDecode d = Some (wireEntry.mk (wireEntry.Schema wire) (wireEntry.Sequence wire)
                                               (wireEntry.Priority wire) (wireEntry.Metadata wire) event);
  envelope_agrees : forall d (wire : wireEntry.t), strictJSONDecode d = Some wire ->
    envelope d = Some (Envelope.mk (wireEntry.Schema wire) (wireEntry.Sequence wire) (wireEntry.Priority wire))
}.

Section good.
Context `{JSON} `{!EventCodecs} `{!Codec Fact.t} `{!Codec wireEntry.t}.
Context (torn : Doc) (envelope : Doc -> option Envelope.t).
Context `{!SpoolLaws torn envelope}.

Abbreviation Dir := (gmap string File.t) (only parsing).
Abbreviation View := (gmap Z File.t) (only parsing).

(** Only records and reserved files. *)
Definition Shape (d : Dir) : Prop := forall n f, d !! n = Some f ->
  isReservedName n = true \/ exists s, sequence_ok s /\ n = stableName s /\ File.type f = Regular /\ File.private f = true.

(** A pending file that can be read is filed under its own sequence and contradicts no
    stored record. *)
Definition pending_ok (d : Dir) : Prop := forall n f e,
  has_prefix ".pending-" n = true -> d !! n = Some f -> readFile f = Ok e ->
  sequence_ok (Entry.Sequence e) /\ n = pendingName (Entry.Sequence e) /\
  forall g, d !! stableName (Entry.Sequence e) = Some g -> File.data g = File.data f.

(** Every stored record says its class. *)
Definition undamaged (v : View) : Prop := forall s f, v !! s = Some f -> is_Some (file_priority envelope s f).

Definition good (d : Dir) : Prop := Shape d /\ pending_ok d /\ undamaged (view d).

Lemma good_sub d d' : d' ⊆ d -> good d -> good d'.
Proof.
  intros Hsub (Hs & Hp & Hu). split_and!.
  - intros n f Hn. apply Hs. by eapply lookup_weaken.
  - intros n f e Hpre Hn He. destruct (Hp n f e Hpre) as (H1 & H2 & H3); [by eapply lookup_weaken|done|].
    split_and!; [done..|]. intros g Hg. apply H3. by eapply lookup_weaken.
  - intros s f [Hok Hv]%view_lookup. apply Hu, view_lookup. split; [done|]. by eapply lookup_weaken.
Qed.

Lemma good_delete d n : good d -> good (delete n d).
Proof. apply good_sub, delete_subseteq. Qed.

(** A pending file that says nothing false. *)
Lemma good_pending d s file : sequence_ok s -> view d !! s = None ->
  (forall e, readFile file = Ok e -> Entry.Sequence e = s) ->
  good d -> good (<[pendingName s := file]> d).
Proof.
  intros Hs Hfresh Hfile (Hshape & Hp & Hu). split_and!.
  - intros n f [[<- <-]|[_ Hn]]%lookup_insert_Some; [|by apply Hshape].
    left. apply pending_reserved, pendingName_prefix.
  - intros n f e Hpre [[<- <-]|[Hne Hn]]%lookup_insert_Some He.
    + apply Hfile in He as ->. split_and!; [done..|]. intros g. rewrite lookup_insert_ne by apply pending_not_stable.
      intros Hg. assert (view d !! s = Some g) by by apply view_lookup. congruence.
    + destruct (Hp n f e Hpre Hn He) as (H1 & H2 & H3). split_and!; [done..|].
      intros g. rewrite lookup_insert_ne by apply pending_not_stable. apply H3.
  - rewrite view_insert_reserved; [done|]. apply pending_reserved, pendingName_prefix.
Qed.

(** A pending record made a stored one. *)
Lemma good_publish d s file : sequence_ok s -> File.type file = Regular -> File.private file = true ->
  is_Some (file_priority envelope s file) ->
  good d -> good (<[stableName s := file]> (delete (pendingName s) d)).
Proof.
  intros Hs Ht Hpr Hclass (Hshape & Hp & Hu). split_and!.
  - intros n f [[<- <-]|[_ [_ Hn]%lookup_delete_Some]]%lookup_insert_Some; [|by apply Hshape]. right. eauto.
  - intros n f e Hpre [[<- <-]|[Hne [Hne' Hn]%lookup_delete_Some]]%lookup_insert_Some He.
    { exfalso. apply pending_reserved in Hpre. by rewrite stableName_reserved in Hpre. }
    destruct (Hp n f e Hpre Hn He) as (H1 & H2 & H3). split_and!; [done..|]. intros g.
    assert (Entry.Sequence e <> s) by (intros <-; done).
    rewrite lookup_insert_ne by (intros E%stableName_inj; congruence).
    rewrite lookup_delete_ne by apply pending_not_stable. apply H3.
  - rewrite view_insert, view_delete_reserved by (done || apply pending_reserved, pendingName_prefix).
    intros t f [[<- <-]|[_ Hv]]%lookup_insert_Some; [done|by apply Hu].
Qed.

(** A file that decodes as an entry says that entry's class. *)
Lemma priority_classes r d : Events.Decode d = Ok r ->
  EventRecord.Priority r ∈ [PriorityCritical; PriorityOperational; PriorityDiagnostic].
Proof.
  intros (text & definition & _ & _ & Hdef & _ & -> & _)%Decode_Ok. apply (DefinitionFor_Some _ _ Hdef).
Qed.

Lemma newEntry_Ok m priority event e : newEntry m priority event = Ok e ->
  Metadata.Validate m = Ok tt /\ priority ∈ [PriorityCritical; PriorityOperational; PriorityDiagnostic] /\
  Entry.Sequence e = Metadata.Sequence m /\ Entry.Priority e = priority /\ Entry.Metadata e = m /\
  Entry.Event e = event /\ exists text, marshalEntry e = Some text /\ Entry.Size e = doc_len text.
Proof.
  unfold newEntry. destruct (Metadata.Validate m) as [[]|] eqn:Hv; [|done].
  destruct (Events.Decode event) as [r|] eqn:Hd; [|done].
  destruct (negb _) eqn:Hp; [done|]. bool_prop. subst priority.
  destruct (marshalEntry _) as [text|] eqn:Hm; [|done]. intros [= <-]. cbn.
  split_and!; try done; [by eapply priority_classes|]. by exists text.
Qed.

Lemma Validate_sequence m : Metadata.Validate m = Ok tt -> Metadata.Sequence m <> 0.
Proof. unfold Metadata.Validate. intros Hv. inv_result. bool_prop. done. Qed.

Lemma file_priority_of file wire : strictJSONDecode (File.data file) = Some wire ->
  wireEntry.Schema wire = entrySchema ->
  wireEntry.Priority wire ∈ [PriorityCritical; PriorityOperational; PriorityDiagnostic] ->
  file_priority envelope (wireEntry.Sequence wire) file = Some (wireEntry.Priority wire).
Proof.
  intros Hd Hs Hp. unfold file_priority. rewrite (envelope_agrees _ _ Hd). cbn [Envelope.Schema Envelope.Sequence Envelope.Priority].
  rewrite Hs, String.eqb_refl, Z.eqb_refl. cbn [negb orb]. apply contains_string_spec in Hp. by rewrite Hp.
Qed.

Lemma readFile_Ok file e : readFile file = Ok e ->
  File.type file = Regular /\ File.private file = true /\ doc_len (File.data file) = Entry.Size e /\
  file_priority envelope (Entry.Sequence e) file = Some (Entry.Priority e) /\
  Metadata.Sequence (Entry.Metadata e) = Entry.Sequence e.
Proof.
  unfold readFile. destruct (_ || _) eqn:Ht; [done|]. apply orb_false_iff in Ht as [Ht Hpr].
  apply negb_false_iff in Ht, Hpr. apply bool_decide_eq_true in Ht.
  destruct (strictJSONDecode (File.data file)) as [wire|] eqn:Hd; [|done].
  destruct (negb (String.eqb _ _)) eqn:Hs; [done|]. destruct (negb (_ =? _)) eqn:Hq; [done|].
  intros (e' & Hn & Hz)%bind_Ok. destruct (negb (_ =? _)) eqn:Hsz in Hz; [done|]. injection Hz as ->. bool_prop.
  apply newEntry_Ok in Hn as (_ & Hc & E1 & E2 & E3 & _). split_and!; [done..| | |].
  - congruence.
  - rewrite E1, E2, Hq. by apply file_priority_of.
  - congruence.
Qed.
End good.

(** ** Specifications of the steps *)

Section steps.
Context `{JSON} `{!EventCodecs} `{!Codec Fact.t} `{!Codec wireEntry.t}.
Context (torn : Doc) (envelope : Doc -> option Envelope.t) (clock : nat -> Z * Z).
Context `{!SpoolLaws torn envelope}.

Abbreviation Dir := (gmap string File.t) (only parsing).
Abbreviation View := (gmap Z File.t) (only parsing).
Abbreviation good := (good envelope).
Abbreviation classed := (classed envelope).
Abbreviation total := (total envelope).

(** An entry that [newEntry] made, under a sequence that can name a record. *)
Definition proper (e : Entry.t) : Prop :=
  sequence_ok (Entry.Sequence e) /\ newEntry (Entry.Metadata e) (Entry.Priority e) (Entry.Event e) = Ok e.

(** The file of an entry. *)
Definition file_of (e : Entry.t) (f : File.t) : Prop :=
  File.type f = Regular /\ File.private f = true /\ doc_len (File.data f) = Entry.Size e /\
  file_priority envelope (Entry.Sequence e) f = Some (Entry.Priority e) /\
  (marshalEntry e = Some (File.data f) \/ readFile f = Ok e).

(** The directory [d] up to the pending file of one sequence. *)
Definition near (s : Z) (d d' : Dir) : Prop := good d' /\ forall n, n <> pendingName s -> d' !! n = d !! n.

Lemma near_view s d d' : near s d d' -> view d' = view d.
Proof.
  intros [_ Hn]. apply view_reserved. intros n Hr. apply Hn. intros ->.
  by rewrite (pending_reserved _ (pendingName_prefix s)) in Hr.
Qed.

Lemma near_refl s d : good d -> near s d d.
Proof. by split. Qed.

Lemma near_delete s d d' : near s d d' -> near s d (delete (pendingName s) d').
Proof. intros [Hg Hn]. split; [by apply good_delete|]. intros n Hne. rewrite lookup_delete_ne; [by apply Hn|done]. Qed.

Lemma near_insert s d d' f : sequence_ok s -> view d !! s = None -> near s d d' ->
  (forall e, readFile f = Ok e -> Entry.Sequence e = s) -> near s d (<[pendingName s := f]> d').
Proof.
  intros Hs Hv Hn Hf. split.
  - apply good_pending; [done| |done|apply Hn]. by rewrite (near_view _ _ _ Hn).
  - intros n Hne. rewrite lookup_insert_ne by done. by apply Hn.
Qed.

Definition beside s w0 d (w : World) : Prop := exists d', near s d d' /\ sits w0 d' w.

Lemma beside_intro s w0 d d' w : near s d d' -> sits w0 d' w -> beside s w0 d w.
Proof. by exists d'. Qed.
#[local] Hint Resolve beside_intro near_refl near_delete : core.

Lemma triple_cleanup s w0 d :
  triple (beside s w0 d) (ignore (remove (pendingName s))) (fun _ => beside s w0 d) (beside s w0 d) (beside s w0 d).
Proof.
  apply triple_exists. intros d'. apply triple_pure. intros Hn. apply triple_ignore.
  eapply triple_conseq; [apply triple_remove|done|cbn|cbn|cbn]; eauto.
Qed.

Lemma torn_silent e : readFile (File.mk Regular true torn) = Ok e -> False.
Proof. unfold readFile. cbn. by rewrite torn_unreadable. Qed.

Lemma proper_file e text : proper e -> marshalEntry e = Some text ->
  file_of e (File.mk Regular true text) /\
  forall e', readFile (File.mk Regular true text) = Ok e' -> Entry.Sequence e' = Entry.Sequence e.
Proof.
  intros [Hs Hn] Hm. apply newEntry_Ok in Hn as (Hv & Hc & E1 & _ & _ & _ & text' & Hm' & Hsz).
  rewrite Hm in Hm'. injection Hm' as <-.
  destruct (stored_reads (wireEntry.mk entrySchema (Entry.Sequence e) (Entry.Priority e) (Entry.Metadata e)
    (Entry.Event e)) text Hv Hm) as [event Hd]. cbn in Hd. split.
  - split_and!; try done; [change (Entry.Sequence e) with (wireEntry.Sequence (wireEntry.mk entrySchema
      (Entry.Sequence e) (Entry.Priority e) (Entry.Metadata e) event)); apply file_priority_of with torn; done|by left].
  - intros e'. unfold readFile. cbn. rewrite bool_decide_eq_true_2 by done. cbn. rewrite Hd. cbn.
    destruct (negb (Metadata.Sequence _ =? _)); [done|]. intros (e1 & Hn & Hz)%bind_Ok.
    destruct (negb _) in Hz; [done|]. injection Hz as ->. apply newEntry_Ok in Hn as (_ & _ & -> & _). by rewrite E1.
Qed.

Lemma stage_spec w0 d e : good d -> proper e -> view d !! Entry.Sequence e = None ->
  triple (sits w0 d) (stage torn e)
    (fun _ w => exists f, file_of e f /\ near (Entry.Sequence e) d (<[pendingName (Entry.Sequence e) := f]> d) /\
                          sits w0 (<[pendingName (Entry.Sequence e) := f]> d) w)
    (beside (Entry.Sequence e) w0 d) (beside (Entry.Sequence e) w0 d).
Proof.
  intros Hg Hp Hv. unfold stage. pose proof (proj1 Hp) as Hs. set (s := Entry.Sequence e) in *.
  assert (near s d (<[pendingName s := File.mk Regular true torn]> d)) as Htorn.
  { apply near_insert; [done..|by apply near_refl|]. by intros e' ?%torn_silent. }
  eapply triple_bind.
  { eapply triple_conseq; [apply triple_perform|done|cbn|cbn|cbn].
    - intros a w (d' & E & Hw). destruct (d !! pendingName s) as [g|]; [done|]. injection E as <-. exact Hw.
    - eauto.
    - eauto. }
  intros []. eapply triple_on_error; [|apply (triple_cleanup s)].
  eapply triple_bind.
  { apply (triple_lift _ _ (fun text w => marshalEntry e = Some text /\
             sits w0 (<[pendingName s := File.mk Regular true torn]> d) w)).
    - intros w text Hw Ht%of_option_Ok. by split.
    - intros w Hw. eauto. }
  intros text. cbn.
  apply (triple_pure (marshalEntry e = Some text)). intros Hm.
  destruct (proper_file _ _ Hp Hm) as [Hf Hread].
  assert (near s d (<[pendingName s := File.mk Regular true text]> d)) as Hfull.
  { apply near_insert; [done..|by apply near_refl|done]. }
  eapply triple_bind.
  { eapply triple_conseq; [apply triple_perform|done|cbn|eauto|eauto].
    intros a w (d' & [= <-] & Hw). rewrite insert_insert_eq in Hw. exact Hw. }
  intros []. eapply triple_bind; [eapply triple_conseq; [apply triple_flush|done|cbn; intros ? ? X; exact X|eauto|eauto]|].
  intros []. eapply triple_bind; [eapply triple_conseq; [apply triple_flush|done|cbn; intros ? ? X; exact X|eauto|eauto]|].
  intros []. eapply triple_conseq; [apply triple_flush|done|cbn|eauto|eauto]. eauto.
Qed.

(** *** The listing *)

Definition index_ok (w : World) : Prop :=
  match indexed w with None => True | Some l => faithful envelope l (view (dir w)) end.

Definition blank (x : Z * File.t) : stableRecord.t := stableRecord.mk x.1 (doc_len (File.data x.2)) "".

Definition fine (x : string * File.t) : Prop := isReservedName x.1 = true \/
  exists s, sequence_ok s /\ x.1 = stableName s /\ File.type x.2 = Regular /\ File.private x.2 = true.

Lemma stored_reserved n f : isReservedName n = true -> stored (n, f) = None.
Proof. unfold stored. cbn. destruct (parseStableName n) eqn:E; [|done]. apply parse_reserved in E. congruence. Qed.

Lemma stored_stable s (f : File.t) : sequence_ok s -> stored (stableName s, f) = Some (s, f).
Proof. intros Hs. unfold stored. cbn. by rewrite (proj2 (stable_names_roundtrip (stableName s) s)). Qed.

Lemma stored_names (l : list (string * File.t)) s f : (s, f) ∈ omap stored l -> stableName s ∈ map fst l.
Proof.
  rewrite list_elem_of_omap. intros ([n g] & Hin & E). unfold stored in E. cbn in E.
  destruct (parseStableName n) eqn:Hp; [|done]. injection E as -> ->. apply stable_names_roundtrip in Hp as [_ ->].
  exact (list_elem_of_fmap_2 fst _ _ Hin).
Qed.

Lemma stored_NoDup (l : list (string * File.t)) : NoDup (map fst l) -> NoDup (map fst (omap stored l)).
Proof.
  induction l as [|[n f] l IH]; intros Hn; [constructor|]. cbn in Hn. apply NoDup_cons in Hn as [Hx Hn].
  cbn [omap list_omap]. destruct (stored (n, f)) as [[s g]|] eqn:E; [|by apply IH].
  cbn. constructor; [|by apply IH]. intros ([t h] & Et & Hin)%list_elem_of_fmap. cbn in Et. subst t.
  apply stored_names in Hin. unfold stored in E. cbn in E. destruct (parseStableName n) eqn:Hp; [|done].
  injection E as -> ->. apply stable_names_roundtrip in Hp as [_ ->]. done.
Qed.

Lemma scan_files_Ok (files : list (string * File.t)) seen : Forall fine files -> NoDup (map fst files) ->
  (forall s f, (s, f) ∈ omap stored files -> s ∉ seen) ->
  scan_files files seen = Ok (map blank (omap stored files)).
Proof.
  revert seen. induction files as [|[n f] files IH]; intros seen Hf Hn Hs; [done|].
  apply Forall_cons in Hf as [Hf Hfs]. cbn in Hn. apply NoDup_cons in Hn as [Hx Hn].
  cbn [omap list_omap] in *. cbn [scan_files]. unfold scan_file.
  destruct Hf as [Hr|(s & Hok & Hname & Ht & Hp)]; cbn in *.
  - rewrite (stored_reserved n f Hr) in *. rewrite Hr. cbn. by apply IH.
  - subst n. rewrite (stored_stable s f Hok) in *.
    rewrite stableName_reserved, (proj2 (stable_names_roundtrip (stableName s) s)) by done. rewrite Ht, Hp.
    rewrite (bool_decide_eq_false_2 (Regular = Symlink)), (bool_decide_eq_false_2 (Regular = Folder)),
      (bool_decide_eq_true_2 (Regular = Regular)) by done. cbn [orb negb].
    rewrite bool_decide_eq_false_2 by (apply (Hs s f); by left). cbn.
    rewrite IH; [done|done|done|]. intros t g Hin. apply not_elem_of_union. split.
    + apply not_elem_of_singleton. intros ->. by apply stored_names in Hin.
    + apply (Hs t g). by right.
Qed.

Lemma ReadDir_perm (d : Dir) : ReadDir d ≡ₚ map_to_list d.
Proof. apply sort_slice_perm. Qed.

Lemma stored_view d : omap stored (ReadDir d) ≡ₚ map_to_list (view d).
Proof.
  rewrite (omap_Permutation _ _ _ (ReadDir_perm d)). unfold view. symmetry. apply map_to_list_to_map.
  apply stored_NoDup. apply (NoDup_fst_map_to_list d).
Qed.

Lemma scan_spec d : Shape d -> exists records, scan_files (ReadDir d) ∅ = Ok records /\
  faithful envelope (sort_slice by_sequence records) (view d).
Proof.
  intros Hs. exists (map blank (omap stored (ReadDir d))). split.
  - apply scan_files_Ok.
    + apply Forall_forall. intros [n f] Hin. rewrite ReadDir_perm in Hin. apply elem_of_map_to_list in Hin.
      exact (Hs n f Hin).
    + rewrite (Permutation_map fst (ReadDir_perm d)). apply (NoDup_fst_map_to_list d).
    + intros. apply not_elem_of_empty.
  - eapply faithful_sort with (map (record_of envelope) (omap stored (ReadDir d))).
    + induction (omap stored (ReadDir d)) as [|x l IH]; cbn; constructor; [|done]. split_and!; try done. by left.
    + by rewrite stored_view, classed_perm.
Qed.

Lemma index_spec (P : World -> Prop) (F C : World -> Prop) :
  (forall w, P w -> Shape (dir w) /\ index_ok w) ->
  triple P index
    (fun l w => exists w0, P w0 /\ faithful envelope l (view (dir w)) /\ indexed w = Some l /\
       w = set_indexed (Some l) (set_scans (scans w) w0)) F C.
Proof.
  intros HP w Hw. destruct (HP w Hw) as [Hs Hi]. unfold index_ok in Hi.
  unfold index, get, mbind, M_bind, mret, M_ret.
  destruct (indexed w) as [l|] eqn:E.
  - exists w. split_and!; try done; destruct w; cbn in *; by subst.
  - unfold scanIndex, get, update, lift, mbind, M_bind, mret, M_ret. cbn.
    destruct (scan_spec _ Hs) as (records & Hr & Hf). rewrite Hr. cbn.
    exists w. split_and!; try done; by destruct w.
Qed.

Definition keeps (w1 w : World) : Prop :=
  dir w = dir w1 /\ script w = script w1 /\ calls w = calls w1 /\ maxBytes w = maxBytes w1 /\
  metadata w = metadata w1 /\ quarantined w = quarantined w1.

Lemma sits_self w : sits w (dir w) w.
Proof. exists (script w). by destruct w. Qed.

Lemma file_priority_class s f p : file_priority envelope s f = Some p ->
  p ∈ [PriorityCritical; PriorityOperational; PriorityDiagnostic].
Proof.
  unfold file_priority. destruct (envelope (File.data f)) as [e|]; [|done]. destruct (_ || _); [done|].
  destruct (contains_string _ _) eqn:E; [|done]. intros [= <-]. by apply contains_string_spec.
Qed.

Lemma classed_classified v r : undamaged envelope v -> r ∈ classed v ->
  classified r /\ stableRecord.Priority r <> "" /\ exists f, v !! stableRecord.Sequence r = Some f /\
    stableRecord.Size r = doc_len (File.data f) /\
    file_priority envelope (stableRecord.Sequence r) f = Some (stableRecord.Priority r).
Proof.
  intros Hu (s & f & Hv & ->)%elem_of_classed. destruct (Hu s f Hv) as [p Hp]. unfold record_of. cbn.
  rewrite Hp. cbn. apply file_priority_class in Hp as Hc. split_and!.
  - unfold classified. cbn. rewrite !elem_of_cons in *. tauto.
  - intros ->. by apply contains_string_spec in Hc.
  - by exists f.
Qed.

Lemma classify_faithful d l : undamaged envelope (view d) -> faithful envelope l (view d) ->
  map (classify_record envelope d) l = classed (view d).
Proof.
  intros Hu. unfold faithful. assert (forall r, r ∈ classed (view d) -> r ∈ classed (view d)) as Hin by done. revert Hin.
  generalize (classed (view d)) at 1 3 4 as k. intros k Hin Ha. induction Ha as [|r c l k (E1 & E2 & E3) Ha IH]; [done|].
  cbn [map]. rewrite IH by (intros; apply Hin; by right). f_equal.
  destruct (classed_classified (view d) c Hu (Hin c ltac:(by left))) as (_ & Hne & f & [Hok Hv]%view_lookup & _ & Hp).
  unfold classify_record. destruct r as [s z p], c as [s' z' p']. cbn in *. subst s' z'.
  destruct E3 as [-> | ->].
  - cbn. unfold readPriority. rewrite Hv, Hp. done.
  - apply String.eqb_neq in Hne. by rewrite Hne.
Qed.

Lemma unclassified_none v : undamaged envelope v -> unclassified (classed v) = [].
Proof.
  intros Hu. destruct (unclassified (classed v)) as [|r l] eqn:E; [done|]. exfalso.
  assert (In r (unclassified (classed v))) as [Hin Hb]%filter_In by (rewrite E; by left).
  apply list_elem_of_In in Hin. destruct (classed_classified v r Hu Hin) as (_ & Hne & _).
  by apply String.eqb_eq in Hb.
Qed.

Lemma evictable_spec w1 F C : good (dir w1) -> index_ok w1 ->
  triple (fun w => w = w1) (evictable envelope)
    (fun l w => l = classed (view (dir w1)) /\ keeps w1 w /\ indexed w = Some l) F C.
Proof.
  intros (Hs & _ & Hu) Hi. unfold evictable. apply triple_get. intros w0.
  cbn [evictable_passes].
  eapply triple_bind; [apply (index_spec (fun w => w = w0 /\ w = w1))|].
  { intros w [_ ->]. done. }
  intros l w (w' & [-> ->] & Hf & Hl & Hw). rewrite Hw in Hf. cbn in Hf.
  unfold get, update, mbind, M_bind. rewrite Hw. cbn -[unclassified].
  rewrite (classify_faithful (dir w1) l Hu Hf), (unclassified_none _ Hu). cbn. done.
Qed.

(** *** Eviction and publication *)

Definition unlink (gone : list stableRecord.t) (d : Dir) : Dir :=
  foldl (fun m r => delete (stableName (stableRecord.Sequence r)) m) d gone.
Definition without (gone : list stableRecord.t) (v : View) : View :=
  foldl (fun m r => delete (stableRecord.Sequence r) m) v gone.

Lemma unlink_cons r gone d : unlink (r :: gone) d = unlink gone (delete (stableName (stableRecord.Sequence r)) d).
Proof. done. Qed.
Lemma without_cons r gone v : without (r :: gone) v = without gone (delete (stableRecord.Sequence r) v).
Proof. done. Qed.

Lemma unlink_sub gone d : unlink gone d ⊆ d.
Proof.
  revert d. induction gone as [|r gone IH]; intros d; [done|]. rewrite unlink_cons.
  etrans; [apply IH|apply delete_subseteq].
Qed.

Lemma unlink_reserved gone d n : isReservedName n = true -> unlink gone d !! n = d !! n.
Proof.
  intros Hn. revert d. induction gone as [|r gone IH]; intros d; [done|]. rewrite unlink_cons, IH.
  apply lookup_delete_ne. by apply not_eq_sym, reserved_not_stable.
Qed.

Lemma view_unlink gone d : (forall r, r ∈ gone -> sequence_ok (stableRecord.Sequence r)) ->
  view (unlink gone d) = without gone (view d).
Proof.
  revert d. induction gone as [|r gone IH]; intros d Hok; [done|].
  rewrite unlink_cons, without_cons, IH, view_delete; [done|apply Hok; by left|]. intros. apply Hok. by right.
Qed.

Lemma without_lookup gone v s :
  without gone v !! s = if decide (s ∈ sequences gone) then None else v !! s.
Proof.
  revert v. induction gone as [|r gone IH]; intros v; [done|]. rewrite without_cons, IH. cbn [map].
  destruct (decide (s = stableRecord.Sequence r)) as [->|Hn].
  - rewrite lookup_delete_eq.
    destruct (decide (_ ∈ sequences gone)); destruct (decide (_ ∈ _ :: _)) as [|Hx]; try done;
      exfalso; apply Hx; by left.
  - rewrite lookup_delete_ne by done.
    destruct (decide (s ∈ sequences gone)) as [Hi|Hi], (decide (s ∈ stableRecord.Sequence r :: _)) as [Hj|Hj]; try done.
    + exfalso. apply Hj. by right.
    + exfalso. apply elem_of_cons in Hj as [|]; done.
Qed.

Lemma classed_without gone v : NoDup (sequences gone) -> (forall r, r ∈ gone -> r ∈ classed v) ->
  classed v ≡ₚ (gone ++ classed (without gone v))%list.
Proof.
  revert v. induction gone as [|r gone IH]; intros v Hn Hin; [done|]. rewrite without_cons. cbn in *. apply NoDup_cons in Hn as [Hr Hn].
  destruct (proj1 (elem_of_classed envelope v r) (Hin r ltac:(by left))) as (s & f & Hv & ->). cbn in *.
  rewrite (classed_delete envelope v s f Hv). constructor. apply IH; [done|].
  intros q Hq. destruct (proj1 (elem_of_classed envelope v q) (Hin q ltac:(by right))) as (t & g & Ht & ->).
  apply elem_of_classed. exists t, g. split; [|done]. rewrite lookup_delete_ne; [done|].
  intros ->. apply Hr. exact (list_elem_of_fmap_2 stableRecord.Sequence _ _ Hq).
Qed.

Lemma total_without gone v : NoDup (sequences gone) -> (forall r, r ∈ gone -> r ∈ classed v) ->
  total v = indexTotalSize gone + total (without gone v).
Proof.
  intros Hn Hin. unfold total. rewrite (indexTotalSize_perm _ _ (classed_without gone v Hn Hin)).
  apply indexTotalSize_app.
Qed.

Lemma size_nonneg v r : r ∈ classed v -> 0 <= stableRecord.Size r.
Proof. intros (s & f & _ & ->)%elem_of_classed. apply length_nonneg. Qed.

Lemma indexTotalSize_nonneg l : (forall r, r ∈ l -> 0 <= stableRecord.Size r) -> 0 <= indexTotalSize l.
Proof.
  induction l as [|r l IH]; intros Hl; [done|]. rewrite indexTotalSize_cons.
  pose proof (Hl r ltac:(by left)). assert (0 <= indexTotalSize l); [|lia]. apply IH. intros. apply Hl. by right.
Qed.

(** The records of a prefix of the eviction order. *)
Lemma order_prefix v gone rest : undamaged envelope v -> eviction_order true (classed v) = (gone ++ rest)%list ->
  NoDup (sequences gone) /\ (forall r, r ∈ gone -> r ∈ classed v).
Proof.
  intros Hu E.
  assert (forall r, r ∈ gone -> r ∈ classed v) as Hin.
  { intros r Hr. assert (r ∈ eviction_order true (classed v)) as Ho by (rewrite E; apply elem_of_app; by left).
    by apply elem_of_order in Ho as [? _]. }
  split; [|done].
  pose proof (order_sorted true _ (classed_listed envelope v)) as Hs. rewrite E in Hs.
  pose proof (listed_NoDup _ (classed_listed envelope v)) as Hn. clear E. revert Hin.
  induction gone as [|r gone IH]; intros Hin; [constructor|]. inversion Hs as [|? ? Hs' Hr]; subst. cbn. constructor.
  - intros (q & Eq & Hq)%list_elem_of_fmap. apply Forall_app in Hr as [Hr _].
    pose proof (proj1 (Forall_forall _ _) Hr q Hq) as Hb.
    assert (r = q) as <- by (eapply same_sequence; [exact Hn|apply Hin; by left|apply Hin; by right|done]).
    unfold goes_before in Hb. lia.
  - apply IH; [done|]. intros. apply Hin. by right.
Qed.

Definition entry_record (e : Entry.t) : stableRecord.t :=
  stableRecord.mk (Entry.Sequence e) (Entry.Size e) (Entry.Priority e).

Lemma file_of_record e f : file_of e f -> record_of envelope (Entry.Sequence e, f) = entry_record e.
Proof. intros (_ & _ & Hs & Hp & _). unfold record_of, entry_record. cbn. by rewrite Hs, Hp. Qed.

(** What a run can have done to the stored records: an initial part of the eviction order
    is gone, the rest is as it was, and whatever is new is among [news]. *)
Definition lost (v : View) (news : list Z) (v' : View) : Prop :=
  exists gone rest, eviction_order true (classed v) = (gone ++ rest)%list /\
    (forall s f, v !! s = Some f -> v' !! s = if decide (s ∈ sequences gone) then None else Some f) /\
    (forall s f, v' !! s = Some f -> v !! s = Some f \/ s ∈ news).

Definition frame (w1 w : World) : Prop :=
  maxBytes w = maxBytes w1 /\ metadata w = metadata w1 /\ quarantined w = quarantined w1 /\ calls w = calls w1.

Definition safe (w1 : World) (news : list Z) (w : World) : Prop :=
  good (dir w) /\ total (view (dir w)) <= maxBytes w1 /\ lost (view (dir w1)) news (view (dir w)).

Definition stocked (d : Dir) (e : Entry.t) : Prop :=
  sequence_ok (Entry.Sequence e) /\ exists f, d !! pendingName (Entry.Sequence e) = Some f /\ file_of e f.

Section commit.
Context (w1 : World) (staged : list Entry.t) (evictions rest : list stableRecord.t).
Let d := dir w1.
Let v := view d.
Abbreviation news := (map Entry.Sequence staged).
Hypothesis Hgood : good d.
Hypothesis Horder : eviction_order true (classed v) = (evictions ++ rest)%list.
Hypothesis Hdistinct : NoDup news.
Hypothesis Hstaged : forall e, e ∈ staged -> stocked d e /\ v !! Entry.Sequence e = None.
Hypothesis Hbound : total v <= maxBytes w1.
Hypothesis Hroom : total v - indexTotalSize evictions + indexTotalSize (map entry_record staged) <= maxBytes w1.

Lemma sits_frame w d' : sits w1 d' w -> dir w = d' /\ indexed w = indexed w1 /\ frame w1 w.
Proof. by intros [steps ->]. Qed.

Lemma prefix_facts gone more : evictions = (gone ++ more)%list ->
  NoDup (sequences gone) /\ (forall r, r ∈ gone -> r ∈ classed v) /\
  view (unlink gone d) = without gone v /\ total v = indexTotalSize gone + total (without gone v) /\
  0 <= indexTotalSize gone.
Proof.
  intros E. destruct Hgood as (_ & _ & Hu).
  destruct (order_prefix v gone (more ++ rest)%list Hu) as [Hn Hin]; [by rewrite Horder, E, app_assoc|].
  split_and!; [done..| | |].
  - apply view_unlink. intros r Hr. apply Hin in Hr. apply elem_of_classed in Hr as (s & f & [Hok _]%view_lookup & ->).
    exact Hok.
  - by apply total_without.
  - apply indexTotalSize_nonneg. intros r Hr. eapply size_nonneg. by apply Hin.
Qed.

Lemma safe_unlink gone more w : evictions = (gone ++ more)%list -> sits w1 (unlink gone d) w -> safe w1 news w.
Proof.
  intros E Hw. destruct (sits_frame _ _ Hw) as (Hd & _). destruct (prefix_facts gone more E) as (Hn & Hin & Hv & Ht & Hz).
  unfold safe. rewrite Hd. split_and!.
  - eapply good_sub; [apply unlink_sub|done].
  - rewrite Hv. lia.
  - exists gone, (more ++ rest)%list. split; [by rewrite app_assoc, <- E|]. fold d. fold v. rewrite Hv. split.
    + intros s f Hs. rewrite without_lookup. by destruct (decide _).
    + intros s f. rewrite without_lookup. destruct (decide _); [done|]. by left.
Qed.

(** The directory once [done] has been published. *)
Definition publishing (done : list Entry.t) (d' : Dir) : Prop :=
  good d' /\ classed (view d') ≡ₚ (map entry_record done ++ classed (without evictions v))%list /\
  (forall s f, without evictions v !! s = Some f -> view d' !! s = Some f) /\
  (forall s f, view d' !! s = Some f -> without evictions v !! s = Some f \/ s ∈ map Entry.Sequence done) /\
  (forall n, isReservedName n = true ->
     d' !! n = if decide (n ∈ map (fun e => pendingName (Entry.Sequence e)) done) then None else d !! n) /\
  (forall e, e ∈ done -> exists f, (file_of e f /\ d !! pendingName (Entry.Sequence e) = Some f) /\
                           view d' !! Entry.Sequence e = Some f).

Lemma publishing_start : publishing [] (unlink evictions d).
Proof.
  destruct (prefix_facts evictions []) as (Hn & Hin & Hv & Ht & Hz); [by rewrite app_nil_r|].
  unfold publishing. rewrite Hv. split_and!; try done.
  - eapply good_sub; [apply unlink_sub|done].
  - by left.
  - intros n Hr. by apply unlink_reserved.
  - by intros e ?%elem_of_nil.
Qed.

Lemma staged_sizes l : (forall e, e ∈ l -> e ∈ staged) -> 0 <= indexTotalSize (map entry_record l).
Proof.
  intros Hl. apply indexTotalSize_nonneg. intros r (e & -> & He)%list_elem_of_fmap. cbn.
  destruct (Hstaged e (Hl e He)) as [[_ (f & _ & _ & _ & <- & _)] _]. apply length_nonneg.
Qed.

Lemma safe_publishing done more w d' : staged = (done ++ more)%list -> publishing done d' -> sits w1 d' w -> safe w1 news w.
Proof.
  intros E (Hg & Hp & Hk & Hn & _ & _) Hw. destruct (sits_frame _ _ Hw) as (Hd & _).
  destruct (prefix_facts evictions []) as (_ & _ & _ & Ht & _); [by rewrite app_nil_r|].
  unfold safe. rewrite Hd. split_and!; [done| |].
  - unfold total. rewrite (indexTotalSize_perm _ _ Hp), indexTotalSize_app. fold (total (without evictions v)).
    pose proof (staged_sizes more) as Hm. rewrite E, map_app, indexTotalSize_app in Hroom.
    assert (0 <= indexTotalSize (map entry_record more)); [|lia]. apply Hm. intros e He. rewrite E. apply elem_of_app. by right.
  - exists evictions, rest. split; [done|]. fold d. fold v. split.
    + intros s f Hs. destruct (decide (s ∈ sequences evictions)) as [Hi|Hi].
      * destruct (view d' !! s) as [g|] eqn:Hg'; [|done]. exfalso. apply Hn in Hg' as [Hg'|Hnew].
        -- rewrite without_lookup, decide_True in Hg' by done. done.
        -- apply list_elem_of_fmap in Hnew as (e & -> & He). destruct (Hstaged e) as [_ Hfresh]; [|congruence].
           rewrite E. apply elem_of_app. by left.
      * apply Hk. rewrite without_lookup, decide_False by done. done.
    + intros s f Hs. apply Hn in Hs as [Hs|Hs].
      * rewrite without_lookup in Hs. destruct (decide _); [done|]. by left.
      * right. rewrite E, map_app. apply elem_of_app. by left.
Qed.

Lemma publishing_step done e more d' : staged = (done ++ e :: more)%list -> publishing done d' ->
  exists f, d' !! pendingName (Entry.Sequence e) = Some f /\
    publishing (done ++ [e])%list (<[stableName (Entry.Sequence e) := f]> (delete (pendingName (Entry.Sequence e)) d')).
Proof.
  intros E (Hg & Hp & Hk & Hn & Hr & Hf).
  assert (e ∈ staged) as He by (rewrite E; apply elem_of_app; right; by left).
  destruct (Hstaged e He) as [[Hok (f & Hf1 & Hf2)] Hfresh].
  pose proof Hdistinct as Hnd. rewrite E, map_app in Hnd. apply NoDup_app in Hnd as (_ & Hdis & _).
  assert (Entry.Sequence e ∉ map Entry.Sequence done) as Hnew.
  { intros Hin. apply (Hdis _ Hin). by left. }
  assert (view d' !! Entry.Sequence e = None) as Hvn.
  { destruct (view d' !! Entry.Sequence e) as [g|] eqn:Hg'; [|done]. apply Hn in Hg' as [Hg'|]; [|done].
    rewrite without_lookup in Hg'. destruct (decide _); [done|]. congruence. }
  assert (forall x, x ∈ done -> pendingName (Entry.Sequence x) <> pendingName (Entry.Sequence e)) as Hpn.
  { intros x Hx Epn. apply Hnew. apply pendingName_inj in Epn as <-; [by apply list_elem_of_fmap_2| |done].
    apply (Hstaged x). rewrite E. apply elem_of_app. by left. }
  assert (d' !! pendingName (Entry.Sequence e) = Some f) as Hd'.
  { rewrite Hr by apply pending_reserved, pendingName_prefix. rewrite decide_False; [done|].
    intros (x & Ex & Hx)%list_elem_of_fmap. by apply (Hpn x Hx). }
  exists f. split; [done|].
  assert (view (<[stableName (Entry.Sequence e) := f]> (delete (pendingName (Entry.Sequence e)) d')) =
          <[Entry.Sequence e := f]> (view d')) as Hview.
  { rewrite view_insert, view_delete_reserved by (done || apply pending_reserved, pendingName_prefix). done. }
  unfold publishing. rewrite Hview. destruct Hf2 as (Ht & Hpr & Hsz & Hcl & Hwho). split_and!.
  - apply good_publish; [done..|by rewrite Hcl|done].
  - rewrite (classed_insert envelope _ _ _ Hvn), Hp, map_app. cbn [map].
    rewrite (file_of_record e f) by done. rewrite <- app_assoc. cbn. apply Permutation_middle.
  - intros s g Hs. rewrite lookup_insert_ne; [by apply Hk|]. intros <-. apply Hk in Hs. congruence.
  - intros s g [[<- <-]|[_ Hs]]%lookup_insert_Some.
    + right. rewrite map_app. apply elem_of_app. right. by left.
    + apply Hn in Hs as [Hs|Hs]; [by left|]. right. rewrite map_app. apply elem_of_app. by left.
  - intros n Hres. rewrite lookup_insert_ne by (by apply not_eq_sym, reserved_not_stable). rewrite map_app.
    destruct (decide (n = pendingName (Entry.Sequence e))) as [->|Hne].
    + rewrite lookup_delete_eq, decide_True; [done|]. apply elem_of_app. right. by left.
    + rewrite lookup_delete_ne, Hr by done.
      destruct (decide (n ∈ map _ done)) as [Hi|Hi], (decide (n ∈ (_ ++ _)%list)) as [Hj|Hj]; try done.
      * exfalso. apply Hj, elem_of_app. by left.
      * exfalso. apply elem_of_app in Hj as [Hj|Hj]; [done|]. cbn in Hj. apply list_elem_of_singleton in Hj. done.
  - intros x [Hx| ->%list_elem_of_singleton]%elem_of_app.
    + destruct (Hf x Hx) as (g & Hg1 & Hg2). exists g. split; [done|]. rewrite lookup_insert_ne; [done|].
      intros Eq. rewrite <- Eq in Hg2. congruence.
    + exists f. split; [done|]. apply lookup_insert_eq.
Qed.

Lemma published_spec d' : publishing staged d' -> published d' staged = Some (map entry_record staged).
Proof.
  intros (_ & _ & _ & _ & _ & Hf). unfold published.
  assert (forall e, e ∈ staged -> e ∈ staged) as Hin by done. revert Hin. generalize staged at 1 3 4 as l.
  induction l as [|e l IH]; intros Hin; [done|]. cbn [mapM map].
  destruct (Hf e (Hin e ltac:(by left))) as (f & ((_ & _ & Hs & _) & _) & [_ Hl]%view_lookup). rewrite Hl. cbn.
  rewrite IH by (intros; apply Hin; by right). cbn. rewrite Hs. done.
Qed.

Lemma agrees_refl l : Forall2 agrees l l.
Proof. induction l; constructor; [|done]. split_and!; [done..|by right]. Qed.

Lemma agrees_filter (p : Z -> bool) l k : Forall2 agrees l k ->
  Forall2 agrees (List.filter (fun r => p (stableRecord.Sequence r)) l)
                 (List.filter (fun r => p (stableRecord.Sequence r)) k).
Proof.
  induction 1 as [|r c l k Hrc Hl IH]; [constructor|]. cbn. rewrite (proj1 Hrc).
  destruct (p (stableRecord.Sequence c)); [by constructor|done].
Qed.

Lemma kept_faithful l d' : faithful envelope l v -> publishing staged d' ->
  faithful envelope (sort_slice by_sequence
    (List.filter (fun r => negb (bool_decide (stableRecord.Sequence r ∈ sequences evictions))) l ++
     map entry_record staged)%list) (view d').
Proof.
  intros Hl (_ & Hp & _). set (keep := fun r => negb (bool_decide (stableRecord.Sequence r ∈ sequences evictions))).
  apply (faithful_sort envelope _ (List.filter keep (classed v) ++ map entry_record staged)%list).
  - apply Forall2_app.
    + exact (agrees_filter (fun s => negb (bool_decide (s ∈ sequences evictions))) _ _ Hl).
    + apply agrees_refl.
  - rewrite Hp, Permutation_app_comm. apply Permutation_app_head.
    destruct (prefix_facts evictions []) as (Hn & Hin & _); [by rewrite app_nil_r|].
    rewrite (filter_perm keep _ _ (classed_without evictions v Hn Hin)), List.filter_app, filter_none; [cbn; rewrite filter_all; [done|]|].
    + intros r (s & f & Hs & ->)%elem_of_classed. unfold keep. cbn.
      rewrite without_lookup in Hs. destruct (decide _) as [|Hi]; [done|]. by rewrite bool_decide_eq_false_2.
    + intros r Hr. unfold keep. rewrite bool_decide_eq_true_2; [done|]. by apply list_elem_of_fmap_2.
Qed.

Abbreviation stopped := (fun w : World => safe w1 news w /\ frame w1 w).

Lemma triple_forget : triple stopped forgetIndex (fun _ w => stopped w /\ indexed w = None)
  (fun w => stopped w /\ indexed w = None) (safe w1 news).
Proof. intros w Hw. cbn. done. Qed.

Lemma removals_spec : triple (sits w1 d)
  (each (fun r => remove (stableName (stableRecord.Sequence r))) evictions)
  (fun _ => sits w1 (unlink evictions d)) stopped (safe w1 news).
Proof.
  apply (triple_each (fun done => sits w1 (unlink done d))). intros done r more E.
  assert (forall w, sits w1 (unlink done d) w -> stopped w) as Hstop.
  { intros w Hw. split; [by eapply safe_unlink|apply (sits_frame _ _ Hw)]. }
  eapply triple_conseq; [apply triple_remove|done|cbn|exact Hstop|cbn; intros w Hw; apply (Hstop w Hw)].
  intros _ w Hw. unfold unlink. by rewrite foldl_snoc.
Qed.

Lemma renames_spec : triple (sits w1 (unlink evictions d))
  (each (fun e => rename (pendingName (Entry.Sequence e)) (stableName (Entry.Sequence e))) staged)
  (fun _ w => exists d', publishing staged d' /\ sits w1 d' w) stopped (safe w1 news).
Proof.
  eapply triple_conseq; [apply (triple_each (fun done w => exists d', publishing done d' /\ sits w1 d' w) _ _ stopped (safe w1 news))
    | |cbn; auto..].
  - intros done e more E. apply triple_exists. intros d'. apply triple_pure. intros Hp.
    destruct (publishing_step done e more d' E Hp) as (f & Hf & Hp').
    assert (forall w, sits w1 d' w -> stopped w) as Hstop.
    { intros w Hw. split; [by eapply safe_publishing|apply (sits_frame _ _ Hw)]. }
    eapply triple_conseq; [by apply triple_rename|done|cbn; eauto|exact Hstop|cbn; intros w Hw; apply (Hstop w Hw)].
  - intros w Hw. exists (unlink evictions d). split; [apply publishing_start|exact Hw].
Qed.

Lemma commit_spec : index_ok w1 ->
  triple (sits w1 d) (commit staged evictions)
    (fun _ w => stopped w /\ publishing staged (dir w) /\ index_ok w)
    (fun w => stopped w /\ indexed w = None) (safe w1 news).
Proof.
  intros Hi. unfold commit.
  eapply triple_bind; [eapply triple_on_error; [apply removals_spec|apply triple_forget]|]. intros [].
  eapply triple_bind; [eapply triple_on_error; [apply renames_spec|apply triple_forget]|]. intros [].
  apply triple_exists. intros d'. apply triple_pure. intros Hp.
  assert (forall w, sits w1 d' w -> stopped w) as Hstop.
  { intros w Hw. split; [eapply safe_publishing; [|done..]; by rewrite app_nil_r|apply (sits_frame _ _ Hw)]. }
  eapply triple_bind; [eapply triple_on_error; [|apply triple_forget]|].
  { eapply triple_conseq; [apply triple_flush|done|cbn; intros a w Hw; exact Hw|exact Hstop|cbn; intros w Hw; apply (Hstop w Hw)]. }
  intros [] w Hw. destruct (Hstop w Hw) as [Hs Hf]. destruct (sits_frame _ _ Hw) as (Hd & Hix & _).
  unfold noteCommitted, get, update, forgetIndex, update, mbind, M_bind. rewrite Hix. unfold index_ok in *.
  destruct (indexed w1) as [l|] eqn:El.
  - rewrite Hd, (published_spec d' Hp). cbn. rewrite Hd. split_and!; try done. by apply kept_faithful.
  - cbn. rewrite Hd, Hix. split_and!; done.
Qed.
End commit.

(** ** Appending *)

Lemma last_bound l : listed l -> forall r, r ∈ l -> stableRecord.Sequence r <= indexLastSequence l.
Proof.
  unfold indexLastSequence. intros Hl r Hr. induction l as [|x l _] using rev_ind; [by apply elem_of_nil in Hr|].
  rewrite last_snoc. apply elem_of_app in Hr as [Hr|Hr%list_elem_of_singleton]; [|by subst].
  pose proof (sorted_app_inv _ _ _ r x Hl Hr ltac:(by left)) as Hlt. cbn in Hlt. lia.
Qed.

Lemma faithful_last l v s f : faithful envelope l v -> v !! s = Some f -> s <= indexLastSequence l.
Proof.
  intros Hf Hv. pose proof (agrees_sequences _ _ Hf) as E.
  assert (indexLastSequence l = indexLastSequence (classed v)) as ->.
  { unfold indexLastSequence. pose proof (f_equal last E) as El. rewrite !fmap_last in El.
    destruct (last l), (last (classed v)); cbn in El; congruence. }
  pose proof (last_bound _ (classed_listed envelope v) (record_of envelope (s, f))) as Hb. apply Hb.
  apply elem_of_classed. eauto.
Qed.

Lemma lost_refl v news : lost v news v.
Proof. exists [], (eviction_order true (classed v)). split; [done|]. split; [done|]. by left. Qed.

Lemma order_grows includeCritical candidates :
  exists rest, eviction_order true candidates = (eviction_order includeCritical candidates ++ rest)%list.
Proof.
  destruct includeCritical; [exists []; by rewrite app_nil_r|].
  exists (List.filter (fun r => String.eqb (stableRecord.Priority r) PriorityCritical) candidates).
  unfold eviction_order. cbn [flat_map app]. by rewrite !app_nil_r, app_assoc.
Qed.

Lemma choose_prefix candidates required includeCritical evictions covered :
  chooseEvictions candidates required includeCritical = (evictions, covered) ->
  exists rest, eviction_order true candidates = (evictions ++ rest)%list.
Proof.
  intros [rest E]%chooseEvictions_prefix. destruct (order_grows includeCritical candidates) as [more ->].
  rewrite E, <- app_assoc. by eexists.
Qed.

Lemma choose_room candidates size maximum includeCritical evictions :
  chooseEvictions candidates (excessBytes size maximum) includeCritical = (evictions, true) ->
  size - indexTotalSize evictions <= maximum.
Proof.
  unfold excessBytes. destruct (Z.leb_spec size maximum) as [Hl|Hl].
  - unfold chooseEvictions. cbn. intros [= <-]. cbn. lia.
  - rewrite chooseEvictions_shortest by lia. intros (rest & _ & _ & Hend & _)%shortest_spec. lia.
Qed.

Section append.
Context (w1 : World).
Let v1 := view (dir w1).
Let n1 := sequence (metadata w1).
Abbreviation news := [n1 + 1; n1 + 2].
Hypothesis Hbound : total v1 <= maxBytes w1.
Hypothesis Habove : forall s f, v1 !! s = Some f -> s <= n1.

(** Nothing stored has changed; [have] is staged and the generator is at [n]. *)
Definition holding (n : Z) (have : list Entry.t) (w : World) : Prop :=
  view (dir w) = v1 /\ good (dir w) /\ index_ok w /\ maxBytes w = maxBytes w1 /\ quarantined w = [] /\
  sequence (metadata w) = n /\ n1 <= n <= max_u64 /\ forall e, e ∈ have -> stocked (dir w) e.

Definition ended (w : World) : Prop :=
  good (dir w) /\ index_ok w /\ total (view (dir w)) <= maxBytes w1 /\ lost v1 news (view (dir w)) /\
  maxBytes w = maxBytes w1 /\ quarantined w = [] /\ n1 <= sequence (metadata w) <= max_u64.

Abbreviation crashed := (safe w1 news).

Lemma holding_ended n have w : holding n have w -> ended w.
Proof.
  intros (E & Hg & Hi & Hm & Hq & Hn & Hr & _). unfold ended. rewrite E.
  split_and!; try done; [apply lost_refl|lia|lia].
Qed.

Lemma holding_crashed n have w : holding n have w -> crashed w.
Proof. intros Hw%holding_ended. destruct Hw as (Hg & _ & Ht & Hl & _). done. Qed.
#[local] Hint Resolve holding_ended holding_crashed : core.

Lemma holding_less n have have' w : (forall e, e ∈ have' -> e ∈ have) -> holding n have w -> holding n have' w.
Proof. intros Hi (E & Hg & Hx & Hm & Hq & Hn & Hr & Hs). split_and!; try done; try lia. intros e He. by apply Hs, Hi. Qed.

Lemma beside_holding s n have d w w2 : holding n have w2 -> dir w2 = d ->
  (forall e, e ∈ have -> Entry.Sequence e <> s) -> sequence_ok s ->
  beside s w2 d w -> holding n have w.
Proof.
  intros (E & Hg & Hx & Hm & Hq & Hn & Hr & Hs) Hd Hne Hok (d' & Hnear & [steps ->]). subst d.
  pose proof (near_view _ _ _ Hnear) as Hv. split_and!; cbn; try done; try lia.
  - by rewrite Hv.
  - apply Hnear.
  - unfold index_ok in *. cbn. by rewrite Hv.
  - intros e He. destruct (Hs e He) as [Hse (f & Hf & Hff)]. split; [done|]. exists f. split; [|done].
    rewrite (proj2 Hnear); [done|]. intros Ep. apply pendingName_inj in Ep; [|done|done]. by apply (Hne e He).
Qed.

Lemma stage_holding n have e : proper e -> v1 !! Entry.Sequence e = None ->
  (forall x, x ∈ have -> Entry.Sequence x <> Entry.Sequence e) ->
  triple (holding n have) (stage torn e) (fun _ => holding n (e :: have)) (holding n have) crashed.
Proof.
  intros Hp Hv Hne w2 Hw2. pose proof Hw2 as (E & Hg & Hrest).
  assert (triple (sits w2 (dir w2)) (stage torn e) (fun _ => holding n (e :: have)) (holding n have) crashed) as Ht;
    [|exact (Ht w2 (sits_self w2))].
  eapply triple_conseq; [apply stage_spec; [done..|by rewrite E]|done|cbn|cbn|cbn].
  - intros _ w (f & Hf & Hnear & Hsit).
    assert (holding n have w) as (E' & Hg' & Hx & Hm & Hq & Hn & Hr & Hs).
    { eapply beside_holding; [exact Hw2|done|done|apply Hp|]. by eapply beside_intro. }
    split_and!; try done; try lia. intros x [-> | Hx']%elem_of_cons; [|by apply Hs].
    split; [apply Hp|]. exists f. split; [|done]. destruct Hsit as [steps ->]. cbn. apply lookup_insert_eq.
  - intros w Hw. eapply beside_holding; [exact Hw2|done|done|apply Hp|done].
  - intros w Hw. eapply holding_crashed, beside_holding; [exact Hw2|done|done|apply Hp|done].
Qed.

Lemma drop_holding n have e : sequence_ok (Entry.Sequence e) ->
  (forall x, x ∈ have -> Entry.Sequence x <> Entry.Sequence e) ->
  triple (holding n have) (ignore (remove (pendingName (Entry.Sequence e)))) (fun _ => holding n have)
    (holding n have) crashed.
Proof.
  intros Hok Hne w2 Hw2. pose proof Hw2 as (E & Hg & Hrest).
  assert (forall w, beside (Entry.Sequence e) w2 (dir w2) w -> holding n have w) as Hb.
  { intros w Hw. by eapply beside_holding. }
  assert (triple (beside (Entry.Sequence e) w2 (dir w2)) (ignore (remove (pendingName (Entry.Sequence e))))
            (fun _ => holding n have) (holding n have) crashed) as Ht.
  { eapply triple_conseq; [apply triple_cleanup|done|cbn; eauto..]. }
  apply Ht. eapply beside_intro; [by apply near_refl|apply sits_self].
Qed.

Lemma holding_set_metadata n have w c g : holding n have w -> n <= sequence g <= max_u64 ->
  holding (sequence g) have (set_metadata c g w).
Proof. intros (E & Hg & Hx & Hm & Hq & Hn & Hr & Hs) Hb. split_and!; cbn; try done; lia. Qed.

Lemma next_holding n have : 0 <= n1 ->
  triple (holding n have) (next clock)
    (fun m w => Metadata.Sequence m = n + 1 /\ sequence_ok (n + 1) /\ holding (n + 1) have w)
    (holding n have) crashed.
Proof.
  intros Hn1 w Hw. pose proof Hw as (_ & _ & _ & _ & _ & Hn & Hr & _). unfold next.
  destruct (clock (calls w)) as [monotonic wall].
  destruct (Next monotonic wall (metadata w)) as [[m|e] g] eqn:E.
  - unfold Next in E. destruct (_ =? max_u64) eqn:Hmax; [done|]. destruct (_ || _); [done|].
    destruct (NewUUID (random (metadata w))) as [[id|] r]; [|done]. injection E as <- <-. bool_prop.
    rewrite Hn in *. unfold max_u64 in *. rewrite u64_small by (unfold max_u64; lia). cbn.
    split; [done|]. split; [unfold sequence_ok, max_u64; lia|].
    change (n + 1) with (sequence (mkGenerator (nodeID (metadata w)) (sessionID (metadata w)) (n + 1)
      (startMono (metadata w)) monotonic r)) at 1.
    eapply holding_set_metadata; [done|]. cbn. unfold max_u64. lia.
  - apply Next_err in E as (_ & _ & E & _).
    rewrite <- Hn, <- E. eapply holding_set_metadata; [exact Hw|]. rewrite E, Hn. unfold max_u64 in *. lia.
Qed.

Lemma newEntry_proper m p event e : sequence_ok (Metadata.Sequence m) -> newEntry m p event = Ok e ->
  proper e /\ Entry.Sequence e = Metadata.Sequence m.
Proof.
  intros Hs Hn. pose proof (newEntry_Ok _ _ _ _ Hn) as (_ & _ & E1 & E2 & E3 & E4 & _).
  split; [|done]. split; [by rewrite E1|]. by rewrite E2, E3, E4.
Qed.

Lemma overflow_holding n have : 0 <= n1 ->
  triple (holding n have) (overflowEntry clock)
    (fun e w => proper e /\ Entry.Sequence e = n + 1 /\ holding (n + 1) have w) ended crashed.
Proof.
  intros Hn1. unfold overflowEntry, incident_entry.
  eapply triple_bind; [eapply triple_conseq; [by apply next_holding|done|cbn; intros m w Hw; exact Hw|eauto|eauto]|].
  intros m. apply triple_pure. intros Hm. apply triple_pure. intros Hok. rewrite Hm.
  eapply triple_bind; [apply (triple_lift _ _ (fun _ => holding (n + 1) have)); eauto|].
  intros text. apply triple_lift; [|eauto]. intros w e Hw He.
  apply newEntry_proper in He as [Hp Hs]; [|by rewrite Hm]. split; [done|]. split; [by rewrite Hs|done].
Qed.

Lemma evictable_holding n have :
  triple (holding n have) (evictable envelope) (fun l w => l = classed v1 /\ holding n have w) ended crashed.
Proof.
  intros w Hw. pose proof Hw as (E & Hg & Hx & Hm & Hq & Hn & Hr & Hs).
  pose proof (evictable_spec w ended crashed Hg Hx w eq_refl) as Ht.
  destruct (evictable envelope w) as [w' [l|e|]]; [|done..].
  destruct Ht as (-> & (K1 & _ & _ & K4 & K5 & K6) & Hi). rewrite E. split; [done|].
  split_and!; rewrite ?K1, ?K4, ?K5, ?K6; try done; try lia.
  unfold index_ok. rewrite Hi, K1. unfold faithful. apply agrees_refl.
Qed.

Lemma commit_holding n have staged evictions rest :
  eviction_order true (classed v1) = (evictions ++ rest)%list ->
  (forall e, e ∈ staged -> e ∈ have) -> NoDup (map Entry.Sequence staged) ->
  (forall e, e ∈ staged -> v1 !! Entry.Sequence e = None /\ Entry.Sequence e ∈ news) ->
  total v1 - indexTotalSize evictions + indexTotalSize (map entry_record staged) <= maxBytes w1 ->
  triple (holding n have) (commit staged evictions)
    (fun _ w => ended w /\ forall e, e ∈ staged -> exists f, file_of e f /\ view (dir w) !! Entry.Sequence e = Some f)
    ended crashed.
Proof.
  intros Horder Hhave Hnd Hfresh Hroom w2 Hw2. pose proof Hw2 as (E & Hg & Hx & Hm & Hq & Hn & Hr & Hs).
  assert (forall w, safe w2 (map Entry.Sequence staged) w -> crashed w) as Hsafe.
  { intros w (S1 & S2 & S3). rewrite Hm in S2. split_and!; [done..|]. rewrite E in S3.
    destruct S3 as (gone & more & L1 & L2 & L3). exists gone, more. split_and!; [done..|].
    intros s f Hsf. destruct (L3 s f Hsf) as [|(e & -> & He)%list_elem_of_fmap]; [by left|]. right. by apply Hfresh. }
  assert (forall w, safe w2 (map Entry.Sequence staged) w -> frame w2 w -> index_ok w -> ended w) as Hend.
  { intros w Hw (F1 & F2 & F3 & _) Hi. destruct (Hsafe w Hw) as (S1 & S2 & S3).
    unfold ended. rewrite F1, F2, F3. split_and!; try done; lia. }
  assert (triple (sits w2 (dir w2)) (commit staged evictions)
    (fun _ w => ended w /\ forall e, e ∈ staged -> exists f, file_of e f /\ view (dir w) !! Entry.Sequence e = Some f)
    ended crashed) as Ht; [|exact (Ht w2 (sits_self w2))].
  eapply triple_conseq; [eapply (commit_spec w2 staged evictions rest)|done|cbn|cbn|cbn].
  - done.
  - by rewrite E.
  - done.
  - intros e He. rewrite E. split; [by apply Hs, Hhave|by apply Hfresh].
  - by rewrite E, Hm.
  - by rewrite E, Hm.
  - done.
  - intros _ w ([Hw Hf] & Hpub & Hi). split; [by apply Hend|]. intros e He.
    destruct Hpub as (_ & _ & _ & _ & _ & Hpub). destruct (Hpub e He) as (f & [? _] & ?). by exists f.
  - intros w [[Hw Hf] Hi]. apply Hend; [done..|]. unfold index_ok. by rewrite Hi.
  - intros w Hw. by apply Hsafe.
Qed.

Lemma fresh_above s : n1 < s -> v1 !! s = None.
Proof. intros Hs. destruct (v1 !! s) as [f|] eqn:E; [|done]. apply Habove in E. lia. Qed.

Lemma stage_ended n have e : proper e -> v1 !! Entry.Sequence e = None ->
  (forall x, x ∈ have -> Entry.Sequence x <> Entry.Sequence e) ->
  triple (holding n have) (stage torn e) (fun _ => holding n (e :: have)) ended crashed.
Proof. intros. eapply triple_conseq; [by apply stage_holding|done|done|eauto|done]. Qed.

Lemma drop_ended n have e : sequence_ok (Entry.Sequence e) ->
  (forall x, x ∈ have -> Entry.Sequence x <> Entry.Sequence e) ->
  triple (holding n have) (ignore (remove (pendingName (Entry.Sequence e)))) (fun _ => holding n have) ended crashed.
Proof. intros. eapply triple_conseq; [by apply drop_holding|done|done|eauto|done]. Qed.

Lemma recordOverflow_holding n : 0 <= n1 -> n1 <= n <= n1 + 1 ->
  triple (holding n []) (recordOverflow torn clock (classed v1)) (fun _ => ended) ended crashed.
Proof.
  intros Hn1 Hn. unfold recordOverflow.
  eapply triple_bind; [by apply overflow_holding|]. intros e.
  apply triple_pure. intros Hp. apply triple_pure. intros Hs.
  assert (v1 !! Entry.Sequence e = None) as Hfresh by (apply fresh_above; lia).
  apply triple_get. intros w0. apply triple_pre_eq. intros Hw0. pose proof Hw0 as (_ & _ & _ & Hm & _). rewrite Hm.
  destruct (maxBytes w1 <? Entry.Size e); [apply triple_fail; intros w ->; by eapply holding_ended|].
  eapply (triple_bind _ _ (fun _ => holding (n + 1) [e])).
  { eapply triple_conseq; [apply (stage_ended (n + 1) [] e)|intros w ->; exact Hw0|done..]; try done.
    by intros x ?%elem_of_nil. }
  intros []. destruct (chooseEvictions _ _ _) as [evictions covered] eqn:Hc. destruct covered; cbn [negb].
  - destruct (choose_prefix _ _ _ _ _ Hc) as [rest Horder]. apply choose_room in Hc.
    eapply triple_conseq; [apply (commit_holding (n + 1) [e] [e] evictions rest)|done|cbn; tauto|done|done]; [done|done| | |].
    + apply NoDup_singleton.
    + intros x ->%list_elem_of_singleton. split; [done|]. rewrite Hs, !elem_of_cons. lia.
    + cbn. unfold total in *. lia.
  - eapply triple_bind.
    { eapply triple_conseq; [apply (drop_ended (n + 1) [] e)|intros w Hw; eapply holding_less; [|exact Hw]|done..].
      - apply Hp.
      - by intros x ?%elem_of_nil.
      - by intros x ?%elem_of_nil. }
    intros []. apply triple_fail. eauto.
Qed.

(** A successful append: the bound holds, and the entry is stored under its sequence. *)
Definition appended (e : Entry.t) (w : World) : Prop :=
  ended w /\ exists f, file_of e f /\ view (dir w) !! Entry.Sequence e = Some f.

Lemma commit_appended n have e more evictions rest :
  eviction_order true (classed v1) = (evictions ++ rest)%list ->
  (forall x, x ∈ e :: more -> x ∈ have) -> NoDup (map Entry.Sequence (e :: more)) ->
  (forall x, x ∈ e :: more -> n1 < Entry.Sequence x <= n1 + 2) ->
  total v1 - indexTotalSize evictions + indexTotalSize (map entry_record (e :: more)) <= maxBytes w1 ->
  triple (holding n have) (commit (e :: more) evictions) (fun _ => appended e) ended crashed.
Proof.
  intros Horder Hhave Hnd Hseq Hroom.
  eapply triple_conseq; [apply (commit_holding n have (e :: more) evictions rest)|done|cbn|done|done]; try done.
  - intros x Hx. apply Hseq in Hx as Hx'. split; [apply fresh_above; lia|]. rewrite !elem_of_cons. lia.
  - intros _ w [Hw Hall]. split; [done|]. apply Hall. by left.
Qed.

Lemma holding_none n have w : holding n have w -> holding n [] w.
Proof. intros Hw. eapply holding_less; [|exact Hw]. by intros x ?%elem_of_nil. Qed.

Lemma drop_none n have e : sequence_ok (Entry.Sequence e) ->
  triple (holding n have) (ignore (remove (pendingName (Entry.Sequence e)))) (fun _ => holding n []) ended crashed.
Proof.
  intros Hok. eapply triple_conseq; [apply (drop_ended n [] e)|apply holding_none|done..]; [done|by intros x ?%elem_of_nil].
Qed.

Lemma append_critical_holding incoming : 0 <= n1 -> proper incoming -> Entry.Sequence incoming = n1 + 1 ->
  triple (holding (n1 + 1) [incoming]) (append_critical torn clock (classed v1) (maxBytes w1) incoming)
    (fun s w => s = Entry.Sequence incoming /\ appended incoming w) ended crashed.
Proof.
  intros Hn1 Hp Hs. unfold append_critical.
  eapply triple_bind; [apply (overflow_holding (n1 + 1) [incoming] Hn1)|].
  intros overflow. apply triple_pure. intros Hpo. apply triple_pure. intros Hso.
  destruct (maxBytes w1 <? _).
  { eapply triple_bind; [apply drop_none, Hp|intros []; apply triple_fail; eauto]. }
  eapply (triple_bind _ _ (fun _ => holding (n1 + 1 + 1) [overflow; incoming])).
  { eapply triple_on_error; [apply (stage_holding (n1 + 1 + 1) [incoming] overflow Hpo)|].
    - apply fresh_above. lia.
    - intros x ->%list_elem_of_singleton. lia.
    - eapply triple_conseq; [apply (drop_none (n1 + 1 + 1) [incoming]), Hp|done|cbn; eauto|done|done]. }
  intros []. destruct (chooseEvictions _ _ true) as [more covered] eqn:Hc. destruct covered; cbn [negb].
  - destruct (choose_prefix _ _ _ _ _ Hc) as [rest Horder]. apply choose_room in Hc.
    eapply (triple_bind _ _ (fun _ => appended incoming)); [|intros []; apply triple_ret; auto].
    apply (commit_appended (n1 + 1 + 1) [overflow; incoming] incoming [overflow] more rest Horder).
    + intros x. rewrite !elem_of_cons. tauto.
    + cbn. rewrite Hs, Hso. repeat constructor; rewrite ?elem_of_cons, ?elem_of_nil; lia.
    + intros x. rewrite !elem_of_cons, elem_of_nil. intros [-> |[-> |[]]]; lia.
    + cbn. unfold total in *. lia.
  - eapply triple_bind; [apply drop_none, Hp|]. intros [].
    eapply triple_bind; [apply drop_none, Hpo|]. intros []. apply triple_fail. eauto.
Qed.

Lemma append_full_holding record incoming : 0 <= n1 -> proper incoming -> Entry.Sequence incoming = n1 + 1 ->
  triple (holding (n1 + 1) [incoming]) (append_full torn envelope clock record incoming)
    (fun s w => s = Entry.Sequence incoming /\ appended incoming w) ended crashed.
Proof.
  intros Hn1 Hp Hs. unfold append_full.
  eapply triple_bind; [apply evictable_holding|]. intros candidates. apply triple_pure. intros ->.
  apply triple_get. intros w0. apply triple_pre_eq. intros Hw0. pose proof Hw0 as (_ & _ & _ & Hm & _). rewrite Hm.
  apply (triple_weaken w0 (holding (n1 + 1) [incoming]) Hw0).
  destruct (chooseEvictions _ _ false) as [evictions covered] eqn:Hc. destruct covered.
  { destruct (choose_prefix _ _ _ _ _ Hc) as [rest Horder]. apply choose_room in Hc.
    eapply (triple_bind _ _ (fun _ => appended incoming)); [|intros []; apply triple_ret; auto].
    apply (commit_appended (n1 + 1) [incoming] incoming [] evictions rest); [done|done|apply NoDup_singleton| |].
    - intros x ->%list_elem_of_singleton. lia.
    - cbn. unfold total in *. lia. }
  destruct (negb (String.eqb _ _)); [|by apply append_critical_holding].
  eapply triple_bind; [apply drop_none, Hp|]. intros []. eapply (triple_bind _ _ (fun _ => ended)).
  - intros w Hw. pose proof (recordOverflow_holding (n1 + 1) Hn1 ltac:(lia) w Hw) as Ht.
    by destruct (recordOverflow _ _ _ w) as [w' [a|e|]].
  - intros []. apply triple_fail. auto.
Qed.
End append.

(** The invariant of an open spool.  [quarantined] is empty: reporting what was set aside
    is the one step that does not look at the bound. *)
Definition Inv (w : World) : Prop :=
  good (dir w) /\ index_ok w /\ total (view (dir w)) <= maxBytes w /\ quarantined w = [] /\
  0 <= sequence (metadata w) <= max_u64.

Lemma Inv_holding w1 : Inv w1 -> holding w1 (sequence (metadata w1)) [] w1.
Proof. intros (Hg & Hx & Ht & Hq & Hn). split_and!; try done; try lia. by intros e ?%elem_of_nil. Qed.

Lemma ended_Inv w1 w : 0 <= sequence (metadata w1) -> ended w1 w -> Inv w.
Proof. intros Hn (Hg & Hx & Ht & _ & Hm & Hq & Hr). split_and!; try done; try lia. Qed.

Definition news_of (w1 : World) : list Z := [sequence (metadata w1) + 1; sequence (metadata w1) + 2].

Lemma place_entry_triple w1 record records e : Inv w1 -> faithful envelope records (view (dir w1)) ->
  indexLastSequence records < Entry.Sequence e -> Entry.Sequence e = sequence (metadata w1) + 1 -> proper e ->
  triple (holding w1 (sequence (metadata w1) + 1) []) (place_entry torn envelope clock record records e)
    (fun s w => s = Entry.Sequence e /\ appended w1 e w) (ended w1) (safe w1 (news_of w1)).
Proof.
  intros (_ & _ & Ht & _ & Hn) Hf Hlast Hs Hp. unfold place_entry.
  assert (forall s f, view (dir w1) !! s = Some f -> s <= sequence (metadata w1)) as Habove.
  { intros s f Hv. pose proof (faithful_last _ _ _ _ Hf Hv). lia. }
  apply triple_get. intros w0. apply triple_pre_eq. intros Hw0. pose proof Hw0 as (_ & _ & _ & Hmax & _). rewrite Hmax.
  apply (triple_weaken w0 (holding w1 (sequence (metadata w1) + 1) []) Hw0).
  destruct (maxBytes w1 <? Entry.Size e); [apply triple_fail; intros w Hw; by eapply holding_ended|].
  eapply triple_bind; [apply (stage_ended w1 Ht (sequence (metadata w1) + 1) [] e Hp)|].
  { apply (fresh_above w1 Habove). lia. }
  { by intros x ?%elem_of_nil. }
  intros []. pose proof (faithful_total envelope _ _ Hf) as Htot.
  destruct (excessBytes _ _ <=? 0) eqn:Hex; [|by apply (append_full_holding w1 Ht Habove record e (proj1 Hn) Hp)].
  unfold excessBytes in Hex. destruct (_ <=? maxBytes w1) eqn:Hfits in Hex; bool_prop; [|lia].
  eapply (triple_bind _ _ (fun _ => appended w1 e)); [|intros []; apply triple_ret; auto].
  eapply (commit_appended w1 Ht Habove (sequence (metadata w1) + 1) [e] e [] []); [done|done|apply NoDup_singleton| |].
  - intros x ->%list_elem_of_singleton. lia.
  - cbn. lia.
Qed.

(** The listing [Append] starts from. *)
Lemma listing_triple w1 F C : Inv w1 ->
  triple (fun w => w = w1) index
    (fun l w => faithful envelope l (view (dir w1)) /\ holding w1 (sequence (metadata w1)) [] w) F C.
Proof.
  intros (Hg & Hx & Ht & Hq & Hn).
  eapply triple_conseq; [apply (index_spec (fun w => w = w1)); intros w ->; split; [apply Hg|done]|done|cbn|done|done].
  intros l w (w0 & -> & Hf & Hi & Hw). rewrite Hw in Hf |- *. cbn in Hf. split; [done|].
  split_and!; cbn; try done; try lia. by intros e ?%elem_of_nil.
Qed.

Lemma report_nothing w1 F C : quarantined w1 = [] ->
  triple (fun w => w = w1) (reportQuarantineLocked torn clock) (fun _ w => w = w1) F C.
Proof.
  intros Hq. unfold reportQuarantineLocked. apply triple_get. intros w0. apply triple_pre_eq. intros ->.
  rewrite Hq. by apply triple_ret.
Qed.

Lemma Append_triple w1 encoded : Inv w1 ->
  triple (fun w => w = w1) (Append torn envelope clock encoded)
    (fun s w => exists record e, Events.Decode encoded = Ok record /\ s = sequence (metadata w1) + 1 /\
       Entry.Sequence e = s /\ Entry.Event e = encoded /\ Entry.Priority e = EventRecord.Priority record /\
       proper e /\ appended w1 e w)
    (ended w1) (safe w1 (news_of w1)).
Proof.
  intros HI. pose proof HI as (_ & _ & Ht & Hq & Hn). unfold Append.
  assert (forall n have w, holding w1 n have w -> ended w1 w) as Hended by (intros; by eapply holding_ended).
  eapply triple_bind.
  { apply (triple_lift _ _ (fun r w => Events.Decode encoded = Ok r /\ w = w1)).
    - intros w r -> Hr. split; [|done]. destruct (Events.Decode encoded); cbn in Hr; [by injection Hr as ->|done].
    - intros w ->. eapply Hended. by apply Inv_holding. }
  intros record. apply triple_pure. intros Hrec. eapply triple_bind; [by apply report_nothing|]. intros [].
  eapply triple_bind; [by apply listing_triple|]. intros records. apply triple_pure. intros Hf.
  eapply triple_bind.
  { eapply triple_conseq; [apply (next_holding w1 (sequence (metadata w1)) [] (proj1 Hn))|done|
      cbn; intros a w Hw; exact Hw|eauto|done]. }
  intros m. apply triple_pure. intros Hm. apply triple_pure. intros Hok. rewrite Hm.
  destruct (_ <=? indexLastSequence records) eqn:Hlast; [apply triple_fail; eauto|]. bool_prop.
  eapply triple_bind.
  { apply (triple_lift _ _ (fun e w => newEntry m (EventRecord.Priority record) encoded = Ok e /\
             holding w1 (sequence (metadata w1) + 1) [] w)); [auto|eauto]. }
  intros e. apply triple_pure. intros Hne.
  pose proof (newEntry_Ok _ _ _ _ Hne) as (_ & _ & E1 & E2 & _ & E4 & _). rewrite Hm in E1.
  destruct (newEntry_proper _ _ _ _ ltac:(by rewrite Hm) Hne) as [Hp _].
  eapply triple_conseq; [apply (place_entry_triple w1 record records e HI Hf); [lia|done|done]| | |done|done].
  { done. }
  intros s w [-> Hw]. exists record, e. done.
Qed.

(** ** Recovery on a disk that works *)

(** Every operation is carried out, and the run ends in a value. *)
Definition carried {A} (P : World -> Prop) (m : M World spool_error A) (Q : A -> World -> Prop) : Prop :=
  forall w, script w = [] -> P w -> exists w' a, m w = (w', Done a) /\ script w' = [] /\ Q a w'.

Lemma carried_bind {A B} P (m : M World spool_error A) Q (k : A -> M World spool_error B) R :
  carried P m Q -> (forall a, carried (Q a) (k a) R) -> carried P (m ≫= k) R.
Proof.
  intros Hm Hk w Hs Hw. destruct (Hm w Hs Hw) as (w' & a & E & Hs' & Hq). unfold mbind, M_bind. rewrite E.
  by apply Hk.
Qed.

Lemma carried_conseq {A} (P P' : World -> Prop) (m : M World spool_error A) (Q Q' : A -> World -> Prop) :
  carried P' m Q' -> (forall w, P w -> P' w) -> (forall a w, Q' a w -> Q a w) -> carried P m Q.
Proof. intros Hm HP HQ w Hs Hw. destruct (Hm w Hs (HP w Hw)) as (w' & a & E & Hs' & Hq). eauto 10. Qed.

Lemma carried_ret {A} P (a : A) (Q : A -> World -> Prop) : (forall w, P w -> Q a w) -> carried P (mret a) Q.
Proof. intros Hq w Hs Hw. exists w, a. auto. Qed.

Lemma carried_update P f Q : (forall w, script (f w) = script w) -> (forall w, P w -> Q tt (f w)) -> carried P (update f) Q.
Proof. intros Hf Hq w Hs Hw. exists (f w), tt. rewrite Hf. auto. Qed.

Lemma carried_perform P op (Q : unit -> World -> Prop) :
  (forall w, P w -> exists d, op (dir w) = Some d /\ Q tt (set_script [] (set_dir d w))) -> carried P (perform op) Q.
Proof.
  intros Hq w Hs Hw. destruct (Hq w Hw) as (d & E & Hd). unfold perform. rewrite Hs, E.
  eexists _, tt. split; [reflexivity|]. split; [done|]. exact Hd.
Qed.

Lemma carried_on_error {A} P (m : M World spool_error A) cleanup Q : carried P m Q -> carried P (on_error cleanup m) Q.
Proof.
  intros Hm w Hs Hw. destruct (Hm w Hs Hw) as (w' & a & E & Hr). unfold on_error. rewrite E. eauto.
Qed.

Lemma carried_each {A} (I : list A -> World -> Prop) (f : A -> M World spool_error unit) l :
  (forall done x rest, l = (done ++ x :: rest)%list -> carried (I done) (f x) (fun _ => I (done ++ [x])%list)) ->
  carried (I []) (each f l) (fun _ => I l).
Proof.
  intros Hf.
  assert (forall rest done, l = (done ++ rest)%list -> carried (I done) (each f rest) (fun _ => I l)) as Hgen;
    [|by apply (Hgen l [])].
  induction rest as [|x rest IH]; intros done E; cbn [each].
  - apply carried_ret. intros w. rewrite E. by rewrite app_nil_r.
  - eapply carried_bind; [by apply (Hf done x rest)|]. intros []. apply IH. by rewrite E, <- app_assoc.
Qed.

Lemma carried_remove n w0 : is_Some (dir w0 !! n) ->
  carried (fun w => w = w0) (remove n) (fun _ w => w = set_dir (delete n (dir w0)) w0).
Proof.
  intros [f Hf] w Hs ->. unfold remove, perform. rewrite Hs, Hf. cbn. eexists _, tt. split; [reflexivity|].
  split; [done|]. destruct w0; cbn in *; by subst.
Qed.

Lemma commit_carried w1 staged evictions rest :
  good (dir w1) -> index_ok w1 ->
  eviction_order true (classed (view (dir w1))) = (evictions ++ rest)%list -> NoDup (map Entry.Sequence staged) ->
  (forall e, e ∈ staged -> stocked (dir w1) e /\ view (dir w1) !! Entry.Sequence e = None) ->
  carried (fun w => w = w1) (commit staged evictions) (fun _ _ => True).
Proof.
  intros Hg Hi Ho Hn Hst. unfold commit.
  eapply (carried_bind _ _ (fun _ => sits w1 (unlink evictions (dir w1)))).
  { apply carried_on_error. eapply carried_conseq;
      [apply (carried_each (fun done => sits w1 (unlink done (dir w1))))|intros w ->; apply sits_self|done].
    intros done r more E. apply carried_perform. intros w [steps ->]. cbn.
    destruct (order_prefix (view (dir w1)) evictions rest (proj2 (proj2 Hg)) Ho) as [Hnd Hin].
    assert (r ∈ evictions) as Hr by (rewrite E; apply elem_of_app; right; by left).
    destruct (proj1 (elem_of_classed envelope _ _) (Hin r Hr)) as (s & f & [Hok Hf]%view_lookup & ->). cbn.
    assert (unlink done (dir w1) !! stableName s = Some f) as ->.
    { assert (forall q, q ∈ done -> sequence_ok (stableRecord.Sequence q)) as Hoks.
      { intros q Hq. assert (q ∈ evictions) as Hqe by (rewrite E; apply elem_of_app; by left).
        by destruct (proj1 (elem_of_classed envelope _ _) (Hin q Hqe)) as (t & g & [Ht _]%view_lookup & ->). }
      pose proof (view_unlink done (dir w1) Hoks) as Hv.
      assert (view (unlink done (dir w1)) !! s = Some f) as Hvs; [|by apply view_lookup in Hvs as [_ ?]].
      rewrite Hv, without_lookup, decide_False; [by apply view_lookup|].
      rewrite E, map_app in Hnd. apply NoDup_app in Hnd as (_ & Hd & _). intros Hs. apply (Hd _ Hs). by left. }
    eexists. split; [done|]. exists []. cbn. unfold unlink. by rewrite foldl_snoc. }
  intros []. eapply (carried_bind _ _ (fun _ w => exists d', sits w1 d' w)).
  { apply carried_on_error. eapply carried_conseq;
      [apply (carried_each (fun done w => exists d', publishing w1 evictions done d' /\ sits w1 d' w))| |].
    - intros done e more E. apply carried_perform. intros w (d' & Hp & [steps ->]).
      destruct (publishing_step w1 staged evictions Hn Hst done e more d' E Hp) as (f & Hf & Hp'). cbn. rewrite Hf.
      eexists. split; [done|]. eexists. split; [exact Hp'|]. by exists [].
    - intros w Hw. eexists. split; [|exact Hw]. by eapply publishing_start.
    - cbn. intros _ w (d' & _ & Hw). eauto. }
  intros []. eapply (carried_bind _ _ (fun _ w => True)).
  { apply carried_on_error, carried_perform. eauto. }
  intros [] w Hs _. unfold noteCommitted, get, mbind, M_bind, forgetIndex, update, mret, M_ret.
  destruct (indexed w); [|by eexists _, _]. destruct (published _ _); by eexists _, _.
Qed.

Section recovery.
Context (d0 : Dir) (maximum : Z).

(** Recovery with the pending files [todo] before it. *)
Definition recovering (todo : list string) (w : World) : Prop :=
  good (dir w) /\ index_ok w /\ total (view (dir w)) <= maximum /\ maxBytes w = maximum /\ quarantined w = [] /\
  (forall n, has_prefix ".pending-" n = true -> is_Some (dir w !! n) -> n ∈ todo) /\
  (forall n, n ∈ todo -> has_prefix ".pending-" n = true /\ is_Some (d0 !! n) /\ dir w !! n = d0 !! n) /\
  (forall s f, view (dir w) !! s = Some f -> view d0 !! s = Some f \/ d0 !! pendingName s = Some f).

Lemma recovering_dropped n todo w : NoDup (n :: todo) -> recovering (n :: todo) w ->
  recovering todo (set_dir (delete n (dir w)) w).
Proof.
  intros Hnd (Hg & Hx & Ht & Hm & Hq & Hp & Hk & Ho). apply NoDup_cons in Hnd as [Hn Hnd].
  assert (isReservedName n = true) as Hr by (apply pending_reserved; apply (Hk n); by left).
  pose proof (view_delete_reserved (dir w) n Hr) as Hv. unfold recovering, index_ok. cbn. rewrite Hv.
  split_and!; try done.
  - by apply good_delete.
  - intros m Hm' [f Hf]. apply lookup_delete_Some in Hf as [Hne Hf].
    assert (m ∈ n :: todo) as [-> |]%elem_of_cons by (apply Hp; [done|by exists f]); [done|done].
  - intros m Hin. rewrite lookup_delete_ne by (intros ->; done). apply Hk. by right.
Qed.

Lemma recovering_published n e todo w w' evictions :
  NoDup (n :: todo) -> recovering (n :: todo) w -> n = pendingName (Entry.Sequence e) -> sequence_ok (Entry.Sequence e) ->
  safe w [Entry.Sequence e] w' -> frame w w' -> publishing w evictions [e] (dir w') -> index_ok w' ->
  d0 !! n = dir w !! n -> recovering todo w'.
Proof.
  intros Hnd (Hg & Hx & Ht & Hm & Hq & Hp & Hk & Ho) -> Hok (S1 & S2 & S3) (F1 & F2 & F3 & _)
    (P1 & P2 & P3 & P4 & P5 & P6) Hi Hd. apply NoDup_cons in Hnd as [Hn Hnd].
  unfold recovering. rewrite F1, F3. split_and!; try done.
  - lia.
  - intros m Hpre. rewrite P5 by by apply pending_reserved. cbn.
    destruct (decide _) as [|Hne]; [by intros [? ?]|]. intros Hs. apply Hp in Hs; [|done].
    apply elem_of_cons in Hs as [-> |]; [|done]. exfalso. apply Hne. by left.
  - intros m Hin. destruct (Hk m) as (H1 & H2 & H3); [by right|]. split_and!; [done..|].
    rewrite P5 by by apply pending_reserved. rewrite decide_False; [done|]. cbn.
    intros ->%list_elem_of_singleton. done.
  - intros s f Hs. apply P4 in Hs as Hs'. destruct Hs' as [Hs'|Hs'].
    + rewrite without_lookup in Hs'. destruct (decide _); [done|]. by apply Ho.
    + cbn in Hs'. apply list_elem_of_singleton in Hs' as ->. right. rewrite Hd.
      destruct (P6 e) as (g & [_ Hg'] & Hv); [by left|]. congruence.
Qed.

Lemma carried_evictable w1 : good (dir w1) -> index_ok w1 ->
  carried (fun w => w = w1) (evictable envelope)
    (fun l w => l = classed (view (dir w1)) /\ keeps w1 w /\ indexed w = Some l).
Proof.
  intros Hg Hi w Hs ->. pose proof (evictable_spec w1 (fun _ => False) (fun _ => False) Hg Hi w1 eq_refl) as Ht.
  destruct (evictable envelope w1) as [w' [l|e|]]; [|done..].
  exists w', l. split; [done|]. split; [|done]. destruct Ht as (_ & (_ & -> & _) & _). done.
Qed.

Lemma carried_weaken {A} w1 (P : World -> Prop) (m : M World spool_error A) Q :
  P w1 -> carried P m Q -> carried (fun w => w = w1) m Q.
Proof. intros Hp Hm w Hs ->. by apply Hm. Qed.

Lemma recovering_keeps todo w1 w l : recovering todo w1 -> keeps w1 w ->
  indexed w = Some l -> l = classed (view (dir w1)) -> recovering todo w.
Proof.
  intros (Hg & Hx & Ht & Hm & Hq & Hp & Hk & Ho) (K1 & _ & _ & K4 & _ & K6) Hi ->.
  unfold recovering, index_ok. rewrite K1, K4, K6, Hi. split_and!; try done. apply agrees_refl.
Qed.

Lemma commit_done w1 e evictions rest : good (dir w1) -> index_ok w1 -> script w1 = [] ->
  eviction_order true (classed (view (dir w1))) = (evictions ++ rest)%list ->
  stocked (dir w1) e -> view (dir w1) !! Entry.Sequence e = None ->
  total (view (dir w1)) <= maxBytes w1 ->
  total (view (dir w1)) - indexTotalSize evictions + Entry.Size e <= maxBytes w1 ->
  exists w', commit [e] evictions w1 = (w', Done tt) /\ script w' = [] /\
    safe w1 [Entry.Sequence e] w' /\ frame w1 w' /\ publishing w1 evictions [e] (dir w') /\ index_ok w'.
Proof.
  intros Hg Hi Hs Ho Hst Hfr Hb Hr.
  assert (forall x, x ∈ [e] -> stocked (dir w1) x /\ view (dir w1) !! Entry.Sequence x = None) as Hall
    by (by intros x ->%list_elem_of_singleton).
  assert (NoDup (map Entry.Sequence [e])) as Hnd by apply NoDup_singleton.
  destruct (commit_carried w1 [e] evictions rest Hg Hi Ho Hnd Hall w1 Hs eq_refl) as (w' & [] & E & Hs' & _).
  assert (total (view (dir w1)) - indexTotalSize evictions + indexTotalSize (map entry_record [e]) <= maxBytes w1) as Hroom
    by (cbn; lia).
  pose proof (commit_spec w1 [e] evictions rest Hg Ho Hnd Hall Hb Hroom Hi w1 (sits_self w1)) as Ht.
  rewrite E in Ht. destruct Ht as ([Hsafe Hframe] & Hpub & Hix). exists w'. done.
Qed.

Lemma pending_carried n todo w1 : NoDup (n :: todo) -> recovering (n :: todo) w1 ->
  carried (fun w => w = w1) (recover_pending envelope n) (fun _ => recovering todo).
Proof.
  intros Hnd Hrec. pose proof Hrec as (Hg & Hx & Ht & Hm & Hq & Hp & Hk & Ho).
  destruct (Hk n) as (Hpre & Hsome & Hsame); [by left|]. rewrite <- Hsame in Hsome.
  assert (carried (fun w => w = w1) (remove n) (fun _ => recovering todo)) as Hdrop.
  { eapply carried_conseq; [by apply carried_remove|done|]. intros _ w ->. by eapply recovering_dropped. }
  unfold recover_pending. intros w Hs ->. unfold get, mbind, M_bind at 1.
  destruct Hsome as [f Hf]. unfold readEntry. rewrite Hf.
  destruct (readFile f) as [e|] eqn:He; [|by apply Hdrop].
  destruct (proj1 (proj2 Hg) n f e Hpre Hf He) as (Hok & Hname & Hdata).
  rewrite Hname, String.eqb_refl, <- Hname. cbn [negb].
  destruct (dir w1 !! stableName (Entry.Sequence e)) as [stable|] eqn:Hst.
  { cbn. rewrite bool_decide_eq_true_2 by (f_equal; by apply Hdata). by apply Hdrop. }
  clear Hdrop.
  refine (carried_bind (fun w => w = w1) _ _ _ _ (carried_evictable w1 Hg Hx) _ w1 Hs eq_refl).
  intros candidates w Hsw (-> & Hkeep & Hi). unfold get, mbind, M_bind at 1.
  pose proof (recovering_keeps _ _ _ _ Hrec Hkeep Hi eq_refl) as Hrec'.
  destruct Hkeep as (K1 & _ & _ & K4 & _). rewrite <- K1 in *.
  pose proof Hrec' as (Hg' & Hx' & Ht' & Hm' & _).
  destruct (chooseEvictions _ _ _) as [evictions covered] eqn:Hc. destruct covered; cbn [negb].
  - destruct (choose_prefix _ _ _ _ _ Hc) as [rest Horder]. apply choose_room in Hc.
    destruct (readFile_Ok torn envelope f e He) as (R1 & R2 & R3 & R4 & _).
    destruct (commit_done w e evictions rest) as (w' & E & Hs' & Hsafe & Hframe & Hpub & Hix); try done.
    + split; [done|]. exists f. rewrite <- Hname. split; [done|]. split_and!; try done. by right.
    + destruct (view (dir w) !! Entry.Sequence e) eqn:Hv; [|done]. apply view_lookup in Hv as [_ Hv]. congruence.
    + by rewrite Hm'.
    + unfold total in *. lia.
    + exists w', tt. split; [done|]. split; [done|]. by apply (recovering_published n e todo w w' evictions).
  - assert (carried (fun x => x = w) (remove n) (fun _ => recovering todo)) as Hdrop.
    { eapply carried_conseq; [apply carried_remove; by rewrite Hf|done|]. intros _ x ->. by eapply recovering_dropped. }
    by apply Hdrop.
Qed.

Lemma owners_carried w1 l todo : NoDup l -> (forall n, n ∈ l -> has_prefix ".owner-" n = true /\ is_Some (dir w1 !! n)) ->
  (forall n, n ∈ l -> n ∉ todo) -> recovering todo w1 ->
  carried (fun w => w = w1) (each remove l) (fun _ => recovering todo).
Proof.
  intros Hnd Hl Hdis Hrec.
  eapply carried_conseq; [apply (carried_each (fun done w => recovering todo w /\
      forall n, n ∈ l -> n ∉ done -> dir w !! n = dir w1 !! n))| |cbn; intros _ w [Hw _]; exact Hw].
  - intros done n rest E. intros w Hs [Hw Hsame].
    assert (n ∈ l) as Hin by (rewrite E; apply elem_of_app; right; by left).
    destruct (Hl n Hin) as [Hpre Hsome].
    assert (n ∉ done) as Hn.
    { rewrite E in Hnd. apply NoDup_app in Hnd as (_ & Hd & _). intros Hx. apply (Hd n Hx). by left. }
    rewrite <- (Hsame n Hin Hn) in Hsome.
    destruct (carried_remove n w Hsome w Hs eq_refl) as (w' & [] & E' & Hs' & ->).
    exists (set_dir (delete n (dir w)) w), tt. split; [done|]. split; [done|]. split.
    + destruct Hw as (Hg & Hx & Ht & Hm & Hq & Hp & Hk & Ho).
      assert (isReservedName n = true) as Hr by (unfold isReservedName; by rewrite Hpre, orb_true_r).
      pose proof (view_delete_reserved (dir w) n Hr) as Hv. unfold recovering, index_ok. cbn. rewrite Hv.
      split_and!; try done.
      * by apply good_delete.
      * intros m Hm' [f Hf]. apply lookup_delete_Some in Hf as [Hne Hf]. apply Hp; [done|by exists f].
      * intros m Hmt. rewrite lookup_delete_ne; [by apply Hk|]. intros ->. by apply (Hdis m).
    + cbn. intros m Hm Hd. rewrite lookup_delete_ne; [apply Hsame; [done|]|].
      * intros Hx. apply Hd, elem_of_app. by left.
      * intros ->. apply Hd, elem_of_app. right. by left.
  - intros w ->. done.
Qed.
End recovery.

Lemma owner_not_pending n : has_prefix ".owner-" n = true -> has_prefix ".pending-" n = true -> False.
Proof.
  destruct n as [|a [|b n]]; [done| |]; unfold has_prefix; cbn [String.prefix].
  - destruct (ascii_dec _ _); done.
  - destruct (ascii_dec _ _); [|done]. destruct (ascii_dec "o" b) as [<-|]; [|done]. intros _.
    by destruct (ascii_dec "p" "o").
Qed.

Lemma names_spec d n : n ∈ names d <-> is_Some (d !! n).
Proof.
  unfold names. rewrite list_elem_of_fmap. split.
  - intros ([m f] & -> & Hin). rewrite ReadDir_perm in Hin. apply elem_of_map_to_list in Hin. by exists f.
  - intros [f Hf]. exists (n, f). split; [done|]. rewrite ReadDir_perm. by apply elem_of_map_to_list.
Qed.

Lemma names_NoDup d : NoDup (names d).
Proof. unfold names. rewrite (Permutation_map fst (ReadDir_perm d)). apply (NoDup_fst_map_to_list d). Qed.

Lemma filter_NoDup {A} (p : A -> bool) l : NoDup l -> NoDup (List.filter p l).
Proof. rewrite !NoDup_ListNoDup. apply List.NoDup_filter. Qed.

Lemma elem_of_List_filter {A} (p : A -> bool) l x : x ∈ List.filter p l <-> x ∈ l /\ p x = true.
Proof. rewrite !list_elem_of_In. apply filter_In. Qed.

(** Opening a directory within the bound whose files tell no lies. *)
Lemma recover_carried w1 : good (dir w1) -> index_ok w1 -> total (view (dir w1)) <= maxBytes w1 -> quarantined w1 = [] ->
  carried (fun w => w = w1) (recover envelope) (fun _ w => recovering (dir w1) (maxBytes w1) [] w).
Proof.
  intros Hg Hx Ht Hq. unfold recover. intros w Hs ->. unfold get, mbind, M_bind at 1. revert w1 Hg Hx Ht Hq Hs.
  intros w1 Hg Hx Ht Hq Hs.
  set (owners := List.filter (has_prefix ".owner-") (names (dir w1))).
  set (pendings := sort_strings _).
  assert (forall n, n ∈ pendings <-> has_prefix ".pending-" n = true /\ is_Some (dir w1 !! n)) as Hpend.
  { intros n. unfold pendings, sort_strings. rewrite elem_of_sort_slice, !elem_of_List_filter, names_spec, negb_true_iff.
    split; [tauto|]. intros [Hp Hsome]. split_and!; try done.
    destruct (has_prefix ".owner-" n) eqn:Ho; [|done]. by destruct (owner_not_pending n). }
  assert (NoDup pendings) as Hnd.
  { unfold pendings, sort_strings. rewrite sort_slice_perm. by repeat apply filter_NoDup; apply names_NoDup. }
  assert (recovering (dir w1) (maxBytes w1) pendings w1) as Hstart.
  { split_and!; try done.
    - intros n Hp Hsome. by apply Hpend.
    - intros n Hin%Hpend. naive_solver.
    - by left. }
  refine (carried_bind (fun w => w = w1) _ (fun _ => recovering (dir w1) (maxBytes w1) pendings) _ _ _ _ w1 Hs eq_refl).
  { apply owners_carried; [by apply filter_NoDup, names_NoDup| | |done].
    - intros n [Hn Hp]%elem_of_List_filter. split; [done|]. by apply names_spec.
    - intros n [_ Ho]%elem_of_List_filter [Hp _]%Hpend. by eapply owner_not_pending. }
  intros []. eapply (carried_bind _ _ (fun _ => recovering (dir w1) (maxBytes w1) [])).
  { eapply carried_conseq; [apply (carried_each (fun done w => exists todo, pendings = (done ++ todo)%list /\
        recovering (dir w1) (maxBytes w1) todo w))| |].
    - intros done n rest E w Hsw (todo & E' & Hw). rewrite E in E'. apply app_inv_head in E' as <-.
      assert (NoDup (n :: rest)) as Hnr by (rewrite E in Hnd; by apply NoDup_app in Hnd as (_ & _ & ?)).
      destruct (pending_carried _ _ n rest w Hnr Hw w Hsw eq_refl) as (w' & [] & Ew & Hs' & Hw').
      exists w', tt. split; [done|]. split; [done|]. exists rest. split; [by rewrite E, <- app_assoc|done].
    - intros w Hw. exists pendings. done.
    - cbn. intros _ w (todo & E & Hw). rewrite <- (app_nil_r pendings) in E at 1. by apply app_inv_head in E as <-. }
  intros [] w Hsw Hw. pose proof Hw as (G1 & G2 & G3 & G4 & G5 & G6 & G7 & G8).
  pose proof (index_spec (fun x => x = w) (fun _ => False) (fun _ => False)) as Hix.
  specialize (Hix ltac:(intros x ->; split; [apply G1|done]) w eq_refl). unfold mbind, M_bind at 1.
  destruct (index w) as [w' [l|e|]]; [|done..]. destruct Hix as (w0 & -> & Hf & Hi & Hw').
  unfold get, mbind, M_bind. assert (maxBytes w' = maxBytes w1) as -> by (by rewrite Hw').
  rewrite (faithful_total envelope _ _ Hf). assert (view (dir w') = view (dir w)) as -> by (by rewrite Hw').
  rewrite (proj2 (Z.ltb_ge _ _)) by done. exists w', tt. split; [done|]. rewrite Hw' in Hf |- *. cbn in *. split; [done|].
  unfold recovering, index_ok. cbn. split_and!; done.
Qed.

(** ** What the spool promises *)

Lemma Append_ends w encoded w' r : Inv w -> Append torn envelope clock encoded w = (w', r) ->
  safe w (news_of w) w' /\ match r with Crashed => True | _ => Inv w' end.
Proof.
  intros HI E. pose proof (Append_triple w encoded HI w eq_refl) as Ht. rewrite E in Ht.
  assert (ended w w' -> safe w (news_of w) w' /\ Inv w') as Hend.
  { intros Hw. split; [|eapply ended_Inv; [apply HI|exact Hw]]. by destruct Hw as (? & _ & ? & ? & _). }
  destruct r as [s|e|]; [|by apply Hend|done].
  destruct Ht as (record & e & _ & _ & _ & _ & _ & _ & [Hw _]). by apply Hend.
Qed.



(** C14: An acknowledged append is readable.  When [Append] returns a sequence, [Entry] at
    that sequence returns the event that was appended, with the priority of its schema. *)
Theorem append_is_readable `{!Reads wireEntry.t} w encoded w' s record : Inv w ->
  (forall sequence priority m, Metadata.Validate m = Ok tt ->
     priority ∈ [PriorityCritical; PriorityOperational; PriorityDiagnostic] ->
     exact (wireEntry.mk entrySchema sequence priority m encoded) = true) ->
  Events.Decode encoded = Ok record -> Append torn envelope clock encoded w = (w', Done s) ->
  exists e w2, EntryAt s w' = (w2, Done (Some e)) /\ Entry.Event e = encoded /\
    Entry.Sequence e = s /\ Entry.Priority e = EventRecord.Priority record.
Proof.
  intros HI Hex Hrec E. pose proof (Append_triple w encoded HI w eq_refl) as Ht. rewrite E in Ht.
  destruct Ht as (record' & e & Hd & _ & Hs & Hev & Hpr & [_ Hnew] & _ & f & (Ht & Hp & Hsz & _ & Hwho) & [_ Hv]%view_lookup).
  rewrite Hrec in Hd. injection Hd as <-. subst s.
  assert (readFile f = Ok e) as Hread; [destruct Hwho as [Hm|]; [|done]|].
  { pose proof (newEntry_Ok _ _ _ _ Hnew) as (Hval & Hcl & E1 & _).
    unfold marshalEntry in Hm. rewrite Hev in Hm, Hnew.
    pose proof (reads_back (T := wireEntry.t) _ _ (Hex _ _ _ Hval Hcl) Hm) as Hback.
    unfold readFile. rewrite Ht, Hp, bool_decide_eq_true_2 by done. cbn. rewrite Hback. cbn.
    rewrite <- E1, Z.eqb_refl. cbn. rewrite Hnew. cbn. rewrite Hsz, Z.eqb_refl. done. }
  exists e, (set_opens (opens w' + 1) w'). split; [|done].
  unfold EntryAt, readEntry, update, get, mbind, M_bind. cbn. rewrite Hv, Hread, Z.eqb_refl. done.
Qed.

(** The spool a new process opens over the directory another left. *)
Definition reopened (maximum : Z) (d : Dir) : World :=
  mkWorld d [] 0 maximum (mkGenerator "" "" 0 0 0 []) [] None 0 0.

End steps.

(** ** A concrete spool

    Every text is 100 bytes long. *)
Module SpoolSample.
Import EventSample.

Definition nothing : text := TextSleep (Sleep.mk "" "").
Definition torn : Doc := TextNode [] [] nothing.

Definition write_entry (w : wireEntry.t) : text :=
  let m := wireEntry.Metadata w in
  TextNode [wireEntry.Schema w; wireEntry.Priority w; EventID m; NodeID m; SessionID m]
           [wireEntry.Sequence w; Metadata.Sequence m; WallClock m; MonotonicNanos m] (wireEntry.Event w).

Definition read_entry (d : text) : option wireEntry.t :=
  match d with
  | TextNode [schema; priority; event; node; session] [sequence; own; wall; nanos] inner =>
      Some (wireEntry.mk schema sequence priority (mkMetadata event node session own wall nanos) inner)
  | _ => None
  end.

#[export] Instance entry_codec : Codec wireEntry.t :=
  @Build_Codec json wireEntry.t (fun v => Some (write_entry v)) read_entry (fun _ => true).

Definition envelope (d : Doc) : option Envelope.t :=
  match read_entry d with
  | Some w => Some (Envelope.mk (wireEntry.Schema w) (wireEntry.Sequence w) (wireEntry.Priority w))
  | None => None
  end.

Definition clock (n : nat) : Z * Z := (7 + Z.of_nat n, 1 + Z.of_nat n).

#[export] Instance entry_reads : Reads wireEntry.t.
Proof. intros [schema sequence priority [] event] d _ [= <-]. reflexivity. Qed.

#[export] Instance spool_laws : SpoolLaws torn envelope.
Proof.
  split.
  - intros d. cbn. lia.
  - reflexivity.
  - intros [schema sequence priority [] event] d _ [= <-]. by exists event.
  - intros d w Hd. unfold envelope. cbn in Hd. by rewrite Hd.
Qed.

Definition generator : Generator := Eval vm_compute in
  match NewGenerator sample_node 0 5 (map Z.of_nat (seq 0 200)) with
  | Ok g => g | Err _ => mkGenerator "" "" 0 0 0 [] end.

(** A new spool of 250 bytes, which two records fit in. *)
Definition fresh (steps : list Outcome) : World :=
  mkWorld ∅ steps 0 250 generator [] None 0 0.

Abbreviation Inv := (Inv envelope).
Abbreviation append := (Append torn envelope clock).

Lemma fresh_Inv steps : Inv (fresh steps).
Proof.
  by split_and!.
Qed.

Definition diagnostic_text : text :=
  TextWire SchemaDiagnostic SchemaVersion PriorityDiagnostic
    (TextDiagnostic (Diagnostic.mk ControlNames.ComponentRuntime DiagnosticRetryScheduled 3 0)).

(** A critical record and a diagnostic one, then a second critical one that has to
    displace something; the disk carries out everything. *)
Definition first := append incident_text (fresh []).
Definition second := append diagnostic_text (fst first).
Definition third := append incident_text (fst second).

Lemma first_done : snd first = Done 1.
Proof. vm_compute. reflexivity. Qed.
Lemma second_done : snd second = Done 2.
Proof. vm_compute. reflexivity. Qed.
Lemma third_done : snd third = Done 3.
Proof. vm_compute. reflexivity. Qed.

Lemma append_Inv w event s : Inv w -> snd (append event w) = Done s -> Inv (fst (append event w)).
Proof.
  intros HI R. destruct (append event w) as [w' r] eqn:E.
  pose proof (Append_ends torn envelope clock _ _ _ _ HI E) as [_ Hr]. cbn [snd fst] in *. by subst r.
Qed.

Lemma second_Inv : Inv (fst second).
Proof. exact (append_Inv (fst first) diagnostic_text 2 (append_Inv (fresh []) incident_text 1 (fresh_Inv []) first_done) second_done). Qed.

(** The same spool on a disk with these outcomes to come. *)
Definition full (steps : list Outcome) : World := set_script steps (fst second).
Lemma script_Inv steps w : Inv w -> Inv (set_script steps w).
Proof. by destruct w. Qed.
Lemma full_Inv steps : Inv (full steps).
Proof. apply script_Inv, second_Inv. Qed.
Lemma second_bound : maxBytes (fst second) = 250.
Proof. vm_compute. reflexivity. Qed.
Lemma script_bound steps (w : World) : maxBytes (set_script steps w) = maxBytes w.
Proof. reflexivity. Qed.
Lemma full_bound steps : maxBytes (full steps) = 250.
Proof. unfold full. rewrite script_bound. exact second_bound. Qed.

(** The machine stops once the diagnostic record has been evicted and before the staged
    record is made a stored one. *)
Definition stop_between : list Outcome := [Carried; Carried; Carried; Carried; Carried; Carried; Crash].
Definition stopped := append incident_text (full stop_between).

Lemma stopped_there : snd stopped = Crashed /\
  map fst (map_to_list (view (dir (fst stopped)))) = [1] /\ is_Some (dir (fst stopped) !! pendingName 3).
Proof. vm_compute. split; [reflexivity|]. split; [reflexivity|]. eexists. reflexivity. Qed.


Lemma second_sequence : sequence (metadata (fst second)) = 2.
Proof. vm_compute. reflexivity. Qed.
Lemma third_evicts : view (dir (fst third)) !! 2 = None.
Proof. vm_compute. reflexivity. Qed.


Lemma third_run : append incident_text (fst second) = (fst third, Done 3).
Proof. rewrite <- third_done. exact (surjective_pairing third). Qed.

Lemma append_is_readable_witness : exists e w2, EntryAt 3 (fst third) = (w2, Done (Some e)) /\
  Entry.Event e = incident_text /\ Entry.Sequence e = 3 /\ Entry.Priority e = PriorityCritical.
Proof.
  apply (append_is_readable torn envelope clock (fst second) incident_text (fst third) 3
           (EventRecord.mk SchemaIncident SchemaVersion PriorityCritical incident) second_Inv).
  - reflexivity.
  - exact incident_decoded.
  - exact third_run.
Defined.


(** Recovery publishes the staged record. *)
Lemma recovered_record :
  map fst (map_to_list (view (dir (fst (recover envelope (reopened 250 (dir (fst stopped)))))))) = [3; 1].
Proof. vm_compute. reflexivity. Qed.

(** The report of a quarantined record is committed without looking at the bound: on a
    full spool it leaves more than the bound stored, and if the append goes no further
    (here its own staging is refused), the next process cannot open the spool. *)
Definition reporting := append incident_text
  (set_quarantined [9] (full [Carried; Carried; Carried; Carried; Carried; Carried; Carried; Refused])).

Lemma quarantine_report_exceeds_bound :
  snd reporting = Failed ErrDisk /\ total envelope (view (dir (fst reporting))) = 300 /\
  snd (recover envelope (reopened 250 (dir (fst reporting)))) = Failed ErrCorruptSpool.
Proof. vm_compute. done. Qed.

(** [Entries] sets a damaged record aside and keeps the listing that has it. *)
Definition damaged : World :=
  set_dir (<[stableName 2 := File.mk Regular true nothing]> (dir (fst second))) (fst second).

Lemma entries_leave_a_stale_listing :
  let w := fst (Entries damaged) in
  dir w !! stableName 2 = None /\ snd (Sequences w) = Done [1; 2] /\ snd (Size w) = Done 200.
Proof. vm_compute. done. Qed.
End SpoolSample.

(** The loop over a range that ends at the largest sequence does not end when that record
    is absent: the check for it is skipped by [continue] and the counter wraps around. *)
Lemma range_never_ends `{JSON} `{!EventCodecs} `{!Codec Fact.t} `{!Codec wireEntry.t} fuel w : dir w = ∅ ->
  snd (EntriesBySequenceRanges fuel [SequenceRange.mk max_u64 max_u64] 1 w) = Done None.
Proof.
  intros Hd.
  assert (forall n s w, 0 <= s <= max_u64 -> dir w = ∅ -> forall complete,
            exists w', read_range n s max_u64 1 [] complete w = (w', Done None)) as Hloop.
  { clear w Hd. induction n as [|n IH]; intros s w Hs Hd complete; cbn [read_range]; [eexists; reflexivity|].
    rewrite (proj2 (Z.ltb_ge _ _)) by lia. cbn [length Z.of_nat Z.eqb].
    unfold update, get, mbind, M_bind, readEntry. change (Z.of_nat 0 =? 1) with false. cbv beta iota.
    change (dir (set_opens (opens w + 1) w)) with (dir w). rewrite Hd, lookup_empty.
    apply IH; [|done]. pose proof (u64_range (s + 1)). done. }
  destruct (Hloop fuel max_u64 w ltac:(unfold max_u64; lia) Hd true) as [w' E].
  unfold EntriesBySequenceRanges. change (Nat.eqb _ 0 || (1 <? 1)) with false. cbv iota.
  cbn [read_ranges SequenceRange.First SequenceRange.Last].
  change ((max_u64 =? 0) || (max_u64 <? max_u64)) with false. cbv iota.
  unfold mbind, M_bind. rewrite E. done.
Qed.
