(* ===== verification/Handover.v ===== *)
(** * The tunnel handover

    [internal/tunnelclaim] ([claim.go]): the file that says which runtime owns the
    tunnel; [internal/tunnelhandover] ([session.go], [possession.go], [transaction.go],
    [release.go]): the transaction that moves the tunnel to this runtime and the one that
    gives it back, each with its record on disk and its undoing.

    The world holds the two files, the tunnel processes of both runtimes, the clock and
    the acts performed so far.  Before every step of a transaction the world may move:
    time passes, processes end, and the previous owner starts its tunnel when it finds
    no claim, which it checks immediately before it starts one.  A [Turn] says what
    happens before a step, and whether the step is carried out, refused, or never
    reached because the machine stopped.  What a transaction is handed (the previous
    owner's process, its own, the prover) are the interfaces of the source:
    [Incumbent.Stop] signals and may leave the process there for a while, [Tunnel.Stop]
    returns without an error only when the process is gone. *)

From Stdlib Require Import ZArith Lia Ascii String.
From stdpp Require Import base strings list option sets gmap.
From S2P Require Import Prelude GoTime PolicyCanonical Faults.

Open Scope string_scope.
Open Scope Z_scope.

Inductive handover_error :=
| ErrInvalidClaim
| ErrHeld
| ErrInvalidSession
| ErrInFlight
| ErrNoIncumbent
| ErrPossession
| ErrNoTunnel
| ErrInvalidPolicy
| ErrNoOwnTunnel
| ErrNotReleased
| ErrAnswer
| OutOfFuel.

(** ** The vocabulary *)

Definition claimSchema := "hexroute.tunnel-claim.v2".
Definition claimSchemaV1 := "hexroute.tunnel-claim.v1".
Definition HexrouteContent := "/Library/Application Support/Hexroute/observe-root/state/tunnel-config.json".
Definition PreviousOwnerConfig := "/Library/Application Support/twilight/supervisor/client/twilight-sing-box-tun.json".
Definition HolderHexroute := "hexroute".

Definition sessionSchema := "hexroute.tunnel-handover.v1".

Definition PhasePrepared := "prepared".
Definition PhaseClaimed := "claimed".
Definition PhaseStarted := "started".
Definition PhaseProven := "proven".
Definition PhaseAborted := "aborted".
Definition PhaseStopping := "stopping".
Definition PhaseReleased := "released".
Definition PhaseRestored := "restored".

Definition KindHandover := "handover".
Definition KindRelease := "release".

Definition validPhase (phase : string) : bool :=
  contains_string [PhasePrepared; PhaseClaimed; PhaseStarted; PhaseProven; PhaseAborted;
                   PhaseStopping; PhaseReleased; PhaseRestored] phase.

Module Claim.
Record t := mk {
  Schema : string;
  Holder : string;
  Transaction : string;
  ClaimedAt : string;
  ProcessConfig : string
}.
End Claim.

Module Session.
Record t := mk {
  Schema : string;
  Transaction : string;
  Phase : string;
  StartedAt : string;
  Rehearsal : bool;
  StartedPID : Z;
  Kind : string
}.
Definition set_Phase (phase : string) (s : t) : t :=
  mk (Schema s) (Transaction s) phase (StartedAt s) (Rehearsal s) (StartedPID s) (Kind s).
Definition set_StartedPID (pid : Z) (s : t) : t :=
  mk (Schema s) (Transaction s) (Phase s) (StartedAt s) (Rehearsal s) pid (Kind s).
End Session.

Definition Session_Release (session : Session.t) : bool := String.eqb (Session.Kind session) KindRelease.

Module HandoverPolicy.
Record t := mk { Proofs : Z; Deadline : Z; Between : Z; Possession : Z }.
End HandoverPolicy.

Definition policy_invalid (policy : HandoverPolicy.t) : bool :=
  (HandoverPolicy.Proofs policy <? 1) || (HandoverPolicy.Deadline policy <=? 0) ||
  (HandoverPolicy.Possession policy <=? 0) || (HandoverPolicy.Between policy <=? 0).

Module HandoverOutcome.
Record t := mk {
  Transaction : string;
  Kind : string;
  Rehearsal : bool;
  Completed : bool;
  Phase : string;
  Proofs : Z;
  Reason : string
}.
Definition set_Phase (phase : string) (o : t) : t :=
  mk (Transaction o) (Kind o) (Rehearsal o) (Completed o) phase (Proofs o) (Reason o).
Definition set_Completed (b : bool) (o : t) : t :=
  mk (Transaction o) (Kind o) (Rehearsal o) b (Phase o) (Proofs o) (Reason o).
Definition set_Proofs (n : Z) (o : t) : t :=
  mk (Transaction o) (Kind o) (Rehearsal o) (Completed o) (Phase o) n (Reason o).
Definition set_Reason (reason : string) (o : t) : t :=
  mk (Transaction o) (Kind o) (Rehearsal o) (Completed o) (Phase o) (Proofs o) reason.
End HandoverOutcome.

(** The transaction's fields.  An interface that may be nil is whether it is there;
    [processConfig] is what [WithProcessConfig] gave the claim store. *)
Module Transaction.
Record t := mk {
  Relinquish : bool;
  Incumbent : bool;
  Own : bool;
  Tunnel : bool;
  Policy : HandoverPolicy.t;
  processConfig : string
}.
End Transaction.

(** ** The world *)

Inductive Event :=
| Raised (pid : Z)
| Fell
| OwnFell (pid : Z).

(** [answer] is what a reading or a stop finds (traffic passed, the process is gone),
    [fresh] the identifier of a process that is started. *)
Record Turn := mkTurn {
  events : list Event;
  elapsed : nat;
  outcome : Outcome;
  answer : bool;
  fresh : positive
}.

Inductive Act :=
| Placed (transaction : string)
| Released
| Started (pid : Z)
| Stopped (pid : Z) (gone : bool)
| Probed (traversed : bool).

Section handover.
Context `{JSON} `{!Codec Claim.t} `{!Codec Session.t}.
Context (read_claim : Doc -> option Claim.t) (read_session : Doc -> option Session.t).
Context (describe : handover_error -> string).

(** [own] are the processes that run this runtime's configuration, [incumbent] the one
    that runs the previous owner's. *)
Record World := mkWorld {
  claim : option Doc;
  session : option Doc;
  own : gset Z;
  incumbent : option Z;
  time : Z;
  acts : list Act;
  turns : list Turn
}.

Abbreviation Prog := (M World handover_error).

Definition set_claim (c : option Doc) (w : World) : World :=
  mkWorld c (session w) (own w) (incumbent w) (time w) (acts w) (turns w).
Definition set_session (s : option Doc) (w : World) : World :=
  mkWorld (claim w) s (own w) (incumbent w) (time w) (acts w) (turns w).
Definition set_own (p : gset Z) (w : World) : World :=
  mkWorld (claim w) (session w) p (incumbent w) (time w) (acts w) (turns w).
Definition set_incumbent (p : option Z) (w : World) : World :=
  mkWorld (claim w) (session w) (own w) p (time w) (acts w) (turns w).
Definition pass (ns : Z) (w : World) : World :=
  mkWorld (claim w) (session w) (own w) (incumbent w) (time w + ns) (acts w) (turns w).
Definition note (a : Act) (w : World) : World :=
  mkWorld (claim w) (session w) (own w) (incumbent w) (time w) (acts w ++ [a])%list (turns w).
Definition set_turns (l : list Turn) (w : World) : World :=
  mkWorld (claim w) (session w) (own w) (incumbent w) (time w) (acts w) l.

(** What the other processes do.  The previous owner starts nothing beside a file at
    the claim's path, readable or not. *)
Definition occur (w : World) (e : Event) : World :=
  match e with
  | Raised pid =>
      match claim w, incumbent w with None, None => set_incumbent (Some pid) w | _, _ => w end
  | Fell => set_incumbent None w
  | OwnFell pid => set_own (own w ∖ {[pid]}) w
  end.

Definition turn : Prog Turn := fun w =>
  match turns w with
  | [] => (w, Done (mkTurn [] 0 Carried true 1))
  | t :: rest =>
      let w' := pass (Z.of_nat (elapsed t)) (foldl occur (set_turns rest w) (events t)) in
      match outcome t with Crash => (w', Crashed) | _ => (w', Done t) end
  end.

(** A step with an error of its own when it is refused. *)
Definition call {A} (e : handover_error) (k : Turn -> Prog A) : Prog A :=
  t ← turn; match outcome t with Refused => fail e | _ => k t end.

Definition now : Prog Z := _ ← turn; w ← get; mret (time w).

(** The [select] of a loop: [true] when the context ended first. *)
Definition wait (between : Z) : Prog bool :=
  t ← turn;
  match outcome t with
  | Refused => mret true
  | _ => _ ← update (pass between); mret false
  end.

Definition Incumbent_Running : Prog (option Z) := call ErrAnswer (fun _ => w ← get; mret (incumbent w)).
Definition Own_Running : Prog (option Z) := call ErrAnswer (fun _ => w ← get; mret (head (elements (own w)))).

Definition Incumbent_Stop (pid : Z) : Prog unit :=
  call ErrAnswer (fun t =>
    update (fun w => if negb (answer t) || negb (bool_decide (incumbent w = Some pid)) then w
                     else set_incumbent None w)).

Definition Own_Stop (pid : Z) : Prog unit :=
  call ErrAnswer (fun t =>
    update (fun w => if answer t then note (Stopped pid true) (set_own (own w ∖ {[pid]}) w)
                     else note (Stopped pid false) w)).

Definition Tunnel_Stop (pid : Z) : Prog unit :=
  on_error (update (note (Stopped pid false)))
    (call ErrAnswer (fun _ => update (fun w => note (Stopped pid true) (set_own (own w ∖ {[pid]}) w)))).

Definition Tunnel_Start : Prog Z :=
  call ErrAnswer (fun t =>
    let pid := Z.pos (fresh t) in
    _ ← update (fun w => note (Started pid) (set_own ({[pid]} ∪ own w) w)); mret pid).

Definition Traversed : Prog bool :=
  call ErrAnswer (fun t =>
    _ ← update (note (Probed (answer t))); mret (answer t)).

(** [time.Time.UTC().Format(time.RFC3339)]: no fraction. *)
Definition stamp (t : Z) : string := Format (t - t mod second_ns).

(** A file written under a staged name and renamed into place. *)
Definition replace_file (e : handover_error) (place : World -> World) : Prog unit :=
  _ ← call e (fun _ => mret tt);
  _ ← call e (fun _ => mret tt);
  on_error (_ ← turn; mret tt) (call e (fun _ => update place)).

(** ** The claim *)

Definition held_of (file : option Doc) : result handover_error (option Claim.t) :=
  match file with
  | None => Ok None
  | Some encoded =>
      match read_claim encoded with
      | None => Err ErrInvalidClaim
      | Some c =>
          if negb (String.eqb (Claim.Holder c) HolderHexroute) || String.eqb (Claim.Transaction c) "" ||
             String.eqb (Claim.ClaimedAt c) ""
          then Err ErrInvalidClaim
          else if String.eqb (Claim.Schema c) claimSchemaV1 then
            if negb (String.eqb (Claim.ProcessConfig c) "") then Err ErrInvalidClaim
            else Ok (Some (Claim.mk (Claim.Schema c) (Claim.Holder c) (Claim.Transaction c) (Claim.ClaimedAt c) HexrouteContent))
          else if String.eqb (Claim.Schema c) claimSchema then
            if negb (has_prefix "/" (Claim.ProcessConfig c)) then Err ErrInvalidClaim else Ok (Some c)
          else Err ErrInvalidClaim
      end
  end.

Definition Held : Prog (option Claim.t) := call ErrInvalidClaim (fun _ => w ← get; lift (held_of (claim w))).

Definition OwnerConfig : Prog string :=
  held ← Held; mret (match held with None => PreviousOwnerConfig | Some c => Claim.ProcessConfig c end).

Definition Place (processConfig transaction : string) : Prog unit :=
  if String.eqb transaction "" then fail ErrInvalidClaim
  else if negb (has_prefix "/" processConfig) then fail ErrInvalidClaim
  else
    held ← Held;
    match held with
    | Some _ => fail ErrHeld
    | None =>
        t ← now;
        encoded ← lift (of_option ErrInvalidClaim
          (json_Marshal (Claim.mk claimSchema HolderHexroute transaction (stamp t) processConfig)));
        replace_file ErrInvalidClaim (fun w => note (Placed transaction) (set_claim (Some encoded) w))
    end.

Definition Claim_Release : Prog unit :=
  call ErrInvalidClaim (fun _ => update (fun w => note Released (set_claim None w))).

(** ** The session *)

Definition session_of (file : option Doc) : result handover_error (option Session.t) :=
  match file with
  | None => Ok None
  | Some encoded =>
      match read_session encoded with
      | None => Err ErrInvalidSession
      | Some s =>
          if negb (String.eqb (Session.Schema s) sessionSchema) || String.eqb (Session.Transaction s) "" ||
             negb (validPhase (Session.Phase s)) || String.eqb (Session.StartedAt s) ""
          then Err ErrInvalidSession
          else if contains_string [""; KindHandover; KindRelease] (Session.Kind s) then Ok (Some s)
          else Err ErrInvalidSession
      end
  end.

Definition Store_Read : Prog (option Session.t) :=
  call ErrInvalidSession (fun _ => w ← get; lift (session_of (session w))).

Definition Store_write (s : Session.t) : Prog unit :=
  encoded ← lift (of_option ErrInvalidSession (json_Marshal s));
  replace_file ErrInvalidSession (set_session (Some encoded)).

Definition Store_begin (transaction : string) (rehearsal : bool) (kind : string) : Prog Session.t :=
  if String.eqb transaction "" then fail ErrInvalidSession
  else
    existing ← Store_Read;
    if match existing with
       | Some s => negb (String.eqb (Session.Phase s) PhaseProven) && negb (String.eqb (Session.Phase s) PhaseAborted)
       | None => false
       end
    then fail ErrInFlight
    else
      t ← now;
      let s := Session.mk sessionSchema transaction PhasePrepared (stamp t) rehearsal 0 kind in
      _ ← Store_write s; mret s.

Definition Begin (transaction : string) (rehearsal : bool) : Prog Session.t := Store_begin transaction rehearsal KindHandover.
Definition BeginRelease (transaction : string) : Prog Session.t := Store_begin transaction false KindRelease.

Definition Advance (s : Session.t) (phase : string) : Prog Session.t :=
  if negb (validPhase phase) then fail ErrInvalidSession
  else let s' := Session.set_Phase phase s in _ ← Store_write s'; mret s'.

Definition Clear : Prog unit := call ErrInvalidSession (fun _ => update (set_session None)).

(** ** The transaction *)

Context (T : Transaction.t).
Abbreviation policy := (Transaction.Policy T).
Abbreviation Result := (HandoverOutcome.t * option handover_error)%type.

Definition error_of {A} (r : result handover_error A) : option handover_error :=
  match r with Ok _ => None | Err e => Some e end.

Definition loop_fuel (bound : Z) : nat := Z.to_nat (bound / HandoverPolicy.Between policy) + 2.

(** The wait of [possess] and [stopOwn]: readings until nothing runs. *)
Fixpoint await_gone (running : Prog (option Z)) (e : handover_error) (fuel : nat) (deadline : Z) : Prog unit :=
  match fuel with
  | O => fail OutOfFuel
  | S fuel =>
      r ← attempt running;
      match r with
      | Err _ => fail e
      | Ok None => mret tt
      | Ok (Some _) =>
          t ← now;
          if negb (Before t deadline) then fail e
          else
            interrupted ← wait (HandoverPolicy.Between policy);
            if interrupted : bool then fail e else await_gone running e fuel deadline
      end
  end.

Definition stop_and_await (running : Prog (option Z)) (stop : Z -> Prog unit) (e : handover_error) : Prog unit :=
  r ← attempt running;
  match r with
  | Err _ => fail e
  | Ok None => mret tt
  | Ok (Some pid) =>
      s ← attempt (stop pid);
      match s with
      | Err _ => fail e
      | Ok _ =>
          t ← now;
          await_gone running e (loop_fuel (HandoverPolicy.Possession policy)) (t + HandoverPolicy.Possession policy)
      end
  end.

Definition possess : Prog unit := stop_and_await Incumbent_Running Incumbent_Stop ErrPossession.
Definition stopOwn : Prog unit := stop_and_await Own_Running Own_Stop ErrAnswer.

Fixpoint prove_loop (fuel : nat) (deadline consecutive : Z) : Prog (Z * string) :=
  match fuel with
  | O => fail OutOfFuel
  | S fuel =>
      t ← now;
      if negb (Before t deadline) then mret (consecutive, "")
      else
        r ← attempt Traversed;
        match r with
        | Err e => mret (consecutive, "the proof could not be taken: " ++ describe e)
        | Ok traversed =>
            let consecutive := if traversed : bool then consecutive + 1 else 0 in
            if traversed && (HandoverPolicy.Proofs policy <=? consecutive) then mret (consecutive, "")
            else
              interrupted ← wait (HandoverPolicy.Between policy);
              if interrupted : bool then mret (consecutive, "the transaction was interrupted")
              else prove_loop fuel deadline consecutive
        end
  end.

Definition prove : Prog (Z * string) :=
  t ← now;
  prove_loop (loop_fuel (HandoverPolicy.Deadline policy)) (t + HandoverPolicy.Deadline policy) 0.

Definition finish (o : HandoverOutcome.t) : Prog Result := r ← attempt Clear; mret (o, error_of r).

Definition abort (o : HandoverOutcome.t) (s : Session.t) (pid : Z) (reason : string) : Prog Result :=
  stopped ← (if (0 <? pid) && Transaction.Tunnel T then attempt (Tunnel_Stop pid) else mret (Ok tt));
  let o := HandoverOutcome.set_Reason
             (match stopped with
              | Ok _ => reason
              | Err e => reason ++ "; and what was started could not be stopped: " ++ describe e
              end) o in
  released ← attempt Claim_Release;
  match released with
  | Err e => mret (o, Some e)
  | Ok _ =>
      advanced ← attempt (Advance s PhaseAborted);
      match advanced with
      | Err e => mret (o, Some e)
      | Ok _ => finish (HandoverOutcome.set_Phase PhaseAborted o)
      end
  end.

Definition zero_outcome : HandoverOutcome.t := HandoverOutcome.mk "" "" false false "" 0 "".

(** The rehearsal: no claim, no process. *)
Definition rehearse (o : HandoverOutcome.t) (s : Session.t) : Prog Result :=
  '(proofs, reason) ← prove;
  let completed := HandoverPolicy.Proofs policy <=? proofs in
  let reason := if negb completed && String.eqb reason "" then "the payload did not traverse" else reason in
  let o := HandoverOutcome.set_Completed completed
             (HandoverOutcome.set_Reason reason (HandoverOutcome.set_Proofs proofs o)) in
  let phase := if completed then PhaseProven else PhaseAborted in
  advanced ← attempt (Advance s phase);
  match advanced with
  | Err e => mret (o, Some e)
  | Ok _ => finish (HandoverOutcome.set_Phase phase o)
  end.

(** From the started phase on. *)
Definition prove_started (o : HandoverOutcome.t) (s : Session.t) : Prog Result :=
  started ← attempt Tunnel_Start;
  match started with
  | Err e => abort o s 0 ("the tunnel did not start: " ++ describe e)
  | Ok pid =>
      let s := Session.set_StartedPID pid s in
      '(proofs, reason) ← prove;
      let o := HandoverOutcome.set_Proofs proofs o in
      if proofs <? HandoverPolicy.Proofs policy then
        abort o s pid (if String.eqb reason "" then "the payload did not traverse twice inside the deadline" else reason)
      else
        advanced ← attempt (Advance s PhaseProven);
        match advanced with
        | Err e => mret (o, Some e)
        | Ok _ => finish (HandoverOutcome.set_Completed true (HandoverOutcome.set_Phase PhaseProven o))
        end
  end.

Definition take (o : HandoverOutcome.t) (s : Session.t) (id : string) : Prog Result :=
  advanced ← attempt (Advance s PhaseClaimed);
  match advanced with
  | Err e => mret (o, Some e)
  | Ok s =>
      let o := HandoverOutcome.set_Phase PhaseClaimed o in
      placed ← attempt (Place (Transaction.processConfig T) id);
      match placed with
      | Err e => abort o s 0 ("the claim was refused: " ++ describe e)
      | Ok _ =>
          possessed ← attempt possess;
          match possessed with
          | Err e => abort o s 0 (describe e)
          | Ok _ =>
              advanced ← attempt (Advance s PhaseStarted);
              match advanced with
              | Err e => mret (o, Some e)
              | Ok s => prove_started (HandoverOutcome.set_Phase PhaseStarted o) s
              end
          end
      end
  end.

Definition Run (id : string) (rehearsal : bool) : Prog Result :=
  if policy_invalid policy then mret (zero_outcome, Some ErrInvalidPolicy)
  else if negb rehearsal && negb (Transaction.Tunnel T) then mret (zero_outcome, Some ErrNoTunnel)
  else if negb rehearsal && negb (Transaction.Incumbent T) then mret (zero_outcome, Some ErrNoIncumbent)
  else
    begun ← attempt (Begin id rehearsal);
    match begun with
    | Err e => mret (zero_outcome, Some e)
    | Ok s =>
        let o := HandoverOutcome.mk id "" rehearsal false PhasePrepared 0 "" in
        if rehearsal then rehearse o s else take o s id
    end.

(** [if _, running, err := Own.Running(ctx); err != nil || !running { Start }]: the error
    of a start that was needed. *)
Definition ensure_own : Prog (option handover_error) :=
  r ← attempt Own_Running;
  match r with
  | Ok (Some _) => mret None
  | _ => started ← attempt Tunnel_Start; mret (error_of started)
  end.

Definition keep (o : HandoverOutcome.t) (s : Session.t) (reason : string) : Prog Result :=
  let o := HandoverOutcome.set_Reason reason o in
  failed ← ensure_own;
  match failed with
  | Some _ => mret (o, Some ErrNotReleased)
  | None =>
      advanced ← attempt (Advance s PhaseAborted);
      match advanced with
      | Err e => mret (o, Some e)
      | Ok _ => finish (HandoverOutcome.set_Phase PhaseAborted o)
      end
  end.

(** Under a claim: whatever the previous owner raised late, then this runtime's own. *)
Definition retake (o : HandoverOutcome.t) : Prog Result :=
  possessed ← attempt possess;
  match possessed with
  | Err _ => mret (o, Some ErrNotReleased)
  | Ok _ =>
      failed ← ensure_own;
      match failed with
      | Some _ => mret (o, Some ErrNotReleased)
      | None => finish o
      end
  end.

Definition restore (o : HandoverOutcome.t) (s : Session.t) (reason : string) : Prog Result :=
  let o := HandoverOutcome.set_Reason reason o in
  advanced ← attempt (Advance s PhaseRestored);
  match advanced with
  | Err e => mret (o, Some e)
  | Ok _ =>
      let o := HandoverOutcome.set_Phase PhaseRestored o in
      placed ← attempt (Place (Transaction.processConfig T) (Session.Transaction s));
      match placed with
      | Ok _ | Err ErrHeld => retake o
      | Err _ => mret (o, Some ErrNotReleased)
      end
  end.

(** From the released phase on. *)
Definition prove_released (o : HandoverOutcome.t) (s : Session.t) : Prog Result :=
  released ← attempt Claim_Release;
  match released with
  | Err e => restore o s ("the claim could not be released: " ++ describe e)
  | Ok _ =>
      '(proofs, reason) ← prove;
      let o := HandoverOutcome.set_Proofs proofs o in
      if proofs <? HandoverPolicy.Proofs policy then
        let reason := if String.eqb reason "" then "the previous owner's tunnel did not carry traffic twice inside the deadline"
                      else reason in
        if Transaction.Relinquish T then finish (HandoverOutcome.set_Reason reason o) else restore o s reason
      else
        advanced ← attempt (Advance s PhaseProven);
        match advanced with
        | Err e => mret (o, Some e)
        | Ok _ => finish (HandoverOutcome.set_Completed true (HandoverOutcome.set_Phase PhaseProven o))
        end
  end.

Definition give_back (o : HandoverOutcome.t) (s : Session.t) : Prog Result :=
  advanced ← attempt (Advance s PhaseStopping);
  match advanced with
  | Err e => mret (o, Some e)
  | Ok s =>
      let o := HandoverOutcome.set_Phase PhaseStopping o in
      stopped ← attempt stopOwn;
      match stopped with
      | Err e => keep o s ("this runtime's tunnel did not stop: " ++ describe e)
      | Ok _ =>
          advanced ← attempt (Advance s PhaseReleased);
          match advanced with
          | Err e => mret (o, Some e)
          | Ok s => prove_released (HandoverOutcome.set_Phase PhaseReleased o) s
          end
      end
  end.

Definition Release (id : string) : Prog Result :=
  if policy_invalid policy then mret (zero_outcome, Some ErrInvalidPolicy)
  else if negb (Transaction.Own T) then mret (zero_outcome, Some ErrNoOwnTunnel)
  else if negb (Transaction.Tunnel T) then mret (zero_outcome, Some ErrNoTunnel)
  else if negb (Transaction.Incumbent T) then mret (zero_outcome, Some ErrNoIncumbent)
  else
    begun ← attempt (BeginRelease id);
    match begun with
    | Err e => mret (zero_outcome, Some e)
    | Ok s => give_back (HandoverOutcome.mk id KindRelease false false PhasePrepared 0 "") s
    end.

Definition abortRelease (o : HandoverOutcome.t) (s : Session.t) : Prog Result :=
  if negb (Transaction.Own T && Transaction.Tunnel T && Transaction.Incumbent T) then mret (o, Some ErrNoOwnTunnel)
  else
    let reason := "release abandoned at " ++ Session.Phase s in
    if String.eqb (Session.Phase s) PhasePrepared then finish (HandoverOutcome.set_Reason reason o)
    else if String.eqb (Session.Phase s) PhaseStopping then keep o s reason
    else restore o s reason.

Definition Abort : Prog Result :=
  found ← attempt Store_Read;
  match found with
  | Err e => mret (zero_outcome, Some e)
  | Ok None => mret (HandoverOutcome.set_Reason "no handover was in flight" zero_outcome, None)
  | Ok (Some s) =>
      let o := HandoverOutcome.mk (Session.Transaction s) (Session.Kind s) (Session.Rehearsal s) false (Session.Phase s) 0 "" in
      if Session_Release s then abortRelease o s
      else abort o s (Session.StartedPID s) ("abandoned at " ++ Session.Phase s)
  end.
End handover.
