(* ===== verification/HandoverSafety.v ===== *)
(** * Safety of the tunnel handover

    What holds of [Handover] whatever the other processes do and wherever a transaction
    is refused or interrupted: no two tunnels, completion only on proof, every loop ends,
    and what an abandoned transaction leaves is on record. *)

From Stdlib Require Import ZArith Lia Ascii String.
From stdpp Require Import base strings list option sets gmap.
From S2P Require Import Prelude GoTime PolicyCanonical Faults Handover.

Open Scope string_scope.
Open Scope Z_scope.

(** ** What the other processes can change *)

Section moves.
Context `{JSON}.

Record moves (w w' : World) : Prop := {
  moves_claim : claim w' = claim w;
  moves_session : session w' = session w;
  moves_acts : acts w' = acts w;
  moves_time : time w <= time w';
  moves_own : own w' ⊆ own w;
  moves_incumbent : incumbent w' = None \/ incumbent w' = incumbent w \/ claim w = None
}.

Lemma moves_refl w : moves w w.
Proof. split; auto; lia. Qed.

Lemma moves_trans w1 w2 w3 : moves w1 w2 -> moves w2 w3 -> moves w1 w3.
Proof.
  intros [A1 A2 A3 A4 A5 A6] [B1 B2 B3 B4 B5 B6]. split; [congruence..|lia|set_solver|].
  rewrite A1 in B6. destruct B6 as [|[->|]]; auto.
Qed.

Lemma occur_moves w e : moves w (occur w e).
Proof.
  destruct e as [pid| |pid]; cbn; [|split; cbn; auto; lia|split; cbn; auto; [lia|set_solver]].
  destruct (claim w) as [d|] eqn:Hc; [apply moves_refl|]. destruct (incumbent w); [apply moves_refl|].
  split; cbn; auto; lia.
Qed.

Lemma occurs_moves l w : moves w (foldl occur w l).
Proof.
  revert w. induction l as [|e l IH]; intros w; [apply moves_refl|].
  exact (moves_trans _ _ _ (occur_moves w e) (IH (occur w e))).
Qed.

Lemma turn_moves w : moves w (fst (turn w)).
Proof.
  unfold turn. destruct (turns w) as [|t rest]; [apply moves_refl|].
  assert (moves w (pass (Z.of_nat (elapsed t)) (foldl occur (set_turns rest w) (events t)))) as Hm; [|by destruct (outcome t)].
  destruct (occurs_moves (events t) (set_turns rest w)) as [A1 A2 A3 A4 A5 A6]. split; cbn in *; auto; lia.
Qed.

(** An assertion that the other processes leave true. *)
Definition stable (P : World -> Prop) : Prop := forall w w', moves w w' -> P w -> P w'.

Lemma triple_turn P F : stable P -> triple P turn (fun _ => P) F P.
Proof.
  intros HP w Hw. pose proof (HP _ _ (turn_moves w) Hw) as Hw'. unfold turn in *.
  destruct (turns w) as [|t rest]; [done|]. by destruct (outcome t).
Qed.

Lemma triple_call {A} P e (k : Turn -> M World handover_error A) Q (F C : World -> Prop) : stable P ->
  (forall w, P w -> F w) -> (forall w, P w -> C w) -> (forall t, triple P (k t) Q F C) -> triple P (call e k) Q F C.
Proof.
  intros HP HF HC Hk. unfold call. eapply triple_bind.
  - eapply triple_conseq; [by apply (triple_turn P F)|done|intros t w Hw; exact Hw|done|done].
  - intros t. destruct (outcome t); [apply Hk|by apply triple_fail|apply Hk].
Qed.

Lemma triple_now P F : stable P -> triple P now (fun t w => P w /\ t = time w) F P.
Proof.
  intros HP. unfold now. eapply triple_bind; [by apply triple_turn|]. intros t.
  apply triple_get. intros w0. apply triple_ret. by intros w [-> Hw].
Qed.

(** An assertion that says nothing of the clock. *)
Definition timeless (P : World -> Prop) : Prop := forall ns w, P w -> P (pass ns w).

Lemma triple_wait P F between : stable P -> timeless P -> triple P (wait between) (fun _ => P) F P.
Proof.
  intros HP Ht. unfold wait. eapply triple_bind; [by apply triple_turn|]. intros t.
  assert (triple (E := handover_error) P (_ ← update (pass between); mret false) (fun _ : bool => P) F P) as Hu.
  { eapply triple_bind; [apply (triple_update _ _ (fun _ => P)); apply Ht|]. intros []. by apply triple_ret. }
  destruct (outcome t); [done|by apply triple_ret|done].
Qed.
End moves.

(** ** The steps of a transaction *)

(** An assertion that says nothing of the acts, or of the session's file. *)
Definition actless `{JSON} (P : World -> Prop) : Prop := forall a w, P w -> P (note a w).
Definition sessionless `{JSON} (P : World -> Prop) : Prop := forall s w, P w -> P (set_session s w).

Section steps.
Context `{JSON} `{!Codec Claim.t} `{!Codec Session.t}.
Context (read_claim : Doc -> option Claim.t) (read_session : Doc -> option Session.t).
Context (describe : handover_error -> string) (T : Transaction.t).
Context (P C : World -> Prop) (HP : stable P) (HC : forall w, P w -> C w).

Lemma turn_triple F : triple P turn (fun _ => P) F C.
Proof. eapply triple_conseq; [apply (triple_turn P F), HP|auto..]. Qed.

Lemma call_triple {A} e (k : Turn -> M World handover_error A) Q :
  (forall t, triple P (k t) Q P C) -> triple P (call e k) Q P C.
Proof. intros Hk. apply triple_call; [apply HP|auto..]. Qed.

Lemma call_update e (f : Turn -> World -> World) (Q : World -> Prop) :
  (forall t w, P w -> Q (f t w)) -> triple P (call e (fun t => update (f t))) (fun _ => Q) P C.
Proof. intros Hf. apply call_triple. intros t. apply triple_update, Hf. Qed.

Lemma now_triple F : triple P now (fun _ => P) F C.
Proof. eapply triple_conseq; [apply (triple_now P F), HP|auto..]. by intros t w [? _]. Qed.

Lemma wait_triple between F : timeless P -> triple P (wait between) (fun _ => P) F C.
Proof. intros Ht. eapply triple_conseq; [by apply (triple_wait P F)|auto..]. Qed.

Lemma Incumbent_Running_triple : triple P Incumbent_Running (fun r w => P w /\ r = incumbent w) P C.
Proof. apply call_triple. intros t. apply triple_get. intros w0. apply triple_ret. by intros w [-> Hw]. Qed.

Lemma Own_Running_triple : triple P Own_Running (fun r w => P w /\ r = head (elements (own w))) P C.
Proof. apply call_triple. intros t. apply triple_get. intros w0. apply triple_ret. by intros w [-> Hw]. Qed.

Lemma Traversed_triple : actless P -> triple P Traversed (fun _ => P) P C.
Proof.
  intros Hn. apply call_triple. intros t.
  eapply (triple_bind _ _ (fun _ => P)); [apply triple_update; intros w; apply Hn|]. intros []. by apply triple_ret.
Qed.

Lemma replace_file_triple e place (Q : World -> Prop) : (forall w, P w -> Q (place w)) ->
  triple P (replace_file e place) (fun _ => Q) P C.
Proof.
  intros Hq. unfold replace_file.
  do 2 (eapply (triple_bind _ _ (fun _ => P)); [apply call_triple; intros t; by apply triple_ret|intros []]).
  eapply triple_on_error; [by apply call_update|].
  eapply (triple_bind _ _ (fun _ => P)); [apply turn_triple|]. intros t. by apply triple_ret.
Qed.

Lemma Store_Read_triple :
  triple P (Store_Read read_session) (fun r w => P w /\ session_of read_session (session w) = Ok r) P C.
Proof.
  apply call_triple. intros t. apply triple_get. intros w0.
  apply triple_lift; [by intros w a [-> Hw] E|by intros w [_ Hw]].
Qed.

Lemma Store_write_triple s (Q : World -> Prop) :
  (forall d w, P w -> json_Marshal s = Some d -> Q (set_session (Some d) w)) ->
  triple P (Store_write s) (fun _ => Q) P C.
Proof.
  intros Hq. unfold Store_write. destruct (json_Marshal s) as [d|] eqn:E.
  - eapply (triple_bind _ _ (fun d' w => d' = d /\ P w)); [apply triple_lift; [|done]; intros w a Hw [= <-]; done|].
    intros d'. apply triple_pure. intros ->. apply replace_file_triple. auto.
  - eapply (triple_bind _ _ (fun _ _ => False)); [apply triple_lift; [done|auto]|]. intros d w [].
Qed.

Lemma Store_begin_triple id rehearsal kind (Q : Session.t -> World -> Prop) :
  (forall t d w, P w -> let s := Session.mk sessionSchema id PhasePrepared (stamp t) rehearsal 0 kind in
     id <> "" -> json_Marshal s = Some d -> Q s (set_session (Some d) w)) ->
  triple P (Store_begin read_session id rehearsal kind) Q P C.
Proof.
  intros Hq. unfold Store_begin. destruct (String.eqb id "") eqn:Hid; [by apply triple_fail|]. bool_prop.
  eapply (triple_bind _ _ (fun _ => P)).
  { eapply triple_conseq; [apply Store_Read_triple|done|by intros r w [Hw _]|done|done]. }
  intros existing. destruct (match existing with Some _ => _ | None => _ end); [by apply triple_fail|].
  eapply (triple_bind _ _ (fun _ => P)); [apply now_triple|]. intros t. cbv zeta.
  eapply triple_bind; [apply Store_write_triple; intros d w Hw E; exact (Hq t d w Hw Hid E)|].
  intros []. by apply triple_ret.
Qed.

Lemma Advance_triple s phase (Q : World -> Prop) :
  (forall d w, P w -> validPhase phase = true -> json_Marshal (Session.set_Phase phase s) = Some d -> Q (set_session (Some d) w)) ->
  triple P (Advance s phase) (fun s' w => s' = Session.set_Phase phase s /\ Q w) P C.
Proof.
  intros Hq. unfold Advance. destruct (validPhase phase) eqn:Hv; [|by apply triple_fail].
  eapply (triple_bind _ _ (fun _ => Q)); [apply Store_write_triple; auto|]. intros []. by apply triple_ret.
Qed.

Lemma Advance_inert s phase : sessionless P -> triple P (Advance s phase) (fun _ => P) P C.
Proof.
  intros Hs. eapply triple_conseq; [apply (Advance_triple s phase P); intros d w Hw _ _; by apply Hs|done| |done|done].
  by intros s' w [_ Hw].
Qed.

Lemma finish_triple o (Q : World -> Prop) F : (forall w, P w -> Q (set_session None w)) ->
  triple P (finish o) (fun r w => fst r = o /\ (snd r = None /\ Q w \/ is_Some (snd r) /\ P w)) F C.
Proof.
  intros Hq. unfold finish. eapply triple_bind; [apply triple_attempt, (call_update _ _ Q); auto|].
  intros r. apply triple_ret. intros w Hw. split; [done|]. destruct r as [[]|e]; cbn; [by left|]. right. eauto.
Qed.

Lemma finish_inert o F : sessionless P -> triple P (finish o) (fun _ => P) F C.
Proof.
  intros Hs. eapply triple_conseq; [apply (finish_triple o P F); intros w; apply Hs|done| |done|done].
  by intros r w [_ [[_ ?]|[_ ?]]].
Qed.

(** The end of a transaction: its last phase is recorded, and the record removed. *)
Lemma advance_and_finish s phase o o' (R F : World -> Prop) : sessionless P -> (forall w, P w -> R w) ->
  triple P (advanced ← attempt (Advance s phase);
            match advanced with Err e => mret (o, Some e) | Ok _ => finish o' end) (fun _ => R) F C.
Proof.
  intros Hs Hr. eapply triple_bind; [by apply triple_attempt_same, Advance_inert|].
  intros [s'|e]; [|by apply triple_ret].
  eapply triple_conseq; [by apply (finish_inert o' F)|done|auto|done|done].
Qed.

Lemma Place_triple cfg id (Q : World -> Prop) :
  (forall t d w, P w -> json_Marshal (Claim.mk claimSchema HolderHexroute id (stamp t) cfg) = Some d ->
     has_prefix "/" cfg = true -> id <> "" -> Q (note (Placed id) (set_claim (Some d) w))) ->
  triple P (Place read_claim cfg id) (fun _ => Q) P C.
Proof.
  intros Hq. unfold Place. destruct (String.eqb id "") eqn:Hid; [by apply triple_fail|]. bool_prop.
  destruct (has_prefix "/" cfg) eqn:Hcfg; cbn [negb]; [|by apply triple_fail]. eapply (triple_bind _ _ (fun _ => P)).
  { apply call_triple. intros t. apply triple_get. intros w0. apply triple_lift; [by intros w a [_ Hw]|by intros w [_ Hw]]. }
  intros [c|]; [by apply triple_fail|]. eapply (triple_bind _ _ (fun _ => P)); [apply now_triple|]. intros t.
  destruct (json_Marshal _) as [d|] eqn:E.
  - eapply (triple_bind _ _ (fun d' w => d' = d /\ P w)); [apply triple_lift; [|done]; intros w a Hw [= <-]; done|].
    intros d'. apply triple_pure. intros ->. apply replace_file_triple. intros w Hw. by apply (Hq t d w).
  - eapply (triple_bind _ _ (fun _ _ => False)); [apply triple_lift; [done|auto]|]. intros d w [].
Qed.

Lemma Claim_Release_triple (Q : World -> Prop) : (forall w, P w -> Q (note Released (set_claim None w))) ->
  triple P Claim_Release (fun _ => Q) P C.
Proof. intros Hq. apply call_update. intros t. apply Hq. Qed.

(** A reading that finds nothing running establishes [Q]. *)
Lemma await_gone_triple running e fuel deadline (Q : World -> Prop) : timeless P ->
  triple P running (fun r w => P w /\ (r = None -> Q w)) P C -> triple P (await_gone T running e fuel deadline) (fun _ => Q) P C.
Proof.
  intros Ht Hr. induction fuel as [|fuel IH]; cbn [await_gone]; [by apply triple_fail|].
  eapply triple_bind; [by apply triple_attempt|]. intros [[pid|]|e'].
  - apply (triple_conseq _ P _ _ (fun _ => Q) _ P _ C); [|by intros w [? _]|done..].
    eapply (triple_bind _ _ (fun _ => P)); [apply now_triple|]. intros t.
    destruct (negb _); [by apply triple_fail|]. eapply (triple_bind _ _ (fun _ => P)); [by apply wait_triple|].
    intros []; [by apply triple_fail|done].
  - apply triple_ret. intros w [_ Hq]. by apply Hq.
  - by apply triple_fail.
Qed.

Lemma stop_and_await_triple running stop e (Q : World -> Prop) : timeless P ->
  triple P running (fun r w => P w /\ (r = None -> Q w)) P C -> (forall pid, triple P (stop pid) (fun _ => P) P C) ->
  triple P (stop_and_await T running stop e) (fun _ => Q) P C.
Proof.
  intros Ht Hr Hs. unfold stop_and_await. eapply triple_bind; [by apply triple_attempt|]. intros [[pid|]|e'].
  - apply (triple_conseq _ P _ _ (fun _ => Q) _ P _ C); [|by intros w [? _]|done..].
    eapply triple_bind; [apply triple_attempt, Hs|]. intros [[]|e']; [|by apply triple_fail].
    eapply (triple_bind _ _ (fun _ => P)); [apply now_triple|]. intros t. by apply await_gone_triple.
  - apply triple_ret. intros w [_ Hq]. by apply Hq.
  - by apply triple_fail.
Qed.

Lemma prove_triple : timeless P -> actless P -> triple P (prove describe T) (fun _ => P) P C.
Proof.
  intros Ht Hn. unfold prove. eapply (triple_bind _ _ (fun _ => P)); [apply now_triple|]. intros t0.
  generalize (t0 + HandoverPolicy.Deadline (Transaction.Policy T)). intros deadline. clear t0. generalize 0 at 1.
  induction (loop_fuel T _) as [|fuel IH]; intros consecutive; cbn [prove_loop]; [by apply triple_fail|].
  eapply (triple_bind _ _ (fun _ => P)); [apply now_triple|]. intros t.
  destruct (negb _); [by apply triple_ret|]. eapply triple_bind; [by apply triple_attempt, Traversed_triple|].
  intros [traversed|e]; [|by apply triple_ret]. cbv zeta.
  destruct (_ && _); [by apply triple_ret|]. eapply (triple_bind _ _ (fun _ => P)); [by apply wait_triple|].
  intros []; [by apply triple_ret|apply IH].
Qed.
End steps.

(** ** One tunnel *)

Section safety.
Context `{JSON} `{!Codec Claim.t} `{!Codec Session.t}.
Context (read_claim : Doc -> option Claim.t) (read_session : Doc -> option Session.t).
Context (describe : handover_error -> string) (T : Transaction.t).

(** At most one runtime's tunnel runs, and this runtime's only under a claim. *)
Definition one_tunnel (w : World) : Prop :=
  (own w = ∅ \/ incumbent w = None) /\ (own w = ∅ \/ is_Some (claim w)).

(** What else a step may know: what the session's file says, a claim is on disk, the
    previous owner runs nothing, this runtime runs nothing but [p]. *)
Context (N : option Doc -> Prop).

Definition known (c i : bool) (p : gset Z) (w : World) : Prop :=
  (one_tunnel w /\ N (session w)) /\ (c = true -> is_Some (claim w)) /\
  (i = true -> c = true /\ incumbent w = None) /\ own w ⊆ p.

Lemma known_safe c i p w : known c i p w -> one_tunnel w.
Proof. by intros [[? _] _]. Qed.

Lemma known_less c i p c' i' p' w : known c i p w -> (c' = true -> c = true) -> (i' = true -> i = true /\ c' = true) ->
  p ⊆ p' -> known c' i' p' w.
Proof.
  intros (Hs & Hc & Hi & Ho) H1 H2 H3. split; [done|]. split_and!; [auto| |by etrans].
  intros E. destruct (H2 E) as [Ei Ec]. split; [done|]. by apply Hi.
Qed.

Lemma known_stable c i p : stable (known c i p).
Proof.
  intros w w' [A1 A2 _ _ A5 A6] (((Hs & Hcl) & HN) & Hc & Hk & Hp).
  assert (own w = ∅ -> own w' = ∅) as Hless by (intros E; rewrite E in A5; set_solver).
  assert (is_Some (claim w) -> incumbent w = None -> incumbent w' = None) as Hinc.
  { intros [d Hd] Hi. rewrite Hd, Hi in A6. by destruct A6 as [?|[?|?]]. }
  unfold known, one_tunnel. rewrite A1, A2. split_and!; [|tauto|done|done| |by etrans].
  - destruct Hcl as [Ho|Hcl]; [by left; apply Hless|]. destruct Hs as [Ho|Hi]; [by left; apply Hless|]. auto.
  - intros E. destruct (Hk E) as [Ec Hi]. split; [done|]. auto.
Qed.

Lemma known_timeless c i p : timeless (known c i p).
Proof. by intros ? w Hw. Qed.
Lemma known_actless c i p : actless (known c i p).
Proof. by intros ? w Hw. Qed.

Lemma known_claimed c i p d w : known c i p w -> known true i p (set_claim d w) \/ d = None.
Proof.
  intros (((Hs & _) & HN) & _ & Hi & Hp). destruct d as [d|]; [left|by right]. unfold known, one_tunnel. cbn.
  split_and!; [done|by right; eexists|done|by intros _; eexists|intros E; by destruct (Hi E)|done].
Qed.

Lemma known_released c i w : known c i ∅ w -> known false false ∅ (set_claim None w).
Proof.
  intros ((_ & HN) & _ & _ & Hp). assert (own w = ∅) as Ho by set_solver. unfold known, one_tunnel. cbn.
  split_and!; [by left|by left|done|done|done|set_solver].
Qed.

Lemma own_stopped c i p pid w : known c i p w -> known c i (p ∖ {[pid]}) (set_own (own w ∖ {[pid]}) w).
Proof.
  intros (((Hs & Hcl) & HN) & Hc & Hi & Hp). unfold known, one_tunnel. cbn.
  assert (own w = ∅ -> own w ∖ {[pid]} = ∅) as He by (clear; set_solver).
  split_and!; [tauto|tauto|done|done|done|clear -Hp; set_solver].
Qed.

Lemma own_started p pid w : known true true p w -> known true true ({[pid]} ∪ p) (set_own ({[pid]} ∪ own w) w).
Proof.
  intros ((_ & HN) & Hc & Hi & Hp). destruct (Hi eq_refl) as [_ Hinc]. unfold known, one_tunnel. cbn.
  split_and!; auto. clear -Hp. set_solver.
Qed.

Context (C : World -> Prop).
#[local] Hint Resolve known_stable : core.

(** Taking the tunnel from the previous owner, under a claim. *)
Lemma possess_known p : (forall w, known true false p w -> C w) ->
  triple (known true false p) (possess T) (fun _ => known true true p) (known true false p) C.
Proof.
  intros HC. apply stop_and_await_triple; [eauto..|apply known_timeless| |].
  - eapply triple_conseq; [apply (Incumbent_Running_triple _ C); eauto|done| |done|done].
    cbn. intros r w [Hw ->]. split; [done|]. intros Hi. destruct Hw as (Hs & Hc & _ & Hp). split; [done|]. by split_and!; auto.
  - intros pid. apply call_update; [eauto..|]. intros t w Hw. destruct (_ || _); [done|].
    destruct Hw as (((_ & Hcl) & HN) & Hc & _ & Hp). unfold known, one_tunnel. cbn. split_and!; auto; done.
Qed.

Lemma stopOwn_known c i p : (forall w, known c i p w -> C w) ->
  triple (known c i p) (stopOwn T) (fun _ => known c i ∅) (known c i p) C.
Proof.
  intros HC. apply stop_and_await_triple; [eauto..|apply known_timeless| |].
  - eapply triple_conseq; [apply (Own_Running_triple _ C); eauto|done| |done|done].
    cbn. intros r w [Hw ->]. split; [done|]. intros Ho.
    assert (own w = ∅) as He.
    { destruct (elements (own w)) eqn:E; [|done]. apply elements_empty_inv in E. by apply leibniz_equiv. }
    destruct Hw as (Hs & Hc & Hi & _). split; [done|]. split_and!; [done|done|]. by rewrite He.
  - intros pid. apply call_update; [eauto..|]. intros t w Hw. destruct (answer t); [|done].
    apply known_actless. apply (known_less _ _ _ _ _ _ _ (own_stopped c i p pid w Hw)); [done| |set_solver].
    intros ->. split; [done|]. by apply Hw.
Qed.

Lemma Tunnel_Start_known p : (forall w, known true true p w -> C w) ->
  triple (known true true p) Tunnel_Start (fun pid w => 0 < pid /\ known true true ({[pid]} ∪ p) w) (known true true p) C.
Proof.
  intros HC. apply call_triple; [eauto..|]. intros t. cbv zeta.
  eapply (triple_bind _ _ (fun _ => known true true ({[Z.pos (fresh t)]} ∪ p))); [apply triple_update; intros w Hw; by apply known_actless, own_started|].
  intros []. by apply triple_ret.
Qed.
End safety.

(** ** Taking the tunnel *)

Section taking.
Context `{JSON} `{!Codec Claim.t} `{!Codec Session.t}.
Context (read_claim : Doc -> option Claim.t) (read_session : Doc -> option Session.t).
Context (describe : handover_error -> string) (T : Transaction.t).

(** A process that was told to stop and did not. *)
Definition unstoppable (w : World) : Prop := exists pid, Stopped pid false ∈ acts w.

Definition taken_safely (w : World) : Prop := one_tunnel w \/ unstoppable w.

Abbreviation kept := (known (fun _ => True)).

Lemma known_sessionless c i p : sessionless (kept c i p).
Proof. by intros ? w Hw. Qed.

(** This runtime runs nothing, or could not be stopped. *)
Definition cleared (w : World) : Prop := kept false false ∅ w \/ unstoppable w.

Lemma unstoppable_stable : stable unstoppable.
Proof. intros w w' Hm [pid Hp]. exists pid. by rewrite (moves_acts _ _ Hm). Qed.

Lemma cleared_stable : stable cleared.
Proof. intros w w' Hm [Hw|Hw]; [left; by eapply known_stable|right; by eapply unstoppable_stable]. Qed.

Lemma cleared_safely w : cleared w -> taken_safely w.
Proof. intros [Hw%known_safe|Hw]; [by left|by right]. Qed.

Lemma cleared_sessionless : sessionless cleared.
Proof. intros s w [Hw|Hw]; [by left|by right]. Qed.

Lemma known_cleared c i w : kept c i ∅ w -> cleared w.
Proof. intros Hw. left. by eapply known_less. Qed.

Lemma one_tunnel_safely w : one_tunnel w -> taken_safely w.
Proof. by left. Qed.
#[local] Hint Resolve known_stable cleared_stable cleared_safely cleared_sessionless one_tunnel_safely : core.

Lemma known_safely c i p w : kept c i p w -> taken_safely w.
Proof. intros Hw. left. by eapply known_safe. Qed.
#[local] Hint Resolve known_safely : core.

Lemma Tunnel_Stop_safe c i p pid : p ⊆ {[pid]} ->
  triple (kept c i p) (Tunnel_Stop pid) (fun _ => kept c i ∅) unstoppable taken_safely.
Proof.
  intros Hp. unfold Tunnel_Stop. eapply triple_on_error; [apply (call_update (kept c i p)); [eauto..|]|].
  - intros t w Hw. apply known_actless. apply (known_less _ _ _ _ _ _ _ _ (own_stopped _ c i p pid w Hw)); [done| |set_solver].
    intros ->. split; [done|]. by apply Hw.
  - apply triple_update. intros w _. exists pid. cbn. apply elem_of_app. right. by apply list_elem_of_singleton.
Qed.

(** Undoing a handover is safe when what it started stops. *)
Lemma abort_safe c i p o s pid reason : Transaction.Tunnel T = true -> p ⊆ {[pid]} -> (pid <= 0 -> p = ∅) ->
  triple (kept c i p) (abort describe T o s pid reason) (fun _ => taken_safely) taken_safely taken_safely.
Proof.
  intros HT Hp H0. unfold abort. rewrite HT. eapply (triple_bind _ _ (fun _ => cleared)).
  { destruct (0 <? pid) eqn:Hpos; cbn [andb].
    - eapply triple_conseq; [apply triple_attempt, (Tunnel_Stop_safe c i p pid Hp)|done| |done|done].
      intros [[]|e] w Hw; [by eapply known_cleared|by right].
    - bool_prop. rewrite (H0 Hpos). apply triple_ret. apply known_cleared. }
  intros stopped. cbv zeta. eapply (triple_bind _ _ (fun _ => cleared)).
  { apply triple_attempt_same, Claim_Release_triple; [eauto..|]. intros w [Hw|[pid' Hw]]; [left; by eapply known_actless, known_released|].
    right. exists pid'. cbn. apply elem_of_app. by left. }
  intros [[]|e]; [|apply triple_ret; eauto].
  apply advance_and_finish; eauto.
Qed.

Lemma prove_started_safe o s : Transaction.Tunnel T = true ->
  triple (kept true true ∅) (prove_started describe T o s) (fun _ => taken_safely) taken_safely taken_safely.
Proof.
  intros HT. unfold prove_started.
  eapply triple_bind; [apply triple_attempt, (Tunnel_Start_known (fun _ => True) taken_safely ∅); eauto|].
  intros [pid|e]; [|apply abort_safe; [done|set_solver|done]].
  apply triple_pure. intros Hpid. cbv zeta.
  eapply (triple_bind _ _ (fun _ => kept true true ({[pid]} ∪ ∅))).
  { eapply triple_conseq; [apply (prove_triple describe T (kept true true ({[pid]} ∪ ∅)) taken_safely)|done|done|eauto|done];
      [eauto..|apply known_timeless|apply known_actless]. }
  intros [proofs reason]. destruct (_ <? _); [apply abort_safe; [done|set_solver|lia]|].
  apply advance_and_finish; [eauto..|apply known_sessionless|eauto].
Qed.

Lemma take_safe o s id : Transaction.Tunnel T = true ->
  triple (kept false false ∅) (take read_claim describe T o s id) (fun _ => taken_safely) taken_safely taken_safely.
Proof.
  intros HT. unfold take.
  eapply triple_bind; [apply triple_attempt_same, Advance_inert; [eauto..|apply known_sessionless]|].
  intros [s1|e]; [|apply triple_ret; eauto]. cbv zeta.
  eapply triple_bind; [apply (triple_attempt _ _ (fun _ => kept true false ∅) (kept false false ∅)), Place_triple; [eauto..|]|].
  { intros t d w Hw _ _ _. apply known_actless. by destruct (known_claimed _ _ _ _ (Some d) _ Hw). }
  intros [[]|e]; [|apply abort_safe; [done|set_solver|done]].
  eapply triple_bind; [apply triple_attempt, (possess_known T (fun _ => True) taken_safely ∅); eauto|].
  intros [[]|e]; [|apply abort_safe; [done|set_solver|done]].
  eapply triple_bind; [apply triple_attempt_same, Advance_inert; [eauto..|apply known_sessionless]|].
  intros [s2|e]; [|apply triple_ret; eauto]. by apply prove_started_safe.
Qed.

Lemma rehearse_safe o s : triple (kept false false ∅) (rehearse describe T o s) (fun _ => taken_safely) taken_safely taken_safely.
Proof.
  unfold rehearse. eapply (triple_bind _ _ (fun _ => kept false false ∅)).
  { eapply triple_conseq; [apply (prove_triple describe T (kept false false ∅) taken_safely)|done|done|eauto|done];
      [eauto..|apply known_timeless|apply known_actless]. }
  intros [proofs reason]. apply advance_and_finish; [eauto..|apply known_sessionless|eauto].
Qed.

Lemma Run_safe id rehearsal :
  triple (kept false false ∅) (Run read_claim read_session describe T id rehearsal) (fun _ => taken_safely) taken_safely taken_safely.
Proof.
  unfold Run. destruct (policy_invalid _); [apply triple_ret; eauto|].
  destruct (negb rehearsal && negb (Transaction.Tunnel T)) eqn:HT; [apply triple_ret; eauto|].
  destruct (negb rehearsal && negb (Transaction.Incumbent T)); [apply triple_ret; eauto|].
  eapply triple_bind; [apply triple_attempt_same, (Store_begin_triple _ _ taken_safely); [eauto..|]|].
  { intros t d w Hw s _ _. by apply known_sessionless. }
  intros [s|e]; [|apply triple_ret; eauto]. cbv zeta. destruct rehearsal; [apply rehearse_safe|].
  apply take_safe. by destruct (Transaction.Tunnel T).
Qed.
End taking.

(** ** Giving the tunnel back *)

(** What is documented of [encoding/json] for a session: the reader reads back what the
    writer wrote, of a session whose strings are valid UTF-8, as those it read are. *)
Class SessionLaws `{JSON} `{!Codec Session.t} (read_session : Doc -> option Session.t) := {
  session_reads : forall s d, exact s = true -> json_Marshal s = Some d -> read_session d = Some s;
  session_writes : forall s, exact s = true -> is_Some (json_Marshal s);
  session_exact : forall d s, read_session d = Some s -> exact s = true;
  exact_phase : forall s phase, exact s = true -> validPhase phase = true -> exact (Session.set_Phase phase s) = true;
  exact_pid : forall s pid, exact s = true -> exact (Session.set_StartedPID (Z.pos pid) s) = true
}.

Section giving.
Context `{JSON} `{!Codec Claim.t} `{!Codec Session.t}.
Context (read_claim : Doc -> option Claim.t) (read_session : Doc -> option Session.t).
Context `{!SessionLaws read_session}.
Context (describe : handover_error -> string) (T : Transaction.t).

Lemma session_of_Some file s : session_of read_session file = Ok (Some s) -> exact s = true /\ validPhase (Session.Phase s) = true.
Proof.
  unfold session_of. destruct file as [d|]; [|done]. destruct (read_session d) as [s'|] eqn:E; [|done].
  destruct (negb (String.eqb (Session.Schema s') sessionSchema) || _ || negb (validPhase (Session.Phase s')) || _) eqn:Hg; [done|].
  destruct (contains_string _ _); [|done]. intros [= <-]. split; [by eapply session_exact|].
  bool_prop. by destruct (validPhase _).
Qed.

Lemma session_of_written s d s' : exact s = true -> json_Marshal s = Some d ->
  session_of read_session (Some d) = Ok (Some s') -> s' = s.
Proof.
  intros Hx Hd. unfold session_of. rewrite (session_reads s d Hx Hd). repeat case_match; try done. by intros [= <-].
Qed.

(** The record is not that of a release that is still stopping its tunnel. *)
Definition past (file : option Doc) : Prop :=
  forall s, session_of read_session file = Ok (Some s) -> Session_Release s = true -> Session.Phase s <> PhaseStopping.

(** One tunnel, and the record of a release that is stopping its tunnel means what undoing
    it relies on: the claim is still there, and the previous owner runs nothing. *)
Definition on_record (w : World) : Prop :=
  one_tunnel w /\
  forall s, session_of read_session (session w) = Ok (Some s) -> Session_Release s = true ->
    Session.Phase s = PhaseStopping -> is_Some (claim w) /\ incumbent w = None.

Abbreviation held := (known (fun _ => True) true true).
Abbreviation gone := (known past).

Lemma held_on_record p w : held p w -> on_record w.
Proof. intros ((Hs & _) & Hc & Hi & _). split; [done|]. intros s _ _ _. split; [by apply Hc|by apply Hi]. Qed.

Lemma gone_on_record c i p w : gone c i p w -> on_record w.
Proof. intros ((Hs & Hn) & _). split; [done|]. intros s Hr Hk Hp. by destruct (Hn s Hr Hk). Qed.
#[local] Hint Resolve held_on_record gone_on_record known_stable : core.

Lemma past_written s phase d : exact s = true -> validPhase phase = true -> phase <> PhaseStopping ->
  json_Marshal (Session.set_Phase phase s) = Some d -> past (Some d).
Proof.
  intros Hx Hv Hne Hd s' Hs' _. rewrite (session_of_written _ _ _ (exact_phase s phase Hx Hv) Hd Hs'). done.
Qed.

(** Recording a phase after the stopping one. *)
Lemma Advance_past N c i p s phase : exact s = true -> phase <> PhaseStopping ->
  (forall w, known N c i p w -> on_record w) ->
  triple (known N c i p) (Advance s phase) (fun s' w => s' = Session.set_Phase phase s /\ gone c i p w) (known N c i p) on_record.
Proof.
  intros Hx Hne HC. apply Advance_triple; [eauto..|]. intros d w (([H1 H2] & _) & Hc & Hi & Hp) Hv Hd.
  split; [|done]. split; [done|]. by eapply past_written.
Qed.

Lemma finish_past N c i p o F : (forall w, known N c i p w -> on_record w) ->
  triple (known N c i p) (finish o) (fun _ => on_record) F on_record.
Proof.
  intros HC. eapply triple_conseq; [apply (finish_triple (known N c i p) on_record (known_stable N c i p) HC o (gone c i p) F)|done| |done|done].
  - intros w (([H1 H2] & _) & Hc & Hi & Hp). split; [|done]. split; [done|]. by intros s [=].
  - intros r w [_ [[_ Hw]|[_ Hw]]]; eauto.
Qed.

Lemma advance_past_and_finish N c i p s phase o o' : exact s = true -> phase <> PhaseStopping ->
  (forall w, known N c i p w -> on_record w) ->
  triple (known N c i p) (advanced ← attempt (Advance s phase);
            match advanced with Err e => mret (o, Some e) | Ok _ => finish o' end) (fun _ => on_record) on_record on_record.
Proof.
  intros Hx Hne HC. eapply triple_bind; [apply triple_attempt; by apply Advance_past|].
  intros [s'|e]; [|by apply triple_ret]. apply triple_pure. intros _. apply finish_past. eauto.
Qed.

(** This runtime's tunnel, where it may run. *)
Lemma ensure_own_known N p F : (forall p w, known N true true p w -> on_record w) ->
  triple (known N true true p) ensure_own (fun _ w => exists p', known N true true p' w) F on_record.
Proof.
  intros HC. assert (triple (known N true true p) (started ← attempt Tunnel_Start; mret (error_of started))
    (fun _ w => exists p', known N true true p' w) F on_record) as Hstart.
  { eapply triple_bind.
    - apply triple_attempt, (Tunnel_Start_known N on_record p); eauto.
    - intros [pid|e]; apply triple_ret; [intros w [_ Hw]|intros w Hw]; eauto. }
  unfold ensure_own. eapply triple_bind; [apply triple_attempt, Own_Running_triple; eauto|].
  intros [[pid|]|e]; [apply triple_ret; intros w [Hw _]; eauto| |done].
  eapply triple_conseq; [exact Hstart|by intros w [Hw _]|done..].
Qed.

Lemma keep_safe p o s reason : exact s = true ->
  triple (held p) (keep o s reason) (fun _ => on_record) on_record on_record.
Proof.
  intros Hx. unfold keep. cbv zeta. eapply triple_bind; [apply ensure_own_known; eauto|].
  intros [e|]; apply triple_exists; intros p'; [apply triple_ret; eauto|].
  apply advance_past_and_finish; eauto.
Qed.

(** The only errors of a step. *)
Definition fails_with {A} (e0 : handover_error) (m : M World handover_error A) : Prop :=
  forall w w' e, m w = (w', Failed e) -> e = e0.

Lemma fails_bind {A B} e0 (m : M World handover_error A) (k : A -> M World handover_error B) :
  fails_with e0 m -> (forall a, fails_with e0 (k a)) -> fails_with e0 (m ≫= k).
Proof.
  intros Hm Hk w w' e. unfold mbind, M_bind. destruct (m w) as [w1 [a|e1|]] eqn:E; [apply Hk| |done].
  intros [= <- <-]. by eapply Hm.
Qed.

Lemma fails_turn e0 : fails_with e0 turn.
Proof. intros w w' e. unfold turn. destruct (turns w) as [|t rest]; [done|]. by destruct (outcome t). Qed.

Lemma fails_now e0 : fails_with e0 now.
Proof. apply fails_bind; [apply fails_turn|]. by intros t w w' e. Qed.

Lemma fails_call {A} e0 (k : Turn -> M World handover_error A) : (forall t, fails_with e0 (k t)) -> fails_with e0 (call e0 k).
Proof.
  intros Hk. unfold call. apply fails_bind; [apply fails_turn|].
  intros t. destruct (outcome t); [apply Hk| |apply Hk]. by intros w w' e [= _ <-].
Qed.

Lemma fails_never {A} e0 (m : M World handover_error A) : (forall w w' e, m w <> (w', Failed e)) -> fails_with e0 m.
Proof. intros Hm w w' e E. by destruct (Hm w w' e). Qed.

Lemma fails_replace e0 place : fails_with e0 (replace_file e0 place).
Proof.
  unfold replace_file. do 2 (apply fails_bind; [apply fails_call; intros t; by apply fails_never|intros []]).
  intros w w' e. unfold on_error. destruct (call e0 _ w) as [w1 [a|e1|]] eqn:E; [done| |done].
  assert (e1 = e0) as -> by (revert E; apply fails_call; intros t; by apply fails_never).
  repeat case_match; try done; by intros [= _ <-].
Qed.

(** A claim that is already there is the state [restore] wants. *)
Lemma Place_held cfg id w w' : Place read_claim cfg id w = (w', Failed ErrHeld) -> is_Some (claim w').
Proof.
  unfold Place. destruct (String.eqb id ""); [done|]. destruct (negb _); [done|].
  unfold mbind at 1, M_bind at 1. destruct (Held read_claim w) as [w1 [[c|]|e|]] eqn:E.
  - intros [= <-]. revert E. unfold Held, call, mbind, M_bind. destruct (turn w) as [w2 [t|e|]]; [|done..].
    cbn. assert (lift (held_of read_claim (claim w2)) w2 = (w1, Done (Some c)) -> is_Some (claim w1)) as Hl.
    { unfold lift. destruct (held_of read_claim (claim w2)) eqn:Eh; [|done]. intros [= <- ->].
      unfold held_of in Eh. destruct (claim w2); [by eexists|done]. }
    destruct (outcome t); [exact Hl|done|exact Hl].
  - intros E'. assert (ErrHeld = ErrInvalidClaim) as [=]. revert E'.
    apply (fails_bind ErrInvalidClaim).
    + apply fails_now.
    + intros t. apply fails_bind; [|intros d; apply fails_replace].
      intros v v' e. unfold lift, of_option. destruct (json_Marshal _); [done|]. by intros [= _ <-].
  - intros [= _ ->]. assert (ErrHeld = ErrInvalidClaim) as [=]. revert E. apply fails_call. intros t.
    apply fails_bind; [by intros ? ? ?|]. intros v v1 v2 e'. unfold lift, held_of.
    repeat case_match; intros; by simplify_eq.
  - done.
Qed.

Lemma Place_gone cfg id p F : triple (gone false false p) (attempt (Place read_claim cfg id))
  (fun r w => match r with Ok _ | Err ErrHeld => gone true false p w | Err _ => gone false false p w end) F on_record.
Proof.
  intros w Hw. pose proof (Place_triple read_claim (gone false false p) on_record (known_stable _ _ _ _)
    (gone_on_record _ _ _) cfg id (gone true false p)) as Ht.
  assert (triple (gone false false p) (Place read_claim cfg id) (fun _ => gone true false p) (gone false false p) on_record) as Ht'.
  { apply Ht. intros t d v Hv _ _ _. apply known_actless. by destruct (known_claimed _ _ _ _ (Some d) _ Hv). }
  specialize (Ht' w Hw). unfold attempt. pose proof (Place_held cfg id w) as Hh.
  destruct (Place read_claim cfg id w) as [w' [[]|e|]]; [done| |done].
  destruct e; try done. destruct Ht' as (Hs & _ & _ & Hp).
  pose proof (Hh w' eq_refl) as Hcl. split; [done|]. by split_and!.
Qed.

Lemma retake_safe p o : triple (gone true false p) (retake T o) (fun _ => on_record) on_record on_record.
Proof.
  unfold retake. eapply triple_bind; [apply triple_attempt, (possess_known T past on_record p); eauto|].
  intros [[]|e]; [|apply triple_ret; eauto]. eapply triple_bind; [apply ensure_own_known; eauto|].
  intros [e|]; apply triple_exists; intros p'; [apply triple_ret; eauto|]. apply finish_past. eauto.
Qed.

Lemma restore_safe p o s reason : exact s = true ->
  triple (gone false false p) (restore read_claim T o s reason) (fun _ => on_record) on_record on_record.
Proof.
  intros Hx. unfold restore. cbv zeta. eapply triple_bind; [apply triple_attempt, Advance_past; eauto; done|].
  intros [s1|e]; [|apply triple_ret; eauto]. apply triple_pure. intros _.
  eapply triple_bind; [apply Place_gone|]. intros [[]|[]]; try (apply triple_ret; eauto); apply retake_safe.
Qed.

Lemma prove_released_safe o s : exact s = true ->
  triple (gone true true ∅) (prove_released read_claim describe T o s) (fun _ => on_record) on_record on_record.
Proof.
  intros Hx. unfold prove_released.
  eapply triple_bind; [apply (triple_attempt _ _ (fun _ => gone false false ∅) (gone true true ∅)), Claim_Release_triple; [eauto..|]|].
  { intros w Hw. by eapply known_actless, known_released. }
  intros [[]|e].
  2: { eapply triple_conseq; [apply (restore_safe ∅); done|intros w Hw; by eapply known_less|done..]. }
  eapply (triple_bind _ _ (fun _ => gone false false ∅)).
  { eapply triple_conseq; [apply (prove_triple describe T (gone false false ∅) on_record)|done|done|eauto|done];
      [eauto..|apply known_timeless|apply known_actless]. }
  intros [proofs reason]. cbv zeta. destruct (_ <? _).
  - destruct (Transaction.Relinquish T); [apply finish_past; eauto|by apply restore_safe].
  - apply advance_past_and_finish; eauto; done.
Qed.

Lemma give_back_safe p o s : exact s = true ->
  triple (held p) (give_back read_claim describe T o s) (fun _ => on_record) on_record on_record.
Proof.
  intros Hx. unfold give_back.
  eapply triple_bind; [apply triple_attempt, (Advance_triple (held p) on_record (known_stable _ _ _ _) (held_on_record p) s PhaseStopping (held p))|].
  { by intros d w Hw _ _. }
  intros [s1|e]; [|apply triple_ret; eauto]. apply triple_pure. intros ->. cbv zeta.
  assert (exact (Session.set_Phase PhaseStopping s) = true) as Hx1 by by apply exact_phase.
  eapply triple_bind; [apply triple_attempt, (stopOwn_known T _ on_record true true p); eauto|].
  intros [[]|e]; [|by apply (keep_safe p)].
  eapply triple_bind; [apply triple_attempt, Advance_past; [done|done|eauto]|].
  intros [s2|e]; [|apply triple_ret; eauto]. apply triple_pure. intros ->.
  apply prove_released_safe. by apply exact_phase.
Qed.

Lemma Release_safe p id : (forall t, exact (Session.mk sessionSchema id PhasePrepared (stamp t) false 0 KindRelease) = true) ->
  triple (held p) (Release read_claim read_session describe T id) (fun _ => on_record) on_record on_record.
Proof.
  intros Hx. unfold Release. destruct (policy_invalid _); [apply triple_ret; eauto|].
  destruct (negb (Transaction.Own T)); [apply triple_ret; eauto|].
  destruct (negb (Transaction.Tunnel T)); [apply triple_ret; eauto|].
  destruct (negb (Transaction.Incumbent T)); [apply triple_ret; eauto|].
  eapply triple_bind.
  { apply (triple_attempt _ _ (fun s w => exact s = true /\ held p w) (held p)), (Store_begin_triple _ _ on_record); [eauto..|].
    intros t d w Hw s _ _. split; [apply Hx|done]. }
  intros [s|e]; [|apply triple_ret; eauto]. apply triple_pure. intros Hs. by apply (give_back_safe p).
Qed.

Lemma one_tunnel_stable : stable one_tunnel.
Proof.
  intros w w' Hm Hw. apply (known_safe (fun _ => True) false false (own w)).
  eapply known_stable; [exact Hm|]. split; [done|]. by split_and!.
Qed.

Lemma on_record_stable : stable on_record.
Proof.
  intros w w' Hm [Hw Hr]. split; [by eapply one_tunnel_stable|]. destruct Hm as [A1 A2 _ _ _ A6].
  rewrite A1, A2. intros s Hs Hk Hp. destruct (Hr s Hs Hk Hp) as [[d Hd] Hi]. rewrite Hd, Hi in A6.
  split; [by eexists|]. by destruct A6 as [?|[?|?]].
Qed.

Lemma abortRelease_safe o s : Session_Release s = true ->
  triple (fun w => on_record w /\ session_of read_session (session w) = Ok (Some s)) (abortRelease read_claim T o s)
    (fun _ => on_record) on_record on_record.
Proof.
  intros Hk w [Hw Hs]. destruct (session_of_Some _ _ Hs) as [Hx _]. unfold abortRelease.
  destruct (negb _); [done|]. cbv zeta.
  assert (Session.Phase s <> PhaseStopping -> gone false false (own w) w) as Hgone.
  { intros Hne. split; [split; [apply Hw|]|by split_and!]. intros s' Hs'. rewrite Hs in Hs'. by injection Hs' as <-. }
  destruct (String.eqb (Session.Phase s) PhasePrepared) eqn:E1; bool_prop.
  { apply (finish_past past false false (own w) _ on_record); [eauto|]. apply Hgone. by rewrite E1. }
  destruct (String.eqb (Session.Phase s) PhaseStopping) eqn:E2; bool_prop.
  - apply (keep_safe (own w)); [done|]. destruct (proj2 Hw s Hs Hk E2) as [Hc Hi].
    split; [split; [apply Hw|done]|]. by split_and!.
  - apply (restore_safe (own w)); [done|]. by apply Hgone.
Qed.

Lemma Abort_release_safe s :
  Session_Release s = true ->
  triple (fun w => on_record w /\ session_of read_session (session w) = Ok (Some s)) (Abort read_claim read_session describe T)
    (fun _ => on_record) on_record on_record.
Proof.
  intros Hk. set (P := fun w => on_record w /\ session_of read_session (session w) = Ok (Some s)).
  assert (stable P) as HP.
  { intros w w' Hm [Hw Hs]. split; [by eapply on_record_stable|]. by rewrite (moves_session _ _ Hm). }
  unfold Abort. eapply triple_bind; [apply triple_attempt, (Store_Read_triple read_session P on_record HP); by intros w []|].
  intros [[s'|]|e].
  - intros w [[Hw Hs] Hs']. rewrite Hs in Hs'. injection Hs' as <-. rewrite Hk. by apply (abortRelease_safe _ s Hk).
  - intros w [[Hw Hs] Hs']. by rewrite Hs in Hs'.
  - apply triple_ret. by intros w [Hw _].
Qed.
End giving.

(** ** What an abandoned handover leaves *)

Lemma stamp_nonempty t : stamp t <> "".
Proof.
  unfold stamp, Format, format_chars. intros E. apply (f_equal (fun s => length (chars s))) in E.
  rewrite chars_of_chars in E. destruct (civil_of_days _) as [[y m] d]. rewrite length_app in E. cbn in E. lia.
Qed.

Section record.
Context `{JSON} `{!Codec Claim.t} `{!Codec Session.t}.
Context (read_claim : Doc -> option Claim.t) (read_session : Doc -> option Session.t).
Context `{!SessionLaws read_session}.
Context (describe : handover_error -> string) (T : Transaction.t) (id : string).

(** The session of the handover [id], past its first phase, is on disk. *)
Definition recorded (w : World) : Prop :=
  exists s, session_of read_session (session w) = Ok (Some s) /\ Session.Transaction s = id /\
    Session_Release s = false /\ Session.Phase s <> PhasePrepared.

Definition claim_recorded (w : World) : Prop := is_Some (claim w) -> recorded w.
Definition unclaimed (w : World) : Prop := claim w = None.

Definition handover_session (s : Session.t) : Prop :=
  Session.Schema s = sessionSchema /\ Session.Transaction s = id /\ id <> "" /\ Session.StartedAt s <> "" /\
  Session.Kind s = KindHandover /\ exact s = true.

Lemma recorded_claim w : recorded w -> claim_recorded w.
Proof. by intros Hw _. Qed.
Lemma unclaimed_claim w : unclaimed w -> claim_recorded w.
Proof. intros Hw [d Hd]. congruence. Qed.
Lemma recorded_stable : stable recorded.
Proof. intros w w' Hm (s & Hs & Hr). exists s. by rewrite (moves_session _ _ Hm). Qed.
Lemma unclaimed_stable : stable unclaimed.
Proof. intros w w' Hm Hw. unfold unclaimed. by rewrite (moves_claim _ _ Hm). Qed.
Lemma unclaimed_sessionless : sessionless unclaimed.
Proof. by intros s w Hw. Qed.
#[local] Hint Resolve recorded_claim unclaimed_claim recorded_stable unclaimed_stable unclaimed_sessionless : core.

Lemma recorded_written s phase d w : handover_session s -> validPhase phase = true -> phase <> PhasePrepared ->
  json_Marshal (Session.set_Phase phase s) = Some d -> recorded (set_session (Some d) w).
Proof.
  intros (H1 & H2 & H3 & H4 & H5 & H6) Hv Hp Hd. exists (Session.set_Phase phase s).
  split; [|split; [done|split; [|done]]]; [|unfold Session_Release; cbn; by rewrite H5].
  unfold session_of, set_session. cbn [session]. rewrite (session_reads _ _ (exact_phase s phase H6 Hv) Hd).
  unfold Session.set_Phase. cbn [Session.Schema Session.Transaction Session.Phase Session.StartedAt Session.Kind].
  rewrite H1, H2, H5, Hv. apply String.eqb_neq in H3, H4. by rewrite H3, H4.
Qed.

(** Recording a later phase keeps the handover on record. *)
Lemma Advance_recorded (P : World -> Prop) s phase : stable P -> (forall w, P w -> claim_recorded w) -> handover_session s ->
  phase <> PhasePrepared ->
  triple P (Advance s phase) (fun s' w => s' = Session.set_Phase phase s /\ recorded w) P claim_recorded.
Proof. intros HP HC Hs Hp. apply Advance_triple; [done|done|]. intros d w _ Hv Hd. by eapply recorded_written. Qed.

Lemma handover_session_phase s phase : handover_session s -> validPhase phase = true -> handover_session (Session.set_Phase phase s).
Proof. intros (H1 & H2 & H3 & H4 & H5 & H6) Hv. split_and!; try done. by apply exact_phase. Qed.

Definition ended_on_record (r : HandoverOutcome.t * option handover_error) (w : World) : Prop :=
  claim_recorded w \/ HandoverOutcome.Completed (fst r) = true.

Lemma abort_recorded o s pid reason : 
  triple recorded (abort describe T o s pid reason) ended_on_record claim_recorded claim_recorded.
Proof.
  unfold abort. eapply (triple_bind _ _ (fun _ => recorded)).
  { destruct (_ && _); [|by apply triple_ret]. apply triple_attempt_same. unfold Tunnel_Stop.
    eapply triple_on_error; [apply (call_update recorded); [eauto..|]|]; [by intros t w Hw|by apply triple_update]. }
  intros stopped. cbv zeta.
  eapply triple_bind; [apply (triple_attempt _ _ (fun _ => unclaimed) recorded), Claim_Release_triple; [eauto..|done]|].
  intros [[]|e]; [|apply triple_ret; intros w Hw; by left; apply recorded_claim].
  eapply triple_conseq; [apply (advance_and_finish unclaimed claim_recorded unclaimed_stable unclaimed_claim _ _ _ _ unclaimed claim_recorded)|done| |done|done];
    [done|done|]. intros r w Hw. left. by apply unclaimed_claim.
Qed.

Lemma recorded_rest : timeless recorded /\ actless recorded.
Proof. split; by intros ? w Hw. Qed.

Lemma prove_started_recorded o s : handover_session s ->
  triple recorded (prove_started describe T o s) ended_on_record claim_recorded claim_recorded.
Proof.
  intros Hs. unfold prove_started. eapply (triple_bind _ _ (fun r w => recorded w /\ match r with Ok pid => 0 < pid | Err _ => True end)).
  { eapply triple_conseq; [apply (triple_attempt recorded Tunnel_Start (fun pid w => recorded w /\ 0 < pid) recorded)|done| |done|done].
    - apply call_triple; [eauto..|]. intros t. cbv zeta. eapply (triple_bind _ _ (fun _ => recorded)); [by apply triple_update|].
      intros []. by apply triple_ret.
    - by intros [pid|e] w Hw. }
  intros [pid|e]; [|eapply triple_conseq; [apply abort_recorded|by intros w [Hw _]|done..]].
  intros w [Hw Hpid]. revert w Hw. cbv zeta. apply triple_intro.
  eapply (triple_bind _ _ (fun _ => recorded)).
  { eapply triple_conseq; [apply (prove_triple describe T recorded claim_recorded); [eauto..|apply recorded_rest|apply recorded_rest]|eauto..]. }
  intros [proofs reason]. destruct (_ <? _); [apply abort_recorded|].
  assert (handover_session (Session.set_StartedPID pid s)) as Hs'.
  { destruct Hs as (H1 & H2 & H3 & H4 & H5 & H6). split_and!; try done. destruct pid; [lia| |lia]. by apply exact_pid. }
  eapply triple_bind; [apply triple_attempt, Advance_recorded; [eauto..|done]|].
  intros [s'|e]; [|apply triple_ret; intros w Hw'; by left; apply recorded_claim]. apply triple_pure. intros _.
  eapply triple_conseq; [apply (finish_triple recorded claim_recorded recorded_stable recorded_claim _ (fun _ => True)); done|done| |done|done].
  intros r w [Hr _]. right. by rewrite Hr.
Qed.

Lemma possess_recorded : triple recorded (possess T) (fun _ => recorded) recorded claim_recorded.
Proof.
  apply stop_and_await_triple; [eauto..|apply recorded_rest| |].
  - eapply triple_conseq; [apply (Incumbent_Running_triple recorded claim_recorded); eauto|done| |done|done]. by intros r w [Hw _].
  - intros pid. apply call_update; [eauto..|]. intros t w Hw. by destruct (_ || _).
Qed.

Lemma take_recorded o s : handover_session s ->
  triple unclaimed (take read_claim describe T o s id) ended_on_record claim_recorded claim_recorded.
Proof.
  intros Hs. unfold take. eapply triple_bind; [apply triple_attempt, Advance_recorded; [eauto..|done]|].
  intros [s1|e]; [|apply triple_ret; intros w Hw; by left; apply unclaimed_claim]. apply triple_pure. intros ->. cbv zeta.
  assert (handover_session (Session.set_Phase PhaseClaimed s)) as Hs1 by by apply handover_session_phase.
  eapply triple_bind; [apply triple_attempt_same, Place_triple; [eauto..|by intros t d w Hw _ _ _]|].
  intros [[]|e]; [|apply abort_recorded].
  eapply triple_bind; [apply triple_attempt_same, possess_recorded|]. intros [[]|e]; [|apply abort_recorded].
  eapply triple_bind; [apply triple_attempt, Advance_recorded; [eauto..|done]|].
  intros [s2|e]; [|apply triple_ret; intros w Hw; by left; apply recorded_claim]. apply triple_pure. intros ->.
  apply prove_started_recorded. by apply handover_session_phase.
Qed.

Lemma Run_recorded :
  (forall t, exact (Session.mk sessionSchema id PhasePrepared (stamp t) false 0 KindHandover) = true) ->
  triple unclaimed (Run read_claim read_session describe T id false) ended_on_record claim_recorded claim_recorded.
Proof.
  intros Hx. assert (forall r w, unclaimed w -> ended_on_record r w) as Hu by (intros r w Hw; by left; apply unclaimed_claim).
  unfold Run. destruct (policy_invalid _); [apply triple_ret; auto|]. cbn [negb andb].
  destruct (negb (Transaction.Tunnel T)); [apply triple_ret; auto|].
  destruct (negb (Transaction.Incumbent T)); [apply triple_ret; auto|].
  eapply triple_bind.
  { apply (triple_attempt _ _ (fun s w => handover_session s /\ unclaimed w) unclaimed), (Store_begin_triple _ _ claim_recorded); [eauto..|].
    intros t d w Hw s Hid _. split; [|done]. split_and!; try done; [apply stamp_nonempty|apply Hx]. }
  intros [s|e]; [|apply triple_ret; auto]. apply triple_pure. intros Hs. by apply take_recorded.
Qed.

(** *** Undoing it on a machine that works *)

Definition calm (w : World) : Prop := Forall (fun t => outcome t = Carried) (turns w).
Definition never (_ : World) : Prop := False.

Lemma calm_call {A} (P : World -> Prop) e (k : Turn -> M World handover_error A) Q : stable P ->
  (forall t, triple (fun w => calm w /\ P w) (k t) Q never never) -> triple (fun w => calm w /\ P w) (call e k) Q never never.
Proof.
  intros HP Hk w [Hc Hw]. pose proof (turn_moves w) as Hm. unfold call, mbind, M_bind. unfold turn in *.
  destruct (turns w) as [|t rest] eqn:Ht; [by apply Hk|].
  unfold calm in Hc. rewrite Ht in Hc. inversion Hc as [|? ? Ho Hrest]; subst. rewrite Ho in Hm |- *. cbn. rewrite Ho. apply Hk.
  split; [|by eapply HP]. unfold calm. cbn.
  assert (forall l v, turns (foldl occur v l) = turns v) as Hturns.
  { induction l as [|ev l IH]; intros v; [done|]. cbn. rewrite IH. by destruct ev; cbn; repeat case_match. }
  by rewrite Hturns.
Qed.

Lemma calm_update (P : World -> Prop) e (f : Turn -> World -> World) (Q : World -> Prop) : stable P ->
  (forall t w, turns (f t w) = turns w) -> (forall t w, P w -> Q (f t w)) ->
  triple (fun w => calm w /\ P w) (call e (fun t => update (f t))) (fun _ w => calm w /\ Q w) never never.
Proof.
  intros HP Ht Hq. apply calm_call; [done|]. intros t. apply triple_update. intros w [Hc Hw].
  split; [|auto]. unfold calm. by rewrite Ht.
Qed.

Lemma calm_write (P Q : World -> Prop) s : stable P -> exact s = true -> (forall d w, P w -> Q (set_session (Some d) w)) ->
  triple (fun w => calm w /\ P w) (Store_write s) (fun _ w => calm w /\ Q w) never never.
Proof.
  intros HP Hx Hq. unfold Store_write. destruct (session_writes s Hx) as [d ->]. cbn [of_option].
  apply (triple_bind _ _ (fun _ w => calm w /\ P w)); [by intros w Hw|]. intros d'. unfold replace_file.
  do 2 (apply (triple_bind _ _ (fun _ w => calm w /\ P w)); [apply calm_call; [done|]; intros t; by apply triple_ret|intros []]).
  eapply triple_on_error; [by apply (calm_update P _ _ Q); [|done|intros t; apply Hq]|]. by intros w [].
Qed.

Lemma calm_attempt {A} P (m : M World handover_error A) Q :
  triple P m Q never never -> triple P (attempt m) (fun r w => exists a, r = Ok a /\ Q a w) never never.
Proof.
  intros Hm w Hw. specialize (Hm w Hw). unfold attempt. destruct (m w) as [w' [a|e|]]; [by exists a|done..].
Qed.

Definition given_back (w : World) : Prop := claim w = None /\ session w = None.

Lemma given_back_stable : stable given_back.
Proof. intros w w' [A1 A2 _ _ _ _] [H1 H2]. split; congruence. Qed.

Lemma abort_calm o s pid reason : exact s = true ->
  triple calm (abort describe T o s pid reason)
    (fun r w => snd r = None /\ HandoverOutcome.Phase (fst r) = PhaseAborted /\ given_back w) never never.
Proof.
  intros Hx. set (any := fun _ : World => True). assert (stable any) as Hany by done.
  cut (triple (fun w => calm w /\ any w) (abort describe T o s pid reason)
         (fun r w => snd r = None /\ HandoverOutcome.Phase (fst r) = PhaseAborted /\ given_back w) never never).
  { intros Ht w Hw. by apply Ht. }
  unfold abort. apply (triple_bind _ _ (fun _ w => calm w /\ any w)).
  { destruct (_ && _); [|by apply triple_ret].
    eapply triple_conseq; [apply (calm_attempt (fun w => calm w /\ any w) _ (fun _ w => calm w /\ any w))|done|
      by intros r w (a & -> & Hw)|done|done].
    eapply triple_on_error; [by apply (calm_update any _ _ any)|]. by intros w []. }
  intros stopped. cbv zeta. eapply triple_bind; [apply calm_attempt, (calm_update any _ _ unclaimed); done|].
  intros r. apply triple_exists. intros []. apply triple_pure. intros ->.
  eapply triple_bind.
  { apply (calm_attempt _ _ (fun _ w => calm w /\ unclaimed w)). unfold Advance. cbn [negb validPhase].
    apply (triple_bind _ _ (fun _ w => calm w /\ unclaimed w)); [|intros []; by apply triple_ret].
    apply calm_write; [apply unclaimed_stable|by apply exact_phase|done]. }
  intros r. apply triple_exists. intros s'. apply triple_pure. intros ->. unfold finish.
  eapply triple_bind; [apply calm_attempt, (calm_update unclaimed _ _ given_back); [apply unclaimed_stable|done|]|].
  { intros t w Hw. by split. }
  intros r. apply triple_exists. intros []. apply triple_pure. intros ->. apply triple_ret. by intros w [_ Hw].
Qed.

(** An abandoned handover is undone: the claim is gone and so is its record. *)
Lemma Abort_calm w s : calm w -> session_of read_session (session w) = Ok (Some s) -> Session_Release s = false ->
  exists w' o, Abort read_claim read_session describe T w = (w', Done (o, None)) /\
    HandoverOutcome.Phase o = PhaseAborted /\ claim w' = None /\ session w' = None.
Proof.
  intros Hc Hs Hk. destruct (session_of_Some read_session _ _ Hs) as [Hx _].
  set (P := fun v : World => session v = session w).
  assert (stable P) as HP by (intros v v' Hm Hv; unfold P; by rewrite (moves_session _ _ Hm)).
  assert (triple (fun v => calm v /\ P v) (Abort read_claim read_session describe T)
    (fun r w => snd r = None /\ HandoverOutcome.Phase (fst r) = PhaseAborted /\ given_back w) never never) as Ht.
  { unfold Abort. eapply (triple_bind _ _ (fun r v => exists a, r = Ok a /\ (calm v /\ P v) /\ a = Some s)).
    - apply (calm_attempt _ _ (fun a v => (calm v /\ P v) /\ a = Some s)). apply calm_call; [done|]. intros t v [Hv Hp].
      unfold mbind, M_bind, get, lift. unfold P in Hp. by rewrite Hp, Hs.
    - intros r. apply triple_exists. intros a. apply triple_pure. intros -> v [[Hv _] ->]. rewrite Hk.
      by apply (abort_calm _ s _ _ Hx v). }
  specialize (Ht w (conj Hc eq_refl)). destruct (Abort _ _ _ _ w) as [w' [[o e]|e|]]; [|done..].
  destruct Ht as (He & Hp & H1 & H2). cbn in He, Hp. subst e. by exists w', o.
Qed.
End record.

(** ** Completion *)

Section proofs.
Context `{JSON} `{!Codec Claim.t} `{!Codec Session.t}.
Context (read_claim : Doc -> option Claim.t) (read_session : Doc -> option Session.t).
Context (describe : handover_error -> string) (T : Transaction.t).

Definition is_probe (a : Act) : Prop := exists traversed, a = Probed traversed.

(** After [L], probes only, the last [n] of which found that traffic passed. *)
Definition proved (L : list Act) (n : Z) (l : list Act) : Prop :=
  0 <= n /\ exists front, Forall is_probe front /\ l = (L ++ front ++ replicate (Z.to_nat n) (Probed true))%list.

Lemma proved_next L n l traversed : proved L n l -> proved L (if traversed : bool then n + 1 else 0) (l ++ [Probed traversed])%list.
Proof.
  intros (Hn & front & Hf & ->). destruct traversed.
  - split; [lia|]. exists front. split; [done|]. rewrite Z2Nat.inj_add, Nat.add_comm by lia. cbn [Nat.add Z.to_nat Pos.to_nat].
    rewrite <- !app_assoc. change (Pos.to_nat 1 + Z.to_nat n)%nat with (S (Z.to_nat n)). by rewrite replicate_S_end.
  - split; [lia|]. exists (front ++ replicate (Z.to_nat n) (Probed true) ++ [Probed false])%list. split.
    + rewrite !Forall_app. split; [done|]. split; [apply Forall_replicate; by eexists|]. constructor; [by eexists|constructor].
    + cbn. by rewrite app_nil_r, <- !app_assoc.
Qed.

Definition anything (_ : World) : Prop := True.

Lemma prove_proved (P : World -> Prop) L : stable P -> timeless P -> actless P ->
  triple (fun w => P w /\ acts w = L) (prove describe T) (fun r w => P w /\ proved L (fst r) (acts w)) anything anything.
Proof.
  intros HP Ht Ha. set (X := fun n w => P w /\ proved L n (acts w)).
  assert (forall n, stable (X n)) as HX.
  { intros n w w' Hm [Hw Hp]. split; [by eapply HP|]. by rewrite (moves_acts _ _ Hm). }
  assert (forall n, timeless (X n)) as HXt by (intros n ns w [Hw Hp]; split; [by apply Ht|done]).
  assert (forall fuel deadline n, triple (X n) (prove_loop describe T fuel deadline n) (fun r w => X (fst r) w) anything anything) as Hloop.
  { induction fuel as [|fuel IH]; intros deadline n; cbn [prove_loop]; [by apply triple_fail|].
    eapply (triple_bind _ _ (fun _ => X n)); [by apply now_triple|]. intros t. destruct (negb _); [by apply triple_ret|].
    eapply (triple_bind _ _ (fun r w => match r with Ok traversed => X (if traversed : bool then n + 1 else 0) w | Err _ => X n w end)).
    { apply (triple_attempt _ _ (fun traversed => X (if traversed : bool then n + 1 else 0)) (X n)), call_triple; [done|done|].
      intros t'. eapply (triple_bind _ _ (fun _ => X (if answer t' then n + 1 else 0))); [apply triple_update|intros []; by apply triple_ret].
      intros w [Hw Hp]. split; [by apply Ha|]. by apply proved_next. }
    intros [traversed|e]; [|by apply triple_ret]. cbv zeta. destruct (_ && _); [by apply triple_ret|].
    eapply triple_bind; [by apply wait_triple|]. intros []; [by apply triple_ret|apply IH]. }
  unfold prove. apply (triple_conseq _ (X 0) _ (fun r w => P w /\ proved L (fst r) (acts w)) (fun r w => X (fst r) w) _ anything _ anything);
    [|intros w [Hw <-]; split; [done|]; split; [lia|]; exists []; split; [constructor|by rewrite app_nil_r]|done..].
  eapply triple_bind; [by apply (now_triple (X 0) anything)|]. intros t. apply Hloop.
Qed.

Lemma triple_any {A} (m : M World handover_error A) : triple anything m (fun _ => anything) anything anything.
Proof. intros w _. by destruct (m w) as [w' [a|e|]]. Qed.

Lemma abort_incomplete o s pid reason P : HandoverOutcome.Completed o = false ->
  triple P (abort describe T o s pid reason) (fun r _ => HandoverOutcome.Completed (fst r) = false) anything anything.
Proof.
  intros Ho. apply (triple_conseq P anything _ _ (fun r _ => HandoverOutcome.Completed (fst r) = false) anything anything anything anything); [|done..].
  unfold abort. eapply triple_bind; [apply triple_any|]. intros stopped. cbv zeta.
  eapply triple_bind; [apply triple_any|]. intros [[]|e]; [|by apply triple_ret].
  eapply triple_bind; [apply triple_any|]. intros [s'|e]; [|by apply triple_ret].
  unfold finish. eapply triple_bind; [apply triple_any|]. intros r. by apply triple_ret.
Qed.

(** The claim on disk is the one that transaction [id] placed. *)
Definition placed_by (id : string) (w : World) : Prop :=
  exists t d, claim w = Some d /\
     json_Marshal (Claim.mk claimSchema HolderHexroute id (stamp t) (Transaction.processConfig T)) = Some d.

(** What a completed handover left: the claim of its own transaction, and after the claim
    and the start nothing but probes, the last of which all passed. *)
Definition handed_over (id : string) (L : list Act) (w : World) : Prop :=
  placed_by id w /\
  exists pid n, HandoverPolicy.Proofs (Transaction.Policy T) <= n /\ proved (L ++ [Placed id; Started pid])%list n (acts w).

Definition completed_with (Q : World -> Prop) (r : HandoverOutcome.t * option handover_error) (w : World) : Prop :=
  HandoverOutcome.Completed (fst r) = true -> Q w.

Lemma incomplete_with Q P (m : M World handover_error (HandoverOutcome.t * option handover_error)) :
  triple P m (fun r _ => HandoverOutcome.Completed (fst r) = false) anything anything ->
  triple P m (completed_with Q) anything anything.
Proof. intros Hm. eapply triple_conseq; [exact Hm|done| |done|done]. intros r w Hr Hc. congruence. Qed.

Lemma placed_by_stable id : stable (placed_by id).
Proof. intros w w' Hm (t & d & Hc & Hd). exists t, d. by rewrite (moves_claim _ _ Hm). Qed.

Lemma with_acts_stable P L : stable P -> stable (fun w => P w /\ acts w = L).
Proof. intros HP w w' Hm [Hw Ha]. split; [by eapply HP|]. by rewrite (moves_acts _ _ Hm). Qed.

Lemma prove_started_completes id L o s : HandoverOutcome.Completed o = false ->
  triple (fun w => placed_by id w /\ acts w = (L ++ [Placed id])%list) (prove_started describe T o s)
    (completed_with (handed_over id L)) anything anything.
Proof.
  intros Ho. unfold prove_started. eapply triple_bind.
  { apply (triple_attempt _ _ (fun pid w => placed_by id w /\ acts w = (L ++ [Placed id; Started pid])%list) anything), triple_call;
      [apply with_acts_stable, placed_by_stable|done|done|].
    intros t. cbv zeta. eapply (triple_bind _ _ (fun _ w => placed_by id w /\ acts w = (L ++ [Placed id; Started (Z.pos (fresh t))])%list));
      [apply triple_update|intros []; by apply triple_ret].
    intros w [Hw Ha]. split; [done|]. cbn. rewrite Ha. by rewrite <- app_assoc. }
  intros [pid|e]; [|by apply incomplete_with, abort_incomplete]. cbv zeta.
  eapply triple_bind; [apply prove_proved; [apply placed_by_stable|by intros ? w Hw..]|].
  intros [proofs reason]. cbn [fst]. destruct (proofs <? _) eqn:Hn; [by apply incomplete_with, abort_incomplete|]. bool_prop.
  set (X := fun w => placed_by id w /\ proved (L ++ [Placed id; Started pid]) proofs (acts w)).
  assert (stable X) as HX.
  { intros w w' Hm [Hw Hp]. split; [by eapply placed_by_stable|]. by rewrite (moves_acts _ _ Hm). }
  assert (forall r w, X w -> completed_with (handed_over id L) r w) as HQ.
  { intros r w [Hw Hp] _. split; [done|]. exists pid, proofs. by split; [lia|]. }
  eapply triple_bind; [apply triple_attempt_same, (Advance_inert X anything); [done|done|by intros ? w Hw]|].
  intros [s'|e]; [|apply triple_ret; auto].
  eapply triple_conseq; [apply (finish_inert X anything HX (fun _ _ => I) _ anything); by intros ? w Hw|done|auto|done|done].
Qed.

Lemma take_completes id L o s : HandoverOutcome.Completed o = false ->
  triple (fun w => acts w = L) (take read_claim describe T o s id) (completed_with (handed_over id L)) anything anything.
Proof.
  intros Ho. unfold take. set (X := fun w => acts w = L). set (Y := fun w => placed_by id w /\ acts w = (L ++ [Placed id])%list).
  assert (stable X) as HX by (intros w w' Hm Hw; unfold X; by rewrite (moves_acts _ _ Hm)).
  assert (stable Y) as HY by apply with_acts_stable, placed_by_stable.
  eapply triple_bind; [apply triple_attempt_same, (Advance_inert X anything); [done|done|by intros ? w Hw]|].
  intros [s1|e]; [|by apply incomplete_with, triple_ret]. cbv zeta.
  eapply triple_bind; [apply (triple_attempt X _ (fun _ => Y) X), (Place_triple read_claim X anything HX); [done|]|].
  { intros t d w Hw Hd _ _. split; [by exists t, d|]. cbn. by rewrite Hw. }
  intros [[]|e]; [|by apply incomplete_with, abort_incomplete].
  eapply triple_bind.
  { apply triple_attempt_same, (stop_and_await_triple T Y anything HY); [done|by intros ? w Hw| |].
    - eapply triple_conseq; [apply (Incumbent_Running_triple Y anything); done|done|by intros r w [Hw _]|done|done].
    - intros pid. apply call_update; [done|done|]. intros t w Hw. by destruct (_ || _). }
  intros [[]|e]; [|by apply incomplete_with, abort_incomplete].
  eapply triple_bind; [apply triple_attempt_same, (Advance_inert Y anything); [done|done|by intros ? w Hw]|].
  intros [s2|e]; [|by apply incomplete_with, triple_ret]. by apply prove_started_completes.
Qed.
End proofs.

(** ** Every transaction ends *)

Section ends.
Context `{JSON} `{!Codec Claim.t} `{!Codec Session.t}.
Context (read_claim : Doc -> option Claim.t) (read_session : Doc -> option Session.t).
Context (describe : handover_error -> string) (T : Transaction.t).

(** The clock does not go back, and no loop is cut short. *)
Definition steady {A} (m : M World handover_error A) : Prop :=
  forall w, time w <= time (fst (m w)) /\ snd (m w) <> Failed OutOfFuel.

Lemma steady_ret {A} (a : A) : steady (mret a).
Proof. intros w. split; [cbn; lia|done]. Qed.
Lemma steady_fail {A} e : e <> OutOfFuel -> steady (fail (A := A) e).
Proof. intros He w. split; [cbn; lia|]. by intros [= E]. Qed.
Lemma steady_get : steady get.
Proof. intros w. split; [cbn; lia|done]. Qed.
Lemma steady_update f : (forall w, time w <= time (f w)) -> steady (update f).
Proof. intros Hf w. split; [apply Hf|done]. Qed.
Lemma steady_lift {A} (r : result handover_error A) : r <> Err OutOfFuel -> steady (lift r).
Proof. intros Hr w. unfold lift. destruct r; cbn; split; try lia; [done|]. by intros [= ->]. Qed.
Lemma steady_turn : steady turn.
Proof.
  intros w. split; [apply turn_moves|]. unfold turn. destruct (turns w) as [|t rest]; [done|].
  cbv zeta. destruct (outcome t); cbn; congruence.
Qed.

Lemma steady_bind {A B} (m : M World handover_error A) (k : A -> M World handover_error B) :
  steady m -> (forall a, steady (k a)) -> steady (m ≫= k).
Proof.
  intros Hm Hk w. destruct (Hm w) as [Ht Hf]. unfold mbind, M_bind. destruct (m w) as [w1 [a|e|]]; cbn in *;
    [|split; [done|congruence]..]. destruct (Hk a w1). split; [lia|done].
Qed.

Lemma steady_attempt {A} (m : M World handover_error A) : steady m -> steady (attempt m).
Proof. intros Hm w. destruct (Hm w) as [Ht Hf]. unfold attempt. by destruct (m w) as [w1 [a|e|]]. Qed.

Lemma steady_on_error {A} (m : M World handover_error A) cleanup : steady m -> steady cleanup -> steady (on_error cleanup m).
Proof.
  intros Hm Hc w. destruct (Hm w) as [Ht Hf]. unfold on_error. destruct (m w) as [w1 [a|e|]]; cbn in *; [done| |done].
  destruct (Hc w1) as [Hc1 _]. destruct (cleanup w1) as [w2 [[]|e'|]]; cbn in *; split; try lia; try done; congruence.
Qed.

Lemma steady_call {A} e (k : Turn -> M World handover_error A) : e <> OutOfFuel -> (forall t, steady (k t)) -> steady (call e k).
Proof.
  intros He Hk. apply steady_bind; [apply steady_turn|]. intros t. destruct (outcome t); auto using steady_fail.
Qed.

Create HintDb steady.
#[local] Hint Resolve steady_ret steady_fail steady_get steady_update steady_lift steady_turn steady_bind steady_attempt
  steady_on_error steady_call : steady.
#[local] Hint Extern 1 (_ <> OutOfFuel) => discriminate : steady.
#[local] Hint Extern 1 (_ <= _) => cbn; lia : steady.

Lemma steady_now : steady now.
Proof. unfold now. auto 10 with steady. Qed.
Lemma steady_wait between : 0 <= between -> steady (wait between).
Proof. intros Hb. unfold wait. apply steady_bind; [apply steady_turn|]. intros t. destruct (outcome t); auto 10 with steady. Qed.
Lemma steady_Incumbent_Running : steady Incumbent_Running.
Proof. unfold Incumbent_Running. auto 10 with steady. Qed.
Lemma steady_Own_Running : steady Own_Running.
Proof. unfold Own_Running. auto 10 with steady. Qed.
Lemma steady_Incumbent_Stop pid : steady (Incumbent_Stop pid).
Proof. apply steady_call; [done|]. intros t. apply steady_update. intros w. destruct (_ || _); cbn; lia. Qed.
Lemma steady_Own_Stop pid : steady (Own_Stop pid).
Proof. apply steady_call; [done|]. intros t. apply steady_update. intros w. destruct (answer t); cbn; lia. Qed.
Lemma steady_Tunnel_Stop pid : steady (Tunnel_Stop pid).
Proof. unfold Tunnel_Stop. auto 10 with steady. Qed.
Lemma steady_Tunnel_Start : steady Tunnel_Start.
Proof. unfold Tunnel_Start. auto 10 with steady. Qed.
Lemma steady_Traversed : steady Traversed.
Proof. unfold Traversed. auto 10 with steady. Qed.
Lemma steady_replace_file e place : e <> OutOfFuel -> (forall w, time w <= time (place w)) -> steady (replace_file e place).
Proof. intros He Hp. unfold replace_file. auto 10 with steady. Qed.
#[local] Hint Resolve steady_now steady_wait steady_replace_file : steady.

Lemma session_of_error file : session_of read_session file <> Err OutOfFuel.
Proof. unfold session_of. by repeat case_match. Qed.
Lemma held_of_error file : held_of read_claim file <> Err OutOfFuel.
Proof. unfold held_of. by repeat case_match. Qed.
Lemma of_option_error {A} e (o : option A) : e <> OutOfFuel -> of_option e o <> Err OutOfFuel.
Proof. intros He. destruct o; [done|]. by intros [= ->]. Qed.
#[local] Hint Resolve session_of_error held_of_error of_option_error : steady.

Lemma steady_Store_Read : steady (Store_Read read_session).
Proof. unfold Store_Read. auto 10 with steady. Qed.
Lemma steady_Store_write s : steady (Store_write s).
Proof. unfold Store_write. auto 10 with steady. Qed.
Lemma steady_Store_begin id rehearsal kind : steady (Store_begin read_session id rehearsal kind).
Proof.
  unfold Store_begin. destruct (String.eqb id ""); [by apply steady_fail|].
  apply steady_bind; [apply steady_Store_Read|]. intros existing. destruct (match existing with Some _ => _ | None => _ end);
    [by apply steady_fail|]. pose proof steady_Store_write. auto 10 with steady.
Qed.
Lemma steady_Advance s phase : steady (Advance s phase).
Proof. unfold Advance. destruct (negb _); [by apply steady_fail|]. pose proof steady_Store_write. auto 10 with steady. Qed.
Lemma steady_Clear : steady Clear.
Proof. unfold Clear. auto 10 with steady. Qed.
Lemma steady_Claim_Release : steady Claim_Release.
Proof. unfold Claim_Release. auto 10 with steady. Qed.
Lemma steady_Place cfg id : steady (Place read_claim cfg id).
Proof.
  unfold Place. destruct (String.eqb id ""); [by apply steady_fail|]. destruct (negb _); [by apply steady_fail|].
  apply steady_bind; [unfold Held; auto 10 with steady|]. intros [c|]; [by apply steady_fail|]. auto 10 with steady.
Qed.

(** *** The loops *)

Definition steady_at {A} (w : World) (m : M World handover_error A) : Prop :=
  time w <= time (fst (m w)) /\ snd (m w) <> Failed OutOfFuel.

Lemma steady_at_bind {A B} w (m : M World handover_error A) (k : A -> M World handover_error B) :
  steady m -> (forall w1 a, time w <= time w1 -> m w = (w1, Done a) -> steady_at w1 (k a)) -> steady_at w (m ≫= k).
Proof.
  intros Hm Hk. destruct (Hm w) as [Ht Hf]. unfold steady_at, mbind, M_bind. destruct (m w) as [w1 [a|e|]]; cbn in *;
    [|split; [done|congruence]..]. destruct (Hk w1 a Ht eq_refl). split; [lia|done].
Qed.

Lemma now_value w w1 t : now w = (w1, Done t) -> t = time w1.
Proof.
  unfold now, mbind, M_bind. destruct (turn w) as [w2 [t'|e|]]; [|done..]. cbn. by intros [= <- <-].
Qed.

Lemma wait_value between w w1 : 0 <= between -> wait between w = (w1, Done false) -> time w + between <= time w1.
Proof.
  intros Hb. unfold wait, mbind, M_bind. pose proof (moves_time _ _ (turn_moves w)) as Ht.
  destruct (turn w) as [w2 [t'|e|]]; [|done..]. cbn in Ht. destruct (outcome t'); cbn; intros [= <-]; cbn; lia.
Qed.

Abbreviation policy := (Transaction.Policy T).
Abbreviation between := (HandoverPolicy.Between (Transaction.Policy T)).

(** Each round of a loop takes at least the wait between two readings. *)
Definition rounds (fuel : nat) (left : Z) : Prop := (1 <= fuel)%nat /\ left <= (Z.of_nat fuel - 1) * between.

Lemma rounds_start bound : 0 < between -> 0 < bound -> rounds (loop_fuel T bound) bound.
Proof.
  intros Hb Hp. unfold rounds, loop_fuel. split; [lia|].
  assert (0 <= bound / between) by (apply Z.div_pos; lia).
  rewrite Nat2Z.inj_add, Z2Nat.id by done. pose proof (Z.mul_succ_div_gt bound between Hb). cbn. nia.
Qed.

Lemma rounds_next fuel left left' : rounds (S fuel) left -> 0 < left -> left' + between <= left -> 0 < between -> rounds fuel left'.
Proof. intros [_ Hl] Hp Hn Hb. unfold rounds in *. split; [destruct fuel; nia|nia]. Qed.

Lemma rounds_less fuel left left' : rounds fuel left -> left' <= left -> rounds fuel left'.
Proof. intros [H1 H2] Hl. split; [done|lia]. Qed.

Lemma await_gone_steady running e deadline : 0 < between -> steady running -> e <> OutOfFuel ->
  forall fuel w, rounds fuel (deadline - time w) -> steady_at w (await_gone T running e fuel deadline).
Proof.
  intros Hb Hr He. induction fuel as [|fuel IH]; intros w Hf; [destruct Hf; lia|]. cbn [await_gone].
  apply steady_at_bind; [by apply steady_attempt|]. intros w1 [[pid|]|e'] Ht1 _; [|apply steady_ret|by apply steady_fail].
  apply steady_at_bind; [apply steady_now|]. intros w2 t Ht2 Et%now_value. unfold Before.
  destruct (t <? deadline) eqn:Hd; cbn [negb]; [|by apply steady_fail]. bool_prop.
  apply steady_at_bind; [apply steady_wait; lia|]. intros w3 [] Ht3 Ew; [by apply steady_fail|].
  apply wait_value in Ew; [|lia]. apply IH. eapply rounds_next; [exact Hf|lia|lia|done].
Qed.

Lemma stop_and_await_steady running stop e : 0 < between -> 0 < HandoverPolicy.Possession policy -> steady running ->
  (forall pid, steady (stop pid)) -> e <> OutOfFuel -> steady (stop_and_await T running stop e).
Proof.
  intros Hb Hp Hr Hs He w. apply steady_at_bind; [by apply steady_attempt|].
  intros w1 [[pid|]|e'] _ _; [|apply steady_ret|by apply steady_fail].
  apply steady_at_bind; [by apply steady_attempt|]. intros w2 [[]|e'] _ _; [|by apply steady_fail].
  apply steady_at_bind; [apply steady_now|]. intros w3 t _ Et%now_value.
  apply await_gone_steady; [done..|]. eapply rounds_less; [by apply rounds_start|lia].
Qed.

Lemma prove_loop_steady deadline : 0 < between ->
  forall fuel n w, rounds fuel (deadline - time w) -> steady_at w (prove_loop describe T fuel deadline n).
Proof.
  intros Hb. induction fuel as [|fuel IH]; intros n w Hf; [destruct Hf; lia|]. cbn [prove_loop].
  apply steady_at_bind; [apply steady_now|]. intros w1 t Ht1 Et%now_value. unfold Before.
  destruct (t <? deadline) eqn:Hd; cbn [negb]; [|apply steady_ret]. bool_prop.
  apply steady_at_bind; [apply steady_attempt, steady_Traversed|]. intros w2 [traversed|e] Ht2 _; [|apply steady_ret].
  cbv zeta. destruct (traversed && _); [apply steady_ret|].
  apply steady_at_bind; [apply steady_wait; lia|]. intros w3 [] Ht3 Ew; [apply steady_ret|].
  apply wait_value in Ew; [|lia]. apply IH. eapply rounds_next; [exact Hf|lia|lia|done].
Qed.

Lemma prove_steady : 0 < between -> 0 < HandoverPolicy.Deadline policy -> steady (prove describe T).
Proof.
  intros Hb Hp w. apply steady_at_bind; [apply steady_now|]. intros w1 t _ Et%now_value.
  apply prove_loop_steady; [done|]. eapply rounds_less; [by apply rounds_start|lia].
Qed.

Lemma fails_attempt {A} e0 (m : M World handover_error A) : fails_with e0 (attempt m).
Proof. intros w w' e. unfold attempt. by destruct (m w) as [w1 [a|e1|]]. Qed.

Lemma prove_fails : fails_with OutOfFuel (prove describe T).
Proof.
  assert (forall A (a : A), fails_with OutOfFuel (mret a)) as Hret by by intros A a w w' e.
  assert (fails_with OutOfFuel (wait between)) as Hwait.
  { apply fails_bind; [apply fails_turn|]. intros t. destruct (outcome t); by intros w w' e. }
  apply fails_bind; [apply fails_now|]. intros t0. generalize (t0 + HandoverPolicy.Deadline policy), 0. intros deadline.
  induction (loop_fuel T _) as [|fuel IH]; intros n; cbn [prove_loop]; [by intros w w' e [= _ <-]|].
  apply fails_bind; [apply fails_now|]. intros t. destruct (negb _); [apply Hret|].
  apply fails_bind; [apply fails_attempt|]. intros [traversed|e]; [|apply Hret]. cbv zeta.
  destruct (_ && _); [apply Hret|]. apply fails_bind; [done|]. intros []; [apply Hret|apply IH].
Qed.

(** A transaction returns an outcome, with no error of the model's own, or the machine
    stops. *)
Definition concludes (m : M World handover_error (HandoverOutcome.t * option handover_error)) : Prop :=
  forall w, match snd (m w) with Done (_, e) => e <> Some OutOfFuel | Failed _ => False | Crashed => True end.

Lemma concludes_ret o e : e <> Some OutOfFuel -> concludes (mret (o, e)).
Proof. by intros He w. Qed.

Lemma concludes_attempt {A} (m : M World handover_error A) k : steady m ->
  (forall r, r <> Err OutOfFuel -> concludes (k r)) -> concludes (attempt m ≫= k).
Proof.
  intros Hm Hk w. destruct (Hm w) as [_ Hf]. unfold mbind, M_bind, attempt. destruct (m w) as [w1 [a|e|]]; cbn in Hf; [by apply Hk| |done].
  apply Hk. congruence.
Qed.

Lemma concludes_prove k : 0 < between -> 0 < HandoverPolicy.Deadline policy -> (forall r, concludes (k r)) ->
  concludes (prove describe T ≫= k).
Proof.
  intros Hb Hp Hk w. destruct (prove_steady Hb Hp w) as [_ Hf]. pose proof (prove_fails w) as Hn.
  unfold mbind, M_bind. destruct (prove describe T w) as [w1 [r|e|]]; [apply Hk| |done]. by rewrite (Hn w1 e eq_refl) in Hf.
Qed.

Context (Hb : 0 < between) (Hd : 0 < HandoverPolicy.Deadline policy) (Hp : 0 < HandoverPolicy.Possession policy).

#[local] Hint Resolve concludes_ret steady_Advance steady_Clear steady_Claim_Release steady_Place steady_Tunnel_Stop
  steady_Tunnel_Start steady_Own_Running steady_Store_begin steady_Store_Read : steady.

(** A step whose error is returned as it is. *)
Lemma concludes_step {A} (m : M World handover_error A) o k : steady m -> (forall a, concludes (k a)) ->
  concludes (r ← attempt m; match r with Err e => mret (o, Some e) | Ok a => k a end).
Proof. intros Hm Hk. apply concludes_attempt; [done|]. intros [a|e] Hr; [done|]. apply concludes_ret. congruence. Qed.

Lemma concludes_finish o : concludes (finish o).
Proof. apply concludes_attempt; [apply steady_Clear|]. intros [[]|e] Hr; apply concludes_ret; cbn; congruence. Qed.

Lemma concludes_abort o s pid reason : concludes (abort describe T o s pid reason).
Proof.
  unfold abort. destruct (_ && _).
  - apply concludes_attempt; [apply steady_Tunnel_Stop|]. intros stopped _.
    apply concludes_step; [apply steady_Claim_Release|]. intros []. apply concludes_step; [apply steady_Advance|].
    intros s'. apply concludes_finish.
  - change (concludes (released ← attempt Claim_Release;
      match released with
      | Err e => mret (HandoverOutcome.set_Reason reason o, Some e)
      | Ok _ => advanced ← attempt (Advance s PhaseAborted);
          match advanced with
          | Err e => mret (HandoverOutcome.set_Reason reason o, Some e)
          | Ok _ => finish (HandoverOutcome.set_Phase PhaseAborted (HandoverOutcome.set_Reason reason o))
          end
      end)).
    apply concludes_step; [apply steady_Claim_Release|]. intros []. apply concludes_step; [apply steady_Advance|].
    intros s'. apply concludes_finish.
Qed.

Lemma possess_steady : steady (possess T).
Proof. by apply stop_and_await_steady; [done|done|apply steady_Incumbent_Running|apply steady_Incumbent_Stop|]. Qed.
Lemma stopOwn_steady : steady (stopOwn T).
Proof. by apply stop_and_await_steady; [done|done|apply steady_Own_Running|apply steady_Own_Stop|]. Qed.

Lemma concludes_prove_started o s : concludes (prove_started describe T o s).
Proof.
  unfold prove_started. apply concludes_attempt; [apply steady_Tunnel_Start|]. intros [pid|e] _; [|apply concludes_abort].
  apply concludes_prove; [done..|]. intros [proofs reason]. destruct (_ <? _); [apply concludes_abort|].
  apply concludes_step; [apply steady_Advance|]. intros s'. apply concludes_finish.
Qed.

Lemma concludes_take o s id : concludes (take read_claim describe T o s id).
Proof.
  unfold take. apply concludes_step; [apply steady_Advance|]. intros s1. cbv zeta.
  apply concludes_attempt; [apply steady_Place|]. intros [[]|e] _; [|apply concludes_abort].
  apply concludes_attempt; [apply possess_steady|]. intros [[]|e] _; [|apply concludes_abort].
  apply concludes_step; [apply steady_Advance|]. intros s2. apply concludes_prove_started.
Qed.

Lemma concludes_own k : (forall r, concludes (k r)) -> concludes (ensure_own ≫= k).
Proof.
  intros Hk w. assert (match snd (ensure_own w) with Failed _ => False | _ => True end) as He.
  { assert (fails_with OutOfFuel ensure_own) as Hf.
    { apply fails_bind; [apply fails_attempt|]. intros [[pid|]|e]; [by intros v v' e| |];
        (apply fails_bind; [apply fails_attempt|]; by intros r v v' e'). }
    assert (steady ensure_own) as Hs.
    { apply steady_bind; [apply steady_attempt, steady_Own_Running|]. intros [[pid|]|e]; [apply steady_ret| |];
        (apply steady_bind; [apply steady_attempt, steady_Tunnel_Start|]; intros r; apply steady_ret). }
    destruct (Hs w) as [_ Hx]. specialize (Hf w). destruct (ensure_own w) as [w1 [r|e|]]; [done| |done].
    by rewrite (Hf w1 e eq_refl) in Hx. }
  unfold mbind, M_bind. destruct (ensure_own w) as [w1 [r|e|]]; [apply Hk|done|done].
Qed.

Lemma concludes_keep o s reason : concludes (keep o s reason).
Proof.
  unfold keep. apply concludes_own. intros [e|]; [by apply concludes_ret|].
  apply concludes_step; [apply steady_Advance|]. intros s'. apply concludes_finish.
Qed.

Lemma concludes_restore o s reason : concludes (restore read_claim T o s reason).
Proof.
  assert (forall o, concludes (retake T o)) as Hretake.
  { intros o'. unfold retake. apply concludes_attempt; [apply possess_steady|]. intros [[]|e] _; [|by apply concludes_ret].
    apply concludes_own. intros [e|]; [by apply concludes_ret|apply concludes_finish]. }
  unfold restore. apply concludes_step; [apply steady_Advance|]. intros s1. cbv zeta.
  apply concludes_attempt; [apply steady_Place|]. intros [[]|[]] _; try apply Hretake; by apply concludes_ret.
Qed.

Lemma concludes_give_back o s : concludes (give_back read_claim describe T o s).
Proof.
  unfold give_back. apply concludes_step; [apply steady_Advance|]. intros s1. cbv zeta.
  apply concludes_attempt; [apply stopOwn_steady|]. intros [[]|e] _; [|apply concludes_keep].
  apply concludes_step; [apply steady_Advance|]. intros s2. unfold prove_released.
  apply concludes_attempt; [apply steady_Claim_Release|]. intros [[]|e] _; [|apply concludes_restore].
  apply concludes_prove; [done..|]. intros [proofs reason]. cbv zeta. destruct (_ <? _).
  - destruct (Transaction.Relinquish T); [apply concludes_finish|apply concludes_restore].
  - apply concludes_step; [apply steady_Advance|]. intros s3. apply concludes_finish.
Qed.

Lemma concludes_Abort : concludes (Abort read_claim read_session describe T).
Proof.
  unfold Abort. apply concludes_step; [apply steady_Store_Read|]. intros [s|]; [|by apply concludes_ret]. cbv zeta.
  destruct (Session_Release s); [|apply concludes_abort]. unfold abortRelease. destruct (negb _); [by apply concludes_ret|].
  destruct (String.eqb _ PhasePrepared); [apply concludes_finish|].
  destruct (String.eqb _ PhaseStopping); [apply concludes_keep|apply concludes_restore].
Qed.
End ends.

(** ** No two tunnels *)

Section theorems.
Context `{JSON} `{!Codec Claim.t} `{!Codec Session.t}.
Context (read_claim : Doc -> option Claim.t) (read_session : Doc -> option Session.t).
Context (describe : handover_error -> string) (T : Transaction.t).




(** C28: A handover completes only on traffic.  When [Run] reports a completed handover, the
    claim of its own transaction is on disk, and the acts it performed are: the claim was
    placed, then the tunnel was started, then probes were taken, of which the last ones,
    as many in a row as the policy asks for, all found that traffic passed. *)
Theorem completion_needs_traffic id w w' o e :
  Run read_claim read_session describe T id false w = (w', Done (o, e)) -> HandoverOutcome.Completed o = true ->
  handed_over T id (acts w) w'.
Proof.
  intros E Hc.
  assert (triple (fun v => acts v = acts w) (Run read_claim read_session describe T id false)
    (completed_with (handed_over T id (acts w))) anything anything) as Ht.
  { unfold Run. cbn [negb andb]. destruct (policy_invalid _); [by apply incomplete_with, triple_ret|].
    destruct (negb (Transaction.Tunnel T)); [by apply incomplete_with, triple_ret|].
    destruct (negb (Transaction.Incumbent T)); [by apply incomplete_with, triple_ret|].
    eapply triple_bind; [apply triple_attempt_same, (Store_begin_triple read_session _ anything)|].
    - intros v v' Hm Hv. by rewrite (moves_acts _ _ Hm).
    - done.
    - by intros t d v Hv s _ _.
    - intros [s|e']; [|by apply incomplete_with, triple_ret]. by apply take_completes. }
  specialize (Ht w eq_refl). rewrite E in Ht. by apply Ht.
Qed.

(** C38: Every transaction ends.  A handover, a rehearsal and a release return an outcome
    unless the machine stops, whatever the other processes do and whatever is refused: the
    loops that wait for a process to go and for traffic to pass are bounded by the policy,
    because every round takes at least its wait, so the fuel of the loops is never spent.
    [Abort] does not look at the policy; it ends under one that the others accept. *)
Theorem transactions_end w w' :
  (forall id rehearsal e, Run read_claim read_session describe T id rehearsal w <> (w', Failed e)) /\
  (forall id e, Release read_claim read_session describe T id w <> (w', Failed e)) /\
  (policy_invalid (Transaction.Policy T) = false ->
     (forall e, Abort read_claim read_session describe T w <> (w', Failed e)) /\
     possess T w <> (w', Failed OutOfFuel) /\ stopOwn T w <> (w', Failed OutOfFuel) /\
     prove describe T w <> (w', Failed OutOfFuel)).
Proof.
  destruct (policy_invalid (Transaction.Policy T)) eqn:Hpol.
  { split; [|split; [|done]]; intros; unfold Run, Release; by rewrite Hpol. }
  unfold policy_invalid in Hpol. bool_prop.
  assert (forall m, concludes m -> forall e, m w <> (w', Failed e)) as Hc.
  { intros m Hm e E. specialize (Hm w). by rewrite E in Hm. }
  assert (forall A (m : M World handover_error A), steady m -> m w <> (w', Failed OutOfFuel)) as Hs.
  { intros A m Hm E. specialize (Hm w). rewrite E in Hm. by destruct Hm. }
  split; [|split; [|intros _; split_and!]]; intros; try apply Hc; try apply Hs.
  - unfold Run. destruct (policy_invalid _); [by apply concludes_ret|].
    destruct (negb rehearsal && negb (Transaction.Tunnel T)); [by apply concludes_ret|].
    destruct (negb rehearsal && negb (Transaction.Incumbent T)); [by apply concludes_ret|].
    apply concludes_step; [apply steady_Store_begin|]. intros s. cbv zeta. destruct rehearsal; [|apply concludes_take; lia].
    unfold rehearse. apply concludes_prove; [lia..|]. intros [proofs reason]. cbv zeta.
    apply concludes_step; [apply steady_Advance|]. intros s'. apply concludes_finish.
  - unfold Release. destruct (policy_invalid _); [by apply concludes_ret|].
    destruct (negb (Transaction.Own T)); [by apply concludes_ret|].
    destruct (negb (Transaction.Tunnel T)); [by apply concludes_ret|].
    destruct (negb (Transaction.Incumbent T)); [by apply concludes_ret|].
    apply concludes_step; [apply steady_Store_begin|]. intros s. apply concludes_give_back; lia.
  - apply concludes_Abort; lia.
  - apply possess_steady; lia.
  - apply stopOwn_steady; lia.
  - apply prove_steady; lia.
Qed.
End theorems.

(** ** Runs *)

Module HandoverSample.

Inductive text :=
| TextClaim (value : Claim.t)
| TextSession (value : Session.t).

#[global] Instance text_eq_dec : EqDecision text.
Proof. unfold EqDecision, Decision. intros x y. decide equality; repeat decide equality. Defined.

#[export] Instance json : JSON := {|
  Doc := text; doc_len := fun _ => 100; Transform := Some; SHA256Hex := fun _ => "" |}.

#[export] Instance claim_codec : Codec Claim.t :=
  @Build_Codec json Claim.t (fun v => Some (TextClaim v))
    (fun d => match d with TextClaim v => Some v | _ => None end) (fun _ => true).
#[export] Instance session_codec : Codec Session.t :=
  @Build_Codec json Session.t (fun v => Some (TextSession v))
    (fun d => match d with TextSession v => Some v | _ => None end) (fun _ => true).

Definition read_claim (d : Doc) : option Claim.t := match d : text with TextClaim v => Some v | _ => None end.
Definition read_session (d : Doc) : option Session.t := match d : text with TextSession v => Some v | _ => None end.
Definition describe (_ : handover_error) : string := "refused".

#[export] Instance laws : @SessionLaws json session_codec read_session.
Proof. split; [intros s d _ [= <-]; done|intros s _; by eexists|done..]. Qed.

Lemma always_exact (s : Session.t) : exact s = true.
Proof. reflexivity. Qed.

Definition transaction (relinquish : bool) : Transaction.t :=
  Transaction.mk relinquish true true true (HandoverPolicy.mk 2 10 2 6) "/content".

Definition calm_turn : Turn := mkTurn [] 0 Carried true 1.
Definition stop_turn : Turn := mkTurn [] 0 Crash true 1.
Definition refused_turn : Turn := mkTurn [] 0 Refused true 1.

(** The previous owner runs its tunnel; nothing is claimed. *)
Definition before (l : list Turn) : World := mkWorld None None ∅ (Some 7) 0 [] l.

Abbreviation begin id := (Run read_claim read_session describe (transaction false) id false).
Abbreviation abort := (Abort read_claim read_session describe (transaction false)).

Definition after : World := Eval vm_compute in fst (begin "first" (before [])).
Definition after_outcome : HandoverOutcome.t := HandoverOutcome.mk "first" "" false true PhaseProven 2 "".

Lemma first_run : begin "first" (before []) = (after, Done (after_outcome, None)).
Proof. vm_compute. reflexivity. Qed.


Lemma completion_needs_traffic_witness : handed_over (transaction false) "first" [] after.
Proof.
  exact (completion_needs_traffic read_claim read_session describe (transaction false) "first" (before []) after
    after_outcome None first_run eq_refl).
Defined.

(** The machine stops while the started tunnel is being proved. *)
Definition crashing : list Turn := (repeat calm_turn 24 ++ [stop_turn])%list.
Definition crashed : World := Eval vm_compute in fst (begin "first" (before crashing)).

Lemma crashing_run : begin "first" (before crashing) = (crashed, Crashed).
Proof. vm_compute. reflexivity. Qed.



(** What undoing an abandoned handover leaves: the process it started is not in the record,
    because the record is written before the start and not after it, so [Abort] stops
    nothing, gives the claim back, and the previous owner starts a second tunnel. *)
Lemma abort_leaves_what_was_started :
  let w := fst (abort crashed) in
  snd (abort crashed) = Done (HandoverOutcome.mk "first" KindHandover false false PhaseAborted 0 "abandoned at started", None) /\
  claim w = None /\ own w = {[1]} /\ incumbent (occur w (Raised 8)) = Some 8.
Proof. vm_compute. auto. Qed.

(** A handover begun while this runtime holds the tunnel is refused the claim, and then
    removes the claim that was there: the tunnel runs on without one. *)
Lemma second_begin_gives_the_claim_away :
  let w := fst (begin "second" after) in
  is_Some (claim after) /\ own after = {[1]} /\ claim w = None /\ own w = {[1]}.
Proof. vm_compute. eauto. Qed.

(** Undoing a rehearsal that was abandoned removes the claim too. *)
Lemma aborted_rehearsal_gives_the_claim_away :
  let rehearsing := fst (Run read_claim read_session describe (transaction false) "third" true
                           (set_turns (repeat calm_turn 6 ++ [stop_turn])%list after)) in
  let w := fst (abort (set_turns [] rehearsing)) in
  is_Some (claim rehearsing) /\ own rehearsing = {[1]} /\ claim w = None /\ own w = {[1]}.
Proof. vm_compute. eauto. Qed.

(** A giving-up whose claim could not be removed takes the tunnel again. *)
Lemma giving_up_takes_it_back :
  let w := fst (Release read_claim read_session describe (transaction true) "fourth"
                  (set_turns (repeat calm_turn 15 ++ [refused_turn])%list after)) in
  acts w = (acts after ++ [Stopped 1 true; Started 1])%list /\ own w = {[1]} /\ is_Some (claim w).
Proof. vm_compute. eauto. Qed.
End HandoverSample.
