(* ===== verification/ConnStore.v ===== *)
(** * The lineage of read-model checkpoints

    [internal/connectivitycheckpoint]: [checkpoint.go], [digest.go], [store.go] and
    [resume.go].  A checkpoint is a link of a chain; the store writes its record, then an
    entry of the index, then the pointer, each staged and renamed, and a start walks
    backwards to the newest checkpoint it can prove.

    The three directories are one map from a directory and a name to a document.  Each
    operation that writes takes the next outcome of a script ([Faults]); [Options.Faults]
    are the ones the source injects itself.  [readRecord], [readIndexEntry] and
    [readPointer] are the strict decoders of [readJSON].  The mutex is not modelled. *)

From Stdlib Require Import ZArith Lia Ascii String.
From stdpp Require Import base strings list option sets gmap sorting.
From S2P Require Import Prelude GoTime Faults Spool PolicyModel PolicyCanonical Connectivity ConnAccept ConnReduce.

Open Scope string_scope.
Open Scope Z_scope.

Definition CheckpointSchema := "hexroute.connectivity-checkpoint.v1".
Definition CheckpointSchemaVersion := 1.
Definition IndexSchema := "hexroute.connectivity-checkpoint-index.v1".
Definition PointerSchema := "hexroute.connectivity-checkpoint-pointer.v1".
Definition MaxCheckpointBytes := 192 * 1024.
Definition MaxIndexEntries : nat := 64.
Definition DefaultMaxRecoveryDepth := 8.

Inductive checkpoint_error :=
| ErrInvalidCheckpoint
| ErrLineageBroken
| ErrGenerationGuard
| ErrStoreUnavailable
| ErrNotFound
| ErrInjectedFault
| ErrVerify
| ErrReduction (e : conn_error).

#[global] Instance checkpoint_error_eq_dec : EqDecision checkpoint_error.
Proof. solve_decision. Defined.

Inductive ResumeStatus := ResumeGenesis | ResumeLatest | ResumeAncestor | ResumeUnrecoverable.

Inductive ResumeReason :=
| ResumeReasonNone
| ResumeReasonNoPointer
| ResumeReasonPointerInvalid
| ResumeReasonRecordMissing
| ResumeReasonRecordInvalid
| ResumeReasonParentBroken
| ResumeReasonDigestMismatch
| ResumeReasonDepthExhausted
| ResumeReasonLineageEvicted
| ResumeReasonOther (text : string).

#[global] Instance ResumeStatus_eq_dec : EqDecision ResumeStatus.
Proof. solve_decision. Defined.
#[global] Instance ResumeReason_eq_dec : EqDecision ResumeReason.
Proof. solve_decision. Defined.

Module LineageBreak.
Record t := mk {
  AfterID : string;
  Reason : ResumeReason
}.
#[global] Instance eq_dec : EqDecision t.
Proof. solve_decision. Defined.
End LineageBreak.

Module Checkpoint.
Record t := mk {
  Schema : string;
  Version : Z;
  ID : string;
  Parent : string;
  ParentDigest : string;
  Break : option LineageBreak.t;
  PriorSnapshotDigest : string;
  Wake : option Wake.t;
  ConsumedFrom : Z;
  ConsumedTo : Z;
  SourceWatermarks : list SourceWatermark.t;
  Policy : PolicyDescriptor.t;
  ReducerID : string;
  ReducerVersion : Z;
  SnapshotGeneration : Z;
  SnapshotDigest : string;
  Snapshot : Snapshot.t;
  DiffDigest : string;
  ProposalsDigest : string;
  Digest : string
}.
#[global] Instance eq_dec : EqDecision t.
Proof. solve_decision. Defined.

(** The assignments of [schema], [version] and [digest]. *)
Definition set_address (schema : string) (version : Z) (digest : string) (c : t) : t :=
  mk schema version (ID c) (Parent c) (ParentDigest c) (Break c) (PriorSnapshotDigest c) (Wake c) (ConsumedFrom c)
    (ConsumedTo c) (SourceWatermarks c) (Policy c) (ReducerID c) (ReducerVersion c) (SnapshotGeneration c)
    (SnapshotDigest c) (Snapshot c) (DiffDigest c) (ProposalsDigest c) digest.
End Checkpoint.

Module IndexEntry.
Record t := mk {
  Schema : string;
  Sequence : Z;
  ID : string;
  Parent : string;
  Digest : string;
  Generation : Z;
  ConsumedTo : Z
}.
#[global] Instance eq_dec : EqDecision t.
Proof. solve_decision. Defined.
End IndexEntry.

Module Pointer.
Record t := mk {
  Schema : string;
  ID : string;
  Digest : string;
  Generation : Z;
  Sequence : Z;
  Overflow : bool
}.
#[global] Instance eq_dec : EqDecision t.
Proof. solve_decision. Defined.
End Pointer.

Module Resume.
Record t := mk {
  Status : ResumeStatus;
  Reason : ResumeReason;
  Checkpoint : option Checkpoint.t;
  Depth : Z;
  LineageOverflow : bool
}.
End Resume.

Definition Usable (r : Resume.t) : bool :=
  bool_decide (is_Some (Resume.Checkpoint r)) &&
  (bool_decide (Resume.Status r = ResumeLatest) || bool_decide (Resume.Status r = ResumeAncestor)).

(** Every rune outside ASCII has bytes outside the ranges, so the loop may go over bytes. *)
Definition validIdentifier (value : string) : bool :=
  negb ((slen value =? 0) || (64 <? slen value)) &&
  forallb (fun c => is_lower c || is_digit c || Ascii.eqb c "-") (chars value).

Definition LineageBreak_Validate (b : LineageBreak.t) : result checkpoint_error unit :=
  if negb (validIdentifier (LineageBreak.AfterID b)) then Err ErrInvalidCheckpoint
  else match LineageBreak.Reason b with
       | ResumeReasonPointerInvalid | ResumeReasonRecordMissing | ResumeReasonRecordInvalid | ResumeReasonParentBroken
       | ResumeReasonDigestMismatch | ResumeReasonDepthExhausted | ResumeReasonLineageEvicted => Ok tt
       | _ => Err ErrInvalidCheckpoint
       end.

Definition checkpointBody (c : Checkpoint.t) : Checkpoint.t :=
  Checkpoint.set_address (Checkpoint.Schema c) (Checkpoint.Version c) "" c.

(** The comparison of a watermark with the one that the snapshot carries. *)
Definition watermark_differs (w carried : SourceWatermark.t) : bool :=
  negb (String.eqb (SourceWatermark.Source w) (SourceWatermark.Source carried)) ||
  negb (String.eqb (SourceWatermark.BootID w) (SourceWatermark.BootID carried)) ||
  negb (SourceWatermark.LastSequence w =? SourceWatermark.LastSequence carried) ||
  negb (SourceWatermark.Conflicts w =? SourceWatermark.Conflicts carried) ||
  negb (Bool.eqb (watermark_awaits w) (watermark_awaits carried)) ||
  negb (len (SourceWatermark.PendingBaseline w) =? len (SourceWatermark.PendingBaseline carried)) ||
  negb (len (SourceWatermark.Gaps w) =? len (SourceWatermark.Gaps carried)).

(** The ancestry that a record claims. *)
Definition validate_parent (c : Checkpoint.t) : result checkpoint_error unit :=
  if String.eqb (Checkpoint.Parent c) "" then
    if negb (String.eqb (Checkpoint.ParentDigest c) "") then Err ErrInvalidCheckpoint
    else match Checkpoint.Break c with
         | None => Ok tt
         | Some b =>
             _ ← LineageBreak_Validate b;
             if String.eqb (LineageBreak.AfterID b) (Checkpoint.ID c) then Err ErrInvalidCheckpoint else Ok tt
         end
  else if bool_decide (is_Some (Checkpoint.Break c)) then Err ErrInvalidCheckpoint
  else if negb (validIdentifier (Checkpoint.Parent c)) || negb (slen (Checkpoint.ParentDigest c) =? 64)
  then Err ErrInvalidCheckpoint
  else if String.eqb (Checkpoint.Parent c) (Checkpoint.ID c) then Err ErrInvalidCheckpoint else Ok tt.

Section records.
Context `{JSON} `{!Codec Snapshot.t} `{!Codec Checkpoint.t} `{!Codec (list Proposal.t)}.

Definition proposalsDigest (proposals : list Proposal.t) : result checkpoint_error string :=
  match CanonicalSHA256 proposals with Ok (digest, _) => Ok digest | Err _ => Err ErrInvalidCheckpoint end.

(** [Snapshot.Digest] of [connectivityreduce/snapshot.go]. *)
Definition Snapshot_Digest (s : Snapshot.t) : result conn_error string :=
  match CanonicalSHA256 s with Ok (digest, _) => Ok digest | Err _ => Err ErrInvalidSnapshot end.

Definition Checkpoint_Validate (c : Checkpoint.t) : result checkpoint_error unit :=
  if negb (String.eqb (Checkpoint.Schema c) CheckpointSchema) || negb (Checkpoint.Version c =? CheckpointSchemaVersion)
  then Err ErrInvalidCheckpoint
  else if negb (validIdentifier (Checkpoint.ID c)) then Err ErrInvalidCheckpoint
  else
    _ ← validate_parent c;
    if (Checkpoint.SnapshotGeneration c =? 0) || negb (slen (Checkpoint.SnapshotDigest c) =? 64) ||
       negb (slen (Checkpoint.DiffDigest c) =? 64) || negb (slen (Checkpoint.ProposalsDigest c) =? 64)
    then Err ErrInvalidCheckpoint
    else if negb (String.eqb (Checkpoint.ReducerID c) ReducerID) || negb (Checkpoint.ReducerVersion c =? ReducerVersion)
    then Err ErrInvalidCheckpoint
    else if negb (Checkpoint.ConsumedFrom c =? 0) && (Checkpoint.ConsumedTo c <? Checkpoint.ConsumedFrom c)
    then Err ErrInvalidCheckpoint
    else if negb (is_ok (Snapshot_Validate (Checkpoint.Snapshot c))) then Err ErrInvalidCheckpoint
    else match Snapshot_Digest (Checkpoint.Snapshot c) with
         | Err _ => Err ErrInvalidCheckpoint
         | Ok snapshotDigest =>
             if negb (String.eqb snapshotDigest (Checkpoint.SnapshotDigest c)) then Err ErrInvalidCheckpoint
             else if negb (Snapshot.Generation (Checkpoint.Snapshot c) =? Checkpoint.SnapshotGeneration c)
             then Err ErrInvalidCheckpoint
             else if negb (Snapshot.ConsumedFoldPosition (Checkpoint.Snapshot c) =? Checkpoint.ConsumedTo c)
             then Err ErrInvalidCheckpoint
             else if negb (len (Checkpoint.SourceWatermarks c) =? len (Snapshot.Sources (Checkpoint.Snapshot c)))
             then Err ErrInvalidCheckpoint
             else if existsb (fun p => watermark_differs p.1 p.2)
                       (zip (Checkpoint.SourceWatermarks c) (Snapshot.Sources (Checkpoint.Snapshot c)))
             then Err ErrInvalidCheckpoint
             else match CanonicalSHA256 (checkpointBody c) with
                  | Err _ => Err ErrInvalidCheckpoint
                  | Ok (expected, _) =>
                      if negb (String.eqb expected (Checkpoint.Digest c)) then Err ErrInvalidCheckpoint else Ok tt
                  end
         end.

Definition Seal (c : Checkpoint.t) : result checkpoint_error Checkpoint.t :=
  let c := Checkpoint.set_address CheckpointSchema CheckpointSchemaVersion (Checkpoint.Digest c) c in
  match CanonicalSHA256 (checkpointBody c) with
  | Err _ => Err ErrInvalidCheckpoint
  | Ok (digest, _) =>
      let c := Checkpoint.set_address CheckpointSchema CheckpointSchemaVersion digest c in
      _ ← Checkpoint_Validate c; Ok c
  end.
End records.

(** ** The store *)

Inductive Operation := OpCheckpoint | OpIndex | OpPointer.
Inductive Boundary :=
| BeforeFileSync | AfterFileSync | BeforeRename | AfterRename | BeforeDirectorySync | AfterDirectorySync.

#[global] Instance Operation_eq_dec : EqDecision Operation.
Proof. solve_decision. Defined.
#[global] Instance Boundary_eq_dec : EqDecision Boundary.
Proof. solve_decision. Defined.

(** [Store]: its bound and its faults; the directory [root] is the one that the world is. *)
Module Store.
Record t := mk {
  depth : nat;
  faults : list (Operation * Boundary)
}.
End Store.

Definition rootDir := "".
Definition checkpointDir := "checkpoints".
Definition indexDir := "index".
Definition pointerName := "latest.json".

Definition fires (store : Store.t) (operation : Operation) (boundary : Boundary) : bool :=
  bool_decide ((operation, boundary) ∈ Store.faults store).

(** [fmt.Sprintf("%020d.json", sequence)]. *)
Definition indexName (sequence : Z) : string := of_chars (digits 20 sequence) ++ ".json".
Definition recordName (id : string) : string := id ++ ".json".

(** [latest]: what there is to append onto. *)
Module Latest.
Record t := mk {
  present : bool;
  id : string;
  digest : string;
  generation : Z;
  sequence : Z;
  overflow : bool
}.
End Latest.

Section store.
Context `{JSON} `{!Codec Snapshot.t} `{!Codec Checkpoint.t} `{!Codec IndexEntry.t} `{!Codec Pointer.t}.
Context (torn : Doc) (readRecord : Doc -> option Checkpoint.t) (readIndexEntry : Doc -> option IndexEntry.t)
  (readPointer : Doc -> option Pointer.t).

Abbreviation Files := (gmap (string * string) Doc) (only parsing).

Record World := mkWorld {
  files : Files;
  script : list Faults.Outcome
}.

Abbreviation Prog := (M World checkpoint_error).

(** One operation on the disk; [None] is its failure on these files. *)
Definition perform (op : Files -> option Files) : Prog unit := fun w =>
  match script w with
  | Crash :: _ => (w, Crashed)
  | Refused :: rest => (mkWorld (files w) rest, Failed ErrStoreUnavailable)
  | outcomes =>
      match op (files w) with
      | Some d => (mkWorld d (tail outcomes), Done tt)
      | None => (mkWorld (files w) (tail outcomes), Failed ErrStoreUnavailable)
      end
  end.

Definition remove (path : string * string) : Prog unit :=
  perform (fun d => match d !! path with Some _ => Some (delete path d) | None => None end).

(** [os.Remove] where a file that is not there is no failure. *)
Definition remove_any (path : string * string) : Prog unit := perform (fun d => Some (delete path d)).

(** [O_CREATE|O_EXCL]; until it is written the file is torn. *)
Definition create (path : string * string) : Prog unit :=
  perform (fun d => match d !! path with Some _ => None | None => Some (<[path := torn]> d) end).

Definition write (path : string * string) (content : Doc) : Prog unit := perform (fun d => Some (<[path := content]> d)).

Definition rename (from to : string * string) : Prog unit :=
  perform (fun d => match d !! from with Some f => Some (<[to := f]> (delete from d)) | None => None end).

Definition renameNoReplace (from to : string * string) : Prog unit :=
  perform (fun d => match d !! from, d !! to with
                    | Some f, None => Some (<[to := f]> (delete from d))
                    | _, _ => None
                    end).

(** [file.Sync], [file.Close] and the calls of [syncDirectory]. *)
Definition flush : Prog unit := perform Some.

Definition inject (store : Store.t) (operation : Operation) (boundary : Boundary) : Prog unit :=
  if fires store operation boundary then fail ErrInjectedFault else mret tt.

Definition syncDirectory : Prog unit := _ ← flush; flush.

Definition stagedName (name : string) : string := "." ++ name ++ ".tmp".

Definition writeRecord (store : Store.t) (operation : Operation) (directory name : string) (content : Doc) (replace : bool) :
    Prog unit :=
  let staged := (directory, stagedName name) in
  let target := (directory, name) in
  _ ← ignore (remove staged);
  _ ← create staged;
  _ ← on_error (ignore (remove staged)) (write staged content);
  _ ← inject store operation BeforeFileSync;
  _ ← flush;
  _ ← flush;
  _ ← inject store operation AfterFileSync;
  _ ← inject store operation BeforeRename;
  _ ← on_error (ignore (remove staged)) (if replace then rename staged target else renameNoReplace staged target);
  _ ← inject store operation AfterRename;
  _ ← inject store operation BeforeDirectorySync;
  _ ← syncDirectory;
  inject store operation AfterDirectorySync.

Definition readJSON {T} (read : Doc -> option T) (d : Files) (path : string * string) : result checkpoint_error T :=
  match d !! path with
  | None => Err ErrNotFound
  | Some content =>
      if (doc_len content =? 0) || (MaxCheckpointBytes <? doc_len content) then Err ErrInvalidCheckpoint
      else match read content with None => Err ErrInvalidCheckpoint | Some value => Ok value end
  end.

Definition pointerLocked (d : Files) : result checkpoint_error Pointer.t :=
  pointer ← readJSON readPointer d (rootDir, pointerName);
  if negb (String.eqb (Pointer.Schema pointer) PointerSchema) || negb (validIdentifier (Pointer.ID pointer)) ||
     negb (slen (Pointer.Digest pointer) =? 64) || (Pointer.Generation pointer =? 0) || (Pointer.Sequence pointer =? 0)
  then Err ErrInvalidCheckpoint else Ok pointer.

Definition Load (d : Files) (id : string) : result checkpoint_error Checkpoint.t :=
  if negb (validIdentifier id) then Err ErrInvalidCheckpoint
  else
    checkpoint ← readJSON readRecord d (checkpointDir, recordName id);
    _ ← Checkpoint_Validate checkpoint;
    if negb (String.eqb (Checkpoint.ID checkpoint) id) then Err ErrInvalidCheckpoint else Ok checkpoint.

(** [os.ReadDir]: sorted by name. *)
Definition listing (d : Files) (directory : string) : list string :=
  sort_strings (omap (fun path => if String.eqb path.1 directory then Some path.2 else None) (map_to_list d).*1).

(** The names that the loop of [indexLocked] does not skip. *)
Definition index_file (name : string) : bool :=
  negb (has_prefix "." name) && has_suffix ".json" name &&
  bool_decide (is_Some (ParseUint (take (String.length name - 5) (chars name)))).

Definition by_index (x y : IndexEntry.t) : bool := IndexEntry.Sequence x <? IndexEntry.Sequence y.

Definition read_entry (d : Files) (name : string) : result checkpoint_error IndexEntry.t :=
  entry ← readJSON readIndexEntry d (indexDir, name);
  if negb (String.eqb (IndexEntry.Schema entry) IndexSchema) || negb (validIdentifier (IndexEntry.ID entry)) ||
     negb (slen (IndexEntry.Digest entry) =? 64)
  then Err ErrInvalidCheckpoint else Ok entry.

Definition indexLocked (d : Files) : result checkpoint_error (list IndexEntry.t) :=
  entries ← mapM (read_entry d) (List.filter index_file (listing d indexDir));
  Ok (sort_slice by_index entries).

Definition latestLocked (d : Files) : result checkpoint_error Latest.t :=
  match pointerLocked d with
  | Ok pointer =>
      Ok (Latest.mk true (Pointer.ID pointer) (Pointer.Digest pointer) (Pointer.Generation pointer) (Pointer.Sequence pointer)
            (Pointer.Overflow pointer))
  | Err _ =>
      entries ← indexLocked d;
      match head entries, last entries with
      | Some oldest, Some newest =>
          Ok (Latest.mk true (IndexEntry.ID newest) (IndexEntry.Digest newest) (IndexEntry.Generation newest)
                (IndexEntry.Sequence newest) (1 <? IndexEntry.Sequence oldest))
      | _, _ => Ok (Latest.mk false "" "" 0 0 false)
      end
  end.

(** What [Append] asks of a checkpoint before it writes. *)
Definition generation_guard (pointer : Latest.t) (c : Checkpoint.t) : result checkpoint_error unit :=
  if Latest.present pointer then
    if String.eqb (Checkpoint.Parent c) "" then
      match Checkpoint.Break c with
      | None => Err ErrGenerationGuard
      | Some b => if negb (String.eqb (LineageBreak.AfterID b) (Latest.id pointer)) then Err ErrGenerationGuard else Ok tt
      end
    else if bool_decide (is_Some (Checkpoint.Break c)) then Err ErrGenerationGuard
    else if negb (String.eqb (Checkpoint.Parent c) (Latest.id pointer)) then Err ErrGenerationGuard
    else if negb (String.eqb (Checkpoint.ParentDigest c) (Latest.digest pointer)) then Err ErrGenerationGuard
    else if Checkpoint.SnapshotGeneration c <? Latest.generation pointer then Err ErrGenerationGuard
    else Ok tt
  else if negb (String.eqb (Checkpoint.Parent c) "") then Err ErrGenerationGuard
  else if bool_decide (is_Some (Checkpoint.Break c)) then Err ErrGenerationGuard
  else Ok tt.

Definition evictIndexLocked : Prog bool :=
  w ← get;
  entries ← lift (indexLocked (files w));
  if (length entries <=? MaxIndexEntries)%nat then mret false
  else
    _ ← each (fun entry => remove_any (indexDir, indexName (IndexEntry.Sequence entry)))
          (take (length entries - MaxIndexEntries) entries);
    _ ← syncDirectory;
    mret true.

Definition encoded_with {T} (marshal : T -> option Doc) (value : T) : result checkpoint_error Doc :=
  of_option ErrInvalidCheckpoint (marshal value).

Definition entry_of (c : Checkpoint.t) (sequence : Z) : IndexEntry.t :=
  IndexEntry.mk IndexSchema sequence (Checkpoint.ID c) (Checkpoint.Parent c) (Checkpoint.Digest c)
    (Checkpoint.SnapshotGeneration c) (Checkpoint.ConsumedTo c).

Definition pointer_of (c : Checkpoint.t) (sequence : Z) (overflow : bool) : Pointer.t :=
  Pointer.mk PointerSchema (Checkpoint.ID c) (Checkpoint.Digest c) (Checkpoint.SnapshotGeneration c) sequence overflow.

Definition Append (store : Store.t) (c : Checkpoint.t) : Prog unit :=
  _ ← lift (Checkpoint_Validate c);
  w ← get;
  pointer ← lift (latestLocked (files w));
  _ ← lift (generation_guard pointer c);
  encoded ← lift (encoded_with json_Marshal c);
  _ ← (if MaxCheckpointBytes <? doc_len encoded then fail ErrInvalidCheckpoint else mret tt);
  _ ← writeRecord store OpCheckpoint checkpointDir (recordName (Checkpoint.ID c)) encoded false;
  let sequence := u64 (Latest.sequence pointer + 1) in
  encodedEntry ← lift (encoded_with json_Marshal (entry_of c sequence));
  _ ← writeRecord store OpIndex indexDir (indexName sequence) encodedEntry false;
  overflow ← evictIndexLocked;
  encodedPointer ← lift (encoded_with json_Marshal (pointer_of c sequence (Latest.overflow pointer || overflow)));
  writeRecord store OpPointer rootDir pointerName encodedPointer true.

(** [Open]: the three directories. *)
Definition Open (absolute : bool) (maxRecoveryDepth : Z) (faults : list (Operation * Boundary)) : Prog Store.t :=
  if negb absolute then fail ErrStoreUnavailable
  else
    let depth := if maxRecoveryDepth <=? 0 then DefaultMaxRecoveryDepth else maxRecoveryDepth in
    _ ← flush; _ ← flush; _ ← flush;
    mret (Store.mk (Z.to_nat depth) faults).

(** ** Resuming *)

(** The walk of [proveLocked]; [remaining] is the bound less the steps taken. *)
Fixpoint prove_ancestry (remaining : nat) (d : Files) (overflow : bool) (current : Checkpoint.t) : ResumeReason :=
  if String.eqb (Checkpoint.Parent current) "" then ResumeReasonNone
  else match remaining with
       | O => ResumeReasonNone
       | S rest =>
           match Load d (Checkpoint.Parent current) with
           | Err ErrNotFound => if overflow then ResumeReasonNone else ResumeReasonParentBroken
           | Err _ => ResumeReasonRecordInvalid
           | Ok parent =>
               if negb (String.eqb (Checkpoint.Digest parent) (Checkpoint.ParentDigest current)) then ResumeReasonParentBroken
               else prove_ancestry rest d overflow parent
           end
       end.

Definition entry_differs (c : Checkpoint.t) (e : IndexEntry.t) : bool :=
  negb (String.eqb (Checkpoint.Digest c) (IndexEntry.Digest e)) ||
  negb (String.eqb (Checkpoint.Parent c) (IndexEntry.Parent e)) ||
  negb (Checkpoint.SnapshotGeneration c =? IndexEntry.Generation e) ||
  negb (Checkpoint.ConsumedTo c =? IndexEntry.ConsumedTo e).

Definition proveLocked (store : Store.t) (d : Files) (entry : IndexEntry.t) (overflow : bool) :
    option Checkpoint.t * ResumeReason :=
  match Load d (IndexEntry.ID entry) with
  | Err ErrNotFound => (None, ResumeReasonRecordMissing)
  | Err _ => (None, ResumeReasonRecordInvalid)
  | Ok checkpoint =>
      if entry_differs checkpoint entry then (None, ResumeReasonDigestMismatch)
      else match prove_ancestry (Store.depth store) d overflow checkpoint with
           | ResumeReasonNone => (Some checkpoint, ResumeReasonNone)
           | failure => (None, failure)
           end
  end.

(** The loop of [searchLocked], over the entries from the starting one backwards;
    [remaining] is the bound plus one, less [depth]. *)
Fixpoint search (store : Store.t) (d : Files) (remaining : nat) (depth : Z) (candidates : list IndexEntry.t)
    (overflow : bool) (initial reason firstFailure : ResumeReason) : Resume.t :=
  match remaining with
  | O => Resume.mk ResumeUnrecoverable ResumeReasonDepthExhausted None (Z.of_nat (Store.depth store)) overflow
  | S rest =>
      match candidates with
      | [] =>
          let reason := if bool_decide (reason = ResumeReasonNone) then ResumeReasonRecordMissing else reason in
          let reason := if overflow then ResumeReasonLineageEvicted else reason in
          Resume.mk ResumeUnrecoverable reason None depth overflow
      | entry :: older =>
          let '(candidate, failure) := proveLocked store d entry overflow in
          if bool_decide (failure = ResumeReasonNone) then
            let status := if (depth =? 0) && bool_decide (initial = ResumeReasonNone) then ResumeLatest else ResumeAncestor in
            let reported := if bool_decide (initial = ResumeReasonNone) then firstFailure else initial in
            Resume.mk status reported candidate depth overflow
          else
            let firstFailure := if bool_decide (firstFailure = ResumeReasonNone) then failure else firstFailure in
            let reason := if bool_decide (reason = ResumeReasonNone) || (0 <? depth) then failure else reason in
            search store d rest (depth + 1) older overflow initial reason firstFailure
      end
  end.

(** [candidates] are [entries\[start\]], [entries\[start-1\]] and so on. *)
Definition searchLocked (store : Store.t) (d : Files) (candidates : list IndexEntry.t) (overflow : bool)
    (initial : ResumeReason) : Resume.t :=
  search store d (S (Store.depth store)) 0 candidates overflow initial initial ResumeReasonNone.

(** The entries up to the last one of the identity, newest first; all of them where no
    entry has it. *)
Fixpoint from_identity (id : string) (newest_first : list IndexEntry.t) : option (list IndexEntry.t) :=
  match newest_first with
  | [] => None
  | entry :: older => if String.eqb (IndexEntry.ID entry) id then Some newest_first else from_identity id older
  end.

Definition ResumeFrom (store : Store.t) (d : Files) : result checkpoint_error Resume.t :=
  match pointerLocked d with
  | Err ErrNotFound =>
      entries ← indexLocked d;
      if (length entries =? 0)%nat then Ok (Resume.mk ResumeGenesis ResumeReasonNone None 0 false)
      else Ok (searchLocked store d (rev entries) false ResumeReasonNoPointer)
  | Err _ =>
      entries ← indexLocked d;
      if (length entries =? 0)%nat then Ok (Resume.mk ResumeUnrecoverable ResumeReasonPointerInvalid None 0 false)
      else Ok (searchLocked store d (rev entries) false ResumeReasonPointerInvalid)
  | Ok pointer =>
      entries ← indexLocked d;
      let candidates := default (rev entries) (from_identity (Pointer.ID pointer) (rev entries)) in
      let resume := searchLocked store d candidates (Pointer.Overflow pointer) ResumeReasonNone in
      if bool_decide (Resume.Status resume = ResumeAncestor) && (Resume.Depth resume =? 0)
      then Ok (Resume.mk ResumeLatest (Resume.Reason resume) (Resume.Checkpoint resume) (Resume.Depth resume)
                 (Resume.LineageOverflow resume))
      else Ok resume
  end.
End store.

(** ** What a start may resume from *)

Section resuming.
Context `{JSON} `{!Codec Snapshot.t} `{!Codec Checkpoint.t} `{!Codec IndexEntry.t} `{!Codec Pointer.t}.
Context (readRecord : Doc -> option Checkpoint.t) (readIndexEntry : Doc -> option IndexEntry.t)
  (readPointer : Doc -> option Pointer.t).

Abbreviation Files := (gmap (string * string) Doc) (only parsing).
Abbreviation Load := (Load readRecord).
Abbreviation indexLocked := (indexLocked readIndexEntry).
Abbreviation pointerLocked := (pointerLocked readPointer).
Abbreviation ResumeFrom := (ResumeFrom readRecord readIndexEntry readPointer).

(** The chain behind a checkpoint, for [n] links: each parent is stored, valid, and has
    the digest that its child names, up to the beginning of the lineage, or to a record
    that was evicted. *)
Inductive ancestry (d : Files) (overflow : bool) : nat -> Checkpoint.t -> Prop :=
| ancestry_begins n c : Checkpoint.Parent c = "" -> ancestry d overflow n c
| ancestry_bound c : ancestry d overflow 0 c
| ancestry_evicted n c : overflow = true -> Load d (Checkpoint.Parent c) = Err ErrNotFound -> ancestry d overflow (S n) c
| ancestry_link n c parent : Load d (Checkpoint.Parent c) = Ok parent ->
    Checkpoint.Digest parent = Checkpoint.ParentDigest c -> ancestry d overflow n parent -> ancestry d overflow (S n) c.

Definition provable (store : Store.t) (d : Files) (overflow : bool) (e : IndexEntry.t) (c : Checkpoint.t) : Prop :=
  Load d (IndexEntry.ID e) = Ok c /\ entry_differs c e = false /\ ancestry d overflow (Store.depth store) c.

Definition unprovable (store : Store.t) (d : Files) (overflow : bool) (e : IndexEntry.t) : Prop :=
  forall c, ~ provable store d overflow e c.

Lemma Load_Ok d id c : Load d id = Ok c ->
  Checkpoint_Validate c = Ok tt /\ Checkpoint.ID c = id /\ validIdentifier id = true.
Proof.
  unfold ConnStore.Load. destruct (validIdentifier id); simpl; [|done]. intros (x & _ & ([] & Hv & Hid)%bind_Ok)%bind_Ok.
  destruct (String.eqb_spec (Checkpoint.ID x) id); simpl in Hid; [|done]. by injection Hid as <-.
Qed.

Lemma Load_empty d : Load d "" = Err ErrInvalidCheckpoint.
Proof. reflexivity. Qed.

Lemma prove_ancestry_spec n d overflow c : prove_ancestry readRecord n d overflow c = ResumeReasonNone <-> ancestry d overflow n c.
Proof.
  revert c. induction n as [|n IH]; intros c; simpl; destruct (String.eqb_spec (Checkpoint.Parent c) "") as [He|He].
  1-3: split; [by constructor|done].
  destruct (ConnStore.Load readRecord d (Checkpoint.Parent c)) as [parent|e] eqn:Hl.
  - destruct (String.eqb_spec (Checkpoint.Digest parent) (Checkpoint.ParentDigest c)) as [Hd|Hd]; simpl.
    + rewrite IH. split; [by eapply ancestry_link|]. intros Ha. inversion Ha; subst; congruence.
    + split; [done|]. intros Ha. inversion Ha; subst; congruence.
  - destruct e; try (split; [done|intros Ha; inversion Ha; subst; congruence]).
    destruct overflow; (split; [try done|intros Ha; inversion Ha; subst; congruence || done]). intros _. by apply ancestry_evicted.
Qed.

Lemma proveLocked_spec store d e overflow :
  (exists c, proveLocked readRecord store d e overflow = (Some c, ResumeReasonNone) /\ provable store d overflow e c) \/
  (exists failure, failure <> ResumeReasonNone /\ proveLocked readRecord store d e overflow = (None, failure) /\
     unprovable store d overflow e).
Proof.
  unfold proveLocked, provable, unprovable.
  destruct (ConnStore.Load readRecord d (IndexEntry.ID e)) as [c|err] eqn:Hl.
  - destruct (entry_differs c e) eqn:He.
    + right. eexists. split_and!; [|reflexivity|]; [done|]. intros c' (Hc & He' & _). congruence.
    + pose proof (prove_ancestry_spec (Store.depth store) d overflow c) as Ha.
      destruct (prove_ancestry _ _ _ _ _) eqn:Hp; [left; exists c; split_and!; [done..|by apply Ha]|right..];
        (eexists; split_and!; [|reflexivity|]; [done|]; intros c' (Hc & _ & Hc'); assert (c' = c) as -> by congruence; by apply Ha in Hc').
  - right. destruct err; (eexists; split_and!; [|reflexivity|]; [done|]; intros c' [Hc _]; congruence).
Qed.

(** The outcome of a search: the first candidate that can be proven, or none. *)
Definition found (store : Store.t) (d : Files) (overflow : bool) (bound : nat) (depth : Z) (candidates : list IndexEntry.t)
    (r : Resume.t) : Prop :=
  match Resume.Checkpoint r with
  | Some c => exists newer e older, candidates = (newer ++ e :: older)%list /\ (length newer < bound)%nat /\
      Resume.Depth r = depth + len newer /\ provable store d overflow e c /\ Forall (unprovable store d overflow) newer
  | None => Forall (unprovable store d overflow) (take bound candidates)
  end.

Lemma search_found store d bound depth candidates overflow initial reason firstFailure :
  let r := search readRecord store d bound depth candidates overflow initial reason firstFailure in
  found store d overflow bound depth candidates r /\
  (Resume.Checkpoint r = None -> Resume.Status r = ResumeUnrecoverable) /\
  (Resume.Checkpoint r <> None -> Resume.Status r =
     if (Resume.Depth r =? 0) && bool_decide (initial = ResumeReasonNone) then ResumeLatest else ResumeAncestor).
Proof.
  revert depth candidates reason firstFailure. induction bound as [|bound IH]; intros depth candidates reason firstFailure; simpl.
  { split_and!; [by apply Forall_nil|done..]. }
  destruct candidates as [|e older]; simpl; [split_and!; [by apply Forall_nil|done..]|].
  destruct (proveLocked_spec store d e overflow) as [(c & -> & Hc)|(failure & Hf & -> & Hu)].
  - rewrite bool_decide_eq_true_2 by done. split_and!; [|done..]. exists [], e, older. simpl. split_and!; [done|lia|lia|done..].
  - rewrite (bool_decide_eq_false_2 (failure = _)) by done.
    specialize (IH (depth + 1) older (if bool_decide (reason = ResumeReasonNone) || (0 <? depth) then failure else reason)
      (if bool_decide (firstFailure = ResumeReasonNone) then failure else firstFailure)).
    destruct IH as (IH1 & IH2 & IH3). split_and!; [|done..]. unfold found in *.
    match goal with |- match Resume.Checkpoint ?r with _ => _ end => destruct (Resume.Checkpoint r) as [c|] end.
    + destruct IH1 as (newer & e' & older' & -> & Hl & -> & Hc & Hn). exists (e :: newer), e', older'. simpl.
      split_and!; [done|lia|lia|done|by constructor].
    + simpl. by constructor.
Qed.

(** Where the search begins: at the entry that the pointer names, or at the newest one. *)
Definition begins (d : Files) (candidates : list IndexEntry.t) (overflow : bool) : Prop :=
  exists entries, indexLocked d = Ok entries /\
    match pointerLocked d with
    | Ok p => overflow = Pointer.Overflow p /\
        candidates = default (rev entries) (from_identity (Pointer.ID p) (rev entries))
    | Err _ => overflow = false /\ candidates = rev entries
    end.

(** What a start may answer. *)
Definition resumes (store : Store.t) (d : Files) (r : Resume.t) : Prop :=
  exists candidates overflow, begins d candidates overflow /\
    found store d overflow (S (Store.depth store)) 0 candidates r /\
    Usable r = bool_decide (is_Some (Resume.Checkpoint r)) /\
    (forall c, Resume.Checkpoint r = Some c -> Checkpoint_Validate c = Ok tt /\
       (Resume.Status r = ResumeLatest <-> Resume.Depth r = 0 /\ is_ok (pointerLocked d) = true)).

Lemma search_resumes store d candidates overflow initial : begins d candidates overflow ->
  (initial = ResumeReasonNone <-> is_ok (pointerLocked d) = true) ->
  resumes store d (searchLocked readRecord store d candidates overflow initial).
Proof.
  intros Hb Hi. unfold searchLocked. set (r := search _ _ _ _ _ _ _ _ _ _).
  destruct (search_found store d (S (Store.depth store)) 0 candidates overflow initial initial ResumeReasonNone) as (Hf & Hn & Hs).
  exists candidates, overflow. split_and!; [done..| |].
  - unfold Usable. fold r in Hs. destruct (Resume.Checkpoint r) as [c|]; [|done]. rewrite Hs by done. by destruct (_ && _).
  - intros c Hc. fold r in Hf, Hs. unfold found in Hf. rewrite Hc in Hf. destruct Hf as (newer & e & older & _ & _ & _ & (Hl & _) & _).
    split; [by apply Load_Ok in Hl as (? & _)|]. rewrite Hs by congruence.
    destruct (Z.eqb_spec (Resume.Depth r) 0); simpl; [|split; [done|lia]].
    case_bool_decide; split; try done; [tauto|]. intros [_ Hp%Hi]. done.
Qed.

Lemma nothing_resumes store d status reason : begins d [] false -> status <> ResumeLatest -> status <> ResumeAncestor ->
  resumes store d (Resume.mk status reason None 0 false).
Proof. intros Hb H1 H2. exists [], false. split_and!; [done|by apply Forall_nil|done..]. Qed.

End resuming.
