(* ===== verification/ConnStoreSafety.v ===== *)
(** * Checkpoints survive interruption

    The store of [ConnStore] under every refusal and every crash: what a start finds is
    the last checkpoint whose [Append] returned, or one whose [Append] was interrupted
    after it. *)

From Stdlib Require Import ZArith Lia Ascii String.
From stdpp Require Import base strings list option sets gmap sorting.
From S2P Require Import Prelude GoTime Faults Spool PolicyModel PolicyCanonical Connectivity ConnAccept ConnReduce ConnAggregate ConnStore.

Open Scope string_scope.
Open Scope Z_scope.

(** ** Names *)

Lemma chars_indexName s : chars (indexName s) = (digits 20 s ++ chars ".json")%list.
Proof. unfold indexName. by rewrite chars_app, chars_of_chars. Qed.

Lemma indexName_inj s s' : sequence_ok s -> sequence_ok s' -> indexName s = indexName s' -> s = s'.
Proof.
  intros Hs Hs' Hn%(f_equal chars). rewrite !chars_indexName in Hn. apply app_inv_tail in Hn.
  apply (f_equal digits_value) in Hn. unfold sequence_ok, max_u64 in *. rewrite !digits_value_digits, !Z.mod_small in Hn by lia. done.
Qed.

Lemma digits_nonempty w z : w <> 0%nat -> exists c l, digits w z = c :: l /\ is_digit c = true.
Proof.
  intros Hw. pose proof (digits_are_digits w z) as Hd. pose proof (digits_length w z) as Hl.
  destruct (digits w z) as [|c l]; [simpl in Hl; congruence|]. exists c, l. split; [done|]. by inversion Hd.
Qed.

(** A name that begins with another character than a dot. *)
Definition shown (name : string) : bool := negb (has_prefix "." name).

Lemma shown_chars name c l : chars name = c :: l -> c <> "."%char -> shown name = true.
Proof.
  intros Hc Hn. destruct name as [|c' name]; [discriminate Hc|]. injection Hc as -> _. unfold shown, has_prefix. cbn [String.prefix].
  destruct (ascii_dec "." c); [congruence|done].
Qed.

Lemma indexName_shown s : shown (indexName s) = true.
Proof.
  destruct (digits_nonempty 20 s ltac:(done)) as (c & l & Hd & Hc).
  eapply (shown_chars _ c (l ++ chars ".json")%list); [by rewrite chars_indexName, Hd|]. by intros ->.
Qed.

Lemma indexName_is_index s : sequence_ok s -> index_file (indexName s) = true.
Proof.
  intros Hs. unfold index_file. pose proof (indexName_shown s) as Hsh. unfold shown in Hsh. rewrite Hsh.
  rewrite (proj2 (has_suffix_spec ".json" (indexName s))) by (eexists; apply chars_indexName).
  replace (String.length (indexName s) - 5)%nat with 20%nat
    by (rewrite <- length_chars, chars_indexName, length_app, digits_length; done).
  rewrite chars_indexName, take_app_length' by (by rewrite digits_length). unfold ParseUint.
  destruct (digits_nonempty 20 s ltac:(done)) as (c & l & Hd & Hc).
  replace (forallb is_digit (digits 20 s)) with true
    by (symmetry; apply forallb_forall; intros x Hx%list_elem_of_In; by eapply Forall_forall in Hx; [|apply digits_are_digits]).
  rewrite digits_value_digits, Z.mod_small by (unfold sequence_ok, max_u64 in Hs; lia). rewrite Hd. simpl.
  unfold sequence_ok in Hs. rewrite (proj2 (Z.ltb_ge _ _)) by lia. done.
Qed.

Lemma index_file_shown name : index_file name = true -> shown name = true.
Proof. unfold index_file, shown. intros Hi. by apply andb_true_iff in Hi as [[Hi _]%andb_true_iff _]. Qed.

Lemma recordName_shown id : validIdentifier id = true -> shown (recordName id) = true.
Proof.
  unfold validIdentifier. destruct id as [|c id]; [done|]. intros [_ Hc]%andb_true_iff. simpl in Hc. apply andb_true_iff in Hc as [Hc _].
  eapply (shown_chars _ c); [reflexivity|]. by intros ->.
Qed.

Lemma recordName_inj a b : recordName a = recordName b -> a = b.
Proof.
  unfold recordName. intros Hn%(f_equal chars). rewrite !chars_app in Hn. apply app_inv_tail in Hn. by apply (inj chars).
Qed.

(** What the encoders and decoders are documented to do. *)
Class LineageLaws `{JSON} `{!Codec Snapshot.t} `{!Codec Checkpoint.t} `{!Codec IndexEntry.t} `{!Codec Pointer.t}
    (readRecord : Doc -> option Checkpoint.t) (readIndexEntry : Doc -> option IndexEntry.t)
    (readPointer : Doc -> option Pointer.t) := {
  digest_length : forall d : Doc, slen (SHA256Hex d) = 64;
  record_reads : forall c d, exact c = true -> json_Marshal c = Some d -> readRecord d = Some c /\ 0 < doc_len d;
  entry_reads : forall c s d, exact c = true -> Checkpoint_Validate c = Ok tt -> sequence_ok s ->
    json_Marshal (entry_of c s) = Some d -> readIndexEntry d = Some (entry_of c s) /\ 0 < doc_len d <= MaxCheckpointBytes;
  pointer_reads : forall c s o d, exact c = true -> Checkpoint_Validate c = Ok tt -> sequence_ok s ->
    json_Marshal (pointer_of c s o) = Some d -> readPointer d = Some (pointer_of c s o) /\ 0 < doc_len d <= MaxCheckpointBytes
}.

Section lineage.
Context `{JSON} `{!Codec Snapshot.t} `{!Codec Checkpoint.t} `{!Codec IndexEntry.t} `{!Codec Pointer.t}.
Context (torn : Doc) (readRecord : Doc -> option Checkpoint.t) (readIndexEntry : Doc -> option IndexEntry.t)
  (readPointer : Doc -> option Pointer.t).

Abbreviation Files := (gmap (string * string) Doc) (only parsing).
Abbreviation Load := (Load readRecord).
Abbreviation indexLocked := (indexLocked readIndexEntry).
Abbreviation pointerLocked := (pointerLocked readPointer).
Abbreviation latestLocked := (latestLocked readIndexEntry readPointer).
Abbreviation ResumeFrom := (ResumeFrom readRecord readIndexEntry readPointer).
Abbreviation ancestry := (ancestry readRecord).

(** ** Staged files are not read *)

Definition same (d d' : Files) : Prop := forall path, shown path.2 = true -> d !! path = d' !! path.

#[local] Instance same_equivalence : Equivalence same.
Proof. split; [done|by intros d d' Hs p Hp; rewrite Hs|]. intros d d' d'' H1 H2 p Hp. by rewrite H1, H2. Qed.

Lemma same_insert d d' path doc : same d d' -> same (<[path := doc]> d) (<[path := doc]> d').
Proof. intros Hs p Hp. destruct (decide (path = p)) as [<-|]; [by rewrite !lookup_insert_eq|]. rewrite !lookup_insert_ne by done. by apply Hs. Qed.

Lemma same_hidden_insert d directory name doc : shown name = false -> same (<[(directory, name) := doc]> d) d.
Proof. intros Hn p Hp. rewrite lookup_insert_ne; [done|]. intros <-. simpl in Hp. congruence. Qed.

Lemma same_hidden_delete d directory name : shown name = false -> same (delete (directory, name) d) d.
Proof. intros Hn p Hp. rewrite lookup_delete_ne; [done|]. intros <-. simpl in Hp. congruence. Qed.

Lemma staged_hidden name : shown (stagedName name) = false.
Proof. unfold shown, stagedName, has_prefix. cbn. by destruct name. Qed.

Lemma perform_triple op (P Q F C : World -> Prop) :
  (forall w, P w -> forall s d, op (files w) = Some d -> Q (mkWorld d s)) ->
  (forall w, P w -> forall s, F (mkWorld (files w) s)) -> (forall w, P w -> C w) ->
  triple P (perform op) (fun _ => Q) F C.
Proof.
  intros HQ HF HC w Hw. unfold perform. destruct (script w) as [|[] rest]; try (by apply HC); try (by apply HF);
    destruct (op (files w)) as [d|] eqn:Ho; try (by eapply HQ); by apply HF.
Qed.

Definition at_files (d : Files) (w : World) : Prop := same (files w) d.

Lemma staying_triple d op F : (forall x x', op x = Some x' -> same x' x) ->
  (forall w, at_files d w -> F w) -> triple (at_files d) (perform op) (fun _ => at_files d) F F.
Proof.
  intros Hop HF. apply perform_triple; [|by intros w Hw s; apply HF|exact HF].
  intros w Hw s x Hx. apply Hop in Hx. unfold at_files in *. simpl. by rewrite Hx.
Qed.

Lemma inject_triple store operation boundary d (F C : World -> Prop) : (forall w, at_files d w -> F w) ->
  triple (at_files d) (inject store operation boundary) (fun _ => at_files d) F C.
Proof. intros HF. unfold inject. destruct (fires _ _ _); [by apply triple_fail|by apply triple_ret]. Qed.

(** The state in which the content is staged, and the one in which it is published. *)
Definition staged_at (d : Files) (path : string * string) (content : Doc) (w : World) : Prop :=
  at_files d w /\ files w !! path = Some content.

Definition wrote (replace : bool) (d : Files) (path : string * string) (content : Doc) (w : World) : Prop :=
  at_files (<[path := content]> d) w /\ (replace = false -> d !! path = None).

Lemma keeping_triple (P F : World -> Prop) : (forall w s, P w -> P (mkWorld (files w) s)) -> (forall w, P w -> F w) ->
  triple P flush (fun _ => P) F F.
Proof. intros HP HF. apply perform_triple; [|by intros w Hw s; apply HF, HP|exact HF]. intros w Hw s d [= <-]. by apply HP. Qed.

Lemma inject_keeps store operation boundary (P F C : World -> Prop) : (forall w, P w -> F w) ->
  triple P (inject store operation boundary) (fun _ => P) F C.
Proof. intros HF. unfold inject. destruct (fires _ _ _); [by apply triple_fail|by apply triple_ret]. Qed.

Lemma drop_staged_triple d directory name (F : World -> Prop) : (forall w, at_files d w -> F w) ->
  triple (at_files d) (ignore (remove (directory, stagedName name))) (fun _ => at_files d) F F.
Proof.
  intros HF. apply triple_ignore. eapply triple_conseq; [apply (staying_triple d _ (at_files d))|done|done|done|exact HF]; [|done].
  intros x x'. destruct (x !! _); [|done]. intros [= <-]. apply same_hidden_delete, staged_hidden.
Qed.

Lemma rename_staged_triple (replace : bool) d directory name content : shown name = true ->
  triple (staged_at d (directory, stagedName name) content)
    (if replace then rename (directory, stagedName name) (directory, name)
     else renameNoReplace (directory, stagedName name) (directory, name))
    (fun _ => wrote replace d (directory, name) content) (at_files d) (at_files d).
Proof.
  intros Hn.
  assert (forall w s, staged_at d (directory, stagedName name) content w ->
    at_files (<[(directory, name) := content]> d)
      (mkWorld (<[(directory, name) := content]> (delete (directory, stagedName name) (files w))) s)) as Hput.
  { intros w s [Hd _]. unfold at_files in *. simpl. apply same_insert. by rewrite (same_hidden_delete _ _ _ (staged_hidden name)). }
  destruct replace; (apply perform_triple; [|by intros w [Hw _] s|by intros w [Hw _]]); intros w Hw s x.
  - rewrite (proj2 Hw). intros [= <-]. split; [by apply Hput|done].
  - rewrite (proj2 Hw). destruct (files w !! (directory, name)) eqn:Ht; [done|]. intros [= <-].
    split; [by apply Hput|]. intros _. by rewrite <- (proj1 Hw (directory, name) Hn).
Qed.

Lemma writeRecord_triple store operation directory name content replace d : shown name = true ->
  triple (at_files d) (writeRecord torn store operation directory name content replace)
    (fun _ => wrote replace d (directory, name) content)
    (fun w => at_files d w \/ wrote replace d (directory, name) content w)
    (fun w => at_files d w \/ wrote replace d (directory, name) content w).
Proof.
  intros Hn. unfold writeRecord. set (staged := (directory, stagedName name)).
  set (F := fun w => at_files d w \/ wrote replace d (directory, name) content w).
  assert (forall w, staged_at d staged content w -> F w) as HS by (intros w [Hw _]; by left).
  assert (forall w, wrote replace d (directory, name) content w -> F w) as HW by (intros w Hw; by right).
  eapply triple_bind; [by apply drop_staged_triple; left|]. intros [].
  eapply triple_bind.
  { apply (staying_triple d _ F); [|by left]. intros x x'. destruct (x !! staged); [done|]. intros [= <-].
    apply same_hidden_insert, staged_hidden. }
  intros []. eapply triple_bind.
  { apply (triple_on_error _ _ _ (fun _ => staged_at d staged content) (at_files d)).
    - apply perform_triple; [|by intros w Hw s|by intros w Hw; left]. intros w Hw s x [= <-].
      split; [|apply lookup_insert_eq]. unfold at_files in *. simpl. etransitivity; [apply same_hidden_insert, staged_hidden|exact Hw].
    - eapply triple_conseq; [by apply (drop_staged_triple d directory name F); left|done|by left|done|done]. }
  intros []. eapply triple_bind; [by apply inject_keeps|]. intros [].
  eapply triple_bind; [by apply keeping_triple|]. intros []. eapply triple_bind; [by apply keeping_triple|]. intros [].
  do 2 (eapply triple_bind; [by apply inject_keeps|]; intros []).
  eapply triple_bind.
  { apply (triple_on_error _ _ _ (fun _ => wrote replace d (directory, name) content) (at_files d)).
    - eapply triple_conseq; [by apply rename_staged_triple|done|done|done|by left].
    - eapply triple_conseq; [by apply (drop_staged_triple d directory name F); left|done|by left|done|done]. }
  intros []. do 2 (eapply triple_bind; [by apply inject_keeps|]; intros []).
  eapply (triple_bind _ _ (fun _ => wrote replace d (directory, name) content)); [|intros []; by apply inject_keeps]. unfold syncDirectory.
  eapply triple_bind; [by apply keeping_triple|]. intros []. by apply keeping_triple.
Qed.

(** ** The lineage on the disk *)

(** The checkpoint is stored, and the index holds its entry under the sequence. *)
Definition Indexed (d : Files) (s : Z) (c : Checkpoint.t) : Prop :=
  sequence_ok s /\ Load d (Checkpoint.ID c) = Ok c /\ exists doc, d !! (indexDir, indexName s) = Some doc /\
    0 < doc_len doc <= MaxCheckpointBytes /\ readIndexEntry doc = Some (entry_of c s).

(** Every entry of the index names a stored checkpoint whose whole ancestry, within the
    bound, is stored; [k] bounds the sequences. *)
Record Sound (store : Store.t) (k : Z) (d : Files) : Prop := {
  so_index : forall name doc, d !! (indexDir, name) = Some doc -> index_file name = true ->
    exists s c, name = indexName s /\ Indexed d s c;
  so_proven : forall s c, Indexed d s c -> ancestry d false (Store.depth store) c;
  so_unique : forall s s' c, Indexed d s c -> Indexed d s' c -> s = s';
  so_bound : forall s c, Indexed d s c -> s <= k
}.

(** The checkpoint that the next one has to continue, and its place in the index. *)
Inductive Current (d : Files) : option (Checkpoint.t * Z) -> Prop :=
| current_pointed c n o : pointerLocked d = Ok (pointer_of c n o) -> Indexed d n c ->
    (forall s c', Indexed d s c' -> s <= n + 1) -> Current d (Some (c, n))
| current_newest c n : d !! (rootDir, pointerName) = None -> Indexed d n c ->
    (forall s c', Indexed d s c' -> s <= n) -> Current d (Some (c, n))
| current_none : d !! (rootDir, pointerName) = None -> (forall s c, ~ Indexed d s c) -> Current d None.

Lemma same_Load d d' id : same d d' -> Load d id = Load d' id.
Proof.
  intros Hs. unfold ConnStore.Load. destruct (validIdentifier id) eqn:Hv; [|done]. simpl. unfold readJSON.
  by rewrite (Hs (checkpointDir, recordName id)) by by apply recordName_shown.
Qed.

Lemma same_pointer d d' : same d d' -> pointerLocked d = pointerLocked d'.
Proof. intros Hs. unfold ConnStore.pointerLocked, readJSON. by rewrite (Hs (rootDir, pointerName)). Qed.

Lemma same_Indexed d d' s c : same d d' -> Indexed d s c <-> Indexed d' s c.
Proof. intros Hs. unfold Indexed. by rewrite (Hs (indexDir, indexName s)), (same_Load d d') by (done || apply indexName_shown). Qed.

Lemma same_ancestry d d' o n c : same d d' -> ancestry d o n c -> ancestry d' o n c.
Proof.
  intros Hs. induction 1 as [| |n c Ho Hl|n c p Hl Hd _ IH].
  - by apply ancestry_begins.
  - apply ancestry_bound.
  - apply ancestry_evicted; [done|]. by rewrite <- (same_Load d d').
  - eapply ancestry_link; [by rewrite <- (same_Load d d')|done..].
Qed.

Lemma same_Sound store k d d' : same d d' -> Sound store k d -> Sound store k d'.
Proof.
  intros Hs []. split.
  - intros name doc Hd Hi. rewrite <- (Hs (indexDir, name)) in Hd by by apply index_file_shown.
    destruct (so_index0 name doc Hd Hi) as (s & c & ? & ?). exists s, c. by rewrite <- (same_Indexed d d').
  - intros s c Hi%(same_Indexed d d'); [|done]. eapply same_ancestry; [done|]. by eapply so_proven0.
  - intros s s' c. rewrite <- !(same_Indexed d d') by done. apply so_unique0.
  - intros s c. rewrite <- (same_Indexed d d') by done. apply so_bound0.
Qed.

Lemma same_Current d d' x : same d d' -> Current d x -> Current d' x.
Proof.
  intros Hs. assert (forall s c, Indexed d' s c -> Indexed d s c) as Hi by (intros s c; by rewrite (same_Indexed d d')).
  destruct 1 as [c n o Hp Hx Hm|c n Hp Hx Hm|Hp Hx].
  - eapply current_pointed; [by rewrite <- (same_pointer d d')|by apply (same_Indexed d d')|eauto].
  - apply current_newest; [by rewrite <- (Hs (rootDir, pointerName))|by apply (same_Indexed d d')|eauto].
  - apply current_none; [by rewrite <- (Hs (rootDir, pointerName))|naive_solver].
Qed.

(** *** Reading the index *)

Lemma omap_NoDup {A B} (f : A -> option B) l : (forall x y z, f x = Some z -> f y = Some z -> x = y) -> NoDup l -> NoDup (omap f l).
Proof.
  intros Hf. induction 1 as [|x l Hx _ IH]; [constructor|]. simpl. destruct (f x) as [z|] eqn:Hz; [|done].
  constructor; [|done]. intros (y & Hy & Hyz)%list_elem_of_omap. by rewrite (Hf x y z Hz Hyz) in Hx.
Qed.

Lemma listing_spec d directory : NoDup (listing d directory) /\
  forall name, name ∈ listing d directory <-> is_Some (d !! (directory, name)).
Proof.
  unfold listing, sort_strings.
  assert (forall x y : string * string, forall z, (if String.eqb x.1 directory then Some x.2 else None) = Some z ->
    (if String.eqb y.1 directory then Some y.2 else None) = Some z -> x = y) as Hinj.
  { intros [x1 x2] [y1 y2] z. simpl. destruct (String.eqb_spec x1 directory), (String.eqb_spec y1 directory); naive_solver. }
  split.
  - rewrite sort_slice_perm. apply omap_NoDup; [exact Hinj|]. apply NoDup_fst_map_to_list.
  - intros name. rewrite elem_of_sort_slice, list_elem_of_omap. split.
    + intros ([x1 x2] & Hx & Hs). simpl in Hs. destruct (String.eqb_spec x1 directory) as [->|]; [|done]. injection Hs as ->.
      apply list_elem_of_fmap in Hx as ([k v] & -> & Hk%elem_of_map_to_list). by exists v.
    + intros [v Hv]. exists (directory, name). split; [|simpl; by rewrite String.eqb_refl].
      apply list_elem_of_fmap. exists ((directory, name), v). split; [done|]. by apply elem_of_map_to_list.
Qed.

Context `{!LineageLaws readRecord readIndexEntry readPointer}.

Lemma valid_checkpoint c : Checkpoint_Validate c = Ok tt ->
  validIdentifier (Checkpoint.ID c) = true /\ slen (Checkpoint.Digest c) = 64 /\ Checkpoint.SnapshotGeneration c <> 0.
Proof.
  unfold Checkpoint_Validate. intros Hv. destruct (_ || _) eqn:H1 in Hv; [done|].
  destruct (validIdentifier (Checkpoint.ID c)); simpl in Hv; [|done]. apply bind_Ok in Hv as ([] & _ & Hv).
  destruct (_ || _) eqn:H2 in Hv; [done|]. repeat (destruct (_ : bool) in Hv; [discriminate Hv|]).
  destruct (Snapshot_Digest _); [|done]. repeat (destruct (_ : bool) in Hv; [discriminate Hv|]).
  destruct (CanonicalSHA256 _) as [[expected doc]|] eqn:Hc; [|done].
  destruct (String.eqb_spec expected (Checkpoint.Digest c)) as [<-|]; simpl in Hv; [|done].
  apply CanonicalSHA256_Ok in Hc as [_ ->]. split_and!; [done|apply (digest_length (readRecord := readRecord))|].
  bool_prop. lia.
Qed.

Lemma indexed_read store k d s c : Sound store k d -> Indexed d s c -> read_entry readIndexEntry d (indexName s) = Ok (entry_of c s).
Proof.
  intros Hso Hi. destruct Hi as (Hs & (Hv & _)%Load_Ok & doc & Hd & Hl & Hr).
  apply valid_checkpoint in Hv as (Hid & Hdig & _). unfold read_entry, readJSON. rewrite Hd, Hr.
  replace (doc_len doc =? 0) with false by lia. replace (MaxCheckpointBytes <? doc_len doc) with false by lia. simpl.
  by rewrite Hid, Hdig.
Qed.

Definition ordered (x y : IndexEntry.t) : Prop := IndexEntry.Sequence x < IndexEntry.Sequence y.

Lemma not_after_by_index x y : not_after by_index x y <-> IndexEntry.Sequence x <= IndexEntry.Sequence y.
Proof. unfold not_after, by_index. lia. Qed.

Lemma sort_by_index l : NoDup (IndexEntry.Sequence <$> l) -> StronglySorted ordered (sort_slice by_index l).
Proof.
  intros Hn. rewrite <- (sort_slice_perm by_index l) in Hn.
  assert (StronglySorted (not_after by_index) (sort_slice by_index l)) as Hs.
  { apply StronglySorted_merge_sort; [intros x y z|intros x y]; rewrite !not_after_by_index; lia. }
  induction Hs as [|x k _ IH Hx]; [constructor|]. apply NoDup_cons in Hn as [Hnx Hn]. constructor; [by apply IH|].
  apply Forall_forall. intros y Hy. pose proof (proj1 (Forall_forall _ _) Hx y Hy) as Hle%not_after_by_index.
  destruct (decide (IndexEntry.Sequence x = IndexEntry.Sequence y)) as [He|]; [|unfold ordered; lia].
  destruct Hnx. rewrite He. by apply list_elem_of_fmap_2.
Qed.

Lemma index_of_sound store k d : Sound store k d ->
  exists entries, indexLocked d = Ok entries /\ StronglySorted ordered entries /\
    forall e, e ∈ entries <-> exists s c, Indexed d s c /\ e = entry_of c s.
Proof.
  intros Hso. destruct (listing_spec d indexDir) as [Hn Hl]. unfold ConnStore.indexLocked.
  set (names := List.filter index_file (listing d indexDir)).
  assert (forall name, name ∈ names <-> exists s c, name = indexName s /\ Indexed d s c) as Hnames.
  { intros name. unfold names. rewrite list_elem_of_In, filter_In, <- list_elem_of_In, Hl. split.
    - intros [[doc Hd] Hi]. by eapply so_index.
    - intros (s & c & -> & Hs & _ & doc & Hd & _). split; [by eexists|]. by apply indexName_is_index. }
  assert (NoDup names) as Hnd by (apply NoDup_ListNoDup, List.NoDup_filter, NoDup_ListNoDup, Hn).
  assert (exists l, mapM (read_entry readIndexEntry d) names = Ok l /\ map (fun e => indexName (IndexEntry.Sequence e)) l = names /\
    Forall (fun e => exists s c, Indexed d s c /\ e = entry_of c s) l) as (l & Hm & Hseq & Hall).
  { clear Hnd. assert (forall name, name ∈ names -> exists s c, name = indexName s /\ Indexed d s c) as Hin by (intros; by apply Hnames).
    clearbody names. clear Hnames. induction names as [|name names IH]; [by exists []|].
    destruct IH as (l & Hm & Hseq & Hall); [intros n Hin'; apply Hin; by right|].
    destruct (Hin name) as (s & c & -> & Hi); [by left|]. exists (entry_of c s :: l). simpl.
    rewrite (indexed_read store k d s c Hso Hi). simpl. rewrite Hm. simpl. split_and!; [done|by rewrite Hseq|]. constructor; [by exists s, c|done]. }
  exists (sort_slice by_index l). rewrite Hm. split_and!; [done| |].
  - apply sort_by_index. rewrite <- Hseq in Hnd. change (NoDup ((fun e => indexName (IndexEntry.Sequence e)) <$> l)) in Hnd.
    rewrite (list_fmap_compose IndexEntry.Sequence indexName) in Hnd. by eapply NoDup_fmap_1.
  - intros e. rewrite elem_of_sort_slice. split.
    + intros He. exact (proj1 (Forall_forall _ _) Hall e He).
    + intros (s & c & Hi & ->). assert (indexName s ∈ names) as Hin by (apply Hnames; by exists s, c).
      rewrite <- Hseq in Hin. apply list_elem_of_In, in_map_iff in Hin as (e & He & Hin%list_elem_of_In).
      destruct (proj1 (Forall_forall _ _) Hall e Hin) as (s' & c' & Hi' & ->). simpl in He.
      apply indexName_inj in He; [|by apply Hi'|by apply Hi]. subst s'.
      destruct Hi as (_ & _ & doc & Hd & _ & Hr), Hi' as (_ & _ & doc' & Hd' & _ & Hr'). congruence.
Qed.

(** *** What a start finds *)

Lemma ancestry_overflow d o n c : ancestry d false n c -> ancestry d o n c.
Proof.
  induction 1 as [| |n c Ho|n c p Hl Hd _ IH]; [by apply ancestry_begins|apply ancestry_bound|done|by eapply ancestry_link].
Qed.

Lemma ancestry_shorter d o n c : ancestry d o (S n) c -> ancestry d o n c.
Proof.
  revert c. induction n as [|n IH]; intros c Ha; [apply ancestry_bound|]. inversion Ha; subst.
  - by apply ancestry_begins.
  - by apply ancestry_evicted.
  - eapply ancestry_link; eauto.
Qed.

Lemma entry_agrees c s : entry_differs c (entry_of c s) = false.
Proof. unfold entry_differs. simpl. by rewrite !String.eqb_refl, !Z.eqb_refl. Qed.

Lemma proved store k d s c o : Sound store k d -> Indexed d s c ->
  proveLocked readRecord store d (entry_of c s) o = (Some c, ResumeReasonNone).
Proof.
  intros Hso Hi. pose proof (so_proven _ _ _ Hso _ _ Hi) as Ha. pose proof Hi as (_ & Hl & _).
  destruct (proveLocked_spec readRecord store d (entry_of c s) o) as [(c' & -> & Hl' & _)|(failure & _ & _ & Hu)].
  - simpl in Hl'. congruence.
  - destruct (Hu c). split_and!; [done|apply entry_agrees|by apply ancestry_overflow].
Qed.

Lemma same_identity store k d s s' c c' : Sound store k d -> Indexed d s c -> Indexed d s' c' ->
  Checkpoint.ID c = Checkpoint.ID c' -> c = c' /\ s = s'.
Proof.
  intros Hso Hi Hi' Hid. pose proof Hi as (_ & Hl & _). pose proof Hi' as (_ & Hl' & _).
  rewrite Hid, Hl' in Hl. injection Hl as ->. split; [done|]. by eapply so_unique.
Qed.

Lemma search_first store k d o initial s c older : Sound store k d -> Indexed d s c ->
  searchLocked readRecord store d (entry_of c s :: older) o initial =
  Resume.mk (if bool_decide (initial = ResumeReasonNone) then ResumeLatest else ResumeAncestor)
    (if bool_decide (initial = ResumeReasonNone) then ResumeReasonNone else initial) (Some c) 0 o.
Proof. intros Hso Hi. unfold searchLocked. simpl. by rewrite (proved store k d s c o Hso Hi), bool_decide_eq_true_2 by done. Qed.

Lemma from_identity_finds id l : (exists e, e ∈ l /\ IndexEntry.ID e = id) ->
  exists e older, from_identity id l = Some (e :: older) /\ e ∈ l /\ IndexEntry.ID e = id.
Proof.
  intros (e & He & Hid). induction l as [|x l IH]; [by apply elem_of_nil in He|]. simpl.
  destruct (String.eqb_spec (IndexEntry.ID x) id); [exists x, l; split_and!; [done|by left|done]|].
  apply elem_of_cons in He as [->|He]; [done|]. destruct (IH He) as (e' & older & ? & ? & ?). exists e', older. split_and!; [done|by right|done].
Qed.

(** The newest entry is the last one. *)
Lemma last_of_index d entries n c : StronglySorted ordered entries ->
  (forall e, e ∈ entries <-> exists s c, Indexed d s c /\ e = entry_of c s) ->
  Indexed d n c -> (forall s c', Indexed d s c' -> s <= n) -> (forall c', Indexed d n c' -> entry_of c' n = entry_of c n) ->
  exists older, entries = (older ++ [entry_of c n])%list.
Proof.
  intros Hs He Hi Hm Hu. assert (entry_of c n ∈ entries) as Hin by (apply He; by exists n, c).
  induction entries as [|x older _] using rev_ind; [by apply elem_of_nil in Hin|]. exists older. f_equal. f_equal.
  assert (x ∈ older ++ [x])%list as Hx by set_solver. apply He in Hx as (s & c' & Hi' & ->).
  assert (n <= s) as Hns.
  { apply elem_of_app in Hin as [Hin|Hin%list_elem_of_singleton].
    - pose proof (sorted_app_inv _ _ _ _ (entry_of c' s) Hs Hin ltac:(by left)) as Hlt. unfold ordered in Hlt. simpl in Hlt. lia.
    - apply (f_equal IndexEntry.Sequence) in Hin. simpl in Hin. lia. }
  assert (s = n) as -> by (specialize (Hm _ _ Hi'); lia). by apply Hu.
Qed.

Lemma indexed_entry d n c c' : Indexed d n c -> Indexed d n c' -> entry_of c' n = entry_of c n.
Proof. intros (_ & _ & doc & Hd & _ & Hr) (_ & _ & doc' & Hd' & _ & Hr'). congruence. Qed.

Lemma no_pointer d : d !! (rootDir, pointerName) = None -> pointerLocked d = Err ErrNotFound.
Proof. intros Hp. unfold ConnStore.pointerLocked, readJSON. by rewrite Hp. Qed.

Lemma nothing_indexed d entries : (forall s c, ~ Indexed d s c) ->
  (forall e, e ∈ entries <-> exists s c, Indexed d s c /\ e = entry_of c s) -> entries = [].
Proof.
  intros Hx He. destruct entries as [|e entries]; [done|]. destruct (proj1 (He e)) as (s & c & Hi & _); [by left|]. by destruct (Hx s c).
Qed.

Definition describes (x : option (Checkpoint.t * Z)) (l : Latest.t) : Prop :=
  match x with
  | Some (c, n) => Latest.present l = true /\ Latest.id l = Checkpoint.ID c /\ Latest.digest l = Checkpoint.Digest c /\
      Latest.sequence l = n
  | None => Latest.present l = false /\ Latest.sequence l = 0
  end.

Lemma current_latest store k d x : Sound store k d -> Current d x ->
  exists l, latestLocked d = Ok l /\ describes x l.
Proof.
  intros Hso Hc. unfold ConnStore.latestLocked. destruct (index_of_sound _ _ _ Hso) as (entries & Hi & Hs & He).
  destruct Hc as [c n o Hp Hx Hm|c n Hp Hx Hm|Hp Hx].
  - rewrite Hp. by eexists.
  - rewrite (no_pointer _ Hp), Hi. simpl.
    destruct (last_of_index d entries n c Hs He Hx Hm (fun c' => indexed_entry d n c c' Hx)) as (older & ->).
    rewrite last_snoc. destruct (head (older ++ [entry_of c n])) eqn:Hh; [by eexists|]. by destruct older.
  - rewrite (no_pointer _ Hp), Hi. simpl. rewrite (nothing_indexed d entries Hx He). by eexists.
Qed.

Definition resumed (x : option (Checkpoint.t * Z)) (r : Resume.t) : Prop :=
  match x with
  | Some (c, _) => Resume.Checkpoint r = Some c /\ Usable r = true /\ Resume.Depth r = 0
  | None => r = Resume.mk ResumeGenesis ResumeReasonNone None 0 false
  end.

Lemma current_resume store k d x : Sound store k d -> Current d x ->
  exists r, ResumeFrom store d = Ok r /\ resumed x r /\ (is_ok (pointerLocked d) = true -> Resume.Status r = ResumeLatest).
Proof.
  intros Hso Hc. unfold ConnStore.ResumeFrom. destruct (index_of_sound _ _ _ Hso) as (entries & Hi & Hs & He).
  destruct Hc as [c n o Hp Hx Hm|c n Hp Hx Hm|Hp Hx].
  - rewrite Hp, Hi. simpl. destruct (from_identity_finds (Checkpoint.ID c) (rev entries)) as (e & older & -> & Hin & Hid).
    { exists (entry_of c n). split; [|done]. apply list_elem_of_In, in_rev. rewrite rev_involutive. apply list_elem_of_In, He. by exists n, c. }
    apply list_elem_of_In, in_rev, list_elem_of_In, He in Hin as (s & c' & Hi' & ->). simpl in Hid.
    destruct (same_identity _ _ _ _ _ _ _ Hso Hi' Hx Hid) as [-> ->]. simpl default.
    rewrite (search_first _ _ _ _ _ _ _ _ Hso Hx). simpl. by eexists.
  - rewrite (no_pointer _ Hp), Hi. simpl.
    destruct (last_of_index d entries n c Hs He Hx Hm (fun c' => indexed_entry d n c c' Hx)) as (older & ->).
    rewrite rev_app_distr. rewrite (proj2 (Nat.eqb_neq (length _) 0)) by (rewrite length_app; simpl; lia). simpl.
    rewrite (search_first _ _ _ _ _ _ _ _ Hso Hx). simpl. by eexists.
  - rewrite (no_pointer _ Hp), Hi. simpl. rewrite (nothing_indexed d entries Hx He). by eexists.
Qed.

(** *** The steps of an append *)

Lemma Load_insert d path doc id c : d !! path = None -> Load d id = Ok c -> Load (<[path := doc]> d) id = Ok c.
Proof.
  intros Hn. unfold ConnStore.Load. destruct (validIdentifier id); [|done]. simpl. unfold readJSON.
  destruct (decide (path = (checkpointDir, recordName id))) as [->|]; [by rewrite Hn|]. by rewrite lookup_insert_ne.
Qed.

Lemma Load_other d path doc id : path.1 <> checkpointDir -> Load (<[path := doc]> d) id = Load d id.
Proof.
  intros Hp. unfold ConnStore.Load, readJSON. destruct (validIdentifier id); [|done]. simpl.
  rewrite lookup_insert_ne; [done|]. by intros ->.
Qed.

(** What is stored stays, and so does what the index holds where [p] says so. *)
Definition loads_kept (d d' : Files) : Prop := forall id c, Load d id = Ok c -> Load d' id = Ok c.

Lemma ancestry_kept d d' n c : loads_kept d d' -> ancestry d false n c -> ancestry d' false n c.
Proof.
  intros Hk. induction 1 as [| |n c Ho|n c p Hl Hd _ IH]; [by apply ancestry_begins|apply ancestry_bound|done|].
  eapply ancestry_link; [by apply Hk|done..].
Qed.

(** An entry that is read under files that kept the records is the entry it was. *)
Lemma kept_back store k d d' s c : Sound store k d -> loads_kept d d' ->
  d' !! (indexDir, indexName s) = d !! (indexDir, indexName s) -> Indexed d' s c -> Indexed d s c.
Proof.
  intros Hso Hk Hd (Hs & Hl & doc & Hdoc & Hlen & Hr). rewrite Hd in Hdoc.
  destruct (so_index _ _ _ Hso _ _ Hdoc (indexName_is_index s Hs)) as (s' & c' & Hn & Hi).
  pose proof Hi as (Hs' & Hl' & doc' & Hdoc' & _ & Hr'). apply indexName_inj in Hn; [|done..]. subst s'.
  assert (entry_of c s = entry_of c' s) as He by congruence. apply (f_equal IndexEntry.ID) in He. simpl in He.
  apply Hk in Hl'. rewrite <- He, Hl in Hl'. by injection Hl' as ->.
Qed.

Lemma kept_forth d d' s c : loads_kept d d' -> d' !! (indexDir, indexName s) = d !! (indexDir, indexName s) ->
  Indexed d s c -> Indexed d' s c.
Proof.
  intros Hk Hd (Hs & Hl & doc & Hdoc & Hlen & Hr). split_and!; [done|by apply Hk|]. exists doc. by rewrite Hd.
Qed.

(** The index loses some entries, or none. *)
Definition trimmed (p : Z -> Prop) (d d' : Files) : Prop :=
  loads_kept d d' /\ (forall name, d' !! (indexDir, name) = d !! (indexDir, name) \/ d' !! (indexDir, name) = None) /\
  (forall s, sequence_ok s -> p s -> d' !! (indexDir, indexName s) = d !! (indexDir, indexName s)).

Lemma trimmed_back store k p d d' s c : Sound store k d -> trimmed p d d' -> Indexed d' s c -> Indexed d s c.
Proof.
  intros Hso (Hk & Hd & _) Hi. destruct (Hd (indexName s)) as [He|He]; [by eapply kept_back|].
  destruct Hi as (_ & _ & doc & Hdoc & _). congruence.
Qed.

Lemma trimmed_Sound store k p d d' : Sound store k d -> trimmed p d d' -> Sound store k d'.
Proof.
  intros Hso Ht. pose proof Ht as (Hk & Hd & _). split.
  - intros name doc Hn Hi. destruct (Hd name) as [He|He]; [|congruence]. rewrite He in Hn.
    destruct (so_index _ _ _ Hso _ _ Hn Hi) as (s & c & -> & Hx). exists s, c. split; [done|]. by eapply kept_forth.
  - intros s c Hi. eapply ancestry_kept; [done|]. eapply so_proven; [done|]. by eapply trimmed_back.
  - intros s s' c Hi Hi'. eapply so_unique; [done|by eapply trimmed_back..].
  - intros s c Hi. eapply so_bound; [done|by eapply trimmed_back].
Qed.

Lemma trimmed_Current store k (p : Z -> Prop) d d' x : Sound store k d -> trimmed p d d' ->
  d' !! (rootDir, pointerName) = d !! (rootDir, pointerName) -> (forall c n, x = Some (c, n) -> p n) -> Current d x -> Current d' x.
Proof.
  intros Hso Ht Hp Hx Hc. pose proof Ht as (Hk & _ & Hpn).
  assert (pointerLocked d' = pointerLocked d) as Hpl by (unfold ConnStore.pointerLocked, readJSON; by rewrite Hp).
  assert (forall s c, Indexed d' s c -> Indexed d s c) as Hb by (intros; by eapply trimmed_back).
  assert (forall c n, x = Some (c, n) -> Indexed d n c -> Indexed d' n c) as Hf.
  { intros c n He Hi. eapply kept_forth; [done| |done]. apply Hpn; [by destruct Hi|by eapply Hx]. }
  destruct Hc as [c n o Hq Hi Hm|c n Hq Hi Hm|Hq Hi].
  - eapply current_pointed; [by rewrite Hpl|by apply Hf|]. intros s c' Hi'. by eapply Hm, Hb.
  - apply current_newest; [by rewrite Hp|by apply Hf|]. intros s c' Hi'. by eapply Hm, Hb.
  - apply current_none; [by rewrite Hp|]. intros s c Hi'. by eapply Hi, Hb.
Qed.

(** A new record changes nothing that is read. *)
Lemma add_record d id doc : d !! (checkpointDir, recordName id) = None ->
  trimmed (fun _ => True) d (<[(checkpointDir, recordName id) := doc]> d).
Proof. intros Hn. split_and!; [intros i c; by apply Load_insert|intros name; left|intros s _ _]; by rewrite lookup_insert_ne. Qed.

(** A new entry of the index, above all others. *)
Lemma add_entry store d n c doc : Sound store n d -> sequence_ok (n + 1) -> Load d (Checkpoint.ID c) = Ok c ->
  ancestry d false (Store.depth store) c -> (forall s c', Indexed d s c' -> Checkpoint.ID c' <> Checkpoint.ID c) ->
  0 < doc_len doc <= MaxCheckpointBytes -> readIndexEntry doc = Some (entry_of c (n + 1)) ->
  let d' := <[(indexDir, indexName (n + 1)) := doc]> d in
  Sound store (n + 1) d' /\ Indexed d' (n + 1) c /\
  (forall s c', Indexed d' s c' -> s <= n /\ Indexed d s c' \/ s = n + 1 /\ c' = c).
Proof.
  intros Hso Hn Hl Ha Hfresh Hlen Hr d'.
  assert (loads_kept d d') as Hk by (intros id x; unfold d'; by rewrite Load_other).
  assert (Indexed d' (n + 1) c) as Hnew.
  { split_and!; [done|by apply Hk|]. exists doc. unfold d'. by rewrite lookup_insert_eq. }
  assert (forall s c', Indexed d' s c' -> s <= n /\ Indexed d s c' \/ s = n + 1 /\ c' = c) as Hcases.
  { intros s c' Hi. destruct (decide (s = n + 1)) as [->|Hne].
    - right. split; [done|]. pose proof (indexed_entry _ _ _ _ Hnew Hi) as He%(f_equal IndexEntry.ID). simpl in He.
      destruct Hi as (_ & Hl' & _), Hnew as (_ & Hl'' & _). rewrite He, Hl'' in Hl'. by injection Hl' as ->.
    - left. assert (Indexed d s c') as Hi'; [|split; [by eapply so_bound|done]]. eapply kept_back; [done..| |exact Hi]. unfold d'. apply lookup_insert_ne.
      intros Hq%(f_equal snd). apply indexName_inj in Hq; [lia|done|by destruct Hi]. }
  assert (forall s c', Indexed d s c' -> s <= n -> Indexed d' s c') as Hold.
  { intros s c' Hi Hs. eapply kept_forth; [done| |done]. unfold d'. apply lookup_insert_ne. intros Hq%(f_equal snd).
    apply indexName_inj in Hq; [lia|done|by destruct Hi]. }
  split_and!; [|done|done]. split.
  - intros name doc' Hname Hi. destruct (decide (name = indexName (n + 1))) as [->|Hne]; [by exists (n + 1), c|].
    unfold d' in Hname. rewrite lookup_insert_ne in Hname by congruence.
    destruct (so_index _ _ _ Hso _ _ Hname Hi) as (s & c' & -> & Hx). exists s, c'. split; [done|]. apply Hold; [done|by eapply so_bound].
  - intros s c' [[_ Hi]|[-> ->]]%Hcases; (eapply ancestry_kept; [done|]); [by eapply so_proven|done].
  - intros s s' c' Hi Hi'. destruct (Hcases _ _ Hi) as [[? Hx]|[-> ->]], (Hcases _ _ Hi') as [[? Hx']|[-> Hc]]; try done.
    + by eapply so_unique.
    + subst c'. by destruct (Hfresh _ _ Hx).
    + by destruct (Hfresh _ _ Hx').
  - intros s c' [[? _]|[-> _]]%Hcases; lia.
Qed.

(** *** Eviction *)

Lemma trimmed_refl p d : trimmed p d d.
Proof. split_and!; [by intros ? ?|by left|done]. Qed.

Lemma Load_delete d name id : Load (delete (indexDir, name) d) id = Load d id.
Proof. unfold ConnStore.Load, readJSON. destruct (validIdentifier id); [|done]. simpl. by rewrite lookup_delete_ne. Qed.

Lemma trimmed_delete p d d' name : trimmed p d d' -> (forall s, sequence_ok s -> p s -> indexName s <> name) ->
  trimmed p d (delete (indexDir, name) d').
Proof.
  intros (Hk & Hd & Hp) Hn. split_and!.
  - intros id c Hl. rewrite Load_delete. by apply Hk.
  - intros name'. destruct (decide (name = name')) as [<-|]; [right; apply lookup_delete_eq|]. rewrite lookup_delete_ne by congruence. apply Hd.
  - intros s Hs Hps. rewrite lookup_delete_ne by (intros [= Hq]; by eapply Hn). by apply Hp.
Qed.

Lemma sorted_reach l e k : StronglySorted ordered (e :: l) -> (forall x, x ∈ e :: l -> IndexEntry.Sequence x <= k) ->
  IndexEntry.Sequence e + len l <= k.
Proof.
  revert e. induction l as [|x l IH]; intros e Hs Hk; simpl; [specialize (Hk e ltac:(by left)); lia|].
  inversion Hs as [|? ? Hs' Hf]; subst. apply Forall_cons in Hf as [Hx _]. unfold ordered in Hx.
  specialize (IH x Hs' ltac:(intros y Hy; apply Hk; by right)). simpl. lia.
Qed.

Lemma sorted_suffix (l k : list IndexEntry.t) : StronglySorted ordered (l ++ k) -> StronglySorted ordered k.
Proof. induction l as [|x l IH]; [done|]. inversion 1; subst. by apply IH. Qed.

(** Only entries that are well behind are dropped. *)
Lemma dropped_behind entries before e after n : StronglySorted ordered entries ->
  (forall x, x ∈ entries -> IndexEntry.Sequence x <= n + 1) ->
  take (length entries - MaxIndexEntries) entries = (before ++ e :: after)%list -> IndexEntry.Sequence e < n.
Proof.
  intros Hs Hk Ht. assert (entries = (before ++ e :: (after ++ drop (length entries - MaxIndexEntries) entries))%list) as He.
  { rewrite <- (take_drop (length entries - MaxIndexEntries) entries) at 1. by rewrite Ht, <- app_assoc. }
  assert (MaxIndexEntries <= length (drop (length entries - MaxIndexEntries) entries))%nat as Hl.
  { rewrite length_drop. apply (f_equal length) in Ht. rewrite length_take, length_app in Ht. simpl in Ht. lia. }
  set (rest := drop _ entries) in *. clearbody rest. rewrite He in Hs, Hk. apply sorted_suffix in Hs.
  apply (sorted_reach _ _ (n + 1)) in Hs; [|intros x Hx; apply Hk, elem_of_app; by right].
  rewrite length_app in Hs. unfold MaxIndexEntries in Hl. lia.
Qed.

Definition evicted (n : Z) (d : Files) (w : World) : Prop :=
  exists d', trimmed (fun s => n <= s) d d' /\ d' !! (rootDir, pointerName) = d !! (rootDir, pointerName) /\ at_files d' w.

Lemma evict_triple store k d n : Sound store k d -> k <= n + 1 ->
  triple (at_files d) (evictIndexLocked readIndexEntry) (fun _ => evicted n d) (evicted n d) (evicted n d).
Proof.
  intros Hso Hk. assert (forall w, at_files d w -> evicted n d w) as Hstart.
  { intros w Hw. exists d. split_and!; [apply trimmed_refl|done..]. }
  unfold evictIndexLocked. apply triple_get. intros w0 w [-> Hw].
  destruct (index_of_sound store k (files w0)) as (entries & Hi & Hs & He); [by eapply same_Sound; [symmetry|]|].
  unfold lift. unfold mbind at 1, M_bind at 1. rewrite Hi.
  assert (triple (at_files d) (if (length entries <=? MaxIndexEntries)%nat then mret false else
    _ ← each (fun entry => remove_any (indexDir, indexName (IndexEntry.Sequence entry)))
          (take (length entries - MaxIndexEntries) entries);
    _ ← syncDirectory; mret true) (fun _ => evicted n d) (evicted n d) (evicted n d)) as Ht; [|exact (Ht w0 Hw)].
  destruct (length entries <=? MaxIndexEntries)%nat; [apply triple_ret; exact Hstart|].
  eapply triple_bind.
  { eapply triple_conseq; [apply (triple_each (fun _ => evicted n d) _ _ (evicted n d) (evicted n d))|exact Hstart|intros a v Hv; exact Hv|done|done].
    intros before e after Ht. apply perform_triple; [|by intros v (d' & ? & ? & ?) s; exists d'|done].
    intros v (d' & Htr & Hp & Hv) s x [= <-]. exists (delete (indexDir, indexName (IndexEntry.Sequence e)) d'). split_and!.
    - apply trimmed_delete; [done|]. intros s' Hs' Hle Hq.
      assert (e ∈ entries) as Hin.
      { rewrite <- (take_drop (length entries - MaxIndexEntries) entries), Ht. set_solver. }
      apply He in Hin as (se & ce & Hie & ->). simpl in Hq. apply indexName_inj in Hq; [|done|by destruct Hie]. subst se.
      apply (dropped_behind entries _ _ _ n Hs) in Ht; [simpl in Ht; lia|].
      intros y (sy & cy & Hy & ->)%He. simpl. apply (same_Indexed d) in Hy; [|by symmetry]. pose proof (so_bound _ _ _ Hso _ _ Hy). lia.
    - by rewrite lookup_delete_ne.
    - unfold at_files in *. simpl. intros path Hpath. destruct (decide (path = (indexDir, indexName (IndexEntry.Sequence e)))) as [->|].
      + by rewrite !lookup_delete_eq.
      + rewrite !lookup_delete_ne by congruence. by apply Hv. }
  intros []. eapply (triple_bind _ _ (fun _ => evicted n d)); [|intros []; by apply triple_ret]. unfold syncDirectory.
  assert (triple (evicted n d) flush (fun _ => evicted n d) (evicted n d) (evicted n d)) as Hf.
  { apply keeping_triple; [|done]. intros v s (d' & ? & ? & ?). by exists d'. }
  eapply triple_bind; [exact Hf|]. intros []. exact Hf.
Qed.

(** *** An append, step by step *)

Lemma Load_stored d id c : Load d id = Ok c -> is_Some (d !! (checkpointDir, recordName id)).
Proof. unfold ConnStore.Load, readJSON. destruct (validIdentifier id); [|done]. simpl. by destruct (d !! _). Qed.

Lemma Load_written d c doc : Checkpoint_Validate c = Ok tt -> readRecord doc = Some c -> 0 < doc_len doc <= MaxCheckpointBytes ->
  Load (<[(checkpointDir, recordName (Checkpoint.ID c)) := doc]> d) (Checkpoint.ID c) = Ok c.
Proof.
  intros Hv Hr Hl. pose proof (valid_checkpoint c Hv) as (Hid & _). unfold ConnStore.Load, readJSON. rewrite Hid. simpl.
  rewrite lookup_insert_eq, Hr. replace (doc_len doc =? 0) with false by lia. replace (MaxCheckpointBytes <? doc_len doc) with false by lia.
  simpl. by rewrite Hv, String.eqb_refl.
Qed.

Lemma Sound_weaken store k k' d : k <= k' -> Sound store k d -> Sound store k' d.
Proof. intros Hk []. split; [done..|]. intros s c Hi. specialize (so_bound0 s c Hi). lia. Qed.

(** Where the guard lets a checkpoint in, the chain behind it is proven. *)
Lemma guarded_ancestry store k d x l c : Sound store k d -> Current d x -> describes x l -> generation_guard l c = Ok tt ->
  ancestry d false (Store.depth store) c.
Proof.
  intros Hso Hc Hd Hg. unfold generation_guard in Hg. destruct (Latest.present l) eqn:Hp.
  - destruct (String.eqb_spec (Checkpoint.Parent c) "") as [He|_]; [by apply ancestry_begins|].
    destruct (bool_decide _); [done|]. destruct (String.eqb_spec (Checkpoint.Parent c) (Latest.id l)) as [Hid|]; simpl in Hg; [|done].
    destruct (String.eqb_spec (Checkpoint.ParentDigest c) (Latest.digest l)) as [Hdig|]; simpl in Hg; [|done].
    destruct x as [[c0 n]|]; simpl in Hd; [|destruct Hd; congruence]. destruct Hd as (_ & H1 & H2 & _).
    assert (Indexed d n c0) as Hi by (by inversion Hc).
    pose proof (so_proven _ _ _ Hso _ _ Hi) as Ha. destruct (Store.depth store) as [|m]; [apply ancestry_bound|].
    eapply ancestry_link; [rewrite Hid, H1; by destruct Hi as (_ & Hl & _)|congruence|by apply ancestry_shorter].
  - destruct (String.eqb_spec (Checkpoint.Parent c) "") as [He|]; [by apply ancestry_begins|done].
Qed.

Lemma current_sequence store k d x l : Sound store k d -> Current d x -> describes x l -> 0 <= k ->
  0 <= Latest.sequence l <= k /\ (forall s c, Indexed d s c -> s <= Latest.sequence l + 1).
Proof.
  intros Hso Hc Hd Hk. destruct Hc as [c n o Hp Hi Hm|c n Hp Hi Hm|Hp Hi]; simpl in Hd.
  - destruct Hd as (_ & _ & _ & ->). pose proof (so_bound _ _ _ Hso _ _ Hi). destruct Hi as ([] & _). split; [lia|done].
  - destruct Hd as (_ & _ & _ & ->). pose proof (so_bound _ _ _ Hso _ _ Hi). destruct Hi as ([] & _). split; [lia|].
    intros s c' Hx. specialize (Hm s c' Hx). lia.
  - destruct Hd as (_ & ->). split; [lia|]. intros s c Hx. by destruct (Hi s c).
Qed.

(** The record and the entry are written: the new checkpoint is in the lineage, and is the
    current one if there is no pointer. *)
Lemma entered store k d x l c doc entry : Sound store k d -> Current d x -> describes x l -> generation_guard l c = Ok tt ->
  Checkpoint_Validate c = Ok tt -> 0 <= k < max_u64 -> readRecord doc = Some c -> 0 < doc_len doc <= MaxCheckpointBytes ->
  d !! (checkpointDir, recordName (Checkpoint.ID c)) = None ->
  let d1 := <[(checkpointDir, recordName (Checkpoint.ID c)) := doc]> d in
  let n := Latest.sequence l in
  d1 !! (indexDir, indexName (n + 1)) = None -> 0 < doc_len entry <= MaxCheckpointBytes ->
  readIndexEntry entry = Some (entry_of c (n + 1)) ->
  let d2 := <[(indexDir, indexName (n + 1)) := entry]> d1 in
  Sound store (n + 1) d2 /\ Indexed d2 (n + 1) c /\
  exists x', Current d2 x' /\ (x' = x \/ x' = Some (c, n + 1)) /\ (forall c' s, x' = Some (c', s) -> n <= s).
Proof.
  intros Hso Hc Hd Hg Hv Hk Hr Hlen Hrec d1 n Hidx Hlen' Hr' d2.
  destruct (current_sequence _ _ _ _ _ Hso Hc Hd ltac:(lia)) as [Hn Hle]. fold n in Hn, Hle.
  pose proof (add_record d (Checkpoint.ID c) doc Hrec) as Ht. fold d1 in Ht.
  pose proof (trimmed_Sound _ _ _ _ _ Hso Ht) as Hso1.
  assert (Current d1 x) as Hc1.
  { eapply trimmed_Current; [exact Hso|exact Ht| |done|done]. unfold d1. by rewrite lookup_insert_ne. }
  assert (Sound store n d1) as Hson.
  { destruct Hso1. split; [done..|]. intros s c' Hi. destruct (decide (s = n + 1)) as [->|].
    - destruct Hi as (_ & _ & ? & ? & _). congruence.
    - pose proof (Hle s c' (trimmed_back _ _ _ _ _ _ _ Hso Ht Hi)). lia. }
  destruct (add_entry store d1 n c entry) as (Hso2 & Hi2 & Hcases); [done|unfold sequence_ok; lia|by apply Load_written| |..|done|done|].
  { eapply ancestry_kept; [apply Ht|]. by eapply guarded_ancestry. }
  { intros s c' Hi Hid. apply (trimmed_back _ _ _ _ _ _ _ Hso Ht) in Hi as (_ & Hl & _). apply Load_stored in Hl as [? Hl].
    rewrite Hid in Hl. congruence. }
  fold d2 in Hso2, Hi2, Hcases. split_and!; [done..|].
  assert (d2 !! (rootDir, pointerName) = d1 !! (rootDir, pointerName)) as Hptr by (unfold d2; by rewrite lookup_insert_ne).
  assert (pointerLocked d2 = pointerLocked d1) as Hpl by (unfold ConnStore.pointerLocked, readJSON; by rewrite Hptr).
  assert (forall s c', Indexed d2 s c' -> s <= n + 1) as Hb by (intros s c' Hi; by eapply so_bound in Hi).
  assert (forall s c', s <= n -> Indexed d1 s c' -> Indexed d2 s c') as Hold.
  { intros s c' Hs Hi. apply (kept_forth d1 d2); [intros i y; unfold d2; by rewrite Load_other| |done]. unfold d2. apply lookup_insert_ne.
    intros Hq%(f_equal snd). apply indexName_inj in Hq; [lia|unfold sequence_ok; lia|by destruct Hi]. }
  destruct Hc1 as [c0 m o Hp Hi Hm|c0 m Hp Hi Hm|Hp Hi]; simpl in Hd.
  - exists (Some (c0, m)). destruct Hd as (_ & _ & _ & Hs). fold n in Hs. split_and!; [|by left|intros ? ? [= _ <-]; lia].
    eapply current_pointed; [by rewrite Hpl|apply Hold; [lia|done]|intros s c' Hx; specialize (Hb _ _ Hx); lia].
  - exists (Some (c, n + 1)). split_and!; [|by right|intros ? ? [= _ <-]; lia]. apply current_newest; [by rewrite Hptr|done..].
  - exists (Some (c, n + 1)). split_and!; [|by right|intros ? ? [= _ <-]; lia]. apply current_newest; [by rewrite Hptr|done..].
Qed.

Lemma pointed store k d c n o doc : Sound store k d -> k <= n + 1 -> Indexed d n c -> 0 < doc_len doc <= MaxCheckpointBytes ->
  readPointer doc = Some (pointer_of c n o) ->
  let d' := <[(rootDir, pointerName) := doc]> d in
  Sound store k d' /\ Current d' (Some (c, n)) /\ is_ok (pointerLocked d') = true.
Proof.
  intros Hso Hk Hi Hlen Hr d'.
  assert (trimmed (fun _ => True) d d') as Ht.
  { split_and!; [intros id y; unfold d'; by rewrite Load_other|intros name; left|intros s _ _]; unfold d'; by rewrite lookup_insert_ne. }
  assert (pointerLocked d' = Ok (pointer_of c n o)) as Hp.
  { pose proof Hi as (Hs & (Hv & _)%Load_Ok & _). apply valid_checkpoint in Hv as (Hid & Hdig & Hgen).
    unfold ConnStore.pointerLocked, readJSON, d'. rewrite lookup_insert_eq, Hr.
    replace (doc_len doc =? 0) with false by lia. replace (MaxCheckpointBytes <? doc_len doc) with false by lia. simpl.
    rewrite Hid, Hdig. simpl. unfold sequence_ok in Hs. replace (Checkpoint.SnapshotGeneration c =? 0) with false by lia.
    by replace (n =? 0) with false by lia. }
  split_and!; [by eapply trimmed_Sound| |by rewrite Hp]. eapply current_pointed; [exact Hp| |].
  - eapply kept_forth; [apply Ht| |done]. unfold d'. by rewrite lookup_insert_ne.
  - intros s c' Hx. apply (trimmed_back _ _ _ _ _ _ _ Hso Ht) in Hx. pose proof (so_bound _ _ _ Hso _ _ Hx). lia.
Qed.

(** The files hold a lineage that a start resumes at the checkpoint. *)
Definition Settled (store : Store.t) (k : Z) (oc : option Checkpoint.t) (d : Files) : Prop :=
  exists x, Sound store k d /\ Current d x /\ fst <$> x = oc.

Lemma same_Settled store k oc d d' : same d d' -> Settled store k oc d -> Settled store k oc d'.
Proof. intros Hs (x & ? & ? & ?). exists x. split_and!; [by eapply same_Sound|by eapply same_Current|done]. Qed.

Lemma Settled_weaken store k k' oc d : k <= k' -> Settled store k oc d -> Settled store k' oc d.
Proof. intros Hk (x & ? & ? & ?). exists x. split_and!; [by eapply Sound_weaken|done..]. Qed.

Definition in_between (store : Store.t) (k : Z) (oc : option Checkpoint.t) (c : Checkpoint.t) (w : World) : Prop :=
  Settled store k oc (files w) \/ Settled store k (Some c) (files w).

Lemma at_files_between store k oc c d w : Settled store k oc d \/ Settled store k (Some c) d -> at_files d w ->
  in_between store k oc c w.
Proof. intros [Hd|Hd] Hw; [left|right]; (eapply same_Settled; [|exact Hd]); by symmetry. Qed.

(** The last write of an append, from the files that the eviction left. *)
Lemma publish_triple store k oc c d n o doc : Sound store (n + 1) d -> Indexed d (n + 1) c -> n <= k ->
  (exists x, Current d x /\ (fst <$> x = oc \/ fst <$> x = Some c)) -> 0 < doc_len doc <= MaxCheckpointBytes ->
  readPointer doc = Some (pointer_of c (n + 1) o) ->
  triple (at_files d) (writeRecord torn store OpPointer rootDir pointerName doc true)
    (fun _ w => Settled store (k + 1) (Some c) (files w) /\ is_ok (pointerLocked (files w)) = true)
    (in_between store (k + 1) oc c) (in_between store (k + 1) oc c).
Proof.
  intros Hso Hi Hk (x & Hx & Hox) Hlen Hr. destruct (pointed store (n + 1) d c (n + 1) o doc Hso ltac:(lia) Hi Hlen Hr) as (Hso' & Hc' & Hp').
  assert (Settled store (k + 1) (Some c) (<[(rootDir, pointerName) := doc]> d)) as Hs'.
  { exists (Some (c, n + 1)). split_and!; [|done..]. eapply Sound_weaken; [|done]. lia. }
  assert (Settled store (k + 1) oc d \/ Settled store (k + 1) (Some c) d) as Hs.
  { destruct Hox as [<-|<-]; [left|right]; exists x; (split_and!; [|done..]); (eapply Sound_weaken; [|done]); lia. }
  eapply triple_conseq; [by apply (writeRecord_triple store OpPointer rootDir pointerName doc true d)|done| | |].
  - intros _ w [Hw _]. split; [eapply same_Settled; [|exact Hs']; by symmetry|]. unfold at_files in Hw. by rewrite (same_pointer _ _ Hw).
  - intros w [Hw|[Hw _]]; [by eapply at_files_between|]. eapply (at_files_between _ _ _ _ _ _ (or_intror Hs') Hw).
  - intros w [Hw|[Hw _]]; [by eapply at_files_between|]. eapply (at_files_between _ _ _ _ _ _ (or_intror Hs') Hw).
Qed.

(** A precondition that pins the files down to the publication of a file. *)
Lemma triple_wrote {A} replace d path content (m : M World checkpoint_error A) Q F C :
  ((replace = false -> d !! path = None) -> triple (at_files (<[path := content]> d)) m Q F C) ->
  triple (wrote replace d path content) m Q F C.
Proof. intros Hm w [Hw Hn]. exact (Hm Hn w Hw). Qed.

Lemma triple_encoded {A T} (marshal : T -> option Doc) v P (k : Doc -> M World checkpoint_error A) Q (F C : World -> Prop) :
  (forall w, P w -> F w) -> (forall doc, marshal v = Some doc -> triple P (k doc) Q F C) ->
  triple P (encoded ← lift (encoded_with marshal v); k encoded) Q F C.
Proof.
  intros HF Hk. unfold encoded_with. destruct (marshal v) as [doc|] eqn:Hm; [exact (Hk doc eq_refl)|]. intros w Hw. by apply HF.
Qed.

(** The lineage after the entry was written: the old checkpoint is the current one, or the new one is. *)
Definition entered_at (store : Store.t) (oc : option Checkpoint.t) (c : Checkpoint.t) (n : Z) (d : Files) : Prop :=
  Sound store (n + 1) d /\ Indexed d (n + 1) c /\
  exists x, Current d x /\ (fst <$> x = oc \/ fst <$> x = Some c) /\ (forall c' s, x = Some (c', s) -> n <= s).

Lemma entered_between store k oc c n d : entered_at store oc c n d -> n <= k ->
  Settled store (k + 1) oc d \/ Settled store (k + 1) (Some c) d.
Proof.
  intros (Hso & _ & x & Hx & Hox & _) Hn.
  destruct Hox as [Ho|Ho]; [left|right]; exists x; (split_and!; [|done..]); (eapply Sound_weaken; [|done]); lia.
Qed.

Lemma pointer_triple store k oc c d n o : entered_at store oc c n d -> exact c = true -> sequence_ok (n + 1) -> n <= k ->
  triple (at_files d)
    (overflow ← evictIndexLocked readIndexEntry;
     encodedPointer ← lift (encoded_with json_Marshal (pointer_of c (n + 1) (o || overflow)));
     writeRecord torn store OpPointer rootDir pointerName encodedPointer true)
    (fun _ w => Settled store (k + 1) (Some c) (files w) /\ is_ok (pointerLocked (files w)) = true)
    (in_between store (k + 1) oc c) (in_between store (k + 1) oc c).
Proof.
  intros (Hso & Hi & x & Hx & Hox & Hge) He Hok Hk.
  assert (Checkpoint_Validate c = Ok tt) as Hv by (destruct Hi as (_ & (Hv & _)%Load_Ok & _); done).
  assert (forall d', trimmed (fun s => n <= s) d d' -> d' !! (rootDir, pointerName) = d !! (rootDir, pointerName) ->
    entered_at store oc c n d') as Hkept.
  { intros d' Ht Hp. split_and!; [by eapply trimmed_Sound| |].
    - eapply kept_forth; [apply Ht|apply Ht; [done|lia]|done].
    - exists x. split_and!; [|done..]. eapply trimmed_Current; [exact Hso|exact Ht|done|exact Hge|done]. }
  assert (forall w, evicted n d w -> in_between store (k + 1) oc c w) as HF.
  { intros w (d' & Ht & Hp & Hw). eapply at_files_between; [|exact Hw]. by eapply entered_between; [apply Hkept|]. }
  eapply triple_bind; [eapply triple_conseq; [by eapply (evict_triple store (n + 1) d n)|done|intros a w Hw; exact Hw|exact HF..]|].
  intros overflow. apply triple_encoded; [exact HF|]. intros doc Hm.
  destruct (pointer_reads c (n + 1) _ doc He Hv Hok Hm) as [Hr Hlen].
  apply triple_exists. intros d' w (Ht & Hp & Hw). destruct (Hkept d' Ht Hp) as (Hso' & Hi' & x' & Hx' & Hox' & _).
  exact (publish_triple store k oc c d' n _ doc Hso' Hi' Hk (ex_intro _ x' (conj Hx' Hox')) Hlen Hr w Hw).
Qed.

Lemma enter_triple store k oc c d n o : Settled store (k + 1) oc d ->
  (forall entry, d !! (indexDir, indexName (n + 1)) = None -> 0 < doc_len entry <= MaxCheckpointBytes ->
     readIndexEntry entry = Some (entry_of c (n + 1)) -> entered_at store oc c n (<[(indexDir, indexName (n + 1)) := entry]> d)) ->
  exact c = true -> Checkpoint_Validate c = Ok tt -> sequence_ok (n + 1) -> n <= k ->
  triple (at_files d)
    (encodedEntry ← lift (encoded_with json_Marshal (entry_of c (n + 1)));
     _ ← writeRecord torn store OpIndex indexDir (indexName (n + 1)) encodedEntry false;
     overflow ← evictIndexLocked readIndexEntry;
     encodedPointer ← lift (encoded_with json_Marshal (pointer_of c (n + 1) (o || overflow)));
     writeRecord torn store OpPointer rootDir pointerName encodedPointer true)
    (fun _ w => Settled store (k + 1) (Some c) (files w) /\ is_ok (pointerLocked (files w)) = true)
    (in_between store (k + 1) oc c) (in_between store (k + 1) oc c).
Proof.
  intros Hs Hent He Hv Hok Hk. assert (forall w, at_files d w -> in_between store (k + 1) oc c w) as HF.
  { intros w Hw. eapply at_files_between; [by left|done]. }
  apply triple_encoded; [exact HF|]. intros entry Hm. destruct (entry_reads c (n + 1) entry He Hv Hok Hm) as [Hr Hlen].
  eapply triple_bind.
  { eapply triple_conseq; [apply (writeRecord_triple store OpIndex indexDir (indexName (n + 1)) entry false d), indexName_shown
      |done|intros a w Hw; exact Hw| |].
    all: intros w [Hw|[Hw Hidx]]; [by apply HF|]. all: eapply at_files_between; [|exact Hw]; by eapply entered_between; [apply Hent; auto|]. }
  intros []. apply triple_wrote. intros Hidx. by apply pointer_triple; [apply Hent; auto|..].
Qed.

(** The writes of an append, from files whose latest checkpoint is known. *)
Lemma append_writes_triple store k d x l c doc : Sound store k d -> Current d x -> describes x l -> generation_guard l c = Ok tt ->
  Checkpoint_Validate c = Ok tt -> exact c = true -> 0 <= k < max_u64 ->
  json_Marshal c = Some doc -> doc_len doc <= MaxCheckpointBytes ->
  let sequence := u64 (Latest.sequence l + 1) in
  triple (at_files d)
    (_ ← writeRecord torn store OpCheckpoint checkpointDir (recordName (Checkpoint.ID c)) doc false;
     encodedEntry ← lift (encoded_with json_Marshal (entry_of c sequence));
     _ ← writeRecord torn store OpIndex indexDir (indexName sequence) encodedEntry false;
     overflow ← evictIndexLocked readIndexEntry;
     encodedPointer ← lift (encoded_with json_Marshal (pointer_of c sequence (Latest.overflow l || overflow)));
     writeRecord torn store OpPointer rootDir pointerName encodedPointer true)
    (fun _ w => Settled store (k + 1) (Some c) (files w) /\ is_ok (pointerLocked (files w)) = true)
    (in_between store (k + 1) (fst <$> x) c) (in_between store (k + 1) (fst <$> x) c).
Proof.
  intros Hso Hc Hd Hg Hv He Hk Hm Hlen sequence.
  destruct (current_sequence _ _ _ _ _ Hso Hc Hd ltac:(lia)) as [Hn Hle].
  assert (sequence = Latest.sequence l + 1) as Hseq by (apply u64_small; lia). clearbody sequence. subst sequence.
  destruct (record_reads c doc He Hm) as [Hr Hpos]. pose proof (valid_checkpoint c Hv) as (Hid & _).
  assert (Settled store (k + 1) (fst <$> x) d) as Hs0 by (exists x; split_and!; [eapply Sound_weaken; [|done]; lia|done..]).
  assert (d !! (checkpointDir, recordName (Checkpoint.ID c)) = None ->
    Settled store (k + 1) (fst <$> x) (<[(checkpointDir, recordName (Checkpoint.ID c)) := doc]> d)) as Hs1.
  { intros Hrec. pose proof (add_record d (Checkpoint.ID c) doc Hrec) as Ht.
    exists x. split_and!; [eapply Sound_weaken; [|by eapply trimmed_Sound]; lia| |done].
    eapply trimmed_Current; [exact Hso|exact Ht|by rewrite lookup_insert_ne|done|done]. }
  eapply triple_bind.
  { eapply triple_conseq; [by apply (writeRecord_triple store OpCheckpoint checkpointDir (recordName (Checkpoint.ID c)) doc false d),
      recordName_shown|done|intros a w Hw; exact Hw| |].
    all: intros w [Hw|[Hw Hrec]]; (eapply at_files_between; [left|exact Hw]); auto. }
  intros []. apply triple_wrote. intros Hrec. specialize (Hrec eq_refl).
  apply enter_triple; [by apply Hs1| |done|done|unfold sequence_ok; lia|lia].
  intros entry Hidx Hle' Hre.
  destruct (entered store k d x l c doc entry Hso Hc Hd Hg Hv Hk Hr ltac:(lia) Hrec Hidx Hle' Hre) as (H1 & H2 & x' & H3 & H4 & H5).
  split_and!; [done..|]. exists x'. split_and!; [done| |done]. destruct H4 as [-> | ->]; auto.
Qed.

Lemma append_triple store k oc c d : Settled store k oc d -> exact c = true -> 0 <= k < max_u64 ->
  triple (at_files d) (Append torn readIndexEntry readPointer store c)
    (fun _ w => Settled store (k + 1) (Some c) (files w) /\ is_ok (pointerLocked (files w)) = true)
    (in_between store (k + 1) oc c) (in_between store (k + 1) oc c).
Proof.
  intros Hs He Hk. assert (forall w, at_files d w -> in_between store (k + 1) oc c w) as HF.
  { intros w Hw. eapply at_files_between; [left|exact Hw]. eapply Settled_weaken; [|done]. lia. }
  unfold Append. destruct (Checkpoint_Validate c) as [[]|] eqn:Hv; [|intros w Hw; by apply HF]. intros w Hw.
  assert (Settled store k oc (files w)) as (x & Hso & Hc & <-) by (eapply same_Settled; [|exact Hs]; by symmetry).
  destruct (current_latest _ _ _ _ Hso Hc) as (l & Hl & Hd). specialize (HF w Hw).
  unfold lift, get, mbind, M_bind. rewrite Hl. destruct (generation_guard l c) as [[]|] eqn:Hg; [|done].
  unfold encoded_with. destruct (json_Marshal c) as [doc|] eqn:Hm; [|done]. simpl of_option. cbv beta iota.
  destruct (Z.ltb_spec MaxCheckpointBytes (doc_len doc)) as [Hb|Hb]; [done|].
  exact (append_writes_triple store k (files w) x l c doc Hso Hc Hd Hg Hv He Hk Hm Hb w (same_equivalence.(Equivalence_Reflexive) _)).
Qed.

(** ** Runs *)

(** Attempts to append, each under a script of its own, and what a start may find after
    them: the checkpoint of the last one that returned, or of one attempted since. *)
Fixpoint attempts (store : Store.t) (d : Files) (possible : list (option Checkpoint.t))
    (l : list (Checkpoint.t * list Faults.Outcome)) : Files * list (option Checkpoint.t) :=
  match l with
  | [] => (d, possible)
  | (c, script) :: rest =>
      match Append torn readIndexEntry readPointer store c (mkWorld d script) with
      | (w, Done _) => attempts store (files w) [Some c] rest
      | (w, _) => attempts store (files w) (Some c :: possible) rest
      end
  end.

Lemma empty_settled store : Settled store 0 None ∅.
Proof.
  exists None. split_and!; [|apply current_none; [done|]|done].
  - split; [intros name doc Hd _; by rewrite lookup_empty in Hd| | |]; intros s *; intros (_ & _ & ? & Hd & _); by rewrite lookup_empty in Hd.
  - intros s c (_ & _ & ? & Hd & _). by rewrite lookup_empty in Hd.
Qed.

Lemma attempts_settled store l k d possible d' possible' :
  (exists oc, oc ∈ possible /\ Settled store k oc d) -> (forall c, possible = [Some c] -> is_ok (pointerLocked d) = true) ->
  0 <= k -> k + len l <= max_u64 -> forallb (fun a => exact a.1) l = true ->
  attempts store d possible l = (d', possible') ->
  (exists k' oc, oc ∈ possible' /\ Settled store k' oc d') /\ (forall c, possible' = [Some c] -> is_ok (pointerLocked d') = true).
Proof.
  revert k d possible. induction l as [|[c script] l IH]; intros k d possible (oc & Hin & Hs) Hp Hk Hb He Ha; simpl in *.
  { injection Ha as <- <-. split; [by exists k, oc|done]. }
  apply andb_true_iff in He as [He Hl].
  pose proof (append_triple store k oc c d Hs He ltac:(lia) (mkWorld d script) ltac:(intros path Hpath; done)) as Hap.
  destruct (Append _ _ _ _ _ _) as [w [[]|e|]].
  - destruct Hap as [Hset Hptr]. apply (IH (k + 1) _ _) in Ha; [done| |intros; done|lia|lia|done].
    exists (Some c). split; [by left|done].
  - apply (IH (k + 1) _ _) in Ha; [done| |intros c' [= _ ->]; by apply elem_of_nil in Hin|lia|lia|done].
    destruct Hap as [Hap|Hap]; [exists oc; split; [by right|done]|exists (Some c); split; [by left|done]].
  - apply (IH (k + 1) _ _) in Ha; [done| |intros c' [= _ ->]; by apply elem_of_nil in Hin|lia|lia|done].
    destruct Hap as [Hap|Hap]; [exists oc; split; [by right|done]|exists (Some c); split; [by left|done]].
Qed.

(** C5: Whatever is refused and wherever the machine stops, a start after any attempts to
    append succeeds: it finds the checkpoint of the last append that returned or of one
    attempted since, with its lineage proven, and says that there is nothing only if no
    append has returned.  After an append that returned it calls its checkpoint the latest. *)
Theorem lineage_survives store l d possible :
  forallb (fun a => exact a.1) l = true -> len l <= max_u64 -> attempts store ∅ [None] l = (d, possible) ->
  exists r, ResumeFrom store d = Ok r /\ Resume.Checkpoint r ∈ possible /\
    (Usable r = bool_decide (is_Some (Resume.Checkpoint r))) /\
    (Resume.Checkpoint r = None -> Resume.Status r = ResumeGenesis) /\
    (forall c, possible = [Some c] -> Resume.Status r = ResumeLatest).
Proof.
  intros He Hb Ha.
  destruct (attempts_settled store l 0 ∅ [None] d possible) as [(k & oc & Hin & x & Hso & Hc & <-) Hp]; [|done|lia|lia|done|done|].
  { exists None. split; [by left|]. apply empty_settled. }
  destruct (current_resume _ _ _ _ Hso Hc) as (r & Hr & Hx & Hst). exists r.
  destruct x as [[c n]|]; simpl in Hx, Hin.
  - destruct Hx as (H1 & H2 & H3). rewrite H1, H2. split_and!; [done..|]. intros c' Hpos. apply Hst. by eapply Hp.
  - subst r. split_and!; [done..|]. intros c' ->. apply list_elem_of_singleton in Hin. done.
Qed.

(** ** Two starts that leave the store unable to take another checkpoint *)

(** When an append stopped between the entry and the pointer, the entry's place in the
    index is taken for good: the pointer still names the place before it, and every later
    append fails to publish there. *)
Lemma interrupted_append_blocks store w c p :
  pointerLocked (files w) = Ok p -> is_Some (files w !! (indexDir, indexName (u64 (Pointer.Sequence p + 1)))) ->
  match Append torn readIndexEntry readPointer store c w with (_, Done _) => False | _ => True end.
Proof.
  intros Hp [doc Hd]. unfold Append, lift, get, mbind, M_bind, mret, M_ret. destruct (Checkpoint_Validate c) as [[]|] eqn:Hv; [|done].
  unfold ConnStore.latestLocked. rewrite Hp. destruct (generation_guard _ c) as [[]|]; [|done]. unfold encoded_with.
  destruct (json_Marshal c) as [encoded|]; [|done]. simpl of_option. cbv beta iota. destruct (MaxCheckpointBytes <? doc_len encoded); [done|].
  cbn [Latest.sequence Latest.overflow]. set (name := indexName _) in *.
  pose proof (valid_checkpoint c Hv) as (Hid & _).
  pose proof (writeRecord_triple store OpCheckpoint checkpointDir (recordName (Checkpoint.ID c)) encoded false (files w)
    (recordName_shown _ Hid) w (same_equivalence.(Equivalence_Reflexive) _)) as H1.
  destruct (writeRecord _ store OpCheckpoint _ _ _ _ w) as [w1 [[]|e|]]; [|done..]. destruct H1 as [H1 _].
  destruct (json_Marshal (entry_of c _)) as [entry|]; [|done]. simpl of_option. cbv beta iota.
  pose proof (writeRecord_triple store OpIndex indexDir name entry false _ (indexName_shown _) w1 H1) as H2.
  destruct (writeRecord _ store OpIndex _ _ _ _ w1) as [w2 [[]|e|]]; [|done..]. destruct H2 as [_ H2].
  specialize (H2 eq_refl). rewrite lookup_insert_ne in H2 by done. congruence.
Qed.

(** A start that recovered an ancestor continues from it, and the guard takes only a child
    of what the pointer names. *)
Lemma ancestor_cannot_be_continued store w c p :
  pointerLocked (files w) = Ok p -> Checkpoint_Validate c = Ok tt ->
  Checkpoint.Parent c <> "" -> Checkpoint.Parent c <> Pointer.ID p ->
  Append torn readIndexEntry readPointer store c w = (w, Failed ErrGenerationGuard).
Proof.
  intros Hp Hv H1 H2. unfold Append, lift, get, mbind, M_bind. rewrite Hv. unfold ConnStore.latestLocked. rewrite Hp.
  unfold generation_guard. cbn [Latest.present Latest.id].
  rewrite (proj2 (String.eqb_neq _ _) H1), (proj2 (String.eqb_neq _ _) H2). by destruct (bool_decide _).
Qed.
End lineage.

(** ** A concrete store *)

Module LineageSample.
Inductive document := OfSnapshot (s : Snapshot.t) | OfCheckpoint (c : Checkpoint.t) | OfEntry (e : IndexEntry.t) | OfPointer (p : Pointer.t) | Torn.

#[global] Instance document_eq_dec : EqDecision document.
Proof. solve_decision. Defined.

Definition zeros : string := "0000000000000000000000000000000000000000000000000000000000000000".

#[global] Instance json : JSON := {|
  Doc := document; doc_len := fun _ => 1; Transform := Some; SHA256Hex := fun _ => zeros |}.
#[global] Instance snapshot_codec : Codec Snapshot.t := {|
  json_Marshal := fun v => Some (OfSnapshot v); strictJSONDecode := fun d => match d with OfSnapshot v => Some v | _ => None end;
  exact := fun _ => true |}.
#[global] Instance checkpoint_codec : Codec Checkpoint.t := {|
  json_Marshal := fun v => Some (OfCheckpoint v); strictJSONDecode := fun d => match d with OfCheckpoint v => Some v | _ => None end;
  exact := fun _ => true |}.
#[global] Instance entry_codec : Codec IndexEntry.t := {|
  json_Marshal := fun v => Some (OfEntry v); strictJSONDecode := fun d => match d with OfEntry v => Some v | _ => None end;
  exact := fun _ => true |}.
#[global] Instance pointer_codec : Codec Pointer.t := {|
  json_Marshal := fun v => Some (OfPointer v); strictJSONDecode := fun d => match d with OfPointer v => Some v | _ => None end;
  exact := fun _ => true |}.

Abbreviation read_record := (strictJSONDecode (T := Checkpoint.t)).
Abbreviation read_index := (strictJSONDecode (T := IndexEntry.t)).
Abbreviation read_pointer := (strictJSONDecode (T := Pointer.t)).

#[global] Instance laws : LineageLaws read_record read_index read_pointer.
Proof.
  split; [done|..].
  - intros c d _ [= <-]. done.
  - intros c s d _ _ _ [= <-]. done.
  - intros c s o d _ _ _ [= <-]. done.
Qed.

Definition snapshot (generation : Z) : Snapshot.t := render AggregateSample.first (start AggregateSample.first) generation.

Definition link (id parent : string) (generation : Z) : Checkpoint.t :=
  Checkpoint.mk CheckpointSchema CheckpointSchemaVersion id parent (if String.eqb parent "" then "" else zeros) None "" None 0 0 []
    AggregateSample.descriptor ReducerID ReducerVersion generation zeros (snapshot generation) zeros zeros zeros.

Lemma link_valid : forallb (fun c => is_ok (Checkpoint_Validate c)) [link "a" "" 1; link "b" "a" 2; link "c" "b" 3; link "d" "a" 2] = true.
Proof. vm_compute. reflexivity. Qed.

Definition store : Store.t := Store.mk 8 [].

(** After so many steps the machine stops; the twenty-second of an append is the rename
    of the pointer. *)
Definition stopping (n : nat) : list Faults.Outcome := (repeat Carried n ++ [Crash])%list.

Definition torn : @Doc json := Torn.
Abbreviation after l := (attempts torn read_index read_pointer store ∅ [None] l).
Abbreviation resume_at d := (ResumeFrom read_record read_index read_pointer store d).
Abbreviation append c w := (Append torn read_index read_pointer store c w).

Definition found_at (r : result checkpoint_error Resume.t) : option (ResumeStatus * option string * ResumeReason * Z) :=
  match r with
  | Ok r => Some (Resume.Status r, Checkpoint.ID <$> Resume.Checkpoint r, Resume.Reason r, Resume.Depth r)
  | Err _ => None
  end.

Definition interrupted : list (Checkpoint.t * list Faults.Outcome) := [(link "a" "" 1, []); (link "b" "a" 2, stopping 21)].

Lemma interrupted_found : (found_at (resume_at (after interrupted).1), map (fmap Checkpoint.ID) (after interrupted).2) =
  (Some (ResumeLatest, Some "a", ResumeReasonNone, 0), [Some "b"; Some "a"]).
Proof. vm_compute. reflexivity. Qed.

Lemma interrupted_exact : forallb (fun a => exact a.1) interrupted = true.
Proof. reflexivity. Qed.

Lemma lineage_survives_witness : exists r, resume_at (after interrupted).1 = Ok r /\ Resume.Checkpoint r ∈ (after interrupted).2.
Proof.
  destruct (lineage_survives torn read_record read_index read_pointer store interrupted (after interrupted).1 (after interrupted).2
    interrupted_exact ltac:(vm_compute; discriminate) (surjective_pairing _)) as (r & H1 & H2 & _). exact (ex_intro _ r (conj H1 H2)).
Defined.

(** The record of the newest checkpoint is lost. *)
Definition lost : gmap (string * string) (@Doc json) :=
  delete (checkpointDir, recordName "b") (after [(link "a" "" 1, []); (link "b" "a" 2, [])]).1.

Lemma lost_found : found_at (resume_at lost) = Some (ResumeAncestor, Some "a", ResumeReasonRecordMissing, 1).
Proof. vm_compute. reflexivity. Qed.


(** Both ways into a store that takes no more checkpoints: the child of what the start
    resumed from is refused, on a disk that refuses nothing. *)
Lemma stuck_after_interruption : (append (link "d" "a" 2) (mkWorld (after interrupted).1 [])).2 = Failed ErrStoreUnavailable.
Proof. vm_compute. reflexivity. Qed.

Lemma stuck_after_recovery : (append (link "d" "a" 2) (mkWorld lost [])).2 = Failed ErrGenerationGuard.
Proof. vm_compute. reflexivity. Qed.
End LineageSample.
