(* ===== verification/ConnJournal.v ===== *)
(** * The journal of folded facts

    [internal/connectivityjournal/journal.go]: one privilege domain's facts, written to a
    spool of its own in the order in which they were folded.  The world is the one of
    [Spool]; a read that the spool refuses is an error of the journal.  [Mirror] is a
    parameter of [Append]: no sink, or what the sink answered.  The journal's own directory
    is described by what [Open] finds in it. *)

From Stdlib Require Import ZArith Lia Ascii String.
From stdpp Require Import base strings list option sets gmap sorting.
From S2P Require Import Prelude GoTime PolicyModel PolicyCanonical Connectivity ConnAccept Metadata Events Faults Spool SpoolSafety.

Open Scope string_scope.
Open Scope Z_scope.

Inductive journal_error :=
| ErrJournalDomain
| ErrCorruptRecord
| ErrSequenceReused
| ErrSpool (e : spool_error)
| ErrFact (e : conn_error)
| ErrEvent (e : event_error).

Definition RecordFormat := "hexroute.connectivity-journal.folded.v1".
Definition formatFilename := ".record-format".

(** [Record]: one fact with the metadata of its acceptance. *)
Module JournalRecord.
Record t := mk {
  HostSequence : Z;
  FoldPosition : Z;
  Outcome : string;
  Role : SourceRole;
  Digest : string;
  Fact : Fact.t
}.
#[global] Instance eq_dec : EqDecision t.
Proof. solve_decision. Defined.
End JournalRecord.

(** [Journal], without its spool and its sink. *)
Module Journal.
Record t := mk {
  domain : Domain;
  superseded : bool;
  mirrorFailures : Z
}.
End Journal.

(** ** The format of a journal on disk *)

Definition is_space (c : ascii) : bool := in_range "009" "013" c || Ascii.eqb c " ".

Fixpoint trim_left (l : list ascii) : list ascii :=
  match l with
  | [] => []
  | c :: rest => if is_space c then trim_left rest else l
  end.

(** [strings.TrimSpace], of ASCII text. *)
Definition TrimSpace (s : string) : string := of_chars (rev (trim_left (rev (trim_left (chars s))))).

(** What is at the path of a journal: its marker, its directory and the name it would be
    moved to.  [None] is what is not there, [Some (Err _)] what cannot be read. *)
Module JournalPath.
Record t := mk {
  marker : option (result unit string);
  entries : option (result unit (list string));
  aside : bool
}.
End JournalPath.

(** Whether there are records in a format that is not this one, and whether they may be
    moved aside. *)
Definition foreign_records (path : JournalPath.t) : result journal_error bool :=
  match JournalPath.entries path with
  | None => Ok false
  | Some (Err _) => Err ErrCorruptRecord
  | Some (Ok names) =>
      if negb (existsb (fun name => negb (String.eqb name formatFilename)) names) then Ok false
      else if JournalPath.aside path then Err ErrCorruptRecord else Ok true
  end.

Definition foreign_format (path : JournalPath.t) : result journal_error bool :=
  match JournalPath.marker path with
  | Some (Err _) => Err ErrCorruptRecord
  | Some (Ok marker) => if String.eqb (TrimSpace marker) RecordFormat then Ok false else foreign_records path
  | None => foreign_records path
  end.

Section journal.
Context `{JSON} `{!EventCodecs} `{!Codec Fact.t} `{!Codec wireEntry.t} `{!Codec ownerMarker.t}.
Context (torn : Doc) (envelope : Doc -> option Envelope.t) (clock : nat -> Z * Z).

Abbreviation Prog := (M World journal_error).

(** A program of the spool, with its errors passed on. *)
Definition spooled {A} (m : M World spool_error A) : Prog A := fun w =>
  match m w with
  | (w', Done a) => (w', Done a)
  | (w', Failed e) => (w', Failed (ErrSpool e))
  | (w', Crashed) => (w', Crashed)
  end.

(** A step of the journal's own on its directory; the spool is below it. *)
Definition own_step (m : M World spool_error unit) : Prog unit := fun w =>
  match m w with
  | (w', Done a) => (w', Done a)
  | (w', Failed _) => (w', Failed ErrCorruptRecord)
  | (w', Crashed) => (w', Crashed)
  end.

(** Moved aside, the spool is gone with its directory. *)
Definition supersedeForeignFormat (path : JournalPath.t) : Prog bool :=
  foreign ← lift (foreign_format path);
  if (foreign : bool) then _ ← own_step (perform (fun _ => Some ∅)); mret true else mret false.

Definition owner_of (domain : Domain) : result journal_error Owner :=
  if String.eqb domain DomainRoot then Ok OwnerRoot
  else if String.eqb domain DomainUser then Ok OwnerUser
  else Err ErrJournalDomain.

(** [Open], over the files of the spool directory and the script of the disk. *)
Definition Open (path : JournalPath.t) (p : place) (temp : string) (domain : Domain) (maximum : Z) (node : string)
    (random : list Z) (disk : gmap string File.t) (steps : list Faults.Outcome) : World * run journal_error Journal.t :=
  let w := mkWorld disk steps 0 maximum (mkGenerator "" "" 0 0 0 []) [] None 0 0 in
  match owner_of domain with
  | Err e => (w, Failed e)
  | Ok owner =>
      match (superseded ← supersedeForeignFormat path; _ ← own_step flush; mret superseded) w with
      | (w', Failed e) => (w', Failed e)
      | (w', Crashed) => (w', Crashed)
      | (w', Done superseded) =>
          match Spool.Open torn envelope clock true (if (superseded : bool) then Missing else p) temp owner maximum node random
                  (dir w') (script w') with
          | (w'', Failed e) => (w'', Failed (ErrSpool e))
          | (w'', Crashed) => (w'', Crashed)
          | (w'', Done _) => (_ ← own_step flush; mret (Journal.mk domain superseded 0)) w''
          end
      end
  end.

(** ** Writing *)

(** [None] is a journal without a sink, [Some ok] whether the sink took the record. *)
Definition mirrorRecord (journal : Journal.t) (sink : option bool) : Journal.t :=
  match sink with
  | Some false => Journal.mk (Journal.domain journal) (Journal.superseded journal) (u64 (Journal.mirrorFailures journal + 1))
  | _ => journal
  end.

Definition Append (journal : Journal.t) (sink : option bool) (fact : Fact.t) (hostSequence foldPosition : Z) (outcome : string)
    (role : SourceRole) : Prog Journal.t :=
  if negb (bool_decide (Fact.Domain fact = Journal.domain journal)) then fail ErrJournalDomain
  else
    _ ← lift (map_err ErrFact (ClassifyConnectivityFact fact (Journal.domain journal)));
    if (foldPosition =? 0) || String.eqb outcome "" then fail ErrCorruptRecord
    else
      made ← lift (map_err ErrFact (CanonicalConnectivityRecord fact hostSequence foldPosition outcome role));
      encoded ← lift (map_err ErrEvent (Events.Encode made.1 (PConnectivityFact made.2)));
      _ ← spooled (Spool.Append torn envelope clock encoded);
      mret (mirrorRecord journal sink).

(** ** Reading *)

(** [record]: [None] is an event of another class. *)
Definition record (entry : Entry.t) : result journal_error (option JournalRecord.t) :=
  match Events.Decode (Entry.Event entry) with
  | Err _ => Err ErrCorruptRecord
  | Ok decoded =>
      match asConnectivityFact (EventRecord.Payload decoded) with
      | None => Ok None
      | Some payload =>
          match DecodeConnectivityFact payload with
          | Err _ => Err ErrCorruptRecord
          | Ok fact =>
              Ok (Some (JournalRecord.mk (ConnectivityFact.HostSequence payload) (ConnectivityFact.FoldPosition payload)
                (ConnectivityFact.Outcome payload) (ConnectivityFact.Role payload) (ConnectivityFact.Digest payload) fact))
          end
      end
  end.

Definition by_fold (x y : JournalRecord.t) : bool := JournalRecord.FoldPosition x <? JournalRecord.FoldPosition y.

(** The loop of [Records], with the digests seen at each position. *)
Fixpoint collect (seen : gmap Z string) (entries : list Entry.t) : result journal_error (list JournalRecord.t) :=
  match entries with
  | [] => Ok []
  | entry :: rest =>
      found ← record entry;
      match found with
      | None => collect seen rest
      | Some r =>
          let clash := match seen !! JournalRecord.FoldPosition r with
            | Some previous => negb (String.eqb previous (JournalRecord.Digest r)) | None => false end in
          if clash then Err ErrSequenceReused
          else
            records ← collect (<[JournalRecord.FoldPosition r := JournalRecord.Digest r]> seen) rest;
            Ok (r :: records)
      end
  end.

Definition Records : Prog (list JournalRecord.t) :=
  entries ← spooled (Entries);
  records ← lift (collect ∅ entries);
  mret (sort_slice by_fold records).

(** The loop of [tailAfter], over the sequences from the newest; what it collects is in
    the order in which it was folded. *)
Fixpoint tail_loop (watermark : Z) (newest_first : list Z) (out : list JournalRecord.t) : Prog (list JournalRecord.t) :=
  match newest_first with
  | [] => mret out
  | sequence :: older =>
      held ← spooled (EntryAt sequence);
      match held with
      | None => tail_loop watermark older out
      | Some entry =>
          found ← lift (record entry);
          match found with
          | None => tail_loop watermark older out
          | Some r => if JournalRecord.FoldPosition r <=? watermark then mret out else tail_loop watermark older (r :: out)
          end
      end
  end.

Definition tailAfter (watermark : Z) : Prog (list JournalRecord.t) :=
  sequences ← spooled Sequences; tail_loop watermark (rev sequences) [].

Fixpoint continuous (expected : Z) (records : list JournalRecord.t) : bool :=
  match records with
  | [] => true
  | r :: rest => (JournalRecord.FoldPosition r =? expected) && continuous (u64 (expected + 1)) rest
  end.

Definition RecordsAfter (watermark : Z) : Prog (list JournalRecord.t * bool) :=
  out ← tailAfter watermark; mret (out, continuous (u64 (watermark + 1)) out).

Fixpoint newest_loop (newest_first : list Z) : Prog (option JournalRecord.t) :=
  match newest_first with
  | [] => mret None
  | sequence :: older =>
      held ← spooled (EntryAt sequence);
      match held with
      | None => newest_loop older
      | Some entry =>
          found ← lift (record entry);
          match found with
          | None => newest_loop older
          | Some r => mret (Some r)
          end
      end
  end.

Definition Newest : Prog (option JournalRecord.t) := sequences ← spooled Sequences; newest_loop (rev sequences).

(** The loop of [LatestBaselines]. *)
Definition note_baseline (latest : gmap Component JournalRecord.t) (r : JournalRecord.t) : gmap Component JournalRecord.t :=
  if negb (Fact.Baseline (JournalRecord.Fact r)) then latest
  else match latest !! Fact.Component (JournalRecord.Fact r) with
       | Some existing =>
           if JournalRecord.HostSequence r <? JournalRecord.HostSequence existing then latest
           else <[Fact.Component (JournalRecord.Fact r) := r]> latest
       | None => <[Fact.Component (JournalRecord.Fact r) := r]> latest
       end.

Definition LatestBaselines : Prog (gmap Component JournalRecord.t) :=
  records ← Records; mret (fold_left note_baseline records ∅).
End journal.

(** ** Reading from the end *)

Section reading.
Context `{JSON} `{!EventCodecs} `{!Codec Fact.t} `{!Codec wireEntry.t} `{!Codec ownerMarker.t}.

(** What is filed under a sequence: a record of this journal, or something that is not. *)
Definition read_at (d : gmap string File.t) (sequence : Z) : result journal_error (option JournalRecord.t) :=
  match readEntry d (stableName sequence) with
  | Err ErrNotExist => Ok None
  | Err e => Err (ErrSpool e)
  | Ok entry => if negb (Entry.Sequence entry =? sequence) then Err (ErrSpool ErrCorruptSpool) else record entry
  end.

(** The journal as a whole, in the order of the spool. *)
Definition read_all (d : gmap string File.t) (sequences : list Z) : result journal_error (list JournalRecord.t) :=
  found ← mapM (read_at d) sequences; Ok (omap id found).

Definition earlier_fold (x y : JournalRecord.t) : Prop := JournalRecord.FoldPosition x < JournalRecord.FoldPosition y.

Definition after (watermark : Z) (r : JournalRecord.t) : bool := watermark <? JournalRecord.FoldPosition r.

Fixpoint take_while {A} (p : A -> bool) (l : list A) : list A :=
  match l with [] => [] | x :: l => if p x then x :: take_while p l else [] end.

Lemma take_while_filter {A} (p : A -> bool) (R : A -> A -> Prop) l : StronglySorted R l ->
  (forall x y, R x y -> p x = false -> p y = false) -> take_while p l = List.filter p l.
Proof.
  intros Hs Hp. induction Hs as [|x l _ IH Hx]; [done|]. simpl. destruct (p x) eqn:Hpx; [by rewrite IH|].
  clear IH. induction Hx as [|y l Hxy _ IH]; [done|]. simpl. by rewrite (Hp x y Hxy Hpx).
Qed.

(** The loops read each sequence once, and leave the directory alone. *)
Lemma held_step {A} s w (k : option JournalRecord.t -> M World journal_error A) :
  (held ← spooled (EntryAt s);
   match held with None => k None | Some entry => found ← lift (record entry); k found end) w =
  match read_at (dir w) s with
  | Ok o => k o (set_opens (opens w + 1) w)
  | Err e => (set_opens (opens w + 1) w, Failed e)
  end.
Proof.
  unfold spooled, EntryAt, read_at, update, get, mbind, M_bind, lift. cbn [dir set_opens].
  destruct (readEntry (dir w) (stableName s)) as [entry|[]]; try reflexivity.
  destruct (negb _); [reflexivity|]. unfold mret, M_ret. by destruct (record entry).
Qed.

Lemma tail_loop_reads watermark l out w found : mapM (read_at (dir w)) l = Ok found ->
  exists w', tail_loop watermark l out w = (w', Done (rev (take_while (after watermark) (omap id found)) ++ out)%list) /\ dir w' = dir w.
Proof.
  revert out w found. induction l as [|s l IH]; intros out w found; cbn [mapM].
  { intros [= <-]. by exists w. }
  intros (o & Ho & (rest & Hr & [= <-])%bind_Ok)%bind_Ok. cbn [tail_loop].
  pose proof (held_step s w (fun found => match found with
    | None => tail_loop watermark l out
    | Some r => if JournalRecord.FoldPosition r <=? watermark then mret out else tail_loop watermark l (r :: out) end)) as Hs.
  cbv beta in Hs. rewrite Hs, Ho. destruct o as [r|]; [|exact (IH out (set_opens (opens w + 1) w) rest Hr)]. cbn [omap list_omap id take_while]. unfold after at 1.
  destruct (Z.leb_spec (JournalRecord.FoldPosition r) watermark) as [Hle|Hgt].
  - rewrite (proj2 (Z.ltb_ge _ _)) by lia. by eexists.
  - rewrite (proj2 (Z.ltb_lt _ _)) by lia. destruct (IH (r :: out) (set_opens (opens w + 1) w) rest Hr) as (w' & -> & Hd).
    exists w'. cbn [rev]. by rewrite <- app_assoc.
Qed.

Lemma newest_loop_reads l w found : mapM (read_at (dir w)) l = Ok found ->
  exists w', newest_loop l w = (w', Done (head (omap id found))) /\ dir w' = dir w.
Proof.
  revert w found. induction l as [|s l IH]; intros w found; cbn [mapM].
  { intros [= <-]. by exists w. }
  intros (o & Ho & (rest & Hr & [= <-])%bind_Ok)%bind_Ok. cbn [newest_loop].
  pose proof (held_step s w (fun found => match found with None => newest_loop l | Some r => mret (Some r) end)) as Hs.
  cbv beta in Hs. rewrite Hs, Ho. destruct o as [r|]; [by eexists|exact (IH (set_opens (opens w + 1) w) rest Hr)].
Qed.

Lemma mapM_rev {A B} (f : A -> result journal_error B) l k : mapM f l = Ok k -> mapM f (rev l) = Ok (rev k).
Proof.
  rewrite !mapM_Ok. induction 1 as [|x y l k Hxy _ IH]; [constructor|]. simpl. apply Forall2_app; [done|]. by constructor.
Qed.

Lemma omap_rev {A} (l : list (option A)) : omap id (rev l) = rev (omap id l).
Proof. induction l as [|[x|] l IH]; [done|..]; simpl; rewrite omap_app, IH; simpl; [done|by rewrite app_nil_r]. Qed.

Lemma sorted_rev {A} (R : A -> A -> Prop) l : StronglySorted R l -> StronglySorted (fun x y => R y x) (rev l).
Proof.
  induction 1 as [|x l _ IH Hx]; [constructor|]. simpl. apply sorted_app; [done|repeat constructor|].
  intros y z Hy%list_elem_of_In%in_rev%list_elem_of_In ->%list_elem_of_singleton. by eapply Forall_forall in Hy.
Qed.

Lemma continuous_spec expected l : 0 <= expected -> expected + len l <= max_u64 ->
  continuous expected l = bool_decide (map JournalRecord.FoldPosition l = seqZ expected (len l)).
Proof.
  revert expected. induction l as [|r l IH]; intros expected Hz Hm; [done|]. cbn [continuous map]. cbn [length] in *.
  rewrite u64_small, IH by lia. rewrite (seqZ_cons expected) by lia. replace (Z.succ expected) with (expected + 1) by lia.
  replace (Z.pred (Z.of_nat (S (length l)))) with (len l) by lia. apply eq_true_iff_eq.
  rewrite andb_true_iff, Z.eqb_eq, !bool_decide_eq_true. split; [by intros [-> ->]|by intros [= -> ->]].
Qed.

Lemma Sequences_dir w w1 r : Sequences w = (w1, r) -> dir w1 = dir w.
Proof.
  unfold Sequences, index, scanIndex, get, update, lift, mbind, M_bind, mret, M_ret. destruct (indexed w) as [records|]; [by intros [= <- _]|].
  destruct (result_bind _ _ _ _) as [records|e]; by intros [= <- _].
Qed.

End reading.

(** ** A journal of three facts *)

Module JournalSample.
Import EventSample SpoolSample.

Definition append (fold : Z) (w : World) : World :=
  fst (ConnJournal.Append torn envelope clock (Journal.mk (Fact.Domain fact) false 0) None fact fold fold
         OutcomeAccepted RoleAuthoritative w).

Definition written : World := append 6 (append 5 (append 4 (mkWorld ∅ [] 0 1000 generator [] None 0 0))).

Definition positions (r : result journal_error (list JournalRecord.t)) : list Z :=
  match r with Ok l => map JournalRecord.FoldPosition l | Err _ => [] end.

Lemma written_sequences : snd (Sequences written) = Done [1; 2; 3].
Proof. vm_compute. reflexivity. Qed.

Lemma written_positions : positions (read_all (dir written) [1; 2; 3]) = [4; 5; 6].
Proof. vm_compute. reflexivity. Qed.

Lemma positions_sorted l : map JournalRecord.FoldPosition l = [4; 5; 6] -> StronglySorted earlier_fold l.
Proof.
  destruct l as [|a [|b [|c [|]]]]; try discriminate. intros [= Ha Hb Hc].
  repeat constructor; unfold earlier_fold; lia.
Qed.

End JournalSample.
