(* ===== verification/ConnReplay.v ===== *)
(** * Replaying the journal onto a checkpoint

    [internal/connectivitycheckpoint]: [replay.go] and [verify.go].  A replay accepts the
    journalled facts again from the position that a checkpoint recorded and reduces them;
    a verification does so for every link of the lineage and compares what comes out with
    what the link recorded.  [SealFrom] makes the next link. *)

From Stdlib Require Import ZArith Lia Ascii String.
From stdpp Require Import base strings list option sets gmap sorting.
From S2P Require Import Prelude Faults PolicyModel PolicyCanonical Connectivity ConnJournal ConnAccept ConnReduce ConnAggregate ConnStore.

Open Scope string_scope.
Open Scope Z_scope.

Inductive ReplayStatus := ReplayComplete | ReplayJournalGap | ReplayUnavailable.

Inductive VerifyStatus := VerifyReproduced | VerifyDiverged | VerifyUnreplayable | VerifyGenesis | VerifyBroken.

#[global] Instance VerifyStatus_eq_dec : EqDecision VerifyStatus.
Proof. solve_decision. Defined.

Module ReplayInput.
Record t := mk {
  Wake : option Wake.t;
  Resume : Resume.t;
  Records : list JournalRecord.t;
  Continuous : bool;
  Policy : PolicyDescriptor.t;
  PolicyComponents : list ComponentPolicy.t;
  BootID : string;
  EvaluationTick : Tick
}.
End ReplayInput.

(** [ReplayResult]; the output is the zero value unless the replay completed. *)
Module ReplayResult.
Record t := mk {
  Status : ReplayStatus;
  Output : option Output.t
}.
End ReplayResult.

Module OutputDigests.
Record t := mk {
  Snapshot : string;
  Diff : string;
  Proposals : string
}.
#[global] Instance eq_dec : EqDecision t.
Proof. solve_decision. Defined.
End OutputDigests.

Module LinkResult.
Record t := mk {
  ID : string;
  Parent : string;
  Sequence : Z;
  Status : VerifyStatus;
  Recorded : OutputDigests.t;
  Reproduced : OutputDigests.t;
  ExpectedFrom : Z;
  ExpectedTo : Z;
  Found : Z
}.
End LinkResult.

Module VerifyResult.
Record t := mk {
  Links : list LinkResult.t;
  Reproduced : Z;
  Diverged : Z;
  Unreplayable : Z;
  LineageOverflow : bool;
  JournalError : bool
}.
End VerifyResult.

Definition no_digests : OutputDigests.t := OutputDigests.mk "" "" "".

Definition Sound (r : VerifyResult.t) : bool := VerifyResult.Diverged r =? 0.

(** ** The position that a checkpoint recorded *)

Definition state_of_watermark (w : SourceWatermark.t) : SourceState.t :=
  SourceState.mk (SourceWatermark.BootID w) (SourceWatermark.LastSequence w) (SourceWatermark.Recent w) (SourceWatermark.Gaps w)
    (SourceWatermark.GapOverflow w) (SourceWatermark.PendingBaseline w) (SourceWatermark.Conflicts w).

Definition recorded_state (c : Checkpoint.t) : State :=
  mkState (Snapshot.ConsumedHostSequence (Checkpoint.Snapshot c)) (Snapshot.ConsumedFoldPosition (Checkpoint.Snapshot c))
    (fold_left (fun sources w => <[SourceWatermark.Source w := state_of_watermark w]> sources) (Checkpoint.SourceWatermarks c) ∅).

Definition restoreAcceptor (c : Checkpoint.t) : result checkpoint_error State :=
  map_err (fun _ => ErrLineageBroken) (Restore (recorded_state c)).

Section replay.
Context `{JSON} `{!Codec Fact.t, !Codec semantic.t, !Codec Diff.t, !Codec Proposal.t}.
Context `{!Codec Snapshot.t} `{!Codec Checkpoint.t} `{!Codec (list Proposal.t)}.

(** The loop of [Replay]; [None] is a gap. *)
Fixpoint replay_records (consumedTo expected : Z) (acceptor : State) (records : list JournalRecord.t) :
    result checkpoint_error (option (list Event.t)) :=
  match records with
  | [] => Ok (Some [])
  | r :: rest =>
      if JournalRecord.FoldPosition r <=? consumedTo then replay_records consumedTo expected acceptor rest
      else
        let expected := u64 (expected + 1) in
        if negb (JournalRecord.FoldPosition r =? expected) then Ok None
        else match Accept acceptor (JournalRecord.Fact r) (Fact.Domain (JournalRecord.Fact r)) with
             | (_, _, Some _) => Err ErrLineageBroken
             | (acceptor', acceptance, None) =>
                 if negb (String.eqb (Acceptance.Outcome acceptance) (JournalRecord.Outcome r)) then Ok None
                 else if negb (Acceptance.HostSequence acceptance =? JournalRecord.HostSequence r) then Ok None
                 else
                   events ← replay_records consumedTo expected acceptor' rest;
                   Ok (option_map (cons (Event.mk acceptance (JournalRecord.Fact r))) events)
             end
  end.

Definition Replay (input : ReplayInput.t) : result checkpoint_error ReplayResult.t :=
  match Resume.Checkpoint (ReplayInput.Resume input) with
  | Some checkpoint =>
      if negb (Usable (ReplayInput.Resume input)) then Ok (ReplayResult.mk ReplayUnavailable None)
      else if negb (ReplayInput.Continuous input) then Ok (ReplayResult.mk ReplayJournalGap None)
      else
        acceptor ← restoreAcceptor checkpoint;
        replayed ← replay_records (Checkpoint.ConsumedTo checkpoint) (Checkpoint.ConsumedTo checkpoint) acceptor
                     (ReplayInput.Records input);
        match replayed with
        | None => Ok (ReplayResult.mk ReplayJournalGap None)
        | Some events =>
            output ← map_err ErrReduction (Reduce (Input.mk (Some (Checkpoint.Snapshot checkpoint)) events
              (ReplayInput.Policy input) (ReplayInput.PolicyComponents input) (ReplayInput.BootID input) 0 0
              (ReplayInput.EvaluationTick input) (ReplayInput.Wake input)));
            Ok (ReplayResult.mk ReplayComplete (Some output))
        end
  | None => Ok (ReplayResult.mk ReplayUnavailable None)
  end.

(** ** The next link *)

Definition digests_of (output : Output.t) : result checkpoint_error OutputDigests.t :=
  snapshotDigest ← map_err ErrReduction (Snapshot_Digest (Output.Snapshot output));
  diffDigest ← map_err ErrReduction (Diff_Digest (Output.Diff output));
  proposals ← proposalsDigest (Output.Proposals output);
  Ok (OutputDigests.mk snapshotDigest diffDigest proposals).

Definition SealFrom (parent : option Checkpoint.t) (broken : option LineageBreak.t) (id : string) (output : Output.t)
    (consumedFrom : Z) (wake : option Wake.t) : result checkpoint_error Checkpoint.t :=
  digests ← digests_of output;
  let snapshot := Output.Snapshot output in
  let of_parent (field : Checkpoint.t -> string) := match parent with Some p => field p | None => "" end in
  Seal (Checkpoint.mk "" 0 id (of_parent Checkpoint.ID) (of_parent Checkpoint.Digest)
    (match parent with Some _ => None | None => broken end) (of_parent Checkpoint.SnapshotDigest) wake consumedFrom
    (Snapshot.ConsumedFoldPosition snapshot) (Snapshot.Sources snapshot) (Snapshot.Policy snapshot) ReducerID ReducerVersion
    (Snapshot.Generation snapshot) (OutputDigests.Snapshot digests) snapshot (OutputDigests.Diff digests)
    (OutputDigests.Proposals digests) "").

(** ** Verification *)

Definition in_span (from to : Z) (r : JournalRecord.t) : bool :=
  negb ((JournalRecord.FoldPosition r <=? from) || (to <? JournalRecord.FoldPosition r)).

Fixpoint gapless (from : Z) (records : list JournalRecord.t) : bool :=
  match records with
  | [] => true
  | r :: rest => (JournalRecord.FoldPosition r =? u64 (from + 1)) && gapless (u64 (from + 1)) rest
  end.

Definition span (facts : list JournalRecord.t) (from consumedTo : Z) : list JournalRecord.t * bool :=
  let kept := List.filter (in_span from consumedTo) facts in
  (kept, (len kept =? u64 (consumedTo - from)) && gapless from kept).

Definition reproduce (checkpoint parent : Checkpoint.t) (facts : list JournalRecord.t) (policyComponents : list ComponentPolicy.t) :
    result checkpoint_error (OutputDigests.t * Z * VerifyStatus) :=
  let '(records, whole) := span facts (Checkpoint.ConsumedTo parent) (Checkpoint.ConsumedTo checkpoint) in
  if negb whole then Ok (no_digests, len records, VerifyUnreplayable)
  else match Replay (ReplayInput.mk (Checkpoint.Wake checkpoint) (Resume.mk ResumeLatest ResumeReasonNone (Some parent) 0 false)
               records whole (Checkpoint.Policy checkpoint) policyComponents (Snapshot.BootID (Checkpoint.Snapshot checkpoint))
               (Snapshot.EvaluationTick (Checkpoint.Snapshot checkpoint))) with
       | Ok (ReplayResult.mk ReplayComplete (Some output)) =>
           match digests_of output with
           | Err _ => Err ErrVerify
           | Ok outputs =>
               Ok (outputs, len records,
                   if negb (String.eqb (OutputDigests.Snapshot outputs) (Checkpoint.SnapshotDigest checkpoint)) ||
                      negb (String.eqb (OutputDigests.Diff outputs) (Checkpoint.DiffDigest checkpoint)) ||
                      negb (String.eqb (OutputDigests.Proposals outputs) (Checkpoint.ProposalsDigest checkpoint))
                   then VerifyDiverged else VerifyReproduced)
           end
       | _ => Ok (no_digests, len records, VerifyUnreplayable)
       end.

Definition recorded_digests (c : Checkpoint.t) : OutputDigests.t :=
  OutputDigests.mk (Checkpoint.SnapshotDigest c) (Checkpoint.DiffDigest c) (Checkpoint.ProposalsDigest c).

(** The verdict on one link whose record was loaded. *)
Definition verify_link (byID : gmap string Checkpoint.t) (facts : list JournalRecord.t) (policyComponents : list ComponentPolicy.t)
    (entry : IndexEntry.t) (checkpoint : Checkpoint.t) : result checkpoint_error LinkResult.t :=
  let link := LinkResult.mk (Checkpoint.ID checkpoint) (Checkpoint.Parent checkpoint) (IndexEntry.Sequence entry) in
  match (if String.eqb (Checkpoint.Parent checkpoint) "" then None else byID !! Checkpoint.Parent checkpoint) with
  | None =>
      let status :=
        if negb (String.eqb (Checkpoint.Parent checkpoint) "") then VerifyUnreplayable
        else if bool_decide (is_Some (Checkpoint.Break checkpoint)) then VerifyBroken else VerifyGenesis in
      Ok (link status (recorded_digests checkpoint) no_digests 0 0 0)
  | Some parent =>
      '(reproduced, found, status) ← reproduce checkpoint parent facts policyComponents;
      Ok (link status (recorded_digests checkpoint) reproduced (Checkpoint.ConsumedTo parent) (Checkpoint.ConsumedTo checkpoint) found)
  end.

Definition count_status (status : VerifyStatus) (links : list LinkResult.t) : Z :=
  len (List.filter (fun l => bool_decide (LinkResult.Status l = status)) links).

Definition by_position (x y : JournalRecord.t) : bool := JournalRecord.FoldPosition x <? JournalRecord.FoldPosition y.

(** Both journals, in the order in which the events were folded. *)
Definition allRecords {E : Type} (root user : result E (list JournalRecord.t)) : result E (list JournalRecord.t) :=
  rootRecords ← root; userRecords ← user; Ok (sort_slice by_position (rootRecords ++ userRecords)%list).

Context (readRecord : Doc -> option Checkpoint.t) (readIndexEntry : Doc -> option IndexEntry.t)
  (readPointer : Doc -> option Pointer.t).

(** [Verify], over the files of the store and what the journals answered.  The links whose
    record cannot be loaded are reported first, as the first of its two loops does. *)
Definition Verify {E : Type} (files : gmap (string * string) Doc) (root user : result E (list JournalRecord.t))
    (policyComponents : list ComponentPolicy.t) : result checkpoint_error VerifyResult.t :=
  index ← indexLocked readIndexEntry files;
  pointer ← pointerLocked readPointer files;
  let journalled := allRecords root user in
  let facts := match journalled with Ok facts => facts | Err _ => [] end in
  let loaded entry := match Load readRecord files (IndexEntry.ID entry) with Ok c => Some c | Err _ => None end in
  let missing := omap (fun entry => match loaded entry with
      | Some _ => None
      | None => Some (LinkResult.mk (IndexEntry.ID entry) (IndexEntry.Parent entry) (IndexEntry.Sequence entry) VerifyUnreplayable
                        no_digests no_digests 0 0 0)
      end) index in
  let byID := fold_left (fun byID entry => match loaded entry with
      | Some c => <[IndexEntry.ID entry := c]> byID | None => byID end) index (∅ : gmap string Checkpoint.t) in
  links ← mapM (fun e => verify_link byID facts policyComponents e.1 e.2)
            (omap (fun entry => (fun c => (entry, c)) <$> byID !! IndexEntry.ID entry) index);
  let links := (missing ++ links)%list in
  Ok (VerifyResult.mk links (count_status VerifyReproduced links) (count_status VerifyDiverged links)
        (count_status VerifyUnreplayable links) (Pointer.Overflow pointer) (negb (is_ok journalled))).
End replay.
