(* ===== verification/ConnLineage.v ===== *)
(** * A link is what a replay of its evidence gives

    The acceptor restored from a checkpoint and the one that ran on differ in the order of
    what a source owes, and in nothing that a decision or a snapshot depends on.  So the
    replay of the journalled facts reduces to the output that was sealed, and the
    verification of [ConnReplay] confirms the link. *)

From Stdlib Require Import ZArith Lia Ascii String.
From stdpp Require Import base strings list option sets gmap sorting.
From S2P Require Import Prelude Faults Spool PolicyModel PolicyCanonical Connectivity ConnJournal ConnAccept ConnReduce ConnAggregate ConnStore ConnReplay.

Open Scope string_scope.
Open Scope Z_scope.

(** ** The holes of a source are in order *)

Definition gap_lt (a b : GapRange.t) : Prop := GapRange.From a < GapRange.From b.

Record gaps_ordered (s : SourceState.t) : Prop := {
  go_sorted : StronglySorted gap_lt (SourceState.Gaps s);
  go_below : Forall (fun g => GapRange.From g <= SourceState.LastSequence s) (SourceState.Gaps s)
}.

(** Sorting by a number that no two elements share is putting them in its order. *)
Lemma key_inj {A} (key : A -> Z) l x y : StronglySorted (fun x y => key x < key y) l -> x ∈ l -> y ∈ l -> key x = key y -> x = y.
Proof.
  induction 1 as [|z l _ IH Hz]; intros Hx Hy He; [by apply elem_of_nil in Hx|]. rewrite Forall_forall in Hz.
  apply elem_of_cons in Hx as [->|Hx]; apply elem_of_cons in Hy as [->|Hy]; [done|..|by apply IH].
  - specialize (Hz _ Hy). lia.
  - specialize (Hz _ Hx). lia.
Qed.

Lemma sort_by_key {A} (key : A -> Z) l k : StronglySorted (fun x y => key x < key y) l -> k ≡ₚ l ->
  sort_slice (fun x y => key x <? key y) k = l.
Proof.
  intros Hl Hp. set (before := fun x y => key x <? key y).
  assert (forall x y, not_after before x y <-> key x <= key y) as Hn by (intros x y; unfold not_after, before; lia).
  apply (StronglySorted_unique_strong (not_after before)).
  - intros x y Hx%elem_of_sort_slice Hy. rewrite Hp in Hx. rewrite !Hn. intros H1 H2. eapply key_inj; [done..|lia].
  - apply StronglySorted_merge_sort; [intros x y z|intros x y]; rewrite !Hn; lia.
  - eapply sorted_impl; [|exact Hl]. intros x y _ _. rewrite Hn. lia.
  - by rewrite sort_slice_perm.
Qed.

Lemma sort_ordered l k : StronglySorted gap_lt l -> k ≡ₚ l -> sort_slice gap_before k = l.
Proof. exact (sort_by_key GapRange.From l k). Qed.

Lemma sorted_snoc l g : StronglySorted gap_lt l -> Forall (fun x => gap_lt x g) l -> StronglySorted gap_lt (l ++ [g]).
Proof.
  induction 1 as [|x l _ IH Hx]; intros Hg; [repeat constructor|]. apply Forall_cons in Hg as [Hgx Hg]. simpl.
  constructor; [by apply IH|]. apply Forall_app. split; [done|by apply Forall_singleton].
Qed.

Lemma ordered_suffix (l k : list GapRange.t) : StronglySorted gap_lt (l ++ k) -> StronglySorted gap_lt k.
Proof. induction l as [|x l IH]; [done|]. inversion 1; subst. by apply IH. Qed.

Lemma recordGap_gaps s g id : gaps_ordered s -> SourceState.LastSequence s < GapRange.From g ->
  SourceState.Gaps (recordGap s g id) = keep_last MaxGapRanges (SourceState.Gaps s ++ [g])%list /\
  StronglySorted gap_lt (SourceState.Gaps (recordGap s g id)) /\
  Forall (fun x => GapRange.From x <= GapRange.From g) (SourceState.Gaps (recordGap s g id)).
Proof.
  intros [Hs Hb] Hg.
  assert (StronglySorted gap_lt (SourceState.Gaps s ++ [g])) as Hnew.
  { apply sorted_snoc; [done|]. eapply Forall_impl; [done|]. unfold gap_lt. simpl. lia. }
  unfold recordGap. simpl. rewrite (sort_ordered _ _ Hnew) by done.
  destruct (keep_last_suffix MaxGapRanges (SourceState.Gaps s ++ [g])) as [pre Hpre]. split_and!; [done|..].
  - eapply ordered_suffix. by rewrite <- Hpre.
  - assert (Forall (fun x => GapRange.From x <= GapRange.From g) (SourceState.Gaps s ++ [g])) as Hall.
    { apply Forall_app. split; [eapply Forall_impl; [done|]; simpl; lia|by apply Forall_singleton]. }
    rewrite Hpre in Hall. by apply Forall_app in Hall as [_ Hall].
Qed.

Lemma admit_ordered host s f digest role host' s' a : gaps_ordered s ->
  0 <= SourceState.LastSequence s < Fact.SourceSequence f -> Fact.SourceSequence f <= max_u64 ->
  admit_fact host s f digest role = (host', s', a) -> gaps_ordered s'.
Proof.
  intros Ho Hl Hm. unfold admit_fact. destruct (open_gap s f) as [s1 opened] eqn:Hg.
  assert (StronglySorted gap_lt (SourceState.Gaps s1) /\ Forall (fun g => GapRange.From g <= Fact.SourceSequence f) (SourceState.Gaps s1))
    as [H1 H2].
  { destruct (open_gap_spec s f s1 opened Hl Hm Hg) as [(_ & -> & _)|(g & _ & -> & _ & Hf & Ht & Hle)].
    - destruct Ho. split; [done|]. eapply Forall_impl; [done|]. simpl. lia.
    - destruct (recordGap_gaps s g (Fact.SourceID f) Ho ltac:(lia)) as (_ & H1 & H2). split; [done|].
      eapply Forall_impl; [done|]. simpl. lia. }
  destruct (settle s1 f _) as [[s2 cleared] reason] eqn:Hs. intros [= _ <- _].
  assert (SourceState.Gaps s2 = SourceState.Gaps s1 \/ SourceState.Gaps s2 = []) as [Hg2|Hg2].
  { unfold settle in Hs. destruct (_ && _); [|injection Hs as <- _ _; by left]. unfold settleBaseline in Hs.
    destruct (_ =? 0); injection Hs as <- _ _; [by right|by left]. }
  - split; simpl; by rewrite Hg2.
  - split; simpl; rewrite Hg2; constructor.
Qed.

Lemma decide_ordered st f digest role st' a : in_order f ->
  (forall id s, Sources st !! id = Some s -> gaps_ordered s /\ 0 <= SourceState.LastSequence s) ->
  decide_arrival st f digest role = (st', a) -> forall id s, Sources st' !! id = Some s -> gaps_ordered s.
Proof.
  intros [_ Hq _] Hst Hd id s. unfold decide_arrival in Hd. set (s0 := default _ _) in Hd.
  assert (gaps_ordered s0 /\ 0 <= SourceState.LastSequence s0) as [Ho Hl].
  { unfold s0. destruct (Sources st !! Fact.SourceID f) as [x|] eqn:Hx; [by eapply Hst|]. simpl. split; [split; constructor|lia]. }
  assert (forall s1, gaps_ordered s1 -> <[Fact.SourceID f := s1]> (Sources st) !! id = Some s -> gaps_ordered s) as Hins.
  { intros s1 H1 Hs. destruct (decide (Fact.SourceID f = id)) as [<-|Hne]; [|rewrite lookup_insert_ne in Hs by done; by eapply Hst].
    rewrite lookup_insert_eq in Hs. by injection Hs as <-. }
  destruct (negb _).
  - destruct (admit_fact _ _ _ _ _) as [[host s1] b] eqn:Ha. injection Hd as <- _. apply Hins.
    eapply admit_ordered; [| | |exact Ha]; [split; constructor|simpl; lia|lia].
  - destruct (SourceState.LastSequence s0 <? Fact.SourceSequence f) eqn:Hlt.
    + destruct (admit_fact _ _ _ _ _) as [[host s1] b] eqn:Ha. injection Hd as <- _. apply Hins.
      eapply admit_ordered; [done| | |exact Ha]; lia.
    + destruct (replay s0 f digest role) as [s1 b] eqn:Hr. injection Hd as <- _. apply Hins. clear -Ho Hr.
      unfold replay in Hr. destruct (List.find _ _) as [e|]; [destruct (String.eqb _ digest)|]; injection Hr as <- _; [done| |done].
      by destruct Ho.
Qed.

Section sim.
Context `{JSON} `{!Codec Fact.t}.

Lemma reach_ordered st log : reach st log -> forall id s, Sources st !! id = Some s -> gaps_ordered s.
Proof.
  induction 1 as [|st log f domain st' a Hr IH Hs Ha|st log f domain st' a e Hr IH Ha].
  - intros id s Hs. simpl in Hs. by rewrite lookup_empty in Hs.
  - apply Accept_decides in Ha as (digest & role & _ & Hf & Hd); [|done]. eapply decide_ordered; [done| |exact Hd].
    intros id s Hi. split; [by eapply IH|]. pose proof (si_sources _ _ (reach_inv _ _ Hr) id) as Hi'. rewrite Hi in Hi'.
    destruct Hi' as [_ []]. lia.
  - apply Accept_rejects in Ha as ->. exact IH.
Qed.

(** ** Sources that differ in the order of what they owe *)

Record sim_source (s s' : SourceState.t) : Prop := {
  ss_boot : SourceState.BootID s = SourceState.BootID s';
  ss_last : SourceState.LastSequence s = SourceState.LastSequence s';
  ss_recent : SourceState.Recent s = SourceState.Recent s';
  ss_gaps : SourceState.Gaps s = SourceState.Gaps s';
  ss_overflow : SourceState.GapOverflow s = SourceState.GapOverflow s';
  ss_pending : SourceState.PendingBaseline s ≡ₚ SourceState.PendingBaseline s';
  ss_conflicts : SourceState.Conflicts s = SourceState.Conflicts s'
}.

Record sim_state (st st' : State) : Prop := {
  sm_host : HostSequence st = HostSequence st';
  sm_fold : FoldPosition st = FoldPosition st';
  sm_sources : forall id, option_Forall2 sim_source (Sources st !! id) (Sources st' !! id)
}.

(** Decisions that say the same, up to the same order. *)
Record sim_acceptance (a a' : Acceptance.t) : Prop := {
  sa_outcome : Acceptance.Outcome a = Acceptance.Outcome a';
  sa_reason : Acceptance.Reason a = Acceptance.Reason a';
  sa_role : Acceptance.Role a = Acceptance.Role a';
  sa_digest : Acceptance.Digest a = Acceptance.Digest a';
  sa_host : Acceptance.HostSequence a = Acceptance.HostSequence a';
  sa_fold : Acceptance.FoldPosition a = Acceptance.FoldPosition a';
  sa_source : exists s s', Acceptance.Source a = integrityOf s /\ Acceptance.Source a' = integrityOf s' /\ sim_source s s'
}.

Lemma sim_source_refl s : sim_source s s.
Proof. by split. Qed.

Lemma contains_perm l k c : l ≡ₚ k -> containsComponent l c = containsComponent k c.
Proof. intros Hp. apply eq_true_iff_eq. unfold containsComponent. rewrite !contains_string_spec. by rewrite Hp. Qed.

Lemma owed_perm (declared l k : list Component) : l ≡ₚ k ->
  fold_left (fun pending c => if containsComponent pending c then pending else (pending ++ [c])%list) declared l ≡ₚ
  fold_left (fun pending c => if containsComponent pending c then pending else (pending ++ [c])%list) declared k.
Proof.
  revert l k. induction declared as [|c declared IH]; intros l k Hp; [done|]. simpl. apply IH. rewrite (contains_perm _ _ _ Hp).
  destruct (containsComponent k c); [done|by rewrite Hp].
Qed.

Lemma sim_owes s s' id : sim_source s s' -> sim_source (owesBaseline s id) (owesBaseline s' id).
Proof. intros []. split; simpl; try done. unfold sort_strings. rewrite !sort_slice_perm. by apply owed_perm. Qed.

Lemma sim_recordGap s s' g id : sim_source s s' -> sim_source (recordGap s g id) (recordGap s' g id).
Proof. intros []. unfold recordGap. apply sim_owes. split; simpl; congruence || done. Qed.

Lemma sim_open_gap s s' f : sim_source s s' -> sim_source (open_gap s f).1 (open_gap s' f).1 /\ (open_gap s f).2 = (open_gap s' f).2.
Proof.
  intros Hs. unfold open_gap. rewrite <- (ss_last _ _ Hs). destruct (_ && _); [|done]. split; [by apply sim_recordGap|done].
Qed.

Lemma sim_awaiting s s' : sim_source s s' -> AwaitingBaseline s = AwaitingBaseline s'.
Proof. intros Hs. unfold AwaitingBaseline. by rewrite (Permutation_length (ss_pending _ _ Hs)). Qed.

Lemma sim_settle s s' f reason : sim_source s s' ->
  sim_source (settle s f reason).1.1 (settle s' f reason).1.1 /\ (settle s f reason).2 = (settle s' f reason).2.
Proof.
  intros Hs. unfold settle. rewrite (sim_awaiting _ _ Hs). destruct (_ && _); [|done]. unfold settleBaseline.
  pose proof (filter_perm (fun pending => negb (String.eqb pending (Fact.Component f))) _ _ (ss_pending _ _ Hs)) as Hp.
  rewrite (Permutation_length Hp). destruct Hs. destruct (_ =? 0); (split; [split; simpl; congruence || done|done]).
Qed.

Lemma sim_remember s s' n digest : sim_source s s' -> sim_source (remember s n digest) (remember s' n digest).
Proof. intros []. split; simpl; congruence || done. Qed.

Lemma sim_admit host s s' f digest role : sim_source s s' ->
  let r := admit_fact host s f digest role in let r' := admit_fact host s' f digest role in
  r.1.1 = r'.1.1 /\ sim_source r.1.2 r'.1.2 /\ sim_acceptance r.2 r'.2.
Proof.
  intros Hs. unfold admit_fact. destruct (sim_open_gap s s' f Hs) as [H1 H2].
  destruct (open_gap s f) as [s1 o1], (open_gap s' f) as [s1' o1']. simpl in H1, H2. subst o1'.
  destruct (sim_settle s1 s1' f (match o1 with Some _ => AcceptReasonSequenceGap | None => AcceptReasonNone end) H1) as [H3 H4].
  destruct (settle s1 _ _) as [[s2 c2] r2], (settle s1' _ _) as [[s2' c2'] r2']. simpl in H3, H4. subst r2'.
  pose proof (sim_remember _ _ (Fact.SourceSequence f) digest H3) as H5. simpl.
  split_and!; [done..|]. split; try done. simpl. by eexists _, _.
Qed.

Lemma sim_replay s s' f digest role : sim_source s s' ->
  let r := replay s f digest role in let r' := replay s' f digest role in sim_source r.1 r'.1 /\ sim_acceptance r.2 r'.2.
Proof.
  intros Hs. unfold replay. rewrite (ss_recent _ _ Hs), (ss_gaps _ _ Hs). destruct (List.find _ _) as [e|].
  - destruct (String.eqb _ digest).
    + simpl. split; [done|]. split; try done. by eexists _, _.
    + assert (sim_source (owesBaseline (SourceState.mk (SourceState.BootID s) (SourceState.LastSequence s) (SourceState.Recent s)
          (SourceState.Gaps s) (SourceState.GapOverflow s) (SourceState.PendingBaseline s) (u32 (SourceState.Conflicts s + 1))) (Fact.SourceID f))
        (owesBaseline (SourceState.mk (SourceState.BootID s') (SourceState.LastSequence s') (SourceState.Recent s')
          (SourceState.Gaps s') (SourceState.GapOverflow s') (SourceState.PendingBaseline s') (u32 (SourceState.Conflicts s' + 1))) (Fact.SourceID f))) as H1.
      { apply sim_owes. destruct Hs. split; simpl; congruence || done. }
      rewrite (ss_recent _ _ Hs), (ss_gaps _ _ Hs) in H1. simpl. split; [done|]. split; try done. by eexists _, _.
  - simpl. split; [done|]. split; try done. by eexists _, _.
Qed.

Lemma sim_insert st st' id s s' host fold : sim_state st st' -> sim_source s s' ->
  sim_state (mkState host fold (<[id := s]> (Sources st))) (mkState host fold (<[id := s']> (Sources st'))).
Proof.
  intros Hst Hs. split; simpl; [done..|]. intros k. destruct (decide (id = k)) as [<-|].
  - rewrite !lookup_insert_eq. by constructor.
  - rewrite !lookup_insert_ne by done. apply Hst.
Qed.

Lemma sim_at_fold a a' r folded : sim_acceptance a a' -> sim_acceptance (at_fold a r folded) (at_fold a' r folded).
Proof. intros []. by split. Qed.

Lemma sim_decide st st' f digest role : sim_state st st' ->
  let r := decide_arrival st f digest role in let r' := decide_arrival st' f digest role in
  sim_state r.1 r'.1 /\ sim_acceptance r.2 r'.2.
Proof.
  intros Hst. unfold decide_arrival. set (fresh := SourceState.mk (Fact.BootID f) 0 [] [] false [] 0).
  assert (sim_source (default fresh (Sources st !! Fact.SourceID f)) (default fresh (Sources st' !! Fact.SourceID f))) as Hs.
  { destruct (sm_sources _ _ Hst (Fact.SourceID f)); [done|apply sim_source_refl]. }
  set (s := default fresh (Sources st !! _)) in *. set (s' := default fresh (Sources st' !! _)) in *.
  rewrite <- (sm_host _ _ Hst), <- (sm_fold _ _ Hst), <- (ss_boot _ _ Hs), <- (ss_last _ _ Hs). destruct (negb _).
  - destruct (sim_admit (HostSequence st) _ _ f digest role
      (sim_source_refl (SourceState.mk (Fact.BootID f) 0 [] [] false (ConnectivitySourceComponents (Fact.SourceID f)) 0))) as (_ & H2 & H3).
    destruct (admit_fact _ _ _ _ _) as [[host s1] a]. simpl in *. split; [by apply sim_insert|by apply sim_at_fold].
  - destruct (SourceState.LastSequence s <? Fact.SourceSequence f).
    + destruct (sim_admit (HostSequence st) s s' f digest role Hs) as (H1 & H2 & H3).
      destruct (admit_fact _ s _ _ _) as [[host s1] a], (admit_fact _ s' _ _ _) as [[host' s1'] a']. simpl in *. subst host'.
      split; [by apply sim_insert|]. rewrite (sa_reason _ _ H3). by apply sim_at_fold.
    + destruct (sim_replay s s' f digest role Hs) as [H1 H2].
      destruct (replay s f digest role) as [s1 a], (replay s' f digest role) as [s1' a']. simpl in *.
      split; [by apply sim_insert|]. rewrite (sa_reason _ _ H2). by apply sim_at_fold.
Qed.

Lemma sim_Accept st st' f domain st1 a : sim_state st st' -> Accept st f domain = (st1, a, None) ->
  exists st1' a', Accept st' f (Fact.Domain f) = (st1', a', None) /\ sim_state st1 st1' /\ sim_acceptance a a'.
Proof.
  intros Hst. unfold Accept. destruct (Validate f); [|done]. destruct (ClassifyConnectivityFact f domain) as [role|] eqn:Hc; [|done].
  assert (domain = Fact.Domain f) as ->.
  { unfold ClassifyConnectivityFact in Hc. destruct (String.eqb_spec (Fact.Domain f) domain); [done|discriminate Hc]. }
  rewrite Hc. destruct (Digest f) as [digest|]; [|done]. destruct (sim_decide st st' f digest role Hst) as [H1 H2].
  destruct (decide_arrival st f digest role) as [x y], (decide_arrival st' f digest role) as [x' y']. simpl in *.
  intros [= <- <-]. by exists x', y'.
Qed.

(** ** The journal of a run *)

(** What [Publish] writes about an event. *)
Definition record_of (e : Event.t) : JournalRecord.t :=
  let a := Event.Acceptance e in
  JournalRecord.mk (Acceptance.HostSequence a) (Acceptance.FoldPosition a) (Acceptance.Outcome a) (Acceptance.Role a)
    (Acceptance.Digest a) (Event.Fact e).

Definition sim_event (e e' : Event.t) : Prop :=
  Event.Fact e = Event.Fact e' /\ sim_acceptance (Event.Acceptance e) (Event.Acceptance e').

Lemma replay_hand_over consumedTo st st' arrivals : sim_state st st' -> in_width arrivals = true ->
  consumedTo <= FoldPosition st -> 0 <= FoldPosition st -> FoldPosition st + len arrivals <= max_u64 ->
  exists events, replay_records consumedTo (FoldPosition st) st' (map record_of (hand_over st arrivals).2) = Ok (Some events) /\
    Forall2 sim_event (hand_over st arrivals).2 events.
Proof.
  revert st st'. induction arrivals as [|[f domain] rest IH]; intros st st' Hst; simpl; [by exists []|].
  intros [Hs Hw]%andb_true_iff Hc Hp Hm. destruct (Accept st f domain) as [[st1 a] [e|]] eqn:Ha.
  - apply Accept_rejects in Ha as ->. apply IH; [done..|lia].
  - assert (0 <= Fact.SourceSequence f <= max_u64) as Hb by (bool_prop; lia).
    destruct (sim_Accept st st' f domain st1 a Hst Ha) as (st1' & a' & Ha' & Hst1 & Hsa).
    apply Accept_decides in Ha as (digest & role & _ & Hio & Hd); [|done].
    apply decide_arrival_tells in Hd as (_ & Hf & Hfa); [|done]. rewrite u64_small in Hf by lia.
    destruct (IH st1 st1' Hst1 Hw) as (events & Hr & Hall); [lia..|].
    destruct (hand_over st1 rest) as [st2 later]. simpl in *. rewrite Hfa, Hf, u64_small by lia.
    rewrite (proj2 (Z.leb_gt _ _)) by lia. rewrite Z.eqb_refl. simpl. rewrite Ha', (sa_outcome _ _ Hsa), String.eqb_refl. simpl.
    rewrite (sa_host _ _ Hsa), Z.eqb_refl. simpl. rewrite <- Hf, Hr. simpl. eexists. split; [done|]. by constructor.
Qed.

(** ** The reduction of decisions that say the same *)

Record sim_fold (fo fo' : Fold.t) : Prop := {
  sf_folded : Fold.folded fo = Fold.folded fo';
  sf_consumed : Fold.consumed fo = Fold.consumed fo';
  sf_components : Fold.components fo = Fold.components fo';
  sf_sources : render_watermark <$> Fold.sources fo = render_watermark <$> Fold.sources fo';
  sf_conflicts : Fold.conflicts fo = Fold.conflicts fo'
}.

Lemma sim_adopt t t' e e' : render_watermark <$> t = render_watermark <$> t' -> sim_event e e' ->
  render_watermark <$> <[Fact.SourceID (Event.Fact e) := adoptIntegrity (watermarkFor t e) e]> t =
  render_watermark <$> <[Fact.SourceID (Event.Fact e') := adoptIntegrity (watermarkFor t' e') e']> t'.
Proof.
  intros Ht [Hf Ha]. rewrite !fmap_insert, Ht, Hf. f_equal.
  assert (SourceWatermark.Source (watermarkFor t e) = SourceWatermark.Source (watermarkFor t' e') /\
    SourceWatermark.Domain (watermarkFor t e) = SourceWatermark.Domain (watermarkFor t' e')) as [H1 H2].
  { apply (f_equal (fun m => m !! Fact.SourceID (Event.Fact e'))) in Ht. rewrite !lookup_fmap in Ht. unfold watermarkFor. rewrite Hf.
    destruct (t !! _) as [w|], (t' !! _) as [w'|]; simpl in Ht; try discriminate Ht; [|done]. by injection Ht. }
  destruct (sa_source _ _ Ha) as (s & s' & E & E' & []). unfold adoptIntegrity, render_watermark. simpl.
  rewrite H1, H2, (sa_role _ _ Ha), E, E'. simpl. f_equal; try done; [by f_equal|]. by apply sort_strings_perm.
Qed.

Lemma sim_fold_event fo fo' e e' : sim_fold fo fo' -> sim_event e e' ->
  match fold_event fo e, fold_event fo' e' with
  | Ok x, Ok x' => sim_fold x x'
  | Err x, Err x' => x = x'
  | _, _ => False
  end.
Proof.
  intros [] He. pose proof He as [Hf Ha]. pose proof (sim_adopt _ _ _ _ sf_sources0 He) as Had. unfold fold_event.
  rewrite (sa_fold _ _ Ha), (sa_outcome _ _ Ha), (sa_host _ _ Ha), sf_folded0, sf_consumed0.
  destruct (negb _); [done|]. destruct (String.eqb _ OutcomeAccepted).
  - destruct (negb _); [done|]. unfold applyAccepted. rewrite sf_components0, sf_conflicts0. split; simpl; try done.
    + rewrite Hf. apply alter_ext. intros r _. rewrite (sa_role _ _ Ha). destruct (negb _).
      * unfold addCorroboration. by rewrite Hf.
      * unfold observed_by_owner. by rewrite Hf, (sa_host _ _ Ha).
    + by rewrite Hf.
  - destruct (String.eqb _ OutcomeConflict).
    + unfold applyConflict. rewrite sf_conflicts0. split; simpl; try done. by rewrite Hf, (sa_reason _ _ Ha).
    + by destruct (_ || _).
Qed.

Lemma sim_fold_events fo fo' events events' : sim_fold fo fo' -> Forall2 sim_event events events' ->
  match fold_events fo events, fold_events fo' events' with
  | Ok x, Ok x' => sim_fold x x'
  | Err x, Err x' => x = x'
  | _, _ => False
  end.
Proof.
  intros Hf He. revert fo fo' Hf. induction He as [|e e' events events' He _ IH]; intros fo fo' Hf; [done|]. simpl.
  pose proof (sim_fold_event fo fo' e e' Hf He) as H1. destruct (fold_event fo e), (fold_event fo' e'); simpl; try done. by apply IH.
Qed.

Lemma renderSources_fmap t : renderSources t = sort_slice (fun a b => String.ltb (SourceWatermark.Source a) (SourceWatermark.Source b))
  (map_to_list (render_watermark <$> t)).*2.
Proof.
  unfold renderSources, render_watermarks. f_equal. rewrite map_to_list_fmap, <- !list_fmap_compose. by apply list_fmap_ext; intros ? [].
Qed.

Lemma sim_render i i' fo fo' g : sim_fold fo fo' -> Input.Prior i = Input.Prior i' -> Input.Policy i = Input.Policy i' ->
  Input.BootID i = Input.BootID i' -> Input.EvaluationTick i = Input.EvaluationTick i' -> render i fo g = render i' fo' g.
Proof.
  intros [] H1 H2 H3 H4. unfold render. rewrite sf_conflicts0, H1, H2, H3, H4, sf_consumed0, sf_folded0.
  assert (renderSources (Fold.sources fo) = renderSources (Fold.sources fo')) as -> by (by rewrite !renderSources_fmap, sf_sources0).
  assert (renderComponents (Fold.components fo) (Fold.sources fo) i = renderComponents (Fold.components fo') (Fold.sources fo') i') as ->; [|done].
  unfold renderComponents. rewrite sf_components0. apply list_omap_ext. apply Forall_Forall2_diag, Forall_true. intros c.
  destruct (Fold.components fo' !! c) as [r|]; [|done]. simpl. f_equal. unfold render_component, deriveState. rewrite H3, H4.
  apply (f_equal (fun m => m !! ComponentRecord.Source r)) in sf_sources0. rewrite !lookup_fmap in sf_sources0.
  destruct (Fold.sources fo !! _) as [w|], (Fold.sources fo' !! _) as [w'|]; simpl in sf_sources0; try discriminate sf_sources0; [|done].
  injection sf_sources0. intros _ ->. done.
Qed.
End sim.

(** ** Sealed links *)

Section lineage.
Context `{JSON} `{!Codec Fact.t, !Codec semantic.t, !Codec Diff.t, !Codec Proposal.t}.
Context `{!Codec Snapshot.t} `{!Codec Checkpoint.t} `{!Codec (list Proposal.t)}.

Lemma sim_refused events events' : Forall2 sim_event events events' ->
  existsb (fun e => negb (is_ok (Validate (Event.Fact e))) || String.eqb (Acceptance.Outcome (Event.Acceptance e)) OutcomeRejected) events =
  existsb (fun e => negb (is_ok (Validate (Event.Fact e))) || String.eqb (Acceptance.Outcome (Event.Acceptance e)) OutcomeRejected) events'.
Proof.
  induction 1 as [|e e' events events' [Hf Ha] _ IH]; [done|]. cbn [existsb]. by rewrite Hf, (sa_outcome _ _ Ha), IH.
Qed.

(** The reduction of a replay is the reduction of the run. *)
Lemma sim_Reduce p events events' d components boot folded consumed tick wake o : Forall2 sim_event events events' ->
  Reduce (Input.mk (Some p) events d components boot folded consumed tick wake) = Ok o ->
  Reduce (Input.mk (Some p) events' d components boot 0 0 tick wake) = Ok o.
Proof.
  intros He Hr. unfold Reduce in *. apply bind_Ok in Hr as ([] & Hv & Hr).
  assert (validateInput (Input.mk (Some p) events' d components boot 0 0 tick wake) = Ok tt) as ->.
  { unfold validateInput in *. cbn [Input.Prior Input.PriorConsumed Input.PriorFolded Input.BootID Input.EvaluationTick Input.Wake Input.Events] in *.
    destruct (_ || _) in Hv; [done|]. cbn [Z.eqb negb andb orb]. by rewrite <- (sim_refused _ _ He). }
  rewrite Ok_bind. apply bind_Ok in Hr as (fo & Hfo & Hr).
  set (i := Input.mk (Some p) events d components boot folded consumed tick wake) in *.
  set (i' := Input.mk (Some p) events' d components boot 0 0 tick wake).
  assert (sim_fold (start i) (start i')) as Hs by (by split).
  pose proof (sim_fold_events _ _ _ _ Hs He) as Hf. cbn [Input.Events i] in Hfo. rewrite Hfo in Hf.
  change (Input.Events i') with events'. destruct (fold_events (start i') events') as [fo'|] eqn:Hfo'; [|done]. rewrite Ok_bind.
  assert (forall g, render i fo g = render i' fo' g) as Hren by (intros g; by apply sim_render).
  change (Input.Prior i) with (Some p) in Hr. change (Input.Prior i') with (Some p).
  change (Input.Policy i) with d in Hr. change (Input.Policy i') with d.
  change (Input.PolicyComponents i) with components in Hr. change (Input.PolicyComponents i') with components.
  clearbody i i'. rewrite <- (Hren 0). destruct (effective (Some p) (render i fo 0)) as [changed|]; [|discriminate Hr].
  rewrite Ok_bind in Hr |- *. cbv zeta in Hr |- *. rewrite <- Hren. exact Hr.
Qed.

(** The snapshot states the position of the acceptor, as the renderer writes it. *)
Definition at_position (st : State) (p : Snapshot.t) : Prop :=
  Snapshot.ConsumedFoldPosition p = FoldPosition st /\ Snapshot.ConsumedHostSequence p = HostSequence st /\
  exists t, sources_agree (Sources st) t /\ Snapshot.Sources p = renderSources t.

Lemma rendered_position i fo st g : follows st fo -> at_position st (render i fo g).
Proof.
  intros [Hf Hh Hs]. unfold at_position, render. destruct (renderConflicts _), (authorize _ _). simpl.
  split_and!; [done..|]. by exists (Fold.sources fo).
Qed.

Lemma position_snapshot st p : at_position st p -> snapshot_of st p.
Proof.
  intros (H1 & H2 & t & Ht & Hr). split_and!; [done..|]. unfold newSourceTable. rewrite Hr. by apply sources_agree_restored.
Qed.

Lemma recorded_sources (l : list SourceWatermark.t) (m : gmap SourceID SourceWatermark.t) :
  fold_left (fun sources w => <[SourceWatermark.Source w := state_of_watermark w]> sources) l (state_of_watermark <$> m) =
  state_of_watermark <$> fold_left (fun t w => <[SourceWatermark.Source w := w]> t) l m.
Proof. revert m. induction l as [|w l IH]; intros m; [done|]. simpl. by rewrite <- fmap_insert, IH. Qed.

Lemma sim_recorded st log c : reach st log -> at_position st (Checkpoint.Snapshot c) ->
  Checkpoint.SourceWatermarks c = Snapshot.Sources (Checkpoint.Snapshot c) -> sim_state st (recorded_state c).
Proof.
  intros Hr (H1 & H2 & t & Ht & Hs) Hw. split; [done..|]. intros id. unfold recorded_state. simpl.
  rewrite Hw, Hs, <- (fmap_empty state_of_watermark), recorded_sources, lookup_fmap, restored_table by (by eapply sources_agree_keyed).
  specialize (Ht id). destruct (Sources st !! id) as [s|] eqn:Hi, (t !! id) as [w|]; simpl in *; try done; [|constructor].
  constructor. pose proof (reach_ordered st log Hr id s Hi) as [Ho _]. destruct Ht. split; simpl; try done.
  - symmetry. by apply sort_ordered.
  - unfold sort_strings. by rewrite sort_slice_perm.
Qed.

Lemma sim_valid id s s' : sim_source s s' -> source_valid id s = source_valid id s'.
Proof.
  intros []. unfold source_valid. rewrite ss_recent0, ss_gaps0, ss_last0, (Permutation_length ss_pending0). f_equal.
  apply eq_true_iff_eq. rewrite !forallb_forall. by setoid_rewrite <- list_elem_of_In; setoid_rewrite ss_pending0.
Qed.

Lemma recorded_restores st log c : reach st log -> sim_state st (recorded_state c) -> restoreAcceptor c = Ok (recorded_state c).
Proof.
  intros Hr%reach_inv Hs. unfold restoreAcceptor, Restore, State_Validate. rewrite bool_decide_eq_true_2; [done|].
  intros id s' Hs'. pose proof (sm_sources _ _ Hs id) as Hi. rewrite Hs' in Hi. inversion Hi as [s ? Hsim Hst|]; subst.
  rewrite <- (sim_valid id s s' Hsim). pose proof (si_sources _ _ Hr id) as Hinv. rewrite <- Hst in Hinv. by eapply src_inv_valid.
Qed.

(** The journalled positions are consecutive. *)
Lemma journalled_gapless st arrivals : in_width arrivals = true -> 0 <= FoldPosition st ->
  FoldPosition st + len arrivals <= max_u64 ->
  let '(st', events) := hand_over st arrivals in
  gapless (FoldPosition st) (map record_of events) = true /\ FoldPosition st' = FoldPosition st + len events /\
  (length events <= length arrivals)%nat.
Proof.
  revert st. induction arrivals as [|[f domain] rest IH]; intros st; simpl; [intros; split_and!; [done|simpl; lia|done]|].
  intros [Hs Hw]%andb_true_iff Hp Hm. destruct (Accept st f domain) as [[st1 a] [e|]] eqn:Ha.
  - apply Accept_rejects in Ha as ->. specialize (IH st Hw Hp ltac:(lia)). destruct (hand_over st rest). destruct IH as (? & ? & ?). split_and!; [done..|lia].
  - assert (0 <= Fact.SourceSequence f <= max_u64) as Hb by (bool_prop; lia).
    apply Accept_decides in Ha as (digest & role & _ & Hio & Hd); [|done].
    apply decide_arrival_tells in Hd as (_ & Hf & Hfa); [|done]. rewrite u64_small in Hf by lia.
    specialize (IH st1 Hw ltac:(lia) ltac:(lia)). destruct (hand_over st1 rest) as [st2 later]. destruct IH as (H1 & H2 & H3). simpl.
    rewrite Hfa, Hf, u64_small, Z.eqb_refl by lia. simpl. rewrite <- Hf, H1. split_and!; [done|lia|lia].
Qed.

(** What a sealed checkpoint says, field by field. *)
Record sealed (output : Output.t) (wake : option Wake.t) (c : Checkpoint.t) : Prop := {
  se_to : Checkpoint.ConsumedTo c = Snapshot.ConsumedFoldPosition (Output.Snapshot output);
  se_sources : Checkpoint.SourceWatermarks c = Snapshot.Sources (Checkpoint.Snapshot c);
  se_snapshot : Checkpoint.Snapshot c = Output.Snapshot output;
  se_policy : Checkpoint.Policy c = Snapshot.Policy (Output.Snapshot output);
  se_wake : Checkpoint.Wake c = wake;
  se_digests : digests_of output = Ok (recorded_digests c);
  se_valid : Checkpoint_Validate c = Ok tt
}.

Lemma SealFrom_sealed parent broken id output from wake c : SealFrom parent broken id output from wake = Ok c ->
  sealed output wake c.
Proof.
  unfold SealFrom. intros (digests & Hd & Hs)%bind_Ok. unfold Seal in Hs. cbv zeta in Hs.
  destruct (CanonicalSHA256 _) as [[digest doc]|] in Hs; [|discriminate Hs]. apply bind_Ok in Hs as ([] & Hv & [= <-]).
  split; try done. rewrite Hd. by destruct digests.
Qed.

Lemma reduced_fields i o fo : reduced i o fo -> Snapshot.BootID (Output.Snapshot o) = Input.BootID i /\
  Snapshot.EvaluationTick (Output.Snapshot o) = Input.EvaluationTick i /\ Snapshot.Policy (Output.Snapshot o) = Input.Policy i.
Proof. intros Hr. rewrite (rd_snapshot _ _ _ Hr). unfold render. by destruct (renderConflicts _), (authorize _ _). Qed.

Lemma Validate_consumed c : Checkpoint_Validate c = Ok tt -> Checkpoint.ConsumedTo c = Snapshot.ConsumedFoldPosition (Checkpoint.Snapshot c).
Proof.
  unfold Checkpoint_Validate. intros Hv. repeat (destruct (_ : bool) in Hv; [discriminate Hv|]). apply bind_Ok in Hv as ([] & _ & Hv).
  repeat (destruct (_ : bool) in Hv; [discriminate Hv|]). destruct (Snapshot_Digest _); [|discriminate Hv].
  do 2 (destruct (_ : bool) in Hv; [discriminate Hv|]).
  destruct (Z.eqb_spec (Snapshot.ConsumedFoldPosition (Checkpoint.Snapshot c)) (Checkpoint.ConsumedTo c)); [done|discriminate Hv].
Qed.


Lemma reduced_position i st log arrivals o : reach st log -> in_width arrivals = true -> continues st i ->
  Reduce (with_events i (hand_over st arrivals).2) = Ok o -> at_position (hand_over st arrivals).1 (Output.Snapshot o).
Proof.
  intros Hr Hw Hc Hred. destruct (hand_over_follows st log arrivals (start i) Hr Hw (start_follows st i Hc)) as (fo & log' & Hfo & Hfl & _).
  destruct (Reduce_reduced _ _ Hred) as (fo' & Hrd). assert (fo' = fo) as ->.
  { pose proof (rd_fold _ _ _ Hrd) as Hf. enough (Ok (E := conn_error) fo' = Ok fo) as [= ->] by done. rewrite <- Hf. exact Hfo. }
  rewrite (rd_snapshot _ _ _ Hrd). by apply rendered_position.
Qed.
End lineage.

(** ** A host that sleeps *)

Module LinkSample.
Import SampleDigest AcceptSample AggregateSample.

Definition snapshot_texts (s : Snapshot.t) : list string :=
  (number (Snapshot.Generation s) :: number (Snapshot.EvaluationTick s) :: number (Snapshot.ConsumedFoldPosition s) ::
   map ComponentRecord.State (Snapshot.Components s))%list.
Definition checkpoint_texts (c : Checkpoint.t) : list string :=
  [Checkpoint.ID c; Checkpoint.Parent c; Checkpoint.SnapshotDigest c; Checkpoint.DiffDigest c; Checkpoint.ProposalsDigest c].

#[export] Instance snapshot_codec : Codec Snapshot.t := texts_codec snapshot_texts.
#[export] Instance checkpoint_codec : Codec Checkpoint.t := texts_codec checkpoint_texts.
#[export] Instance proposals_codec : Codec (list Proposal.t) := texts_codec (fun l => concat (map proposal_texts l)).

(** The link is observed and restated; after a wake, an observation follows that does not
    restate it. *)
Definition began : list (Fact.t * Domain) := [(fact "boot-a" 3 true true, DomainRoot)].
Definition st1 : State := (hand_over New began).1.
Definition ev1 : list Event.t := (hand_over New began).2.
Definition later : list (Fact.t * Domain) := [(fact "boot-a" 4 false true, DomainRoot)].
Definition ev2 : list Event.t := (hand_over st1 later).2.

(** A tick whose output is sealed. *)
Definition sealing (parent : option Checkpoint.t) (i : Input.t) (id : string) : option (Output.t * Checkpoint.t) :=
  match Reduce i with
  | Err _ => None
  | Ok o => match SealFrom parent None id o 1 (Input.Wake i) with Ok c => Some (o, c) | Err _ => None end
  end.

Lemma sealing_spec parent i id o c : sealing parent i id = Some (o, c) ->
  Reduce i = Ok o /\ SealFrom parent None id o 1 (Input.Wake i) = Ok c.
Proof.
  unfold sealing. destruct (Reduce i) as [o'|]; [|discriminate].
  destruct (SealFrom parent None id o' 1 (Input.Wake i)) as [c'|] eqn:E; [|discriminate].
  intros [= <- <-]. split; [reflexivity|exact E].
Qed.

Definition input1 : Input.t := with_events first ev1.
Definition genesis : option (Output.t * Checkpoint.t) := sealing None input1 "a".
Definition input2 (c : Checkpoint.t) : Input.t :=
  Input.mk (Some (Checkpoint.Snapshot c)) ev2 descriptor [] "boot-a" 0 0 7 (Some (Wake.mk 7)).
Definition woken (c : Checkpoint.t) : option (Output.t * Checkpoint.t) := sealing (Some c) (input2 c) "b".

Definition sealed_links : option (Output.t * Checkpoint.t * Checkpoint.t) :=
  option_bind _ _ (fun g => option_map (fun w => (w.1, g.2, w.2)) (woken g.2)) genesis.

Definition described (x : Output.t * Checkpoint.t * Checkpoint.t) : bool :=
  String.eqb (Checkpoint.Parent x.2) "a" && Output.Changed x.1.1 &&
  (Checkpoint.ConsumedTo x.1.2 =? 1) && (Checkpoint.ConsumedTo x.2 =? 2).

Lemma links_sealed : described <$> sealed_links = Some true.
Proof. vm_compute. reflexivity. Qed.

Lemma widths : in_width began = true /\ in_width later = true /\ 0 <= FoldPosition st1 /\ FoldPosition st1 + len later <= max_u64.
Proof. vm_compute. repeat split; discriminate. Qed.

Lemma st1_reached : exists log, reach st1 log.
Proof.
  destruct (hand_over_follows New [] began (start first) reach_new (proj1 widths)
    (start_follows New first (conj eq_refl (conj eq_refl eq_refl)))) as (_ & log & _ & _ & Hr & _). exact (ex_intro _ log Hr).
Qed.

Lemma genesis_position o c : genesis = Some (o, c) -> Checkpoint_Validate c = Ok tt /\ at_position st1 (Checkpoint.Snapshot c) /\
  Checkpoint.SourceWatermarks c = Snapshot.Sources (Checkpoint.Snapshot c).
Proof.
  intros [Hr Hs]%sealing_spec. destruct (SealFrom_sealed _ _ _ _ _ _ _ Hs) as [_ H1 H2 _ _ _ H3].
  pose proof (reduced_position first New [] began o reach_new (proj1 widths) (conj eq_refl (conj eq_refl eq_refl)) Hr) as Hp.
  rewrite H2. exact (conj H3 (conj Hp (eq_trans H1 (f_equal Snapshot.Sources H2)))).
Qed.


(** A restatement that changes nothing is reduced and not sealed; a wake follows.  The run
    withdrew the readiness that the restatement had confirmed; the replay applies the wake
    first and the restatement after it.  The verification calls the link a contradiction
    of its own evidence. *)
Definition restated : list Event.t := (hand_over st1 [(fact "boot-a" 4 true true, DomainRoot)]).2.

Definition status_of (r : result checkpoint_error (OutputDigests.t * Z * VerifyStatus)) : option VerifyStatus :=
  match r with Ok x => Some x.2 | Err _ => None end.

Definition quiet_then_woken : option (bool * bool * option VerifyStatus) :=
  option_bind _ _ (fun g =>
    match Reduce (Input.mk (Some (Checkpoint.Snapshot g.2)) restated descriptor [] "boot-a" 0 0 7 None) with
    | Err _ => None
    | Ok quiet =>
        option_map (fun w => (Output.Changed quiet, Output.Changed w.1, status_of (reproduce w.2 g.2 (map record_of restated) [])))
          (sealing (Some g.2) (Input.mk (Some (Output.Snapshot quiet)) [] descriptor [] "boot-a" 0 0 8 (Some (Wake.mk 8))) "b")
    end) genesis.

Lemma wake_after_restatement_diverges : quiet_then_woken = Some (false, true, Some VerifyDiverged).
Proof. vm_compute. reflexivity. Qed.
End LinkSample.
