(* ===== verification/ConnRuntime.v ===== *)
(** * The running read model

    [internal/connectivityruntime/runtime.go]: the host's read model, which accepts what
    the daemons publish, journals it, reduces it at every tick and stores what changed.
    A start resumes from the stored lineage and from what the journals hold beyond it.
    The disks are two spools and a checkpoint store; the runtime is passed along, and an
    operation that returns an error returns it beside the runtime that it left.  [walk] is
    the order in which a map is walked, [mirror] what the journals' sinks answer. *)

From Stdlib Require Import ZArith Lia Ascii String.
From stdpp Require Import base strings list option sets gmap sorting relations.
From S2P Require Import Prelude Faults PolicyModel PolicyCanonical Metadata Connectivity Events Spool ConnJournal ConnAccept ConnReduce.
From S2P Require Import ConnAggregate ConnStore ConnReplay ConnLineage.

Open Scope string_scope.
Open Scope Z_scope.

Inductive runtime_error :=
| ErrDisabled
| ErrMisconfigured
| ErrUnknownDomain
| ErrPrecondition
| ErrJournal (e : journal_error)
| ErrCheckpoint (e : checkpoint_error)
| ErrAcceptor (e : conn_error)
| ErrReduce (e : conn_error).

Inductive UserLinkState := UserLinkUnknown | UserLinkConnected | UserLinkAbsent.

Module Preconditions.
Record t := mk {
  AtomicPolicyStartup : bool;
  DomainMismatch : bool;
  Suspension : bool;
  RedactedStatus : bool
}.
End Preconditions.

Definition Missing (p : Preconditions.t) : string :=
  if negb (Preconditions.AtomicPolicyStartup p) then "atomic policy startup revalidation"
  else if negb (Preconditions.DomainMismatch p) then "domain mismatch handling"
  else if negb (Preconditions.Suspension p) then "authorization suspension handling"
  else if negb (Preconditions.RedactedStatus p) then "redacted local status"
  else "".

Module RuntimeOptions.
Record t := mk {
  Enabled : bool;
  Preconditions : Preconditions.t;
  BootID : string;
  Checkpoints : option Store.t;
  RootJournal : option Journal.t;
  UserJournal : option Journal.t;
  Random : option (list Z)
}.
End RuntimeOptions.

(** [Runtime].  What a disabled runtime leaves nil has an arbitrary value here, which
    nothing reads. *)
Module Runtime.
Record t := mk {
  enabled : bool;
  bootID : string;
  random : list Z;
  store : Store.t;
  journals : gmap Domain Journal.t;
  acceptor : State;
  snapshot : option Snapshot.t;
  parent : option Checkpoint.t;
  broken : option LineageBreak.t;
  pending : list Event.t;
  consumed : Z;
  accepted : Z;
  resume : option Resume.t;
  userLink : UserLinkState
}.
End Runtime.

Section setters.
Import Runtime.

Definition set_acceptor (st : State) (r : Runtime.t) : Runtime.t :=
  Runtime.mk (enabled r) (bootID r) (random r) (store r) (journals r) st (snapshot r) (parent r) (broken r) (pending r) (consumed r)
    (accepted r) (resume r) (userLink r).

Definition set_journal (domain : Domain) (j : Journal.t) (r : Runtime.t) : Runtime.t :=
  Runtime.mk (enabled r) (bootID r) (random r) (store r) (<[domain := j]> (journals r)) (acceptor r) (snapshot r) (parent r) (broken r)
    (pending r) (consumed r) (accepted r) (resume r) (userLink r).

Definition set_pending (events : list Event.t) (r : Runtime.t) : Runtime.t :=
  Runtime.mk (enabled r) (bootID r) (random r) (store r) (journals r) (acceptor r) (snapshot r) (parent r) (broken r) events (consumed r)
    (accepted r) (resume r) (userLink r).

Definition set_reduced (s : Snapshot.t) (r : Runtime.t) : Runtime.t :=
  Runtime.mk (enabled r) (bootID r) (random r) (store r) (journals r) (acceptor r) (Some s) (parent r) (broken r) []
    (Snapshot.ConsumedFoldPosition s) (Snapshot.ConsumedHostSequence s) (resume r) (userLink r).

Definition set_random (random : list Z) (r : Runtime.t) : Runtime.t :=
  Runtime.mk (enabled r) (bootID r) random (store r) (journals r) (acceptor r) (snapshot r) (parent r) (broken r) (pending r) (consumed r)
    (accepted r) (resume r) (userLink r).

Definition set_stored (c : Checkpoint.t) (r : Runtime.t) : Runtime.t :=
  Runtime.mk (enabled r) (bootID r) (random r) (store r) (journals r) (acceptor r) (snapshot r) (Some c) None (pending r) (consumed r)
    (accepted r) (resume r) (userLink r).

Definition SetUserLink (state : UserLinkState) (r : Runtime.t) : Runtime.t :=
  Runtime.mk (enabled r) (bootID r) (random r) (store r) (journals r) (acceptor r) (snapshot r) (parent r) (broken r) (pending r)
    (consumed r) (accepted r) (resume r) state.
End setters.

Module Report.
Record t := mk {
  Accepted : Z;
  Duplicates : Z;
  Conflicts : Z;
  Stale : Z;
  Rejected : Z;
  Watermark : Z
}.
End Report.

Definition no_report : Report.t := Report.mk 0 0 0 0 0 0.

(** The counts of a publication are 16 bits wide. *)
Definition count_outcome (outcome : string) (r : Report.t) : Report.t :=
  let '(Report.mk accepted duplicates conflicts stale rejected watermark) := r in
  if String.eqb outcome OutcomeAccepted then Report.mk (u16 (accepted + 1)) duplicates conflicts stale rejected watermark
  else if String.eqb outcome OutcomeDuplicate then Report.mk accepted (u16 (duplicates + 1)) conflicts stale rejected watermark
  else if String.eqb outcome OutcomeConflict then Report.mk accepted duplicates (u16 (conflicts + 1)) stale rejected watermark
  else if String.eqb outcome OutcomeStale then Report.mk accepted duplicates conflicts (u16 (stale + 1)) rejected watermark
  else Report.mk accepted duplicates conflicts stale (u16 (rejected + 1)) watermark.

Definition with_watermark (watermark : Z) (r : Report.t) : Report.t :=
  Report.mk (Report.Accepted r) (Report.Duplicates r) (Report.Conflicts r) (Report.Stale r) (Report.Rejected r) watermark.

Module TickInput.
Record t := mk {
  Policy : PolicyDescriptor.t;
  PolicyComponents : list ComponentPolicy.t;
  EvaluationTick : Tick;
  Wake : option Wake.t
}.
End TickInput.

(** The input of the reduction that a tick performs. *)
Definition reduction (r : Runtime.t) (input : TickInput.t) : Input.t :=
  Input.mk (Runtime.snapshot r) (Runtime.pending r) (TickInput.Policy input) (TickInput.PolicyComponents input) (Runtime.bootID r)
    (Runtime.consumed r) (Runtime.accepted r) (TickInput.EvaluationTick input) (TickInput.Wake input).

Section runtime.
Context `{JSON} `{!EventCodecs} `{!Codec Fact.t} `{!Codec wireEntry.t}.
Context `{!Codec semantic.t, !Codec Diff.t, !Codec Proposal.t, !Codec (list Proposal.t), !Codec Snapshot.t, !Codec Checkpoint.t}.
Context `{!Codec IndexEntry.t, !Codec Pointer.t}.
Context (torn : Doc) (envelope : Doc -> option Envelope.t) (clock : nat -> Z * Z).
Context (readRecord : Doc -> option Checkpoint.t) (readIndexEntry : Doc -> option IndexEntry.t) (readPointer : Doc -> option Pointer.t).
Context (walk : list Domain -> list Domain) (mirror : Domain -> Z -> option bool).

Record Disks := mkDisks {
  rootSpool : Spool.World;
  userSpool : Spool.World;
  stored : ConnStore.World
}.

Abbreviation Prog := (M Disks runtime_error).

(** A program of the journal of a domain. *)
Definition of_journal {A} (domain : Domain) (m : M Spool.World journal_error A) : Prog A := fun d =>
  let root := String.eqb domain DomainRoot in
  let '(w, ended) := m (if root then rootSpool d else userSpool d) in
  (if root then mkDisks w (userSpool d) (stored d) else mkDisks (rootSpool d) w (stored d),
   match ended with Done a => Done a | Failed e => Failed (ErrJournal e) | Crashed => Crashed end).

Definition of_store {A} (m : M ConnStore.World checkpoint_error A) : Prog A := fun d =>
  let '(w, ended) := m (stored d) in
  (mkDisks (rootSpool d) (userSpool d) w,
   match ended with Done a => Done a | Failed e => Failed (ErrCheckpoint e) | Crashed => Crashed end).

(** ** Starting *)

(** The loop of [highestIssued], over the domains that have a journal. *)
Fixpoint highest_loop (domains : list Domain) (highest folded : Z) : Prog (Z * Z) :=
  match domains with
  | [] => mret (highest, folded)
  | domain :: rest =>
      newest ← of_journal domain Newest;
      match newest with
      | None => highest_loop rest highest folded
      | Some r =>
          highest_loop rest (if highest <? JournalRecord.HostSequence r then JournalRecord.HostSequence r else highest)
            (if folded <? JournalRecord.FoldPosition r then JournalRecord.FoldPosition r else folded)
      end
  end.

Definition domains_of (journals : gmap Domain Journal.t) : list Domain := walk (map fst (map_to_list journals)).

Definition highestIssued (journals : gmap Domain Journal.t) : Prog (Z * Z) := highest_loop (domains_of journals) 0 0.

(** The first loop of [resumeUnfolded]. *)
Fixpoint unfolded (domains : list Domain) (watermark : Z) : Prog (list JournalRecord.t) :=
  match domains with
  | [] => mret []
  | domain :: rest =>
      held ← of_journal domain (RecordsAfter watermark);
      later ← unfolded rest watermark;
      mret (held.1 ++ later)%list
  end.

Definition by_host (x y : JournalRecord.t) : bool := JournalRecord.HostSequence x <? JournalRecord.HostSequence y.

(** Its second loop. *)
Fixpoint reaccept (st : State) (records : list JournalRecord.t) : result runtime_error (State * list Event.t) :=
  match records with
  | [] => Ok (st, [])
  | r :: rest =>
      match Accept st (JournalRecord.Fact r) (Fact.Domain (JournalRecord.Fact r)) with
      | (_, _, Some _) => Err ErrMisconfigured
      | (st', acceptance, None) =>
          if String.eqb (Acceptance.Outcome acceptance) OutcomeRejected then Err ErrMisconfigured
          else
            '(st'', events) ← reaccept st' rest;
            Ok (st'', Event.mk acceptance (JournalRecord.Fact r) :: events)
      end
  end.

Definition resumeUnfolded (c : Checkpoint.t) (r : Runtime.t) : Prog Runtime.t :=
  records ← unfolded (domains_of (Runtime.journals r)) (Checkpoint.ConsumedTo c);
  again ← lift (reaccept (Runtime.acceptor r) (sort_slice by_host records));
  mret (set_pending (Runtime.pending r ++ again.2) (set_acceptor again.1 r)).

(** The position that a checkpoint recorded, as [ConnReplay] restores it, with the
    acceptor's own error. *)
Definition restoreAcceptor (c : Checkpoint.t) : result runtime_error State := map_err ErrAcceptor (Restore (recorded_state c)).

(** The record of a lineage that is there and cannot be continued. *)
Definition lineage_break (resume : Resume.t) (pointer : Pointer.t) : LineageBreak.t :=
  LineageBreak.mk (Pointer.ID pointer)
    (if bool_decide (Resume.Reason resume = ResumeReasonNone) then ResumeReasonRecordInvalid else Resume.Reason resume).

(** A start with what [Resume] found: the read model of a proven checkpoint, or an empty
    one that counts on from the journals. *)
Definition continue_from (r : Runtime.t) (resume : Resume.t) (c : Checkpoint.t) : Prog Runtime.t :=
  acceptor ← lift (restoreAcceptor c);
  resumeUnfolded c (Runtime.mk (Runtime.enabled r) (Runtime.bootID r) (Runtime.random r) (Runtime.store r) (Runtime.journals r) acceptor
    (Some (Checkpoint.Snapshot c)) (Some c) None [] (Snapshot.ConsumedFoldPosition (Checkpoint.Snapshot c))
    (Snapshot.ConsumedHostSequence (Checkpoint.Snapshot c)) (Some resume) (Runtime.userLink r)).

Definition start_over (r : Runtime.t) (resume : Resume.t) : Prog Runtime.t :=
  '(issued, folded) ← highestIssued (Runtime.journals r);
  acceptor ← lift (map_err ErrAcceptor (Restore (mkState issued folded ∅)));
  d ← get;
  broken ← lift match pointerLocked readPointer (files (stored d)) with
    | Err ErrNotFound => Ok None
    | Err e => Err (ErrCheckpoint e)
    | Ok pointer => Ok (Some (lineage_break resume pointer))
    end;
  mret (Runtime.mk (Runtime.enabled r) (Runtime.bootID r) (Runtime.random r) (Runtime.store r) (Runtime.journals r) acceptor None None broken
    [] folded issued (Some resume) (Runtime.userLink r)).

Definition New (options : RuntimeOptions.t) : Prog Runtime.t :=
  let random := default [] (RuntimeOptions.Random options) in
  let made store journals :=
    Runtime.mk (RuntimeOptions.Enabled options) (RuntimeOptions.BootID options) random store journals ConnAccept.New None None None [] 0 0
      None UserLinkUnknown in
  if negb (RuntimeOptions.Enabled options) then mret (made (default (Store.mk 0 []) (RuntimeOptions.Checkpoints options)) ∅)
  else if negb (String.eqb (Missing (RuntimeOptions.Preconditions options)) "") then fail ErrPrecondition
  else
    match RuntimeOptions.Checkpoints options, RuntimeOptions.RootJournal options, RuntimeOptions.Random options with
    | Some store, Some root, Some _ =>
        if String.eqb (RuntimeOptions.BootID options) "" then fail ErrMisconfigured
        else
          let journals := match RuntimeOptions.UserJournal options with
            | Some user => <[DomainUser := user]> {[DomainRoot := root]} | None => {[DomainRoot := root]} end in
          d ← get;
          resume ← lift (map_err ErrCheckpoint (ResumeFrom readRecord readIndexEntry readPointer store (files (stored d))));
          match Resume.Checkpoint resume with
          | Some c => if Usable resume then continue_from (made store journals) resume c else start_over (made store journals) resume
          | None => start_over (made store journals) resume
          end
    | _, _, _ => fail ErrMisconfigured
    end.

(** ** Publishing *)

(** Everything that the reduction will be given is written down first. *)
Fixpoint publish_loop (facts : list Fact.t) (domain : Domain) (journal : Journal.t) (r : Runtime.t) (report : Report.t) :
    Prog (Runtime.t * Report.t * option runtime_error) :=
  match facts with
  | [] => mret (r, with_watermark (HostSequence (Runtime.acceptor r)) report, None)
  | fact :: rest =>
      let '(st, acceptance, refused) := Accept (Runtime.acceptor r) fact domain in
      let r := set_acceptor st r in
      match refused with
      | Some _ => publish_loop rest domain journal r (count_outcome OutcomeRejected report)
      | None =>
          if String.eqb (Acceptance.Outcome acceptance) OutcomeRejected
          then publish_loop rest domain journal r (count_outcome OutcomeRejected report)
          else
            wrote ← attempt (of_journal domain (ConnJournal.Append torn envelope clock journal
              (mirror domain (Acceptance.FoldPosition acceptance)) fact (Acceptance.HostSequence acceptance)
              (Acceptance.FoldPosition acceptance) (Acceptance.Outcome acceptance) (Acceptance.Role acceptance)));
            match wrote with
            | Err e => mret (r, report, Some e)
            | Ok journal =>
                publish_loop rest domain journal
                  (set_pending (Runtime.pending r ++ [Event.mk acceptance fact]) (set_journal domain journal r))
                  (count_outcome (Acceptance.Outcome acceptance) report)
            end
      end
  end.

Definition Publish (r : Runtime.t) (facts : list Fact.t) (authenticatedDomain : Domain) :
    Prog (Runtime.t * Report.t * option runtime_error) :=
  if negb (Runtime.enabled r) then mret (r, no_report, Some ErrDisabled)
  else match Runtime.journals r !! authenticatedDomain with
       | None => mret (r, no_report, Some ErrUnknownDomain)
       | Some journal => publish_loop facts authenticatedDomain journal r no_report
       end.

(** ** Ticking *)

(** The checkpoint of a reduction that changed something; [before] is the watermark it
    started from. *)
Definition checkpoint_of (r : Runtime.t) (input : TickInput.t) (before : Z) (output : Output.t) :
    Prog (Runtime.t * option Output.t * option runtime_error) :=
  match NewUUID (Runtime.random r) with
  | (Err _, random) => mret (set_random random r, Some output, Some ErrMisconfigured)
  | (Ok id, random) =>
      let r := set_random random r in
      let folded := Snapshot.ConsumedFoldPosition (Output.Snapshot output) in
      let from := if before <? folded then u64 (before + 1) else 0 in
      match SealFrom (Runtime.parent r) (Runtime.broken r) id output from (TickInput.Wake input) with
      | Err e => mret (r, Some output, Some (ErrCheckpoint e))
      | Ok c =>
          appended ← attempt (of_store (ConnStore.Append torn readIndexEntry readPointer (Runtime.store r) c));
          match appended with
          | Err e => mret (r, Some output, Some e)
          | Ok _ => mret (set_stored c r, Some output, None)
          end
      end
  end.

Definition Tick (r : Runtime.t) (input : TickInput.t) : Prog (Runtime.t * option Output.t * option runtime_error) :=
  if negb (Runtime.enabled r) then mret (r, None, Some ErrDisabled)
  else match Reduce (reduction r input) with
       | Err e => mret (r, None, Some (ErrReduce e))
       | Ok output =>
           let reduced := set_reduced (Output.Snapshot output) r in
           if negb (Output.Changed output) then mret (reduced, Some output, None)
           else checkpoint_of reduced input (Runtime.consumed r) output
       end.
End runtime.
