(* ===== verification/ConnRuntimeSafety.v ===== *)
(** * What the running read model keeps in step

    The acceptor, the events that wait for a reduction and the snapshot of the last one
    belong to one history of arrivals: every publication that returns and every tick keep
    it so, and a restart restores it from the stored lineage and the journals. *)

From Stdlib Require Import ZArith Lia Ascii String.
From stdpp Require Import base strings list option sets gmap sorting relations.
From S2P Require Import Prelude Faults PolicyModel PolicyCanonical Metadata Connectivity Events Spool ConnJournal ConnAccept ConnReduce.
From S2P Require Import ConnAggregate ConnStore ConnReplay ConnLineage ConnRuntime.

Open Scope string_scope.
Open Scope Z_scope.

Section agreement.
Context `{JSON} `{!Codec Fact.t} `{!Codec semantic.t, !Codec Diff.t, !Codec Proposal.t}.

(** ** Two acceptors of one history *)

(** Both accept the same fact, with decisions that say the same, or both refuse it. *)
Lemma sim_Accept_same st st' f domain : sim_state st st' ->
  match Accept st f domain, Accept st' f domain with
  | (st1, a, None), (st1', a', None) => sim_state st1 st1' /\ sim_acceptance a a'
  | (st1, _, Some _), (st1', _, Some _) => st1 = st /\ st1' = st'
  | _, _ => False
  end.
Proof.
  intros Hst. unfold Accept. destruct (Validate f); [|done]. destruct (ClassifyConnectivityFact f domain) as [role|]; [|done].
  destruct (Digest f) as [digest|]; [|done]. pose proof (sim_decide st st' f digest role Hst) as Hd.
  by destruct (decide_arrival st f digest role), (decide_arrival st' f digest role).
Qed.

Lemma hand_over_app st xs ys : hand_over st (xs ++ ys) =
  ((hand_over (hand_over st xs).1 ys).1, ((hand_over st xs).2 ++ (hand_over (hand_over st xs).1 ys).2)%list).
Proof.
  revert st. induction xs as [|[f domain] xs IH]; intros st; simpl; [by destruct (hand_over st ys)|].
  destruct (Accept st f domain) as [[st1 a] [e|]]; [apply IH|]. rewrite IH. by destruct (hand_over st1 xs).
Qed.

Lemma sim_event_sym e e' : sim_event e e' -> sim_event e' e.
Proof.
  intros [Hf [H1 H2 H3 H4 H5 H6 (s & s' & E & E' & [])]]. split; [done|]. split; try done. exists s', s.
  split_and!; [done..|]. split; by symmetry.
Qed.

(** Events that say the same are reduced to the same output. *)
Lemma same_Reduce i events events' o : Forall2 sim_event events events' ->
  Reduce (with_events i events) = Ok o -> Reduce (with_events i events') = Ok o.
Proof.
  intros He Hr. unfold Reduce in *. apply bind_Ok in Hr as ([] & Hv & Hr).
  assert (validateInput (with_events i events') = Ok tt) as ->.
  { unfold validateInput in *. cbn [with_events Input.Prior Input.PriorConsumed Input.PriorFolded Input.BootID Input.EvaluationTick
      Input.Wake Input.Events] in *. by rewrite <- (sim_refused _ _ He). }
  rewrite Ok_bind. apply bind_Ok in Hr as (fo & Hfo & Hr).
  set (j := with_events i events) in *. set (j' := with_events i events').
  assert (sim_fold (start j) (start j')) as Hs by (by split).
  pose proof (sim_fold_events _ _ _ _ Hs He) as Hf. change (Input.Events j) with events in Hfo. rewrite Hfo in Hf.
  change (Input.Events j') with events'. destruct (fold_events (start j') events') as [fo'|]; [|done]. rewrite Ok_bind.
  assert (forall g, render j fo g = render j' fo' g) as Hren by (intros g; by apply sim_render).
  change (Input.Prior j') with (Input.Prior j). change (Input.Policy j') with (Input.Policy j).
  change (Input.PolicyComponents j') with (Input.PolicyComponents j).
  clearbody j j'. rewrite <- (Hren 0). destruct (effective (Input.Prior j) (render j fo 0)) as [changed|]; [|discriminate Hr].
  rewrite Ok_bind in Hr |- *. cbv zeta in Hr |- *. rewrite <- Hren. exact Hr.
Qed.

(** ** One history *)

(** The runtime is where the acceptor of the whole history would be: it started the
    current batch at [st], and [arrivals] came since. *)
Record synced (r : Runtime.t) (st : State) (log : Log) (arrivals : list (Fact.t * Domain)) : Prop := {
  sy_reach : reach st log;
  sy_width : in_width arrivals = true;
  sy_acceptor : sim_state (hand_over st arrivals).1 (Runtime.acceptor r);
  sy_pending : Forall2 sim_event (hand_over st arrivals).2 (Runtime.pending r);
  sy_position : match Runtime.snapshot r with
    | Some p => at_position st p /\ Runtime.consumed r = Snapshot.ConsumedFoldPosition p /\
                Runtime.accepted r = Snapshot.ConsumedHostSequence p
    | None => st = ConnAccept.New /\ Runtime.consumed r = 0 /\ Runtime.accepted r = 0
    end
}.

Definition in_step (r : Runtime.t) : Prop := exists st log arrivals, synced r st log arrivals.

Lemma synced_continues r st log arrivals input : synced r st log arrivals -> continues st (reduction r input).
Proof.
  intros [_ _ _ _ Hp]. unfold continues, reduction. simpl. destruct (Runtime.snapshot r) as [p|]; [|done].
  apply position_snapshot, Hp.
Qed.

(** An arrival that the runtime takes in, with or without an event. *)
Lemma synced_arrival r r' st log arrivals f domain : synced r st log arrivals ->
  0 <= Fact.SourceSequence f <= max_u64 ->
  Runtime.snapshot r' = Runtime.snapshot r -> Runtime.consumed r' = Runtime.consumed r -> Runtime.accepted r' = Runtime.accepted r ->
  match Accept (Runtime.acceptor r) f domain with
  | (_, _, Some _) => Runtime.acceptor r' = Runtime.acceptor r /\ Runtime.pending r' = Runtime.pending r
  | (st', a, None) => Runtime.acceptor r' = st' /\ Runtime.pending r' = (Runtime.pending r ++ [Event.mk a f])%list
  end -> synced r' st log (arrivals ++ [(f, domain)]).
Proof.
  intros [Hr Hw Ha Hp Hpos] Hb Es Ec Ea Hd. pose proof (sim_Accept_same _ _ f domain Ha) as Hs.
  split; [done| | | |by rewrite Es, Ec, Ea].
  - unfold in_width in *. rewrite forallb_app, Hw. simpl. lia.
  - rewrite hand_over_app. simpl. destruct (Accept (hand_over st arrivals).1 f domain) as [[st1 a] [e|]],
      (Accept (Runtime.acceptor r) f domain) as [[st1' a'] [e'|]]; try done; simpl.
    + destruct Hs as [-> _], Hd as [-> _]. done.
    + destruct Hs as [Hs _], Hd as [-> _]. done.
  - rewrite hand_over_app. simpl. destruct (Accept (hand_over st arrivals).1 f domain) as [[st1 a] [e|]],
      (Accept (Runtime.acceptor r) f domain) as [[st1' a'] [e'|]]; try done; simpl.
    + destruct Hd as [_ ->]. by rewrite app_nil_r.
    + destruct Hd as [_ ->], Hs as [_ Hs]. apply Forall2_app; [done|]. constructor; [by split|constructor].
Qed.

(** A decision without an error is not a rejection. *)
Lemma Accept_not_rejected st f domain st' a : 0 <= Fact.SourceSequence f <= max_u64 -> Accept st f domain = (st', a, None) ->
  String.eqb (Acceptance.Outcome a) OutcomeRejected = false.
Proof.
  intros Hb Ha. apply Accept_decides in Ha as (digest & role & _ & Hio & Hd); [|done].
  apply decide_arrival_tells in Hd as (Ht & _); [|done]. by eapply told_not_rejected.
Qed.

(** A reduction of the runtime ends the batch. *)
Lemma synced_reduced r st log arrivals input o : synced r st log arrivals -> Reduce (reduction r input) = Ok o ->
  at_position (hand_over st arrivals).1 (Output.Snapshot o) /\
  exists log', synced (set_reduced (Output.Snapshot o) r) (hand_over st arrivals).1 log' [].
Proof.
  intros Hs Ho. pose proof (synced_continues r st log arrivals input Hs) as Hc. destruct Hs as [Hr Hw Ha Hp Hpos].
  assert (Reduce (with_events (reduction r input) (hand_over st arrivals).2) = Ok o) as Ho'.
  { eapply same_Reduce; [|exact Ho]. eapply Forall2_flip, Forall2_impl; [exact Hp|]. intros e e'. apply sim_event_sym. }
  pose proof (reduced_position _ _ _ _ _ Hr Hw Hc Ho') as Hat. split; [done|].
  destruct (hand_over_follows st log arrivals (start (reduction r input)) Hr Hw (start_follows _ _ Hc)) as (_ & log' & _ & _ & Hr' & _).
  exists log'. by split.
Qed.
End agreement.

Section steps.
Context `{JSON} `{!EventCodecs} `{!Codec Fact.t} `{!Codec wireEntry.t}.
Context `{!Codec semantic.t, !Codec Diff.t, !Codec Proposal.t, !Codec (list Proposal.t), !Codec Snapshot.t, !Codec Checkpoint.t}.
Context `{!Codec IndexEntry.t, !Codec Pointer.t}.
Context (torn : Doc) (envelope : Doc -> option Envelope.t) (clock : nat -> Z * Z).
Context (readRecord : Doc -> option Checkpoint.t) (readIndexEntry : Doc -> option IndexEntry.t) (readPointer : Doc -> option Pointer.t).
Context (walk : list Domain -> list Domain) (mirror : Domain -> Z -> option bool).

Abbreviation Publish := (Publish torn envelope clock mirror).
Abbreviation Tick := (Tick torn readIndexEntry readPointer).
Abbreviation New := (ConnRuntime.New readRecord readIndexEntry readPointer walk).

Definition in_range (facts : list Fact.t) : Prop := Forall (fun f => 0 <= Fact.SourceSequence f <= max_u64) facts.

(** ** Publications and ticks *)

Lemma publish_loop_synced facts domain journal r report d d' r' report' st log arrivals : in_range facts ->
  synced r st log arrivals ->
  publish_loop torn envelope clock mirror facts domain journal r report d = (d', Done (r', report', None)) ->
  synced r' st log (arrivals ++ map (fun f => (f, domain)) facts).
Proof.
  intros Hf. revert journal r report d arrivals. induction Hf as [|f facts Hb _ IH]; intros journal r report d arrivals Hs; simpl.
  { intros [= <- <- <-]. by rewrite app_nil_r. }
  replace (arrivals ++ (f, domain) :: map (fun f => (f, domain)) facts)%list
    with ((arrivals ++ [(f, domain)]) ++ map (fun f => (f, domain)) facts)%list by (by rewrite <- app_assoc).
  destruct (Accept (Runtime.acceptor r) f domain) as [[st1 a] [e|]] eqn:Ha.
  - apply IH. pose proof (Accept_rejects _ _ _ _ _ _ Ha) as ->. eapply synced_arrival; [exact Hs|done..|]. by rewrite Ha.
  - rewrite (Accept_not_rejected _ _ _ _ _ Hb Ha). unfold mbind, M_bind, attempt.
    destruct (of_journal domain _ d) as [d1 [journal1|e|]]; [|discriminate..].
    apply IH. eapply synced_arrival; [exact Hs|done..|]. by rewrite Ha.
Qed.

(** What [Tick] leaves: the runtime as it was, or the reduced one, whatever became of its
    checkpoint. *)
Lemma Tick_leaves r input d d' r' out err : Tick r input d = (d', Done (r', out, err)) ->
  r' = r \/ exists o random parent broken, Reduce (reduction r input) = Ok o /\
    r' = Runtime.mk (Runtime.enabled r) (Runtime.bootID r) random (Runtime.store r) (Runtime.journals r) (Runtime.acceptor r)
      (Some (Output.Snapshot o)) parent broken [] (Snapshot.ConsumedFoldPosition (Output.Snapshot o))
      (Snapshot.ConsumedHostSequence (Output.Snapshot o)) (Runtime.resume r) (Runtime.userLink r).
Proof.
  unfold ConnRuntime.Tick. destruct (negb (Runtime.enabled r)); [intros [= _ <- _ _]; by left|].
  destruct (Reduce (reduction r input)) as [o|e]; [|intros [= _ <- _ _]; by left]. intros Ht. right. exists o.
  destruct (negb _); [injection Ht as _ <- _ _; by eexists _, _, _|]. unfold checkpoint_of in Ht.
  destruct (NewUUID _) as [[id|e] random]; [|injection Ht as _ <- _ _; by eexists _, _, _].
  destruct (SealFrom _ _ _ _ _ _) as [c|e]; [|injection Ht as _ <- _ _; by eexists _, _, _].
  unfold mbind, M_bind, attempt in Ht. destruct (of_store _ d) as [d1 [[]|e|]]; [| |discriminate];
    injection Ht as _ <- _ _; by eexists _, _, _.
Qed.

(** A call of the runtime, on whatever disks it finds.  A publication that the journal
    interrupted is not among them. *)
Inductive step (r r' : Runtime.t) : Prop :=
| step_publish facts domain d d' report : in_range facts -> Publish r facts domain d = (d', Done (r', report, None)) -> step r r'
| step_tick input d d' out err : Tick r input d = (d', Done (r', out, err)) -> step r r'
| step_link state : r' = SetUserLink state r -> step r r'.

Lemma step_in_step r r' : in_step r -> step r r' -> in_step r'.
Proof.
  intros (st & log & arrivals & Hs) [facts domain d d' report Hf Hp|input d d' out err Ht|state ->].
  - unfold ConnRuntime.Publish in Hp. destruct (negb _); [discriminate|]. destruct (Runtime.journals r !! domain) as [journal|]; [|discriminate].
    eexists st, log, _. by eapply publish_loop_synced.
  - destruct (Tick_leaves _ _ _ _ _ _ _ Ht) as [->|(o & random & parent & broken & Ho & ->)]; [by eexists _, _, _|].
    destruct (synced_reduced _ _ _ _ _ _ Hs Ho) as (_ & log' & [H1 H2 H3 H4 H5]). eexists _, log', []. by split.
  - exists st, log, arrivals. destruct Hs. by split.
Qed.

(** C6: However publications and ticks follow each other, and whatever the checkpoint store
    does to them: the events that wait fold without a hole or a repetition, and a reduction
    publishes a snapshot of everything that was accepted, no more and no less. *)
Theorem runtime_stays_in_step r r' : in_step r -> rtc step r r' ->
  in_step r' /\ forall input,
    (exists fo, fold_events (start (reduction r' input)) (Runtime.pending r') = Ok fo) /\
    (forall o, Reduce (reduction r' input) = Ok o ->
       Snapshot.ConsumedFoldPosition (Output.Snapshot o) = FoldPosition (Runtime.acceptor r') /\
       Snapshot.ConsumedHostSequence (Output.Snapshot o) = HostSequence (Runtime.acceptor r')).
Proof.
  intros Hr Hsteps. assert (in_step r') as Hr' by (induction Hsteps; eauto using step_in_step). clear r Hr Hsteps.
  split; [done|]. intros input. destruct Hr' as (st & log & arrivals & Hs). split.
  - pose proof (synced_continues r' st log arrivals input Hs) as Hc. destruct Hs as [Hr Hw Ha Hp _].
    destruct (hand_over_follows st log arrivals (start (reduction r' input)) Hr Hw (start_follows _ _ Hc)) as (fo & _ & Hfo & _).
    pose proof (sim_fold_events (start (reduction r' input)) (start (reduction r' input)) _ _ ltac:(by split) Hp) as Hf.
    rewrite Hfo in Hf. destruct (fold_events _ (Runtime.pending r')) as [fo'|]; [by exists fo'|done].
  - intros o Ho. destruct (synced_reduced _ _ _ _ _ _ Hs Ho) as ((H1 & H2 & _) & _). destruct (sy_acceptor _ _ _ _ Hs) as [H3 H4 _].
    split; congruence.
Qed.
(** ** A restart *)

(** The records of a batch are accepted again as they were. *)
Lemma reaccepted st st' arrivals : sim_state st st' -> in_width arrivals = true ->
  exists st2 events, reaccept st' (map record_of (hand_over st arrivals).2) = Ok (st2, events) /\
    sim_state (hand_over st arrivals).1 st2 /\ Forall2 sim_event (hand_over st arrivals).2 events.
Proof.
  revert st st'. induction arrivals as [|[f domain] rest IH]; intros st st' Hst; simpl; [intros _; by exists st', []|].
  intros [Hw1 Hw]%andb_true_iff. assert (0 <= Fact.SourceSequence f <= max_u64) as Hb by (bool_prop; lia).
  destruct (Accept st f domain) as [[st1 a] [e|]] eqn:Ha.
  - apply Accept_rejects in Ha as ->. by apply IH.
  - destruct (sim_Accept st st' f domain st1 a Hst Ha) as (st1' & a' & Ha' & Hst1 & Hsa).
    destruct (IH st1 st1' Hst1 Hw) as (st2 & events & Hre & H1 & H2). destruct (hand_over st1 rest) as [stn later]. simpl in *.
    rewrite Ha', (Accept_not_rejected _ _ _ _ _ Hb Ha'), Hre. simpl. eexists _, _. split; [done|]. split; [done|].
    constructor; [by split|done].
Qed.

Lemma accepted_is_next st f domain st' a : 0 <= Fact.SourceSequence f <= max_u64 -> Accept st f domain = (st', a, None) ->
  Acceptance.Outcome a = OutcomeAccepted -> HostSequence st' = u64 (HostSequence st + 1) /\ Acceptance.HostSequence a = HostSequence st'.
Proof.
  intros Hb Ha Ho. apply Accept_decides in Ha as (digest & role & _ & Hio & Hd); [|done].
  apply decide_arrival_tells in Hd as (Ht & _); [|done].
  destruct Ht as [s' _ H1 H2|s' H1|[H1|H1]]; [done|rewrite Ho in H1; discriminate..].
Qed.

(** Where everything was accepted, the host sequences tell the order. *)
Lemma accepted_in_order st arrivals : in_width arrivals = true -> 0 <= HostSequence st ->
  HostSequence st + len arrivals <= max_u64 ->
  Forall (fun e => Acceptance.Outcome (Event.Acceptance e) = OutcomeAccepted) (hand_over st arrivals).2 ->
  StronglySorted (fun x y => JournalRecord.HostSequence x < JournalRecord.HostSequence y) (map record_of (hand_over st arrivals).2) /\
  Forall (fun r => HostSequence st < JournalRecord.HostSequence r) (map record_of (hand_over st arrivals).2).
Proof.
  revert st. induction arrivals as [|[f domain] rest IH]; intros st; simpl; [intros; split; constructor|].
  intros [Hw1 Hw]%andb_true_iff Hz Hm. assert (0 <= Fact.SourceSequence f <= max_u64) as Hb by (bool_prop; lia).
  destruct (Accept st f domain) as [[st1 a] [e|]] eqn:Ha.
  - apply Accept_rejects in Ha as ->. intros Hall. apply IH; [done..|lia|done].
  - destruct (hand_over st1 rest) as [stn later] eqn:Hh. simpl. intros [Ho Hall]%Forall_cons. simpl in Ho.
    destruct (accepted_is_next _ _ _ _ _ Hb Ha Ho) as [H1 H2]. rewrite u64_small in H1 by lia.
    specialize (IH st1 Hw). rewrite Hh in IH. simpl in IH. destruct IH as [H3 H4]; [lia..|done|].
    split.
    + constructor; [done|]. eapply Forall_impl; [exact H4|]. simpl. lia.
    + constructor; [simpl; lia|]. eapply Forall_impl; [exact H4|]. simpl. lia.
Qed.

(** Both journals are read, in either order. *)
Lemma unfolded_both watermark journals root user d hr hu br bu wr wu : (forall l, walk l ≡ₚ l) ->
  journals = <[DomainUser := user]> {[DomainRoot := root]} ->
  RecordsAfter watermark (rootSpool d) = (wr, Done (hr, br)) -> RecordsAfter watermark (userSpool d) = (wu, Done (hu, bu)) ->
  exists records, unfolded (domains_of walk journals) watermark d = (mkDisks wr wu (stored d), Done records) /\ records ≡ₚ (hr ++ hu)%list.
Proof.
  intros Hw -> Hroot Huser. unfold domains_of.
  assert (walk (map fst (map_to_list (<[DomainUser := user]> {[DomainRoot := root]} : gmap Domain Journal.t))) ≡ₚ [DomainRoot; DomainUser]) as Hp.
  { rewrite Hw. rewrite map_to_list_insert, map_to_list_singleton by done. simpl. apply Permutation_swap. }
  symmetry in Hp. apply Permutation_length_2_inv in Hp as [-> | ->]; unfold unfolded, mbind, M_bind, mret, M_ret, of_journal.
  - change (String.eqb DomainRoot DomainRoot) with true. change (String.eqb DomainUser DomainRoot) with false. cbv iota zeta.
    rewrite Hroot. cbn [userSpool rootSpool stored]. rewrite Huser. cbn [userSpool rootSpool stored fst].
    eexists. split; [done|]. by rewrite app_nil_r.
  - change (String.eqb DomainRoot DomainRoot) with true. change (String.eqb DomainUser DomainRoot) with false. cbv iota zeta.
    rewrite Huser. cbn [userSpool rootSpool stored]. rewrite Hroot. cbn [userSpool rootSpool stored fst].
    eexists. split; [done|]. rewrite app_nil_r. by rewrite Permutation_app_comm.
Qed.

End steps.
