(* ===== verification/ConnRuntimeSample.v ===== *)
(** * The read model on a concrete host

    The properties of [ConnRuntimeSafety] at work on a small machine, and what the code
    does outside their reach: a journal that refuses a record, a restart after a
    duplicate, a restart after a conflict, a pointer that cannot be read. *)

From Stdlib Require Import ZArith Lia Ascii String.
From stdpp Require Import base strings list option sets gmap sorting relations.
From S2P Require Import Prelude Faults PolicyModel PolicyCanonical Metadata Connectivity Events Spool SpoolSafety ConnJournal ConnAccept.
From S2P Require Import ConnReduce ConnAggregate ConnStore ConnReplay ConnLineage ConnRuntime ConnRuntimeSafety.

Open Scope string_scope.
Open Scope Z_scope.

Module RuntimeSample.
Import AcceptSample AggregateSample.

(** Documents as the values that they were written from, and texts for the rest. *)
Inductive document :=
| OfFact (f : Fact.t)
| OfRecord (domain component source boot : string) (sequence host fold : Z) (outcome role digest : string) (baseline : bool) (fact : document)
| OfWire (schema : string) (version : Z) (priority : string) (payload : document)
| OfStored (texts : list string) (numbers : list Z) (inner : document)
| OfCheckpoint (c : Checkpoint.t)
| OfEntry (e : IndexEntry.t)
| OfPointer (p : Pointer.t)
| OfTexts (texts : list string).

#[global] Instance document_eq_dec : EqDecision document.
Proof. unfold EqDecision, Decision. intros x y. decide equality; apply (decide (_ = _)). Defined.

Definition texts_of (d : document) : list string :=
  match d with OfFact f => fact_texts f | OfTexts l => l | _ => [] end.

#[global] Instance json : JSON := {|
  Doc := document; doc_len := fun _ => 100; Transform := Some; SHA256Hex := fun d => SampleDigest.hash (texts_of d) |}.

Definition written {T} (texts : T -> list string) : @Codec json T :=
  @Build_Codec json T (fun v => Some (OfTexts (texts v))) (fun _ => None) (fun _ => true).
Definition unused {T} : @Codec json T := @Build_Codec json T (fun _ => None) (fun _ => None) (fun _ => true).

#[global] Instance fact_codec : @Codec json Fact.t :=
  @Build_Codec json Fact.t (fun v => Some (OfFact v)) (fun d => match d with OfFact v => Some v | _ => None end) (fun _ => true).

Definition record_codec : @Codec json ConnectivityFact.t := @Build_Codec json ConnectivityFact.t
  (fun v => Some (OfRecord (ConnectivityFact.Domain v) (ConnectivityFact.Component v) (ConnectivityFact.SourceID v)
    (ConnectivityFact.BootID v) (ConnectivityFact.SourceSequence v) (ConnectivityFact.HostSequence v)
    (ConnectivityFact.FoldPosition v) (ConnectivityFact.Outcome v) (ConnectivityFact.Role v)
    (ConnectivityFact.Digest v) (ConnectivityFact.Baseline v) (ConnectivityFact.Fact v)))
  (fun d => match d with
    | OfRecord domain component source boot sequence host fold outcome role digest baseline fact =>
        Some (@ConnectivityFact.mk json domain component source boot sequence host fold outcome role digest baseline fact)
    | _ => None end) (fun _ => true).

Definition wire : @Codec json wireRecord.t := @Build_Codec json wireRecord.t
  (fun v => Some (OfWire (wireRecord.Schema v) (wireRecord.Version v) (wireRecord.Priority v) (wireRecord.Payload v)))
  (fun d => match d with
    | OfWire schema version priority payload => Some (@wireRecord.mk json schema version priority payload)
    | _ => None end) (fun _ => true).

#[global] Instance event_codecs : @EventCodecs json :=
  @Build_EventCodecs json unused unused unused unused unused unused unused unused unused unused unused unused record_codec unused unused
    wire (fun _ => true).

#[global] Instance entry_codec : @Codec json wireEntry.t := @Build_Codec json wireEntry.t
  (fun w => let m := wireEntry.Metadata w in
    Some (OfStored [wireEntry.Schema w; wireEntry.Priority w; EventID m; NodeID m; SessionID m]
            [wireEntry.Sequence w; Metadata.Sequence m; WallClock m; MonotonicNanos m] (wireEntry.Event w)))
  (fun d => match d with
    | OfStored [schema; priority; event; node; session] [sequence; own; wall; nanos] inner =>
        Some (@wireEntry.mk json schema sequence priority (mkMetadata event node session own wall nanos) inner)
    | _ => None end) (fun _ => true).

#[global] Instance checkpoint_codec : @Codec json Checkpoint.t :=
  @Build_Codec json _ (fun v => Some (OfCheckpoint v)) (fun d => match d with OfCheckpoint v => Some v | _ => None end) (fun _ => true).
#[global] Instance index_codec : @Codec json IndexEntry.t :=
  @Build_Codec json _ (fun v => Some (OfEntry v)) (fun d => match d with OfEntry v => Some v | _ => None end) (fun _ => true).
#[global] Instance pointer_codec : @Codec json Pointer.t :=
  @Build_Codec json _ (fun v => Some (OfPointer v)) (fun d => match d with OfPointer v => Some v | _ => None end) (fun _ => true).

#[global] Instance semantic_codec : @Codec json semantic.t := written semantic_texts.
#[global] Instance diff_codec : @Codec json Diff.t := written diff_texts.
#[global] Instance proposal_codec : @Codec json Proposal.t := written proposal_texts.
#[global] Instance proposals_codec : @Codec json (list Proposal.t) := written (fun l => concat (map proposal_texts l)).
#[global] Instance snapshot_codec : @Codec json Snapshot.t := written (fun s => map ComponentRecord.State (Snapshot.Components s)).

Definition torn : @Doc json := OfTexts [].
Definition envelope (d : @Doc json) : option Envelope.t :=
  match @strictJSONDecode json _ entry_codec d with
  | Some w => Some (Envelope.mk (wireEntry.Schema w) (wireEntry.Sequence w) (wireEntry.Priority w))
  | None => None
  end.
Definition clock (n : nat) : Z * Z := (7 + Z.of_nat n, 1 + Z.of_nat n).
Definition walk (l : list Domain) : list Domain := l.
Definition mirror (_ : Domain) (_ : Z) : option bool := None.

Abbreviation read_record := (@strictJSONDecode json _ checkpoint_codec).
Abbreviation read_index := (@strictJSONDecode json _ index_codec).
Abbreviation read_pointer := (@strictJSONDecode json _ pointer_codec).
Abbreviation publish := (Publish torn envelope clock mirror).
Abbreviation tick := (Tick torn read_index read_pointer).
Abbreviation new := (ConnRuntime.New read_record read_index read_pointer walk).

Definition spool (steps : list Faults.Outcome) : @Spool.World json := Spool.mkWorld ∅ steps 0 10000 SpoolSample.generator [] None 0 0.
Definition disks : @Disks json := mkDisks (spool []) (spool []) (ConnStore.mkWorld ∅ []).

Definition options : RuntimeOptions.t :=
  RuntimeOptions.mk true (Preconditions.mk true true true true) "boot-a" (Some (Store.mk 8 [])) (Some (Journal.mk DomainRoot false 0))
    (Some (Journal.mk DomainUser false 0)) (Some (map Z.of_nat (seq 0 64))).
Definition context (now : Z) : TickInput.t := TickInput.mk descriptor [] now None.

(** A call, where it returned without an error. *)
Definition published (r : Runtime.t) (facts : list Fact.t) (d : @Disks json) : option (@Disks json * Runtime.t) :=
  match publish r facts DomainRoot d with (d', Done (r', _, None)) => Some (d', r') | _ => None end.
Definition ticked (r : Runtime.t) (now : Z) (d : @Disks json) : option (@Disks json * Runtime.t) :=
  match tick r (context now) d with (d', Done (r', _, None)) => Some (d', r') | _ => None end.
Definition begun (d : @Disks json) : option (@Disks json * Runtime.t) :=
  match new options d with (d', Done r) => Some (d', r) | _ => None end.

Abbreviation then_ x f := (option_bind _ _ (fun y : @Disks json * Runtime.t => f y.2 y.1) x).

Definition first_fact : Fact.t := fact "boot-a" 3 true true.
Definition next_fact : Fact.t := fact "boot-a" 4 false true.
Definition other_fact : Fact.t := fact "boot-a" 4 false false.

Definition running : option (@Disks json * Runtime.t) :=
  then_ (then_ (begun disks) (fun r d => published r [first_fact] d)) (fun r d => ticked r 6 d).

(** The host sequences of the root journal, in the order in which they were folded. *)
Definition sequences_of (d : @Disks json) : list Z :=
  match Records (rootSpool d) with (_, Done l) => map JournalRecord.HostSequence l | _ => [] end.

Lemma ran : option_map (fun x => (Runtime.consumed x.2, bool_decide (is_Some (Runtime.parent x.2)), sequences_of x.1)) running =
  Some (1, true, [1]).
Proof. vm_compute. reflexivity. Qed.

(** ** Where the history is lost *)

(** A record that the journal's disk refuses: the publication fails with the position
    taken and no event, and from then on no reduction of what follows succeeds. *)
Definition refused : option (bool * Z * option conn_error) :=
  option_bind _ _ (fun x =>
    match publish x.2 [first_fact] DomainRoot (mkDisks (spool [Refused]) (userSpool x.1) (stored x.1)) with
    | (_, Done (r, _, failed)) =>
        option_map (fun y =>
          (bool_decide (failed = None), FoldPosition (Runtime.acceptor y.2),
           match tick y.2 (context 6) y.1 with (_, Done (_, _, Some (ErrReduce e))) => Some e | _ => None end))
          (published r [next_fact] x.1)
    | _ => None
    end) (begun disks).

Lemma refused_record_stops_the_model : refused = Some (false, 2, Some ErrOutOfOrder).
Proof. vm_compute. reflexivity. Qed.

(** The last journalled record is a duplicate, which has no host sequence: a start without
    a checkpoint counts from zero again, and two facts have the first sequence. *)
Definition reissued : option (list Z) :=
  option_map (fun x => sequences_of x.1)
    (then_ (then_ (then_ (begun disks) (fun r d => published r [first_fact; first_fact] d)) (fun _ d => begun d))
       (fun r d => published r [next_fact] d)).

Lemma sequence_is_reissued : reissued = Some [1; 0; 1].
Proof. vm_compute. reflexivity. Qed.

(** A fact and one that contradicts it, folded after the checkpoint: a restart takes the
    one without a host sequence first, accepts it, and calls the other the contradiction. *)
Definition judged (r : Runtime.t) : list (Outcome * bool) :=
  map (fun e => (Acceptance.Outcome (Event.Acceptance e), bool_decide (Event.Fact e = next_fact))) (Runtime.pending r).

Definition contradicted : option (@Disks json * Runtime.t) := then_ running (fun r d => published r [next_fact; other_fact] d).

Lemma contradiction_wins_after_restart :
  option_map (fun x => judged x.2) contradicted = Some [(OutcomeAccepted, true); (OutcomeConflict, false)] /\
  option_map (fun x => judged x.2) (then_ contradicted (fun _ d => begun d)) = Some [(OutcomeAccepted, false); (OutcomeConflict, true)].
Proof. split; vm_compute; reflexivity. Qed.

(** A pointer that cannot be read over an empty index: the search calls it unrecoverable,
    a state to start over from, and the start fails. *)
Definition torn_pointer : @Disks json := mkDisks (spool []) (spool []) (ConnStore.mkWorld {[(rootDir, pointerName) := torn]} []).

Lemma torn_pointer_refuses_the_start :
  option_map Resume.Status (match ResumeFrom read_record read_index read_pointer (Store.mk 8 []) (files (stored torn_pointer)) with
    | Ok r => Some r | Err _ => None end) = Some ResumeUnrecoverable /\
  (match new options torn_pointer with (_, Failed (ErrCheckpoint ErrInvalidCheckpoint)) => true | _ => false end) = true.
Proof. split; vm_compute; reflexivity. Qed.

(** ** The properties, here *)

Lemma fresh_in_step r : Runtime.acceptor r = ConnAccept.New -> Runtime.pending r = [] -> Runtime.snapshot r = None ->
  Runtime.consumed r = 0 -> Runtime.accepted r = 0 -> in_step r.
Proof.
  intros Ha Hp Hs Hc Hd. exists ConnAccept.New, [], []. split; [constructor|reflexivity| | |rewrite Hs; tauto].
  - rewrite Ha. split; [reflexivity..|]. intros id. cbn. rewrite lookup_empty. constructor.
  - rewrite Hp. constructor.
Qed.

Definition empty_runtime (r : Runtime.t) : bool :=
  bool_decide (FoldPosition (Runtime.acceptor r) = 0) && bool_decide (HostSequence (Runtime.acceptor r) = 0) &&
  bool_decide (map_to_list (Sources (Runtime.acceptor r)) = []) && bool_decide (len (Runtime.pending r) = 0) &&
  bool_decide (Runtime.snapshot r = None) && bool_decide (Runtime.consumed r = 0) && bool_decide (Runtime.accepted r = 0).

Lemma empty_in_step r : empty_runtime r = true -> in_step r.
Proof.
  unfold empty_runtime. rewrite !andb_true_iff, !bool_decide_eq_true. intros [[[[[[H1 H2] H3] H4] H5] H6] H7].
  apply fresh_in_step; [|destruct (Runtime.pending r); [reflexivity|discriminate H4]|exact H5|exact H6|exact H7].
  apply map_to_list_empty_iff in H3. destruct (Runtime.acceptor r) as [h f s]. cbn in *. subst. reflexivity.
Qed.

Lemma published_step r facts d d' r' : in_range facts -> published r facts d = Some (d', r') ->
  step torn envelope clock read_index read_pointer mirror r r'.
Proof.
  unfold published. intros Hf. destruct (publish r facts DomainRoot d) as [d1 [[[r1 report] [e|]]|e|]] eqn:Hp; try discriminate.
  intros [= <- <-]. exact (step_publish _ _ _ _ _ _ r r1 facts DomainRoot d d1 report Hf Hp).
Qed.

Lemma ticked_step r now d d' r' : ticked r now d = Some (d', r') -> step torn envelope clock read_index read_pointer mirror r r'.
Proof.
  unfold ticked. destruct (tick r (context now) d) as [d1 [[[r1 out] [e|]]|e|]] eqn:Ht; try discriminate.
  intros [= <- <-]. exact (step_tick _ _ _ _ _ _ r r1 (context now) d d1 out None Ht).
Qed.

Lemma begun_empty : option_map (fun x => empty_runtime x.2) (begun disks) = Some true.
Proof. vm_compute. reflexivity. Qed.

Lemma facts_in_range : in_range [first_fact].
Proof. constructor; [vm_compute; split; discriminate|constructor]. Qed.

Lemma runtime_stays_in_step_witness : exists d r, running = Some (d, r) /\ in_step r.
Proof.
  pose proof ran as Hran. pose proof begun_empty as Hb. unfold running in *.
  destruct (begun disks) as [[d0 r0]|]; [|discriminate Hb]. injection Hb as Hb. cbn [option_bind fst snd] in *.
  destruct (published r0 [first_fact] d0) as [[d1 r1]|] eqn:Hp; [|discriminate Hran]. cbn [option_bind fst snd] in *.
  destruct (ticked r1 6 d1) as [[d2 r2]|] eqn:Ht; [|discriminate Hran]. exists d2, r2. split; [reflexivity|].
  refine (proj1 (runtime_stays_in_step torn envelope clock read_index read_pointer mirror r0 r2 (empty_in_step r0 Hb) _)).
  exact (rtc_l _ _ _ _ (published_step _ _ _ _ _ facts_in_range Hp) (rtc_l _ _ _ _ (ticked_step _ _ _ _ _ Ht) (rtc_refl _ _))).
Defined.

(** The history: what was folded into the checkpoint, and what came after it. *)
Abbreviation handed := (@hand_over json fact_codec).
Definition st1 : State := (handed ConnAccept.New [(first_fact, DomainRoot)]).1.
Definition ev1 : list Event.t := (handed ConnAccept.New [(first_fact, DomainRoot)]).2.
Definition since : list (Fact.t * Domain) := [(next_fact, DomainRoot)].
Definition ev2 : list Event.t := (handed st1 since).2.
Definition output1 : result conn_error Output.t := @Reduce json semantic_codec diff_codec proposal_codec (with_events first ev1).

Definition stopped : option (@Disks json * Runtime.t) := then_ running (fun r d => published r [next_fact] d).

(** What a start finds on these disks. *)
Definition left_behind (d : @Disks json) : bool :=
  match ResumeFrom read_record read_index read_pointer (Store.mk 8 []) (files (stored d)), output1 with
  | Ok resume, Ok o =>
      match Resume.Checkpoint resume with
      | None => false
      | Some c =>
          Usable resume && bool_decide (Checkpoint.Snapshot c = Output.Snapshot o) &&
          bool_decide (Checkpoint.SourceWatermarks c = Snapshot.Sources (Checkpoint.Snapshot c)) &&
          match snd (RecordsAfter (Checkpoint.ConsumedTo c) (rootSpool d)), snd (RecordsAfter (Checkpoint.ConsumedTo c) (userSpool d)) with
          | Done (hr, _), Done (hu, _) => bool_decide ((hr ++ hu)%list = map record_of ev2)
          | _, _ => false
          end
      end
  | _, _ => false
  end.

Lemma left_there : option_map (fun x => left_behind x.1) stopped = Some true.
Proof. vm_compute. reflexivity. Qed.

Lemma all_accepted : forallb (fun e => String.eqb (Acceptance.Outcome (Event.Acceptance e)) OutcomeAccepted) ev2 = true.
Proof. vm_compute. reflexivity. Qed.

Lemma history_widths : in_width [(first_fact, DomainRoot)] = true /\ in_width since = true /\ 0 <= HostSequence st1 /\
  HostSequence st1 + len since <= max_u64.
Proof. vm_compute. repeat split; discriminate. Qed.

Lemma start_continues : continues ConnAccept.New first.
Proof. exact (conj eq_refl (conj eq_refl eq_refl)). Qed.

Lemma history_reached : exists log, reach st1 log.
Proof.
  destruct (hand_over_follows ConnAccept.New [] [(first_fact, DomainRoot)] (start first) reach_new (proj1 history_widths)
    (start_follows ConnAccept.New first start_continues)) as (_ & log & _ & _ & Hr & _). exact (ex_intro _ log Hr).
Qed.

End RuntimeSample.
