(* ===== verification/Archive.v ===== *)
(** * The event archive

    [internal/eventarchive] ([archive.go], [index.go], [read.go]) and [internal/diskusage]:
    a directory of event records bounded in age and in the room that the filesystem
    charges for them.  An append evicts what is too old, then, where the bound asks for
    it, the cheapest records, and names what it removed in a record of its own.

    The directory and the script of the disk are as in [Spool].  Parameters: the reading
    [readWire] of a stored record, which ignores fields that it does not know; the blocks
    that the filesystem reports for a content; the readings of the clock. *)

From Stdlib Require Import ZArith Lia Ascii String.
From stdpp Require Import base strings list option sets gmap sorting.
From S2P Require Import Prelude GoTime PolicyModel Metadata PolicyCanonical Connectivity Events Faults Spool.

Open Scope string_scope.
Open Scope Z_scope.

(** ** What a file takes from the disk *)

Definition blockUnit := 512.
Definition DefaultAllocationUnit := 4096.

(** [Occupied] of a file that is there; [blocks] is what the filesystem reports, if it
    reports allocation. *)
Definition Occupied (blocks : option Z) (size : Z) : Z :=
  match blocks with
  | None => size
  | Some blocks =>
      if blocks <? 0 then size
      else
        let occupied := i64 (blocks * blockUnit) in
        if (occupied <? size) && (occupied =? 0) then size else occupied
  end.

Definition WillOccupy (length unit : Z) : Z :=
  let unit := if unit <=? 0 then DefaultAllocationUnit else unit in
  if length <=? 0 then 0 else i64 (Z.quot (i64 (length + unit - 1)) unit * unit).

(** [AllocationUnit]; [size] is the block size of the filesystem, where it says. *)
Definition AllocationUnit (size : option Z) : Z :=
  match size with
  | Some size => if size <=? 0 then DefaultAllocationUnit else size
  | None => DefaultAllocationUnit
  end.

(** ** Records *)

Definition ArchiveMaxBytes := 1024 * 1024 * 1024.
Definition DefaultMaxAge := 7 * 24 * 3600 * 10 ^ 9.
Definition EvictionShare := 64.
Definition stableSuffix := ".event".
Definition pendingSuffix := ".pending".
Definition RecordSchema := "hexroute.event-archive.record.v1".
Definition nameWidth := 20.
Definition MaxReadRecords : nat := Z.to_nat 100000.

Inductive archive_error :=
| ErrArchive
| ErrArchiveFull
| ErrRecordTooLarge
| ErrReadOnly
| ErrInjectedFault
| ErrEvent (e : event_error)
| ErrMetadata (e : Metadata.error)
| ErrJoined (e e' : archive_error).

Inductive Boundary :=
| BeforeFileSync | AfterFileSync | BeforeRename | AfterRename | BeforeDirectorySync | AfterDirectorySync.
#[global] Instance Boundary_eq_dec : EqDecision Boundary.
Proof. solve_decision. Defined.

Definition archiveName (sequence : Z) : string := of_chars (digits 20 sequence).
Definition stablePath (sequence : Z) : string := archiveName sequence ++ stableSuffix.
Definition pendingPath (sequence : Z) : string := archiveName sequence ++ pendingSuffix.

(** The digits of a name, as the loop adds them up: a value beyond 64 bits wraps around. *)
Fixpoint read_digits (text : list ascii) (sequence : Z) : option Z :=
  match text with
  | [] => Some sequence
  | digit :: rest => if is_digit digit then read_digits rest (u64 (sequence * 10 + digit_value digit)) else None
  end.

Definition parseStableName (fileName : string) : option Z :=
  let trimmed := if has_suffix stableSuffix fileName then take (length (chars fileName) - 6) (chars fileName) else chars fileName in
  if negb (Z.of_nat (length trimmed) =? nameWidth) then None else read_digits trimmed 0.

Module stableEntry.
Record t := mk { Sequence : Z; Size : Z }.
#[global] Instance eq_dec : EqDecision t.
Proof. solve_decision. Defined.
End stableEntry.

Definition by_entry (x y : stableEntry.t) : bool := stableEntry.Sequence x <? stableEntry.Sequence y.

Definition archiveTotalSize (entries : list stableEntry.t) : Z := foldr (fun e total => stableEntry.Size e + total) 0 entries.

Definition highestStable (entries : list stableEntry.t) : Z :=
  match last entries with Some e => stableEntry.Sequence e | None => 0 end.

(** [Window]; the instants are nanoseconds, and what is absent is the zero time. *)
Module Window.
Record t := mk { Records : Z; First : Z; Last : Z; Oldest : option Z; Newest : option Z; Empty : bool }.
End Window.

Definition no_window : Window.t := Window.mk 0 0 0 None None true.

Module Query.
Record t := mk { From : option Z; To : option Z; Limit : Z }.
End Query.

Module wireArchive.
Section wire.
Context `{JSON}.
Record t := mk { Schema : string; Sequence : Z; Priority : string; Metadata : Metadata.Metadata; Event : Doc }.
End wire.
Arguments t {_}.
End wireArchive.

Module ArchiveRecord.
Section record.
Context `{JSON}.
Record t := mk { Sequence : Z; Priority : string; Metadata : Metadata.Metadata; Event : Doc; Size : Z }.
End record.
Arguments t {_}.
End ArchiveRecord.

Module Reading.
Section reading.
Context `{JSON}.
Record t := mk { Records : list ArchiveRecord.t; Requested : Window.t; Covered : Window.t; Truncated : bool }.
End reading.
Arguments t {_}.
End Reading.

Section archive.
Context `{JSON} `{!EventCodecs} `{!Codec Fact.t} `{!Codec wireArchive.t}.
Context (torn : Doc) (readWire : Doc -> option wireArchive.t) (blocks : Doc -> option Z) (clock : nat -> Z * Z).

Abbreviation Dir := (gmap string File.t) (only parsing).

(** ** Choosing what goes *)

(** The inner loop of [chooseEvictions]: what was chosen with what it frees, and whether
    that is what was wanted. *)
Fixpoint choose_class (occupies : ArchiveRecord.t -> Z) (wanted : Z) (priority : string) (records chosen : list ArchiveRecord.t)
    (freed : Z) : list ArchiveRecord.t * Z * bool :=
  match records with
  | [] => (chosen, freed, false)
  | record :: rest =>
      if negb (String.eqb (ArchiveRecord.Priority record) priority) then choose_class occupies wanted priority rest chosen freed
      else
        let chosen := (chosen ++ [record])%list in
        let freed := freed + occupies record in
        if wanted <=? freed then (chosen, freed, true) else choose_class occupies wanted priority rest chosen freed
  end.

Definition chooseEvictions (records : list ArchiveRecord.t) (occupies : ArchiveRecord.t -> Z) (excess wanted : Z) :
    list ArchiveRecord.t * bool :=
  match choose_class occupies wanted PriorityDiagnostic records [] 0 with
  | (chosen, _, true) => (chosen, true)
  | (chosen, freed, false) =>
      match choose_class occupies wanted PriorityOperational records chosen freed with
      | (chosen, _, true) => (chosen, true)
      | (chosen, freed, false) => (chosen, excess <=? freed)
      end
  end.

(** ** Reading *)

Definition record_of_file (file : File.t) : result archive_error ArchiveRecord.t :=
  match readWire (File.data file) with
  | None => Err ErrArchive
  | Some wire =>
      if negb (String.eqb (wireArchive.Schema wire) RecordSchema) then Err ErrArchive
      else Ok (ArchiveRecord.mk (wireArchive.Sequence wire) (wireArchive.Priority wire) (wireArchive.Metadata wire)
                 (wireArchive.Event wire) (doc_len (File.data file)))
  end.

Definition readRecord (d : Dir) (sequence : Z) : result archive_error ArchiveRecord.t :=
  match d !! stablePath sequence with
  | None => Err ErrArchive
  | Some file => if bool_decide (File.type file = Folder) then Err ErrArchive else record_of_file file
  end.

Definition scanned (file : string * File.t) : bool :=
  negb (bool_decide (File.type file.2 = Folder)) && has_suffix stableSuffix file.1.

Definition by_record (x y : ArchiveRecord.t) : bool := ArchiveRecord.Sequence x <? ArchiveRecord.Sequence y.

Definition scan (d : Dir) : result archive_error (list ArchiveRecord.t) :=
  records ← mapM (fun file => record_of_file file.2) (List.filter scanned (ReadDir d));
  Ok (sort_slice by_record records).

Definition entry_of_file (sequence : Z) (file : File.t) : stableEntry.t :=
  stableEntry.mk sequence (Occupied (blocks (File.data file)) (doc_len (File.data file))).

(** The loop of [walk]. *)
Fixpoint walk_files (files : list (string * File.t)) (seen : gset Z) : result archive_error (list stableEntry.t) :=
  match files with
  | [] => Ok []
  | (fileName, file) :: rest =>
      if negb (has_suffix stableSuffix fileName) then walk_files rest seen
      else match parseStableName fileName with
           | None => Err ErrArchive
           | Some sequence =>
               if bool_decide (File.type file = Folder) || bool_decide (File.type file = Symlink) then Err ErrArchive
               else if bool_decide (sequence ∈ seen) then Err ErrArchive
               else if negb (bool_decide (File.type file = Regular)) then Err ErrArchive
               else
                 entries ← walk_files rest ({[sequence]} ∪ seen);
                 Ok (entry_of_file sequence file :: entries)
           end
  end.

(** ** The archive at work *)

Record World := mkWorld {
  dir : Dir;
  script : list Outcome;
  calls : nat;
  maxBytes : Z;
  allocationUnit : Z;
  maxAge : Z;
  metadata : Generator;
  faults : list Boundary;
  indexed : option (list stableEntry.t);
  walks : Z;
  readOnly : bool;
  refused : Z
}.

Definition set_dir (d : Dir) (w : World) : World :=
  mkWorld d (script w) (calls w) (maxBytes w) (allocationUnit w) (maxAge w) (metadata w) (faults w) (indexed w) (walks w) (readOnly w)
    (refused w).
Definition set_script (s : list Outcome) (w : World) : World :=
  mkWorld (dir w) s (calls w) (maxBytes w) (allocationUnit w) (maxAge w) (metadata w) (faults w) (indexed w) (walks w) (readOnly w)
    (refused w).
Definition set_metadata (c : nat) (g : Generator) (w : World) : World :=
  mkWorld (dir w) (script w) c (maxBytes w) (allocationUnit w) (maxAge w) g (faults w) (indexed w) (walks w) (readOnly w) (refused w).
Definition set_indexed (i : option (list stableEntry.t)) (w : World) : World :=
  mkWorld (dir w) (script w) (calls w) (maxBytes w) (allocationUnit w) (maxAge w) (metadata w) (faults w) i (walks w) (readOnly w)
    (refused w).
Definition set_walks (n : Z) (w : World) : World :=
  mkWorld (dir w) (script w) (calls w) (maxBytes w) (allocationUnit w) (maxAge w) (metadata w) (faults w) (indexed w) n (readOnly w)
    (refused w).
Definition set_refused (n : Z) (w : World) : World :=
  mkWorld (dir w) (script w) (calls w) (maxBytes w) (allocationUnit w) (maxAge w) (metadata w) (faults w) (indexed w) (walks w)
    (readOnly w) n.

Abbreviation Prog := (M World archive_error).

(** One operation on the disk; [None] is its failure on this directory. *)
Definition perform (op : Dir -> option Dir) : Prog unit := fun w =>
  match script w with
  | Crash :: _ => (w, Crashed)
  | Refused :: rest => (set_script rest w, Failed ErrArchive)
  | _ =>
      let w' := set_script (tail (script w)) w in
      match op (dir w) with
      | Some d => (set_dir d w', Done tt)
      | None => (w', Failed ErrArchive)
      end
  end.

Definition remove (name : string) : Prog unit :=
  perform (fun d => match d !! name with Some _ => Some (delete name d) | None => None end).

(** [os.Remove], where a file that is not there is no error. *)
Definition remove_any (name : string) : Prog unit := perform (fun d => Some (delete name d)).

Definition rename (from to : string) : Prog unit :=
  perform (fun d => match d !! from with Some f => Some (<[to := f]> (delete from d)) | None => None end).

Definition create (name : string) : Prog unit :=
  perform (fun d => match d !! name with Some _ => None | None => Some (<[name := File.mk Regular true torn]> d) end).

Definition write (name : string) (data : Doc) : Prog unit := perform (fun d => Some (<[name := File.mk Regular true data]> d)).

Definition inspect (name : string) : Prog unit :=
  perform (fun d => match d !! name with Some _ => Some d | None => None end).

Definition flush : Prog unit := perform Some.

Definition syncDirectory : Prog unit := _ ← flush; flush.

Definition inject (boundary : Boundary) : Prog unit :=
  w ← get; if bool_decide (boundary ∈ faults w) then fail ErrInjectedFault else mret tt.

Definition forgetIndex : Prog unit := update (set_indexed None).

Definition walk : Prog (list stableEntry.t) :=
  w ← get;
  _ ← update (set_walks (walks w + 1));
  lift (entries ← walk_files (ReadDir (dir w)) ∅; Ok (sort_slice by_entry entries)).

Definition index : Prog (list stableEntry.t) :=
  w ← get;
  match indexed w with
  | Some entries => mret entries
  | None => entries ← walk; _ ← update (set_indexed (Some entries)); mret entries
  end.

Definition noteAppended (entry : stableEntry.t) : Prog unit :=
  update (fun w => match indexed w with
    | None => w
    | Some entries => set_indexed (Some (sort_slice by_entry (entries ++ [entry])%list)) w
    end).

Definition noteEvicted (records : list ArchiveRecord.t) : Prog unit :=
  update (fun w => match indexed w with
    | None => w
    | Some entries =>
        let gone := map ArchiveRecord.Sequence records in
        set_indexed (Some (List.filter (fun e => negb (bool_decide (stableEntry.Sequence e ∈ gone))) entries)) w
    end).

(** ** Writing *)

Definition wire_of (record : ArchiveRecord.t) : wireArchive.t :=
  wireArchive.mk RecordSchema (ArchiveRecord.Sequence record) (ArchiveRecord.Priority record) (ArchiveRecord.Metadata record)
    (ArchiveRecord.Event record).

Definition newRecord (stamp : Metadata.Metadata) (priority : string) (encoded : Doc) : result archive_error ArchiveRecord.t :=
  let record size := ArchiveRecord.mk (Metadata.Sequence stamp) priority stamp encoded size in
  measured ← of_option ErrArchive (json_Marshal (wire_of (record 0)));
  Ok (record (doc_len measured)).

(** A file staged and not published is removed again, except where a fault leaves it as a
    crash would. *)
Definition stage (record : ArchiveRecord.t) : Prog unit :=
  let path := pendingPath (ArchiveRecord.Sequence record) in
  _ ← create path;
  _ ← on_error (ignore (remove path))
    (encoded ← lift (of_option ErrArchive (json_Marshal (wire_of record)));
     _ ← write path encoded;
     _ ← inject BeforeFileSync;
     _ ← flush;
     flush);
  _ ← inject AfterFileSync;
  on_error (ignore (remove path)) syncDirectory.

Definition evict (records : list ArchiveRecord.t) : Prog unit :=
  _ ← on_error forgetIndex (each (fun r => remove_any (stablePath (ArchiveRecord.Sequence r))) records);
  match records with
  | [] => mret tt
  | _ => _ ← on_error forgetIndex syncDirectory; noteEvicted records
  end.

Definition commit (record : ArchiveRecord.t) (evictions : list ArchiveRecord.t) : Prog unit :=
  let sequence := ArchiveRecord.Sequence record in
  _ ← evict evictions;
  _ ← inject BeforeRename;
  _ ← rename (pendingPath sequence) (stablePath sequence);
  _ ← on_error forgetIndex (_ ← inject AfterRename; inject BeforeDirectorySync);
  _ ← on_error forgetIndex syncDirectory;
  _ ← on_error forgetIndex (inject AfterDirectorySync);
  _ ← on_error forgetIndex (inspect (stablePath sequence));
  w ← get;
  match dir w !! stablePath sequence with
  | Some file => noteAppended (entry_of_file sequence file)
  | None => mret tt
  end.

Definition next : Prog Metadata.Metadata := fun w =>
  let '(monotonic, wall) := clock (calls w) in
  match Next monotonic wall (metadata w) with
  | (Ok m, g) => (set_metadata (S (calls w)) g w, Done m)
  | (Err e, g) => (set_metadata (S (calls w)) g w, Failed (ErrMetadata e))
  end.

(** A record of the archive's own, which no bound refuses. *)
Definition append_own (priority : string) (encoded : Doc) : Prog unit :=
  stamp ← next;
  record ← lift (newRecord stamp priority encoded);
  _ ← stage record;
  commit record [].

Definition appendOverflow (encoded : Doc) : Prog unit := append_own PriorityCritical encoded.

(** The records of one class that were dropped, as they are named. *)
Definition overflow_of (reason priority : string) (group : list ArchiveRecord.t) : option ArchiveOverflow.t :=
  match group with
  | [] => None
  | r :: _ =>
      let sequences := map ArchiveRecord.Sequence group in
      Some (ArchiveOverflow.mk reason priority (fold_left Z.min sequences (ArchiveRecord.Sequence r))
              (fold_left Z.max sequences (ArchiveRecord.Sequence r)) (u32 (len group)))
  end.

Definition of_class (priority : string) (dropped : list ArchiveRecord.t) : list ArchiveRecord.t :=
  List.filter (fun r => String.eqb (ArchiveRecord.Priority r) priority) dropped.

Definition recordOverflow (reason : string) (dropped : list ArchiveRecord.t) : Prog unit :=
  each (fun priority =>
    match overflow_of reason priority (of_class priority dropped) with
    | None => mret tt
    | Some value =>
        encoded ← lift (map_err (fun _ => ErrArchive) (Events.Encode SchemaArchiveOverflow (PArchiveOverflow value)));
        appendOverflow encoded
    end) [PriorityDiagnostic; PriorityOperational; PriorityCritical].

Definition recordRefusedRecord : Prog unit :=
  _ ← update (fun w => set_refused (u32 (refused w + 1)) w);
  w ← get;
  if negb (Z.land (refused w) (u32 (refused w - 1)) =? 0) then mret tt
  else
    encoded ← lift (map_err (fun _ => ErrArchive) (Events.Encode SchemaDiagnostic
      (PDiagnostic (Diagnostic.mk ControlNames.ComponentRuntime DiagnosticArchiveRefusedRecord (refused w) 0))));
    append_own PriorityDiagnostic encoded.

Definition recordRefusal (priority : string) : Prog unit :=
  encoded ← lift (map_err (fun _ => ErrArchive) (Events.Encode SchemaArchiveOverflow
    (PArchiveOverflow (ArchiveOverflow.mk ArchiveOverflowRefused priority 0 0 0))));
  appendOverflow encoded.

(** ** Appending *)

(** The walk of [expiredByAge], from the oldest record. *)
Fixpoint expired_loop (d : Dir) (boundary due : Z) (entries : list stableEntry.t) (expired : list ArchiveRecord.t) :
    list ArchiveRecord.t :=
  match entries with
  | [] => expired
  | entry :: rest =>
      match readRecord d (stableEntry.Sequence entry) with
      | Err _ => expired_loop d boundary due rest expired
      | Ok record =>
          let at_ := WallClock (ArchiveRecord.Metadata record) in
          if (Nat.eqb (length expired) 0) && negb (at_ <? due) then []
          else if at_ <? boundary then expired_loop d boundary due rest (expired ++ [record])%list
          else expired
      end
  end.

Definition wallNow : Prog Z := fun w => (set_metadata (S (calls w)) (metadata w) w, Done (snd (clock (calls w)))).

Definition expiredByAge (entries : list stableEntry.t) : Prog (list ArchiveRecord.t) :=
  w ← get;
  if maxAge w =? 0 then mret []
  else
    now ← wallNow;
    w ← get;
    let boundary := now - maxAge w in
    let due := boundary + Z.quot (- maxAge w) EvictionShare in
    mret (expired_loop (dir w) boundary due entries []).

(** The first part of [Append]: what is too old goes, and is named. *)
Definition age_out : Prog (list stableEntry.t) :=
  kept ← index;
  expired ← expiredByAge kept;
  match expired with
  | [] => mret kept
  | _ =>
      _ ← evict expired;
      _ ← recordOverflow ArchiveOverflowAge expired;
      index
  end.

Definition occupies_in (kept : list stableEntry.t) (unit : Z) (record : ArchiveRecord.t) : Z :=
  match List.find (fun e => stableEntry.Sequence e =? ArchiveRecord.Sequence record) (rev kept) with
  | Some e => stableEntry.Size e
  | None => WillOccupy (ArchiveRecord.Size record) unit
  end.

(** The second part, once the record has been made. *)
Definition place_record (kept : list stableEntry.t) (incoming : ArchiveRecord.t) : Prog Z :=
  w ← get;
  let incomingOccupies := WillOccupy (ArchiveRecord.Size incoming) (allocationUnit w) in
  if maxBytes w <? incomingOccupies then fail ErrRecordTooLarge
  else
    let excess := archiveTotalSize kept + incomingOccupies - maxBytes w in
    if 0 <? excess then
      stored ← lift (scan (dir w));
      let '(evictions, covered) :=
        chooseEvictions stored (occupies_in kept (allocationUnit w)) excess (excess + Z.quot (maxBytes w) EvictionShare) in
      if negb covered then
        refusal ← attempt (recordRefusal (ArchiveRecord.Priority incoming));
        fail (match refusal with Ok _ => ErrArchiveFull | Err e => ErrJoined ErrArchiveFull e end)
      else
        _ ← stage incoming;
        _ ← commit incoming evictions;
        _ ← recordOverflow ArchiveOverflowSize evictions;
        mret (ArchiveRecord.Sequence incoming)
    else
      _ ← stage incoming;
      _ ← commit incoming [];
      mret (ArchiveRecord.Sequence incoming).

Definition Append (encoded : Doc) : Prog Z :=
  w ← get;
  if readOnly w then fail ErrReadOnly
  else match Events.Decode encoded with
       | Err e =>
           refusal ← attempt recordRefusedRecord;
           fail (match refusal with Ok _ => ErrEvent e | Err e' => ErrJoined (ErrEvent e) e' end)
       | Ok decoded =>
           kept ← age_out;
           stamp ← next;
           incoming ← lift (newRecord stamp (EventRecord.Priority decoded) encoded);
           place_record kept incoming
       end.

(** ** Answering *)

Definition Records : Prog (list ArchiveRecord.t) := w ← get; lift (scan (dir w)).

Definition WindowOf : Prog Window.t :=
  entries ← index;
  match head entries, last entries with
  | Some first, Some newest =>
      w ← get;
      oldestRecord ← lift (readRecord (dir w) (stableEntry.Sequence first));
      newestRecord ← lift (readRecord (dir w) (stableEntry.Sequence newest));
      mret (Window.mk (u32 (len entries)) (stableEntry.Sequence first) (stableEntry.Sequence newest)
              (Some (WallClock (ArchiveRecord.Metadata oldestRecord))) (Some (WallClock (ArchiveRecord.Metadata newestRecord))) false)
  | _, _ => mret no_window
  end.

Definition Size : Prog Z := entries ← index; mret (archiveTotalSize entries).

Definition selects (query : Query.t) (record : ArchiveRecord.t) : bool :=
  let at_ := WallClock (ArchiveRecord.Metadata record) in
  negb (match Query.From query with Some from => at_ <? from | None => false end) &&
  negb (match Query.To query with Some to => to <? at_ | None => false end).

Definition covered_by (records : list ArchiveRecord.t) : Window.t :=
  match head records, last records with
  | Some first, Some newest =>
      Window.mk (u32 (len records)) (ArchiveRecord.Sequence first) (ArchiveRecord.Sequence newest)
        (Some (WallClock (ArchiveRecord.Metadata first))) (Some (WallClock (ArchiveRecord.Metadata newest))) false
  | _, _ => no_window
  end.

Definition Read (query : Query.t) : Prog Reading.t :=
  let limit := if (Query.Limit query <=? 0) || (Z.of_nat MaxReadRecords <? Query.Limit query) then MaxReadRecords
               else Z.to_nat (Query.Limit query) in
  w ← get;
  held ← lift (scan (dir w));
  let selected := List.filter (selects query) held in
  let records := take limit selected in
  mret (Reading.mk records
          (Window.mk 0 0 0 (Query.From query) (Query.To query) (bool_decide (Query.From query = None) && bool_decide (Query.To query = None)))
          (covered_by records) (limit <? length selected)%nat).

Definition Shortened (reading : Reading.t) : bool :=
  let requested := Reading.Requested reading in
  let covered := Reading.Covered reading in
  let later asked got := match asked, got with Some a, Some g => a <? g | Some _, None => false | None, _ => false end in
  let earlier asked got := match asked, got with Some a, Some g => g <? a | Some _, None => true | None, _ => false end in
  if Reading.Truncated reading then true
  else if Window.Empty covered then negb (Window.Empty requested)
  else later (Window.Oldest requested) (Window.Oldest covered) || earlier (Window.Newest requested) (Window.Newest covered).

(** ** Opening *)

Definition discardStaged : Prog unit :=
  w ← get;
  each (fun file => if bool_decide (File.type file.2 = Folder) || negb (has_suffix pendingSuffix file.1) then mret tt
                    else remove file.1) (ReadDir (dir w)).

Definition blank : Generator := mkGenerator "" "" 0 0 0 [].

(** [Open] over the content of the directory, the script of the disk and the block size
    of its filesystem; the first reading of the clock is the generator's. *)
Definition Open (absolute : bool) (maximum age : Z) (node : string) (random : list Z) (boundaries : list Boundary)
    (blockSize : option Z) (disk : Dir) (steps : list Outcome) : World * run archive_error unit :=
  let bound := if maximum =? 0 then ArchiveMaxBytes else maximum in
  let age := if age =? 0 then DefaultMaxAge else age in
  let w := mkWorld disk steps 0 bound (AllocationUnit blockSize) age blank boundaries None 0 false 0 in
  if negb absolute then (w, Failed ErrArchive)
  else if (bound <? 1) || (age <? 0) then (w, Failed ErrArchive)
  else
    (_ ← flush;
     _ ← discardStaged;
     entries ← index;
     generator ← lift (map_err ErrMetadata (NewGenerator node (highestStable entries) (fst (clock 0)) random));
     update (set_metadata 1 generator)) w.

Definition OpenForReading (absolute present : bool) (blockSize : option Z) (disk : Dir) : World * run archive_error unit :=
  let w := mkWorld disk [] 0 ArchiveMaxBytes (AllocationUnit blockSize) DefaultMaxAge blank [] None 0 true 0 in
  if negb absolute || negb present then (w, Failed ErrArchive) else (w, Done tt).
End archive.
