(* ===== verification/ArchiveSafety.v ===== *)
(** * What the archive keeps, and what it says it dropped

    The abstract state of an archive is the map from sequences to records that its
    directory represents.  Whatever becomes of the operations on the disk, an append adds
    records with new sequences and drops only what is too old or not critical; an append
    that returns has named everything that it dropped. *)

From Stdlib Require Import ZArith Lia Ascii String.
From stdpp Require Import base strings list option sets gmap sorting.
From S2P Require Import Prelude GoTime PolicyModel Metadata PolicyCanonical Connectivity Events Faults Spool SpoolSafety Archive.

Open Scope string_scope.
Open Scope Z_scope.

#[local] Existing Instances M_ret M_bind.

(** ** Names *)

Lemma chars_stablePath s : chars (stablePath s) = (digits 20 s ++ chars ".event")%list.
Proof. unfold stablePath, archiveName. by rewrite chars_app, chars_of_chars. Qed.

Lemma stablePath_suffix s : has_suffix stableSuffix (stablePath s) = true.
Proof. apply has_suffix_spec. exists (digits 20 s). apply chars_stablePath. Qed.

Lemma pendingPath_suffix s : has_suffix stableSuffix (pendingPath s) = false.
Proof.
  apply not_true_iff_false. intros [l Hl]%has_suffix_spec. unfold pendingPath, archiveName in Hl.
  rewrite chars_app, chars_of_chars in Hl. apply (f_equal (@rev ascii)) in Hl. rewrite !rev_app_distr in Hl.
  cbn in Hl. discriminate Hl.
Qed.

Lemma stablePath_inj s t : 0 < s <= max_u64 -> 0 < t <= max_u64 -> stablePath s = stablePath t -> s = t.
Proof.
  intros Hs Ht E. apply (f_equal chars) in E. rewrite !chars_stablePath in E.
  apply app_inj_1 in E as [E _]; [|by rewrite !digits_length]. apply (f_equal digits_value) in E.
  unfold max_u64 in *. by rewrite !digits_value_digits, !Z.mod_small in E by lia.
Qed.

(** ** The laws *)

Definition known (priority : string) : bool :=
  contains_string [PriorityCritical; PriorityOperational; PriorityDiagnostic] priority.

(** What is documented of [encoding/json]: a record with a 64-bit sequence, valid metadata
    and a known class is read back, its event perhaps compacted; what it wrote is compact. *)
Class ArchiveLaws `{JSON} `{!EventCodecs} `{!Codec wireArchive.t} (readWire : Doc -> option wireArchive.t) := {
  archived_reads : forall sequence priority m event d, 0 <= sequence <= max_u64 -> Metadata.Validate m = Ok tt -> known priority = true ->
    json_Marshal (wireArchive.mk RecordSchema sequence priority m event) = Some d ->
    exists event', readWire d = Some (wireArchive.mk RecordSchema sequence priority m event') /\
      (compact event = true -> event' = event);
  marshalled_compact : forall (v : wireRecord.t) d, json_Marshal v = Some d -> compact d = true
}.

Section safety.
Context `{JSON} `{!EventCodecs} `{!Codec Fact.t} `{!Codec wireArchive.t}.
Context (torn : Doc) (readWire : Doc -> option wireArchive.t) (blocks : Doc -> option Z) (clock : nat -> Z * Z).
Context `{!ArchiveLaws readWire}.
Hypothesis ticking : forall n, (clock n).1 <= max_i64 /\ IsZero (clock n).2 = false.

Abbreviation Dir := (gmap string File.t) (only parsing).
Abbreviation View := (gmap Z ArchiveRecord.t) (only parsing).
Abbreviation Prog := (M World archive_error).
Abbreviation record_of_file := (record_of_file readWire).
Abbreviation readRecord := (readRecord readWire).
Abbreviation scan := (scan readWire).

(** ** The directory represents a map *)

Record represents (d : Dir) (V : View) : Prop := {
  rp_files : forall name f, d !! name = Some f -> has_suffix stableSuffix name = true ->
    exists s r, name = stablePath s /\ V !! s = Some r;
  rp_records : forall s r, V !! s = Some r -> 0 < s <= max_u64 /\ ArchiveRecord.Sequence r = s /\
    exists f, d !! stablePath s = Some f /\ File.type f = Regular /\ record_of_file f = Ok r
}.

Lemma represents_insert_other d V name f : has_suffix stableSuffix name = false -> represents d V ->
  represents (<[name := f]> d) V.
Proof.
  intros Hn [Hf Hr]. split.
  - intros name' f' Hd Hs. assert (name <> name') as Hne by (intros ->; congruence). rewrite lookup_insert_ne in Hd by done.
    exact (Hf _ _ Hd Hs).
  - intros s r Hs. destruct (Hr s r Hs) as (H1 & H2 & g & Hg & H3). split; [done|]. split; [done|]. exists g.
    rewrite lookup_insert_ne; [done|]. intros ->. by rewrite stablePath_suffix in Hn.
Qed.

Lemma represents_delete_other d V name : has_suffix stableSuffix name = false -> represents d V -> represents (delete name d) V.
Proof.
  intros Hn [Hf Hr]. split.
  - intros name' f' Hd Hs. assert (name <> name') as Hne by (intros ->; congruence). rewrite lookup_delete_ne in Hd by done.
    exact (Hf _ _ Hd Hs).
  - intros s r Hs. destruct (Hr s r Hs) as (H1 & H2 & g & Hg & H3). split; [done|]. split; [done|]. exists g.
    rewrite lookup_delete_ne; [done|]. intros ->. by rewrite stablePath_suffix in Hn.
Qed.

Lemma represents_delete d V s : 0 < s <= max_u64 -> represents d V -> represents (delete (stablePath s) d) (delete s V).
Proof.
  intros Hs [Hf Hr]. split.
  - intros name f Hd Hn. apply lookup_delete_Some in Hd as [Hne Hd]. destruct (Hf name f Hd Hn) as (t & r & -> & Ht).
    exists t, r. split; [done|]. rewrite lookup_delete_ne; [done|]. intros ->. done.
  - intros t r Ht. apply lookup_delete_Some in Ht as [Hne Ht]. destruct (Hr t r Ht) as (H1 & H2 & f & Hd & H3).
    split; [done|]. split; [done|]. exists f. rewrite lookup_delete_ne; [done|]. intros E. apply Hne. by apply stablePath_inj.
Qed.

Lemma represents_insert d V s f r : 0 < s <= max_u64 -> ArchiveRecord.Sequence r = s -> File.type f = Regular ->
  record_of_file f = Ok r -> represents d V -> represents (<[stablePath s := f]> d) (<[s := r]> V).
Proof.
  intros Hs Hq Hf' Hok [Hf Hr]. split.
  - intros name g Hd Hn. destruct (decide (name = stablePath s)) as [->|Hne].
    + exists s, r. by rewrite lookup_insert_eq.
    + rewrite lookup_insert_ne in Hd by done. destruct (Hf name g Hd Hn) as (t & r' & -> & Ht). exists t.
      rewrite lookup_insert_ne by congruence. by exists r'.
  - intros t r' Ht. destruct (decide (t = s)) as [->|Hne].
    + rewrite lookup_insert_eq in Ht. injection Ht as <-. split; [lia|]. split; [done|]. exists f. by rewrite lookup_insert_eq.
    + rewrite lookup_insert_ne in Ht by done. destruct (Hr t r' Ht) as (H1 & H2 & g & Hd & H3). split; [lia|]. split; [done|].
      exists g. rewrite lookup_insert_ne; [done|]. intros E. apply Hne. symmetry. apply stablePath_inj; [lia..|done].
Qed.

(** What is read from the directory is in the map. *)
Lemma represents_read d V s r : represents d V -> readRecord d s = Ok r -> V !! ArchiveRecord.Sequence r = Some r.
Proof.
  intros [Hf Hr] He. unfold Archive.readRecord in He. destruct (d !! stablePath s) as [f|] eqn:Hd; [|discriminate].
  destruct (bool_decide _); [discriminate|]. destruct (Hf _ _ Hd (stablePath_suffix s)) as (t & r' & E & Ht).
  destruct (Hr t r' Ht) as (_ & Hq & g & Hg & _ & Hok). rewrite <- E, Hd in Hg. injection Hg as <-. rewrite Hok in He.
  injection He as <-. by rewrite Hq.
Qed.

Lemma represents_scan d V l r : represents d V -> scan d = Ok l -> r ∈ l -> V !! ArchiveRecord.Sequence r = Some r.
Proof.
  intros [Hf Hr] (records & Hm%mapM_Ok & [= <-])%bind_Ok Hin%elem_of_sort_slice.
  apply list_elem_of_lookup in Hin as [i Hi]. destruct (Forall2_lookup_r _ _ _ _ _ Hm Hi) as ([name f] & Hl & Hok).
  apply list_elem_of_lookup_2, list_elem_of_In, filter_In in Hl as [Hl Hs]. apply andb_true_iff in Hs as [_ Hs].
  apply list_elem_of_In, elem_of_sort_slice, elem_of_map_to_list in Hl.
  destruct (Hf name f Hl Hs) as (t & r' & -> & Ht). destruct (Hr t r' Ht) as (_ & Hq & g & Hg & _ & Hok').
  simpl in Hl. rewrite Hl in Hg. injection Hg as <-. simpl in Hok. rewrite Hok' in Hok. injection Hok as <-. by rewrite Hq.
Qed.

(** ** One call

    [V0] is the map when the call began, [n0] the last sequence handed out then, and
    [expendable] what the call may drop. *)

Section call.
Context (V0 : View) (n0 : Z) (expendable : ArchiveRecord.t -> Prop).
Hypothesis older : forall s r, V0 !! s = Some r -> s <= n0.

Record At (m : Z) (V : View) (w : World) : Prop := {
  at_dir : represents (dir w) V;
  at_generator : generator_ok (metadata w);
  at_from : m <= sequence (metadata w);
  at_start : n0 <= sequence (metadata w);
  at_keys : forall s r, V !! s = Some r -> s <= sequence (metadata w);
  at_known : forall s r, V !! s = Some r -> known (ArchiveRecord.Priority r) = true
}.

(** Only expendable records have gone, and only new ones have come. *)
Record moved (V : View) : Prop := {
  mv_gone : forall s r, V0 !! s = Some r -> V !! s = Some r \/ V !! s = None /\ expendable r;
  mv_new : forall s r, V !! s = Some r -> V0 !! s = Some r \/ n0 < s
}.

Definition Somewhere (w : World) : Prop := exists m V, At m V w /\ moved V.

Lemma at_somewhere m V w : moved V -> At m V w -> Somewhere w.
Proof. by exists m, V. Qed.

(** Steps that only change what the map does not see. *)
Lemma at_set_dir m V w d : At m V w -> represents d V -> At m V (set_dir d w).
Proof. intros [] Hd. by split. Qed.

Lemma at_other m V w w' : At m V w -> dir w' = dir w -> metadata w' = metadata w -> At m V w'.
Proof. intros [] Ed Em. split; rewrite ?Ed, ?Em; done. Qed.

Lemma archive_perform (P : World -> Prop) op (Q : World -> Prop) :
  (forall w s, P w -> P (set_script s w)) ->
  (forall w s d', P w -> op (dir w) = Some d' -> Q (set_dir d' (set_script s w))) ->
  triple P (perform op) (fun _ => Q) P P.
Proof.
  intros HP HQ w Hw. unfold perform. destruct (script w) as [|[] rest]; cbn [tail]; try (destruct (op (dir w)) eqn:E); eauto.
Qed.

(** A file beside the records: the map, and one pending file with its content. *)
Definition Beside (m : Z) (V : View) (pending : option (string * File.t)) (w : World) : Prop :=
  At m V w /\ match pending with Some (name, f) => dir w !! name = Some f /\ has_suffix stableSuffix name = false | None => True end.

Lemma beside_other m V x w w' : Beside m V x w -> dir w' = dir w -> metadata w' = metadata w -> Beside m V x w'.
Proof. intros [Ha Hx] Ed Em. split; [by eapply at_other|]. destruct x as [[name f]|]; [|done]. by rewrite Ed. Qed.

Lemma beside_somewhere m V x w : moved V -> Beside m V x w -> Somewhere w.
Proof. intros Hm [Ha _]. by eapply at_somewhere. Qed.

Lemma beside_script m V x w s : Beside m V x w -> Beside m V x (set_script s w).
Proof. intros Hb. by eapply beside_other. Qed.

Lemma beside_flush m V x : triple (Beside m V x) flush (fun _ => Beside m V x) (Beside m V x) (Beside m V x).
Proof.
  apply archive_perform; [apply beside_script|]. intros w s d' Hb [= <-]. by eapply beside_other.
Qed.

Lemma beside_sync m V x : triple (Beside m V x) syncDirectory (fun _ => Beside m V x) (Beside m V x) (Beside m V x).
Proof. eapply triple_bind; [apply beside_flush|]. intros []. apply beside_flush. Qed.

Lemma beside_inject m V x b : triple (Beside m V x) (inject b) (fun _ => Beside m V x) (Beside m V x) (Beside m V x).
Proof.
  unfold inject. apply triple_get. intros w0. destruct (bool_decide _).
  - apply triple_fail. tauto.
  - apply triple_ret. tauto.
Qed.

Lemma beside_forget m V x F C : triple (Beside m V x) forgetIndex (fun _ => Beside m V x) F C.
Proof. apply triple_update. intros w Hb. by eapply beside_other. Qed.

(** Removing a pending file. *)
Lemma beside_remove m V x name : has_suffix stableSuffix name = false ->
  triple (Beside m V x) (ignore (remove name)) (fun _ => At m V) (At m V) (At m V).
Proof.
  intros Hn. apply triple_ignore. eapply triple_conseq; [apply (archive_perform (Beside m V x) _ (At m V))|done|done| |].
  - apply beside_script.
  - intros w s d' [Ha _] Hd. apply at_set_dir; [by eapply at_other|].
    destruct (dir w !! name); [|discriminate]. injection Hd as <-. apply represents_delete_other, Ha. done.
  - by intros w [].
  - by intros w [].
Qed.

(** A file that was created for a record: written and closed, or removed again. *)
Lemma pending_write_keeps m V r : moved V -> let path := pendingPath (ArchiveRecord.Sequence r) in
  triple (Beside m V (Some (path, File.mk Regular true torn)))
    (on_error (ignore (remove path))
       (encoded ← lift (of_option ErrArchive (json_Marshal (wire_of r)));
        _ ← write path encoded; _ ← inject BeforeFileSync; _ ← flush; flush))
    (fun _ w => exists encoded, json_Marshal (wire_of r) = Some encoded /\ Beside m V (Some (path, File.mk Regular true encoded)) w)
    Somewhere Somewhere.
Proof.
  intros Hm path. assert (has_suffix stableSuffix path = false) as Hp by apply pendingPath_suffix.
  apply triple_on_error with (R := fun w => exists x, Beside m V x w).
  - eapply triple_bind; [apply triple_lift with (Q := fun encoded w => json_Marshal (wire_of r) = Some encoded /\
      Beside m V (Some (path, File.mk Regular true torn)) w)|].
    + intros w encoded Hb Hok%of_option_Ok. done.
    + intros w Hb. by eexists.
    + intros encoded. apply triple_pure. intros Henc. eapply triple_bind.
      { eapply triple_conseq; [apply (archive_perform (Beside m V (Some (path, File.mk Regular true torn))) _
          (Beside m V (Some (path, File.mk Regular true encoded))))|done|done|..].
        - apply beside_script.
        - intros w s d' [Ha _] [= <-]. split; [|split; [apply lookup_insert_eq|done]]. apply at_set_dir; [by eapply at_other|].
          apply represents_insert_other, Ha. done.
        - intros w Hb. by eexists.
        - by intros w Hb%(beside_somewhere m V _ w Hm). }
      intros []. eapply triple_conseq with (P' := Beside m V (Some (path, File.mk Regular true encoded)))
        (Q' := fun _ => Beside m V (Some (path, File.mk Regular true encoded)))
        (F' := Beside m V (Some (path, File.mk Regular true encoded))) (C' := Beside m V (Some (path, File.mk Regular true encoded))).
      * eapply triple_bind; [apply beside_inject|]. intros []. eapply triple_bind; [apply beside_flush|]. intros [].
        apply beside_flush.
      * done.
      * intros [] w Hb. by exists encoded.
      * intros w Hb. by eexists.
      * by intros w Hb%(beside_somewhere m V _ w Hm).
  - apply triple_exists. intros x. eapply triple_conseq; [by apply (beside_remove m V x path)|done|..];
      intros; by apply (at_somewhere m V).
Qed.

Lemma stage_keeps m V r : moved V -> triple (At m V) (stage torn r)
  (fun _ w => exists encoded, json_Marshal (wire_of r) = Some encoded /\
     Beside m V (Some (pendingPath (ArchiveRecord.Sequence r), File.mk Regular true encoded)) w) Somewhere Somewhere.
Proof.
  intros Hm. set (path := pendingPath (ArchiveRecord.Sequence r)).
  assert (has_suffix stableSuffix path = false) as Hp by apply pendingPath_suffix.
  unfold stage. fold path. eapply triple_bind.
  { eapply triple_conseq; [apply (archive_perform (At m V) _ (Beside m V (Some (path, File.mk Regular true torn))))| done|done|..].
    - intros w s Ha. by eapply at_other.
    - intros w s d' Ha Hd. destruct (dir w !! path); [discriminate|]. injection Hd as <-.
      split; [|split; [apply lookup_insert_eq|done]]. apply at_set_dir; [by eapply at_other|]. apply represents_insert_other, Ha. done.
    - intros w Ha. by eapply at_somewhere.
    - intros w Ha. by eapply at_somewhere. }
  intros []. eapply triple_bind; [by apply pending_write_keeps|].
  intros []. apply triple_exists. intros encoded. apply triple_pure. intros Henc. eapply triple_bind.
  { eapply triple_conseq; [apply beside_inject|done|done|..]; intros w; by apply beside_somewhere. }
  intros []. apply triple_on_error with (R := Beside m V (Some (path, File.mk Regular true encoded))).
  - eapply triple_conseq; [apply beside_sync|done| |done|intros w; by apply beside_somewhere]. intros [] w Hb. by exists encoded.
  - eapply triple_conseq; [by apply (beside_remove m V (Some (path, File.mk Regular true encoded)) path)|done|..];
      intros; by apply (at_somewhere m V).
Qed.

(** ** Dropping *)

Definition drop_all (L : list ArchiveRecord.t) (V : View) : View := foldl (fun V r => delete (ArchiveRecord.Sequence r) V) V L.

Lemma lookup_drop_all L V s r : drop_all L V !! s = Some r <-> V !! s = Some r /\ s ∉ map ArchiveRecord.Sequence L.
Proof.
  unfold drop_all. revert V. induction L as [|x L IH]; intros V; simpl; [split; [intros; split; [done|by apply not_elem_of_nil]|tauto]|].
  rewrite IH, lookup_delete_Some, not_elem_of_cons. naive_solver.
Qed.

Lemma lookup_dropped L V s : V !! s = None -> drop_all L V !! s = None.
Proof. intros Hs. apply eq_None_not_Some. intros [r [Hr _]%lookup_drop_all]. congruence. Qed.

Lemma dropped_gone L V r : r ∈ L -> drop_all L V !! ArchiveRecord.Sequence r = None.
Proof.
  intros Hr. apply eq_None_not_Some. intros [r' [_ Hn]%lookup_drop_all]. apply Hn. apply list_elem_of_In, in_map, list_elem_of_In, Hr.
Qed.

(** Records of the map that may go. *)
Definition droppable (V : View) (L : list ArchiveRecord.t) : Prop :=
  forall r, r ∈ L -> V !! ArchiveRecord.Sequence r = Some r /\ expendable r.

Lemma moved_drop V L : moved V -> droppable V L -> moved (drop_all L V).
Proof.
  intros [Hg Hn] Hd. split.
  - intros s r Hs. destruct (Hg s r Hs) as [Hv|[Hv He]]; [|right; split; [by apply lookup_dropped|done]].
    destruct (decide (s ∈ map ArchiveRecord.Sequence L)) as [Hin|Hin]; [|left; by apply lookup_drop_all].
    apply list_elem_of_In, in_map_iff in Hin as (x & <- & Hx%list_elem_of_In). destruct (Hd x Hx) as [Hvx He].
    right. split; [by apply dropped_gone|]. congruence.
  - intros s r [Hs _]%lookup_drop_all. by apply Hn.
Qed.

Lemma droppable_prefix V L K : droppable V (L ++ K) -> droppable V L.
Proof. intros Hd r Hr. apply Hd. apply elem_of_app. by left. Qed.

Lemma beside_remove_any m V x s : 0 < s <= max_u64 ->
  triple (Beside m V x) (remove_any (stablePath s)) (fun _ => Beside m (delete s V) x) (Beside m V x) (Beside m V x).
Proof.
  intros Hs. apply archive_perform; [apply beside_script|]. intros w t d' [[Hd Hg Hf Hz Hk Hc] Hx] [= <-]. split.
  - split; cbn [dir metadata set_dir set_script]; [by apply represents_delete|done..| |].
    + intros k r [_ Hr]%lookup_delete_Some. by eapply Hk.
    + intros k r [_ Hr]%lookup_delete_Some. by eapply Hc.
  - destruct x as [[name f]|]; [|done]. destruct Hx as [Hx Hn]. split; [|done]. cbn [dir set_dir set_script].
    rewrite lookup_delete_ne; [done|]. intros <-. by rewrite stablePath_suffix in Hn.
Qed.

Lemma beside_error m V x (A : Type) (p : Prog A) Q : moved V ->
  triple (Beside m V x) p Q (Beside m V x) (Beside m V x) -> triple (Beside m V x) (on_error forgetIndex p) Q Somewhere Somewhere.
Proof.
  intros Hm Hp. eapply triple_on_error.
  - eapply triple_conseq; [exact Hp|done|done|done|]. intros w. by apply beside_somewhere.
  - eapply triple_conseq; [apply (beside_forget m V x Somewhere Somewhere)|done| |done|done]. intros [] w. by apply beside_somewhere.
Qed.

Lemma evict_drops m V x L : moved V -> droppable V L -> (forall r, r ∈ L -> 0 < ArchiveRecord.Sequence r <= max_u64) ->
  triple (Beside m V x) (evict L) (fun _ => Beside m (drop_all L V) x) Somewhere Somewhere.
Proof.
  intros Hm Hd Hb. unfold evict. eapply triple_bind with (Q := fun _ => Beside m (drop_all L V) x).
  - eapply triple_on_error with (R := Somewhere).
    + apply (triple_each (fun done => Beside m (drop_all done V) x)). intros before r rest E.
      assert (r ∈ L) as Hr by (rewrite E; apply elem_of_app; right; apply list_elem_of_here).
      assert (moved (drop_all before V)) as Hmb by (apply moved_drop; [done|]; eapply droppable_prefix; by rewrite <- E).
      eapply triple_conseq; [apply (beside_remove_any m (drop_all before V) x _ (Hb r Hr))|done| |..].
      * intros [] w. unfold drop_all. by rewrite foldl_app.
      * intros w. by apply beside_somewhere.
      * intros w. by apply beside_somewhere.
    + apply triple_update. intros w (m' & V' & Ha & Hm'). exists m', V'. split; [by eapply at_other|done].
  - intros []. destruct L as [|r L]; [by apply triple_ret|]. pose proof (moved_drop V _ Hm Hd) as Hmd.
    eapply triple_bind; [apply beside_error; [done|apply beside_sync]|]. intros []. apply triple_update. intros w Hw.
    destruct (indexed w) eqn:E; [by eapply beside_other|done].
Qed.

(** ** Publishing *)

(** How a record is found again: its event may have been compacted. *)
Definition stored_as (r r' : ArchiveRecord.t) : Prop :=
  ArchiveRecord.Sequence r' = ArchiveRecord.Sequence r /\ ArchiveRecord.Priority r' = ArchiveRecord.Priority r /\
  ArchiveRecord.Metadata r' = ArchiveRecord.Metadata r /\
  (compact (ArchiveRecord.Event r) = true -> ArchiveRecord.Event r' = ArchiveRecord.Event r).

Lemma written_reads r encoded : 0 <= ArchiveRecord.Sequence r <= max_u64 -> Metadata.Validate (ArchiveRecord.Metadata r) = Ok tt -> known (ArchiveRecord.Priority r) = true ->
  json_Marshal (wire_of r) = Some encoded -> exists r', stored_as r r' /\ record_of_file (File.mk Regular true encoded) = Ok r'.
Proof.
  intros Hw Hv Hk He. destruct (archived_reads _ _ _ _ _ Hw Hv Hk He) as (event & Hr & Hc).
  eexists (ArchiveRecord.mk _ _ _ event _). split; [|unfold Archive.record_of_file; simpl; rewrite Hr; reflexivity]. by split_and!.
Qed.

Lemma moved_insert V s r : moved V -> n0 < s -> moved (<[s := r]> V).
Proof.
  intros [Hg Hn] Hs. split.
  - intros t r' Ht. assert (s <> t) as Hne by (pose proof (older t r' Ht); lia). rewrite lookup_insert_ne by done. by apply Hg.
  - intros t r' Ht. destruct (decide (s = t)) as [<-|Hne]; [by right|]. rewrite lookup_insert_ne in Ht by done. by apply (Hn t r').
Qed.

(** What a record needs to be stored. *)
Record storable (m : Z) (r : ArchiveRecord.t) : Prop := {
  so_valid : Metadata.Validate (ArchiveRecord.Metadata r) = Ok tt;
  so_known : known (ArchiveRecord.Priority r) = true;
  so_range : 0 < ArchiveRecord.Sequence r <= max_u64;
  so_new : n0 < ArchiveRecord.Sequence r <= m
}.

Lemma rename_publishes m V r encoded : storable m r -> moved V -> json_Marshal (wire_of r) = Some encoded ->
  triple (Beside m V (Some (pendingPath (ArchiveRecord.Sequence r), File.mk Regular true encoded)))
    (rename (pendingPath (ArchiveRecord.Sequence r)) (stablePath (ArchiveRecord.Sequence r)))
    (fun _ w => exists r', stored_as r r' /\ Beside m (<[ArchiveRecord.Sequence r := r']> V) None w) Somewhere Somewhere.
Proof.
  intros [Hv Hk Hr Hn] Hm He. set (s := ArchiveRecord.Sequence r) in *.
  set (x := Some (pendingPath s, File.mk Regular true encoded)).
  eapply triple_conseq; [apply (archive_perform (Beside m V x) _
    (fun w => exists r', stored_as r r' /\ Beside m (<[s := r']> V) None w))|done|done|..].
  - apply beside_script.
  - intros w t d' [[Hd Hg Hf Hz Hkeys Hc] [Hx _]] Hd'. simpl in Hx. rewrite Hx in Hd'. injection Hd' as <-.
    destruct (written_reads r encoded ltac:(fold s; lia) Hv Hk He) as (r' & Hs & Hok). exists r'. split; [done|]. split; [|done].
    destruct Hs as (Hq & Hp & _). split; cbn [dir metadata set_dir set_script]; [|done..| |].
    + apply represents_insert; [done|by rewrite Hq|done|done|]. apply represents_delete_other, Hd. apply pendingPath_suffix.
    + intros k r1 Hk1. destruct (decide (k = s)) as [->|Hne]; [lia|]. rewrite lookup_insert_ne in Hk1 by done. by eapply Hkeys.
    + intros k r1 Hk1. destruct (decide (k = s)) as [->|Hne].
      * rewrite lookup_insert_eq in Hk1. injection Hk1 as <-. by rewrite Hp.
      * rewrite lookup_insert_ne in Hk1 by done. by eapply Hc.
  - intros w. by apply beside_somewhere.
  - intros w. by apply beside_somewhere.
Qed.
(** The map after a record was added. *)
Definition Added (m : Z) (V : View) (r : ArchiveRecord.t) (w : World) : Prop :=
  exists r', stored_as r r' /\ Beside m (<[ArchiveRecord.Sequence r := r']> V) None w.

Lemma commit_adds m V r L encoded : storable m r -> moved V -> droppable V L ->
  (forall x, x ∈ L -> 0 < ArchiveRecord.Sequence x <= max_u64) -> json_Marshal (wire_of r) = Some encoded ->
  triple (Beside m V (Some (pendingPath (ArchiveRecord.Sequence r), File.mk Regular true encoded))) (commit blocks r L)
    (fun _ => Added m (drop_all L V) r) Somewhere Somewhere.
Proof.
  intros Hs Hm Hd Hb He. unfold commit. pose proof (moved_drop V L Hm Hd) as Hmd.
  eapply triple_bind; [by apply evict_drops|]. intros []. eapply triple_bind.
  { eapply triple_conseq; [apply beside_inject|done|done|..]; intros w; by apply beside_somewhere. }
  intros []. eapply triple_bind; [by apply rename_publishes|]. intros []. apply triple_exists. intros r'. apply triple_pure.
  intros Hr'. assert (moved (<[ArchiveRecord.Sequence r := r']> (drop_all L V))) as Hmr by (apply moved_insert; [done|apply Hs]).
  set (V1 := <[ArchiveRecord.Sequence r := r']> (drop_all L V)) in *.
  eapply triple_bind; [apply (beside_error m V1 None unit _ (fun _ => Beside m V1 None)); [done|]|].
  { eapply triple_bind; [apply beside_inject|]. intros []. apply beside_inject. }
  intros []. eapply triple_bind; [apply beside_error; [done|apply beside_sync]|].
  intros []. eapply triple_bind; [apply beside_error; [done|apply beside_inject]|].
  intros []. eapply triple_bind; [apply (beside_error m V1 None unit _ (fun _ => Beside m V1 None)); [done|]|].
  { apply archive_perform; [apply beside_script|]. intros w t d' Hw Hd'. destruct (dir w !! _) in Hd'; [|discriminate].
    injection Hd' as <-. by eapply beside_other. }
  intros []. apply triple_get. intros w0. destruct (dir w0 !! _) as [f|].
  - apply triple_update. intros w [_ Hw]. exists r'. split; [done|]. destruct (indexed w) eqn:Ei; [by eapply beside_other|done].
  - apply triple_ret. intros w [_ Hw]. by exists r'.
Qed.

(** ** Records of the archive's own *)

(** The next sequence is above everything stored. *)
Definition fresh (m : Z) (V : View) (stamp : Metadata.Metadata) : Prop :=
  Metadata.Validate stamp = Ok tt /\ m < Metadata.Sequence stamp <= max_u64 /\ 0 < Metadata.Sequence stamp /\
  forall s r, V !! s = Some r -> s < Metadata.Sequence stamp.

Lemma next_is_fresh m V : moved V -> triple (At m V) (next clock)
  (fun stamp w => fresh m V stamp /\ At (Metadata.Sequence stamp) V w) Somewhere Somewhere.
Proof.
  intros Hm w [Hd Hg Hf Hz Hk Hc]. unfold next. destruct (ticking (calls w)) as [T1 T2]. destruct (clock (calls w)) as [monotonic wall].
  simpl in T1, T2. destruct (Next monotonic wall (metadata w)) as [[stamp|e] g] eqn:Hn.
  - apply Next_ok in Hn as (Hg' & Hv & _ & _ & Hs & Hs' & _); [|done..]. pose proof (ok_sequence _ Hg'). pose proof (ok_sequence _ Hg). split.
    + split_and!; [done|lia..|]. intros s r Hr. specialize (Hk s r Hr). lia.
    + split; cbn [dir metadata set_metadata]; [done..|lia|lia| |done]. intros s r Hr. specialize (Hk s r Hr). lia.
  - pose proof (Next_err_ok _ _ _ _ _ Hg Hn) as Hg'. apply Next_err in Hn as (_ & _ & Hs & _). exists m, V. split; [|done].
    split; cbn [dir metadata set_metadata]; [done..|lia|lia| |done]. intros s r Hr. rewrite Hs. by eapply Hk.
Qed.

Lemma fresh_storable m V stamp r : n0 <= m -> fresh m V stamp -> known (ArchiveRecord.Priority r) = true ->
  ArchiveRecord.Sequence r = Metadata.Sequence stamp -> ArchiveRecord.Metadata r = stamp -> storable (Metadata.Sequence stamp) r.
Proof. intros Hn (Hv & Hs & Hz & _) Hk Eq Em. split; rewrite ?Eq, ?Em; [done..|lia|lia]. Qed.

Lemma newRecord_fields stamp priority encoded r : newRecord stamp priority encoded = Ok r ->
  ArchiveRecord.Sequence r = Metadata.Sequence stamp /\ ArchiveRecord.Priority r = priority /\ ArchiveRecord.Metadata r = stamp /\
  ArchiveRecord.Event r = encoded.
Proof. unfold newRecord. intros (d & _ & [= <-])%bind_Ok. done. Qed.

(** A record was made, staged and published: the map with it. *)
Definition Grown (m : Z) (V : View) (priority : string) (encoded : Doc) (w : World) : Prop :=
  exists m' r, (m < m' /\ ArchiveRecord.Sequence r = m' /\ ArchiveRecord.Priority r = priority /\ V !! m' = None /\
    (compact encoded = true -> ArchiveRecord.Event r = encoded)) /\ At m' (<[m' := r]> V) w.

Lemma publish_grows m V stamp priority encoded r L : n0 <= m -> moved V -> droppable V L ->
  (forall x, x ∈ L -> 0 < ArchiveRecord.Sequence x <= max_u64) -> known priority = true -> fresh m V stamp ->
  newRecord stamp priority encoded = Ok r ->
  triple (At (Metadata.Sequence stamp) V) (_ ← stage torn r; commit blocks r L)
    (fun _ w => Grown m (drop_all L V) priority encoded w /\ exists r', stored_as r r' /\
       At (Metadata.Sequence stamp) (<[Metadata.Sequence stamp := r']> (drop_all L V)) w) Somewhere Somewhere.
Proof.
  intros Hn Hm Hd Hb Hk Hf Hr. destruct (newRecord_fields _ _ _ _ Hr) as (Eq & Ep & Em & Ee).
  assert (storable (Metadata.Sequence stamp) r) as Hs by (eapply (fresh_storable m V); rewrite ?Ep; done).
  eapply triple_bind; [by apply stage_keeps|]. intros []. apply triple_exists. intros e. apply triple_pure. intros He.
  eapply triple_conseq; [by apply (commit_adds (Metadata.Sequence stamp) V r L e)|done| |done|done].
  intros [] w (r' & Hr' & Ha & _). rewrite Eq in Ha. split; [|by exists r'].
  destruct Hr' as (Hq & Hp & _ & Hc), Hf as (_ & Hlt & _ & Hall).
  exists (Metadata.Sequence stamp), r'. split; [|done]. rewrite Hq, Hp, <- Ee. split_and!; [lia|done..| |done].
  apply lookup_dropped, eq_None_not_Some. intros [x Hx]. specialize (Hall _ _ Hx). lia.
Qed.

Lemma append_own_grows m V priority encoded : n0 <= m -> moved V -> known priority = true ->
  triple (At m V) (append_own torn blocks clock priority encoded) (fun _ => Grown m V priority encoded) Somewhere Somewhere.
Proof.
  intros Hn Hm Hk. unfold append_own. eapply triple_bind; [by apply next_is_fresh|]. intros stamp. apply triple_pure. intros Hf.
  eapply triple_bind.
  { apply (triple_lift (At (Metadata.Sequence stamp) V) _ (fun r w => newRecord stamp priority encoded = Ok r /\ At (Metadata.Sequence stamp) V w)).
    - intros w r Hw Hr. done.
    - intros w Hw. by eapply at_somewhere. }
  intros r. apply triple_pure. intros Hr.
  eapply triple_conseq; [apply (publish_grows m V stamp priority encoded r []); try done|done| |done|done].
  - intros x Hx. by apply elem_of_nil in Hx.
  - intros x Hx. by apply elem_of_nil in Hx.
  - by intros [] w [Hg _].
Qed.
(** ** Naming what was dropped *)

(** A stored critical record that says which class was dropped and between which
    sequences. *)
Definition named (V : View) (r : ArchiveRecord.t) : Prop :=
  exists s r' v, V !! s = Some r' /\ ArchiveRecord.Priority r' = PriorityCritical /\
    Events.Encode SchemaArchiveOverflow (PArchiveOverflow v) = Ok (ArchiveRecord.Event r') /\
    ArchiveOverflow.Dropped v = ArchiveRecord.Priority r /\
    ArchiveOverflow.FirstSequence v <= ArchiveRecord.Sequence r <= ArchiveOverflow.LastSequence v.

Lemma named_mono V V' r : (forall s x, V !! s = Some x -> ArchiveRecord.Priority x = PriorityCritical -> V' !! s = Some x) ->
  named V r -> named V' r.
Proof. intros Hs (s & r' & v & Hv & Hp & Hrest). exists s, r', v. split; [by apply Hs|done]. Qed.

Lemma encoded_compact schema payload d : Events.Encode schema payload = Ok d -> compact d = true.
Proof. intros (definition & text & _ & _ & _ & _ & He & _)%Encode_Ok. by eapply marshalled_compact. Qed.

Lemma fold_min_le l a : fold_left Z.min l a <= a /\ forall x, x ∈ l -> fold_left Z.min l a <= x.
Proof.
  revert a. induction l as [|y l IH]; intros a; simpl; [split; [lia|]; intros x Hx; by apply elem_of_nil in Hx|].
  destruct (IH (Z.min a y)) as [H1 H2]. split; [lia|]. intros x [->|Hx]%elem_of_cons; [lia|auto].
Qed.

Lemma fold_max_ge l a : a <= fold_left Z.max l a /\ forall x, x ∈ l -> x <= fold_left Z.max l a.
Proof.
  revert a. induction l as [|y l IH]; intros a; simpl; [split; [lia|]; intros x Hx; by apply elem_of_nil in Hx|].
  destruct (IH (Z.max a y)) as [H1 H2]. split; [lia|]. intros x [->|Hx]%elem_of_cons; [lia|auto].
Qed.

Lemma overflow_covers reason dropped r : r ∈ dropped ->
  exists v, overflow_of reason (ArchiveRecord.Priority r) (of_class (ArchiveRecord.Priority r) dropped) = Some v /\
    ArchiveOverflow.Dropped v = ArchiveRecord.Priority r /\
    ArchiveOverflow.FirstSequence v <= ArchiveRecord.Sequence r <= ArchiveOverflow.LastSequence v.
Proof.
  intros Hr. assert (r ∈ of_class (ArchiveRecord.Priority r) dropped) as Hin.
  { unfold of_class. apply list_elem_of_In, filter_In. split; [by apply list_elem_of_In|by apply String.eqb_eq]. }
  destruct (of_class _ dropped) as [|x group]; [by apply elem_of_nil in Hin|]. eexists. split; [done|]. split; [done|].
  assert (ArchiveRecord.Sequence r ∈ map ArchiveRecord.Sequence (x :: group)) as Hs by (by apply list_elem_of_In, in_map, list_elem_of_In).
  cbn [ArchiveOverflow.FirstSequence ArchiveOverflow.LastSequence]. split; [by apply fold_min_le|by apply fold_max_ge].
Qed.

(** The map has grown to one in which these records are named. *)
Definition Said (m : Z) (V : View) (told : ArchiveRecord.t -> Prop) (w : World) : Prop :=
  exists m' V', (m <= m' /\ (forall s x, V !! s = Some x -> V' !! s = Some x) /\ moved V' /\ forall r, told r -> named V' r) /\ At m' V' w.

Lemma grown_said m V V' encoded v told w : n0 <= m -> moved V' -> (forall s x, V !! s = Some x -> V' !! s = Some x) ->
  (forall r, told r -> named V' r \/ ArchiveOverflow.Dropped v = ArchiveRecord.Priority r /\
     ArchiveOverflow.FirstSequence v <= ArchiveRecord.Sequence r <= ArchiveOverflow.LastSequence v) ->
  Events.Encode SchemaArchiveOverflow (PArchiveOverflow v) = Ok encoded ->
  Grown m V' PriorityCritical encoded w -> Said m V told w.
Proof.
  intros Hn Hm Hsub Ht He (m' & r & (Hlt & Hq & Hp & Hnone & Hev) & Ha). exists m', (<[m' := r]> V'). split; [|done].
  assert (forall s x, V' !! s = Some x -> <[m' := r]> V' !! s = Some x) as Hin.
  { intros s x Hs. rewrite lookup_insert_ne; [done|]. intros ->. congruence. }
  split_and!; [lia|auto|apply moved_insert; [done|lia]|]. intros x Hx. destruct (Ht x Hx) as [Hx'|Hx'].
  - eapply named_mono; [|exact Hx']. auto.
  - exists m', r, v. rewrite lookup_insert_eq, (Hev (encoded_compact _ _ _ He)). done.
Qed.

Lemma recordOverflow_says m V reason dropped : n0 <= m -> moved V ->
  triple (At m V) (recordOverflow torn blocks clock reason dropped)
    (fun _ => Said m V (fun r => r ∈ dropped /\ known (ArchiveRecord.Priority r) = true)) Somewhere Somewhere.
Proof.
  intros Hn Hm. unfold recordOverflow.
  set (told := fun classes r => r ∈ dropped /\ ArchiveRecord.Priority r ∈ (classes : list string)).
  eapply triple_conseq; [apply (triple_each (fun classes => Said m V (told classes)))| | |done|done].
  - intros before priority rest _. unfold Said at 1. apply triple_exists. intros m1. apply triple_exists. intros V1. apply triple_pure.
    intros (H1 & H2 & H3 & H4). destruct (overflow_of reason priority (of_class priority dropped)) as [v|] eqn:Ev.
    + eapply triple_bind.
      { apply (triple_lift (At m1 V1) _ (fun encoded w => Events.Encode SchemaArchiveOverflow (PArchiveOverflow v) = Ok encoded /\ At m1 V1 w)).
        - intros w encoded Hw He. split; [|done]. destruct (Events.Encode _ _); [by injection He as ->|discriminate].
        - intros w Hw. by eapply at_somewhere. }
      intros encoded. apply triple_pure. intros He.
      eapply triple_conseq; [apply (append_own_grows m1 V1 PriorityCritical encoded); [lia|done|done]|done| |done|done].
      intros [] w (m2 & r & (Hlt & Hg) & Ha).
      eapply (grown_said m V V1 encoded v); [done|done|done| |done|exists m2, r; split; [split; [lia|exact Hg]|exact Ha]].
      intros x [Hx Hp]. apply elem_of_app in Hp as [Hp|Hp]; [left; apply H4; done|]. apply list_elem_of_singleton in Hp.
      right. destruct (overflow_covers reason dropped x Hx) as (v' & Hv' & Hc). rewrite Hp, Ev in Hv'. injection Hv' as <-. exact Hc.
    + apply triple_ret. intros w Hw. exists m1, V1. split; [|done]. split_and!; [done..|]. intros x [Hx Hp].
      apply elem_of_app in Hp as [Hp|Hp]; [by apply H4|]. apply list_elem_of_singleton in Hp.
      destruct (overflow_covers reason dropped x Hx) as (v' & Hv' & _). congruence.
  - intros w Hw. exists m, V. split; [|done]. split_and!; [lia|done|done|]. intros r [_ Hr]. by apply elem_of_nil in Hr.
  - intros [] w (m' & V' & (H1 & H2 & H3 & H4) & Ha). exists m', V'. split; [|done]. split_and!; [done..|]. intros r [Hr Hk].
    apply H4. split; [done|]. apply contains_string_spec in Hk. set_solver.
Qed.
(** ** What goes *)

Lemma expired_are_old d boundary due entries expired r :
  (forall x, x ∈ expired -> (exists s, readRecord d s = Ok x) /\ WallClock (ArchiveRecord.Metadata x) < boundary) ->
  r ∈ expired_loop readWire d boundary due entries expired ->
  (exists s, readRecord d s = Ok r) /\ WallClock (ArchiveRecord.Metadata r) < boundary.
Proof.
  revert expired. induction entries as [|entry rest IH]; intros expired He; simpl; [by apply He|].
  destruct (readRecord d (stableEntry.Sequence entry)) as [x|] eqn:Hx; [|by apply IH].
  destruct (_ && _); [intros Hr; by apply elem_of_nil in Hr|].
  destruct (Z.ltb_spec (WallClock (ArchiveRecord.Metadata x)) boundary) as [Hlt|]; [|by apply He].
  apply IH. intros y [Hy|Hy]%elem_of_app; [by apply He|]. apply list_elem_of_singleton in Hy as ->. split; [by eexists|done].
Qed.

Lemma choose_class_cheap occupies wanted priority records chosen freed r :
  r ∈ (choose_class occupies wanted priority records chosen freed).1.1 ->
  r ∈ chosen \/ r ∈ records /\ ArchiveRecord.Priority r = priority.
Proof.
  revert chosen freed. induction records as [|x records IH]; intros chosen freed; simpl; [by left|].
  destruct (String.eqb_spec (ArchiveRecord.Priority x) priority) as [Hx|Hx]; simpl.
  - assert (r ∈ (chosen ++ [x])%list -> r ∈ chosen \/ r ∈ x :: records /\ ArchiveRecord.Priority r = priority) as Hc.
    { intros [Hr|Hr]%elem_of_app; [by left|]. apply list_elem_of_singleton in Hr as ->. right. split; [apply list_elem_of_here|done]. }
    destruct (_ <=? _); [exact Hc|]. intros [Hr|[Hr Hp]]%IH; [by apply Hc|]. right. split; [by apply list_elem_of_further|done].
  - intros [Hr|[Hr Hp]]%IH; [by left|]. right. split; [by apply list_elem_of_further|done].
Qed.

Definition cheap (r : ArchiveRecord.t) : Prop :=
  ArchiveRecord.Priority r = PriorityDiagnostic \/ ArchiveRecord.Priority r = PriorityOperational.

Lemma chosen_are_cheap records occupies excess wanted r : r ∈ (chooseEvictions records occupies excess wanted).1 ->
  r ∈ records /\ cheap r.
Proof.
  unfold chooseEvictions. pose proof (choose_class_cheap occupies wanted PriorityDiagnostic records [] 0 r) as H1.
  destruct (choose_class occupies wanted PriorityDiagnostic records [] 0) as [[c f] [|]]; simpl in *.
  - intros [Hr|[Hr Hp]]%H1; [by apply elem_of_nil in Hr|]. split; [done|by left].
  - pose proof (choose_class_cheap occupies wanted PriorityOperational records c f r) as H2.
    destruct (choose_class occupies wanted PriorityOperational records c f) as [[c' f'] [|]]; simpl in *;
      (intros [Hr|[Hr Hp]]%H2; [apply H1 in Hr as [Hr|[Hr Hp]]; [by apply elem_of_nil in Hr|split; [done|by left]]|split; [done|by right]]).
Qed.

Lemma index_keeps (c : nat) (a m : Z) V : moved V -> triple (fun w => At m V w /\ calls w = c /\ maxAge w = a) (index blocks)
  (fun _ w => At m V w /\ calls w = c /\ maxAge w = a) Somewhere Somewhere.
Proof.
  intros Hm w (Ha & Hc & Hx). unfold index, get, mbind, M_bind. destruct (indexed w) as [l|]; [done|].
  unfold walk, get, update, lift, mbind, M_bind. destruct (result_bind _ _ _ _) as [l|e].
  - unfold mret, M_ret. split; [by eapply at_other|done].
  - exists m, V. split; [by eapply at_other|done].
Qed.

(** What a representation knows of records read from it. *)
Definition held_by (V : View) (L : list ArchiveRecord.t) : Prop :=
  forall r, r ∈ L -> V !! ArchiveRecord.Sequence r = Some r /\ 0 < ArchiveRecord.Sequence r <= max_u64.

Lemma held_in_range d V r : represents d V -> V !! ArchiveRecord.Sequence r = Some r -> 0 < ArchiveRecord.Sequence r <= max_u64.
Proof. intros Hd Hr. by apply (rp_records _ _ Hd _ _ Hr). Qed.

Lemma expired_held (c : nat) (a m : Z) V entries :
  triple (fun w => At m V w /\ calls w = c /\ maxAge w = a) (expiredByAge readWire clock entries)
    (fun L w => (held_by V L /\ forall r, r ∈ L -> WallClock (ArchiveRecord.Metadata r) < (clock c).2 - a) /\ At m V w) Somewhere Somewhere.
Proof.
  intros w (Ha & Hc & Hx). unfold expiredByAge, get, mbind, M_bind. destruct (_ =? 0).
  - unfold mret, M_ret. split; [|done]. split; intros r Hr; by apply elem_of_nil in Hr.
  - unfold wallNow, mret, M_ret. cbn [dir maxAge set_metadata]. split; [|by eapply at_other]. rewrite Hx, Hc. split.
    + intros r Hr. apply expired_are_old in Hr as [[s Hs] _]; [|intros y Hy; by apply elem_of_nil in Hy].
      pose proof (represents_read _ _ _ _ (at_dir _ _ _ Ha) Hs) as Hv. split; [done|]. by eapply held_in_range; [apply Ha|].
    + intros r Hr. apply expired_are_old in Hr as [_ Hb]; [done|intros y Hy; by apply elem_of_nil in Hy].
Qed.

(** ** The two parts of an append *)

(** The map after evictions that were named: everything that went from [V] is named. *)
Definition told (V V' : View) : Prop := forall s r, V !! s = Some r -> V' !! s = None -> named V' r.

Lemma moved_refl : moved V0.
Proof. split; by left. Qed.

Lemma dropped_told m V L V' w : At m V w -> held_by V L -> (forall s x, drop_all L V !! s = Some x -> V' !! s = Some x) ->
  (forall r, r ∈ L /\ known (ArchiveRecord.Priority r) = true -> named V' r) -> told V V'.
Proof.
  intros Ha Hl Hin Hn s r Hs Hnone. destruct (decide (s ∈ map ArchiveRecord.Sequence L)) as [Hd|Hd].
  - apply list_elem_of_In, in_map_iff in Hd as (x & <- & Hx%list_elem_of_In). destruct (Hl x Hx) as [Hv _].
    rewrite Hs in Hv. injection Hv as ->. apply Hn. split; [done|]. by eapply at_known.
  - assert (V' !! s = Some r) by (apply Hin, lookup_drop_all; done). congruence.
Qed.

Lemma age_out_told (c : nat) (a : Z) :
  (forall r, WallClock (ArchiveRecord.Metadata r) < (clock c).2 - a -> expendable r) ->
  triple (fun w => At n0 V0 w /\ calls w = c /\ maxAge w = a) (age_out torn readWire blocks clock)
    (fun _ w => exists m V, (n0 <= m /\ moved V /\ told V0 V) /\ At m V w) Somewhere Somewhere.
Proof.
  intros Hold. pose proof moved_refl as Hm. unfold age_out. eapply triple_bind; [by apply index_keeps|]. intros kept.
  eapply triple_bind; [by apply expired_held|]. intros L. apply triple_pure. intros [Hh He].
  destruct L as [|x L]; [apply triple_ret; intros w Hw; exists n0, V0; split; [|done]; split_and!; [lia|done|]; intros s r H1 H2; congruence|].
  set (L' := x :: L) in *. clearbody L'. assert (droppable V0 L') as Hd by (intros r Hr; split; [by apply Hh|by apply Hold, He]).
  eapply triple_bind with (Q := fun _ w => exists w0, At n0 V0 w0 /\ Beside n0 (drop_all L' V0) None w).
  { intros w Ha. pose proof (evict_drops n0 V0 None L' Hm Hd (fun r Hr => proj2 (Hh r Hr)) w (conj Ha I)) as Hev.
    destruct (evict L' w) as [w' [[]|e|]]; [by exists w|done..]. }
  intros []. apply triple_exists. intros w0. apply triple_pure. intros Ha0.
  eapply triple_bind with (Q := fun _ w => exists m V, (n0 <= m /\ moved V /\ told V0 V) /\ At m V w).
  { eapply triple_conseq; [apply (recordOverflow_says n0 (drop_all L' V0) ArchiveOverflowAge L'); [lia|by apply moved_drop]| | |done|done].
    - by intros w [Hw _].
    - intros [] w (m' & V' & (H1 & H2 & H3 & H4) & Ha). exists m', V'. split; [|done]. split_and!; [lia|done|].
      by eapply dropped_told. }
  intros []. apply triple_exists. intros m. apply triple_exists. intros V. apply triple_pure. intros (H1 & H2 & H3).
  intros w Ha. pose proof (index_keeps (calls w) (maxAge w) m V H2 w (conj Ha (conj eq_refl eq_refl))) as Hi.
  destruct (index blocks w) as [w' [l|e|]]; [exists m, V; by destruct Hi|done..].
Qed.

(** The record that came in, as it is stored; critical records are untouched. *)
Definition Placed (V : View) (incoming : ArchiveRecord.t) (w : World) : Prop :=
  exists m' V', (moved V' /\ told V V' /\ (exists r, stored_as incoming r /\ V' !! ArchiveRecord.Sequence incoming = Some r) /\
    forall s r, V !! s = Some r -> ArchiveRecord.Priority r = PriorityCritical -> V' !! s = Some r) /\ At m' V' w.

Lemma cheap_not_critical r : cheap r -> ArchiveRecord.Priority r <> PriorityCritical.
Proof. by intros [-> | ->]. Qed.

Lemma stored_placed m V L incoming r' told0 V' w : At m V w -> held_by V L -> (forall r, r ∈ L -> cheap r) ->
  V !! ArchiveRecord.Sequence incoming = None -> stored_as incoming r' -> moved V' ->
  (forall s x, <[ArchiveRecord.Sequence incoming := r']> (drop_all L V) !! s = Some x -> V' !! s = Some x) ->
  (forall r, told0 r -> named V' r) -> (forall r, r ∈ L -> known (ArchiveRecord.Priority r) = true -> told0 r) ->
  moved V' /\ told V V' /\ (exists r, stored_as incoming r /\ V' !! ArchiveRecord.Sequence incoming = Some r) /\
  forall s r, V !! s = Some r -> ArchiveRecord.Priority r = PriorityCritical -> V' !! s = Some r.
Proof.
  intros Ha Hh Hc Hnone Hr Hm Hin Ht Hl.
  assert (forall s x, drop_all L V !! s = Some x -> V' !! s = Some x) as Hin'.
  { intros s x Hs. apply Hin. rewrite lookup_insert_ne; [done|]. intros <-. apply lookup_drop_all in Hs as [Hs _]. congruence. }
  split_and!; [done| | |].
  - eapply (dropped_told m V L V' w); [done..|]. intros r [Hx Hk]. by apply Ht, Hl.
  - exists r'. split; [done|]. apply Hin. apply lookup_insert_eq.
  - intros s r Hs Hp. apply Hin', lookup_drop_all. split; [done|]. intros Hd.
    apply list_elem_of_In, in_map_iff in Hd as (x & <- & Hx%list_elem_of_In). destruct (Hh x Hx) as [Hv _].
    rewrite Hs in Hv. injection Hv as ->. by apply (cheap_not_critical x (Hc x Hx)).
Qed.

(** Where nothing of the map went, the record came in beside it. *)
Lemma no_drop_held V : held_by V [].
Proof. intros r Hr. by apply elem_of_nil in Hr. Qed.

Lemma held_droppable V L : held_by V L -> (forall r, r ∈ L -> expendable r) -> droppable V L.
Proof. intros Hh He r Hr. split; [by apply Hh|by apply He]. Qed.

(** Staged and published over a list of records that may go. *)
Lemma publish_places m V stamp priority encoded incoming L (told0 : ArchiveRecord.t -> Prop) (k : Prog Z) z : n0 <= m -> moved V ->
  held_by V L -> (forall r, r ∈ L -> cheap r /\ expendable r) -> known priority = true -> fresh m V stamp ->
  newRecord stamp priority encoded = Ok incoming ->
  (forall r, r ∈ L -> known (ArchiveRecord.Priority r) = true -> told0 r) ->
  (forall V1, moved V1 -> triple (At (Metadata.Sequence stamp) V1) k
    (fun a w => a = z /\ Said (Metadata.Sequence stamp) V1 told0 w) Somewhere Somewhere) ->
  triple (At (Metadata.Sequence stamp) V) (_ ← stage torn incoming; _ ← commit blocks incoming L; k)
    (fun a w => a = z /\ Placed V incoming w) Somewhere Somewhere.
Proof.
  intros Hn Hm Hh Hc Hk Hf Hr Ht Hsays. destruct (newRecord_fields _ _ _ _ Hr) as (Eq & _).
  assert (droppable V L) as Hd by (apply held_droppable; [done|]; intros; by apply Hc).
  assert (V !! Metadata.Sequence stamp = None) as Hnone.
  { apply eq_None_not_Some. intros [x Hx]. destruct Hf as (_ & _ & _ & Hall). specialize (Hall _ _ Hx). lia. }
  intros w Ha. pose proof (publish_grows m V stamp priority encoded incoming L Hn Hm Hd (fun r Hx => proj2 (Hh r Hx)) Hk Hf Hr w Ha) as Hp.
  unfold mbind, M_bind in *. destruct (stage torn incoming w) as [w1 [[]|e|]]; [|done..].
  destruct (commit blocks incoming L w1) as [w2 [[]|e|]]; [|done..]. destruct Hp as (_ & r' & Hr' & Ha2).
  assert (moved (<[Metadata.Sequence stamp := r']> (drop_all L V))) as Hm2.
  { apply moved_insert; [by apply moved_drop|]. destruct Hf as (_ & Hf & _). lia. }
  pose proof (Hsays _ Hm2 w2 Ha2) as Hs. destruct (k w2) as [w3 [a|e|]]; [|done..].
  destruct Hs as (Hz & m' & V' & (H1 & H2 & H3 & H4) & Ha3). split; [done|]. exists m', V'. split; [|done].
  eapply (stored_placed _ V L incoming r' told0 V' w); rewrite ?Eq; try done. intros; by apply Hc.
Qed.

Lemma said_nothing m V w : moved V -> At m V w -> Said m V (fun _ => False) w.
Proof. intros Hm Ha. exists m, V. by split_and!. Qed.

Lemma refusal_keeps m V priority : n0 <= m -> moved V ->
  triple (At m V) (attempt (recordRefusal torn blocks clock priority)) (fun _ => Somewhere) Somewhere Somewhere.
Proof.
  intros Hn Hm. eapply triple_conseq; [apply (triple_attempt (At m V) _ (fun _ => Somewhere) Somewhere Somewhere Somewhere)|done|by intros []|done|done].
  unfold recordRefusal. eapply triple_bind; [apply (triple_lift (At m V) _ (fun _ => At m V)); [done|intros w; by apply at_somewhere]|].
  intros encoded. eapply triple_conseq; [by apply (append_own_grows m V PriorityCritical encoded)|done| |done|done].
  intros [] w (m' & r & (Hlt & _) & Ha). exists m', (<[m' := r]> V). split; [done|]. apply moved_insert; [done|lia].
Qed.

Lemma scan_held d V stored L : represents d V -> scan d = Ok stored -> (forall r, r ∈ L -> r ∈ stored) -> held_by V L.
Proof.
  intros Hd Hs Hin r Hr. pose proof (represents_scan _ _ _ _ Hd Hs (Hin r Hr)) as Hv. split; [done|]. by eapply held_in_range.
Qed.

Lemma place_record_placed m V stamp priority encoded incoming kept : (forall r, cheap r -> expendable r) -> n0 <= m -> moved V ->
  known priority = true -> fresh m V stamp -> newRecord stamp priority encoded = Ok incoming ->
  triple (At (Metadata.Sequence stamp) V) (place_record torn readWire blocks clock kept incoming)
    (fun a w => a = ArchiveRecord.Sequence incoming /\ Placed V incoming w) Somewhere Somewhere.
Proof.
  intros Hcheap Hn Hm Hk Hf Hr. unfold place_record. apply triple_get. intros w0.
  destruct (_ <? WillOccupy _ _); [apply triple_fail; intros w [_ Ha]; by eapply at_somewhere|]. destruct (0 <? _).
  - eapply triple_bind.
    { apply (triple_lift _ _ (fun stored w => (represents (dir w0) V /\ scan (dir w0) = Ok stored) /\ At (Metadata.Sequence stamp) V w)).
      - intros w stored [-> Ha] Hs. split_and!; [apply Ha|done..].
      - intros w [_ Ha]. by eapply at_somewhere. }
    intros stored. apply triple_pure. intros [Hd Hs].
    match goal with |- context[chooseEvictions stored ?o ?e ?g] => pose proof (chosen_are_cheap stored o e g) as Hch;
      destruct (chooseEvictions stored o e g) as [L [|]] end; cbn [negb fst] in *.
    + apply (publish_places m V stamp priority encoded incoming L (fun r => r ∈ L /\ known (ArchiveRecord.Priority r) = true)); try done.
      * eapply (scan_held (dir w0) V stored); [done..|]. intros r Hx. by apply Hch.
      * intros r Hx. destruct (Hch r Hx). split; [done|by apply Hcheap].
      * intros V1 Hm1. destruct Hf as (_ & Hlt & _). eapply triple_bind; [apply (recordOverflow_says (Metadata.Sequence stamp)); [lia|done]|].
        intros []. by apply triple_ret.
    + destruct Hf as (_ & Hlt & _). eapply triple_bind; [apply (refusal_keeps (Metadata.Sequence stamp) V); [lia|done]|].
      intros refusal. by apply triple_fail.
  - eapply triple_conseq; [apply (publish_places m V stamp priority encoded incoming [] (fun _ => False) (mret (ArchiveRecord.Sequence incoming))
      (ArchiveRecord.Sequence incoming))|by intros w []|done|done|done]; try done.
    + apply no_drop_held.
    + intros r Hx. by apply elem_of_nil in Hx.
    + intros r Hx. by apply elem_of_nil in Hx.
    + intros V1 Hm1. apply triple_ret. intros w Ha. split; [done|]. by apply said_nothing.
Qed.

Lemma known_decoded encoded decoded : Events.Decode encoded = Ok decoded -> known (EventRecord.Priority decoded) = true.
Proof. intros Hd%priority_classes. by apply contains_string_spec. Qed.

Lemma refused_record_keeps m V : n0 <= m -> moved V ->
  triple (At m V) (attempt (recordRefusedRecord torn blocks clock)) (fun _ => Somewhere) Somewhere Somewhere.
Proof.
  intros Hn Hm. eapply triple_conseq; [apply (triple_attempt (At m V) _ (fun _ => Somewhere) Somewhere Somewhere Somewhere)|done|by intros []|done|done].
  unfold recordRefusedRecord. eapply triple_bind; [apply (triple_update (At m V) _ (fun _ => At m V)); intros w Ha; by eapply at_other|].
  intros []. apply triple_get. intros w0. destruct (negb _); [apply triple_ret; intros w [_ Ha]; by eapply at_somewhere|].
  eapply triple_bind; [apply (triple_lift _ _ (fun _ => At m V)); [by intros w encoded [_ Ha] _|intros w [_ Ha]; by eapply at_somewhere]|].
  intros encoded. eapply triple_conseq; [by apply (append_own_grows m V PriorityDiagnostic encoded)|done| |done|done].
  intros [] w (m' & r & (Hlt & _) & Ha). exists m', (<[m' := r]> V). split; [done|]. apply moved_insert; [done|lia].
Qed.

(** An append that returned: the record is stored under the sequence returned, and
    whatever went since the call began is named. *)
Definition Appended (encoded : Doc) (k : Z) (w : World) : Prop :=
  exists V, (exists m, At m V w) /\ moved V /\ told V0 V /\ n0 < k /\
    exists decoded r, Events.Decode encoded = Ok decoded /\ V !! k = Some r /\
      ArchiveRecord.Priority r = EventRecord.Priority decoded /\ (compact encoded = true -> ArchiveRecord.Event r = encoded).

Lemma told_trans V V' : told V0 V -> moved V' -> told V V' ->
  (forall s r, V !! s = Some r -> ArchiveRecord.Priority r = PriorityCritical -> V' !! s = Some r) ->
  (forall s r, V0 !! s = Some r -> V !! s = Some r \/ V !! s = None) -> told V0 V'.
Proof.
  intros H1 Hm H2 Hc Hv s r Hs Hnone. destruct (Hv s r Hs) as [Hx|Hx]; [by apply (H2 s r)|].
  eapply named_mono; [exact Hc|]. by eapply H1.
Qed.

Lemma placed_appended m V encoded decoded stamp incoming w : moved V -> told V0 V -> n0 <= m -> fresh m V stamp ->
  Events.Decode encoded = Ok decoded -> newRecord stamp (EventRecord.Priority decoded) encoded = Ok incoming -> Placed V incoming w ->
  Appended encoded (ArchiveRecord.Sequence incoming) w.
Proof.
  intros Hm Ht Hn Hf Hd Hr (m' & V' & (Hm' & Ht' & (r & (Hq & Hp & _ & He) & Hv) & Hc) & Ha).
  destruct (newRecord_fields _ _ _ _ Hr) as (Eq & Ep & Em & Ee). exists V'. split_and!; [by exists m'|done| | |].
  - eapply told_trans; [done..|]. intros s x Hs. destruct (mv_gone _ Hm s x Hs) as [|[]]; [by left|by right].
  - destruct Hf as (_ & Hlt & _). lia.
  - exists decoded, r. split_and!; [done|done|congruence|]. intros Hcompact. rewrite <- Ee. apply He. congruence.
Qed.

Lemma append_call encoded (c : nat) (a : Z) : (forall r, cheap r -> expendable r) ->
  (forall r, WallClock (ArchiveRecord.Metadata r) < (clock c).2 - a -> expendable r) ->
  triple (fun w => At n0 V0 w /\ calls w = c /\ maxAge w = a) (Append torn readWire blocks clock encoded)
    (fun k => Appended encoded k) Somewhere Somewhere.
Proof.
  intros Hcheap Hold. pose proof moved_refl as Hm0. unfold Append. apply triple_get. intros w0.
  destruct (readOnly w0); [apply triple_fail; intros w (_ & Ha & _); by eapply at_somewhere|].
  destruct (Events.Decode encoded) as [decoded|e] eqn:Hd.
  - eapply triple_bind; [eapply triple_conseq; [by apply (age_out_told c a)|by intros w []|done|done|done]|].
    intros kept. apply triple_exists. intros m. apply triple_exists. intros V. apply triple_pure. intros (Hn & Hm & Ht).
    eapply triple_bind; [by apply next_is_fresh|]. intros stamp. apply triple_pure. intros Hf.
    eapply triple_bind.
    { apply (triple_lift (At (Metadata.Sequence stamp) V) _ (fun r w => newRecord stamp (EventRecord.Priority decoded) encoded = Ok r /\
        At (Metadata.Sequence stamp) V w)); [done|]. intros w Hw. by eapply at_somewhere. }
    intros incoming. apply triple_pure. intros Hr. pose proof (known_decoded _ _ Hd) as Hk.
    eapply triple_conseq; [by apply (place_record_placed m V stamp (EventRecord.Priority decoded) encoded incoming kept)|done| |done|done].
    intros k w [-> Hp]. by eapply placed_appended.
  - eapply triple_bind; [eapply triple_conseq; [apply (refused_record_keeps n0 V0); [lia|done]|by intros w (_ & Ha & _)|done|done|done]|].
    intros refusal. by apply triple_fail.
Qed.
End call.

(** ** The archive between calls *)

(** The directory represents [V], and the generator is beyond everything stored. *)
Definition holds (V : View) (w : World) : Prop := At (sequence (metadata w)) (sequence (metadata w)) V w.

Lemma at_holds n m V w : At n m V w -> holds V w.
Proof. intros []. by split. Qed.

(** *** Opening *)

Lemma read_digits_value text : Forall (fun c => is_digit c = true) text -> forall acc, 0 <= acc ->
  acc * 10 ^ Z.of_nat (length text) + digits_value text <= max_u64 ->
  read_digits text acc = Some (acc * 10 ^ Z.of_nat (length text) + digits_value text).
Proof.
  induction 1 as [|c text Hc Ht IH]; intros acc Ha Hb; simpl read_digits; [unfold digits_value; simpl; f_equal; lia|].
  rewrite Hc, digits_value_cons in *. pose proof (digit_value_bounds _ Hc) as Hd. pose proof (digits_value_bound _ Ht) as Hv.
  simpl length in *. rewrite Nat2Z.inj_succ, Z.pow_succ_r in * by lia.
  assert (u64 (acc * 10 + digit_value c) = acc * 10 + digit_value c) as E.
  { unfold u64. apply Z.mod_small. unfold max_u64 in Hb. nia. }
  rewrite E, IH; [f_equal; nia|nia|nia].
Qed.

Lemma parse_stablePath s : 0 <= s <= max_u64 -> parseStableName (stablePath s) = Some s.
Proof.
  intros Hs. unfold parseStableName. rewrite stablePath_suffix, chars_stablePath, length_app, digits_length.
  change (20 + length (chars ".event") - 6)%nat with 20%nat.
  rewrite take_app_length' by (by rewrite digits_length). rewrite digits_length. cbn [negb Z.eqb].
  change (negb (Z.of_nat 20 =? nameWidth)) with false. cbn match.
  assert (digits_value (digits 20 s) = s) as Hv by (rewrite digits_value_digits, Z.mod_small; [done|unfold max_u64 in Hs; lia]).
  rewrite read_digits_value; [rewrite Hv; f_equal; lia|apply digits_are_digits|lia|rewrite Hv; lia].
Qed.

Lemma walk_files_entries files seen entries : (forall name f, (name, f) ∈ files -> has_suffix stableSuffix name = true ->
    exists s, name = stablePath s /\ 0 < s <= max_u64) ->
  walk_files blocks files seen = Ok entries ->
  (forall s f, (stablePath s, f) ∈ files -> 0 < s <= max_u64 -> exists e, e ∈ entries /\ stableEntry.Sequence e = s) /\
  (forall e, e ∈ entries -> 0 < stableEntry.Sequence e <= max_u64).
Proof.
  revert seen entries. induction files as [|[name f] files IH]; intros seen entries Hn Hw; simpl in Hw.
  { injection Hw as <-. split; [intros s f Hf; by apply elem_of_nil in Hf|intros e He; by apply elem_of_nil in He]. }
  assert (forall name f, (name, f) ∈ files -> has_suffix stableSuffix name = true -> exists s, name = stablePath s /\ 0 < s <= max_u64) as Hn'
    by (intros; eapply Hn; [by apply list_elem_of_further|done]).
  destruct (has_suffix stableSuffix name) eqn:Hs; simpl in Hw.
  - destruct (Hn name f (list_elem_of_here _ _) Hs) as (s & -> & Hr). rewrite (parse_stablePath s ltac:(lia)) in Hw.
    destruct (_ || _); [discriminate|]. destruct (bool_decide (s ∈ seen)); [discriminate|]. destruct (negb _); [discriminate|].
    apply bind_Ok in Hw as (rest & Hw & [= <-]). destruct (IH _ _ Hn' Hw) as [H1 H2]. split.
    + intros t g [E%(f_equal fst)|Hg]%elem_of_cons Ht; [|destruct (H1 t g Hg Ht) as (e & He & <-); exists e; split; [by apply list_elem_of_further|done]].
      eexists. split; [apply list_elem_of_here|]. simpl. by apply stablePath_inj.
    + intros e [->|He]%elem_of_cons; [done|by apply H2].
  - destruct (IH _ _ Hn' Hw) as [H1 H2]. split; [|done]. intros t g [E%(f_equal fst)|Hg]%elem_of_cons; [|by apply (H1 t g)].
    intros _. simpl in E. subst name. by rewrite stablePath_suffix in Hs.
Qed.

#[export] Instance by_entry_total : Total (not_after by_entry).
Proof. intros x y. unfold not_after, by_entry. rewrite !Z.ltb_ge. lia. Qed.

#[export] Instance by_entry_trans : Transitive (not_after by_entry).
Proof. intros x y z. unfold not_after, by_entry. rewrite !Z.ltb_ge. lia. Qed.

Lemma highest_is_last l e : e ∈ sort_slice by_entry l -> stableEntry.Sequence e <= highestStable (sort_slice by_entry l).
Proof.
  intros He. pose proof (Sorted_StronglySorted (not_after by_entry) _ (sort_slice_sorted by_entry l)) as Hs. unfold highestStable.
  destruct (sort_slice by_entry l) as [|y k _] using rev_ind; [by apply elem_of_nil in He|]. rewrite last_snoc.
  apply elem_of_app in He as [He|He]; [|apply list_elem_of_singleton in He as ->; lia].
  pose proof (StronglySorted_app_1_elem_of _ _ _ _ _ Hs He (list_elem_of_here _ _)) as Hle. unfold not_after, by_entry in Hle. by apply Z.ltb_ge in Hle.
Qed.

Lemma staged_not_stored name : has_suffix pendingSuffix name = true -> has_suffix stableSuffix name = false.
Proof.
  intros [l Hl]%has_suffix_spec. apply not_true_iff_false. intros [k Hk]%has_suffix_spec. rewrite Hl in Hk.
  apply (f_equal (@rev ascii)) in Hk. rewrite !rev_app_distr in Hk. cbn in Hk. discriminate Hk.
Qed.

(** Before the index is read, the map is that of the disk. *)
Definition Opening (V : View) (w : World) : Prop := represents (dir w) V.

Lemma discard_keeps V : triple (fun w => Opening V w /\ indexed w = None) discardStaged (fun _ w => Opening V w /\ indexed w = None)
  (Opening V) (Opening V).
Proof.
  unfold discardStaged. apply triple_get. intros w0. eapply triple_conseq; [apply (triple_each (fun _ w => Opening V w /\ indexed w = None))| |done|done|done].
  - intros before [name f] rest _. destruct (bool_decide _); [by apply triple_ret|]. simpl.
    destruct (has_suffix pendingSuffix name) eqn:Hp; simpl; [|by apply triple_ret].
    eapply triple_conseq; [apply (archive_perform (fun w => Opening V w /\ indexed w = None) _ (fun w => Opening V w /\ indexed w = None))|done|done|..].
    + done.
    + intros w s d' [Ho Hi] Hd. split; [|done]. destruct (dir w !! name); [|discriminate]. injection Hd as <-.
      apply represents_delete_other; [by apply staged_not_stored|done].
    + by intros w [].
    + by intros w [].
  - by intros w [].
Qed.

Lemma index_of_map V : triple (fun w => Opening V w /\ indexed w = None) (index blocks)
  (fun entries w => (0 <= highestStable entries <= max_u64 /\ forall s r, V !! s = Some r -> s <= highestStable entries) /\ Opening V w)
  (Opening V) (Opening V).
Proof.
  intros w [Ho Hi]. unfold index, get, mbind, M_bind. rewrite Hi. unfold walk, get, update, lift, mbind, M_bind.
  cbn [dir set_walks]. destruct (walk_files blocks (ReadDir (dir w)) ∅) as [entries|e] eqn:Hw; cbn; [|done]. split; [|done].
  destruct (walk_files_entries (ReadDir (dir w)) ∅ entries) as [H1 H2]; [|done|].
  - intros name f Hf%elem_of_sort_slice%elem_of_map_to_list Hs. destruct (rp_files _ _ Ho name f Hf Hs) as (s & r & -> & Hr).
    exists s. split; [done|]. apply (rp_records _ _ Ho s r Hr).
  - split.
    + unfold highestStable. destruct (last (sort_slice by_entry entries)) as [e|] eqn:He; [|unfold max_u64; lia].
      apply last_Some_elem_of, elem_of_sort_slice in He. specialize (H2 e He). lia.
    + intros s r Hr. destruct (rp_records _ _ Ho s r Hr) as (Hs & _ & f & Hf & _).
      destruct (H1 s f) as (e & He & <-); [by apply elem_of_sort_slice, elem_of_map_to_list|done|]. apply highest_is_last.
      by apply elem_of_sort_slice.
Qed.

(** Whoever opens this directory, with whatever the disk does, finds this map. *)
Definition reopens (d : Dir) (V : View) : Prop :=
  forall absolute maximum age node random boundaries blockSize steps w ended, bytes random ->
    Open blocks clock absolute maximum age node random boundaries blockSize d steps = (w, ended) ->
    represents (dir w) V /\ (ended = Done tt -> holds V w).

Lemma represents_reopens d V : represents d V -> (forall s r, V !! s = Some r -> known (ArchiveRecord.Priority r) = true) -> reopens d V.
Proof.
  intros Hd Hk absolute maximum age node random boundaries blockSize steps w ended Hb Hopen. unfold Open in Hopen.
  set (w0 := mkWorld _ _ _ _ _ _ _ _ _ _ _ _) in Hopen.
  destruct (negb absolute); [by injection Hopen as <- <-|]. destruct (_ || _); [by injection Hopen as <- <-|].
  match type of Hopen with ?p w0 = _ => assert (triple (fun w => Opening V w /\ indexed w = None) p (fun _ => holds V) (Opening V) (Opening V)) as Ht end.
  - eapply triple_bind with (Q := fun _ w => Opening V w /\ indexed w = None).
    { eapply triple_conseq; [apply (archive_perform (fun w => Opening V w /\ indexed w = None) _ (fun w => Opening V w /\ indexed w = None))|done|done|..].
      - done.
      - by intros w1 s d' Hw [= <-].
      - by intros w1 [].
      - by intros w1 []. }
    intros []. eapply triple_bind; [apply discard_keeps|]. intros []. eapply triple_bind; [apply index_of_map|].
    intros entries. apply triple_pure. intros [Hr Hs].
    eapply triple_bind; [apply (triple_lift (Opening V) _ (fun g w => (NewGenerator node (highestStable entries) (clock 0).1 random = Ok g) /\ Opening V w))|].
    + intros w1 g Hw Hg. split; [|done]. destruct (NewGenerator _ _ _ _); [by injection Hg as ->|discriminate].
    + done.
    + intros g. apply triple_pure. intros Hg. apply triple_update. intros w1 Hw. pose proof (NewGenerator_ok _ _ _ _ _ Hr Hb Hg) as Hok.
      assert (sequence g = highestStable entries) as Es by (unfold NewGenerator in Hg; by inv_result).
      split; cbn [dir metadata set_metadata]; rewrite ?Es; [done|done|lia|lia|done|done].
  - specialize (Ht w0 (conj Hd eq_refl)). rewrite Hopen in Ht. destruct ended as [[]|e|]; [|by split..]. split; [apply Ht|done].
Qed.

(** What an append at this moment may drop: by age anything, for room only what is not
    critical. *)
Definition may_go (w : World) (r : ArchiveRecord.t) : Prop :=
  cheap r \/ WallClock (ArchiveRecord.Metadata r) < (clock (calls w)).2 - maxAge w.

(** C18: an append, whatever the disk does to any of its operations and wherever it is cut
    short, leaves a directory that still represents a map of records; what went from it was
    too old or not critical, what came has a sequence above all that had been handed out.
    An append that returns has stored its record under the sequence it returns, and for every
    record that went there is a stored critical record that names its class and a range of
    sequences that contains it. *)
Theorem archive_drops_are_named w encoded w' ended V : holds V w -> Append torn readWire blocks clock encoded w = (w', ended) ->
  exists V', holds V' w' /\ reopens (dir w') V' /\ sequence (metadata w) <= sequence (metadata w') /\
    (forall s r, V !! s = Some r -> V' !! s = Some r \/ V' !! s = None /\ may_go w r) /\
    (forall s r, V' !! s = Some r -> V !! s = Some r \/ sequence (metadata w) < s) /\
    forall k, ended = Done k -> sequence (metadata w) < k /\ (forall s r, V !! s = Some r -> V' !! s = None -> named V' r) /\
      exists decoded r, Events.Decode encoded = Ok decoded /\ V' !! k = Some r /\
        ArchiveRecord.Priority r = EventRecord.Priority decoded /\ (compact encoded = true -> ArchiveRecord.Event r = encoded).
Proof.
  intros Hh Hrun. set (n0 := sequence (metadata w)) in *.
  pose proof (append_call V n0 (may_go w) (at_keys _ _ _ _ Hh) encoded (calls w) (maxAge w)
    (fun r Hr => or_introl Hr) (fun r Hr => or_intror Hr) w (conj Hh (conj eq_refl eq_refl))) as Ht.
  rewrite Hrun in Ht.
  destruct ended as [k|e|]; [destruct Ht as (V' & [m Ha] & [Hg Hn] & Hd & Hk & Hr)|destruct Ht as (m & V' & Ha & [Hg Hn])..];
    exists V'; (split_and!; [by eapply at_holds|apply represents_reopens; apply Ha|apply Ha|done|done|]); intros k' [= <-]; done.
Qed.
End safety.
