(* ===== verification/ArchiveIndex.v ===== *)
(** * The listing that the archive keeps

    The archive reads its directory once and amends what it found as it publishes and
    evicts; where a step fails it forgets what it knew.  Here the listing is shown to be
    what another walk of the directory would find, after every call that returns. *)

From Stdlib Require Import ZArith Lia Ascii String.
From stdpp Require Import base strings list option sets gmap sorting.
From S2P Require Import Prelude GoTime PolicyModel Metadata PolicyCanonical Connectivity Events Faults Spool SpoolSafety Archive ArchiveSafety.

Open Scope string_scope.
Open Scope Z_scope.

#[local] Existing Instances M_ret M_bind.

(** ** Lists that are sorted by sequence *)

Definition before (x y : stableEntry.t) : Prop := stableEntry.Sequence x < stableEntry.Sequence y.

Lemma sort_is_strict l : NoDup (map stableEntry.Sequence l) -> StronglySorted before (sort_slice by_entry l).
Proof.
  intros Hn. assert (NoDup (map stableEntry.Sequence (sort_slice by_entry l))) as Hn'.
  { by rewrite (Permutation_map stableEntry.Sequence (sort_slice_perm by_entry l)). }
  assert (StronglySorted (not_after by_entry) (sort_slice by_entry l)) as Hs by (apply StronglySorted_merge_sort; apply _).
  induction Hs as [|x k Hk IH Hx]; [constructor|]. simpl in Hn'. apply NoDup_cons in Hn' as [Hni Hn']. constructor; [by apply IH|].
  apply Forall_forall. intros y Hy. rewrite Forall_forall in Hx. specialize (Hx y Hy). unfold not_after, by_entry in Hx.
  apply Z.ltb_ge in Hx. assert (stableEntry.Sequence x <> stableEntry.Sequence y); [|unfold before; lia].
  intros E. apply Hni. rewrite E. by apply list_elem_of_In, in_map, list_elem_of_In.
Qed.

Lemma strict_NoDup l : StronglySorted before l -> NoDup l.
Proof.
  induction 1 as [|x l Hs IH Hx]; constructor; [|done]. intros Hin. rewrite Forall_forall in Hx. specialize (Hx x Hin).
  unfold before in Hx. lia.
Qed.

Lemma strict_same l e e' : StronglySorted before l -> e ∈ l -> e' ∈ l -> stableEntry.Sequence e = stableEntry.Sequence e' -> e = e'.
Proof.
  induction 1 as [|x l Hs IH Hx]; intros He He' Eq; [by apply elem_of_nil in He|]. rewrite Forall_forall in Hx. unfold before in Hx.
  apply elem_of_cons in He as [->|He]; apply elem_of_cons in He' as [->|He']; [done|specialize (Hx e' He'); lia|specialize (Hx e He); lia|auto].
Qed.

Lemma strict_unique l k : StronglySorted before l -> StronglySorted before k -> (forall e, e ∈ l <-> e ∈ k) -> l = k.
Proof.
  intros Hl Hk He. apply (StronglySorted_unique_strong before); [|done|done|apply NoDup_Permutation; [by apply strict_NoDup..|done]].
  intros x y _ _. unfold before. lia.
Qed.

Lemma strict_filter (p : stableEntry.t -> bool) l : StronglySorted before l -> StronglySorted before (List.filter p l).
Proof.
  induction 1 as [|x l Hs IH Hx]; simpl; [constructor|]. destruct (p x); [|done]. constructor; [done|]. apply Forall_forall. intros y Hy.
  rewrite Forall_forall in Hx. apply Hx. apply list_elem_of_In, filter_In in Hy as [Hy _]. by apply list_elem_of_In.
Qed.

Lemma strict_snoc l e : StronglySorted before l -> (forall x, x ∈ l -> stableEntry.Sequence x < stableEntry.Sequence e) ->
  StronglySorted before (sort_slice by_entry (l ++ [e])%list).
Proof.
  intros Hl He. apply sort_is_strict. rewrite map_app. apply NoDup_app. split_and!; [| |apply NoDup_singleton].
  - induction Hl as [|x l Hs IH Hx]; simpl; constructor; [|apply IH; intros; apply He; by apply list_elem_of_further].
    intros (y & E & Hy)%list_elem_of_In%in_map_iff. apply list_elem_of_In in Hy. rewrite Forall_forall in Hx. specialize (Hx y Hy).
    unfold before in Hx. lia.
  - intros s (x & <- & Hx)%list_elem_of_In%in_map_iff Hs. apply list_elem_of_singleton in Hs. apply list_elem_of_In in Hx.
    specialize (He x Hx). lia.
Qed.

Lemma elem_of_filter_list {A} (p : A -> bool) l x : x ∈ List.filter p l <-> x ∈ l /\ p x = true.
Proof. by rewrite !list_elem_of_In, filter_In. Qed.

Section index.
Context `{JSON} `{!EventCodecs} `{!Codec Fact.t} `{!Codec wireArchive.t}.
Context (torn : Doc) (readWire : Doc -> option wireArchive.t) (blocks : Doc -> option Z) (clock : nat -> Z * Z).

Abbreviation Dir := (gmap string File.t) (only parsing).
Abbreviation Prog := (M World archive_error).

(** ** What a walk finds *)

(** The entry of one file, where its name is a record's. *)
Definition listed (file : string * File.t) : option stableEntry.t :=
  if has_suffix stableSuffix file.1 then option_map (fun s => entry_of_file blocks s file.2) (parseStableName file.1) else None.

Definition good (file : string * File.t) : bool :=
  negb (has_suffix stableSuffix file.1) ||
  match parseStableName file.1 with Some _ => bool_decide (File.type file.2 = Regular) | None => false end.

(** A directory's listing: every file with a record's suffix is a regular file with a
    record's name, no two have the same sequence, and the list is theirs in order. *)
Record Listing (d : Dir) (l : list stableEntry.t) : Prop := {
  ls_good : forall name f, d !! name = Some f -> good (name, f) = true;
  ls_one : forall n1 f1 e1 n2 f2 e2, d !! n1 = Some f1 -> d !! n2 = Some f2 -> listed (n1, f1) = Some e1 -> listed (n2, f2) = Some e2 ->
    stableEntry.Sequence e1 = stableEntry.Sequence e2 -> n1 = n2;
  ls_sorted : StronglySorted before l;
  ls_files : forall e, e ∈ l <-> exists name f, d !! name = Some f /\ listed (name, f) = Some e
}.

Lemma listed_Some name f e : listed (name, f) = Some e <-> has_suffix stableSuffix name = true /\
  parseStableName name = Some (stableEntry.Sequence e) /\ e = entry_of_file blocks (stableEntry.Sequence e) f.
Proof.
  unfold listed. cbn [fst snd]. destruct (has_suffix stableSuffix name); [|split; [done|by intros []]].
  destruct (parseStableName name) as [s|]; simpl; [|split; [done|by intros (_ & ? & _)]]. split.
  - by intros [= <-].
  - intros (_ & [= ->] & E). by rewrite <- E.
Qed.

Lemma walk_files_spec files seen entries : walk_files blocks files seen = Ok entries <->
  (forall file, file ∈ files -> good file = true) /\ entries = omap listed files /\ NoDup (map stableEntry.Sequence entries) /\
  forall e, e ∈ entries -> stableEntry.Sequence e ∉ seen.
Proof.
  revert seen entries. induction files as [|[name f] files IH]; intros seen entries; cbn [walk_files omap list_omap].
  { split.
    - intros [= <-]. split_and!; [intros x Hx; by apply elem_of_nil in Hx|done|constructor|intros x Hx; by apply elem_of_nil in Hx].
    - by intros (_ & -> & _). }
  assert ((forall file, file ∈ (name, f) :: files -> good file = true) <-> good (name, f) = true /\ forall file, file ∈ files -> good file = true) as ->.
  { setoid_rewrite elem_of_cons. naive_solver. }
  unfold good at 1, listed at 1. cbn [fst snd]. destruct (has_suffix stableSuffix name); cbn [negb orb]; [|rewrite IH; naive_solver].
  destruct (parseStableName name) as [s|]; cbn [option_map]; [|naive_solver].
  destruct (File.type f) eqn:Et; [|split; [by repeat case_bool_decide|by intros ((Hx%bool_decide_eq_true_1 & _) & _)]..].
  rewrite (bool_decide_eq_false_2 (Regular = Folder)) by done.
  rewrite (bool_decide_eq_false_2 (Regular = Symlink)), (bool_decide_eq_true_2 (Regular = Regular)) by done. cbn [orb negb].
  destruct (bool_decide_reflect (s ∈ seen)) as [Hseen|Hseen].
  { split; [done|]. intros (_ & -> & _ & Hs). exfalso. apply (Hs _ (list_elem_of_here _ _)). done. }
  split.
  - intros (rest & Hw & [= <-])%bind_Ok. apply IH in Hw as (H1 & -> & H2 & H3). split_and!; [done|done|done| |].
    + simpl. constructor; [|done]. intros (e & E & He)%list_elem_of_In%in_map_iff. apply list_elem_of_In in He. specialize (H3 e He).
      set_solver.
    + intros e [->|He]%elem_of_cons; [done|]. specialize (H3 e He). set_solver.
  - intros ((_ & H1) & -> & H2 & H3). simpl in H2. apply NoDup_cons in H2 as [H2 H2'].
    assert (walk_files blocks files ({[s]} ∪ seen) = Ok (omap listed files)) as Hw; [|by rewrite Hw].
    apply IH. split_and!; [done|done|done|]. intros e He Hs. apply elem_of_union in Hs as [Hs|Hs].
    + apply elem_of_singleton in Hs. apply H2. rewrite <- Hs. by apply list_elem_of_In, in_map, list_elem_of_In.
    + apply (H3 e); [by apply list_elem_of_further|done].
Qed.

Lemma omap_NoDup_map {A B} (h : A -> option B) (g : B -> Z) l : NoDup l ->
  (forall x y a b, x ∈ l -> y ∈ l -> h x = Some a -> h y = Some b -> g a = g b -> x = y) -> NoDup (map g (omap h l)).
Proof.
  induction 1 as [|x l Hx Hl IH]; intros Hi; cbn [omap list_omap]; [constructor|].
  assert (NoDup (map g (omap h l))) as Hn by (apply IH; intros; eapply Hi; try done; by apply list_elem_of_further).
  destruct (h x) as [a|] eqn:Ha; [|done]. simpl. constructor; [|done].
  intros (b & E & (y & Hy & Hb)%list_elem_of_In%list_elem_of_omap)%list_elem_of_In%in_map_iff.
  apply Hx. rewrite (Hi x y a b); [done|apply list_elem_of_here|by apply list_elem_of_further|done|done|done].
Qed.

Lemma NoDup_omap_map {A B} (h : A -> option B) (g : B -> Z) l : NoDup (map g (omap h l)) ->
  forall x y a b, x ∈ l -> y ∈ l -> h x = Some a -> h y = Some b -> g a = g b -> x = y.
Proof.
  induction l as [|z l IH]; cbn [omap list_omap]; intros Hn x y a b Hx Hy Ha Hb E; [by apply elem_of_nil in Hx|].
  assert (forall w c d, w ∈ l -> h w = Some c -> h z = Some d -> g c = g d -> False) as Hz.
  { intros w c d Hw Hc Hd Eg. rewrite Hd in Hn. simpl in Hn. apply NoDup_cons in Hn as [Hni _]. apply Hni. rewrite <- Eg.
    apply list_elem_of_In, in_map, list_elem_of_In, list_elem_of_omap. by exists w. }
  assert (NoDup (map g (omap h l))) as Hn' by (destruct (h z); [simpl in Hn; by apply NoDup_cons in Hn as []|done]).
  apply elem_of_cons in Hx as [->|Hx]; apply elem_of_cons in Hy as [->|Hy]; [done| | |by eapply IH].
  - exfalso. by eapply (Hz y b a).
  - exfalso. by eapply (Hz x a b).
Qed.

Lemma elem_of_ReadDir (d : Dir) name f : (name, f) ∈ ReadDir d <-> d !! name = Some f.
Proof. unfold ReadDir. by rewrite elem_of_sort_slice, elem_of_map_to_list. Qed.

Lemma NoDup_ReadDir (d : Dir) : NoDup (ReadDir d).
Proof. rewrite ReadDir_perm. apply NoDup_map_to_list. Qed.

(** What [walk] returns for a directory. *)
Definition found (d : Dir) : result archive_error (list stableEntry.t) :=
  entries ← walk_files blocks (ReadDir d) ∅; Ok (sort_slice by_entry entries).

Lemma found_listing d l : found d = Ok l <-> Listing d l.
Proof.
  unfold found. split.
  - intros (entries & (Hg & -> & Hn & _)%walk_files_spec & [= <-])%bind_Ok. split.
    + intros name f Hd. apply Hg. by apply elem_of_ReadDir.
    + intros n1 f1 e1 n2 f2 e2 H1%elem_of_ReadDir H2%elem_of_ReadDir He1 He2 E.
      by apply (f_equal fst (NoDup_omap_map _ _ _ Hn (n1, f1) (n2, f2) e1 e2 H1 H2 He1 He2 E)).
    + by apply sort_is_strict.
    + intros e. rewrite elem_of_sort_slice, list_elem_of_omap. split.
      * intros ([name f] & Hf%elem_of_ReadDir & He). by exists name, f.
      * intros (name & f & Hd & He). exists (name, f). by rewrite elem_of_ReadDir.
  - intros [Hg Ho Hs Hf]. assert (NoDup (map stableEntry.Sequence (omap listed (ReadDir d)))) as Hn.
    { apply omap_NoDup_map; [apply NoDup_ReadDir|]. intros [n1 f1] [n2 f2] e1 e2 H1%elem_of_ReadDir H2%elem_of_ReadDir He1 He2 E.
      assert (n1 = n2) as -> by (by eapply Ho). congruence. }
    assert (walk_files blocks (ReadDir d) ∅ = Ok (omap listed (ReadDir d))) as ->.
    { apply walk_files_spec. split_and!; [|done|done|by intros; apply not_elem_of_empty]. intros [name f] Hx%elem_of_ReadDir. by apply Hg. }
    cbn. f_equal. apply strict_unique; [by apply sort_is_strict|done|]. intros e. rewrite Hf, elem_of_sort_slice, list_elem_of_omap. split.
    + intros ([name f] & Hx%elem_of_ReadDir & He). by exists name, f.
    + intros (name & f & Hd & He). exists (name, f). by rewrite elem_of_ReadDir.
Qed.

(** ** What becomes of a listing *)

Lemma listed_other name f : has_suffix stableSuffix name = false -> listed (name, f) = None.
Proof. intros Hn. unfold listed. cbn [fst]. by rewrite Hn. Qed.

(** Files that are not records do not show. *)
Lemma listing_agree d d' l : (forall name, has_suffix stableSuffix name = true -> d' !! name = d !! name) -> Listing d l -> Listing d' l.
Proof.
  intros He [Hg Ho Hs Hf]. assert (forall name f e, listed (name, f) = Some e -> d' !! name = d !! name) as Hl.
  { intros name f e (Hn & _)%listed_Some. by apply He. }
  split; [| |done|].
  - intros name f Hd. unfold good. cbn [fst snd]. destruct (has_suffix stableSuffix name) eqn:Hn; [|done].
    rewrite He in Hd by done. specialize (Hg name f Hd). unfold good in Hg. cbn [fst snd] in Hg. by rewrite Hn in Hg.
  - intros n1 f1 e1 n2 f2 e2 H1 H2 He1 He2. rewrite (Hl _ _ _ He1) in H1. rewrite (Hl _ _ _ He2) in H2. by eapply Ho.
  - intros e. rewrite Hf. split; intros (name & f & Hd & Hx); exists name, f; (split; [|done]); [by rewrite (Hl _ _ _ Hx)|by rewrite <- (Hl _ _ _ Hx)].
Qed.

Lemma listed_stable s f : 0 <= s <= max_u64 -> listed (stablePath s, f) = Some (entry_of_file blocks s f).
Proof. intros Hs. unfold listed. cbn [fst snd]. by rewrite stablePath_suffix, parse_stablePath. Qed.

(** Names of the archive's own making. *)
Definition own (d : Dir) : Prop :=
  forall name f, d !! name = Some f -> has_suffix stableSuffix name = true -> exists s, 0 <= s <= max_u64 /\ name = stablePath s.

Lemma own_listed d name f e : own d -> d !! name = Some f -> listed (name, f) = Some e ->
  name = stablePath (stableEntry.Sequence e) /\ 0 <= stableEntry.Sequence e <= max_u64.
Proof.
  intros Ho Hd (Hs & Hp & _)%listed_Some. destruct (Ho name f Hd Hs) as (s & Hr & ->). rewrite parse_stablePath in Hp by done.
  by injection Hp as <-.
Qed.

Lemma own_agree d d' : (forall name, has_suffix stableSuffix name = true -> d' !! name = d !! name) -> own d -> own d'.
Proof. intros He Ho name f Hd Hs. rewrite He in Hd by done. by eapply Ho. Qed.

Lemma own_delete d name : own d -> own (delete name d).
Proof. intros Ho n f [_ Hd]%lookup_delete_Some Hs. by eapply Ho. Qed.

Lemma own_insert d s f : 0 <= s <= max_u64 -> own d -> own (<[stablePath s := f]> d).
Proof. intros Hs Ho n g [[<- _]|[_ Hd]]%lookup_insert_Some Hn; [by exists s|by eapply Ho]. Qed.

Definition others (s : Z) (e : stableEntry.t) : bool := negb (bool_decide (stableEntry.Sequence e = s)).

Lemma listing_delete d l s : own d -> 0 <= s <= max_u64 -> Listing d l -> Listing (delete (stablePath s) d) (List.filter (others s) l).
Proof.
  intros Hw Hs [Hg Ho Hst Hf]. split.
  - intros name f [_ Hd]%lookup_delete_Some. by apply Hg.
  - intros n1 f1 e1 n2 f2 e2 [_ H1]%lookup_delete_Some [_ H2]%lookup_delete_Some. by eapply Ho.
  - by apply strict_filter.
  - intros e. rewrite elem_of_filter_list, Hf. unfold others. rewrite negb_true_iff, bool_decide_eq_false. split.
    + intros [(name & f & Hd & He) Hne]. exists name, f. split; [|done]. apply lookup_delete_Some. split; [|done]. intros <-.
      destruct (own_listed _ _ _ _ Hw Hd He) as [E Hr]. apply Hne.
      apply (f_equal parseStableName) in E. rewrite !parse_stablePath in E by done. by injection E.
    + intros (name & f & [Hne Hd]%lookup_delete_Some & He). split; [by exists name, f|]. intros E. apply Hne.
      destruct (own_listed _ _ _ _ Hw Hd He) as [-> _]. by rewrite E.
Qed.

Lemma listing_insert d l s f : own d -> 0 <= s <= max_u64 -> File.type f = Regular -> (forall e, e ∈ l -> stableEntry.Sequence e < s) ->
  Listing d l -> Listing (<[stablePath s := f]> d) (sort_slice by_entry (l ++ [entry_of_file blocks s f])%list).
Proof.
  intros Hw Hs Ht Hlt [Hg Ho Hst Hf].
  assert (forall n g e, d !! n = Some g -> listed (n, g) = Some e -> stableEntry.Sequence e <> s) as Hne.
  { intros n g e Hd He E. specialize (Hlt e). rewrite Hf in Hlt. specialize (Hlt (ex_intro _ n (ex_intro _ g (conj Hd He)))). lia. }
  pose proof (listed_stable s f Hs) as Hl. split.
  - intros n g [[<- <-]|[_ Hd]]%lookup_insert_Some; [|by apply Hg]. unfold good. cbn [fst snd].
    rewrite stablePath_suffix, parse_stablePath by done. by apply bool_decide_eq_true.
  - intros n1 f1 e1 n2 f2 e2 [[<- <-]|[_ H1]]%lookup_insert_Some [[<- <-]|[_ H2]]%lookup_insert_Some He1 He2 E; [done|..|by eapply Ho].
    + rewrite Hl in He1. injection He1 as <-. by destruct (Hne _ _ _ H2 He2).
    + rewrite Hl in He2. injection He2 as <-. by destruct (Hne _ _ _ H1 He1).
  - apply strict_snoc; [done|]. exact Hlt.
  - intros e. rewrite elem_of_sort_slice, elem_of_app, Hf, list_elem_of_singleton. split.
    + intros [(n & g & Hd & He)| ->]; [|exists (stablePath s), f; by rewrite lookup_insert_eq]. exists n, g. split; [|done].
      rewrite lookup_insert_ne; [done|]. intros <-. rewrite listed_stable in He by done. injection He as <-. by apply (Hne _ _ _ Hd (listed_stable s g Hs)).
    + intros (n & g & [[<- <-]|[_ Hd]]%lookup_insert_Some & He); [right; congruence|left; by exists n, g].
Qed.

(** ** The listing while the archive works

    [b] is above the sequences of the directory and [m] is a sequence handed out; the listing
    that is kept becomes the directory's by [g], and the directory has [R]. *)

Record State (b m : Z) (g : list stableEntry.t -> list stableEntry.t) (R : Dir -> Prop) (w : World) : Prop := {
  st_own : own (dir w);
  st_generator : generator_ok (metadata w);
  st_below : forall name f e, dir w !! name = Some f -> listed (name, f) = Some e -> stableEntry.Sequence e < b;
  st_from : m <= sequence (metadata w);
  st_listing : forall l, indexed w = Some l -> Listing (dir w) (g l);
  st_files : R (dir w)
}.

Definition anything (_ : Dir) : Prop := True.

(** Between calls. *)
Definition Sound (w : World) : Prop := exists b m, b <= m + 1 /\ State b m id anything w.

Definition top (_ : World) : Prop := True.

#[local] Hint Extern 0 (top _) => exact I : core.
#[local] Hint Extern 0 (anything _) => exact I : core.

Lemma state_sound b m R w : b <= m + 1 -> State b m id R w -> Sound w.
Proof. intros Hb []. exists b, m. by split. Qed.

Lemma state_conseq b m g (R Q : Dir -> Prop) w : (forall d, R d -> Q d) -> State b m g R w -> State b m g Q w.
Proof. intros Hr []. split; [done..|by apply Hr]. Qed.

Definition agree (d d' : Dir) : Prop := forall name, has_suffix stableSuffix name = true -> d' !! name = d !! name.

Lemma state_same b m g R w w' : dir w' = dir w -> metadata w' = metadata w -> indexed w' = indexed w ->
  State b m g R w -> State b m g R w'.
Proof. intros E1 E2 E3 []. by split; rewrite ?E1, ?E2, ?E3. Qed.

Lemma state_agree b m g (R Q : Dir -> Prop) w d' : agree (dir w) d' -> Q d' -> State b m g R w -> State b m g Q (set_dir d' w).
Proof.
  intros He Hq [Ho Hg Hb Hm Hl Hr]. split; cbn [dir metadata indexed set_dir]; [by eapply own_agree|done| |done| |done].
  - intros name f e Hd Hx. eapply (Hb name f e); [|done]. rewrite <- He; [done|]. by apply listed_Some in Hx as [].
  - intros l Hi. eapply listing_agree; [exact He|by apply Hl].
Qed.

Lemma state_perform b m g (R Q : Dir -> Prop) op : (forall d d', R d -> op d = Some d' -> agree d d' /\ Q d') ->
  triple (State b m g R) (perform op) (fun _ => State b m g Q) (State b m g R) top.
Proof.
  intros Hop. eapply triple_conseq; [apply (archive_perform (State b m g R) op (State b m g Q))|done|done|done|done].
  - intros w t. by apply state_same.
  - intros w t d' Hw Hd. destruct (Hop _ _ (st_files _ _ _ _ _ Hw) Hd). apply (state_agree b m g R Q (set_script t w)); [done|done|].
    by apply (state_same b m g R w).
Qed.

Lemma state_flush b m g R : triple (State b m g R) flush (fun _ => State b m g R) (State b m g R) top.
Proof. apply state_perform. by intros d d' Hr [= <-]. Qed.

Lemma state_sync b m g R : triple (State b m g R) syncDirectory (fun _ => State b m g R) (State b m g R) top.
Proof. eapply triple_bind; [apply state_flush|]. intros []. apply state_flush. Qed.

Lemma state_inject b m g R x : triple (State b m g R) (inject x) (fun _ => State b m g R) (State b m g R) top.
Proof.
  unfold inject. apply triple_get. intros w0. destruct (bool_decide _); [apply triple_fail; by intros w []|apply triple_ret; by intros w []].
Qed.

Lemma state_forget b m g R F C : b <= m + 1 -> triple (State b m g R) forgetIndex (fun _ => Sound) F C.
Proof. intros Hb. apply triple_update. intros w []. exists b, m. by split. Qed.

Lemma state_error {A} b m g R (p : Prog A) Q : b <= m + 1 -> triple (State b m g R) p Q (State b m g R) top ->
  triple (State b m g R) (on_error forgetIndex p) Q Sound top.
Proof. intros Hb Hp. eapply triple_on_error; [exact Hp|by apply state_forget]. Qed.

(** A pending file that waits to be published. *)
Definition waiting (s : Z) (d : Dir) : Prop := exists f, d !! pendingPath s = Some f /\ File.type f = Regular.

Lemma agree_insert d s f : agree d (<[pendingPath s := f]> d).
Proof. intros n Hn. rewrite lookup_insert_ne; [done|]. intros <-. by rewrite pendingPath_suffix in Hn. Qed.

Lemma agree_delete d s : agree d (delete (pendingPath s) d).
Proof. intros n Hn. rewrite lookup_delete_ne; [done|]. intros <-. by rewrite pendingPath_suffix in Hn. Qed.

Lemma waiting_insert s d data : waiting s (<[pendingPath s := File.mk Regular true data]> d).
Proof. eexists. by rewrite lookup_insert_eq. Qed.

Lemma state_discard b m s R : b <= m + 1 -> triple (State b m id R) (ignore (remove (pendingPath s))) (fun _ => Sound) Sound top.
Proof.
  intros Hb. apply triple_ignore. eapply triple_conseq; [apply (state_perform b m id R anything)|done|..|done].
  - intros d d' _ Hd. destruct (d !! pendingPath s); [|discriminate]. injection Hd as <-. split; [apply agree_delete|done].
  - intros [] w. by apply state_sound.
  - intros w. by apply state_sound.
Qed.

Lemma stage_waits b m r : b <= m + 1 -> triple (State b m id anything) (stage torn r)
  (fun _ => State b m id (waiting (ArchiveRecord.Sequence r))) Sound top.
Proof.
  intros Hb. set (s := ArchiveRecord.Sequence r). unfold stage. fold s.
  assert (forall w R, State b m id R w -> Sound w) as Hsound by (intros w R; by apply state_sound).
  eapply triple_bind.
  { eapply triple_conseq; [apply (state_perform b m id anything (waiting s))|done|done|intros w; apply Hsound|done].
    intros d d' _ Hd. destruct (d !! pendingPath s); [discriminate|]. injection Hd as <-. split; [apply agree_insert|apply waiting_insert]. }
  intros []. eapply triple_bind.
  { eapply triple_on_error; [|apply (state_discard b m s (waiting s)); done].
    eapply triple_bind; [by apply (triple_lift (State b m id (waiting s)) _ (fun _ => State b m id (waiting s)))|]. intros encoded.
    eapply triple_bind; [apply (state_perform b m id (waiting s) (waiting s))|].
    { intros d d' _ [= <-]. split; [apply agree_insert|apply waiting_insert]. }
    intros []. eapply triple_bind; [apply state_inject|]. intros []. eapply triple_bind; [apply state_flush|]. intros []. apply state_flush. }
  intros []. eapply triple_bind; [eapply triple_conseq; [apply state_inject|done|done|intros w; apply Hsound|done]|].
  intros []. eapply triple_on_error; [apply state_sync|by apply state_discard].
Qed.

(** ** Evicting *)

Definition minus (L : list ArchiveRecord.t) (l : list stableEntry.t) : list stableEntry.t :=
  List.filter (fun e => negb (bool_decide (stableEntry.Sequence e ∈ map ArchiveRecord.Sequence L))) l.

Lemma minus_nil l : minus [] l = l.
Proof. unfold minus. induction l as [|x l IH]; simpl in *; [done|]. by rewrite IH. Qed.

Lemma minus_snoc L r l : minus (L ++ [r])%list l = List.filter (others (ArchiveRecord.Sequence r)) (minus L l).
Proof.
  unfold minus, others. rewrite map_app. induction l as [|x l IH]; [done|]. cbn [List.filter].
  destruct (bool_decide_reflect (stableEntry.Sequence x ∈ map ArchiveRecord.Sequence L)) as [Hx|Hx]; cbn [negb List.filter].
  - rewrite bool_decide_eq_true_2 by (apply elem_of_app; by left). exact IH.
  - destruct (bool_decide_reflect (stableEntry.Sequence x = ArchiveRecord.Sequence r)) as [E|E]; cbn [negb].
    + rewrite bool_decide_eq_true_2 by (rewrite E; apply elem_of_app; right; apply list_elem_of_here). exact IH.
    + rewrite bool_decide_eq_false_2; [cbn [negb]; by rewrite IH|]. intros [Hy|Hy]%elem_of_app; [done|]. by apply list_elem_of_singleton in Hy.
Qed.

Definition in_range (L : list ArchiveRecord.t) : Prop := forall r, r ∈ L -> 0 <= ArchiveRecord.Sequence r <= max_u64.

(** What deleting a record does not change. *)
Definition unmoved (R : Dir -> Prop) : Prop := forall d s, R d -> R (delete (stablePath s) d).

Lemma waiting_unmoved s : unmoved (waiting s).
Proof.
  intros d t (f & Hf & Ht). exists f. split; [|done]. rewrite lookup_delete_ne; [done|]. intros E.
  pose proof (stablePath_suffix t) as Hs. by rewrite E, pendingPath_suffix in Hs.
Qed.

Lemma remove_minus b m R L r : unmoved R -> 0 <= ArchiveRecord.Sequence r <= max_u64 ->
  triple (State b m (minus L) R) (remove_any (stablePath (ArchiveRecord.Sequence r))) (fun _ => State b m (minus (L ++ [r])%list) R)
    (State b m (minus L) R) top.
Proof.
  intros Hu Hr. eapply triple_conseq; [apply (archive_perform (State b m (minus L) R) _ (State b m (minus (L ++ [r])%list) R))|done|done|done|done].
  - intros w t. by apply state_same.
  - intros w t d' [Ho Hg Hb Hm Hl Hf] [= <-]. split; cbn [dir metadata indexed set_dir set_script]; [by apply own_delete|done| |done| |by apply Hu].
    + intros name f e [_ Hd]%lookup_delete_Some. by eapply Hb.
    + intros l Hi. rewrite minus_snoc. apply listing_delete; [done|done|by apply Hl].
Qed.

Lemma evict_lists b m R L : b <= m + 1 -> unmoved R -> in_range L ->
  triple (State b m id R) (evict L) (fun _ => State b m id R) Sound top.
Proof.
  intros Hb Hu Hr. unfold evict. eapply triple_bind with (Q := fun _ => State b m (minus L) R).
  - eapply triple_on_error with (R := fun w => exists K, State b m (minus K) R w).
    + eapply triple_conseq; [apply (triple_each (fun K => State b m (minus K) R) _ L (fun w => exists K, State b m (minus K) R w) top)| |done|done|done].
      * intros K r rest E. eapply triple_conseq; [apply (remove_minus b m R K r Hu)|done|done|intros w; by exists K|done].
        apply Hr. rewrite E. apply elem_of_app. right. apply list_elem_of_here.
      * intros w [? ? ? ? Hl ?]. split; try done. intros l Hi. rewrite minus_nil. exact (Hl l Hi).
    + apply triple_exists. intros K. by apply state_forget.
  - intros []. destruct L as [|r L].
    + apply triple_ret. intros w [? ? ? ? Hl ?]. split; try done. intros l Hi. rewrite <- (minus_nil (id l)). exact (Hl l Hi).
    + eapply triple_bind; [apply state_error; [done|apply state_sync]|]. intros []. apply triple_update. intros w Hw.
      destruct (indexed w) as [l|] eqn:Hi; destruct Hw as [Ho Hg Hbl Hm Hl Hf]; split; cbn [dir metadata indexed set_indexed]; try done.
      * intros k [= <-]. exact (Hl l Hi).
      * intros k Hk. congruence.
Qed.

(** ** Publishing *)

Definition plus (s : Z) (f : File.t) (l : list stableEntry.t) : list stableEntry.t :=
  sort_slice by_entry (l ++ [entry_of_file blocks s f])%list.

Definition stored_at (s : Z) (f : File.t) (d : Dir) : Prop := d !! stablePath s = Some f.

Lemma rename_plus s m : 0 <= s <= max_u64 -> s <= m ->
  triple (State s m id (waiting s)) (rename (pendingPath s) (stablePath s)) (fun _ w => exists f, State (s + 1) m (plus s f) (stored_at s f) w)
    Sound top.
Proof.
  intros Hs Hm. eapply triple_conseq; [apply (archive_perform (State s m id (waiting s)) _
    (fun w => exists f, State (s + 1) m (plus s f) (stored_at s f) w))|done|done|intros w; apply state_sound; lia|done].
  - intros w t. by apply state_same.
  - intros w t d' [Ho Hg Hb Hn Hl (f & Hf & Ht)] Hd. rewrite Hf in Hd. injection Hd as <-. exists f.
    assert (agree (dir w) (delete (pendingPath s) (dir w))) as He by apply agree_delete.
    split; cbn [dir metadata indexed set_dir set_script]; [by apply own_insert; [|eapply own_agree]|done| |done| |apply lookup_insert_eq].
    + intros name f' e [[<- <-]|[_ [_ Hd]%lookup_delete_Some]]%lookup_insert_Some Hx.
      * rewrite listed_stable in Hx by done. injection Hx as <-. simpl. lia.
      * specialize (Hb _ _ _ Hd Hx). lia.
    + intros l Hi. specialize (Hl l Hi). unfold plus, id in *. apply listing_insert; [by eapply own_agree|done|done| |by eapply listing_agree].
      intros e (name & f' & Hd & Hx)%(ls_files _ _ Hl). by eapply Hb.
Qed.

Lemma commit_lists s m r L : ArchiveRecord.Sequence r = s -> 0 <= s <= max_u64 -> s <= m -> in_range L ->
  triple (State s m id (waiting s)) (commit blocks r L) (fun _ => Sound) Sound top.
Proof.
  intros E Hs Hm Hr. unfold commit. rewrite E. eapply triple_bind; [apply evict_lists; [lia|apply waiting_unmoved|done]|]. intros [].
  eapply triple_bind; [eapply triple_conseq; [apply state_inject|done|done|intros w; apply state_sound; lia|done]|]. intros [].
  eapply triple_bind; [by apply rename_plus|]. intros []. apply triple_exists. intros f.
  assert (s + 1 <= m + 1) as Hle by lia. set (S' := State (s + 1) m (plus s f) (stored_at s f)).
  eapply triple_bind; [apply (state_error (s + 1) m (plus s f) (stored_at s f) _ (fun _ => S') Hle)|].
  { eapply triple_bind; [apply state_inject|]. intros []. apply state_inject. }
  intros []. eapply triple_bind; [apply state_error; [done|apply state_sync]|].
  intros []. eapply triple_bind; [apply state_error; [done|apply state_inject]|].
  intros []. eapply triple_bind; [apply (state_error (s + 1) m (plus s f) (stored_at s f) _ (fun _ => S') Hle)|].
  { apply state_perform. intros d d' Hd Hx. destruct (d !! _) in Hx; [|discriminate]. by injection Hx as <-. }
  intros []. intros w [Ho Hg Hb Hn Hl Hf]. unfold get, mbind, M_bind. unfold stored_at in Hf. rewrite Hf.
  unfold noteAppended, update. exists (s + 1), m. split; [done|].
  destruct (indexed w) as [l|] eqn:Hi; split; cbn [dir metadata indexed set_indexed]; try done.
  - intros k [= <-]. exact (Hl l eq_refl).
  - intros k Hk. congruence.
Qed.

(** ** The calls *)

Hypothesis ticking : forall n, (clock n).1 <= max_i64 /\ IsZero (clock n).2 = false.

(** [encoding/json] reads a sequence into 64 bits. *)
Hypothesis read_width : forall d w, readWire d = Some w -> 0 <= wireArchive.Sequence w <= max_u64.

Lemma next_lists : triple Sound (next clock)
  (fun stamp w => 0 <= Metadata.Sequence stamp <= max_u64 /\ State (Metadata.Sequence stamp) (Metadata.Sequence stamp) id anything w) Sound top.
Proof.
  intros w (b & m & Hb & [Ho Hg Hbl Hm Hl Hr]). unfold next. destruct (ticking (calls w)) as [T1 T2]. destruct (clock (calls w)) as [mono wall].
  cbn [fst snd] in T1, T2. destruct (Next mono wall (metadata w)) as [[stamp|e] g] eqn:Hn.
  - apply Next_ok in Hn as (Hg' & _ & _ & _ & Hs & Hs' & _); [|done..]. pose proof (ok_sequence _ Hg'). split; [lia|].
    split; cbn [dir metadata indexed set_metadata]; [done..| |lia|done|done]. intros name f x Hd Hx. specialize (Hbl _ _ _ Hd Hx). lia.
  - pose proof (Next_err_ok _ _ _ _ _ Hg Hn) as Hg'. apply Next_err in Hn as (_ & _ & Hs & _). exists b, m. split; [done|].
    split; cbn [dir metadata indexed set_metadata]; [done..|lia|done|done].
Qed.

Lemma publish_lists stamp priority encoded r L : in_range L -> newRecord stamp priority encoded = Ok r ->
  0 <= Metadata.Sequence stamp <= max_u64 ->
  triple (State (Metadata.Sequence stamp) (Metadata.Sequence stamp) id anything) (_ ← stage torn r; commit blocks r L) (fun _ => Sound) Sound top.
Proof.
  intros Hi Hr Hs. destruct (newRecord_fields _ _ _ _ Hr) as (Eq & _). eapply triple_bind; [apply stage_waits; lia|].
  intros []. rewrite Eq. by apply commit_lists.
Qed.

Lemma nothing_in_range : in_range [].
Proof. intros r Hr. by apply elem_of_nil in Hr. Qed.

Lemma lift_sound {A} (x : result archive_error A) P : (forall w, P w -> Sound w) ->
  triple P (lift x) (fun a w => x = Ok a /\ P w) Sound top.
Proof. intros Hp. apply triple_lift; [done|exact Hp]. Qed.

Lemma stamped_sound stamp R w : State (Metadata.Sequence stamp) (Metadata.Sequence stamp) id R w -> Sound w.
Proof. apply state_sound. lia. Qed.

Lemma append_own_lists priority encoded : triple Sound (append_own torn blocks clock priority encoded) (fun _ => Sound) Sound top.
Proof.
  unfold append_own. eapply triple_bind; [apply next_lists|]. intros stamp. apply triple_pure. intros Hs.
  eapply triple_bind; [apply lift_sound; intros w; apply stamped_sound|]. intros r. apply triple_pure. intros Hr.
  by eapply publish_lists; [apply nothing_in_range|..].
Qed.

Lemma recordOverflow_lists reason dropped : triple Sound (recordOverflow torn blocks clock reason dropped) (fun _ => Sound) Sound top.
Proof.
  apply (triple_each (fun _ => Sound)). intros K priority rest _. destruct (overflow_of _ _ _); [|by apply triple_ret].
  eapply triple_bind; [by apply (lift_sound _ Sound)|]. intros encoded. apply triple_pure. intros _. apply append_own_lists.
Qed.

Lemma attempt_sound (p : Prog unit) : triple Sound p (fun _ => Sound) Sound top -> triple Sound (attempt p) (fun _ => Sound) Sound top.
Proof. apply triple_attempt_same. Qed.

Lemma recordRefusal_lists priority : triple Sound (recordRefusal torn blocks clock priority) (fun _ => Sound) Sound top.
Proof.
  unfold recordRefusal. eapply triple_bind; [by apply (lift_sound _ Sound)|]. intros encoded. apply triple_pure. intros _. apply append_own_lists.
Qed.

Lemma recordRefusedRecord_lists : triple Sound (recordRefusedRecord torn blocks clock) (fun _ => Sound) Sound top.
Proof.
  unfold recordRefusedRecord. eapply triple_bind with (Q := fun _ => Sound).
  { apply triple_update. intros w (b & m & Hb & Hw). exists b, m. split; [done|]. by apply (state_same b m id anything w). }
  intros []. apply triple_get. intros w0. destruct (negb _); [apply triple_ret; by intros w [_ Hw]|].
  apply (triple_conseq _ Sound _ _ (fun _ => Sound) _ Sound _ top); [|by intros w [_ Hw]|done|done|done].
  eapply triple_bind; [by apply (lift_sound _ Sound)|]. intros encoded. apply triple_pure. intros _. apply append_own_lists.
Qed.

Lemma walk_found w : walk blocks w =
  (set_walks (walks w + 1) w, match found (dir w) with Ok l => Done l | Err e => Failed e end).
Proof.
  change (walk blocks w) with (match found (dir w) with
    | Ok l => (set_walks (walks w + 1) w, Done l) | Err e => (set_walks (walks w + 1) w, Failed e) end).
  by destruct (found (dir w)).
Qed.

Lemma index_found w : index blocks w =
  match indexed w with
  | Some l => (w, Done l)
  | None => match found (dir w) with
            | Ok l => (set_indexed (Some l) (set_walks (walks w + 1) w), Done l)
            | Err e => (set_walks (walks w + 1) w, Failed e)
            end
  end.
Proof.
  unfold index, get, mbind, M_bind. destruct (indexed w); [done|]. rewrite walk_found. by destruct (found (dir w)).
Qed.

Lemma index_lists : triple Sound (index blocks) (fun _ => Sound) Sound top.
Proof.
  intros w (b & m & Hb & Hw). rewrite index_found. destruct (indexed w) as [l|] eqn:Hi; [exists b, m; by split|].
  destruct (found (dir w)) as [l|e] eqn:Hf.
  - exists b, m. split; [done|]. destruct Hw. split; cbn [dir metadata indexed set_indexed set_walks]; try done.
    intros k [= <-]. by apply found_listing.
  - exists b, m. split; [done|]. by apply (state_same b m id anything w).
Qed.

Lemma record_of_file_width f r : record_of_file readWire f = Ok r -> 0 <= ArchiveRecord.Sequence r <= max_u64.
Proof.
  unfold record_of_file. destruct (readWire (File.data f)) as [wire|] eqn:Hw; [|discriminate]. destruct (negb _); [discriminate|].
  intros [= <-]. by eapply read_width.
Qed.

Lemma readRecord_width d s r : readRecord readWire d s = Ok r -> 0 <= ArchiveRecord.Sequence r <= max_u64.
Proof.
  unfold readRecord. destruct (d !! stablePath s); [|discriminate]. destruct (bool_decide _); [discriminate|]. apply record_of_file_width.
Qed.

Lemma scan_width d l : scan readWire d = Ok l -> in_range l.
Proof.
  intros (records & Hm%mapM_Ok & [= <-])%bind_Ok r Hr%elem_of_sort_slice. apply list_elem_of_lookup in Hr as [i Hi].
  destruct (Forall2_lookup_r _ _ _ _ _ Hm Hi) as (file & _ & Hok). by eapply record_of_file_width.
Qed.

Lemma expired_lists entries : triple Sound (expiredByAge readWire clock entries) (fun L w => in_range L /\ Sound w) Sound top.
Proof.
  intros w Hw. unfold expiredByAge, get, mbind, M_bind. destruct (_ =? 0); [by split; [apply nothing_in_range|]|].
  unfold wallNow, mret, M_ret. cbn [dir maxAge set_metadata]. split.
  - intros r Hr. apply expired_are_old in Hr as [[s Hs] _]; [by eapply readRecord_width|]. intros x Hx. by apply elem_of_nil in Hx.
  - destruct Hw as (b & m & Hb & Hw). exists b, m. split; [done|]. by apply (state_same b m id anything w).
Qed.

Lemma evict_sound L : in_range L -> triple Sound (evict L) (fun _ => Sound) Sound top.
Proof.
  intros Hr. apply triple_exists. intros b. apply triple_exists. intros m. apply triple_pure. intros Hb.
  eapply triple_conseq; [apply (evict_lists b m anything L Hb); done|done|intros [] w; by apply state_sound|done|done].
Qed.

Lemma age_out_lists : triple Sound (age_out torn readWire blocks clock) (fun _ => Sound) Sound top.
Proof.
  unfold age_out. eapply triple_bind; [apply index_lists|]. intros kept. eapply triple_bind; [apply expired_lists|]. intros L.
  apply triple_pure. intros Hr. destruct L as [|x L]; [by apply triple_ret|]. eapply triple_bind; [by apply evict_sound|]. intros [].
  eapply triple_bind; [apply recordOverflow_lists|]. intros []. apply index_lists.
Qed.

Lemma in_range_incl L K : (forall r, r ∈ L -> r ∈ K) -> in_range K -> in_range L.
Proof. intros Hi Hk r Hr. by apply Hk, Hi. Qed.

Lemma place_record_lists kept stamp priority encoded r : newRecord stamp priority encoded = Ok r -> 0 <= Metadata.Sequence stamp <= max_u64 ->
  triple (State (Metadata.Sequence stamp) (Metadata.Sequence stamp) id anything) (place_record torn readWire blocks clock kept r)
    (fun _ => Sound) Sound top.
Proof.
  intros Hr Hs. set (S' := State (Metadata.Sequence stamp) (Metadata.Sequence stamp) id anything).
  assert (forall w, S' w -> Sound w) as Hsound by (intros w; apply stamped_sound).
  assert (forall A L (k : Prog A), in_range L -> triple Sound k (fun _ => Sound) Sound top ->
    triple S' (_ ← stage torn r; _ ← commit blocks r L; k) (fun _ => Sound) Sound top) as Hpub.
  { intros A L k Hi Hk w Hw. pose proof (publish_lists stamp priority encoded r L Hi Hr Hs w Hw) as Hp. unfold mbind, M_bind in *.
    destruct (stage torn r w) as [w1 [[]|e|]]; [|done..]. destruct (commit blocks r L w1) as [w2 [[]|e|]]; [|done..]. by apply Hk. }
  unfold place_record. apply triple_get. intros w0.
  apply (triple_conseq _ S' _ _ (fun _ => Sound) _ Sound _ top); [|by intros w [_ Hw]|done|done|done].
  destruct (_ <? _); [by apply triple_fail|]. destruct (0 <? _).
  - eapply triple_bind; [by apply lift_sound|]. intros stored. apply triple_pure. intros Hst.
    match goal with |- context[chooseEvictions stored ?o ?e ?x] => pose proof (chosen_are_cheap stored o e x) as Hch;
      destruct (chooseEvictions stored o e x) as [L [|]] end; cbn [negb fst] in *.
    + apply Hpub; [by eapply in_range_incl; [intros; by apply Hch|eapply scan_width]|].
      eapply triple_bind; [apply recordOverflow_lists|]. intros []. by apply triple_ret.
    + apply (triple_conseq _ Sound _ _ (fun _ => Sound) _ Sound _ top); [|done..]. eapply triple_bind; [apply attempt_sound, recordRefusal_lists|].
      intros refusal. by apply triple_fail.
  - apply Hpub; [apply nothing_in_range|by apply triple_ret].
Qed.

Lemma append_lists encoded : triple Sound (Append torn readWire blocks clock encoded) (fun _ => Sound) Sound top.
Proof.
  unfold Append. apply triple_get. intros w0. apply (triple_conseq _ Sound _ _ (fun _ => Sound) _ Sound _ top); [|by intros w [_ Hw]|done|done|done].
  destruct (readOnly w0); [by apply triple_fail|]. destruct (Events.Decode encoded) as [decoded|e].
  - eapply triple_bind; [apply age_out_lists|]. intros kept. eapply triple_bind; [apply next_lists|]. intros stamp. apply triple_pure. intros Hs.
    eapply triple_bind; [apply lift_sound; intros w; apply stamped_sound|]. intros r. apply triple_pure. intros Hr. by eapply place_record_lists.
  - eapply triple_bind; [apply attempt_sound, recordRefusedRecord_lists|]. intros refusal. by apply triple_fail.
Qed.

(** *** Opening *)

Lemma highest_bounds d l : own d -> Listing d l ->
  0 <= highestStable l <= max_u64 /\ forall e, e ∈ l -> stableEntry.Sequence e <= highestStable l.
Proof.
  intros Ho [_ _ Hs Hf]. unfold highestStable. destruct l as [|x k _] using rev_ind.
  { split; [unfold max_u64; simpl; lia|]. intros e He. by apply elem_of_nil in He. }
  rewrite last_snoc. split.
  - destruct (proj1 (Hf x)) as (name & f & Hd & Hx); [apply elem_of_app; right; apply list_elem_of_here|]. by eapply own_listed.
  - intros e [He|He]%elem_of_app; [|apply list_elem_of_singleton in He as ->; lia].
    pose proof (StronglySorted_app_1_elem_of _ _ _ _ _ Hs He (list_elem_of_here _ _)) as Hlt. unfold before in Hlt. lia.
Qed.

Lemma generator_sound node random l g w : bytes random -> NewGenerator node (highestStable l) (clock 0).1 random = Ok g ->
  own (dir w) -> Listing (dir w) l -> indexed w = Some l -> Sound (set_metadata 1 g w).
Proof.
  intros Hb Hg Ho Hl Hi. destruct (highest_bounds _ _ Ho Hl) as [Hr Hle]. pose proof (NewGenerator_ok _ _ _ _ _ Hr Hb Hg) as Hok.
  assert (sequence g = highestStable l) as Es by (unfold NewGenerator in Hg; by inv_result).
  exists (highestStable l + 1), (highestStable l). split; [lia|]. split; cbn [dir metadata indexed set_metadata]; [done|done| |lia| |done].
  - intros name f e Hd Hx. assert (e ∈ l) as He by (apply (ls_files _ _ Hl); by exists name, f). specialize (Hle e He). lia.
  - intros k Hk. rewrite Hi in Hk. by injection Hk as <-.
Qed.

(** A directory whose records the archive wrote. *)
Lemma open_lists absolute maximum age node random boundaries blockSize d steps w : own d -> bytes random ->
  Open blocks clock absolute maximum age node random boundaries blockSize d steps = (w, Done tt) -> Sound w.
Proof.
  intros Hd Hb Hopen. unfold Open in Hopen. set (w0 := mkWorld _ _ _ _ _ _ _ _ _ _ _ _) in Hopen.
  destruct (negb absolute); [discriminate|]. destruct ((_ <? 1) || _); [discriminate|].
  set (P := fun w => own (dir w) /\ indexed w = None).
  match type of Hopen with ?p w0 = _ => assert (triple P p (fun _ => Sound) top top) as Ht end.
  - eapply triple_bind with (Q := fun _ => P).
    { eapply triple_conseq; [apply (archive_perform P Some P)|done|done|done|done]; [done|]. intros w1 t d' Hw Hx. by injection Hx as <-. }
    intros []. eapply triple_bind with (Q := fun _ => P).
    { unfold discardStaged. apply triple_get. intros w1. apply (triple_conseq _ P _ _ (fun _ => P) _ top _ top); [|by intros w' [_ Hw]|done..].
      apply (triple_each (fun _ => P)). intros K [name f] rest _. cbn [fst snd]. destruct (bool_decide _ || _); [by apply triple_ret|].
      eapply triple_conseq; [apply (archive_perform P _ P)|done|done|done|done]; [done|].
      intros w' t d' [Ho Hi] Hx. split; [|done]. destruct (dir w' !! name); [|discriminate]. injection Hx as <-. by apply own_delete. }
    intros []. eapply triple_bind with (Q := fun l w => own (dir w) /\ Listing (dir w) l /\ indexed w = Some l).
    { intros w1 [Ho Hi]. rewrite index_found, Hi. destruct (found (dir w1)) as [l|e] eqn:Hf; [|done]. split_and!; [done| |done].
      by apply found_listing. }
    intros l. eapply triple_bind.
    { apply (triple_lift _ _ (fun g w => NewGenerator node (highestStable l) (clock 0).1 random = Ok g /\
        own (dir w) /\ Listing (dir w) l /\ indexed w = Some l)); [|done].
      intros w1 g Hw Hg. split; [|done]. destruct (NewGenerator _ _ _ _); [by injection Hg as ->|discriminate]. }
    intros g. apply triple_pure. intros Hg. apply triple_update. intros w1 (Ho & Hl & Hi). by eapply generator_sound.
  - specialize (Ht w0 (conj Hd eq_refl)). by rewrite Hopen in Ht.
Qed.

(** *** Any number of calls *)

(** The appends of a process one after another, whether they succeed or fail; [None] where
    the machine stopped in one of them. *)
Fixpoint appends (events : list Doc) (w : World) : option World :=
  match events with
  | [] => Some w
  | encoded :: rest =>
      match Append torn readWire blocks clock encoded w with
      | (_, Crashed) => None
      | (w', _) => appends rest w'
      end
  end.

Lemma appends_sound events w w' : Sound w -> appends events w = Some w' -> Sound w'.
Proof.
  revert w. induction events as [|encoded rest IH]; intros w Hw; cbn [appends]; [by intros [= <-]|].
  pose proof (append_lists encoded w Hw) as Ha. destruct (Append torn readWire blocks clock encoded w) as [w1 [k|e|]]; [by apply IH..|done].
Qed.

Lemma sound_index w : Sound w -> (index blocks w).2 = (walk blocks w).2.
Proof.
  intros (b & m & _ & Hw). rewrite index_found, walk_found. destruct (indexed w) as [l|] eqn:Hi; [|by destruct (found (dir w))].
  pose proof (st_listing _ _ _ _ _ Hw l Hi) as Hl. apply found_listing in Hl. cbn [snd]. by rewrite Hl.
Qed.

(** C19: the listing that the archive keeps in memory is what another walk of its directory
    would find.  Open a directory whose records have names that the archive gives, then append
    any events, on a disk that refuses any operations and with interruptions at any of the
    write boundaries: whenever the process is still running, the listing that the bound, the
    window and the size are answered from equals the result of reading the directory again,
    its failure included. *)
Theorem listing_is_the_walk absolute maximum age node random boundaries blockSize d steps w events w' :
  own d -> bytes random ->
  Open blocks clock absolute maximum age node random boundaries blockSize d steps = (w, Done tt) ->
  appends events w = Some w' ->
  (index blocks w').2 = (walk blocks w').2 /\
  (Size blocks w').2 = match (walk blocks w').2 with Done l => Done (archiveTotalSize l) | Failed e => Failed e | Crashed => Crashed end.
Proof.
  intros Hd Hr Hopen Hrun. pose proof (sound_index w' (appends_sound events w w' (open_lists _ _ _ _ _ _ _ _ _ _ Hd Hr Hopen) Hrun)) as Hi.
  split; [done|]. rewrite <- Hi. unfold Size, mbind, M_bind. by destruct (index blocks w') as [w1 [l|e|]].
Qed.
End index.
