(* ===== verification/ArchiveSample.v ===== *)
(** * A concrete archive

    An archive of three records' room, on a disk that carries everything out or stops
    where it is told to.  Every text is 100 bytes long, and the filesystem does not report
    blocks. *)

From Stdlib Require Import ZArith Lia Ascii String.
From stdpp Require Import base strings list option sets gmap sorting.
From S2P Require Import Prelude GoTime PolicyModel Metadata PolicyCanonical Connectivity Events Faults Spool SpoolSafety Archive ArchiveSafety ArchiveIndex.

Open Scope string_scope.
Open Scope Z_scope.

Module ArchiveSample.
Import EventSample.

Definition nothing : text := TextSleep (Sleep.mk "" "").
Definition torn : Doc := TextNode [] [] nothing.

Definition write_record (w : wireArchive.t) : text :=
  let m := wireArchive.Metadata w in
  TextNode [wireArchive.Schema w; wireArchive.Priority w; EventID m; NodeID m; SessionID m]
           [wireArchive.Sequence w; Metadata.Sequence m; WallClock m; MonotonicNanos m] (wireArchive.Event w).

Definition read_record (d : Doc) : option wireArchive.t :=
  match d with
  | TextNode [schema; priority; event; node; session] [sequence; own; wall; nanos] inner =>
      if (0 <=? sequence) && (sequence <=? max_u64)
      then Some (wireArchive.mk schema sequence priority (mkMetadata event node session own wall nanos) inner) else None
  | _ => None
  end.

#[export] Instance archive_codec : Codec wireArchive.t :=
  @Build_Codec json wireArchive.t (fun v => Some (write_record v)) read_record (fun _ => true).

#[export] Instance archive_laws : ArchiveLaws read_record.
Proof.
  split.
  - intros sequence priority [] event d [H1%Z.leb_le H2%Z.leb_le] _ _ [= <-]. exists event. cbn. by rewrite H1, H2.
  - done.
Qed.

(** A wall clock that is at [start] when the process begins; it stands still after a
    thousand readings. *)
Definition clock_from (start : Z) (n : nat) : Z * Z :=
  let ticks := Z.of_nat (Nat.min n 1000) in (7 + ticks, start + ticks).
Definition clock := clock_from 1.
Definition blocks (_ : Doc) : option Z := None.

Lemma clock_ticks n : (clock n).1 <= max_i64 /\ IsZero (clock n).2 = false.
Proof.
  unfold clock, clock_from, IsZero, max_i64. cbn [fst snd]. split; [lia|]. apply Z.eqb_neq. lia.
Qed.

Definition random : list Z := map Z.of_nat (seq 0 200).

Lemma random_bytes : bytes random.
Proof. unfold random. apply Forall_forall. intros z [n [-> Hn%elem_of_seq]]%list_elem_of_fmap. lia. Qed.

Abbreviation open := (fun start disk steps faults => Open blocks (clock_from start) true 250 100 sample_node random faults (Some 100) disk steps).
Abbreviation append := (Append torn read_record blocks clock).

Definition diagnostic_text : text :=
  TextWire SchemaDiagnostic SchemaVersion PriorityDiagnostic
    (TextDiagnostic (Diagnostic.mk ControlNames.ComponentRuntime DiagnosticRetryScheduled 3 0)).

(** A diagnostic record and a critical one fill the archive; a second critical one has to
    displace something. *)
Definition opened := open 1 ∅ [] [].
Definition first := append diagnostic_text (fst opened).
Definition second := append incident_text (fst first).
Definition third := append incident_text (fst second).

Lemma opened_done : snd opened = Done tt.
Proof. vm_compute. reflexivity. Qed.
Lemma first_returns : snd first = Done 1.
Proof. vm_compute. reflexivity. Qed.
Lemma second_returns : snd second = Done 2.
Proof. vm_compute. reflexivity. Qed.
Lemma third_returns : snd third = Done 3.
Proof. vm_compute. reflexivity. Qed.

Definition sequences (w : World) : result archive_error (list Z) :=
  records ← scan read_record (dir w); Ok (map ArchiveRecord.Sequence records).

Lemma third_sequences : sequences (fst third) = Ok [2; 3; 4].
Proof. vm_compute. reflexivity. Qed.

(** *** The archive that was opened holds nothing *)

Lemma empty_represented : represents read_record ∅ ∅.
Proof. split; intros ? ? Hl; by rewrite lookup_empty in Hl. Qed.

Lemma opened_holds : holds read_record ∅ (fst opened).
Proof.
  assert (reopens read_record blocks clock ∅ ∅) as Hr
    by (apply represents_reopens; [exact empty_represented|intros s r Hl; by rewrite lookup_empty in Hl]).
  apply (Hr true 250 100 sample_node random [] (Some 100) [] (fst opened) (snd opened) random_bytes); [exact (surjective_pairing opened)|exact opened_done].
Qed.

Lemma first_call : append diagnostic_text (fst opened) = (fst first, Done 1).
Proof. rewrite <- first_returns. exact (surjective_pairing first). Qed.
Lemma second_call : append incident_text (fst first) = (fst second, Done 2).
Proof. rewrite <- second_returns. exact (surjective_pairing second). Qed.
Lemma third_call : append incident_text (fst second) = (fst third, Done 3).
Proof. rewrite <- third_returns. exact (surjective_pairing third). Qed.

Definition present (name : string) (w : World) : bool := match dir w !! name with Some _ => true | None => false end.

Lemma first_is_stored : present (stablePath 1) (fst second) = true.
Proof. vm_compute. reflexivity. Qed.
Lemma first_is_gone : present (stablePath 1) (fst third) = false.
Proof. vm_compute. reflexivity. Qed.

Lemma held_at w V s : represents read_record (dir w) V -> 0 < s <= max_u64 -> present (stablePath s) w = true -> is_Some (V !! s).
Proof.
  intros [Hf Hr] Hs Hp. unfold present in Hp. destruct (dir w !! stablePath s) as [f|] eqn:Hd; [|discriminate]. destruct (Hf _ _ Hd (stablePath_suffix s)) as (t & r & E & Ht).
  apply stablePath_inj in E as ->; [by exists r|done|]. by apply (Hr t r).
Qed.

Lemma gone_at w V s : represents read_record (dir w) V -> present (stablePath s) w = false -> V !! s = None.
Proof. intros [_ Hr] Hp. unfold present in Hp. destruct (dir w !! stablePath s) eqn:Hd; [discriminate|]. apply eq_None_not_Some. intros [r Hl]. destruct (Hr s r Hl) as (_ & _ & f & Hf & _). congruence. Qed.

Lemma archive_drops_are_named_witness : exists V r,
  holds read_record V (fst third) /\ V !! 1 = None /\ ArchiveRecord.Sequence r = 1 /\ named V r /\
  exists r', V !! 3 = Some r' /\ ArchiveRecord.Event r' = incident_text.
Proof.
  destruct (archive_drops_are_named torn read_record blocks clock clock_ticks _ _ _ _ _ opened_holds first_call) as (V1 & H1 & _).
  destruct (archive_drops_are_named torn read_record blocks clock clock_ticks _ _ _ _ _ H1 second_call) as (V2 & H2 & _).
  destruct (archive_drops_are_named torn read_record blocks clock clock_ticks _ _ _ _ _ H2 third_call) as (V3 & H3 & _ & _ & _ & _ & Hd).
  destruct (Hd 3 eq_refl) as (_ & Hn & decoded & r' & _ & Hr & _ & He).
  destruct (held_at _ V2 1 (at_dir _ _ _ _ _ H2)) as [r Hl]; [unfold max_u64; lia|exact first_is_stored|].
  pose proof (gone_at _ V3 1 (at_dir _ _ _ _ _ H3) first_is_gone) as Hg. exists V3, r. split_and!; [done|done| | |].
  - apply (rp_records _ _ _ (at_dir _ _ _ _ _ H2) 1 r Hl).
  - by apply (Hn 1 r).
  - exists r'. split; [done|by apply He].
Defined.

(** *** The listing *)

Lemma read_width d w : read_record d = Some w -> 0 <= wireArchive.Sequence w <= max_u64.
Proof.
  unfold read_record. intros Hr. repeat case_match; try discriminate. injection Hr as <-. cbn [wireArchive.Sequence].
  match goal with E : _ && _ = true |- _ => apply andb_true_iff in E as [?%Z.leb_le ?%Z.leb_le] end. done.
Qed.

(** The third append has removed the record that it displaces when the directory cannot be
    synchronized: the listing is forgotten, and the fourth append walks again. *)
Definition refusing := open 1 ∅ (repeat Carried 28 ++ [Refused])%list [].
Definition events : list Doc := [diagnostic_text; incident_text; incident_text; incident_text].
Definition after_events := appends torn read_record blocks clock events (fst refusing).

Definition listing (w : World) : option (list Z) := option_map (map stableEntry.Sequence) (indexed w).

Lemma refusing_done : snd refusing = Done tt.
Proof. vm_compute. reflexivity. Qed.

Lemma refusing_run : open 1 ∅ (repeat Carried 28 ++ [Refused])%list [] = (fst refusing, Done tt).
Proof. rewrite <- refusing_done. exact (surjective_pairing refusing). Qed.

Lemma empty_own : own ∅.
Proof. intros name f Hl. by rewrite lookup_empty in Hl. Qed.

Lemma events_run : snd refusing = Done tt /\ option_map (fun w => (listing w, walks w)) after_events = Some (Some [2; 4], 2).
Proof. split; vm_compute; reflexivity. Qed.

Lemma listing_after (o : option World) x n : option_map (fun w => (listing w, walks w)) o = Some (x, n) -> exists w, o = Some w /\ listing w = x.
Proof. destruct o as [w|]; [|discriminate]. intros [= <- _]. by exists w. Qed.

Lemma index_cached w l : indexed w = Some l -> snd (index blocks w) = Done l.
Proof. intros Hi. unfold index, get, mbind, M_bind. by rewrite Hi. Qed.

Lemma listing_is_the_walk_witness : exists w l, after_events = Some w /\ snd (walk blocks w) = Done l /\
  map stableEntry.Sequence l = [2; 4] /\ snd (Size blocks w) = Done (archiveTotalSize l).
Proof.
  destruct (listing_after _ _ _ (proj2 events_run)) as (w & Hw & Hl).
  destruct (listing_is_the_walk torn read_record blocks clock clock_ticks read_width true 250 100 sample_node random [] (Some 100) ∅
    (repeat Carried 28 ++ [Refused])%list (fst refusing) events w empty_own random_bytes refusing_run Hw) as [Hi Hs].
  unfold listing in Hl. destruct (indexed w) as [l|] eqn:E; [|discriminate].
  rewrite (index_cached _ _ E) in Hi. rewrite <- Hi in Hs. injection Hl as Hl. exists w, l.
  exact (conj Hw (conj (eq_sym Hi) (conj Hl Hs))).
Defined.

(** *** Where the promises end *)

(** The machine stops once the displaced record has been removed and the new one has been
    published, before the record that names the removal. *)
Definition stop_before_naming : list Outcome := repeat Carried 13 ++ [Crash].
Definition stopped := append incident_text (set_script stop_before_naming (fst second)).
Definition after_stop := open 50 (dir (fst stopped)) [] [].

Lemma stopped_drop_is_unnamed : snd stopped = Crashed /\ snd after_stop = Done tt /\
  (records ← scan read_record (dir (fst after_stop)); Ok (map (fun r => (ArchiveRecord.Sequence r, ArchiveRecord.Event r)) records)) =
    Ok [(2, incident_text); (3, incident_text)].
Proof. split_and!; vm_compute; reflexivity. Qed.

(** An append that is interrupted before the rename has used its number; the next process
    hands the number out again. *)
Definition interrupted := append incident_text (fst (open 1 (dir (fst first)) [] [BeforeRename])).
Definition resumed := append incident_text (fst (open 50 (dir (fst interrupted)) [] [])).

Lemma interrupted_sequence_is_reused : snd interrupted = Failed ErrInjectedFault /\ sequence (metadata (fst interrupted)) = 2 /\
  present (pendingPath 2) (fst interrupted) = true /\ snd resumed = Done 2.
Proof. split_and!; vm_compute; reflexivity. Qed.

(** Everything has expired, and the machine stops before the record that would say so: the
    next process finds an empty directory and hands out a number that a published record
    had. *)
Definition much_later := fst (open 1000 (dir (fst first)) [Carried; Carried; Carried; Carried; Crash] []).
Definition expired := Append torn read_record blocks (clock_from 1000) incident_text much_later.
Definition restarted := append incident_text (fst (open 1000 (dir (fst expired)) [] [])).

Lemma published_sequence_is_reused : snd first = Done 1 /\ snd expired = Crashed /\ sequences (fst expired) = Ok [] /\
  snd restarted = Done 1.
Proof. split_and!; vm_compute; reflexivity. Qed.

(** One record that cannot be read: below the bound it is passed over, at the bound it
    refuses every append. *)
Definition damaged (w : World) : World := set_dir (<[stablePath 1 := File.mk Regular true torn]> (dir w)) w.

Lemma damaged_record_refuses_at_the_bound : snd (append incident_text (damaged (fst first))) = Done 2 /\
  snd (append incident_text (damaged (fst second))) = Failed ErrArchive.
Proof. split; vm_compute; reflexivity. Qed.
End ArchiveSample.
