(* ===== verification/PritunlPlan.v ===== *)
(** * Planning the recovery of user access

    [internal/pritunlplan]: what one observation of the user's session asks for, over the
    recovery machine of [Control].  A planner is changed by the calls on it, so each is a
    program of [Faults] over the planner; it has no step that can be interrupted.  The
    persisting of a snapshot is an argument of the calls that persist. *)

From Stdlib Require Import ZArith Lia Ascii String.
From stdpp Require Import base strings list option sets gmap.
From S2P Require Import Prelude Control Faults.
Import Types Machine.

Open Scope string_scope.
Open Scope Z_scope.

(** ** What is observed

    [userobserve.SessionState], [observe.LidState], [observe.WakeKind] and
    [userobserve.ProfileState]. *)

Inductive SessionState := SessionUnknown | SessionActive | SessionInactive | SessionOther (raw : string).
Inductive LidState := LidStateUnknown | LidStateOpen | LidStateClosed | LidStateOther (raw : string).
Inductive WakeKind := WakeKindUnknown | WakeKindFull | WakeKindDark | WakeKindOther (raw : string).
Inductive ProfileState :=
| ProfileUnknown | ProfileActive | ProfileInactive | ProfileConnecting | ProfileDisconnected | ProfileOther (raw : string).

#[export] Instance SessionState_eq_dec : EqDecision SessionState.
Proof. solve_decision. Defined.
#[export] Instance LidState_eq_dec : EqDecision LidState.
Proof. solve_decision. Defined.
#[export] Instance WakeKind_eq_dec : EqDecision WakeKind.
Proof. solve_decision. Defined.
#[export] Instance ProfileState_eq_dec : EqDecision ProfileState.
Proof. solve_decision. Defined.

(** [userobserve.ProfileObservation] without the address itself. *)
Module ProfileObservation.
Record t := mk { Found : bool; State : ProfileState; Connecting : bool; HasClientAddress : bool }.
End ProfileObservation.

Definition Connected (observation : ProfileObservation.t) : bool :=
  ProfileObservation.Found observation && bool_decide (ProfileObservation.State observation = ProfileActive) &&
  negb (ProfileObservation.Connecting observation) && ProfileObservation.HasClientAddress observation.

Inductive PlanAction := ActionNone | ActionReconnect | ActionRequestRescue.
#[export] Instance PlanAction_eq_dec : EqDecision PlanAction.
Proof. solve_decision. Defined.

Inductive PlanReason :=
| PReasonNone | ReasonSessionInactive | ReasonLidClosed | ReasonDarkWake | ReasonWakeUnknown | ReasonWakeSettling
| ReasonOuterNotReady | ReasonProfileConnected | ReasonProfileNotConnected | ReasonProfileConnecting
| ReasonRecoveryVerifying | ReasonOTPWindowTooShort | ReasonRecoveryBackoff | PReasonRecoveryBudget
| ReasonReconnectAllowed | ReasonInnerBlackholed | ReasonProfileUnreadable | ReasonServiceNotRunning.
#[export] Instance PlanReason_eq_dec : EqDecision PlanReason.
Proof. solve_decision. Defined.

Inductive ServiceState := ServiceUnspecified | ServiceRunning | ServiceStopped | ServiceOther (raw : string).
#[export] Instance ServiceState_eq_dec : EqDecision ServiceState.
Proof. solve_decision. Defined.

Inductive OptionalInnerState :=
| OptionalInnerUnspecified | OptionalInnerUnknown | OptionalInnerReady | OptionalInnerFailed | OptionalInnerOther (raw : string).
#[export] Instance OptionalInnerState_eq_dec : EqDecision OptionalInnerState.
Proof. solve_decision. Defined.

Definition OptionalInnerState_valid (state : OptionalInnerState) : bool :=
  match state with OptionalInnerOther _ => false | _ => true end.

Module PlanPolicy.
Record t := mk { Recovery : Policy; WakeSettle : Z; ConnectingGrace : Z; OTPPeriod : Z; OTPMinValid : Z }.
End PlanPolicy.

Module PlanObservation.
Record t := mk { At : Z; Session : SessionState; Lid : LidState; Wake : WakeKind; OuterReady : bool; Profile : ProfileObservation.t;
  OptionalInner : OptionalInnerState; OTPSecondsRemaining : Z; Service : ServiceState; ProfileUnreadable : bool }.
End PlanObservation.

Module Plan.
Record t := mk { ObserveOnly : bool; State : Types.State; Action : PlanAction; Reason : PlanReason; NextEvaluationAt : Z;
  Snapshot : Machine.Snapshot }.
End Plan.

Module Planner.
Record t := mk { policy : PlanPolicy.t; machine : Machine.t; fullWakeSince : Z; trackingFullWake : bool; connectingSince : Z;
  trackingConnecting : bool; lastObservationAt : Z; hasObservation : bool; lastRescueAt : Z; hasRequestedRescue : bool }.

Definition set_machine (m : Machine.t) (p : t) : t :=
  mk (policy p) m (fullWakeSince p) (trackingFullWake p) (connectingSince p) (trackingConnecting p) (lastObservationAt p)
    (hasObservation p) (lastRescueAt p) (hasRequestedRescue p).
Definition set_wake (since : Z) (tracking : bool) (p : t) : t :=
  mk (policy p) (machine p) since tracking (connectingSince p) (trackingConnecting p) (lastObservationAt p)
    (hasObservation p) (lastRescueAt p) (hasRequestedRescue p).
Definition set_connecting (since : Z) (tracking : bool) (p : t) : t :=
  mk (policy p) (machine p) (fullWakeSince p) (trackingFullWake p) since tracking (lastObservationAt p)
    (hasObservation p) (lastRescueAt p) (hasRequestedRescue p).
Definition set_observation (at_ : Z) (p : t) : t :=
  mk (policy p) (machine p) (fullWakeSince p) (trackingFullWake p) (connectingSince p) (trackingConnecting p) at_
    true (lastRescueAt p) (hasRequestedRescue p).
Definition set_rescue (at_ : Z) (p : t) : t :=
  mk (policy p) (machine p) (fullWakeSince p) (trackingFullWake p) (connectingSince p) (trackingConnecting p) (lastObservationAt p)
    (hasObservation p) at_ true.
End Planner.

Inductive plan_error := ErrInvalidInput | ErrControl (e : Machine.error) | ErrPersist.

Abbreviation Prog := (M Planner.t plan_error).

Definition OTPSecondsRemaining (unixSeconds period : Z) : result plan_error Z :=
  if (unixSeconds <? 0) || (period =? 0) then Err ErrInvalidInput
  else Ok (u32 (period - u32 (Z.rem unixSeconds period))).

Definition NewPlanner (policy : PlanPolicy.t) (s : Machine.Snapshot) : result plan_error Planner.t :=
  if (PlanPolicy.WakeSettle policy <? 0) || (PlanPolicy.ConnectingGrace policy <=? 0) || (PlanPolicy.OTPPeriod policy =? 0) ||
     (PlanPolicy.OTPMinValid policy =? 0) || (PlanPolicy.OTPPeriod policy <? PlanPolicy.OTPMinValid policy)
  then Err ErrInvalidInput
  else
    m ← map_err ErrControl (NewMachine (PlanPolicy.Recovery policy) s);
    Ok (Planner.mk policy m 0 false 0 false 0 false 0 false).

(** [Planner.Snapshot]. *)
Definition current (p : Planner.t) : Machine.Snapshot := snapshot (Planner.machine p).

(** ** One observation *)

Definition step (at_ : Z) (event : Event) : Prog Decision := fun p =>
  match Step (Planner.machine p) (Generation (current p)) at_ event with
  | (m, Ok d) => (Planner.set_machine m p, Done d)
  | (m, Err e) => (Planner.set_machine m p, Failed (ErrControl e))
  end.

Definition result_of (reason : PlanReason) (action : PlanAction) (next : Z) : Prog Plan.t :=
  p ← get; mret (Plan.mk true (SState (current p)) action reason next (current p)).

Definition not_connecting : Prog unit := update (fun p => Planner.set_connecting (Planner.connectingSince p) false p).

Definition suspend (at_ : Z) (reason : PlanReason) : Prog Plan.t :=
  _ ← update (fun p => Planner.set_wake (Planner.fullWakeSince p) false p);
  _ ← not_connecting;
  _ ← step at_ EventSuspend;
  result_of reason ActionNone 0.

Definition rescueRequestAllowed (p : Planner.t) (at_ : Z) : bool :=
  if negb (Planner.hasRequestedRescue p) then true
  else i64 (Planner.lastRescueAt p + Cooldown (PlanPolicy.Recovery (Planner.policy p))) <=? at_.

Section plan.
Context (o : PlanObservation.t).
Abbreviation at_ := (PlanObservation.At o).
Abbreviation profile := (PlanObservation.Profile o).

(** Why the host is not fully awake, if it is not. *)
Definition unawake : option PlanReason :=
  if negb (bool_decide (PlanObservation.Session o = SessionActive)) then Some ReasonSessionInactive
  else if bool_decide (PlanObservation.Lid o = LidStateClosed) then Some ReasonLidClosed
  else if bool_decide (PlanObservation.Wake o = WakeKindDark) then Some ReasonDarkWake
  else if negb (bool_decide (PlanObservation.Lid o = LidStateOpen)) || negb (bool_decide (PlanObservation.Wake o = WakeKindFull))
  then Some ReasonWakeUnknown
  else None.

Definition ask_rescue (reason : PlanReason) : Prog Plan.t :=
  _ ← update (Planner.set_rescue at_); result_of reason ActionRequestRescue 0.

Definition on_connected : Prog Plan.t :=
  _ ← not_connecting;
  decision ← step at_ EventProbeSucceeded;
  p ← get;
  if bool_decide (PlanObservation.OptionalInner o = OptionalInnerFailed) && rescueRequestAllowed p at_
  then ask_rescue ReasonInnerBlackholed
  else result_of (if bool_decide (To decision = StateRecovering) then ReasonRecoveryVerifying else ReasonProfileConnected) ActionNone 0.

(** The last part of [Plan]: a profile that is not connected, past its grace. *)
Definition reconnect : Prog Plan.t :=
  decision ← step at_ EventProbeFailed;
  p ← get;
  match To decision with
  | StateHealthy => result_of ReasonProfileNotConnected ActionNone 0
  | StateSafeMode => result_of PReasonRecoveryBudget ActionNone (SafeUntil (current p))
  | StateDegraded =>
      if PlanObservation.OTPSecondsRemaining o <? PlanPolicy.OTPMinValid (Planner.policy p)
      then result_of ReasonOTPWindowTooShort ActionNone (i64 (i64 (at_ + PlanObservation.OTPSecondsRemaining o) + 1))
      else
        decision ← step at_ EventBeginRecovery;
        p ← get;
        if RecoveryApproved decision then result_of ReasonReconnectAllowed ActionReconnect 0
        else if bool_decide (To decision = StateSafeMode)
        then result_of PReasonRecoveryBudget ActionNone (SafeUntil (current p))
        else result_of ReasonRecoveryBackoff ActionNone (NextActionAt (current p))
  | _ => result_of ReasonProfileNotConnected ActionNone 0
  end.

(** A profile that was read and is not connected: it may still be connecting, or a recovery
    may still be under way. *)
Definition on_disconnected : Prog Plan.t :=
  p ← get;
  _ ← (if ProfileObservation.Connecting profile
       then if Planner.trackingConnecting p then mret tt else update (Planner.set_connecting at_ true)
       else not_connecting);
  p ← get;
  let grace := PlanPolicy.ConnectingGrace (Planner.policy p) in
  if ProfileObservation.Connecting profile && (i64 (at_ - Planner.connectingSince p) <? grace)
  then result_of ReasonProfileConnecting ActionNone (i64 (Planner.connectingSince p + grace))
  else
    let s := current p in
    if bool_decide (SState s = StateRecovering) && (i64 (at_ - RecoveringSince s) <? grace)
    then result_of ReasonRecoveryVerifying ActionNone (i64 (RecoveringSince s + grace))
    else reconnect.

(** What the session says, once the machine may act. *)
Definition judge : Prog Plan.t :=
  p ← get;
  _ ← (if bool_decide (SState (current p) = StateSuspended) then _ ← step at_ EventDependenciesReady; mret tt else mret tt);
  p ← get;
  if negb (Connected profile) && bool_decide (PlanObservation.Service o = ServiceStopped) && rescueRequestAllowed p at_
  then _ ← step at_ EventProbeFailed; ask_rescue ReasonServiceNotRunning
  else if PlanObservation.ProfileUnreadable o
  then _ ← step at_ EventProbeFailed; result_of ReasonProfileUnreadable ActionNone 0
  else if Connected profile then on_connected
  else on_disconnected.

(** A host that is fully awake. *)
Definition on_awake : Prog Plan.t :=
  _ ← update (fun p => if Planner.trackingFullWake p then p else Planner.set_wake at_ true p);
  p ← get;
  if i64 (at_ - Planner.fullWakeSince p) <? PlanPolicy.WakeSettle (Planner.policy p) then
    _ ← not_connecting;
    _ ← step at_ EventSuspend;
    result_of ReasonWakeSettling ActionNone (i64 (Planner.fullWakeSince p + PlanPolicy.WakeSettle (Planner.policy p)))
  else if negb (PlanObservation.OuterReady o) then result_of ReasonOuterNotReady ActionNone 0
  else if bool_decide (SState (current p) = StateSafeMode) then
    if at_ <? SafeUntil (current p) then result_of PReasonRecoveryBudget ActionNone (SafeUntil (current p))
    else _ ← step at_ EventCooldownElapsed; judge
  else judge.

Definition plan : Prog Plan.t :=
  p ← get;
  if (at_ <? 0) || negb (OptionalInnerState_valid (PlanObservation.OptionalInner o)) ||
     (PlanPolicy.OTPPeriod (Planner.policy p) <? PlanObservation.OTPSecondsRemaining o)
  then fail ErrInvalidInput
  else if (at_ <? LastTick (current p)) || (Planner.hasObservation p && (at_ <? Planner.lastObservationAt p))
  then fail (ErrControl ErrNonMonotonicTick)
  else
    _ ← update (Planner.set_observation at_);
    match unawake with
    | Some reason => suspend at_ reason
    | None => on_awake
    end.
End plan.

(** ** The operator's calls *)

Section persist.
Context (persist : Machine.Snapshot -> bool).

(** [persist] and [replaceSnapshot]; an error of [persist] is returned as it is. *)
Definition replaceSnapshot (s : Machine.Snapshot) : Prog Machine.Snapshot :=
  p ← get;
  candidate ← lift (map_err ErrControl (NewMachine (PlanPolicy.Recovery (Planner.policy p)) s));
  if persist s then _ ← update (Planner.set_machine candidate); mret s else fail ErrPersist.

Definition Resume (expectedGeneration at_ : Z) : Prog Machine.Snapshot :=
  if at_ <? 0 then fail ErrInvalidInput
  else
    p ← get;
    let before := current p in
    _ ← (fun p => match Step (Planner.machine p) expectedGeneration at_ EventOperatorResume with
                  | (m, Ok d) => (Planner.set_machine m p, Done d)
                  | (m, Err e) => (Planner.set_machine m p, Failed (ErrControl e))
                  end);
    p ← get;
    let after := current p in
    if persist after then mret after
    else
      rollback ← lift (map_err ErrControl (NewMachine (PlanPolicy.Recovery (Planner.policy p)) before));
      _ ← update (Planner.set_machine rollback);
      fail ErrPersist.

Definition CompensateOperatorResume (expectedGeneration : Z) (compensation : Machine.Snapshot) : Prog Machine.Snapshot :=
  p ← get;
  let s := current p in
  if negb (Generation s =? expectedGeneration) then fail (ErrControl ErrStaleGeneration)
  else if negb (bool_decide (SState s = StateDegraded)) || negb (bool_decide (SState compensation = StateSafeMode)) ||
          negb (Generation compensation =? u64 (Generation s + 1)) || (LastTick compensation <? LastTick s)
  then fail ErrInvalidInput
  else replaceSnapshot compensation.

Definition EnterSafeMode (expectedGeneration at_ : Z) : Prog Machine.Snapshot :=
  if at_ <? 0 then fail ErrInvalidInput
  else
    p ← get;
    let s := current p in
    let recovery := PlanPolicy.Recovery (Planner.policy p) in
    if negb (Generation s =? expectedGeneration) then fail (ErrControl ErrStaleGeneration)
    else if at_ <? LastTick s then fail (ErrControl ErrNonMonotonicTick)
    else replaceSnapshot
      {| SchemaVersion := SchemaVersion s; Generation := u64 (Generation s + 1); SState := StateSafeMode;
         ConsecutiveFailures := ConsecutiveFailures s; Attempts := ActionBudget recovery; LastTick := at_;
         RecoveringSince := 0; NextActionAt := 0; SafeUntil := i64 (at_ + Cooldown recovery) |}.
End persist.
