(* ===== verification/PritunlSafety.v ===== *)
(** * When a reconnection is planned

    A run of observations of a planner is a run of its recovery machine, in which the
    planned reconnections are the approved recoveries; each of them stands on what was
    observed. *)

From Stdlib Require Import ZArith Lia Ascii String.
From stdpp Require Import base strings list option sets gmap.
From S2P Require Import Prelude Control Faults PritunlPlan.
Import Types Machine.

Open Scope string_scope.
Open Scope Z_scope.

#[local] Existing Instances M_ret M_bind.

(** ** Runs of the machine *)

Lemma run_app m calls more m' ds : run m calls = (m', ds) ->
  run m (calls ++ more) = (let '(m'', ds') := run m' more in (m'', ds ++ ds')%list).
Proof.
  revert m ds. induction calls as [|c calls IH]; intros m ds Hr; cbn [run app] in *.
  { injection Hr as <- <-. by destruct (run m more). }
  destruct (Step m (expected c) (at_tick c) (call_event c)) as [m1 [d|e]]; [|by apply IH].
  destruct (run m1 calls) as [m2 ds2] eqn:E. injection Hr as <- <-. rewrite (IH m1 ds2 E). by destruct (run m2 more).
Qed.

Lemma approvals_app ds ds' : approvals (ds ++ ds') = approvals ds + approvals ds'.
Proof. unfold approvals. rewrite filter_app, length_app. lia. Qed.

Lemma approvals_one c d : approvals [(c, d)] = if RecoveryApproved d then 1 else 0.
Proof. unfold approvals. rewrite filter_cons, filter_nil. cbn [snd]. by destruct (RecoveryApproved d); case_decide. Qed.

Lemma approved_begins m g at_ ev m' d : Step m g at_ ev = (m', Ok d) -> RecoveryApproved d = true -> ev = EventBeginRecovery.
Proof. intros Hs Ha. step_facts Hs. by case_event Hev; try congruence. Qed.

Lemma step_accepts m at_ ev : LastTick (snapshot m) <= at_ -> (forall raw, ev <> EventOther raw) -> ev <> EventOperatorResume ->
  exists m' d, Step m (Generation (snapshot m)) at_ ev = (m', Ok d) /\ LastTick (snapshot m') = at_.
Proof.
  intros Hl Ho Hr. destruct (apply_event (policy m) at_ ev (snapshot m)) as [[[s reason] approved]|e] eqn:Hx; cycle 1.
  { exfalso. unfold apply_event in Hx. destruct ev; cbv zeta in Hx; repeat case_match; try discriminate; [by destruct Hr|by eapply Ho]. }
  unfold Step. rewrite Z.eqb_refl, (proj2 (Z.ltb_ge _ _) Hl), Hx. cbn [negb]. eexists _, _. split; [reflexivity|].
  cbn [snapshot]. by case_decide.
Qed.

(** What was read of the state need not be used. *)
Lemma triple_unread {W E A} (w0 : W) P (m : M W E A) Q F C : triple P m Q F C -> triple (fun w => w = w0 /\ P w) m Q F C.
Proof. intros Hm w [_ Hw]. exact (Hm w Hw). Qed.

(** ** One observation *)

(** The machine of [w] is that of [p] after calls at this tick, [n] of which were approved
    recoveries. *)
Definition Ran (p : Planner.t) (at_ n : Z) (w : Planner.t) : Prop :=
  exists calls ds, run (Planner.machine p) calls = (Planner.machine w, ds) /\ approvals ds = n /\
    Forall (fun c => at_tick c = at_) calls.

Lemma ran_nothing p at_ w : Planner.machine w = Planner.machine p -> Ran p at_ 0 w.
Proof. intros E. exists [], []. by rewrite E. Qed.

Lemma ran_step p at_ n w ev m d : Ran p at_ n w -> Step (Planner.machine w) (Generation (current w)) at_ ev = (m, Ok d) ->
  Ran p at_ (n + (if RecoveryApproved d then 1 else 0)) (Planner.set_machine m w).
Proof.
  intros (calls & ds & Hr & Hn & Hc) Hs. set (c := {| expected := Generation (current w); at_tick := at_; call_event := ev |}).
  exists (calls ++ [c])%list, (ds ++ [(c, d)])%list. rewrite (run_app _ _ [c] _ _ Hr). cbn [run expected at_tick call_event c].
  rewrite Hs. rewrite approvals_app, approvals_one. split_and!; [done|lia|]. apply Forall_app. by split; [|constructor].
Qed.

Section plan.
Context (o : PlanObservation.t) (p0 : Planner.t).
Abbreviation at_ := (PlanObservation.At o).

(** Since when the host has been fully awake, this observation included. *)
Definition awake_since : Z := if Planner.trackingFullWake p0 then Planner.fullWakeSince p0 else at_.

(** While the planner decides: nothing has been asked for yet. *)
Record Mid (n : Z) (w : Planner.t) : Prop := {
  md_policy : Planner.policy w = Planner.policy p0;
  md_rescue : Planner.hasRequestedRescue w = Planner.hasRequestedRescue p0 /\ Planner.lastRescueAt w = Planner.lastRescueAt p0;
  md_wake : Planner.trackingFullWake w = true /\ Planner.fullWakeSince w = awake_since;
  md_seen : Planner.lastObservationAt w = at_ /\ Planner.hasObservation w = true;
  md_ran : Ran p0 at_ n w;
  md_tick : LastTick (current w) <= at_
}.

(** What an observation must show for a reconnection. *)
Record grounded : Prop := {
  gr_awake : unawake o = None;
  gr_settled : PlanPolicy.WakeSettle (Planner.policy p0) <= i64 (at_ - awake_since);
  gr_outer : PlanObservation.OuterReady o = true;
  gr_read : PlanObservation.ProfileUnreadable o = false;
  gr_disconnected : Connected (PlanObservation.Profile o) = false;
  gr_otp : PlanPolicy.OTPMinValid (Planner.policy p0) <= PlanObservation.OTPSecondsRemaining o
}.

Definition count (action : PlanAction) : Z := match action with ActionReconnect => 1 | _ => 0 end.

(** The planner after the observation. *)
Record Planned (plan : Plan.t) (w : Planner.t) : Prop := {
  pl_policy : Planner.policy w = Planner.policy p0;
  pl_rescue : match Plan.Action plan with
    | ActionRequestRescue => rescueRequestAllowed p0 at_ = true /\ Planner.hasRequestedRescue w = true /\ Planner.lastRescueAt w = at_
    | _ => Planner.hasRequestedRescue w = Planner.hasRequestedRescue p0 /\ Planner.lastRescueAt w = Planner.lastRescueAt p0
    end;
  pl_wake : match unawake o with
    | None => Planner.trackingFullWake w = true /\ Planner.fullWakeSince w = awake_since
    | Some _ => Planner.trackingFullWake w = false
    end;
  pl_seen : Planner.lastObservationAt w = at_ /\ Planner.hasObservation w = true;
  pl_ran : Ran p0 at_ (count (Plan.Action plan)) w;
  pl_tick : LastTick (current w) <= at_;
  pl_grounded : Plan.Action plan = ActionReconnect -> grounded
}.

Definition never (_ : Planner.t) : Prop := False.

Lemma triple_total {A} (P : Planner.t -> Prop) (m : M Planner.t plan_error A) (Q : A -> Planner.t -> Prop) w : triple P m Q never never -> P w ->
  match m w with (w', Done a) => Q a w' | _ => False end.
Proof. intros Hm Hw. specialize (Hm w Hw). by destruct (m w) as [w' [a|e|]]. Qed.

Lemma mid_step n ev : (forall raw, ev <> EventOther raw) -> ev <> EventOperatorResume ->
  triple (Mid n) (step at_ ev) (fun d => Mid (n + if RecoveryApproved d then 1 else 0)) never never.
Proof.
  intros Ho Hr w [Hp Hres Hw Hs Hran Ht]. unfold step. destruct (step_accepts (Planner.machine w) at_ ev Ht Ho Hr) as (m & d & Hst & Hl).
  unfold current in *. rewrite Hst. split; [done..|by eapply ran_step|].
  change (LastTick (snapshot m) <= at_). lia.
Qed.

(** A step that begins no recovery. *)
Lemma mid_other n ev : (forall raw, ev <> EventOther raw) -> ev <> EventOperatorResume -> ev <> EventBeginRecovery ->
  triple (Mid n) (step at_ ev) (fun _ => Mid n) never never.
Proof.
  intros Ho Hr Hb w Hw. pose proof (mid_step n ev Ho Hr w Hw) as Hm. destruct (step at_ ev w) as [w' [d|e|]] eqn:E; [|done..].
  destruct (RecoveryApproved d) eqn:Ha; [|by rewrite Z.add_0_r in Hm]. exfalso. unfold step in E.
  destruct (Step _ _ _ _) as [m [d'|e]] eqn:Es; [|done]. injection E as <- <-. by apply Hb; eapply approved_begins.
Qed.

Lemma mid_update n f : (forall p, Planner.policy (f p) = Planner.policy p /\ Planner.hasRequestedRescue (f p) = Planner.hasRequestedRescue p /\
    Planner.lastRescueAt (f p) = Planner.lastRescueAt p /\ Planner.trackingFullWake (f p) = Planner.trackingFullWake p /\
    Planner.fullWakeSince (f p) = Planner.fullWakeSince p /\ Planner.lastObservationAt (f p) = Planner.lastObservationAt p /\
    Planner.hasObservation (f p) = Planner.hasObservation p /\ Planner.machine (f p) = Planner.machine p) ->
  triple (Mid n) (update f : M Planner.t plan_error unit) (fun _ => Mid n) never never.
Proof.
  intros Hf. apply triple_update. intros w [Hp Hres Hw Hs (calls & ds & Hr & Hn) Ht]. destruct (Hf w) as (E1 & E2 & E3 & E4 & E5 & E6 & E7 & E8).
  split; rewrite ?E1, ?E2, ?E3, ?E4, ?E5, ?E6, ?E7; try done.
  - exists calls, ds. by rewrite E8.
  - unfold current in *. by rewrite E8.
Qed.

Lemma mid_quiet n : triple (Mid n) not_connecting (fun _ => Mid n) never never.
Proof. by apply mid_update. Qed.

Lemma mid_result n reason action next : unawake o = None -> n = count action -> action <> ActionRequestRescue -> (action = ActionReconnect -> grounded) ->
  triple (Mid n) (result_of reason action next) Planned never never.
Proof.
  intros Hu -> Ha Hg w [Hp Hres [Hw1 Hw2] Hs Hran Ht]. unfold result_of, get, mbind, M_bind, mret, M_ret.
  split; cbn [Plan.Action]; rewrite ?Hu; try done. by destruct action.
Qed.

Lemma mid_none reason next : unawake o = None -> triple (Mid 0) (result_of reason ActionNone next) Planned never never.
Proof. intros Hu. by apply mid_result. Qed.

Lemma mid_rescue reason : unawake o = None -> rescueRequestAllowed p0 at_ = true -> triple (Mid 0) (ask_rescue o reason) Planned never never.
Proof.
  intros Hu Hr w [Hp Hres [Hw1 Hw2] Hs (calls & ds & Hran) Ht]. unfold ask_rescue, result_of, get, update, mbind, M_bind, mret, M_ret.
  split; cbn [Plan.Action count]; rewrite ?Hu; try done. by exists calls, ds.
Qed.

Lemma mid_rescue_same n w : Mid n w -> rescueRequestAllowed w at_ = rescueRequestAllowed p0 at_.
Proof. intros [Hp [H1 H2] _ _ _ _]. unfold rescueRequestAllowed. by rewrite Hp, H1, H2. Qed.

Lemma on_connected_plans : unawake o = None -> triple (Mid 0) (on_connected o) Planned never never.
Proof.
  intros Hu. unfold on_connected. eapply triple_bind; [apply mid_quiet|]. intros []. eapply triple_bind; [by apply mid_other|]. intros d.
  apply triple_get. intros w. eapply triple_conseq with (P' := fun w' => rescueRequestAllowed w at_ = rescueRequestAllowed p0 at_ /\ Mid 0 w');
    [|by intros w' [-> Hw]; split; [eapply mid_rescue_same|]|done|done|done].
  apply triple_pure. intros E. destruct (bool_decide _ && rescueRequestAllowed w at_) eqn:Hb; [|by apply mid_none].
  apply andb_true_iff in Hb as [_ Hb]. apply mid_rescue; [done|congruence].
Qed.

Lemma reconnect_plans : unawake o = None -> PlanPolicy.WakeSettle (Planner.policy p0) <= i64 (at_ - awake_since) ->
  PlanObservation.OuterReady o = true -> PlanObservation.ProfileUnreadable o = false -> Connected (PlanObservation.Profile o) = false ->
  triple (Mid 0) (reconnect o) Planned never never.
Proof.
  intros Hu Hs Ho Hr Hc. unfold reconnect. eapply triple_bind; [by apply mid_other|]. intros d. apply triple_get. intros w.
  eapply triple_conseq with (P' := fun w' => Planner.policy w = Planner.policy p0 /\ Mid 0 w');
    [|by intros w' [-> Hw]; split; [apply Hw|]|done|done|done].
  apply triple_pure. intros Ep. destruct (To d); try by apply mid_none.
  destruct (Z.ltb_spec (PlanObservation.OTPSecondsRemaining o) (PlanPolicy.OTPMinValid (Planner.policy w))) as [Hlt|Hge]; [by apply mid_none|].
  eapply triple_bind; [by apply mid_step|]. intros d'. apply triple_get. intros w'.
  apply triple_unread.
  destruct (RecoveryApproved d').
  - apply mid_result; [done|done|done|]. intros _. split; try done. by rewrite <- Ep.
  - destruct (bool_decide _); by apply mid_none.
Qed.

Lemma on_disconnected_plans : unawake o = None -> PlanPolicy.WakeSettle (Planner.policy p0) <= i64 (at_ - awake_since) ->
  PlanObservation.OuterReady o = true -> PlanObservation.ProfileUnreadable o = false -> Connected (PlanObservation.Profile o) = false ->
  triple (Mid 0) (on_disconnected o) Planned never never.
Proof.
  intros Hu Hs Ho Hr Hc. unfold on_disconnected. apply triple_get. intros w. eapply triple_bind with (Q := fun _ => Mid 0).
  - apply triple_unread.
    destruct (ProfileObservation.Connecting _); [|apply mid_quiet]. destruct (Planner.trackingConnecting w); [by apply triple_ret|by apply mid_update].
  - intros []. apply triple_get. intros w'. apply triple_unread.
    destruct (_ && _); [by apply mid_none|]. destruct (_ && _); [by apply mid_none|by apply reconnect_plans].
Qed.

Lemma judge_plans : unawake o = None -> PlanPolicy.WakeSettle (Planner.policy p0) <= i64 (at_ - awake_since) ->
  PlanObservation.OuterReady o = true -> triple (Mid 0) (judge o) Planned never never.
Proof.
  intros Hu Hs Ho. unfold judge. apply triple_get. intros w. eapply triple_bind with (Q := fun _ => Mid 0).
  - apply triple_unread. destruct (bool_decide _); [|by apply triple_ret].
    eapply triple_bind; [by apply mid_other|]. intros d. by apply triple_ret.
  - intros []. apply triple_get. intros w'.
    eapply triple_conseq with (P' := fun w2 => rescueRequestAllowed w' at_ = rescueRequestAllowed p0 at_ /\ Mid 0 w2);
      [|by intros w2 [-> Hw]; split; [eapply mid_rescue_same|]|done|done|done].
    apply triple_pure. intros E. destruct (negb _ && _ && _) eqn:Hb.
    + apply andb_true_iff in Hb as [_ Hb]. eapply triple_bind; [by apply mid_other|]. intros d. apply mid_rescue; [done|congruence].
    + destruct (PlanObservation.ProfileUnreadable o) eqn:Hr; [eapply triple_bind; [by apply mid_other|]; intros d; by apply mid_none|].
      destruct (Connected (PlanObservation.Profile o)) eqn:Hc; [by apply on_connected_plans|by apply on_disconnected_plans].
Qed.

Lemma on_awake_plans w : unawake o = None -> Planner.policy w = Planner.policy p0 ->
  Planner.hasRequestedRescue w = Planner.hasRequestedRescue p0 /\ Planner.lastRescueAt w = Planner.lastRescueAt p0 ->
  Planner.trackingFullWake w = Planner.trackingFullWake p0 /\ Planner.fullWakeSince w = Planner.fullWakeSince p0 ->
  Planner.lastObservationAt w = at_ /\ Planner.hasObservation w = true -> Planner.machine w = Planner.machine p0 ->
  LastTick (current p0) <= at_ ->
  match on_awake o w with (w', Done plan) => Planned plan w' | _ => False end.
Proof.
  intros Hu Hp Hr [Hw1 Hw2] Hs Hm Ht. unfold on_awake, update. unfold mbind at 1, M_bind at 1.
  set (w1 := if Planner.trackingFullWake w then w else Planner.set_wake at_ true w).
  assert (Mid 0 w1) as Hmid.
  { unfold w1. destruct (Planner.trackingFullWake w) eqn:E; split; cbn; try done; unfold awake_since; rewrite <- ?Hw1, ?E; try done.
    all: first [by apply ran_nothing|by unfold current in *; cbn; rewrite Hm|by unfold current in *; rewrite <- Hm in Ht]. }
  clearbody w1. eapply (triple_total (Mid 0)); [|exact Hmid].
  apply triple_get. intros p.
  eapply triple_conseq with (P' := fun w2 => (Planner.policy p = Planner.policy p0 /\ Planner.fullWakeSince p = awake_since) /\ Mid 0 w2);
    [|by intros w2 [-> Hx]; split_and!; [apply Hx|apply Hx|]|done|done|done].
  apply triple_pure. intros [Ep Es]. rewrite Ep, Es. destruct (Z.ltb_spec (i64 (at_ - awake_since)) (PlanPolicy.WakeSettle (Planner.policy p0))) as [Hlt|Hge].
  - eapply triple_bind; [apply mid_quiet|]. intros []. eapply triple_bind; [by apply mid_other|]. intros d. by apply mid_none.
  - destruct (PlanObservation.OuterReady o) eqn:Ho; cbn [negb]; [|by apply mid_none].
    destruct (bool_decide _); [|by apply judge_plans]. destruct (_ <? _); [by apply mid_none|].
    eapply triple_bind; [by apply mid_other|]. intros d. by apply judge_plans.
Qed.
End plan.

(** An observation is refused and changes nothing, or it is planned for. *)
Lemma plan_planned o p :
  match plan o p with
  | (w, Done x) => Planned o p x w /\ 0 <= PlanObservation.At o /\
      (Planner.hasObservation p = true -> Planner.lastObservationAt p <= PlanObservation.At o)
  | (w, Failed _) => w = p
  | (_, Crashed) => False
  end.
Proof.
  unfold plan, get. unfold mbind at 1, M_bind at 1. destruct ((_ <? 0) || _ || _) eqn:E0; [done|].
  apply orb_false_iff in E0 as [[E0%Z.ltb_ge _]%orb_false_iff _].
  destruct ((_ <? LastTick _) || _) eqn:E1; [done|]. apply orb_false_iff in E1 as [E1%Z.ltb_ge E2].
  assert (Planner.hasObservation p = true -> Planner.lastObservationAt p <= PlanObservation.At o) as Hmono.
  { intros Hh. rewrite Hh in E2. by apply Z.ltb_ge in E2. }
  unfold update. unfold mbind at 1, M_bind at 1. destruct (unawake o) as [reason|] eqn:Hu.
  - unfold suspend, not_connecting, update, step, result_of, get, mbind, M_bind, mret, M_ret. cbn.
    destruct (step_accepts (Planner.machine p) (PlanObservation.At o) EventSuspend E1) as (m & d & Hs & Hl); [done|done|].
    unfold current. cbn. rewrite Hs. split; [|done]. split; cbn; rewrite ?Hu; try done.
    + assert (Ran p (PlanObservation.At o) 0 p) as Hr by (by apply ran_nothing).
      pose proof (ran_step p _ 0 p EventSuspend m d Hr Hs) as Hr'. destruct (RecoveryApproved d) eqn:Ha.
      * by pose proof (approved_begins _ _ _ _ _ _ Hs Ha).
      * exact Hr'.
    + unfold current. cbn. lia.
  - pose proof (on_awake_plans o p (Planner.set_observation (PlanObservation.At o) p) Hu eq_refl (conj eq_refl eq_refl)
      (conj eq_refl eq_refl) (conj eq_refl eq_refl) eq_refl E1) as Ha.
    by destruct (on_awake o _) as [w [x|e|]].
Qed.

(** ** A run of observations *)

(** The observations that were planned for, with their plans; the others are refused. *)
Fixpoint observe_all (os : list PlanObservation.t) (p : Planner.t) : list (PlanObservation.t * Plan.t) * Planner.t :=
  match os with
  | [] => ([], p)
  | o :: rest =>
      match plan o p with
      | (p', Done x) => let '(history, p'') := observe_all rest p' in ((o, x) :: history, p'')
      | (p', _) => observe_all rest p'
      end
  end.

Definition reconnects (history : list (PlanObservation.t * Plan.t)) : Z :=
  foldr (fun x n => count (Plan.Action x.2) + n) 0 history.

Lemma observe_all_cons o os p history p' : observe_all (o :: os) p = (history, p') ->
  observe_all os p = (history, p') \/
  exists x w history', Planned o p x w /\ 0 <= PlanObservation.At o /\
    (Planner.hasObservation p = true -> Planner.lastObservationAt p <= PlanObservation.At o) /\
    observe_all os w = (history', p') /\ history = (o, x) :: history'.
Proof.
  cbn [observe_all]. pose proof (plan_planned o p) as Hp. destruct (plan o p) as [w [x|e|]]; [|subst w; by left|done].
  destruct Hp as (Hp & H0 & Hm). destruct (observe_all os w) as [history' p2] eqn:E. intros [= <- <-]. right. by exists x, w, history'.
Qed.

Lemma observe_all_ran os p history p' : observe_all os p = (history, p') ->
  Planner.policy p' = Planner.policy p /\
  exists calls ds, run (Planner.machine p) calls = (Planner.machine p', ds) /\ approvals ds = reconnects history /\
    Forall (fun c => at_tick c ∈ map PlanObservation.At (map fst history)) calls.
Proof.
  revert p history. induction os as [|o os IH]; intros p history Hr.
  { injection Hr as <- <-. split; [done|]. by exists [], []. }
  apply observe_all_cons in Hr as [Hr|(x & w & history' & Hp & _ & _ & Hr & ->)]; [by apply IH|].
  destruct (IH w history' Hr) as (Ep & calls & ds & Hrun & Ha & Hc). destruct (pl_ran _ _ _ _ Hp) as (calls0 & ds0 & Hrun0 & Ha0 & Hc0).
  split; [by rewrite Ep, (pl_policy _ _ _ _ Hp)|]. exists (calls0 ++ calls)%list, (ds0 ++ ds)%list.
  rewrite (run_app _ _ calls _ _ Hrun0), Hrun, approvals_app, Ha0, Ha. split_and!; [done|done|]. apply Forall_app. split.
  - eapply Forall_impl; [exact Hc0|]. intros c ->. apply list_elem_of_here.
  - eapply Forall_impl; [exact Hc|]. intros c Hin. by apply list_elem_of_further.
Qed.

(** C23: the planner is its recovery machine.  Whatever is observed in whatever order, the
    calls that the planner makes on its machine are a run of the machine at the ticks of the
    observations, the planned reconnections are exactly the recoveries that this run approves,
    and so they stay within the budget of attempts for each spell of failure. *)
Theorem reconnects_are_approved_recoveries os p history p' :
  policy_ok (policy (Planner.machine p)) -> snapshot_inv (policy (Planner.machine p)) (current p) ->
  observe_all os p = (history, p') ->
  exists calls ds, run (Planner.machine p) calls = (Planner.machine p', ds) /\
    Forall (fun c => at_tick c ∈ map PlanObservation.At (map fst history)) calls /\
    reconnects history = approvals ds /\
    reconnects history + Attempts (current p) <= ActionBudget (policy (Planner.machine p)) * (1 + restorations ds).
Proof.
  intros Hp Hi (_ & calls & ds & Hrun & Ha & Hc)%observe_all_ran. exists calls, ds. split_and!; [done|done|done|].
  rewrite <- Ha. by eapply run_budget.
Qed.

(** *** What came before an action *)

Definition fully_awake (x : PlanObservation.t * Plan.t) : Prop := unawake x.1 = None.

(** The planner remembers since when the host has been awake, and its last request. *)
Record Remembers (past : list (PlanObservation.t * Plan.t)) (p : Planner.t) : Prop := {
  rm_wake : Planner.trackingFullWake p = true -> exists old first recent, past = (old ++ first :: recent)%list /\
    Forall fully_awake (first :: recent) /\ PlanObservation.At first.1 = Planner.fullWakeSince p;
  rm_seen : forall x, x ∈ past -> Planner.hasObservation p = true /\ 0 <= PlanObservation.At x.1 <= Planner.lastObservationAt p;
  rm_rescue : forall x, x ∈ past -> Plan.Action x.2 = ActionRequestRescue ->
    Planner.hasRequestedRescue p = true /\ PlanObservation.At x.1 <= Planner.lastRescueAt p <= Planner.lastObservationAt p
}.

(** What an action of a plan stands on. *)
Definition earned (policy : PlanPolicy.t) (past : list (PlanObservation.t * Plan.t)) (o : PlanObservation.t) (x : Plan.t) : Prop :=
  match Plan.Action x with
  | ActionNone => True
  | ActionReconnect =>
      PlanObservation.OuterReady o = true /\ PlanObservation.ProfileUnreadable o = false /\
      Connected (PlanObservation.Profile o) = false /\ PlanPolicy.OTPMinValid policy <= PlanObservation.OTPSecondsRemaining o /\
      exists old first recent, (past ++ [(o, x)])%list = (old ++ first :: recent)%list /\ Forall fully_awake (first :: recent) /\
        PlanObservation.At first.1 + PlanPolicy.WakeSettle policy <= PlanObservation.At o
  | ActionRequestRescue =>
      forall y, y ∈ past -> Plan.Action y.2 = ActionRequestRescue ->
        PlanObservation.At y.1 + Cooldown (PlanPolicy.Recovery policy) <= PlanObservation.At o
  end.

Section remembered.
Context (past : list (PlanObservation.t * Plan.t)) (o : PlanObservation.t) (x : Plan.t) (p w : Planner.t).
Hypothesis remembered : Remembers past p.
Hypothesis planned : Planned o p x w.
Hypothesis forward : Planner.hasObservation p = true -> Planner.lastObservationAt p <= PlanObservation.At o.
Hypothesis tick : 0 <= PlanObservation.At o <= max_i64.
Hypothesis cooldown : PlanObservation.At o + Cooldown (PlanPolicy.Recovery (Planner.policy p)) <= max_i64 /\
  0 <= Cooldown (PlanPolicy.Recovery (Planner.policy p)).

(** Since when the host has been awake, as it was observed. *)
Lemma awake_span : unawake o = None -> exists old first recent, (past ++ [(o, x)])%list = (old ++ first :: recent)%list /\
  Forall fully_awake (first :: recent) /\ PlanObservation.At first.1 = awake_since o p.
Proof.
  intros Hu. unfold awake_since. destruct (Planner.trackingFullWake p) eqn:Ht.
  - destruct (rm_wake _ _ remembered Ht) as (old & first & recent & E & Hf & Ha). exists old, first, (recent ++ [(o, x)])%list.
    rewrite E, <- app_assoc. split_and!; [done| |done]. rewrite app_comm_cons. apply Forall_app. split; [done|]. by constructor.
  - exists past, (o, x), []. split_and!; [done|by constructor|done].
Qed.

Lemma action_is_earned : earned (Planner.policy p) past o x.
Proof.
  unfold earned. pose proof (pl_rescue _ _ _ _ planned) as Hr. pose proof (pl_grounded _ _ _ _ planned) as Hg.
  destruct (Plan.Action x) eqn:E; [done| |].
  - destruct (Hg eq_refl) as [H1 H2 H3 H4 H5 H6]. split_and!; [done..|]. destruct (awake_span H1) as (old & first & recent & Ep & Hf & Ha).
    exists old, first, recent. split_and!; [done|done|]. rewrite Ha.
    assert (0 <= awake_since o p <= PlanObservation.At o) as Hs.
    { unfold awake_since in *. destruct (Planner.trackingFullWake p) eqn:Ht; [|lia].
      destruct (rm_wake _ _ remembered Ht) as (old' & f & r & E' & _ & <-). destruct (rm_seen _ _ remembered f) as [Hh Hb].
      - rewrite E'. apply elem_of_app. right. apply list_elem_of_here.
      - specialize (forward Hh). lia. }
    rewrite i64_small in H2 by (unfold min_i64; lia). lia.
  - intros y Hy Ey. destruct (rm_rescue _ _ remembered y Hy Ey) as [Hh Hb]. destruct (rm_seen _ _ remembered y Hy) as [Ho Hs].
    destruct Hr as [Hr _]. unfold rescueRequestAllowed in Hr. rewrite Hh in Hr. cbn [negb] in Hr. apply Z.leb_le in Hr.
    specialize (forward Ho). rewrite i64_small in Hr by (unfold min_i64; lia). lia.
Qed.

Lemma remembers_more : Remembers (past ++ [(o, x)])%list w.
Proof.
  pose proof (pl_seen _ _ _ _ planned) as [Hl Hh]. split.
  - intros Ht. pose proof (pl_wake _ _ _ _ planned) as Hw. destruct (unawake o) eqn:Hu; [congruence|]. destruct Hw as [_ ->]. by apply awake_span.
  - intros y [Hy|Hy]%elem_of_app; rewrite Hl; split; try done.
    + destruct (rm_seen _ _ remembered y Hy) as [Ho Hb]. specialize (forward Ho). lia.
    + apply list_elem_of_singleton in Hy as ->. cbn. lia.
  - intros y Hy Ey. rewrite Hl. pose proof (pl_rescue _ _ _ _ planned) as Hr. apply elem_of_app in Hy as [Hy|Hy].
    + destruct (rm_rescue _ _ remembered y Hy Ey) as [Ho Hb]. destruct (rm_seen _ _ remembered y Hy) as [Hs Hb'].
      specialize (forward Hs). destruct (Plan.Action x);
        [destruct Hr as [-> ->]|destruct Hr as [-> ->]|destruct Hr as (_ & -> & ->)]; (split; [done|lia]).
    + apply list_elem_of_singleton in Hy as ->. cbn [snd fst] in *. rewrite Ey in Hr. destruct Hr as (_ & -> & ->). split; [done|lia].
Qed.
End remembered.

Definition in_time (policy : PlanPolicy.t) (o : PlanObservation.t) : Prop :=
  PlanObservation.At o + Cooldown (PlanPolicy.Recovery policy) <= max_i64.

Lemma observe_all_earned os past p history p' : Remembers past p -> 0 <= Cooldown (PlanPolicy.Recovery (Planner.policy p)) ->
  Forall (in_time (Planner.policy p)) os -> observe_all os p = (history, p') ->
  forall before o x after, history = (before ++ (o, x) :: after)%list -> earned (Planner.policy p) (past ++ before) o x.
Proof.
  revert past p history. induction os as [|o' os IH]; intros past p history Hm Hc Ht Hr before o x after E.
  { injection Hr as <- <-. by destruct before. }
  apply Forall_cons in Ht as [Ht Hts]. apply observe_all_cons in Hr as [Hr|(x' & w & history' & Hp & H0 & Hf & Hr & ->)]; [by eapply IH|].
  unfold in_time in Ht. assert (0 <= PlanObservation.At o' <= max_i64) as Hk by lia. pose proof (pl_policy _ _ _ _ Hp) as Ep.
  destruct before as [|y before].
  - injection E as -> -> ->. rewrite app_nil_r. eapply action_is_earned; [done|done|done|done|]. done.
  - injection E as <- E. rewrite <- Ep. replace (past ++ (o', x') :: before)%list with ((past ++ [(o', x')]) ++ before)%list by (by rewrite <- app_assoc).
    eapply (IH _ w history'); [by eapply remembers_more|by rewrite Ep|by rewrite Ep|done|done].
Qed.

Lemma new_remembers policy s p : NewPlanner policy s = Ok p ->
  Remembers [] p /\ Planner.policy p = policy /\ 0 <= Cooldown (PlanPolicy.Recovery policy).
Proof.
  unfold NewPlanner. destruct (_ || _); [discriminate|]. intros (m & Hm & [= <-])%bind_Ok. split.
  - split; [done|..]; intros y Hy; by apply elem_of_nil in Hy.
  - split; [done|]. cbn. unfold NewMachine in Hm. destruct (validatePolicy (PlanPolicy.Recovery policy)) as [[]|] eqn:Hv; [|discriminate].
    unfold validatePolicy, ensure in Hv. inv_result. bool_prop. lia.
Qed.

(** C22: every action of a planner is earned by what was observed.  A reconnection is planned
    only for a profile that was read and is not connected, over a ready outer path, with enough
    of the one-time code's period left, and when the host was seen fully awake, in every
    observation that was planned for, from one that lies at least the settling time back; two
    requests for a rescue are at least the cooldown apart. *)
Theorem actions_are_earned policy s p os history p' before o x after :
  NewPlanner policy s = Ok p -> Forall (in_time policy) os -> observe_all os p = (history, p') ->
  history = (before ++ (o, x) :: after)%list -> earned policy before o x.
Proof.
  intros (Hm & Ep & Hc)%new_remembers Ht Hr E. rewrite <- Ep in *. by apply (observe_all_earned os [] p history p' Hm Hc Ht Hr before o x after E).
Qed.

(** ** A concrete planner *)
Module PritunlSample.

Definition policy : PlanPolicy.t := PlanPolicy.mk demo_policy 5 4 30 10.

Definition planner : Planner.t :=
  Planner.mk policy {| Machine.policy := demo_policy; snapshot := NewSnapshot StateHealthy |} 0 false 0 false 0 false 0 false.

Lemma planner_new : NewPlanner policy (NewSnapshot StateHealthy) = Ok planner.
Proof. reflexivity. Qed.

Definition lost : ProfileObservation.t := ProfileObservation.mk true ProfileInactive false false.

Definition seen (at_ : Z) (lid : LidState) (service : ServiceState) : PlanObservation.t :=
  PlanObservation.mk at_ SessionActive lid WakeKindFull true lost OptionalInnerUnknown 20 service false.

Definition awake (at_ : Z) := seen at_ LidStateOpen ServiceRunning.

(** The host wakes, settles, and its profile fails twice; then its service is gone. *)
Definition day : list PlanObservation.t :=
  [awake 1; awake 6; awake 7; seen 20 LidStateOpen ServiceStopped; seen 30 LidStateOpen ServiceStopped].

Definition summary (history : list (PlanObservation.t * Plan.t)) : list (Z * PlanAction * PlanReason) :=
  map (fun x => (PlanObservation.At x.1, Plan.Action x.2, Plan.Reason x.2)) history.

Lemma day_planned : summary (fst (observe_all day planner)) =
  [(1, ActionNone, ReasonWakeSettling); (6, ActionNone, ReasonProfileNotConnected); (7, ActionReconnect, ReasonReconnectAllowed);
   (20, ActionRequestRescue, ReasonServiceNotRunning); (30, ActionReconnect, ReasonReconnectAllowed)].
Proof. vm_compute. reflexivity. Qed.

Lemma reconnects_are_approved_recoveries_witness : exists calls ds,
  run (Planner.machine planner) calls = (Planner.machine (snd (observe_all day planner)), ds) /\ approvals ds = 2 /\
  2 + 0 <= 3 * (1 + restorations ds).
Proof.
  destruct (reconnects_are_approved_recoveries day planner _ _ demo_policy_ok
    ltac:(apply fresh_inv; [apply demo_policy_ok|done|done]) (surjective_pairing _)) as (calls & ds & Hr & _ & Ha & Hb).
  exists calls, ds. split; [exact Hr|]. change (reconnects (fst (observe_all day planner))) with 2 in *. split; [by symmetry|exact Hb].
Defined.

Definition third_plan : Plan.t :=
  match fst (observe_all day planner) with [_; _; (_, x); _; _] => x | _ => Plan.mk true StateHealthy ActionNone PReasonNone 0 (NewSnapshot StateHealthy) end.

Lemma actions_are_earned_witness : earned policy (take 2 (fst (observe_all day planner))) (awake 7) third_plan /\
  Plan.Action third_plan = ActionReconnect.
Proof.
  split; [|reflexivity].
  apply (actions_are_earned policy (NewSnapshot StateHealthy) planner day (fst (observe_all day planner)) (snd (observe_all day planner)) _ _ _ (drop 3 (fst (observe_all day planner))) planner_new).
  - repeat constructor; vm_compute; discriminate.
  - exact (surjective_pairing _).
  - vm_compute. reflexivity.
Defined.

(** A planner in safe mode waits for its cooldown, as long as the host stays awake. *)
Definition steady : Planner.t := snd (observe_all [awake 1; awake 6] planner).
Definition safe : Planner.t := fst (EnterSafeMode (fun _ => true) (Generation (current steady)) 10 steady).

Lemma safe_mode_waits : SafeUntil (current safe) = 610 /\
  summary (fst (observe_all [awake 11; awake 16; awake 17] safe)) =
    [(11, ActionNone, PReasonRecoveryBudget); (16, ActionNone, PReasonRecoveryBudget); (17, ActionNone, PReasonRecoveryBudget)].
Proof. vm_compute. split; reflexivity. Qed.

(** Once the lid was closed it is healthy again with a fresh budget, long before the
    cooldown is over. *)
Lemma sleeping_lifts_safe_mode :
  summary (fst (observe_all [seen 11 LidStateClosed ServiceRunning; awake 12; awake 17; awake 18] safe)) =
    [(11, ActionNone, ReasonLidClosed); (12, ActionNone, ReasonWakeSettling); (17, ActionNone, ReasonProfileNotConnected);
     (18, ActionReconnect, ReasonReconnectAllowed)].
Proof. vm_compute. reflexivity. Qed.

(** So it is in the next process, which starts from the snapshot and lets the host settle. *)
Definition restarted : Planner.t := Planner.mk policy (Planner.machine safe) 0 false 0 false 0 false 0 false.

Lemma restarting_lifts_safe_mode : NewPlanner policy (current safe) = Ok restarted /\
  summary (fst (observe_all [awake 11; awake 16; awake 17] restarted)) =
    [(11, ActionNone, ReasonWakeSettling); (16, ActionNone, ReasonProfileNotConnected); (17, ActionReconnect, ReasonReconnectAllowed)].
Proof. vm_compute. split; reflexivity. Qed.
End PritunlSample.
